(* ===== verification/_CoqProject ===== *)
-Q . S2P
Prelude.v
InStream.v
OutStream.v
BufferedInStream.v
BufferedOutStream.v
Strings.v
D3des.v
PixelFmt.v
Geometry.v
Screens.v
Params.v
Cursors.v
Clipboard.v
ClientMsgs.v
ClientDelivery.v
ServerMsgs.v
Decoders.v
ServerReader.v
ServerWriter.v
ServerDelivery.v
Updates.v
ServerSession.v
SocketDelivery.v
Security.v
Link.v
SSecurity.v
CSecurity.v
SConnection.v
ServerAccess.v
ServerLoop.v
CConnection.v
Handshake.v
Palette.v
Pixels.v
RRE.v
Tiles.v
Hextile.v
ZRLE.v
Regions.v
Analysis.v
InputQueue.v
MiddleButton.v
Shortcuts.v
Scheduler.v
SessionInput.v
