(* ===== verification/Prelude.v ===== *)
(** * TidyVNC: the protocol core of a VNC server and its viewer

    TidyVNC is a VNC server and viewer.  The library under [src/common] is shared
    by both: streams ([rdr]), values ([core]) and the RFB protocol ([rfb]);
    [src/viewer/core] is the part of the viewer that does not depend on a
    toolkit.  This development models the path of a connection through them: the
    buffers of both ends, the handshake with its authentication, the messages in
    both directions, the pixels of most encodings, and, on the viewer's side, the
    way of a key press from the user interface to the writer.

    ** How the files follow the program

    Values:
    - [Strings] is [core/string.cxx], [Geometry] is [core/Rect.h], [Screens] is
      [rfb/ScreenSet.h], [PixelFmt] is [rfb/PixelFormat], [Cursors] is
      [rfb/Cursor.cxx], [D3des] is [rfb/d3des.c] with [obfuscate.cxx], [Params]
      is [rfb/ClientParams] and [ServerParams] with the constants they use.

    Streams:
    - [InStream] and [OutStream] are what the code above sees of a stream.  A
      reader is a value of [prog]: the calls it makes on the stream and on its
      handler, in order.  [guarded] is the discipline readers keep ([hasData]
      before every read, the restore point); everything below uses it.
    - [BufferedInStream] and [BufferedOutStream] are the buffers of [rdr], with
      [FdInStream] and [FdOutStream] as instances of the classes [Device] and
      [Sink].
    - [Link] is the pair of streams a connection holds.

    Messages:
    - [Clipboard] is what both directions share, [ClientMsgs] is [CMsgWriter] and
      [SMsgReader], [ServerMsgs] is [CMsgReader], [ServerWriter] is [SMsgWriter],
      [Decoders] is the reading half of [DecodeManager] and the decoders (all but
      JPEG), an instance of the class [RectDecoder] the reader asks for.
    - [ClientDelivery], [ServerReader], [ServerDelivery], [Updates],
      [ServerSession] and [SocketDelivery] compose writer and reader, at last
      over the two buffers and a socket that takes and gives pieces of any size.

    Connections:
    - [Security] is [rfb/Security] and [AccessRights]; [SSecurity] and [CSecurity]
      are the security objects of the two sides with VeNCrypt and the stacks;
      [SConnection] is [SConnection.cxx] with the input half of
      [VNCSConnectionST.cxx], over the server as a class [Owner]; [CConnection] is
      the handshake of [CConnection.cxx] and the client's first request (format,
      encodings, picture), over what the viewer sets and does, the class [Viewer].
    - [ServerAccess] and [ServerLoop] prove what a server promises, [Handshake]
      what the two connections do together.

    Pixels:
    - [Palette] is [rfb/Palette.h], [Pixels] is [PixelBuffer.cxx]; [RRE] (with
      Raw), [Hextile] and [ZRLE] are the encoder and the decoder of that name
      ([rfb/RREEncoder.cxx] and [RREDecoder.cxx] and so on), the last two over
      [Tiles], which cuts a rectangle into tiles and composes what is proved of
      one tile.  They give the bytes of a rectangle, which the parameter [decode]
      of [Decoders] takes.
    - [Regions] is the order of boxes in [core/Region.cxx], over pixman as a class;
      [Analysis] is the part of [EncodeManager.cxx] that divides a rectangle,
      makes its palette and looks for rectangles of one colour.

    The viewer ([src/viewer/core]):
    - [InputQueue], [MiddleButton], [Shortcuts] and [Scheduler] are the components
      of that name; [SessionInput] is the input side of [ProtocolSession], which
      uses them.

    A name of the source is kept where it can be; [set_x] is an assignment to
    the field [x]; [SE S A] (in [Prelude]) is a computation that changes a state
    [S] and may throw, and keeps the state it had when it throws, as C++ does.
    [Prelude] also has the exceptions, machine integers as [Z] with the wrap
    written out ([u8], [u16], [u32], [s32]), and the tactics ([zlia], [llia]).

    ** What the theorems show

    - Delivery.  What one side writes is what the other side's handler is told,
      in order, through both buffers and whatever the socket does
      ([client_reaches_server], [server_reaches_client], and the theorems on the
      messages and updates they are made of).
    - Readers.  On any bytes both message loops end and never touch a byte they
      have not asked for ([SMsgReader_total], [CMsgReader_total]), but for one way
      to hang that the code has: [ZlibInStream] behind an end marker in the
      compressed data of a clipboard message, which is the outcome [endless].
      Where the bytes are cut makes no difference ([..._segmentation]).
    - Buffers.  The buffers refine the streams the readers and writers are stated
      over, and lose nothing when a subclass throws.
    - Access.  On every sequence of events a server obeys a client only after its
      authentication and an approval, within the rights that gave, and with a
      password only after the right answer to a fresh challenge; what a client
      holds down is released when it goes; a failed client is told late and
      hears nothing else; the message loop ends, with the same exception.
    - Handshake.  A server and a client that talk over a network that delivers in
      pieces of any size come to the same moment whatever the pieces, and this is
      described: refused, asked to wait for the user, or in a session, with the
      client's first request on its way to a server that will read it as such.
    - Encodings.  What an encoder makes of a rectangle its decoder draws, at the
      right place and nowhere else, for every picture; the palette is a table of
      colours by frequency; moving a rectangle is right whatever the overlap.
    - Cipher, text, pixel formats, cursors, layouts: round trips, equivalences of fast
      paths, and exact specifications.
    - Viewer.  The mailbox delivers what was submitted up to the coalescing it
      promises, in every interleaving; the emulation, the shortcuts and the
      timers meet their specifications; whatever is held down is known to the
      session and released in order when focus goes.

    ** Bounds and fuel

    [message_loop] has fuel of twice the bytes that have arrived and eight more:
    [message_loop_ends] proves that the result is that of the loop without fuel,
    wherever that has one.
    The loops of [SessionInput] have the bound the source gives them (one command
    more than the mailbox holds).  [Scheduler.dispatch_loop] counts the budget its
    caller gives, as the source does.  Reader loops recurse
    on the announced counts.  [BufferedInStream] proves its growth loop from the
    requested size.  [int] coordinates and sizes are exact integers: their
    overflow is undefined in C++; unsigned arithmetic wraps as in the source.

    ** Parameters

    zlib ([deflate]; [inflate] gives the bytes of a compressed message and how it
    ends: zlib wants more, has stopped at an end marker, or has failed), what the
    decoder threads draw ([decode]), what the viewer sets when a session begins, TLS, RSA-AES, DH and MSLogonII, the source of random data, the
    password file, the platform's password check, the clock, sockets, callbacks
    of timers, and the user.  Hypotheses about them are stated where they are
    used, and hold of the instances the witnesses give.

    ** Not modelled

    Tight, JPEG and H.264 pixels, how [JPEGDecoder] finds the end of its data (it
    looks at whatever has arrived), zlib around the data of ZRLE, [EncodeManager]'s
    choice of an encoder, [DecodeManager]'s threads, the
    conversion of whole buffers between formats, update tracking and the set
    operations of regions (pixman), congestion control, the framebuffer half of [VNCSConnectionST] and
    the server core [VNCServerST] (an interface here), configuration parameters,
    logging, timers of [core], the security methods that are calls of GnuTLS and
    Nettle, the rest of [ProtocolSession] (clipboard, events, publication,
    resizing), the viewer's documents and certificates, and everything that is a
    user interface or platform glue ([src/vncviewer], [src/unix], [src/win],
    [src/apps], [src/platform], [src/viewer/bridge]). *)
From stdpp Require Import base list numbers strings option.

#[global] Open Scope Z_scope.

Declare Scope vnc_scope.
Delimit Scope vnc_scope with vnc.
#[global] Open Scope vnc_scope.

(** ** Exceptions and results *)

(** The C++ exception classes the modelled code throws; the payload is the
    (untranslated) message text where the code gives one; that of an
    [auth_error] may come from the peer, and is given by its bytes.  [endless] is
    none: it stands for a call that never returns, for the compressed data
    [ZlibInStream::fillBuffer] is caught in; nothing catches it. *)
Inductive exn : Type :=
| protocol_error (what : string)
| out_of_range (what : string)
| logic_error (what : string)
| invalid_argument (what : string)
| runtime_error (what : string)
| overflow_error (what : string)
| length_error (what : string)
| auth_error (what : list Z)
| end_of_stream
| endless (data : list Z).

(** The result of code that may throw. *)
Inductive res (A : Type) : Type :=
| Ok (a : A)
| Throw (e : exn).
Arguments Ok {A} _.
Arguments Throw {A} _.

#[export] Instance res_ret : MRet res := @Ok.
#[export] Instance res_bind : MBind res := fun A B f m =>
  match m with Ok a => f a | Throw e => Throw e end.

(** Computations that change a state and may throw; a throw keeps the state it
    has come to. *)
Definition SE (S A : Type) : Type := S -> res A * S.

#[export] Instance SE_ret {S} : MRet (SE S) := fun _ a s => (Ok a, s).
#[export] Instance SE_bind {S} : MBind (SE S) := fun _ _ f m s =>
  match m s with
  | (Ok a, s') => f a s'
  | (Throw e, s') => (Throw e, s')
  end.
#[export] Instance SE_fmap {S} : FMap (SE S) := fun _ _ f m s =>
  match m s with
  | (Ok a, s') => (Ok (f a), s')
  | (Throw e, s') => (Throw e, s')
  end.
Definition st_throw {S A} (e : exn) : SE S A := fun s => (Throw e, s).
Definition st_change {S} (f : S -> S) : SE S unit := fun s => (Ok tt, f s).
Definition st_get {S} : SE S S := fun s => (Ok s, s).
(** [try { m } catch (...) { handler; throw; }] *)
Definition st_catch {S A} (m : SE S A) (handler : SE S unit) : SE S A := fun s =>
  match m s with
  | (Ok a, s') => (Ok a, s')
  | (Throw e, s') => match handler s' with (Ok _, s2) => (Throw e, s2) | (Throw e2, s2) => (Throw e2, s2) end
  end.

#[export] Instance exn_eq_dec : EqDecision exn.
Proof. solve_decision. Defined.

(** [st_ends m Q E s]: from [s], [m] returns with [Q] or throws with [E]. *)
Definition st_ends {S A} (m : SE S A) (Q : A -> S -> Prop) (E : exn -> S -> Prop) (s : S) : Prop :=
  match m s with
  | (Ok a, s') => Q a s'
  | (Throw e, s') => E e s'
  end.

Section st_ends.
Context {S : Type} (E : exn -> S -> Prop).

Lemma ends_ret {A} (a : A) Q s : Q a s -> st_ends (mret a) Q E s.
Proof. done. Qed.

Lemma ends_throw {A} e (Q : A -> S -> Prop) s : E e s -> st_ends (st_throw e) Q E s.
Proof. done. Qed.

Lemma ends_get Q s : Q s s -> st_ends st_get Q E s.
Proof. done. Qed.

Lemma ends_change f Q s : Q tt (f s) -> st_ends (st_change f) Q E s.
Proof. done. Qed.

Lemma ends_bind {A B} (m : SE S A) (f : A -> SE S B) Q s :
  st_ends m (fun a => st_ends (f a) Q E) E s -> st_ends (m ≫= f) Q E s.
Proof. unfold st_ends, mbind, SE_bind. destruct (m s) as [[a|e] s']; done. Qed.

Lemma ends_conseq {A} (m : SE S A) (Q R : A -> S -> Prop) s :
  st_ends m Q E s -> (forall a s', Q a s' -> R a s') -> st_ends m R E s.
Proof. unfold st_ends. destruct (m s) as [[a|e] s']; auto. Qed.

Lemma ends_conseq_throw {A} (m : SE S A) (F : exn -> S -> Prop) Q s :
  st_ends m Q E s -> (forall e s', E e s' -> F e s') -> st_ends m Q F s.
Proof. unfold st_ends. destruct (m s) as [[a|e] s']; auto. Qed.

Lemma ends_catch {A} (m : SE S A) h Q s :
  st_ends m Q (fun e => st_ends h (fun _ => E e) E) s -> st_ends (st_catch m h) Q E s.
Proof.
  unfold st_ends, st_catch. destruct (m s) as [[a|e] s']; [done|]. by destruct (h s') as [[u|e2] s2].
Qed.

(** A step of a sequence by its own specification. *)
Lemma ends_seq {A B} (m : SE S A) (f : A -> SE S B) R Q s :
  st_ends m R E s -> (forall a s', R a s' -> st_ends (f a) Q E s') -> st_ends (m ≫= f) Q E s.
Proof. intros Hm Hf. apply ends_bind. by eapply ends_conseq. Qed.
End st_ends.

(** A step whose result is known. *)
Lemma run_bind {S A B} (m : SE S A) (f : A -> SE S B) s a s' r : m s = (Ok a, s') -> f a s' = r -> (m ≫= f) s = r.
Proof. intros Hm Hf. unfold mbind, SE_bind. by rewrite Hm. Qed.
Lemma run_throw {S A B} (m : SE S A) (f : A -> SE S B) s e s' : m s = (Throw e, s') -> (m ≫= f) s = (Throw e, s').
Proof. intros Hm. unfold mbind, SE_bind. by rewrite Hm. Qed.

(** ** Machine integers: bytes are [Z] in [0, 256) *)

Definition u8 (z : Z) : Z := z mod 2 ^ 8.
Definition u16 (z : Z) : Z := z mod 2 ^ 16.
Definition u32 (z : Z) : Z := z mod 2 ^ 32.
Definition u64 (z : Z) : Z := z mod 2 ^ 64.
Definition s16 (z : Z) : Z := (z + 2 ^ 15) mod 2 ^ 16 - 2 ^ 15.
Definition s32 (z : Z) : Z := (z + 2 ^ 31) mod 2 ^ 32 - 2 ^ 31.
(** C's conversion from [bool] to an integer and back. *)
Definition b2z (b : bool) : Z := if b then 1 else 0.
Definition z2b (z : Z) : bool := negb (z =? 0).

Definition is_byte (b : Z) : Prop := 0 <= b < 2 ^ 8.
Definition bytes (l : list Z) : Prop := Forall is_byte l.

(** ** Lists measured in [Z] *)

Definition len {A} (l : list A) : Z := Z.of_nat (length l).
Definition ztake {A} (n : Z) (l : list A) : list A := take (Z.to_nat n) l.
Definition zdrop {A} (n : Z) (l : list A) : list A := drop (Z.to_nat n) l.
(** [l[i]], with [d] where the index is out of range. *)
Definition znth {A} (d : A) (l : list A) (i : Z) : A := nth (Z.to_nat i) l d.

(** [while (size < needed) size *= 2], with [fuel] doublings at most. *)
Fixpoint double_until (fuel : nat) (size needed : Z) : Z :=
  match fuel with
  | O => size
  | S fuel => if size <? needed then double_until fuel (size * 2) needed else size
  end.

(** The bytes of a text in the source. *)
Definition text (s : string) : list Z := map (fun a => Z.of_nat (Ascii.nat_of_ascii a)) (String.list_ascii_of_string s).

(** ** Tactics *)

Create HintDb vnc discriminated.
Create Rewrite HintDb len.

(** Splits on the boolean comparisons and conditionals of goal and context. *)
Ltac bool_decide_hyps :=
  repeat match goal with
  | H : (_ && _) = true |- _ => apply andb_true_iff in H as [? ?]
  | H : (_ || _) = false |- _ => apply orb_false_iff in H as [? ?]
  | H : negb _ = true |- _ => apply negb_true_iff in H
  | H : negb _ = false |- _ => apply negb_false_iff in H
  | H : (_ >? _) = _ |- _ => rewrite Z.gtb_ltb in H
  | H : (_ >=? _) = _ |- _ => rewrite Z.geb_leb in H
  | H : (_ <=? _) = true |- _ => apply Z.leb_le in H
  | H : (_ <=? _) = false |- _ => apply Z.leb_gt in H
  | H : (_ <? _) = true |- _ => apply Z.ltb_lt in H
  | H : (_ <? _) = false |- _ => apply Z.ltb_ge in H
  | H : (_ =? _) = true |- _ => apply Z.eqb_eq in H
  | H : (_ =? _) = false |- _ => apply Z.eqb_neq in H
  end.

(** Case analysis on the first test of the goal. *)
Ltac case_test :=
  match goal with
  | |- context [if ?b then _ else _] => destruct b eqn:?
  end; bool_decide_hyps.

(** Evaluates the constant powers of two. *)
Ltac eval_pow2 :=
  repeat match goal with
  | |- context [Z.pow 2 (Zpos ?n)] =>
      let v := eval compute in (Z.pow 2 (Zpos n)) in change (Z.pow 2 (Zpos n)) with v
  | H : context [Z.pow 2 (Zpos ?n)] |- _ =>
      let v := eval compute in (Z.pow 2 (Zpos n)) in change (Z.pow 2 (Zpos n)) with v in H
  end.

(** Linear arithmetic with division and remainder by constants. *)
Ltac zlia := eval_pow2; Z.to_euclidean_division_equations; lia.

(** Evaluates a test between closed terms. *)
Ltac eval_test :=
  match goal with
  | |- context [if ?b then _ else _] =>
      first [change b with true|change b with false]; cbv iota
  end.

(** ** Generic lemmas *)

Section length.
Context {A : Type}.
Implicit Types l : list A.

Lemma len_nil : len (@nil A) = 0.
Proof. reflexivity. Qed.

Lemma len_cons (x : A) l : len (x :: l) = 1 + len l.
Proof. unfold len. cbn [length]. lia. Qed.

Lemma len_app l k : len (l ++ k) = len l + len k.
Proof. unfold len. rewrite length_app. lia. Qed.

Lemma len_nonneg l : 0 <= len l.
Proof. unfold len. lia. Qed.

Lemma len_ztake n l : 0 <= n <= len l -> len (ztake n l) = n.
Proof. unfold len, ztake. intros. rewrite length_take. lia. Qed.

Lemma len_zdrop n l : 0 <= n <= len l -> len (zdrop n l) = len l - n.
Proof. unfold len, zdrop. intros. rewrite length_drop. lia. Qed.

Lemma len_zdrop_max n l : 0 <= n -> len (zdrop n l) = Z.max 0 (len l - n).
Proof. intros. unfold len, zdrop. rewrite length_drop. lia. Qed.

Lemma zdrop_all n l : len l <= n -> zdrop n l = [].
Proof. intros H. unfold len in H. apply drop_ge. lia. Qed.

Lemma ztake_zdrop n l : ztake n l ++ zdrop n l = l.
Proof. apply take_drop. Qed.

Lemma ztake_all l : ztake (len l) l = l.
Proof. unfold ztake, len. rewrite Nat2Z.id. apply take_ge. lia. Qed.
Lemma ztake_eq n l : n = len l -> ztake n l = l.
Proof. intros ->. apply ztake_all. Qed.

Lemma ztake_app n l k : n = len l -> ztake n (l ++ k) = l.
Proof. unfold ztake, len. intros ->. rewrite Nat2Z.id. apply take_app_length. Qed.

Lemma zdrop_app n l k : n = len l -> zdrop n (l ++ k) = k.
Proof. unfold zdrop, len. intros ->. rewrite Nat2Z.id. apply drop_app_length. Qed.

Lemma ztake_app_le n l k : n <= len l -> ztake n (l ++ k) = ztake n l.
Proof. unfold ztake, len. intros. apply take_app_le. lia. Qed.

Lemma zdrop_app_le n l k : n <= len l -> zdrop n (l ++ k) = zdrop n l ++ k.
Proof. unfold zdrop, len. intros. apply drop_app_le. lia. Qed.

Lemma len_zero_nil l : len l = 0 -> l = [].
Proof. destruct l; [done|]. rewrite len_cons. pose proof (len_nonneg l). lia. Qed.

Lemma len_replicate n (x : A) : len (replicate n x) = Z.of_nat n.
Proof. unfold len. by rewrite length_replicate. Qed.
End length.

#[export] Hint Rewrite @len_nil @len_cons @len_app @len_replicate : len.

(** Normalises list lengths, then linear arithmetic. *)
Ltac llia :=
  autorewrite with len in *;
  repeat match goal with
  | |- context [len ?l] => lazymatch goal with
      | _ : 0 <= len l |- _ => fail | _ => pose proof (len_nonneg l) end
  | _ : context [len ?l] |- _ => lazymatch goal with
      | _ : 0 <= len l |- _ => fail | _ => pose proof (len_nonneg l) end
  end; lia.

Lemma len_map {A B} (f : A -> B) l : len (map f l) = len l.
Proof. unfold len. by rewrite length_map. Qed.
#[export] Hint Rewrite @len_map : len.

Lemma bytes_app l k : bytes (l ++ k) <-> bytes l /\ bytes k.
Proof. apply Forall_app. Qed.

Lemma bytes_ztake n l : bytes l -> bytes (ztake n l).
Proof. apply Forall_take. Qed.

Lemma bytes_zdrop n l : bytes l -> bytes (zdrop n l).
Proof. apply Forall_drop. Qed.
#[export] Hint Resolve bytes_ztake bytes_zdrop : vnc.

(** *** Unsigned and signed conversions *)

Lemma u8_range z : 0 <= u8 z < 256.
Proof. unfold u8. apply Z.mod_pos_bound. lia. Qed.

Lemma u16_range z : 0 <= u16 z < 65536.
Proof. unfold u16. apply Z.mod_pos_bound. lia. Qed.

Lemma u32_range z : 0 <= u32 z < 4294967296.
Proof. unfold u32. apply Z.mod_pos_bound. lia. Qed.

Lemma u64_range z : 0 <= u64 z < 2 ^ 64.
Proof. unfold u64. apply Z.mod_pos_bound. lia. Qed.

Lemma s32_range z : - 2 ^ 31 <= s32 z < 2 ^ 31.
Proof. unfold s32. zlia. Qed.

Lemma u8_byte z : is_byte (u8 z).
Proof. unfold is_byte. pose proof (u8_range z). lia. Qed.
#[export] Hint Resolve u8_range u16_range u32_range u8_byte : vnc.

Lemma u8_id z : 0 <= z < 256 -> u8 z = z.
Proof. unfold u8. intros. by rewrite Z.mod_small by lia. Qed.

Lemma u16_id z : 0 <= z < 65536 -> u16 z = z.
Proof. unfold u16. intros. by rewrite Z.mod_small by lia. Qed.

Lemma u32_id z : 0 <= z < 4294967296 -> u32 z = z.
Proof. unfold u32. intros. by rewrite Z.mod_small by lia. Qed.

Lemma u64_id z : 0 <= z < 2 ^ 64 -> u64 z = z.
Proof. unfold u64. intros. by rewrite Z.mod_small by lia. Qed.

Lemma s32_u32 z : s32 (u32 z) = s32 z.
Proof. unfold s32, u32. zlia. Qed.

Lemma s32_id z : - 2147483648 <= z < 2147483648 -> s32 z = z.
Proof. unfold s32. intros. rewrite Z.mod_small; lia. Qed.

Lemma z2b_b2z b : z2b (b2z b) = b.
Proof. by destruct b. Qed.

Lemma z2b_u8 b : z2b (u8 (b2z b)) = b.
Proof. by destruct b. Qed.

Lemma z2b_u16 b : z2b (u16 (b2z b)) = b.
Proof. by destruct b. Qed.

Lemma b2z_range b : 0 <= b2z b <= 1.
Proof. destruct b; cbn; lia. Qed.

(** [a << n | b] with [b] below [2^n] is an addition. *)
Lemma lor_shiftl_add a b n : 0 <= n -> 0 <= b < 2 ^ n ->
  Z.lor (Z.shiftl a n) b = a * 2 ^ n + b.
Proof.
  intros Hn Hb.
  assert (Hz : Z.land (Z.shiftl a n) b = 0).
  { apply Z.bits_inj'. intros i Hi. rewrite Z.land_spec, Z.bits_0.
    destruct (Z.ltb_spec i n); [by rewrite Z.shiftl_spec_low|].
    destruct (Z.eq_dec b 0) as [->|]; [by rewrite Z.bits_0, andb_false_r|].
    rewrite (Z.bits_above_log2 b i); [by rewrite andb_false_r|lia|].
    apply Z.lt_le_trans with n; [apply Z.log2_lt_pow2; lia|lia]. }
  rewrite <- Z.lxor_lor, <- Z.add_nocarry_lxor, Z.shiftl_mul_pow2 by done. done.
Qed.

Definition u16_wf (z : Z) : Prop := 0 <= z < 65536.
Definition u32_wf (z : Z) : Prop := 0 <= z < 4294967296.

(** The sign bit of a 32-bit word. *)
Lemma top_bit z : 0 <= z < 2 ^ 32 -> z2b (Z.land z 0x80000000) = (2 ^ 31 <=? z).
Proof.
  intros H. change 0x80000000 with (2 ^ 31). unfold z2b.
  assert (Z.testbit (Z.land z (2 ^ 31)) 31 = (2 ^ 31 <=? z)) as Hb.
  { rewrite Z.land_spec, Z.pow2_bits_true, andb_true_r by lia.
    destruct (Z.leb_spec (2 ^ 31) z) as [Hz|Hz].
    - apply Z.testbit_true; [lia|]. zlia.
    - apply Z.testbit_false; [lia|]. zlia. }
  destruct (Z.leb_spec (2 ^ 31) z) as [Hz|Hz].
  - apply negb_true_iff, Z.eqb_neq. intros H0. by rewrite H0, Z.bits_0 in Hb.
  - apply negb_false_iff, Z.eqb_eq. apply Z.bits_inj'. intros i Hi. rewrite Z.bits_0.
    destruct (Z.eq_dec i 31) as [->|Hne]; [done|].
    by rewrite Z.land_spec, Z.pow2_bits_false, andb_false_r by lia.
Qed.

Lemma lor_bit_range flags k : 0 <= flags < 2 ^ 32 -> 0 <= k < 32 -> u32_wf (Z.lor flags (Z.shiftl 1 k)).
Proof.
  intros H Hk. unfold u32_wf. split; [apply Z.lor_nonneg; split; [lia|by apply Z.shiftl_nonneg]|].
  change 4294967296 with (2 ^ 32).
  assert (0 < Z.lor flags (Z.shiftl 1 k)) as Hp.
  { assert (Z.testbit (Z.lor flags (Z.shiftl 1 k)) k = true).
    { by rewrite Z.lor_spec, Z.shiftl_1_l, Z.pow2_bits_true, orb_true_r by lia. }
    assert (0 <= Z.lor flags (Z.shiftl 1 k)) by (apply Z.lor_nonneg; split; [lia|by apply Z.shiftl_nonneg]).
    destruct (Z.eq_dec (Z.lor flags (Z.shiftl 1 k)) 0) as [E|]; [|lia]. by rewrite E, Z.bits_0 in *. }
  apply Z.log2_lt_pow2; [done|]. rewrite Z.log2_lor by (try apply Z.shiftl_nonneg; lia).
  apply Z.max_lub_lt.
  - destruct (Z.eq_dec flags 0) as [->|]; [done|]. apply Z.log2_lt_pow2; lia.
  - rewrite Z.shiftl_1_l, Z.log2_pow2 by lia. lia.
Qed.

(** *** The doubling loop reaches its target *)

Lemma double_until_ge fuel size needed :
  0 < size -> needed <= size * 2 ^ Z.of_nat fuel ->
  needed <= double_until fuel size needed.
Proof.
  revert size. induction fuel as [|fuel IH]; intros size Hs Hn; cbn [double_until].
  - rewrite Z.mul_1_r in Hn. done.
  - case_test; [|lia]. apply IH; [lia|].
    rewrite Nat2Z.inj_succ, Z.pow_succ_r in Hn by lia. lia.
Qed.

Lemma double_until_bounds fuel size needed : 0 < size ->
  size <= double_until fuel size needed <= size * 2 ^ Z.of_nat fuel.
Proof.
  revert size. induction fuel as [|fuel IH]; intros size Hs; cbn [double_until]; [rewrite Z.mul_1_r; lia|].
  rewrite Nat2Z.inj_succ, Z.pow_succ_r by lia. case_test; [specialize (IH (size * 2) ltac:(lia)); lia|].
  pose proof (Z.pow_pos_nonneg 2 (Z.of_nat fuel)). nia.
Qed.

(** *** Slices of an array *)

(** The part of an array from index [i] up to [j]; an array with bytes copied to index [i]. *)
Definition slice (i j : Z) (m : list Z) : list Z := ztake (j - i) (zdrop i m).
Definition copy_to (i : Z) (bs m : list Z) : list Z := ztake i m ++ bs ++ zdrop (i + len bs) m.

Lemma len_slice i j m : 0 <= i <= j -> j <= len m -> len (slice i j m) = j - i.
Proof. intros. unfold slice. rewrite len_ztake; [done|]. rewrite len_zdrop; lia. Qed.

Lemma zdrop_zdrop {A} i n (m : list A) : 0 <= i -> 0 <= n -> zdrop n (zdrop i m) = zdrop (i + n) m.
Proof. intros. unfold zdrop. rewrite drop_drop. f_equal. lia. Qed.

Lemma ztake_sum {A} a b (l : list A) : 0 <= a -> 0 <= b -> ztake (a + b) l = ztake a l ++ ztake b (zdrop a l).
Proof.
  intros. unfold ztake, zdrop. rewrite Z2Nat.inj_add by done. rewrite <- (take_drop (Z.to_nat a) l) at 1.
  destruct (Nat.le_gt_cases (Z.to_nat a) (length l)).
  - rewrite take_app, length_take, Nat.min_l by done. rewrite take_ge by (rewrite length_take; lia).
    do 2 f_equal. lia.
  - rewrite (drop_ge l) by lia. rewrite take_nil, !app_nil_r, (take_ge l (Z.to_nat a)) by lia. apply take_ge. lia.
Qed.

Lemma slice_app i j k m : 0 <= i <= j -> j <= k -> slice i j m ++ slice j k m = slice i k m.
Proof.
  intros. unfold slice. replace (k - i) with ((j - i) + (k - j)) by lia. rewrite ztake_sum by lia.
  rewrite zdrop_zdrop by lia. do 3 f_equal. lia.
Qed.

Lemma len_copy_to i bs m : 0 <= i -> i + len bs <= len m -> len (copy_to i bs m) = len m.
Proof.
  intros. unfold copy_to. rewrite !len_app, len_ztake, len_zdrop; pose proof (len_nonneg bs); lia.
Qed.

(** The copied bytes extend what lies in front of them. *)
Lemma slice_copy_to i j bs m : 0 <= i <= j -> j + len bs <= len m ->
  slice i (j + len bs) (copy_to j bs m) = slice i j m ++ bs.
Proof.
  intros. pose proof (len_nonneg bs). unfold slice, copy_to. rewrite zdrop_app_le by (rewrite len_ztake; lia).
  rewrite app_assoc, ztake_app.
  - f_equal. unfold ztake, zdrop. rewrite skipn_firstn_comm. f_equal. lia.
  - rewrite len_app, len_zdrop, len_ztake; [lia|lia|]. rewrite len_ztake; lia.
Qed.

Lemma slice_copy_front i j bs m : bs = slice i j m -> 0 <= i <= j -> j <= len m -> forall m', len bs <= len m' ->
  slice 0 (j - i) (copy_to 0 bs m') = bs.
Proof.
  intros -> Hi Hj m' Hm. pose proof (len_slice i j m Hi Hj) as Hl.
  replace (j - i) with (0 + len (slice i j m)) by lia. rewrite slice_copy_to by lia. done.
Qed.

Lemma slice_empty i m : slice i i m = [].
Proof. unfold slice. by rewrite Z.sub_diag. Qed.

(** *** Entries of lists that are cut and put together *)

Lemma znth_lookup {A} (d : A) l i : 0 <= i -> znth d l i = default d (l !! Z.to_nat i).
Proof. intros _. unfold znth. by rewrite nth_lookup. Qed.

Lemma znth_app {A} (d : A) l k i : 0 <= i -> znth d (l ++ k) i = if i <? len l then znth d l i else znth d k (i - len l).
Proof.
  intros Hi. unfold znth, len. case_test.
  - rewrite app_nth1 by lia. done.
  - rewrite app_nth2 by lia. f_equal. lia.
Qed.
Lemma znth_ztake {A} (d : A) l n i : 0 <= i < n -> znth d (ztake n l) i = znth d l i.
Proof. intros. rewrite !znth_lookup by lia. unfold ztake. by rewrite lookup_take_lt by lia. Qed.
Lemma znth_zdrop {A} (d : A) l n i : 0 <= n -> 0 <= i -> znth d (zdrop n l) i = znth d l (n + i).
Proof. intros. rewrite !znth_lookup by lia. unfold zdrop. rewrite lookup_drop. do 2 f_equal. lia. Qed.
Lemma znth_replicate {A} (d : A) n x i : 0 <= i < Z.of_nat n -> znth d (replicate n x) i = x.
Proof. intros. rewrite znth_lookup, lookup_replicate_2 by lia. done. Qed.
Lemma znth_map_seqZ {A} (d : A) (f : Z -> A) n i : 0 <= i < n -> znth d (map f (seqZ 0 n)) i = f i.
Proof.
  intros. rewrite znth_lookup by lia. rewrite list_lookup_fmap, lookup_seqZ_lt by lia. cbn. f_equal. lia.
Qed.
Lemma znth_slice (i j k : Z) m : 0 <= i -> 0 <= k < j - i -> znth 0 (slice i j m) k = znth 0 m (i + k).
Proof. intros. unfold slice. rewrite znth_ztake by lia. apply znth_zdrop; lia. Qed.

Lemma znth_copy_to i bs m j : 0 <= i -> i + len bs <= len m -> 0 <= j ->
  znth 0 (copy_to i bs m) j = if (i <=? j) && (j <? i + len bs) then znth 0 bs (j - i) else znth 0 m j.
Proof.
  intros Hi Hl Hj. pose proof (len_nonneg bs). unfold copy_to. rewrite znth_app by done. rewrite len_ztake by lia.
  destruct (Z.leb_spec i j); cbn [andb].
  - rewrite (proj2 (Z.ltb_ge j i)) by lia. rewrite znth_app by lia. case_test.
    + by rewrite (proj2 (Z.ltb_lt _ _)) by lia.
    + rewrite (proj2 (Z.ltb_ge _ _)) by lia. rewrite znth_zdrop by lia. f_equal. lia.
  - rewrite (proj2 (Z.ltb_lt _ _)) by lia. by rewrite znth_ztake by lia.
Qed.

(** *** Bytes by exhaustion, masks as remainders *)

(** A decidable statement about every [x] below [n], by evaluating it on all. *)
Lemma range_decide (n : Z) (Q : Z -> Prop) `{!forall z, Decision (Q z)} :
  forallb (fun z => bool_decide (Q z)) (seqZ 0 n) = true -> forall x, 0 <= x < n -> Q x.
Proof.
  rewrite forallb_forall. intros Hall x Hx.
  eapply bool_decide_eq_true, Hall, list_elem_of_In, elem_of_seqZ. lia.
Qed.

(** Proves a statement about [x] under the range hypothesis [H]. *)
Ltac by_range n x H :=
  let Hr := fresh in
  assert (Hr : 0 <= x < n) by (clear - H; lia);
  revert H; revert x Hr;
  match goal with |- forall x, _ -> @?Q x => refine (range_decide n Q _) end;
  vm_compute; reflexivity.
Ltac by_bytes x H := by_range 256 x H.

Lemma land_mask z n : 0 <= n -> Z.land z (Z.ones n) = z mod 2 ^ n.
Proof. apply Z.land_ones. Qed.

Lemma land_1 z : Z.land z 1 = z mod 2.
Proof. exact (land_mask z 1 ltac:(lia)). Qed.

Lemma land_63 z : Z.land z 0x3f = z mod 64.
Proof. exact (land_mask z 6 ltac:(lia)). Qed.

Lemma land_255 z : Z.land z 0xff = z mod 256.
Proof. exact (land_mask z 8 ltac:(lia)). Qed.

Lemma land_1023 z : Z.land z 0x3ff = z mod 1024.
Proof. exact (land_mask z 10 ltac:(lia)). Qed.

Lemma shiftr_div z n : 0 <= n -> Z.shiftr z n = z / 2 ^ n.
Proof. apply Z.shiftr_div_pow2. Qed.

(** [bytes] of a literal, by evaluation. *)
Lemma bytes_decide l : forallb (fun b => (0 <=? b) && (b <? 256)) l = true -> bytes l.
Proof.
  intros H. rewrite forallb_forall in H. apply List.Forall_forall. intros b Hb%H.
  unfold is_byte. eval_pow2. bool_decide_hyps. lia.
Qed.
