(* ===== verification/InStream.v ===== *)
(** * Input streams ([common/rdr/InStream.h])

    Code that reads a stream is a value of [prog E A]: the primitive calls it
    makes on the stream, in order, and the handler calls [E] it makes on the
    way.  [arun] runs such a program in the checked build
    ([RFB_INSTREAM_CHECK]) on the bytes that are ready; the release build, over
    a buffer that asks for more, is the subject of the file BufferedInStream.
    [guarded] is the discipline the callers of the stream follow, and
    [guarded_sound] what it buys: every read is covered by a
    successful [hasData], a reader that runs short leaves the stream as it
    found it, and the outcome of a complete message does not depend on the
    bytes behind it. *)
From stdpp Require Import base list numbers strings option.
From S2P Require Import Prelude.
#[local] Open Scope Z_scope.

(** ** Programs over an input stream *)

Inductive prog (E A : Type) : Type :=
| Ret (a : A)
| Raise (e : exn)
| HasData (length : Z) (k : bool -> prog E A)
| SetRestorePoint (k : prog E A)
| ClearRestorePoint (k : prog E A)
| GotoRestorePoint (k : prog E A)
| Take (length : Z) (k : list Z -> prog E A)
| Emit (ev : E) (k : prog E A).
Arguments Ret {E A} _.
Arguments Raise {E A} _.
Arguments HasData {E A} _ _.
Arguments SetRestorePoint {E A} _.
Arguments ClearRestorePoint {E A} _.
Arguments GotoRestorePoint {E A} _.
Arguments Take {E A} _ _.
Arguments Emit {E A} _ _.

Fixpoint prog_bind {E A B} (f : A -> prog E B) (p : prog E A) : prog E B :=
  match p with
  | Ret a => f a
  | Raise e => Raise e
  | HasData n k => HasData n (fun b => prog_bind f (k b))
  | SetRestorePoint k => SetRestorePoint (prog_bind f k)
  | ClearRestorePoint k => ClearRestorePoint (prog_bind f k)
  | GotoRestorePoint k => GotoRestorePoint (prog_bind f k)
  | Take n k => Take n (fun bs => prog_bind f (k bs))
  | Emit ev k => Emit ev (prog_bind f k)
  end.

Arguments prog_bind {E A B} f !p /.

#[export] Instance prog_mret {E} : MRet (prog E) := fun A a => Ret a.
#[export] Instance prog_mbind {E} : MBind (prog E) := fun A B f p => prog_bind f p.

(** [if (!p) return false; k] *)
Notation "'require' p ';;' k" := (prog_bind (fun ok : bool => if ok then k else Ret false) p)
  (at level 100, p at next level, k at level 200, right associativity) : vnc_scope.

Section operations.
Context {E : Type}.

Definition hasData (length : Z) : prog E bool := HasData length Ret.

Definition setRestorePoint : prog E unit := SetRestorePoint (Ret tt).
Definition clearRestorePoint : prog E unit := ClearRestorePoint (Ret tt).
Definition gotoRestorePoint : prog E unit := GotoRestorePoint (Ret tt).

Definition hasDataOrRestore (length : Z) : prog E bool :=
  ok ← hasData length;
  if (ok : bool) then mret true else gotoRestorePoint;; mret false.

(** The integers the bytes of a big-endian field stand for. *)
Definition be16 (bs : list Z) : Z := u16 (Z.lor (Z.shiftl (znth 0 bs 0) 8) (znth 0 bs 1)).
Definition be32 (bs : list Z) : Z :=
  u32 (Z.lor (Z.lor (Z.lor (Z.shiftl (znth 0 bs 0) 24) (Z.shiftl (znth 0 bs 1) 16))
                    (Z.shiftl (znth 0 bs 2) 8)) (znth 0 bs 3)).

Definition readU8 : prog E Z := Take 1 (fun bs => Ret (znth 0 bs 0)).
Definition readU16 : prog E Z := Take 2 (fun bs => Ret (be16 bs)).
Definition readU32 : prog E Z := Take 4 (fun bs => Ret (be32 bs)).
Definition readS16 : prog E Z := v ← readU16; mret (s16 v).
Definition readS32 : prog E Z := v ← readU32; mret (s32 v).
Definition skip (bytes : Z) : prog E unit := Take bytes (fun _ => Ret tt).
Definition readBytes (length : Z) : prog E (list Z) :=
  if length =? 0 then mret [] else Take length Ret.
(** [getptr(length)] followed by [setptr(length)]: the bytes at [ptr], consumed. *)
Definition getptr_setptr (length : Z) : prog E (list Z) := Take length Ret.

Definition emit (ev : E) : prog E unit := Emit ev (Ret tt).

(** [for (i = 0; i < n; i++) x[i] = p()] *)
Fixpoint repeatM {A} (n : nat) (p : prog E A) : prog E (list A) :=
  match n with
  | O => mret []
  | S n => x ← p; xs ← repeatM n p; mret (x :: xs)
  end.
End operations.

(** ** The checked build on the bytes that are ready *)

Record astate := AState {
  a_data : list Z;              (* the bytes from [ptr] on *)
  a_restore : option (list Z);  (* the bytes from [restorePoint] to [ptr] *)
  a_checked : Z                 (* [checkedBytes] *)
}.

Definition prepend {A E} (evs : list E) (r : res (A * list E)) : res (A * list E) :=
  match r with Ok (a, evs') => Ok (a, evs ++ evs') | Throw e => Throw e end.

Fixpoint arun {E A} (p : prog E A) (s : astate) : res (A * astate * list E) :=
  let '(AState d rp c) := s in
  match p with
  | Ret a => Ok (a, s, [])
  | Raise e => Throw e
  | HasData n k =>
      if n <=? len d then arun (k true) (AState d rp n)
      else arun (k false) (AState d rp 0)
  | SetRestorePoint k =>
      match rp with
      | Some _ => Throw (logic_error "Nested use of input stream restore point")
      | None => arun k (AState d (Some []) c)
      end
  | ClearRestorePoint k =>
      match rp with
      | Some _ => arun k (AState d None c)
      | None => Throw (logic_error "Incorrect clearing of input stream restore point")
      end
  | GotoRestorePoint k =>
      match rp with
      | Some pre => arun k (AState (pre ++ d) None c)
      | None => Throw (logic_error "Incorrect activation of input stream restore point")
      end
  | Take n k =>
      if c <? n then Throw (logic_error "Input stream used without underrun check")
      else if len d <? n then Throw (out_of_range "InStream buffer underrun")
      else arun (k (ztake n d))
             (AState (zdrop n d) ((fun pre => pre ++ ztake n d) <$> rp) (c - n))
  | Emit ev k => prepend [ev] (arun k s)
  end.

(** A call made between two messages: no restore point, nothing checked. *)
Definition fresh (d : list Z) : astate := AState d None 0.

Definition outcome {E A} (p : prog E A) (d : list Z) : res (A * list Z * list E) :=
  match arun p (fresh d) with
  | Ok (a, AState d' None _, evs) => Ok (a, d', evs)
  | Ok (_, AState _ (Some _) _, _) => Throw (logic_error "Nested use of input stream restore point")
  | Throw e => Throw e
  end.

(** ** The calling discipline *)

(** Where a reader is in its message: nothing read yet ([Clean]); reading
    behind a restore point, more may have to arrive ([Marked]); behind a
    restore point with everything there ([Ready]); past the point of no
    return ([Committed]). *)
Inductive phase := Clean | Marked | Ready | Committed.

(** The exceptions that are answers to what the peer sent, and not the misuse
    of a stream by its caller. *)
Definition ordinary (e : exn) : Prop :=
  match e with protocol_error _ | runtime_error _ | invalid_argument _ => True | _ => False end.
(** The ways a reader may end for what the peer sent: with such an exception, or
    never. *)
Definition faulty (e : exn) : Prop := match e with endless _ => True | _ => ordinary e end.

(** What a reader may be caught in, by the pieces of data it takes. *)
Class Policy := {
  piece : list Z -> Prop;
  fault : exn -> Prop;
  fault_ordinary e : ordinary e -> fault e;
  fault_faulty e : fault e -> faulty e
}.
(** Any pieces. *)
Class Free (P : Policy) : Prop := free z : piece z.

(** Readers that always return. *)
Lemma ordinary_faulty e : ordinary e -> faulty e.
Proof. by destruct e. Qed.
#[export] Instance returning : Policy :=
  {| piece _ := True; fault := ordinary; fault_ordinary _ H := H; fault_faulty := ordinary_faulty |}.
#[export] Instance returning_free : Free returning.
Proof. done. Qed.
(** Readers that may not return. *)
Definition hanging : Policy :=
  {| piece _ := True; fault := faulty; fault_ordinary := ordinary_faulty; fault_faulty _ H := H |}.
#[export] Instance hanging_free : Free hanging.
Proof. done. Qed.
(** Readers that return, unless they are caught in a piece [z] of [d] with
    [S z]. *)
Definition caught_in (d : list Z) (S : list Z -> Prop) (e : exn) : Prop :=
  exists z, e = endless z /\ (exists before behind, d = before ++ z ++ behind) /\ S z.
Lemma caught_faulty d S e : ordinary e \/ caught_in d S e -> faulty e.
Proof. intros [H|(z & -> & _)]; [by apply ordinary_faulty|done]. Qed.
Definition watched (d : list Z) (S : list Z -> Prop) : Policy :=
  {| piece z := exists before behind, d = before ++ z ++ behind; fault e := ordinary e \/ caught_in d S e;
     fault_ordinary _ H := or_introl H; fault_faulty := caught_faulty d S |}.

(** Bytes whose pieces are known. *)
Definition good {P : Policy} (d : list Z) : Prop := bytes d /\ forall before z behind, d = before ++ z ++ behind -> piece z.
Lemma good_app {P : Policy} a b : good (a ++ b) -> good a /\ good b.
Proof.
  intros [Hb Hp]. apply bytes_app in Hb as [Ha Hb]. split; (split; [done|]); intros x z y ->.
  - apply (Hp x z (y ++ b)). by rewrite <- !app_assoc.
  - apply (Hp (a ++ x) z y). by rewrite <- !app_assoc.
Qed.
Lemma good_ztake {P : Policy} n d : good d -> good (ztake n d).
Proof. rewrite <- (ztake_zdrop n d) at 1. by intros [? _]%good_app. Qed.
Lemma good_zdrop {P : Policy} n d : good d -> good (zdrop n d).
Proof. rewrite <- (ztake_zdrop n d) at 1. by intros [_ ?]%good_app. Qed.
Lemma good_piece {P : Policy} d : good d -> piece d.
Proof. intros [_ H]. apply (H [] d []). by rewrite app_nil_r. Qed.
Lemma good_bytes `{!Free P} d : bytes d -> good d.
Proof. intros H. split; [done|]. intros. apply free. Qed.
Lemma good_watched d S : bytes d -> good (P := watched d S) d.
Proof. intros H. split; [done|]. intros a z b ->. by exists a, b. Qed.

(** [guarded Q more ph c p]: with [c] checked bytes in phase [ph] the program
    keeps to the discipline; it answers [more] when it needs more data and a
    result in [Q] when it is done. *)
Inductive guarded {P : Policy} {E X} (Q : X -> Prop) (more : X) : phase -> Z -> prog E X -> Prop :=
| g_done_clean c x : Q x -> guarded Q more Clean c (Ret x)
| g_done c x : Q x -> guarded Q more Committed c (Ret x)
| g_more c : guarded Q more Clean c (Ret more)
| g_raise ph c e : fault e -> guarded Q more ph c (Raise e)
| g_has_clean c n k : k false = Ret more -> 0 <= n -> guarded Q more Clean n (k true) ->
    guarded Q more Clean c (HasData n k)
| g_has_marked c n k : k false = GotoRestorePoint (Ret more) -> 0 <= n ->
    guarded Q more Marked n (k true) -> guarded Q more Marked c (HasData n k)
| g_has_ready c n k : k false = GotoRestorePoint (Ret more) -> 0 <= n ->
    guarded Q more Ready n (k true) -> guarded Q more Marked c (HasData n k)
| g_set c k : guarded Q more Marked c k -> guarded Q more Clean c (SetRestorePoint k)
| g_clear_marked c k : guarded Q more Committed c k -> guarded Q more Marked c (ClearRestorePoint k)
| g_clear c k : guarded Q more Committed c k -> guarded Q more Ready c (ClearRestorePoint k)
| g_take_clean c n k : 0 <= n <= c ->
    (forall bs, len bs = n -> bytes bs -> piece bs -> guarded Q more Committed (c - n) (k bs)) ->
    guarded Q more Clean c (Take n k)
| g_take ph c n k : ph <> Clean -> 0 <= n <= c ->
    (forall bs, len bs = n -> bytes bs -> piece bs -> guarded Q more ph (c - n) (k bs)) ->
    guarded Q more ph c (Take n k)
| g_emit_clean c ev k : guarded Q more Committed c k -> guarded Q more Clean c (Emit ev k)
| g_emit ph c ev k : ph = Ready \/ ph = Committed -> guarded Q more ph c k -> guarded Q more ph c (Emit ev k)
(** a test that decides only how it fails *)
| g_has_fault ph c n k e1 e2 : 0 <= n -> k true = Raise e1 -> k false = Raise e2 -> fault e1 -> fault e2 ->
    guarded Q more ph c (HasData n k).

(** The restore points each phase allows. *)
Definition phase_restore (ph : phase) (rp : option (list Z)) : Prop :=
  match ph with Clean | Committed => rp = None | Marked | Ready => is_Some rp end.

Definition restored (rp : option (list Z)) (d : list Z) : list Z := default [] rp ++ d.

(** What running a reader came to, on data [d]: a complete message, more to
    come, or a protocol error. *)
Inductive verdict {P : Policy} {E X} (Q : X -> Prop) (more : X) (p : prog E X) (d : list Z) (rp : option (list Z)) (c : Z)
    (ph : phase) : Prop :=
| v_done x used rest evs c' : Q x -> d = used ++ rest ->
    (forall m, arun p (AState (d ++ m) rp c) = Ok (x, AState (rest ++ m) None c', evs)) ->
    verdict Q more p d rp c ph
| v_more c' : ph = Clean \/ ph = Marked ->
    arun p (AState d rp c) = Ok (more, AState (restored rp d) None c', []) ->
    verdict Q more p d rp c ph
| v_error : (forall m, exists e, fault e /\ arun p (AState (d ++ m) rp c) = Throw e) ->
    verdict Q more p d rp c ph.

Lemma prepend_nil {A E} (r : res (A * list E)) : prepend [] r = r.
Proof. by destruct r as [[]|]. Qed.

Lemma prepend_app {A E} (l k : list E) (r : res (A * list E)) :
  prepend l (prepend k r) = prepend (l ++ k) r.
Proof. destruct r as [[]|]; [|done]. cbn. by rewrite app_assoc. Qed.

Section soundness.
Context {P : Policy} {E X : Type} (Q : X -> Prop) (more : X).
Implicit Types p : prog E X.

Lemma arun_has_enough A (n : Z) (k : bool -> prog E A) d rp c :
  n <= len d -> arun (HasData n k) (AState d rp c) = arun (k true) (AState d rp n).
Proof. intros H. cbn. by rewrite (proj2 (Z.leb_le _ _) H). Qed.

Lemma arun_has_short A (n : Z) (k : bool -> prog E A) d rp c :
  len d < n -> arun (HasData n k) (AState d rp c) = arun (k false) (AState d rp 0).
Proof. intros H. cbn. by rewrite (proj2 (Z.leb_gt _ _) H). Qed.

Lemma arun_take A (n : Z) (k : list Z -> prog E A) d rp c :
  n <= c -> n <= len d ->
  arun (Take n k) (AState d rp c) =
  arun (k (ztake n d)) (AState (zdrop n d) ((fun pre => pre ++ ztake n d) <$> rp) (c - n)).
Proof.
  intros H1 H2. cbn. by rewrite (proj2 (Z.ltb_ge _ _) H1), (proj2 (Z.ltb_ge _ _) H2).
Qed.

(** Reading a field that is known to be at the front of the data. *)
Lemma arun_take_app A (n : Z) (k : list Z -> prog E A) f d rp c :
  n = len f -> n <= c ->
  arun (Take n k) (AState (f ++ d) rp c) =
  arun (k f) (AState d ((fun pre => pre ++ f) <$> rp) (c - n)).
Proof. intros -> H. rewrite arun_take by llia. by rewrite ztake_app, zdrop_app. Qed.

Lemma arun_take_front A (n : Z) (k : list Z -> prog E A) f d rp c :
  0 <= n <= len f -> n <= c ->
  arun (Take n k) (AState (f ++ d) rp c) =
  arun (k (ztake n f)) (AState (zdrop n f ++ d) ((fun pre => pre ++ ztake n f) <$> rp) (c - n)).
Proof. intros Hn Hc. rewrite arun_take by llia. by rewrite ztake_app_le, zdrop_app_le by lia. Qed.

Lemma arun_set A (k : prog E A) d c :
  arun (SetRestorePoint k) (AState d None c) = arun k (AState d (Some []) c).
Proof. done. Qed.
Lemma arun_clear A (k : prog E A) d pre c :
  arun (ClearRestorePoint k) (AState d (Some pre) c) = arun k (AState d None c).
Proof. done. Qed.
Lemma arun_emit A ev (k : prog E A) s : arun (Emit ev k) s = prepend [ev] (arun k s).
Proof. by destruct s. Qed.
Lemma arun_ret A (a : A) s : arun (Ret (E:=E) a) s = Ok (a, s, []).
Proof. by destruct s. Qed.

Lemma verdict_step p p' d d' rp rp' c c' ph ph' :
  (forall m, arun p (AState (d ++ m) rp c) = arun p' (AState (d' ++ m) rp' c')) ->
  (exists f, d = f ++ d') -> (ph' = Clean \/ ph' = Marked -> ph = Clean \/ ph = Marked) ->
  restored rp d = restored rp' d' \/ (ph' = Ready \/ ph' = Committed) ->
  verdict Q more p' d' rp' c' ph' -> verdict Q more p d rp c ph.
Proof.
  intros Hrun [f ->] Hph Hrest Hv. destruct Hv as [x used rest evs c0 Hx -> H|c0 Hph' H|H].
  - eapply (v_done _ _ _ _ _ _ _ x (f ++ used) rest evs c0); [done|by rewrite app_assoc|].
    intros m. rewrite Hrun. apply H.
  - destruct Hrest as [Hrest|[-> | ->]]; [|by destruct Hph'..].
    apply (v_more _ _ _ _ _ _ _ c0); [by apply Hph|].
    rewrite Hrest, <- H. specialize (Hrun []). by rewrite !app_nil_r in Hrun.
  - apply v_error. intros m. rewrite Hrun. apply H.
Qed.

(** The step of a test that finds its data. *)
Lemma verdict_has n (k : bool -> prog E X) d rp c ph ph' :
  n <= len d -> (ph' = Clean \/ ph' = Marked -> ph = Clean \/ ph = Marked) ->
  verdict Q more (k true) d rp n ph' -> verdict Q more (HasData n k) d rp c ph.
Proof.
  intros Hn Hph Hv. apply (verdict_step _ (k true) d d rp rp c n ph ph'); auto.
  - intros m. apply arun_has_enough. llia.
  - by exists [].
Qed.

(** The step of a read of checked data. *)
Lemma verdict_take n (k : list Z -> prog E X) d rp c ph ph' :
  0 <= n <= c -> c <= len d -> (ph' = Clean \/ ph' = Marked -> ph = Clean \/ ph = Marked) ->
  is_Some rp \/ ph' = Ready \/ ph' = Committed ->
  verdict Q more (k (ztake n d)) (zdrop n d) ((fun pre => pre ++ ztake n d) <$> rp) (c - n) ph' ->
  verdict Q more (Take n k) d rp c ph.
Proof.
  intros Hn Hc Hph Hrp Hv. eapply (verdict_step _ _ d _ rp _ c _ ph ph'); [..|exact Hv]; auto.
  - intros m. rewrite arun_take by llia. by rewrite ztake_app_le, zdrop_app_le by lia.
  - exists (ztake n d). by rewrite ztake_zdrop.
  - destruct Hrp as [[pre ->]|?]; [left|by right].
    unfold restored. cbn. by rewrite <- app_assoc, ztake_zdrop.
Qed.

Lemma verdict_emit (ev : E) (k : prog E X) d rp c ph ph' :
  ph' = Ready \/ ph' = Committed -> verdict Q more k d rp c ph' -> verdict Q more (Emit ev k) d rp c ph.
Proof.
  intros Hph [x used rest evs c0 Hx -> H|? Hph'|H].
  - apply (v_done _ _ _ _ _ _ _ x used rest (ev :: evs) c0); [done|done|]. intros m. cbn. by rewrite H.
  - destruct Hph, Hph'; congruence.
  - apply v_error. intros m. destruct (H m) as (e & He & Hr). exists e. split; [done|]. cbn. by rewrite Hr.
Qed.

Lemma guarded_sound ph c p : guarded Q more ph c p -> forall d rp,
  good d -> c <= len d -> phase_restore ph rp -> verdict Q more p d rp c ph.
Proof.
  induction 1 as
    [c x Hx|c x Hx|c|ph c w Hw|c n k Hf Hn _ IH|c n k Hf Hn _ IH|c n k Hf Hn _ IH|c k _ IH|c k _ IH|c k _ IH
    |c n k Hle _ IH|ph c n k Hph Hle _ IH|c ev k _ IH|ph c ev k Hph _ IH|ph c n k e1 e2 Hn Ht Hf He1 He2];
    intros d rp Hb Hc Hrp; cbn in Hrp.
  1-2: subst; by apply (v_done _ _ _ _ _ _ _ x [] d [] c).
  - subst. by apply (v_more _ _ _ _ _ _ _ c); [left|].
  - apply v_error. intros m. by exists w.
  - subst. destruct (Z.le_gt_cases n (len d)) as [Hle|Hgt].
    + eapply verdict_has; [done|by left|]. by apply IH.
    + apply (v_more _ _ _ _ _ _ _ 0); [by left|]. by rewrite arun_has_short, Hf.
  - destruct (Z.le_gt_cases n (len d)) as [Hle|Hgt].
    + eapply verdict_has; [done|by right|]. by apply IH.
    + destruct Hrp as [pre ->].
      apply (v_more _ _ _ _ _ _ _ 0); [by right|]. by rewrite arun_has_short, Hf.
  - destruct (Z.le_gt_cases n (len d)) as [Hle|Hgt].
    + eapply (verdict_has _ _ _ _ _ _ Ready); [done|by right|]. by apply IH.
    + destruct Hrp as [pre ->].
      apply (v_more _ _ _ _ _ _ _ 0); [by right|]. by rewrite arun_has_short, Hf.
  - subst. apply (verdict_step _ k d d None (Some []) c c Clean Marked);
      [done|by exists []|by left|by left|]. apply IH; [done..|by eexists].
  - destruct Hrp as [pre ->]. apply (verdict_step _ k d d (Some pre) None c c Marked Committed);
      [done|by exists []|by right|by right; right|]. by apply IH.
  - destruct Hrp as [pre ->]. apply (verdict_step _ k d d (Some pre) None c c Ready Committed);
      [done|by exists []|by intros [|]|by right; right|]. by apply IH.
  - subst. eapply (verdict_take _ _ _ _ _ _ Committed); [done..|by left|by right; right|].
    apply IH; [apply len_ztake; lia|by apply good_ztake|by apply good_piece, good_ztake|by apply good_zdrop|rewrite len_zdrop; lia|done].
  - eapply (verdict_take _ _ _ _ _ _ ph); [lia|lia|done|destruct ph; cbn in Hrp; auto; done|].
    apply IH; [apply len_ztake; lia|by apply good_ztake|by apply good_piece, good_ztake|by apply good_zdrop|rewrite len_zdrop; lia|].
    destruct ph; cbn in *; subst; eauto; by destruct Hrp as [? ->]; eexists.
  - subst. eapply verdict_emit; [by right|]. by apply IH.
  - eapply verdict_emit; [done|]. by apply IH.
  - apply v_error. intros m. cbn. case_test; [exists e1; by rewrite Ht|exists e2; by rewrite Hf].
Qed.
End soundness.

(** ** Running programs in sequence *)

Lemma arun_bind {E A B} (f : A -> prog E B) (p : prog E A) s :
  arun (prog_bind f p) s =
  match arun p s with
  | Ok (a, s', evs) => prepend evs (arun (f a) s')
  | Throw e => Throw e
  end.
Proof.
  revert s. induction p as [a|e|n k IH|k IH|k IH|k IH|n k IH|ev k IH]; intros [d rp c]; cbn.
  - by rewrite prepend_nil.
  - done.
  - case_test; apply IH.
  - destruct rp; [done|apply IH].
  - destruct rp; [apply IH|done].
  - destruct rp; [apply IH|done].
  - case_test; [done|]. case_test; [done|]. apply IH.
  - rewrite IH. destruct (arun k _) as [[[a s'] evs]|]; [|done]. cbn. by rewrite prepend_app.
Qed.

(** The outcome of a reader followed by a pure step. *)
Lemma outcome_map {E A B} (f : A -> B) (p : prog E A) d :
  outcome (prog_bind (fun a => Ret (f a)) p) d =
  match outcome p d with Ok (a, d', evs) => Ok (f a, d', evs) | Throw e => Throw e end.
Proof.
  unfold outcome. rewrite arun_bind. destruct (arun p _) as [[[a [d' [|] c]] evs]|]; cbn;
    by rewrite ?app_nil_r.
Qed.

(** What [guarded_sound] says of a whole reader call. *)
Lemma guarded_outcome {P : Policy} {E X} (Q : X -> Prop) (more : X) (p : prog E X) d : guarded Q more Clean 0 p -> good d ->
  (exists x used rest evs, Q x /\ d = used ++ rest /\
     forall m, outcome p (d ++ m) = Ok (x, rest ++ m, evs)) \/
  outcome p d = Ok (more, d, []) \/
  (forall m, exists e, fault e /\ outcome p (d ++ m) = Throw e).
Proof.
  intros Hg Hb. unfold outcome, fresh.
  destruct (guarded_sound Q more Clean 0 p Hg d None Hb ltac:(llia) eq_refl)
    as [x used rest evs c Hx -> H|c _ H|H].
  - left. exists x, used, rest, evs. repeat split; [done..|]. intros m. by rewrite H.
  - right; left. by rewrite H.
  - right; right. intros m. destruct (H m) as (e & He & ->). by exists e.
Qed.

(** ** Deriving the discipline *)

(** Programs that read [n] bytes and do nothing else to the stream. *)
Inductive reads {E A} : Z -> prog E A -> Prop :=
| reads_ret a : reads 0 (Ret a)
| reads_raise n e : 0 <= n -> ordinary e -> reads n (Raise e)
| reads_take n m k : 0 <= n -> 0 <= m -> (forall bs, len bs = n -> bytes bs -> reads m (k bs)) ->
    reads (n + m) (Take n k).

Lemma reads_nonneg {E A} n (p : prog E A) : reads n p -> 0 <= n.
Proof. destruct 1; lia. Qed.

Lemma reads_bind {E A B} n m (p : prog E A) (f : A -> prog E B) :
  reads n p -> 0 <= m -> (forall a, reads m (f a)) -> reads (n + m) (prog_bind f p).
Proof.
  intros H Hm Hf. induction H as [a|n e Hn He|n n' k Hn Hn' _ IH]; cbn.
  - apply Hf.
  - constructor; [lia|done].
  - rewrite <- Z.add_assoc. constructor; [lia|lia|done].
Qed.

Lemma reads_repeatM {E A} n k (p : prog E A) : reads n p -> reads (Z.of_nat k * n) (repeatM k p).
Proof.
  intros H. pose proof (reads_nonneg _ _ H). induction k as [|k IH]; [by constructor|].
  cbn [repeatM]. replace (Z.of_nat (S k) * n) with (n + (Z.of_nat k * n + 0)) by lia.
  apply reads_bind; [done|lia|]. intros a. apply reads_bind; [done|lia|]. intros l. constructor.
Qed.

(** What may be done past the point of no return may be done at once. *)
Lemma guarded_clean {P : Policy} {E X} Q (more : X) c (p : prog E X) : guarded Q more Committed c p -> guarded Q more Clean c p.
Proof.
  intros H. remember Committed as ph eqn:Hph. induction H; simplify_eq; first [by constructor|by eapply g_has_fault].
Qed.

(** Reading checked bytes keeps the phase. *)
Lemma guarded_reads {P : Policy} {E A X} Q (more : X) ph c n (p : prog E A) (f : A -> prog E X) :
  reads n p -> n <= c -> ph <> Clean ->
  (forall a, guarded Q more ph (c - n) (f a)) -> guarded Q more ph c (prog_bind f p).
Proof.
  intros H. revert c. induction H as [a|n e Hn He|n m k Hn Hm Hr IH]; intros c Hc Hp Hf; cbn.
  - specialize (Hf a). by rewrite Z.sub_0_r in Hf.
  - by apply g_raise, fault_ordinary.
  - assert (0 <= n <= c) by lia. apply g_take; [done|done|]. intros bs Hl Hb _.
    apply IH; [done|done|lia|done|]. intros a. specialize (Hf a).
    by replace (c - n - m) with (c - (n + m)) by lia.
Qed.

Lemma reads_readU32 {E} : reads 4 (readU32 (E:=E)).
Proof. apply (reads_take 4 0); [lia|lia|]. intros. constructor. Qed.
Lemma reads_readS32 {E} : reads 4 (readS32 (E:=E)).
Proof. apply (reads_take 4 0); [lia|lia|]. intros. constructor. Qed.

Lemma be16_range bs : 0 <= be16 bs < 65536.
Proof. apply u16_range. Qed.
Lemma be32_range bs : 0 <= be32 bs < 4294967296.
Proof. apply u32_range. Qed.
Lemma znth_range bs i : bytes bs -> 0 <= znth 0 bs i < 256.
Proof.
  intros H. unfold znth. destruct (nth_in_or_default (Z.to_nat i) bs 0) as [Hi| ->]; [|lia].
  unfold bytes in H. rewrite List.Forall_forall in H. exact (H _ Hi).
Qed.

Lemma reads_readBytes {E} n : 0 <= n -> reads n (readBytes (E:=E) n).
Proof.
  intros H. unfold readBytes. case_test; [subst; constructor|].
  replace n with (n + 0) at 1 by lia. apply (reads_take n 0); [done|done|]. intros. constructor.
Qed.
Lemma reads_getptr_setptr {E} n : 0 <= n -> reads n (getptr_setptr (E:=E) n).
Proof. intros H. replace n with (n + 0) at 1 by lia. apply (reads_take n 0); [done|done|]. intros. constructor. Qed.

Create HintDb reads discriminated.
#[export] Hint Resolve reads_readU32 reads_readS32 reads_repeatM : reads.

Lemma guarded_reads_nested {P : Policy} {E A B X} Q (more : X) ph c n (p : prog E A) (g : A -> prog E B) (f : B -> prog E X) :
  reads n p -> n <= c -> ph <> Clean ->
  (forall a, guarded Q more ph (c - n) (prog_bind f (g a))) -> guarded Q more ph c (prog_bind f (prog_bind g p)).
Proof.
  intros H. revert c. induction H as [a|n e Hn He|n m k Hn Hm Hr IH]; intros c Hc Hp Hf; cbn.
  - specialize (Hf a). by rewrite Z.sub_0_r in Hf.
  - by apply g_raise, fault_ordinary.
  - assert (0 <= n <= c) by lia. apply g_take; [done|done|]. intros bs Hl Hb _.
    apply IH; [done|done|lia|done|]. intros a. specialize (Hf a).
    by replace (c - n - m) with (c - (n + m)) by lia.
Qed.

(** A reader, and what follows it once it is done. *)
Lemma guarded_then {P : Policy} {E X Y} Q Q' (more : X) (more' : Y) (f : X -> prog E Y) ph c (p : prog E X) :
  f more = Ret more' -> (forall x c, Q x -> guarded Q' more' Committed c (f x)) ->
  guarded Q more ph c p -> guarded Q' more' ph c (prog_bind f p).
Proof.
  intros Hm Hx. induction 1 as
    [c x Hq|c x Hq|c|ph c e He|c n k Hf Hn _ IH|c n k Hf Hn _ IH|c n k Hf Hn _ IH|c k _ IH|c k _ IH|c k _ IH
    |c n k Hle _ IH|ph c n k Hph Hle _ IH|c ev k _ IH|ph c ev k Hph _ IH|ph c n k e1 e2 Hn Ht Hf He1 He2]; cbn.
  - apply guarded_clean. auto.
  - auto.
  - rewrite Hm. apply g_more.
  - by apply g_raise.
  - apply g_has_clean; [by rewrite Hf; cbn; rewrite Hm|done|done].
  - apply g_has_marked; [by rewrite Hf; cbn; rewrite Hm|done|done].
  - apply g_has_ready; [by rewrite Hf; cbn; rewrite Hm|done|done].
  - by apply g_set.
  - by apply g_clear_marked.
  - by apply g_clear.
  - apply g_take_clean; auto.
  - apply g_take; auto.
  - by apply g_emit_clean.
  - by apply g_emit.
  - by apply (g_has_fault _ _ _ _ _ _ e1 e2); [|rewrite Ht|rewrite Hf| |].
Qed.

Lemma guarded_weaken {P : Policy} {E X} (Q Q' : X -> Prop) (more : X) ph c (p : prog E X) :
  (forall x, Q x -> Q' x) -> guarded Q more ph c p -> guarded Q' more ph c p.
Proof. intros HQ. induction 1; first [by constructor; auto|by eapply g_has_fault]. Qed.

(** Behind the last test nothing is answered but the result. *)
Lemma guarded_any_more {P : Policy} {E X} (Q : X -> Prop) (more more' : X) ph c (p : prog E X) :
  ph = Ready \/ ph = Committed -> guarded Q more ph c p -> guarded Q more' ph c p.
Proof.
  intros Hph Hg. induction Hg; try (by eapply g_has_fault); (destruct Hph as [Heq|Heq]; try discriminate Heq);
    constructor; by auto.
Qed.

Lemma guarded_seq {P : Policy} {E X Y} Q Q' (more : X) (more' : Y) (f : X -> prog E Y) c (p : prog E X) :
  guarded Q more Committed c p -> (forall x c, Q x -> guarded Q' more' Committed c (f x)) ->
  guarded Q' more' Committed c (prog_bind f p).
Proof.
  intros Hp Hf. remember Committed as ph eqn:Hph. induction Hp as [| | | | | | | | | | | | | |ph c n k e1 e2 Hn Ht Hk He1 He2]; try discriminate Hph; subst; cbn; auto;
    [constructor; by auto..|]. by apply (g_has_fault _ _ _ _ _ _ e1 e2); [|rewrite Ht|rewrite Hk| |].
Qed.

(** The result of a reader, renamed. *)
Lemma guarded_map {P : Policy} {E X Y} (Q : X -> Prop) (Q' : Y -> Prop) (more : X) (more' : Y) (g : X -> Y) ph c (p : prog E X) :
  g more = more' -> (forall x, Q x -> Q' (g x)) ->
  guarded Q more ph c p -> guarded Q' more' ph c (prog_bind (fun x => Ret (g x)) p).
Proof. intros <- Hx. apply guarded_then; [done|]. intros x c' H. apply g_done. auto. Qed.

(** ** Equivalence of programs *)

(** Programs that run alike in every state of the stream. *)
Definition prog_eq {E A} (p q : prog E A) : Prop := forall s, arun p s = arun q s.

#[export] Instance prog_eq_equivalence {E A} : Equivalence (prog_eq (E:=E) (A:=A)).
Proof.
  split; [by intros p s|by intros p q Hpq s; rewrite Hpq|]. intros p q r Hpq Hqr s. by rewrite Hpq, Hqr.
Qed.

#[export] Instance prog_bind_proper {E A B} :
  Proper (pointwise_relation A prog_eq ==> prog_eq ==> prog_eq) (prog_bind (E:=E) (A:=A) (B:=B)).
Proof.
  intros f g Hfg p q Hpq s. rewrite !arun_bind, Hpq. destruct (arun q s) as [[[a s'] evs]|]; [|done].
  by rewrite (Hfg a s').
Qed.

Lemma prog_bind_bind {E A B C} (f : A -> prog E B) (g : B -> prog E C) p :
  prog_eq (prog_bind g (prog_bind f p)) (prog_bind (fun a => prog_bind g (f a)) p).
Proof.
  intros s. rewrite (arun_bind g), (arun_bind f), (arun_bind (fun a => prog_bind g (f a))).
  destruct (arun p s) as [[[a s'] evs]|]; [|done]. rewrite arun_bind.
  destruct (arun (f a) s') as [[[b s''] evs']|]; [|done]. cbn. by rewrite prepend_app.
Qed.

(** Congruence under the primitive a program starts with. *)
Lemma prog_eq_has {E A} n (k k' : bool -> prog E A) :
  (forall b, prog_eq (k b) (k' b)) -> prog_eq (HasData n k) (HasData n k').
Proof. intros Hk [d rp c]. cbn. case_test; apply Hk. Qed.
Lemma prog_eq_take {E A} n (k k' : list Z -> prog E A) :
  (forall bs, prog_eq (k bs) (k' bs)) -> prog_eq (Take n k) (Take n k').
Proof. intros Hk [d rp c]. cbn. case_test; [done|]. case_test; [done|]. apply Hk. Qed.

Lemma outcome_eq {E A} (p q : prog E A) d : prog_eq p q -> outcome p d = outcome q d.
Proof. intros Hpq. unfold outcome. by rewrite Hpq. Qed.

(** Two runs that agree in everything but the number of checked bytes. *)
Definition agree {E A} (Q : A -> Prop) (x y : res (A * astate * list E)) : Prop :=
  match x, y with
  | Ok (a, AState d rp c, evs), Ok (a', AState d' rp' c', evs') =>
      Q a /\ a = a' /\ d = d' /\ rp = rp' /\ evs = evs' /\ bytes (restored rp d) /\ 0 <= c /\ 0 <= c'
  | Throw e, Throw e' => e = e'
  | _, _ => False
  end.

(** A program that does not build on the checks of those before it. *)
Definition self_checking {E A} (Q : A -> Prop) (p : prog E A) : Prop :=
  forall d rp c c', bytes (restored rp d) -> 0 <= c -> 0 <= c' ->
  agree Q (arun p (AState d rp c)) (arun p (AState d rp c')).

Lemma agree_prepend {E A} (Q : A -> Prop) (evs : list E) x y :
  agree Q x y -> agree Q (prepend evs x) (prepend evs y).
Proof.
  destruct x as [[[a [d rp c]] e]|], y as [[[a' [d' rp' c']] e']|]; cbn; try done.
  intros (? & -> & -> & -> & -> & ? & ?). done.
Qed.

Lemma guarded_agree {P : Policy} {HF : Free P} {E X} (Q : X -> Prop) more ph c (p : prog E X) : guarded Q more ph c p ->
  forall d rp c1 c2, bytes (restored rp d) -> 0 <= c1 -> 0 <= c2 -> c <= c1 -> c <= c2 ->
  agree (fun x => Q x \/ x = more) (arun p (AState d rp c1)) (arun p (AState d rp c2)).
Proof.
  induction 1 as
    [c x Hx|c x Hx|c|ph c w Hw|c n k Hf Hn _ IH|c n k Hf Hn _ IH|c n k Hf Hn _ IH|c k _ IH|c k _ IH|c k _ IH
    |c n k Hle _ IH|ph c n k Hph Hle _ IH|c ev k _ IH|ph c ev k Hph _ IH|ph c n k e1 e2 Hn Ht Hf He1 He2];
    intros d rp c1 c2 Hb H1 H2 Hc1 Hc2; cbn; try (split_and!; by auto); try done.
  - case_test; [by apply IH|]. rewrite Hf. cbn. split_and!; auto; lia.
  - case_test; [by apply IH|]. rewrite Hf. destruct rp; cbn in *; [|done]. split_and!; auto; lia.
  - case_test; [by apply IH|]. rewrite Hf. destruct rp; cbn in *; [|done]. split_and!; auto; lia.
  - destruct rp; [done|]. by apply IH.
  - destruct rp; [|done]. apply IH; [|done..]. unfold restored in *. cbn in *. by apply bytes_app in Hb as [_ ?].
  - destruct rp; [|done]. apply IH; [|done..]. unfold restored in *. cbn in *. by apply bytes_app in Hb as [_ ?].
  - rewrite (proj2 (Z.ltb_ge c1 n)), (proj2 (Z.ltb_ge c2 n)) by lia. case_test; [done|].
    pose proof Hb as [_ Hd]%bytes_app.
    apply IH; [apply len_ztake; lia|by apply bytes_ztake|apply free| |lia..].
    unfold restored. destruct rp; cbn in *; [|by apply bytes_zdrop].
    rewrite <- app_assoc, ztake_zdrop. done.
  - rewrite (proj2 (Z.ltb_ge c1 n)), (proj2 (Z.ltb_ge c2 n)) by lia. case_test; [done|].
    pose proof Hb as [_ Hd]%bytes_app.
    apply IH; [apply len_ztake; lia|by apply bytes_ztake|apply free| |lia..].
    unfold restored. destruct rp; cbn in *; [|by apply bytes_zdrop].
    rewrite <- app_assoc, ztake_zdrop. done.
  - by apply (agree_prepend _ [ev]), IH.
  - by apply (agree_prepend _ [ev]), IH.
  - case_test; [by rewrite Ht|by rewrite Hf].
Qed.

Lemma guarded_self_checking {P : Policy} {HF : Free P} {E X} (Q : X -> Prop) more (p : prog E X) :
  guarded Q more Clean 0 p -> self_checking (fun x => Q x \/ x = more) p.
Proof. intros Hp d rp c c' Hb Hc Hc'. by eapply guarded_agree. Qed.

Lemma self_checking_weaken {E A} (Q Q' : A -> Prop) (p : prog E A) :
  (forall x, Q x -> Q' x) -> self_checking Q p -> self_checking Q' p.
Proof.
  intros HQ Hp d rp c c' Hb Hc Hc'. specialize (Hp d rp c c' Hb Hc Hc').
  destruct (arun p (AState d rp c)) as [[[a [d1 rp1 c1]] e1]|], (arun p (AState d rp c')) as [[[a' [d2 rp2 c2]] e2]|];
    try done. destruct Hp as (? & Hp). split; [auto|exact Hp].
Qed.

Lemma self_checking_eq {E A} (Q : A -> Prop) (p q : prog E A) :
  prog_eq p q -> self_checking Q q -> self_checking Q p.
Proof. intros Hpq Hq d rp c c' Hb Hc Hc'. rewrite !Hpq. by apply Hq. Qed.

Lemma self_checking_bind {E A B} (Q : A -> Prop) (Q' : B -> Prop) (f : A -> prog E B) p :
  self_checking Q p -> (forall a, Q a -> self_checking Q' (f a)) -> self_checking Q' (prog_bind f p).
Proof.
  intros Hp Hf d rp c c' Hb Hc Hc'. rewrite !arun_bind. specialize (Hp d rp c c' Hb Hc Hc').
  destruct (arun p (AState d rp c)) as [[[a [d1 rp1 c1]] e1]|], (arun p (AState d rp c')) as [[[a' [d2 rp2 c2]] e2]|];
    cbn in Hp; try done.
  destruct Hp as (Ha & <- & <- & <- & <- & ? & ? & ?). apply agree_prepend. by apply (Hf a Ha).
Qed.

(** What comes first does not matter to a program that checks for itself. *)
Lemma outcome_self_checking {E A} (Q : A -> Prop) (p : prog E A) d c : self_checking Q p -> bytes d -> 0 <= c ->
  match arun p (AState d None c) with
  | Ok (a, AState d' None _, evs) => Ok (a, d', evs)
  | Ok (_, AState _ (Some _) _, _) => Throw (logic_error "Nested use of input stream restore point")
  | Throw e => Throw e
  end = outcome p d.
Proof.
  intros Hp Hb Hc. specialize (Hp d None c 0 Hb Hc ltac:(lia)). unfold outcome, fresh.
  destruct (arun p (AState d None c)) as [[[a [d1 rp1 c1]] e1]|], (arun p (AState d None 0)) as [[[a' [d2 rp2 c2]] e2]|];
    cbn in Hp; try done; [|by rewrite Hp].
  destruct Hp as (_ & <- & <- & <- & <- & _). by destruct rp1.
Qed.

(** The outcome of a guarded program and of what follows it. *)
Lemma outcome_then {P : Policy} {HF : Free P} {E X B} (Q : X -> Prop) more (Q' : B -> Prop) (p : prog E X) (f : X -> prog E B) d :
  guarded Q more Clean 0 p -> (forall x, Q x \/ x = more -> self_checking Q' (f x)) -> bytes d ->
  outcome (prog_bind f p) d =
  match outcome p d with Ok (x, d', evs) => prepend evs (outcome (f x) d') | Throw e => Throw e end.
Proof.
  intros Hp Hf Hb. unfold outcome at 1, fresh. rewrite arun_bind.
  pose proof (guarded_self_checking _ _ _ Hp d None 0 0 Hb ltac:(lia) ltac:(lia)) as Ha.
  pose proof (guarded_sound _ _ _ _ _ Hp d None (good_bytes d Hb) ltac:(llia) eq_refl) as Hv.
  unfold outcome at 1, fresh.
  destruct (arun p (AState d None 0)) as [[[x [d1 rp1 c1]] e1]|e] eqn:Hrun; [|done].
  destruct Ha as (Hx & _ & _ & _ & _ & Hb1 & Hc1 & _).
  assert (rp1 = None) as ->.
  { destruct Hv as [y used rest evs c' _ -> Hr|c' _ Hr|Hr].
    - specialize (Hr []). rewrite app_nil_r, Hrun in Hr. by simplify_eq.
    - rewrite Hrun in Hr. by simplify_eq.
    - destruct (Hr []) as (e & _ & Hr'). rewrite app_nil_r, Hrun in Hr'. done. }
  rewrite <- (outcome_self_checking Q' (f x) d1 c1) by auto.
  destruct (arun (f x) (AState d1 None c1)) as [[[y [d2 [|] c2]] e2]|]; done.
Qed.

(** ** Resumable readers

    A reader that keeps state [L] between calls is resumable if stopping for
    lack of data and going on later is the same as having had the data at
    once, and if a completed call does not depend on the data behind it. *)

Section resumable.
Context {P : Policy} {E L : Type} (I : L -> Prop) (mu : L -> nat).
Implicit Types R : L -> prog E (bool * L).

(** [I] is an invariant of the state. *)
Definition resumable R : Prop := forall l d, I l -> bytes d ->
  match outcome (R l) d with
  | Ok (true, l', d', evs) =>
      I l' /\ bytes d' /\ forall m, bytes m -> outcome (R l) (d ++ m) = Ok (true, l', d' ++ m, evs)
  | Ok (false, l', d', evs) =>
      I l' /\ bytes d' /\ forall m, bytes m -> outcome (R l) (d ++ m) = prepend evs (outcome (R l') (d' ++ m))
  | Throw _ => forall m, bytes m -> exists e, outcome (R l) (d ++ m) = Throw e
  end.

(** The message loop: call the reader until it asks for more data. *)
Inductive drains R : L -> list Z -> L -> list Z -> list E -> Prop :=
| drain_stop l d l' d' evs :
    outcome (R l) d = Ok (false, l', d', evs) -> drains R l d l' d' evs
| drain_step l d l1 d1 evs1 l2 d2 evs2 :
    outcome (R l) d = Ok (true, l1, d1, evs1) -> drains R l1 d1 l2 d2 evs2 ->
    drains R l d l2 d2 (evs1 ++ evs2).

(** The same loop as a function. *)
Fixpoint drain (fuel : nat) R (l : L) (d : list Z) : res (L * list Z * list E) :=
  match fuel with
  | O => Ok (l, d, [])
  | S fuel =>
      match outcome (R l) d with
      | Ok (true, l', d', evs) => prepend evs (drain fuel R l' d')
      | Ok (false, l', d', evs) => Ok (l', d', evs)
      | Throw e => Throw e
      end
  end.

(** Data that arrives in pieces: the loop runs after each of them. *)
Inductive feeds R : L -> list Z -> list (list Z) -> L -> list Z -> list E -> Prop :=
| feed_nil l d l' d' evs : drains R l d l' d' evs -> feeds R l d [] l' d' evs
| feed_cons l d l1 d1 evs1 chunk chunks l2 d2 evs2 :
    drains R l d l1 d1 evs1 -> feeds R l1 (d1 ++ chunk) chunks l2 d2 evs2 ->
    feeds R l d (chunk :: chunks) l2 d2 (evs1 ++ evs2).

Lemma drains_functional R l d l1 d1 e1 l2 d2 e2 :
  drains R l d l1 d1 e1 -> drains R l d l2 d2 e2 -> l1 = l2 /\ d1 = d2 /\ e1 = e2.
Proof.
  intros H. revert l2 d2 e2. induction H as [? ? ? ? ? H|? ? ? ? ? ? ? ? H _ IH]; intros l2' d2' e2 H';
    inversion H' as [? ? ? ? ? H3|? ? ? ? ? ? ? ? H3 H4]; subst; rewrite H in H3; simplify_eq; [done|].
  by destruct (IH _ _ _ H4) as (-> & -> & ->).
Qed.

Lemma drains_inv R l d l2 d2 e : drains R l d l2 d2 e ->
  outcome (R l) d = Ok (false, l2, d2, e) \/
  exists l1 d1 e1 e2, outcome (R l) d = Ok (true, l1, d1, e1) /\ drains R l1 d1 l2 d2 e2 /\ e = e1 ++ e2.
Proof. destruct 1 as [|? ? l1 d1 e1 ? ? e2]; [by left|right]. by exists l1, d1, e1, e2. Qed.

(** The invariant and the bytes stay what they are. *)
Lemma drains_inv_bytes R l d l' d' evs :
  resumable R -> drains R l d l' d' evs -> I l -> bytes d -> I l' /\ bytes d'.
Proof.
  intros HR. induction 1 as [l d ? ? ? H|l d ? ? ? ? ? ? H _ IH]; intros Hi Hb;
    specialize (HR l d Hi Hb); rewrite H in HR; destruct HR as (? & ? & ?); auto.
Qed.

(** Draining [d], then [m], is draining [d ++ m]. *)
Lemma drains_app R l d l1 d1 e1 m l2 d2 e2 :
  resumable R -> I l -> bytes d -> bytes m ->
  drains R l d l1 d1 e1 -> drains R l1 (d1 ++ m) l2 d2 e2 -> drains R l (d ++ m) l2 d2 (e1 ++ e2).
Proof.
  intros HR Hi Hd Hm H. revert Hi Hd.
  induction H as [l d l1 d1 e1 H|l d l' d' e' l1 d1 e1 H _ IH]; intros Hi Hd H2;
    pose proof (HR l d Hi Hd) as Hl; rewrite H in Hl; destruct Hl as (Hi1 & Hd1 & Hl); specialize (Hl m Hm).
  -
    apply drains_inv in H2 as [H3|(l3 & d3 & e3 & e4 & H3 & H4 & ->)]; rewrite H3 in Hl.
    + by apply drain_stop.
    + rewrite app_assoc. by eapply drain_step.
  - rewrite <- app_assoc. eapply drain_step; [exact Hl|auto].
Qed.

(** Any segmentation of the stream gives the events, the reader state and the
    left-over bytes of the unsegmented stream. *)
Lemma feeds_concat R l d chunks l' d' evs :
  resumable R -> I l -> bytes d -> Forall bytes chunks ->
  feeds R l d chunks l' d' evs -> drains R l (d ++ concat chunks) l' d' evs.
Proof.
  intros HR Hi Hd Hc H. revert Hi Hd Hc.
  induction H as [|l d l1 d1 e1 c cs l2 d2 e2 H _ IH]; intros Hi Hd Hc; cbn.
  - by rewrite app_nil_r.
  - apply Forall_cons_1 in Hc as [Hc1 Hc].
    destruct (drains_inv_bytes _ _ _ _ _ _ HR H Hi Hd).
    eapply drains_app; [done|done|done| |done|].
    + apply bytes_app. split; [done|]. by apply Forall_concat.
    + rewrite app_assoc. apply IH; [done| |done]. by apply bytes_app.
Qed.

(** Undoing [drains_app]: what is left to do after draining [d]. *)
Lemma drains_split R l d l1 d1 e1 m l2 d2 e :
  resumable R -> I l -> bytes d -> bytes m ->
  drains R l d l1 d1 e1 -> drains R l (d ++ m) l2 d2 e ->
  exists e2, e = e1 ++ e2 /\ drains R l1 (d1 ++ m) l2 d2 e2.
Proof.
  intros HR Hi Hd Hm H. revert e Hi Hd.
  induction H as [l d l1 d1 e1 H|l d l' d' e' l1 d1 e1 H _ IH]; intros e Hi Hd H2;
    pose proof (HR l d Hi Hd) as Hl; rewrite H in Hl; destruct Hl as (Hi1 & Hd1 & Hl); specialize (Hl m Hm).
  - apply drains_inv in H2 as [H3|(l3 & d3 & e3 & e4 & H3 & H4 & ->)];
      rewrite Hl in H3; destruct (outcome (R l1) (d1 ++ m)) as [[[[b l0] d0] e0]|x] eqn:H0; simplify_eq/=.
    + exists e0. split; [done|]. by apply drain_stop.
    + exists (e0 ++ e4). rewrite app_assoc. split; [done|]. by eapply drain_step.
  - apply drains_inv in H2 as [H3|(l3 & d3 & e3 & e4 & H3 & H4 & ->)]; rewrite Hl in H3; simplify_eq.
    destruct (IH _ Hi1 Hd1 H4) as (e2 & -> & H5). exists e2. rewrite app_assoc. done.
Qed.

(** A loop that throws on [d] throws on anything that starts with [d]. *)
Lemma drain_throw R fuel l d m l2 d2 e x :
  resumable R -> I l -> bytes d -> bytes m -> drain fuel R l d = Throw x -> ~ drains R l (d ++ m) l2 d2 e.
Proof.
  intros HR Hi Hd Hm. revert l d e Hi Hd. induction fuel as [|fuel IH]; intros l d e Hi Hd; cbn [drain]; [done|].
  pose proof (HR l d Hi Hd) as Hl. destruct (outcome (R l) d) as [[[[[|] l'] d'] e']|y] eqn:H; [|done|].
  - destruct (drain fuel R l' d') as [[[? ?] ?]|y] eqn:H1; cbn; [done|]. intros [= ->] H2.
    destruct Hl as (Hi' & Hd' & Hl). specialize (Hl m Hm).
    apply drains_inv in H2 as [H3|(l3 & d3 & e3 & e4 & H3 & H4 & ->)]; rewrite Hl in H3; simplify_eq.
    exact (IH _ _ _ Hi' Hd' H1 H4).
  - intros [= ->] H2. destruct (Hl m Hm) as [e0 Hl'].
    by apply drains_inv in H2 as [H3|(l3 & d3 & e3 & e4 & H3 & H4 & ->)]; rewrite Hl' in H3.
Qed.

(** *** Readers made of fields and messages *)

(** [R] reads one message whose type is known; it leaves its state alone until
    the message is there, and then brings the measure down. *)
Definition message_at R (l : L) : Prop :=
  guarded (fun x => x.1 = true /\ I x.2 /\ (mu x.2 < mu l)%nat) (false, l) Clean 0 (R l).

(** What a reader does with a field of fixed size at the head of a message: it
    throws, it is done, or it makes some calls and goes on as in another state. *)
Inductive field_step := FThrow (e : exn) | FDone (l : L) (evs : list E) | FGo (l : L) (evs : list E).

(** The calls of a reader: a message at once, or a field or a part of the
    message that is kept, and then the rest. *)
Inductive shape R : L -> Prop :=
| shape_message l : I l -> message_at R l -> shape R l
| shape_field l (n : Z) (step : list Z -> field_step) :
    I l -> 0 <= n ->
    (forall f e, len f = n -> bytes f -> step f = FThrow e -> fault e) ->
    (forall f l' evs, len f = n -> bytes f -> step f = FDone l' evs ->
       I l' /\ (mu l' < mu l + Z.to_nat n)%nat) ->
    (forall f l' evs, len f = n -> bytes f -> step f = FGo l' evs -> (mu l' <= mu l + Z.to_nat n)%nat) ->
    (forall f l' evs, len f = n -> bytes f -> step f = FGo l' evs -> shape R l') ->
    (forall d, outcome (R l) d =
       if n <=? len d then
         match step (ztake n d) with
         | FThrow e => Throw e
         | FDone l' evs => Ok (true, l', zdrop n d, evs)
         | FGo l' evs => prepend evs (outcome (R l') (zdrop n d))
         end
       else Ok (false, l, d, [])) ->
    shape R l
| shape_step l (G : L -> Prop) (p : prog E (option L)) :
    I l -> guarded (fun x => exists l', x = Some l' /\ G l') None Clean 0 p ->
    (forall l', G l' -> (mu l' <= mu l)%nat) -> (forall l', G l' -> shape R l') ->
    (forall d, bytes d -> outcome (R l) d =
       match outcome p d with
       | Ok (Some l', d', evs) => prepend evs (outcome (R l') d')
       | Ok (None, d', evs) => Ok (false, l, d', evs)
       | Throw e => Throw e
       end) ->
    shape R l.

Lemma message_outcome R l d : message_at R l -> good d ->
  (exists l' used rest evs, I l' /\ (mu l' < mu l)%nat /\ d = used ++ rest /\
     forall m, outcome (R l) (d ++ m) = Ok (true, l', rest ++ m, evs)) \/
  outcome (R l) d = Ok (false, l, d, []) \/
  (forall m, exists e, fault e /\ outcome (R l) (d ++ m) = Throw e).
Proof.
  intros Hg Hb.
  destruct (guarded_outcome _ _ _ d Hg Hb) as [([b l'] & used & rest & evs & (Hx & Hi & Hm) & -> & H)|[H|?]].
  - left. cbn in *. subst. by exists l', used, rest, evs.
  - by right; left.
  - by right; right.
Qed.

(** What the three kinds of outcome are, for all that may follow the data. *)
Definition settled R (l : L) (d : list Z) : Prop :=
  (exists l' used rest evs, I l' /\ (mu l' + length rest < mu l + length d)%nat /\ d = used ++ rest /\
     forall m, bytes m -> outcome (R l) (d ++ m) = Ok (true, l', rest ++ m, evs)) \/
  (exists l' used rest evs, I l' /\ d = used ++ rest /\ outcome (R l) d = Ok (false, l', rest, evs) /\
     forall m, bytes m -> outcome (R l) (d ++ m) = prepend evs (outcome (R l') (rest ++ m))) \/
  (forall m, bytes m -> exists e, fault e /\ outcome (R l) (d ++ m) = Throw e).

(** The step from a state to one that is closer to the end of its message. *)
Lemma settled_step R l l' f d evs : bytes d -> (mu l' <= mu l + length f)%nat ->
  (forall m, bytes m -> outcome (R l) (f ++ d ++ m) = prepend evs (outcome (R l') (d ++ m))) ->
  settled R l' d -> settled R l (f ++ d).
Proof.
  intros Hb Hmu Hstep [(l2 & used & rest & evs2 & Hi2 & Hmu2 & -> & H)|[(l2 & used & rest & evs2 & Hi2 & -> & H1 & H)|H]].
  - left. exists l2, (f ++ used), rest, (evs ++ evs2). split; [done|].
    split; [rewrite (length_app f); lia|]. split; [by rewrite app_assoc|].
    intros m Hm. rewrite <- app_assoc, Hstep, H by done. done.
  - right; left. exists l2, (f ++ used), rest, (evs ++ evs2). split; [done|]. split; [by rewrite app_assoc|].
    split.
    + pose proof (Hstep [] ltac:(constructor)) as H0. rewrite !app_nil_r in H0. by rewrite H0, H1.
    + intros m Hm. by rewrite <- app_assoc, Hstep, H, prepend_app by done.
  - right; right. intros m Hm. destruct (H m Hm) as (e & He & Hr). exists e. split; [done|]. by rewrite <- app_assoc, Hstep, Hr by done.
Qed.

Lemma shape_outcome R l : shape R l -> forall d, good d -> settled R l d.
Proof.
  induction 1 as [l Hi Hm|l n step Hi Hn He Hdone Hmu _ IH HR|l G p Hi Hp Hmu _ IH HR]; intros d Hb.
  - destruct (message_outcome R l d Hm Hb) as [(l' & used & rest & evs & Hi' & Hmu & -> & H)|[H|H]].
    + left. exists l', used, rest, evs. split; [done|]. split; [rewrite length_app; lia|auto].
    + right; left. exists l, [], d, []. do 3 (split; [done|]). intros m _. by rewrite prepend_nil.
    + right; right. auto.
  - destruct (Z.leb_spec n (len d)) as [Hl|Hl].
    2: { right; left. exists l, [], d, []. do 2 (split; [done|]). rewrite HR, (proj2 (Z.leb_gt _ _)) by lia.
         split; [done|]. intros m _. by rewrite prepend_nil. }
    assert (len (ztake n d) = n) as Hlen by (apply len_ztake; lia).
    assert (bytes (ztake n d)) as Hbt by (by apply good_ztake).
    assert (good (zdrop n d)) as Hbd by (by apply good_zdrop).
    rewrite <- (ztake_zdrop n d). set (f := ztake n d) in *. set (d' := zdrop n d) in *.
    assert (Z.to_nat n = length f) as Hnat by (unfold len in Hlen; lia).
    assert (forall m, outcome (R l) (f ++ d' ++ m) =
      match step f with
      | FThrow e => Throw e
      | FDone l' evs => Ok (true, l', d' ++ m, evs)
      | FGo l' evs => prepend evs (outcome (R l') (d' ++ m))
      end) as Hall.
    { intros m. rewrite HR, (proj2 (Z.leb_le _ _)) by llia. by rewrite ztake_app, zdrop_app by done. }
    destruct (step f) as [e|l' evs|l' evs] eqn:Hs.
    + right; right. intros m _. exists e. split; [by eapply He|]. by rewrite <- app_assoc.
    + left. destruct (Hdone _ _ _ Hlen Hbt Hs). exists l', f, d', evs.
      split; [done|]. split; [rewrite length_app; lia|]. split; [done|]. intros m _. by rewrite <- app_assoc.
    + specialize (Hmu _ _ _ Hlen Hbt Hs). eapply settled_step; [apply Hbd| |intros m _; apply Hall|]; [lia|].
      by eapply IH.
  - destruct (guarded_outcome _ _ _ d Hp Hb) as [(x & used & rest & evs & (l' & -> & HP) & -> & H)|[H|H]].
    + pose proof Hb as [Hb1 Hb2]%good_app.
      apply (settled_step R l l' used rest evs); [apply Hb2|specialize (Hmu l' HP); lia| |by apply (IH l' HP)].
      destruct Hb as [Hb _]. intros m Hm. rewrite app_assoc, HR by (apply bytes_app; auto). by rewrite H.
    + right; left. exists l, [], d, []. do 2 (split; [done|]). rewrite HR by apply Hb. rewrite H.
      split; [done|]. intros m _. by rewrite prepend_nil.
    + right; right. intros m Hm. destruct (H m) as (e & He & Hr). exists e. split; [done|]. destruct Hb as [Hb _]. rewrite HR by (apply bytes_app; auto). by rewrite Hr.
Qed.

Lemma resumable_messages `{!Free P} R : (forall l, I l -> shape R l) -> resumable R.
Proof.
  intros HR l d Hi Hb.
  destruct (shape_outcome R l (HR l Hi) d (good_bytes d Hb))
    as [(l' & used & rest & evs & Hi' & Hmu & -> & H)|[(l' & used & rest & evs & Hi' & -> & H0 & H)|H]].
  - pose proof (H [] ltac:(constructor)) as H0. rewrite !app_nil_r in H0. rewrite H0.
    apply bytes_app in Hb as [_ Hb]. done.
  - rewrite H0. apply bytes_app in Hb as [_ Hb]. done.
  - destruct (H [] ltac:(constructor)) as (e & _ & H0). rewrite app_nil_r in H0. rewrite H0.
    intros m Hm. destruct (H m Hm) as (e' & _ & H'). by exists e'.
Qed.

(** A loop whose calls bring a measure of state and data down ends: it asks for
    more, or ends in a fault. *)
Lemma drain_total R (l : L) (d : list Z) (fuel : nat) :
  (forall l, I l -> shape R l) ->
  I l -> good d -> (mu l + length d < fuel)%nat ->
  (exists l' d' evs, drain fuel R l d = Ok (l', d', evs) /\ drains R l d l' d' evs) \/
  (exists e, fault e /\ drain fuel R l d = Throw e).
Proof.
  intros HR. revert l d. induction fuel as [|fuel IH]; intros l d Hi Hb Hf; [lia|]. cbn [drain].
  destruct (shape_outcome R l (HR l Hi) d Hb)
    as [(l' & used & rest & evs & Hi' & Hmu & -> & H)|[(l' & used & rest & evs & Hi' & -> & H0 & H)|H]].
  - pose proof (H [] ltac:(constructor)) as H0. rewrite !app_nil_r in H0. rewrite H0.
    apply good_app in Hb as [_ Hb].
    destruct (IH l' rest Hi' Hb ltac:(lia)) as [(l2 & d2 & e2 & -> & Hd)|(e & He & ->)].
    + left. exists l2, d2, (evs ++ e2). split; [done|]. by eapply drain_step.
    + right. by exists e.
  - left. exists l', rest, evs. rewrite H0. split; [done|]. by apply drain_stop.
  - right. destruct (H [] ltac:(constructor)) as (e & He & H0). exists e. split; [done|]. rewrite app_nil_r in H0. by rewrite H0.
Qed.

(** Where the loop ends on the unsegmented stream, it ends on every
    segmentation of it, with the same result. *)
Lemma feeds_of_drains `{!Free P} R l d chunks l' d' evs :
  (forall l, I l -> shape R l) ->
  I l -> bytes d -> Forall bytes chunks ->
  drains R l (d ++ concat chunks) l' d' evs -> feeds R l d chunks l' d' evs.
Proof.
  intros Hs. pose proof (resumable_messages R Hs) as HR. revert l d evs.
  induction chunks as [|c cs IH]; intros l d evs Hi Hd Hc H; cbn in H.
  - rewrite app_nil_r in H. by constructor.
  - apply Forall_cons_1 in Hc as [Hc1 Hc].
    assert (bytes (concat cs)) as Hcs by (by apply Forall_concat).
    destruct (drain_total R l d (S (mu l + length d)) Hs Hi (good_bytes d Hd) ltac:(lia))
      as [(l1 & d1 & e1 & _ & H1)|(x & _ & Hx)].
    + destruct (drains_inv_bytes _ _ _ _ _ _ HR H1 Hi Hd) as [Hi1 Hd1].
      destruct (drains_split R l d l1 d1 e1 (c ++ concat cs) l' d' evs HR Hi Hd) as (e2 & -> & H2);
        [apply bytes_app; by split|done|done|].
      eapply feed_cons; [done|]. apply IH; [done| |done|by rewrite <- app_assoc].
      apply bytes_app. by split.
    + exfalso. refine (drain_throw _ _ _ _ _ _ _ _ _ HR Hi Hd _ Hx H). apply bytes_app; by split.
Qed.
End resumable.

(** ** Readers that are part of another one

    A reader that keeps state [D] and stops short of its end: it reads the rest
    of what it is after at once, or it reads a part of it, keeps that, and goes
    on.  Nothing is asked of a measure; the definition is well-founded. *)
Inductive part {E D} (I : D -> Prop) (R : D -> prog E (bool * D)) : D -> Prop :=
| part_message d : I d -> guarded (fun x => x.1 = true /\ I x.2) (false, d) Clean 0 (R d) -> part I R d
| part_step d (P : D -> Prop) (p : prog E (option D)) (k : option D -> prog E (bool * D)) :
    I d -> guarded (fun x => exists d', x = Some d' /\ P d') None Clean 0 p ->
    (forall d', P d' -> part I R d') ->
    k None = Ret (false, d) -> (forall d', P d' -> prog_eq (k (Some d')) (R d')) ->
    prog_eq (R d) (prog_bind k p) ->
    part I R d.

Lemma part_inv {E D} I (R : D -> prog E (bool * D)) d : part I R d -> I d.
Proof. by destruct 1. Qed.

Section parts.
Context {E D L : Type} (I : D -> Prop) (R : D -> prog E (bool * D)) (J : L -> Prop) (mu : L -> nat)
  (S : L -> prog E (bool * L)) (embed : D -> L) (K : bool * D -> prog E (bool * L)).
Hypothesis embed_ok : forall d, I d -> J (embed d).
Hypothesis embed_mu : forall d d', mu (embed d) = mu (embed d').
Hypothesis S_embed : forall d, S (embed d) = prog_bind K (R d).
Hypothesis K_more : forall d, K (false, d) = Ret (false, embed d).
Hypothesis K_done : forall d d0 c, I d ->
  guarded (fun x => x.1 = true /\ J x.2 /\ (mu x.2 < mu (embed d0))%nat) (false, embed d0) Committed c (K (true, d)).

(** A reader that hands on to a part of itself has the shape of a reader. *)
Lemma shape_part d : part I R d -> self_checking (fun _ => True) (S (embed d)) /\ shape J mu S (embed d).
Proof.
  induction 1 as [d Hi Hg|d P p k Hi Hp _ IH Hn Hk Heq].
  - assert (message_at J mu S (embed d)) as Hg'.
    { unfold message_at. rewrite S_embed. eapply (guarded_then _ _ (false, d)); [apply K_more| |exact Hg].
      intros [b d'] c [Hb Hi']. cbn in *. subst b. by apply K_done. }
    split; [|apply shape_message; auto]. eapply self_checking_weaken; [|exact (guarded_self_checking _ _ _ Hg')]. done.
  - pose (f := fun x => prog_bind K (k x)).
    assert (prog_eq (S (embed d)) (prog_bind f p)) as HS by (by rewrite S_embed, Heq, prog_bind_bind).
    assert (forall d', P d' -> prog_eq (f (Some d')) (S (embed d'))) as Hsome.
    { intros d' HP. unfold f. by rewrite Hk, S_embed. }
    assert (f None = Ret (false, embed d)) as Hnone by (unfold f; rewrite Hn; apply K_more).
    assert (forall x, (exists d', x = Some d' /\ P d') \/ x = None -> self_checking (fun _ => True) (f x)) as Hf.
    { intros x [(d' & -> & HP)| ->]; [eapply self_checking_eq; [by apply Hsome|by apply IH]|].
      rewrite Hnone. intros ? ? ? ? ? ? ?. cbn. by split_and!. }
    split.
    + eapply self_checking_eq; [apply HS|]. eapply self_checking_bind; [|exact Hf].
      by eapply guarded_self_checking.
    + apply (shape_step _ _ _ _ (fun l => exists d', l = embed d' /\ P d')
        (prog_bind (fun x => Ret (embed <$> x)) p)); [auto| | | |].
      * eapply guarded_map; [| |exact Hp]; [done|]. intros x (d' & -> & HP). cbn. eauto.
      * intros l (d' & -> & _). by rewrite (embed_mu d' d).
      * intros l (d' & -> & HP). by apply IH.
      * intros dd Hb. rewrite (outcome_eq _ _ _ HS), (outcome_then _ _ _ _ _ _ Hp Hf Hb), outcome_map.
        destruct (guarded_outcome _ _ _ dd Hp (good_bytes dd Hb)) as [(x & used & rest & evs & (d' & -> & HP) & -> & Hr)|[Hr|Hr]].
        -- specialize (Hr []). rewrite !app_nil_r in Hr. rewrite Hr. cbn. by rewrite (outcome_eq _ _ _ (Hsome d' HP)).
        -- rewrite Hr, Hnone. done.
        -- destruct (Hr []) as (e & _ & Hr0). rewrite app_nil_r in Hr0. by rewrite Hr0.
Qed.
End parts.

(** What holds of readers that always return holds of readers that may not. *)
Lemma guarded_returning {P : Policy} {E X} (Q : X -> Prop) (more : X) ph c (p : prog E X) :
  guarded (P := returning) Q more ph c p -> guarded (P := P) Q more ph c p.
Proof.
  induction 1 as [| | |ph c e He| | | | | | |c n k Hn _ IH|ph c n k Hph Hn _ IH| | |ph c n k e1 e2 Hn Ht Hf He1 He2];
    try (constructor; by auto).
  - by apply g_raise, fault_ordinary.
  - apply g_take_clean; [done|]. intros bs Hl Hb _. by apply IH.
  - apply g_take; [done|done|]. intros bs Hl Hb _. by apply IH.
  - eapply g_has_fault; [done|done|done|by apply fault_ordinary..].
Qed.
Lemma shape_returning {P : Policy} {E L} (I : L -> Prop) (mu : L -> nat) (R : L -> prog E (bool * L)) l :
  shape (P := returning) I mu R l -> shape (P := P) I mu R l.
Proof.
  induction 1 as [l Hi Hm|l n step Hi Hn He Hdone Hmu _ IH HR|l G p Hi Hp Hmu _ IH HR].
  - apply shape_message; [done|]. by apply guarded_returning.
  - eapply shape_field; try done. intros f e Hl Hb Hs. by eapply fault_ordinary, He.
  - eapply shape_step; try done. by apply guarded_returning.
Qed.
