(* ===== verification/OutStream.v ===== *)
(** * Output streams ([common/rdr/OutStream.h])

    What is written to a stream is the list of its bytes, in order; the buffer
    behind it is the subject of the file BufferedOutStream.  A writer that
    throws before it is done is a [res (list Z)]. *)
From stdpp Require Import base list numbers strings option.
From S2P Require Import Prelude InStream.
#[local] Open Scope Z_scope.

(** [uint16_t] and [uint32_t] arguments are converted from [int] by the calls. *)
Definition writeU8 (u : Z) : list Z := [u8 u].
Definition writeU16 (u : Z) : list Z := [u8 (Z.shiftr (u16 u) 8); u8 (u16 u)].
Definition writeU32 (u : Z) : list Z :=
  [u8 (Z.shiftr (u32 u) 24); u8 (Z.shiftr (u32 u) 16); u8 (Z.shiftr (u32 u) 8); u8 (u32 u)].
Definition writeS16 (s : Z) : list Z := writeU16 s.
Definition writeS32 (s : Z) : list Z := writeU32 s.
Definition pad (bytes : nat) : list Z := replicate bytes 0.
Definition writeBytes (data : list Z) : list Z := data.

(** ** What is written is what is read *)

Lemma be16_pair a b : be16 [a; b] = u16 (Z.lor (Z.shiftl a 8) b).
Proof. reflexivity. Qed.

Lemma be32_quad a b c d : be32 [a; b; c; d] =
  u32 (Z.lor (Z.lor (Z.lor (Z.shiftl a 24) (Z.shiftl b 16)) (Z.shiftl c 8)) d).
Proof. reflexivity. Qed.

Lemma be16_write v : be16 (writeU16 v) = u16 v.
Proof.
  pose proof (u16_range v). unfold writeU16. rewrite be16_pair.
  generalize dependent (u16 v). intros w Hw. rewrite shiftr_div, (u8_id (w / 2 ^ 8)) by zlia.
  unfold u8. rewrite lor_shiftl_add by zlia. rewrite u16_id; zlia.
Qed.

Lemma be32_write v : be32 (writeU32 v) = u32 v.
Proof.
  pose proof (u32_range v). unfold writeU32. rewrite be32_quad.
  generalize dependent (u32 v). intros w Hw. rewrite !shiftr_div, (u8_id (w / 2 ^ 24)) by zlia. unfold u8.
  assert (Z.lor (Z.shiftl (w / 2 ^ 24) 24) (Z.shiftl ((w / 2 ^ 16) mod 2 ^ 8) 16)
            = Z.shiftl (w / 2 ^ 16) 16) as ->.
  { rewrite lor_shiftl_add, !Z.shiftl_mul_pow2 by (rewrite ?Z.shiftl_mul_pow2; zlia). zlia. }
  assert (Z.lor (Z.shiftl (w / 2 ^ 16) 16) (Z.shiftl ((w / 2 ^ 8) mod 2 ^ 8) 8)
            = Z.shiftl (w / 2 ^ 8) 8) as ->.
  { rewrite lor_shiftl_add, !Z.shiftl_mul_pow2 by (rewrite ?Z.shiftl_mul_pow2; zlia). zlia. }
  rewrite lor_shiftl_add by zlia. rewrite u32_id; zlia.
Qed.

Lemma znth_writeU8 v : znth 0 (writeU8 v) 0 = u8 v.
Proof. reflexivity. Qed.
Lemma writeU8_eq v : writeU8 v = [u8 v].
Proof. reflexivity. Qed.
Lemma len_writeU8 v : len (writeU8 v) = 1.
Proof. reflexivity. Qed.
Lemma len_writeU16 v : len (writeU16 v) = 2.
Proof. reflexivity. Qed.
Lemma len_writeU32 v : len (writeU32 v) = 4.
Proof. reflexivity. Qed.
Lemma len_pad n : len (pad n) = Z.of_nat n.
Proof. apply len_replicate. Qed.
Lemma len_writeBytes l : len (writeBytes l) = len l.
Proof. reflexivity. Qed.
Lemma len_concat_map {B} (w : B -> list Z) sz l : (forall x, len (w x) = sz) ->
  len (concat (map w l)) = sz * len l.
Proof. intros H. induction l as [|x l IH]; cbn; [by rewrite Z.mul_0_r|]. rewrite len_app, H, IH, len_cons. lia. Qed.
Lemma len_map_writeU32 l : len (concat (map writeU32 l)) = 4 * len l.
Proof. by apply len_concat_map. Qed.
#[export] Hint Rewrite len_writeU8 len_writeU16 len_writeU32 len_pad len_writeBytes len_map_writeU32 : len.

Lemma bytes_writeU8 v : bytes (writeU8 v).
Proof. repeat constructor; apply u8_range. Qed.
Lemma bytes_writeU16 v : bytes (writeU16 v).
Proof. repeat constructor; apply u8_range. Qed.
Lemma bytes_writeU32 v : bytes (writeU32 v).
Proof. repeat constructor; apply u8_range. Qed.
Lemma bytes_pad n : bytes (pad n).
Proof. induction n; cbn; constructor; [unfold is_byte; lia|done]. Qed.
#[export] Hint Resolve bytes_writeU8 bytes_writeU16 bytes_writeU32 bytes_pad : vnc.

#[global] Opaque writeU8 writeU16 writeU32 pad be16 be32.

(** ** Running a reader on written data, from its front *)

(** Unfolds stream operations down to their primitive calls. *)
Ltac prog_simpl :=
  cbn [mbind mret prog_mbind prog_mret prog_bind hasData hasDataOrRestore setRestorePoint
       clearRestorePoint gotoRestorePoint readU8 readU16 readU32 readS16 readS32 skip emit fst snd
       fmap option_fmap option_map].

(** Runs the reads at the front of a program on the fields at the front of the
    data; the fields have been written with the functions above. *)
Ltac read_fields :=
  repeat (prog_simpl; unfold mret, prog_mret, mbind, prog_mbind; cbn [negb];
          rewrite ?app_nil_l, <- ?app_assoc, ?be16_write, ?be32_write, ?znth_writeU8;
          lazymatch goal with
          | |- context [arun (Take _ _) _] => rewrite arun_take_app by llia
          | |- context [arun (HasData _ _) _] => rewrite arun_has_enough by llia
          | |- context [arun (SetRestorePoint _) _] => rewrite arun_set
          | |- context [arun (ClearRestorePoint _) _] => rewrite arun_clear
          | |- context [arun (Emit _ _) _] => rewrite arun_emit
          | |- context [arun (Ret _) _] => rewrite arun_ret
          end);
  rewrite ?be16_write, ?be32_write, ?znth_writeU8; cbn [prepend app].

(** Reading back, with [p], what [w] writes of [x]: the value is [v x]. *)
Definition reads_back {E A B} (p : prog E A) (w : B -> list Z) (v : B -> A) (sz : Z) (x : B) : Prop :=
  forall C (k : A -> prog E C) d rp c, sz <= c ->
    arun (prog_bind k p) (AState (w x ++ d) rp c) =
    arun (k (v x)) (AState d ((fun pre => pre ++ w x) <$> rp) (c - sz)).

Lemma fmap_app_app (rp : option (list Z)) f g :
  (fun pre => pre ++ g) <$> ((fun pre => pre ++ f) <$> rp) = (fun pre => pre ++ f ++ g) <$> rp.
Proof. destruct rp; cbn; [by rewrite app_assoc|done]. Qed.

Lemma arun_bind_assoc {E A B C} (f : A -> prog E B) (g : B -> prog E C) p s :
  arun (prog_bind g (prog_bind f p)) s = arun (prog_bind (fun a => prog_bind g (f a)) p) s.
Proof. apply prog_bind_bind. Qed.

Lemma reads_back_repeatM {E A B} (p : prog E A) (w : B -> list Z) (v : B -> A) (sz : Z) (l : list B) :
  0 <= sz -> Forall (reads_back p w v sz) l ->
  forall C (k : list A -> prog E C) d rp c, sz * len l <= c ->
    arun (prog_bind k (repeatM (length l) p)) (AState (concat (map w l) ++ d) rp c) =
    arun (k (map v l)) (AState d ((fun pre => pre ++ concat (map w l)) <$> rp) (c - sz * len l)).
Proof.
  intros Hsz. induction 1 as [|x l Hx _ IH]; intros C k d rp c Hc.
  - cbn. rewrite Z.mul_0_r, Z.sub_0_r. destruct rp; cbn; by rewrite ?app_nil_r.
  - cbn [length repeatM map concat]. rewrite len_cons in *. pose proof (len_nonneg l).
    unfold mbind, prog_mbind, mret, prog_mret.
    rewrite arun_bind_assoc, <- app_assoc, Hx by nia. rewrite arun_bind_assoc.
    rewrite (IH _ (fun xs => prog_bind k (Ret (v x :: xs)))) by nia.
    cbn [prog_bind]. rewrite fmap_app_app. f_equal. f_equal. lia.
Qed.

Lemma reads_back_U32 {E} x : reads_back (E:=E) readU32 writeU32 u32 4 x.
Proof. intros C k d rp c Hc. unfold readU32. cbn [prog_bind]. rewrite arun_take_app by llia. by rewrite be32_write. Qed.
Lemma reads_back_S32 {E} x : reads_back (E:=E) readS32 writeU32 s32 4 x.
Proof.
  intros C k d rp c Hc. unfold readS32, readU32, mbind, prog_mbind. cbn [prog_bind]. rewrite arun_take_app by llia.
  cbn [prog_bind mret prog_mret]. by rewrite be32_write, s32_u32.
Qed.

Lemma arun_readBytes {E A} (k : list Z -> prog E A) f d rp c : len f <= c ->
  arun (prog_bind k (readBytes (len f))) (AState (f ++ d) rp c) =
  arun (k f) (AState d ((fun pre => pre ++ f) <$> rp) (c - len f)).
Proof.
  intros H. unfold readBytes. case_test.
  - apply len_zero_nil in Heqb as ->. cbn. rewrite Z.sub_0_r. destruct rp; cbn; by rewrite ?app_nil_r.
  - cbn [prog_bind]. by apply arun_take_app.
Qed.

(** Runs a reader on what a writer put in front of the data. *)
Ltac run_reader := unfold outcome, fresh; read_fields; rewrite ?app_nil_r.

(** ** Deriving the calling discipline of a reader *)

(** Reads in a row, one after the other. *)
Ltac reads_seq :=
  prog_simpl;
  repeat match goal with
  | |- reads ?n (Take ?m _) =>
      replace n with (m + (n - m)) by lia; apply reads_take; [lia|lia|intros ? ? ?; cbn [Z.sub Z.add Z.opp Z.pos_sub]]
  end.

(** The ranges of the fields that have been read. *)
Ltac field_ranges :=
  repeat match goal with
  | |- context [be16 ?bs] => lazymatch goal with _ : 0 <= be16 bs < _ |- _ => fail | _ => pose proof (be16_range bs) end
  | |- context [be32 ?bs] => lazymatch goal with _ : 0 <= be32 bs < _ |- _ => fail | _ => pose proof (be32_range bs) end
  | _ : bytes ?bs |- context [znth 0 ?bs ?i] =>
     lazymatch goal with _ : 0 <= znth 0 bs i < _ |- _ => fail | _ => pose proof (znth_range bs i ltac:(assumption)) end
  end.

#[export] Hint Extern 1 (reads _ (readBytes _)) => apply reads_readBytes; field_ranges; lia : reads.
#[export] Hint Extern 1 (reads _ (getptr_setptr _)) => apply reads_getptr_setptr; field_ranges; lia : reads.

(** One rule of [guarded]: the shape of the program and the phase decide which. *)
Ltac guard_step :=
  prog_simpl; unfold mret, prog_mret, mbind, prog_mbind; cbn [negb];
  lazymatch goal with
  | |- guarded _ _ _ _ (Ret _) => first [apply g_more | apply g_done_clean; solve [done | by eexists] | apply g_done; solve [done | by eexists]]
  | |- guarded _ _ _ _ (Raise _) => apply g_raise, fault_ordinary; exact I
  | |- guarded _ _ Clean _ (HasData _ _) => apply g_has_clean; [reflexivity|field_ranges; lia|]
  | |- guarded _ _ Marked _ (HasData _ _) => apply g_has_ready; [reflexivity|field_ranges; lia|]
  | |- guarded _ _ Clean _ (SetRestorePoint _) => apply g_set
  | |- guarded _ _ Marked _ (ClearRestorePoint _) => apply g_clear_marked
  | |- guarded _ _ Ready _ (ClearRestorePoint _) => apply g_clear
  | |- guarded _ _ _ _ (Emit _ _) => first [apply g_emit; [first [by left|by right]|] | apply g_emit_clean]
  | |- guarded _ _ Clean _ (Take _ _) => apply guarded_clean
  | |- guarded _ _ _ _ (Take _ _) => apply g_take; [done|field_ranges; lia|intros ? ? ? ?]
  | |- guarded _ _ _ _ (prog_bind _ (match ?x with _ => _ end)) => destruct x eqn:?; bool_decide_hyps
  | |- guarded _ _ Clean _ (prog_bind _ _) => apply guarded_clean
  | |- guarded _ _ _ _ (prog_bind _ (prog_bind _ _)) =>
      eapply guarded_reads_nested; [eauto with reads|field_ranges; lia|done|intros ?]
  | |- guarded _ _ _ _ (prog_bind _ _) =>
      eapply guarded_reads; [eauto with reads|field_ranges; lia|done|intros ?]
  | |- context [if ?b then _ else _] => destruct b eqn:?; bool_decide_hyps
  end.
Ltac discipline := repeat guard_step.
