(* ===== verification/BufferedInStream.v ===== *)
(** * Buffered input ([rdr/BufferedInStream.cxx], [rdr/FdInStream.cxx])

    [BufferedInStream] keeps the bytes that have arrived and not been read in an
    array it moves, enlarges and shrinks.  The array is the list [mem], pointers
    are indices into it.  What the subclass does, and the clock, are the class
    [Device]; [FdInStream] over a socket (the class [Socket]) is an instance.
    [new_bytes] are the contents of a fresh array, which are anything.

    [crun] runs a program over such a stream in the release build, where nothing
    keeps count of checked bytes.  Proved here: every reader that keeps to the
    discipline of [InStream] computes on it, whatever the device does, what it
    computes in the checked build on all the bytes that have arrived; and so
    does a message loop that is called again and again. *)
From stdpp Require Import base list numbers strings option.
From S2P Require Import Prelude InStream OutStream.
#[local] Open Scope Z_scope.

Definition DEFAULT_BUF_SIZE : Z := 8192.
Definition MAX_BUF_SIZE : Z := 32 * 1024 * 1024.

Definition too_big : exn := runtime_error "Buffer size of %lu bytes exceeds maximum of %lu bytes".

(** ** The subclass and the clock *)

(** [fillBuffer space] tells whether it has read anything, and what. *)
Class Device (D : Type) := {
  fillBuffer : Z -> SE D (option (list Z));
  gettimeofday : D -> Z * D
}.

(** Given room, what is read is something, and fits. *)
Class DeviceOk (D : Type) `{Device D} : Prop := {
  fill_room space (d d' : D) bs : 0 < space -> fillBuffer space d = (Ok (Some bs), d') ->
    0 < len bs <= space /\ bytes bs
}.

(** What a device does in some calls: the bytes it delivers in them, in order. *)
Inductive delivers {D} `{Device D} : D -> list Z -> D -> Prop :=
| del_nothing d : delivers d [] d
| del_time d t d' bs d2 : gettimeofday d = (t, d') -> delivers d' bs d2 -> delivers d bs d2
| del_fill d space b d' bs d2 : fillBuffer space d = (Ok b, d') -> delivers d' bs d2 ->
    delivers d (default [] b ++ bs) d2
| del_throw d space e d' bs d2 : fillBuffer space d = (Throw e, d') -> delivers d' bs d2 -> delivers d bs d2.

Definition device_error {D} `{Device D} (e : exn) : Prop :=
  exists space (d d' : D), fillBuffer space d = (Throw e, d').

(** ** The stream *)

Record istream (D : Type) := IStream {
  mem : list Z;                (* the array at [start] *)
  ptr : Z; endp : Z;           (* relative to [start] *)
  bufSize : Z; offset : Z;
  lastSizeCheck : Z; peakUsage : Z;
  restorePoint : option Z;
  device : D
}.
Arguments IStream {D} _ _ _ _ _ _ _ _ _.
Arguments mem {D} _.
Arguments ptr {D} _.
Arguments endp {D} _.
Arguments bufSize {D} _.
Arguments offset {D} _.
Arguments lastSizeCheck {D} _.
Arguments peakUsage {D} _.
Arguments restorePoint {D} _.
Arguments device {D} _.

Section stream.
Context {D : Type} `{Device D} (new_bytes : Z -> list Z).
Implicit Types s : istream D.

Definition avail s : Z := endp s - ptr s.
Definition availSpace s : Z := bufSize s - endp s.
Definition pos s : Z := offset s + ptr s.

Definition set_ptr (p : Z) s : istream D :=
  IStream (mem s) p (endp s) (bufSize s) (offset s) (lastSizeCheck s) (peakUsage s) (restorePoint s) (device s).
Definition set_restore (rp : option Z) s : istream D :=
  IStream (mem s) (ptr s) (endp s) (bufSize s) (offset s) (lastSizeCheck s) (peakUsage s) rp (device s).
Definition set_usage (time peak : Z) s : istream D :=
  IStream (mem s) (ptr s) (endp s) (bufSize s) (offset s) time peak (restorePoint s) (device s).
Definition set_device (d : D) s : istream D :=
  IStream (mem s) (ptr s) (endp s) (bufSize s) (offset s) (lastSizeCheck s) (peakUsage s) (restorePoint s) d.

Definition BufferedInStream (d : D) : istream D :=
  let '(t, d') := gettimeofday d in
  IStream (new_bytes DEFAULT_BUF_SIZE) 0 0 DEFAULT_BUF_SIZE 0 t 0 None d'.

(** The bytes that have arrived and not been read. *)
Definition pending s : list Z := slice (ptr s) (endp s) (mem s).

Definition time_now : SE (istream D) Z := fun s =>
  let '(t, d') := gettimeofday (device s) in (Ok t, set_device d' s).

(** [newSize = DEFAULT_BUF_SIZE; while (newSize < needed) newSize *= 2] *)
Definition new_size (needed : Z) : Z := double_until 12 DEFAULT_BUF_SIZE needed.

(** The pending bytes move to the front of a larger array. *)
Definition enlarged (newSize : Z) s : istream D :=
  IStream (copy_to 0 (pending s) (new_bytes newSize)) 0 (endp s - ptr s) newSize (offset s + ptr s)
    (lastSizeCheck s) (peakUsage s) (restorePoint s) (device s).
(** An empty array becomes smaller. *)
Definition shrunk (newSize : Z) s : istream D :=
  IStream (new_bytes newSize) 0 0 newSize (offset s)
    (lastSizeCheck s) (peakUsage s) (restorePoint s) (device s).
(** The pending bytes move to the front of the array. *)
Definition shuffled s : istream D :=
  IStream (copy_to 0 (pending s) (mem s)) 0 (endp s - ptr s) (bufSize s) (offset s + ptr s)
    (lastSizeCheck s) (peakUsage s) (restorePoint s) (device s).

Definition grow (needed : Z) : SE (istream D) unit :=
  if MAX_BUF_SIZE <? needed then st_throw too_big else
  st_change (enlarged (new_size needed));;
  t ← time_now;
  st_change (set_usage t needed).

Definition shrink (needed : Z) : SE (istream D) unit :=
  now ← time_now;
  s ← st_get;
  if (avail s =? 0) && (DEFAULT_BUF_SIZE <? bufSize s) &&
     ((now <? lastSizeCheck s) || (lastSizeCheck s + 5 <? now))
  then
    (if peakUsage s <? bufSize s / 2 then st_change (shrunk (new_size (peakUsage s))) else mret tt);;
    t ← time_now;
    st_change (set_usage t needed)
  else mret tt.

(** [ensureSpace] behind [needed += avail()]. *)
Definition ensure_total (needed : Z) : SE (istream D) unit :=
  s ← st_get;
  (if bufSize s <? needed then grow needed else mret tt);;
  st_change (fun s => if peakUsage s <? needed then set_usage (lastSizeCheck s) needed s else s);;
  shrink needed;;
  st_change (fun s => if bufSize s - ptr s <? needed then shuffled s else s).

Definition ensureSpace (needed : Z) : SE (istream D) unit :=
  s ← st_get; ensure_total (needed + avail s).

(** [fillBuffer], which writes at [end]. *)
Definition fill : SE (istream D) bool := fun s =>
  match fillBuffer (availSpace s) (device s) with
  | (Ok None, d') => (Ok false, set_device d' s)
  | (Ok (Some bs), d') =>
      (Ok true, IStream (copy_to (endp s) bs (mem s)) (ptr s) (endp s + len bs) (bufSize s) (offset s)
                  (lastSizeCheck s) (peakUsage s) (restorePoint s) d')
  | (Throw e, d') => (Throw e, set_device d' s)
  end.

(** [while (avail() < needed) if (!fillBuffer()) return false; return true] *)
Fixpoint fill_loop (fuel : nat) (needed : Z) : SE (istream D) bool :=
  s ← st_get;
  if needed <=? avail s then mret true else
  match fuel with
  | O => st_throw (logic_error "no end")
  | S fuel => more ← fill; if (more : bool) then fill_loop fuel needed else mret false
  end.

Definition overrun (needed : Z) : SE (istream D) bool :=
  s ← st_get;
  ensureSpace (needed - avail s);;
  fill_loop (Z.to_nat needed) needed.

(** ** The calls of a program, in the release build *)

Definition c_hasData (length : Z) : SE (istream D) bool :=
  s ← st_get;
  if avail s <? length then
    match restorePoint s with
    | Some rp =>
        let restoreDiff := ptr s - rp in
        st_change (set_ptr rp);;
        ret ← overrun (length + restoreDiff);
        st_change (fun s => set_ptr (ptr s + restoreDiff) (set_restore (Some (ptr s)) s));;
        mret (ret : bool)
    | None => overrun length
    end
  else mret true.

Definition c_take (n : Z) : SE (istream D) (list Z) :=
  s ← st_get;
  if avail s <? n then st_throw (out_of_range "InStream buffer underrun") else
  st_change (set_ptr (ptr s + n));;
  mret (slice (ptr s) (ptr s + n) (mem s)).

Definition c_goto : SE (istream D) unit :=
  s ← st_get;
  match restorePoint s with
  | Some rp => st_change (fun s => set_restore None (set_ptr rp s))
  | None => st_throw (logic_error "null")
  end.

Fixpoint crun {E A} (p : prog E A) : SE (istream D) (A * list E) :=
  match p with
  | Ret a => mret (a, [])
  | Raise e => st_throw e
  | HasData n k => ok ← c_hasData n; crun (k ok)
  | SetRestorePoint k => st_change (fun s => set_restore (Some (ptr s)) s);; crun k
  | ClearRestorePoint k => st_change (set_restore None);; crun k
  | GotoRestorePoint k => c_goto;; crun k
  | Take n k => bs ← c_take n; crun (k bs)
  | Emit ev k => r ← crun k; mret (fst r, ev :: snd r)
  end.

(** A handler called in a loop, by [processMsg] while it has messages and again
    when the socket is readable: the calls that returned. *)
Inductive served {E L} (R : L -> prog E (bool * L)) : L -> istream D -> bool -> L -> istream D -> list E -> Prop :=
| served_last l s b l' s' evs : crun (R l) s = (Ok ((b, l'), evs), s') -> served R l s b l' s' evs
| served_step l s b l1 s1 evs1 b' l2 s2 evs2 : crun (R l) s = (Ok ((b, l1), evs1), s1) ->
    served R l1 s1 b' l2 s2 evs2 -> served R l s b' l2 s2 (evs1 ++ evs2).
End stream.

(** ** The invariant *)

Section delivers.
Context {D : Type} `{Device D}.

Lemma delivers_app (d d1 d2 : D) a b : delivers d a d1 -> delivers d1 b d2 -> delivers d (a ++ b) d2.
Proof.
  induction 1 as [|? ? ? ? ? ? _ IH|d space b' d' bs d2' ? _ IH|? ? ? ? ? ? ? _ IH]; intros Hb; [done|..].
  - eapply del_time; eauto.
  - rewrite <- app_assoc. eapply del_fill; eauto.
  - eapply del_throw; eauto.
Qed.

Lemma delivers_time (d d' : D) t : gettimeofday d = (t, d') -> delivers d [] d'.
Proof. intros. eapply del_time; [done|]. apply del_nothing. Qed.

Lemma delivers_fill (d d' : D) space b : fillBuffer space d = (Ok b, d') -> delivers d (default [] b) d'.
Proof. intros. rewrite <- (app_nil_r (default [] b)). eapply del_fill; [done|]. apply del_nothing. Qed.
End delivers.

Section correct.
Context {D : Type} `{HD : DeviceOk D} (new_bytes : Z -> list Z).
Hypothesis new_bytes_len : forall n, 0 <= n -> len (new_bytes n) = n.
Implicit Types s : istream D.

(** The array and the pointers into it. *)
Record in_order s : Prop := {
  io_ptr : 0 <= ptr s <= endp s;
  io_end : endp s <= bufSize s;
  io_size : DEFAULT_BUF_SIZE <= bufSize s <= MAX_BUF_SIZE;
  io_mem : len (mem s) = bufSize s;
  io_peak : 0 <= peakUsage s <= bufSize s;
  io_bytes : bytes (pending s)
}.

(** The bytes behind the restore point. *)
Definition marked s : option (list Z) := (fun rp => slice rp (ptr s) (mem s)) <$> restorePoint s.

Definition wf s : Prop :=
  in_order s /\ match restorePoint s with Some rp => 0 <= rp <= ptr s /\ bytes (slice rp (ptr s) (mem s)) | None => True end.

(** [s'] is [s] with [got] behind its bytes. *)
Definition extended got s s' : Prop :=
  in_order s' /\ restorePoint s' = restorePoint s /\ delivers (device s) got (device s') /\
  pending s' = pending s ++ got.

Lemma len_pending s : in_order s -> len (pending s) = avail s.
Proof. intros []. unfold pending, avail. rewrite len_slice; lia. Qed.

Lemma extended_refl s : in_order s -> extended [] s s.
Proof. intros. split_and!; [done|done|apply del_nothing|by rewrite app_nil_r]. Qed.

Lemma extended_trans s s1 s2 a b : extended a s s1 -> extended b s1 s2 -> extended (a ++ b) s s2.
Proof.
  intros (_ & Hr & Hd & Hp) (Ho & Hr' & Hd' & Hp'). split_and!; [done|congruence| |].
  - by eapply delivers_app.
  - by rewrite Hp', Hp, app_assoc.
Qed.

Lemma extended_avail got s s' : in_order s -> extended got s s' -> avail s' = avail s + len got.
Proof. intros Ho (Ho' & _ & _ & Hp). rewrite <- !len_pending, Hp, len_app by done. done. Qed.

Lemma extended_then s s1 s2 b : extended [] s s1 -> extended b s1 s2 -> extended b s s2.
Proof. apply (extended_trans s s1 s2 [] b). Qed.

(** A step that changes neither the device nor what is pending. *)
Lemma extended_same s s' : in_order s -> in_order s' -> restorePoint s' = restorePoint s ->
  device s' = device s -> pending s' = pending s -> extended [] s s'.
Proof. intros Ho Ho' Hr Hd Hp. split_and!; [done|done|rewrite Hd; apply del_nothing|by rewrite app_nil_r]. Qed.

Lemma new_size_spec needed : needed <= MAX_BUF_SIZE ->
  needed <= new_size needed /\ DEFAULT_BUF_SIZE <= new_size needed <= MAX_BUF_SIZE.
Proof. intros Hn. split; [by apply double_until_ge|exact (double_until_bounds 12 DEFAULT_BUF_SIZE needed ltac:(done))]. Qed.

Lemma shuffled_ok s : in_order s -> extended [] s (shuffled s) /\ ptr (shuffled s) = 0.
Proof.
  intros Ho. pose proof (len_pending s Ho) as Hl. unfold avail in Hl. pose proof Ho as [].
  assert (pending (shuffled s) = pending s) as Hp.
  { by apply (slice_copy_front (ptr s) (endp s) _ (mem s)); [|lia..]. }
  split; [|done]. apply extended_same; try done. split; cbn; try lia.
  - rewrite len_copy_to; lia.
  - by rewrite Hp.
Qed.

Lemma enlarged_ok s n : in_order s -> bufSize s <= n <= MAX_BUF_SIZE ->
  extended [] s (enlarged new_bytes n s).
Proof.
  intros Ho Hn. pose proof (len_pending s Ho) as Hl. unfold avail in Hl. pose proof Ho as [].
  assert (len (new_bytes n) = n) as Hm by (apply new_bytes_len; unfold DEFAULT_BUF_SIZE in *; lia).
  assert (pending (enlarged new_bytes n s) = pending s) as Hp.
  { by apply (slice_copy_front (ptr s) (endp s) _ (mem s)); [|lia..]. }
  apply extended_same; try done. split; cbn; try lia.
  - rewrite len_copy_to; lia.
  - by rewrite Hp.
Qed.

Lemma shrunk_ok s n : in_order s -> avail s = 0 -> DEFAULT_BUF_SIZE <= n <= MAX_BUF_SIZE -> peakUsage s <= n ->
  extended [] s (shrunk new_bytes n s).
Proof.
  intros Ho Ha Hn Hp. pose proof Ho as [].
  assert (pending s = []) as He by (apply len_zero_nil; by rewrite len_pending).
  apply extended_same; try done. split; cbn; try (unfold DEFAULT_BUF_SIZE in *; lia).
  - apply new_bytes_len. unfold DEFAULT_BUF_SIZE in *. lia.
  - by constructor.
Qed.

Lemma set_usage_ok t p s : in_order s -> 0 <= p <= bufSize s -> extended [] s (set_usage t p s).
Proof. intros Ho Hp. pose proof Ho as []. by apply extended_same. Qed.

Lemma time_now_ends s (Q : Z -> istream D -> Prop) E :
  (forall t d', delivers (device s) [] d' -> Q t (set_device d' s)) -> st_ends time_now Q E s.
Proof.
  intros HQ. unfold st_ends, time_now. destruct (gettimeofday (device s)) as [t d'] eqn:Hg.
  apply HQ. by eapply delivers_time.
Qed.

Lemma set_device_ok s d' : in_order s -> delivers (device s) [] d' -> extended [] s (set_device d' s).
Proof. intros Ho Hd. pose proof Ho as []. split_and!; [by split|done|done|by rewrite app_nil_r]. Qed.

(** ** Room for what is needed *)

Lemma grow_ends needed s : in_order s -> bufSize s < needed ->
  st_ends (grow new_bytes needed)
    (fun _ s' => extended [] s s' /\ needed <= bufSize s' /\ ptr s' = 0)
    (fun e s' => e = too_big /\ MAX_BUF_SIZE < needed /\ s' = s) s.
Proof.
  intros Ho Hn. unfold grow. case_test; [by apply ends_throw|].
  destruct (new_size_spec needed) as [H1 H2]; [lia|].
  assert (extended [] s (enlarged new_bytes (new_size needed) s)) as H3 by (apply enlarged_ok; [done|lia]).
  apply ends_bind, ends_change, ends_bind, time_now_ends. intros t d' Hd. apply ends_change.
  split; [|done]. pose proof Ho as [].
  eapply extended_then; [exact H3|]. eapply extended_then; [by apply set_device_ok; [apply H3|exact Hd]|].
  apply set_usage_ok; [by apply set_device_ok; [apply H3|exact Hd]|cbn [bufSize set_device enlarged]; lia].
Qed.

Lemma shrink_ends needed s : in_order s -> avail s <= needed <= bufSize s -> needed <= peakUsage s ->
  st_ends (shrink new_bytes needed)
    (fun _ s' => extended [] s s' /\ needed <= bufSize s') (fun _ _ => False) s.
Proof.
  intros Ho Hn Hk. unfold shrink. apply ends_bind, time_now_ends. intros now d' Hd.
  pose proof (set_device_ok s d' Ho Hd) as H1. apply ends_bind, ends_get.
  case_test; [|apply ends_ret; split; [done|cbn; lia]].
  pose proof Ho as []. assert (0 <= avail s) by (unfold avail; lia).
  apply (ends_seq _ _ _ (fun _ s' => extended [] s s' /\ needed <= bufSize s')).
  - case_test; [apply ends_change|apply ends_ret; split; [done|cbn; lia]].
    destruct (new_size_spec (peakUsage s)) as [Hge Hle]; [lia|]. split; [|cbn [bufSize shrunk peakUsage set_device]; lia].
    eapply extended_then; [exact H1|]. apply shrunk_ok; [apply H1|done|done|done].
  - intros _ s1 [Hs1 Hk1]. apply ends_bind, time_now_ends. intros t d2 Hd2. apply ends_change. split; [|done].
    eapply extended_then; [exact Hs1|]. pose proof (set_device_ok s1 d2 (proj1 Hs1) Hd2) as Hs2.
    eapply extended_then; [exact Hs2|]. apply set_usage_ok; [apply Hs2|cbn; lia].
Qed.

Lemma ensureSpace_ends needed s : in_order s -> 0 <= needed ->
  st_ends (ensureSpace new_bytes needed)
    (fun _ s' => extended [] s s' /\ needed <= availSpace s')
    (fun e s' => e = too_big /\ MAX_BUF_SIZE < needed + avail s /\ s' = s) s.
Proof.
  intros Ho Hn. unfold ensureSpace, ensure_total. apply ends_bind, ends_get, ends_bind, ends_get.
  set (total := needed + avail s). pose proof Ho as [].
  assert (0 <= avail s) by (unfold avail; lia).
  apply (ends_seq _ _ _ (fun _ s' => extended [] s s' /\ total <= bufSize s')).
  { case_test; [|apply ends_ret; split; [by apply extended_refl|done]].
    eapply ends_conseq; [by apply grow_ends|]. cbn. tauto. }
  intros _ s1 [Hs1 Ht]. apply ends_bind, ends_change.
  set (s2 := if peakUsage s1 <? total then _ else _).
  assert (extended [] s s2 /\ total <= bufSize s2 /\ total <= peakUsage s2) as (Hs2 & Ht2 & Hp2).
  { subst s2. case_test; [|done]. split; [|cbn; lia]. eapply extended_then; [exact Hs1|]. apply set_usage_ok; [apply Hs1|lia]. }
  clearbody s2. pose proof (extended_avail _ _ _ Ho Hs2) as Ha. rewrite len_nil in Ha.
  apply (ends_seq _ _ _ (fun _ s' => extended [] s s' /\ total <= bufSize s')).
  { eapply ends_conseq_throw; [eapply ends_conseq; [apply shrink_ends; [apply Hs2|lia|done]|]|done].
    intros _ s' [Hs3 Hs4]. split; [|done]. by eapply extended_then. }
  intros _ s3 [Hs3 Ht3]. apply ends_change. pose proof (extended_avail _ _ _ Ho Hs3) as Ha3. rewrite len_nil in Ha3.
  destruct (shuffled_ok s3 (proj1 Hs3)) as [Hs4 Hz]. unfold availSpace, avail in *. case_test.
  - split; [by eapply extended_then|]. cbn. lia.
  - split; [done|]. lia.
Qed.

(** *** Reading from the device *)

Lemma fill_ends s : in_order s -> 0 < availSpace s ->
  st_ends fill
    (fun more s' => exists got, extended got s s' /\ (if more : bool then 0 < len got else got = []) /\
       availSpace s' = availSpace s - len got)
    (fun e s' => device_error (D:=D) e) s.
Proof.
  intros Ho Hs. unfold st_ends, fill. pose proof Ho as [].
  destruct (fillBuffer (availSpace s) (device s)) as [[[bs|]|e] d'] eqn:Hf; [| |by eexists _, _, _].
  - destruct (fill_room _ _ _ _ Hs Hf) as [Hb Hbs]. exists bs. unfold availSpace in *.
    set (s' := IStream _ _ _ _ _ _ _ _ _). assert (pending s' = pending s ++ bs) as Hp.
    { unfold pending. cbn. apply slice_copy_to; lia. }
    split; [|cbn; lia]. split_and!; [|done|by apply delivers_fill in Hf|done].
    split; try (cbn; lia); [cbn; rewrite len_copy_to; lia|]. rewrite Hp. by apply bytes_app.
  - exists []. rewrite len_nil. split; [|cbn; split; [done|unfold availSpace; cbn; lia]].
    apply set_device_ok; [done|]. exact (delivers_fill _ _ _ _ Hf).
Qed.

Lemma fill_loop_ends fuel needed s : in_order s -> needed - avail s <= availSpace s ->
  (Z.to_nat (needed - avail s) <= fuel)%nat ->
  st_ends (fill_loop fuel needed)
    (fun b s' => exists got, extended got s s' /\ if b : bool then needed <= avail s' else avail s' < needed)
    (fun e s' => device_error (D:=D) e) s.
Proof.
  revert s. induction fuel as [|fuel IH]; intros s Ho Hn Hf; cbn [fill_loop]; apply ends_bind, ends_get.
  - case_test; [|lia]. apply ends_ret. exists []. split; [by apply extended_refl|done].
  - case_test; [apply ends_ret; exists []; split; [by apply extended_refl|done]|].
    eapply ends_seq; [apply fill_ends; [done|lia]|]. intros [|] s1 (got & Hs1 & Hg & Hsp).
    + pose proof (extended_avail _ _ _ Ho Hs1) as Ha.
      eapply ends_conseq; [apply IH; [apply Hs1|lia|lia]|]. intros b s2 (got2 & Hs2 & Hb).
      exists (got ++ got2). split; [by eapply extended_trans|done].
    + subst got. apply ends_ret. exists []. split; [done|].
      pose proof (extended_avail _ _ _ Ho Hs1) as Ha. rewrite len_nil in Ha. lia.
Qed.

Definition read_error (e : exn) : Prop := e = too_big \/ device_error (D:=D) e.

Lemma overrun_ends needed s : in_order s -> avail s < needed ->
  st_ends (overrun new_bytes needed)
    (fun b s' => exists got, extended got s s' /\ if b : bool then needed <= avail s' else avail s' < needed)
    (fun e s' => read_error e) s.
Proof.
  intros Ho Hn. unfold overrun. apply ends_bind, ends_get.
  eapply ends_seq.
  { eapply ends_conseq_throw; [apply ensureSpace_ends; [done|lia]|]. cbn. intros e s' (-> & _). by left. }
  cbn. intros _ s1 [Hs1 Hsp]. pose proof (extended_avail _ _ _ Ho Hs1) as Ha. rewrite len_nil in Ha.
  assert (0 <= avail s) by (pose proof Ho as []; unfold avail; lia).
  eapply ends_conseq_throw; [eapply ends_conseq; [apply fill_loop_ends; [apply Hs1|lia|lia]|]|by right].
  cbn. intros b s2 (got & Hs2 & Hb). exists got. split; [|done]. by apply (extended_trans s s1 s2 [] got).
Qed.

(** ** The calls of a program *)

(** The reader sees [s'] as [s] with [got] behind its bytes. *)
Definition received got s s' : Prop :=
  wf s' /\ delivers (device s) got (device s') /\ pending s' = pending s ++ got /\ marked s' = marked s.

Lemma wf_rewound s rp : wf s -> restorePoint s = Some rp ->
  in_order (set_ptr rp s) /\ pending (set_ptr rp s) = slice rp (ptr s) (mem s) ++ pending s.
Proof.
  intros [Ho Hr] Hrp. rewrite Hrp in Hr. destruct Hr as [Hr Hb]. pose proof Ho as [].
  assert (pending (set_ptr rp s) = slice rp (ptr s) (mem s) ++ pending s) as Hp.
  { unfold pending. cbn. rewrite slice_app by lia. done. }
  split; [|done]. split; try done; [cbn; lia|]. rewrite Hp. by apply bytes_app.
Qed.

Lemma wf_forward s1 m l : in_order s1 -> bytes m -> bytes l -> pending s1 = m ++ l ->
  let s2 := set_ptr (ptr s1 + len m) (set_restore (Some (ptr s1)) s1) in
  wf s2 /\ pending s2 = l /\ marked s2 = Some m.
Proof.
  intros Ho Hm Hl Hp s2. pose proof Ho as []. pose proof (len_pending s1 Ho) as Hlen.
  rewrite Hp, len_app in Hlen. unfold avail in Hlen. pose proof (len_nonneg m). pose proof (len_nonneg l).
  assert (slice (ptr s1) (ptr s1 + len m) (mem s1) = m /\ pending s2 = l) as [Hs1 Hs2].
  { apply app_inj_1; [|rewrite <- Hp; unfold pending; cbn; rewrite slice_app by lia; done].
    assert (len (slice (ptr s1) (ptr s1 + len m) (mem s1)) = len m) as He by (rewrite len_slice; lia).
    exact (Nat2Z.inj _ _ He). }
  split_and!; [|done|cbn; by rewrite Hs1].
  split; [|cbn; rewrite Hs1; split; [lia|done]].
  split; try done; [cbn; lia|by rewrite Hs2].
Qed.

Lemma c_hasData_ends n s : wf s ->
  st_ends (c_hasData new_bytes n)
    (fun b s' => exists got, received got s s' /\ b = (n <=? avail s'))
    (fun e _ => read_error e) s.
Proof.
  intros Hwf. pose proof Hwf as [Ho Hr]. unfold c_hasData. apply ends_bind, ends_get. case_test.
  2:{ apply ends_ret. exists []. rewrite (proj2 (Z.leb_le _ _)) by lia.
      split; [|done]. split_and!; [done|apply del_nothing|by rewrite app_nil_r|done]. }
  destruct (restorePoint s) as [rp|] eqn:Hrp.
  - destruct (wf_rewound s rp Hwf Hrp) as [Hs1 Hp1]. destruct Hr as [Hrp1 Hb].
    apply ends_bind, ends_change. eapply ends_seq.
    { apply (overrun_ends (n + (ptr s - rp))); [exact Hs1|]. unfold avail in *. cbn. lia. }
    cbn beta. intros b s2 (got & (Ho2 & Hr2 & Hd2 & Hp2) & Hgot). apply ends_bind, ends_change, ends_ret.
    assert (len (slice rp (ptr s) (mem s)) = ptr s - rp) as Hl by (pose proof Ho as []; rewrite len_slice; lia).
    rewrite Hp1, <- app_assoc in Hp2. rewrite <- Hl in *.
    pose proof (io_bytes _ Ho2) as Hb2. rewrite Hp2 in Hb2. apply bytes_app in Hb2 as [_ Hb2].
    destruct (wf_forward s2 _ _ Ho2 Hb Hb2 Hp2) as (Hw3 & Hp3 & Hm3).
    exists got. split.
    + split_and!; [exact Hw3|exact Hd2|exact Hp3|]. rewrite Hm3. unfold marked. by rewrite Hrp.
    + symmetry. destruct b; [apply Z.leb_le|apply Z.leb_gt]; unfold avail in *; cbn; lia.
  - eapply ends_conseq; [by apply overrun_ends|]. cbn. intros b s2 (got & (Ho2 & Hr2 & Hd2 & Hp2) & Hgot).
    exists got. split.
    + split_and!; [split; [done|by rewrite Hr2, Hrp]|done|done|]. unfold marked. by rewrite Hr2, Hrp.
    + symmetry. destruct b; [by apply Z.leb_le|by apply Z.leb_gt].
Qed.

Lemma c_take_ends n s : wf s -> 0 <= n <= avail s ->
  st_ends (c_take n)
    (fun bs s' => bs = ztake n (pending s) /\ wf s' /\ device s' = device s /\ avail s' = avail s - n /\
       pending s' = zdrop n (pending s) /\ marked s' = (fun pre => pre ++ bs) <$> marked s)
    (fun _ _ => False) s.
Proof.
  intros [Ho Hr] Hn. pose proof Ho as []. pose proof (len_pending s Ho) as Hl. unfold avail in *.
  unfold c_take. apply ends_bind, ends_get. unfold avail. case_test; [lia|].
  apply ends_bind, ends_change, ends_ret.
  assert (slice (ptr s) (ptr s + n) (mem s) = ztake n (pending s) /\
          slice (ptr s + n) (endp s) (mem s) = zdrop n (pending s)) as [Hs1 Hs2].
  { apply app_inj_1; [|rewrite ztake_zdrop, slice_app by lia; done].
    assert (len (slice (ptr s) (ptr s + n) (mem s)) = len (ztake n (pending s))) as He.
    { rewrite len_slice, len_ztake; lia. }
    exact (Nat2Z.inj _ _ He). }
  split_and!; [done| |done|cbn; lia|done|].
  - split; [split; try done; [cbn; lia|]|].
    + unfold pending at 1. cbn. rewrite Hs2. by apply bytes_zdrop.
    + cbn. destruct (restorePoint s) as [rp|]; [|done]. destruct Hr as [Hr Hb]. split; [lia|].
      rewrite <- (slice_app rp (ptr s)), Hs1 by lia. apply bytes_app. split; [done|by apply bytes_ztake].
  - unfold marked. cbn. destruct (restorePoint s) as [rp|]; [|done]. cbn.
    by rewrite slice_app by (destruct Hr; lia).
Qed.

End correct.

(** ** Programs that stop asking when a test has failed *)

(** No test and no read any more; what is returned satisfies [Q]. *)
Inductive quits {E A} (Q : A -> Prop) : prog E A -> Prop :=
| q_ret a : Q a -> quits Q (Ret a)
| q_raise e : quits Q (Raise e)
| q_set k : quits Q k -> quits Q (SetRestorePoint k)
| q_clear k : quits Q k -> quits Q (ClearRestorePoint k)
| q_goto k : quits Q k -> quits Q (GotoRestorePoint k)
| q_emit ev k : quits Q k -> quits Q (Emit ev k).

(** A program that returns something in [P], and quits, with [Q], once a test
    has failed. *)
Inductive eager {E A} (P Q : A -> Prop) : prog E A -> Prop :=
| e_ret a : P a -> eager P Q (Ret a)
| e_raise e : eager P Q (Raise e)
| e_has n k : quits Q (k false) -> eager P Q (k true) -> eager P Q (HasData n k)
| e_take n k : 0 <= n -> (forall bs, len bs = n -> bytes bs -> eager P Q (k bs)) -> eager P Q (Take n k)
| e_set k : eager P Q k -> eager P Q (SetRestorePoint k)
| e_clear k : eager P Q k -> eager P Q (ClearRestorePoint k)
| e_goto k : eager P Q k -> eager P Q (GotoRestorePoint k)
| e_emit ev k : eager P Q k -> eager P Q (Emit ev k).

Lemma quits_bind {E A B} (Q : A -> Prop) (Q' : B -> Prop) (f : A -> prog E B) p :
  quits Q p -> (forall a, Q a -> quits Q' (f a)) -> quits Q' (prog_bind f p).
Proof. induction 1; intros Hf; cbn; eauto using q_raise, q_set, q_clear, q_goto, q_emit. Qed.

Lemma quits_eager {E A} (P Q : A -> Prop) (p : prog E A) : quits P p -> eager P Q p.
Proof. induction 1; eauto using e_ret, e_raise, e_set, e_clear, e_goto, e_emit. Qed.

Lemma eager_bind {E A B} (P Q : A -> Prop) (P' Q' : B -> Prop) (f : A -> prog E B) p :
  eager P Q p -> (forall a, Q a -> quits Q' (f a)) -> (forall a, P a -> eager P' Q' (f a)) -> eager P' Q' (prog_bind f p).
Proof.
  induction 1; intros Hq Hf; cbn; eauto using e_raise, e_set, e_clear, e_goto, e_emit.
  - apply e_has; [by eapply quits_bind|auto].
  - apply e_take; auto.
Qed.

Lemma eager_weaken {E A} (P P' Q Q' : A -> Prop) (p : prog E A) :
  eager P Q p -> (forall a, P a -> P' a) -> (forall a, Q a -> Q' a) -> eager P' Q' p.
Proof.
  induction 1; intros Hp Hq; eauto using e_ret, e_raise, e_take, e_set, e_clear, e_goto, e_emit.
  apply e_has; [|auto]. match goal with H : quits _ _ |- _ => induction H end;
    eauto using q_ret, q_raise, q_set, q_clear, q_goto, q_emit.
Qed.

(** A reader that keeps to the discipline is one of them. *)
Lemma guarded_eager {P : Policy} {HF : Free P} {E X} (Q : X -> Prop) more ph c (p : prog E X) :
  guarded Q more ph c p -> eager (fun x => Q x \/ x = more) (eq more) p.
Proof.
  induction 1 as [| | | |c n k Hk ? ? IH|c n k Hk ? ? IH|c n k Hk ? ? IH| | | |c n k ? ? IH|ph c n k ? ? ? IH| | |ph c n k e1 e2 ? Ht Hk _ _];
    eauto using e_ret, e_raise, e_set, e_clear, e_emit.
  1-3: apply e_has; [rewrite Hk; eauto using q_ret, q_goto|exact IH].
  1-2: apply e_take; [lia|intros bs ? ?; apply IH; [done|done|apply free]].
  apply e_has; [rewrite Hk; apply q_raise|rewrite Ht; apply e_raise].
Qed.

(** ** A program over the buffer is the program over the bytes *)

Definition misuse {A} (r : res A) : Prop :=
  match r with Throw (logic_error _) | Throw (out_of_range _) => True | _ => False end.

Lemma misuse_prepend {A E} (evs : list E) (r : res (A * list E)) : misuse (prepend evs r) <-> misuse r.
Proof. by destruct r as [[]|]. Qed.

Section program.
Context {D : Type} `{HD : DeviceOk D} (new_bytes : Z -> list Z).
Hypothesis new_bytes_len : forall n, 0 <= n -> len (new_bytes n) = n.
Context {E X : Type}.
Implicit Types (s : istream D) (p : prog E X).

(** What a run from [s] comes to, told by the checked build on the bytes that
    were there and those that have arrived meanwhile ([quiet]: none). *)
Definition computes (quiet : bool) p s c (r : res (X * list E)) s' : Prop :=
  match r with Throw e => read_error (D:=D) e | Ok _ => False end \/
  exists got, delivers (device s) got (device s') /\ bytes got /\ (quiet = true -> got = []) /\
  let r' := arun p (AState (pending s ++ got) (marked s) c) in
  misuse r' \/
  match r with
  | Ok (x, evs) => wf s' /\ exists c', r' = Ok (x, AState (pending s') (marked s') c', evs)
  | Throw e => r' = Throw e
  end.

(** [p] from [s] comes to what the rest [q] of it comes to from [s1]. *)
Definition run_rest quiet q s1 p s c : Prop :=
  st_ends (crun new_bytes q) (fun x s' => computes quiet p s c (Ok x) s') (fun e s' => computes quiet p s c (Throw e) s') s1.
Definition run_computes quiet p s c : Prop := run_rest quiet p s p s c.

(** One step of the stream, and the rest of the program by itself. *)
Lemma run_step quiet quiet' p p' s s1 c c' got :
  delivers (device s) got (device s1) -> bytes got -> (quiet = true -> got = [] /\ quiet' = true) ->
  (forall l, (quiet' = true -> l = []) ->
     let r := arun p (AState (pending s ++ got ++ l) (marked s) c) in
     misuse r \/ r = arun p' (AState (pending s1 ++ l) (marked s1) c')) ->
  run_computes quiet' p' s1 c' -> run_rest quiet p' s1 p s c.
Proof.
  intros Hd Hb Hq Heq Hp. unfold run_computes, run_rest, st_ends in *.
  assert (forall r s', computes quiet' p' s1 c' r s' -> computes quiet p s c r s') as Hc;
    [|by destruct (crun new_bytes p' s1) as [[]]; apply Hc].
  intros r s' [?|(got2 & Hd2 & Hb2 & Hq2 & Hr)]; [by left|right]. exists (got ++ got2).
  split_and!; [by eapply delivers_app|by apply bytes_app| |].
  - intros ?. destruct Hq as [-> ?]; [done|]. by rewrite Hq2.
  - cbn zeta. destruct (Heq got2 Hq2) as [?| ->]; [by left|exact Hr].
Qed.

(** A step that neither reads nor tests. *)
Lemma run_local quiet p p' s s1 c : device s1 = device s ->
  (forall l, let r := arun p (AState (pending s ++ l) (marked s) c) in
     misuse r \/ r = arun p' (AState (pending s1 ++ l) (marked s1) c)) ->
  run_computes quiet p' s1 c -> run_rest quiet p' s1 p s c.
Proof.
  intros Hd Heq. eapply (run_step _ _ _ _ _ _ _ _ []); [rewrite Hd; apply del_nothing|constructor|done|]. intros l _. apply Heq.
Qed.

Lemma wf_set_restore s rp : wf s -> rp = None \/ rp = Some (ptr s) -> wf (set_restore rp s).
Proof.
  intros [Ho Hr] Hrp. pose proof Ho as []. split; [by split|].
  destruct Hrp as [-> | ->]; [done|]. cbn. rewrite slice_empty. split; [lia|constructor].
Qed.

Lemma run_set quiet k s c : run_computes quiet k (set_restore (Some (ptr s)) s) c ->
  run_computes quiet (SetRestorePoint k) s c.
Proof.
  intros Hk. apply ends_bind, ends_change. eapply run_local; [done| |exact Hk].
  intros l. destruct (marked s) eqn:Hm; [by left|right]. unfold marked. cbn. by rewrite slice_empty.
Qed.

Lemma run_clear quiet k s c : run_computes quiet k (set_restore None s) c -> run_computes quiet (ClearRestorePoint k) s c.
Proof.
  intros Hk. apply ends_bind, ends_change. eapply run_local; [done| |exact Hk].
  intros l. destruct (marked s) eqn:Hm; [by right|by left].
Qed.

Lemma run_goto quiet k s c : wf s ->
  (forall s1, wf s1 -> avail s <= avail s1 -> run_computes quiet k s1 c) -> run_computes quiet (GotoRestorePoint k) s c.
Proof.
  intros Hw Hk. unfold run_computes, run_rest. cbn [crun]. destruct (restorePoint s) as [rp|] eqn:Hrp.
  - destruct (wf_rewound s rp Hw Hrp) as [Ho Hp]. set (s1 := set_restore None (set_ptr rp s)).
    assert (st_ends c_goto (fun _ s' => s' = s1) (fun _ _ => False) s) as Hg.
    { unfold c_goto. apply ends_bind, ends_get. by rewrite Hrp. }
    eapply ends_seq; [eapply ends_conseq_throw; [exact Hg|done]|]. cbn beta. intros _ ? ->.
    eapply run_local; [done| |apply Hk].
    + intros l. right. unfold marked. rewrite Hrp. cbn [arun fmap option_fmap option_map].
      change (pending s1) with (pending (set_ptr rp s)). by rewrite Hp, app_assoc.
    + split; [|done]. pose proof Ho as []. by split.
    + destruct Hw as [_ Hr]. rewrite Hrp in Hr. unfold avail, s1. cbn. lia.
  - apply ends_bind. unfold c_goto. apply ends_bind, ends_get. rewrite Hrp. apply ends_throw. right. exists [].
    split_and!; [apply del_nothing|constructor|done|]. left. unfold marked. by rewrite Hrp.
Qed.

Lemma run_emit quiet ev k s c : run_computes quiet k s c -> run_computes quiet (Emit ev k) s c.
Proof.
  unfold run_computes, run_rest, st_ends. cbn [crun]. unfold mbind, SE_bind, mret, SE_ret.
  destruct (crun new_bytes k s) as [[[x evs]|e] s']; cbn [fst snd].
  all: intros [?|(got & Hd & Hb & Hq & Hr)]; [by left|right]; exists got; (split_and!; [done|done|done|]).
  all: cbv zeta in Hr |- *; rewrite arun_emit, misuse_prepend; destruct Hr as [?|Hr]; [by left|right].
  - destruct Hr as (? & c' & ->). split; [done|]. by exists c'.
  - by rewrite Hr.
Qed.

Lemma run_raise quiet e s c : run_computes quiet (Raise e) s c.
Proof. apply ends_throw. right. exists []. split_and!; [apply del_nothing|constructor|done|by right]. Qed.

Lemma run_ret quiet a s c : wf s -> run_computes quiet (Ret a) s c.
Proof.
  intros Hw. apply ends_ret. right. exists []. split_and!; [apply del_nothing|constructor|done|right]. split; [done|].
  exists c. by rewrite app_nil_r.
Qed.

(** Behind a test that has failed nothing arrives. *)
Lemma run_quits Q p : quits Q p -> forall s c, wf s -> run_computes true p s c.
Proof.
  induction 1 as [| |k _ IH|k _ IH|k _ IH|ev k _ IH]; intros s c Hw.
  - by apply run_ret.
  - apply run_raise.
  - apply run_set, IH, wf_set_restore; auto.
  - apply run_clear, IH, wf_set_restore; auto.
  - apply run_goto; auto.
  - by apply run_emit, IH.
Qed.

Lemma run_has Q n k s c : wf s -> quits Q (k false) ->
  (forall s1, wf s1 -> n <= avail s1 -> run_computes false (k true) s1 n) ->
  run_computes false (HasData n k) s c.
Proof.
  intros Hw Hk IH. unfold run_computes, run_rest. cbn [crun]. eapply ends_seq.
  { eapply ends_conseq_throw; [by apply c_hasData_ends|]. intros e s' He. by left. }
  cbn beta. intros b s1 (got & (Hw1 & Hd & Hp & Hm) & ->).
  pose proof (len_pending s1 (proj1 Hw1)) as Hl. rewrite Hp in Hl.
  assert (bytes got) as Hb.
  { pose proof (io_bytes _ (proj1 Hw1)) as Hb1. rewrite Hp in Hb1. by apply bytes_app in Hb1 as [_ ?]. }
  destruct (Z.leb_spec n (avail s1)) as [Hle|Hgt].
  - eapply (run_step false false); [exact Hd|exact Hb|done| |by apply IH]. intros l _. right. rewrite app_assoc, <- Hm, Hp.
    apply arun_has_enough. rewrite len_app. pose proof (len_nonneg l). lia.
  - eapply (run_step false true); [exact Hd|exact Hb|done| |by apply (run_quits Q)]. intros l ->; [|done]. right.
    rewrite !app_nil_r, <- Hm, Hp. apply arun_has_short. lia.
Qed.

Lemma run_take n k s c : wf s -> 0 <= n -> c <= avail s ->
  (forall s1 bs, wf s1 -> c - n <= avail s1 -> len bs = n -> bytes bs -> run_computes false (k bs) s1 (c - n)) ->
  run_computes false (Take n k) s c.
Proof.
  intros Hw Hn Hc IH. pose proof (len_pending s (proj1 Hw)) as Hl.
  unfold run_computes, run_rest. cbn [crun]. destruct (Z.le_gt_cases n (avail s)) as [Ha|Ha].
  - eapply ends_seq; [eapply ends_conseq_throw; [by apply c_take_ends|done]|].
    cbn beta. intros bs s1 (-> & Hw1 & Hd & Ha1 & Hp & Hm).
    eapply (run_step false false _ _ _ _ _ _ []); [rewrite Hd; apply del_nothing|constructor|done| |apply IH; [done|lia| |]].
    + intros l _. destruct (Z.le_gt_cases n c).
      * right. rewrite app_nil_l, arun_take by llia. rewrite ztake_app_le, zdrop_app_le by lia. by rewrite Hp, Hm.
      * left. cbn. by rewrite (proj2 (Z.ltb_lt _ _)) by lia.
    + rewrite len_ztake; lia.
    + apply bytes_ztake, Hw.
  - apply ends_bind. unfold c_take. apply ends_bind, ends_get. rewrite (proj2 (Z.ltb_lt _ _)) by lia.
    apply ends_throw. right. exists []. split_and!; [apply del_nothing|constructor|done|left].
    cbn. by rewrite (proj2 (Z.ltb_lt _ _)) by lia.
Qed.

Lemma eager_computes P Q p : eager P Q p -> forall s c, wf s -> c <= avail s -> run_computes false p s c.
Proof.
  induction 1 as [a _| |n k Hk _ IH|n k Hn _ IH|k _ IH|k _ IH|k _ IH|ev k _ IH]; intros s c Hw Hc.
  - by apply run_ret.
  - apply run_raise.
  - eapply run_has; eauto.
  - apply run_take; auto.
  - apply run_set, IH; [apply wf_set_restore; auto|done].
  - apply run_clear, IH; [apply wf_set_restore; auto|done].
  - apply run_goto; [done|]. intros s1 ? ?. apply IH; [done|lia].
  - by apply run_emit, IH.
Qed.
End program.

(** ** [FdInStream] *)

Inductive select_result := SelectInterrupted | SelectError | SelectReady | SelectTimeout.
Inductive recv_result := RecvInterrupted | RecvAgain | RecvError | RecvClosed | RecvData (bs : list Z).

(** The calls of the system, on a descriptor; [interrupts] bounds how many of
    the calls to come are interrupted in a row. *)
Class Socket (K : Type) := {
  select_read : K -> select_result * K;
  recv : Z -> K -> recv_result * K;
  timeofday : K -> Z * K;
  interrupts : K -> nat
}.

Class SocketOk (K : Type) `{Socket K} : Prop := {
  select_interrupted (k k' : K) : select_read k = (SelectInterrupted, k') -> (interrupts k' < interrupts k)%nat;
  recv_interrupted (k k' : K) n : recv n k = (RecvInterrupted, k') -> (interrupts k' < interrupts k)%nat;
  recv_data (k k' : K) n bs : 0 < n -> recv n k = (RecvData bs, k') -> 0 < len bs <= n /\ bytes bs
}.

Section FdInStream.
Context {K : Type} `{Socket K}.

(** [do { n = select(...); } while (n < 0 && errno == EINTR)] *)
Fixpoint select_loop (fuel : nat) (k : K) : select_result * K :=
  match fuel, select_read k with
  | S fuel, (SelectInterrupted, k') => select_loop fuel k'
  | _, r => r
  end.

(** [do { n = ::recv(...); } while (n < 0 && errno == EINTR)] *)
Fixpoint recv_loop (fuel : nat) (n : Z) (k : K) : recv_result * K :=
  match fuel, recv n k with
  | S fuel, (RecvInterrupted, k') => recv_loop fuel n k'
  | _, r => r
  end.

(** No bytes is the result zero. *)
Definition readFd (n : Z) : SE K (list Z) := fun k =>
  match select_loop (interrupts k) k with
  | (SelectInterrupted, k) | (SelectError, k) => (Throw (runtime_error "select"), k)
  | (SelectTimeout, k) => (Ok [], k)
  | (SelectReady, k) =>
      match recv_loop (interrupts k) n k with
      | (RecvInterrupted, k) | (RecvError, k) => (Throw (runtime_error "read"), k)
      | (RecvAgain, k) => (Ok [], k)
      | (RecvClosed, k) => (Throw end_of_stream, k)
      | (RecvData bs, k) => (Ok bs, k)
      end
  end.

Definition fd_fillBuffer (space : Z) : SE K (option (list Z)) :=
  bs ← readFd space;
  mret (if len bs =? 0 then None else Some bs).

#[export] Instance FdInStream : Device K := {
  fillBuffer := fd_fillBuffer;
  gettimeofday := timeofday
}.

Context `{!SocketOk K}.

(** Neither loop is left with an interruption. *)
Lemma select_loop_ends fuel k : (interrupts k <= fuel)%nat -> (select_loop fuel k).1 <> SelectInterrupted.
Proof.
  revert k. induction fuel as [|fuel IH]; intros k Hf; cbn [select_loop]; destruct (select_read k) as [r k'] eqn:Hs.
  - intros Hr. cbn in Hr. subst r. apply select_interrupted in Hs. lia.
  - destruct r; try done. apply select_interrupted in Hs. apply IH. lia.
Qed.

Lemma recv_loop_ends fuel n k : (interrupts k <= fuel)%nat -> (recv_loop fuel n k).1 <> RecvInterrupted.
Proof.
  revert k. induction fuel as [|fuel IH]; intros k Hf; cbn [recv_loop]; destruct (recv n k) as [r k'] eqn:Hs.
  - intros Hr. cbn in Hr. subst r. apply recv_interrupted in Hs. lia.
  - destruct r; try done. apply recv_interrupted in Hs. apply IH. lia.
Qed.

Lemma recv_loop_data fuel n k k' bs : 0 < n -> recv_loop fuel n k = (RecvData bs, k') -> 0 < len bs <= n /\ bytes bs.
Proof.
  intros Hn. revert k. induction fuel as [|fuel IH]; intros k; cbn [recv_loop]; destruct (recv n k) as [r k2] eqn:Hs.
  - intros [= -> ->]. by eapply recv_data.
  - destruct r; try done; [by eauto|]. intros [= -> ->]. by eapply recv_data.
Qed.

Lemma readFd_data n k k' bs : 0 < n -> readFd n k = (Ok bs, k') -> bs = [] \/ 0 < len bs <= n /\ bytes bs.
Proof.
  intros Hn. unfold readFd.
  destruct (select_loop _ k) as [[] k1]; try done; [|intros [= <- _]; by left].
  destruct (recv_loop _ n k1) as [[] k2] eqn:Hr; try done; intros [= <- _]; [by left|right]. by eapply recv_loop_data.
Qed.

#[export] Instance FdInStream_ok : DeviceOk K.
Proof.
  constructor. intros space k k' bs Hs. cbn. unfold fd_fillBuffer, mbind, SE_bind, mret, SE_ret.
  destruct (readFd space k) as [[bs'|e] k2] eqn:Hr; [|done]. case_test; [done|]. intros [= <- _].
  apply readFd_data in Hr as [->|?]; done.
Qed.
End FdInStream.

(** ** Readers and message loops *)

Section loop.
Context {D : Type} `{HD : DeviceOk D} (new_bytes : Z -> list Z).
Hypothesis new_bytes_len : forall n, 0 <= n -> len (new_bytes n) = n.
Implicit Types s : istream D.

(** Between two calls: no restore point. *)
Definition at_rest s : Prop := wf s /\ restorePoint s = None.

Lemma BufferedInStream_at_rest d : let s := BufferedInStream new_bytes d in
  at_rest s /\ pending s = [] /\ delivers d [] (device s).
Proof.
  unfold BufferedInStream. destruct (gettimeofday d) as [t d'] eqn:Hg. cbn.
  split_and!; [|done|by eapply delivers_time]. split; [|done]. split; [|done].
  split; cbn; try (unfold DEFAULT_BUF_SIZE, MAX_BUF_SIZE in *; lia).
  - by apply new_bytes_len.
  - constructor.
Qed.

Lemma no_misuse_outcome {E X} (p : prog E X) d : ~ misuse (outcome p d) ->
  ~ misuse (arun p (fresh d)) /\
  forall x l rp c evs, arun p (fresh d) = Ok (x, AState l rp c, evs) -> rp = None /\ outcome p d = Ok (x, l, evs).
Proof.
  unfold outcome. intros Hm. split.
  - intros Hm'. apply Hm. by destruct (arun p (fresh d)) as [[[? [? [|] ?]] ?]|].
  - intros x l [pre|] c evs Hr; rewrite Hr in Hm |- *; [by destruct Hm|done].
Qed.

Lemma reader_computes {E X} (P Q : X -> Prop) (p : prog E X) s r s' :
  eager P Q p -> (forall d, bytes d -> ~ misuse (outcome p d)) -> at_rest s -> crun new_bytes p s = (r, s') ->
  match r with
  | Ok (x, evs) => at_rest s' /\ exists got, delivers (device s) got (device s') /\ bytes got /\
      outcome p (pending s ++ got) = Ok (x, pending s', evs)
  | Throw e => read_error (D:=D) e \/
      exists got, delivers (device s) got (device s') /\ outcome p (pending s ++ got) = Throw e
  end.
Proof.
  intros He Hm [Hw Hr] Hc. pose proof Hw as [Ho _].
  assert (0 <= avail s) as Ha by (destruct Ho; unfold avail; lia).
  pose proof (eager_computes new_bytes new_bytes_len P Q p He s 0 Hw Ha) as Hrun.
  unfold run_computes, run_rest, st_ends in Hrun. rewrite Hc in Hrun.
  assert (computes false p s 0 r s') as Hcomp by (by destruct r). clear Hrun.
  destruct Hcomp as [?|(got & Hd & Hb & _ & Hg)]; [destruct r; by auto|]. cbv zeta in Hg.
  unfold marked at 1 in Hg. rewrite Hr in Hg. cbn [fmap option_fmap option_map] in Hg.
  destruct (no_misuse_outcome p (pending s ++ got)) as [Hn Ho']; [apply Hm, bytes_app; by split; [apply Ho|]|].
  destruct Hg as [?|Hg]; [done|]. unfold marked in Hg. rewrite Hr in Hg. destruct r as [[x evs]|e].
  - destruct Hg as (Hw' & c' & Hg). apply Ho' in Hg as [Hrp Hout].
    split; [split; [done|by apply fmap_None in Hrp]|]. by exists got.
  - right. exists got. split; [done|]. unfold outcome, fresh. cbn in Hg. by rewrite Hg.
Qed.

Lemma drains_prepend {E L} (R : L -> prog E (bool * L)) l d l1 d1 evs :
  outcome (R l) d = prepend evs (outcome (R l1) d1) ->
  forall l2 d2 e2, drains R l1 d1 l2 d2 e2 -> drains R l d l2 d2 (evs ++ e2).
Proof.
  intros Ho l2 d2 e2 Hd. destruct Hd as [? ? ? ? ? Hl|? ? ? ? ? ? ? ? Hl Hd]; rewrite Hl in Ho; cbn in Ho.
  - by apply drain_stop.
  - rewrite app_assoc. by eapply drain_step.
Qed.

(** The calls of a resumable reader, up to one that asks for more, are the
    message loop on everything that has arrived by then. *)
Lemma served_drains {E L} (I : L -> Prop) (R : L -> prog E (bool * L)) l s l' s' evs :
  resumable I R -> (forall l, I l -> exists P Q, eager P Q (R l)) ->
  (forall l d, I l -> bytes d -> ~ misuse (outcome (R l) d)) ->
  I l -> at_rest s -> served new_bytes R l s false l' s' evs ->
  at_rest s' /\ exists got, delivers (device s) got (device s') /\ bytes got /\
    drains R l (pending s ++ got) l' (pending s') evs.
Proof.
  intros HR Hq Hm. remember false as b eqn:Hb. intros Hi Hs Hsv. revert Hb Hi Hs.
  induction Hsv as [l s b l' s' evs Hc|l s b l1 s1 evs1 b' l2 s2 evs2 Hc _ IH]; intros -> Hi Hs;
    destruct (Hq l Hi) as (P & Q & He);
    destruct (reader_computes P Q _ _ _ _ He (fun d => Hm l d Hi) Hs Hc) as [Hs1 (got & Hd & Hb & Ho)].
  - split; [done|]. exists got. split_and!; [done|done|]. by apply drain_stop.
  - assert (bytes (pending s ++ got)) as Hb0 by (apply bytes_app; split; [apply Hs|done]).
    specialize (HR l _ Hi Hb0) as Hres. rewrite Ho in Hres.
    assert (I l1) as Hi1 by (destruct b; apply Hres).
    destruct (IH eq_refl Hi1 Hs1) as [Hs2 (got2 & Hd2 & Hb2 & Hdr)]. split; [done|].
    exists (got ++ got2). split_and!; [by eapply delivers_app|by apply bytes_app|]. rewrite app_assoc.
    destruct b; destruct Hres as (_ & _ & Hres); specialize (Hres got2 Hb2).
    + by eapply drain_step.
    + by eapply drains_prepend.
Qed.
End loop.

(** Whatever contents a shape-shifting reader has, it does not misuse the stream. *)
Lemma fault_no_misuse {P : Policy} {A} e : fault e -> ~ misuse (Throw (A:=A) e).
Proof. intros He%fault_faulty Hm. destruct e; cbn in *; done. Qed.

Lemma shape_no_misuse {P : Policy} {HF : Free P} {E L} (I : L -> Prop) (mu : L -> nat) (R : L -> prog E (bool * L)) l d :
  shape I mu R l -> bytes d -> ~ misuse (outcome (R l) d).
Proof.
  intros Hs Hd.
  destruct (shape_outcome I mu R l Hs d (good_bytes d Hd)) as [(l2 & used & rest & evs & _ & _ & -> & Ho)|
    [(l2 & used & rest & evs & _ & -> & Ho & _)|Ho]].
  - specialize (Ho [] ltac:(constructor)). rewrite !app_nil_r in Ho. rewrite Ho. by intros [].
  - rewrite Ho. by intros [].
  - destruct (Ho [] ltac:(constructor)) as (e & He & Ho'). rewrite app_nil_r in Ho'. rewrite Ho'. by apply fault_no_misuse.
Qed.

Lemma guarded_no_misuse {P : Policy} {HF : Free P} {E X} (Q : X -> Prop) more (p : prog E X) d :
  guarded Q more Clean 0 p -> bytes d -> ~ misuse (outcome p d).
Proof.
  intros Hp Hd.
  destruct (guarded_outcome _ _ _ d Hp (good_bytes d Hd)) as [(x & used & rest & evs & _ & -> & Ho)|[Ho|Ho]].
  - specialize (Ho []). rewrite !app_nil_r in Ho. rewrite Ho. by intros [].
  - rewrite Ho. by intros [].
  - destruct (Ho []) as (e & He & Ho'). rewrite app_nil_r in Ho'. rewrite Ho'. by apply fault_no_misuse.
Qed.

(** ** Theorems *)

(** C12: [BufferedInStream] implements the stream the readers are written for.
    In the release build, over a buffer that is moved, enlarged and shrunk and a
    subclass that fills it as it likes, a reader that keeps to the discipline
    returns (what it returns, with its handler calls) or throws what the checked
    build does on the pending bytes and those that have arrived meanwhile, and
    leaves the rest of them pending; the only other exceptions are those of the
    subclass and the buffer's limit of 32 MiB.  (A reader caught in a loop of its
    own is one that throws [endless].)  The pointers stay in the array,
    the subclass is given room for at least one byte, and the call returns. *)
Theorem BufferedInStream_refines {D E X : Type} `{DeviceOk D} (new_bytes : Z -> list Z)
    (Q : X -> Prop) (more : X) (p : prog E X) (s s' : istream D) (r : res (X * list E)) :
  (forall n, 0 <= n -> len (new_bytes n) = n) ->
  guarded (P := hanging) Q more Clean 0 p -> at_rest s -> crun new_bytes p s = (r, s') ->
  match r with
  | Ok (x, evs) => at_rest s' /\ exists got, delivers (device s) got (device s') /\ bytes got /\
      outcome p (pending s ++ got) = Ok (x, pending s', evs)
  | Throw e => e = too_big \/ device_error (D:=D) e \/
      exists got, delivers (device s) got (device s') /\ outcome p (pending s ++ got) = Throw e
  end.
Proof.
  intros Hn Hp Hs Hr.
  pose proof (reader_computes new_bytes Hn _ _ p s r s' (guarded_eager _ _ _ _ _ Hp)
    (fun d => guarded_no_misuse Q more p d Hp) Hs Hr) as Hc.
  destruct r as [[x evs]|e]; [done|]. destruct Hc as [[?|?]|?]; auto.
Qed.

(** *** A socket that follows a script *)

Module Script.
Inductive happening := Interrupt | Nothing | Arrive (bs : list Z) | Close.

#[export] Instance script_socket : Socket (list happening) := {
  select_read k :=
    match k with
    | [] => (SelectTimeout, [])
    | Interrupt :: k => (SelectInterrupted, k)
    | Nothing :: k => (SelectTimeout, k)
    | Arrive [] :: k => (SelectTimeout, k)
    | _ => (SelectReady, k)
    end;
  recv n k :=
    match k with
    | Arrive [] :: k => (RecvAgain, k)
    | Arrive bs :: k =>
        if n <=? 0 then (RecvAgain, Arrive bs :: k)
        else (RecvData (map u8 (ztake n bs)), if len bs <=? n then k else Arrive (zdrop n bs) :: k)
    | Interrupt :: k => (RecvInterrupted, k)
    | Close :: _ => (RecvClosed, k)
    | _ => (RecvAgain, k)
    end;
  timeofday k := (0, k);
  interrupts k := length k
}.

#[export] Instance script_ok : SocketOk (list happening).
Proof.
  constructor.
  - intros [|[| |[|]|] k] k'; cbn; intros [=]; subst; cbn; lia.
  - intros [|[| |[|x bs]|] k] k' n; cbn; try (intros [=]; subst; cbn; lia). by case_test.
  - intros [|[| |[|x bs]|] k] k' n bs' Hn; cbn; try done. case_test; [lia|]. intros [= <- _].
    change (u8 x :: map u8 bs) with (map u8 (x :: bs)). split; [|apply Forall_map, Forall_true; intros; apply u8_byte].
    assert (0 < len (x :: bs)) by llia. rewrite len_map. unfold len, ztake in *. rewrite length_take. lia.
Qed.

(** The bytes of a script are delivered in order. *)
Fixpoint content (k : list happening) : list Z :=
  match k with
  | [] => []
  | Arrive bs :: k => map u8 bs ++ content k
  | _ :: k => content k
  end.

Lemma recv_content n (k k' : list happening) r : recv n k = (r, k') ->
  content k = match r with RecvData bs => bs | _ => [] end ++ content k'.
Proof.
  destruct k as [|[| |[|x bs]|] k]; cbn; try by intros [= <- <-]. case_test; [by intros [= <- <-]|].
  intros [= <- <-]. change (u8 x :: map u8 bs) with (map u8 (x :: bs)). case_test.
  - assert (ztake n (x :: bs) = x :: bs) as ->; [|done]. unfold ztake, len in *. apply take_ge. lia.
  - cbn [content]. by rewrite app_assoc, <- map_app, ztake_zdrop.
Qed.

Lemma select_content (k k' : list happening) r : select_read k = (r, k') -> content k = content k'.
Proof. destruct k as [|[| |[|x bs]|] k]; cbn; by intros [= <- <-]. Qed.

Lemma fill_content n (k k' : list happening) r : fillBuffer n k = (r, k') ->
  content k = match r with Ok (Some bs) => bs | _ => [] end ++ content k'.
Proof.
  cbn. unfold fd_fillBuffer, mbind, SE_bind, mret, SE_ret. intros Hr.
  assert (forall r1 k1, readFd n k = (r1, k1) -> content k = match r1 with Ok bs => bs | _ => [] end ++ content k1) as Hfd.
  { unfold readFd. assert (forall fuel k r2 k2, select_loop fuel k = (r2, k2) -> content k = content k2) as Hs.
    { induction fuel as [|fuel IH]; intros k0 r2 k2; cbn [select_loop]; destruct (select_read k0) as [[] k3] eqn:H3;
        apply select_content in H3 as ->; try by intros [= <- <-]. apply IH. }
    assert (forall fuel k r2 k2, recv_loop fuel n k = (r2, k2) ->
      content k = match r2 with RecvData bs => bs | _ => [] end ++ content k2) as Hl.
    { induction fuel as [|fuel IH]; intros k0 r2 k2; cbn [recv_loop]; destruct (recv n k0) as [[] k3] eqn:H3;
        apply recv_content in H3 as ->; try by intros [= <- <-]. apply IH. }
    destruct (select_loop _ k) as [[] k2] eqn:H2; apply Hs in H2 as ->; try by intros r1 k1 [= <- <-].
    destruct (recv_loop _ n k2) as [[] k3] eqn:H3; apply Hl in H3 as ->; by intros r1 k1 [= <- <-]. }
  destruct (readFd n k) as [[bs|e] k1] eqn:H1; rewrite (Hfd _ _ eq_refl); [|by injection Hr as <- <-].
  revert Hr. case_test; intros [= <- <-]; [|done]. by rewrite (len_zero_nil bs).
Qed.

Lemma script_in_order (k k' : list happening) got : delivers k got k' -> content k = got ++ content k'.
Proof.
  induction 1 as [|k t k' bs k2 Hg _ IH|k n b k' bs k2 Hf _ IH|k n e k' bs k2 Hf _ IH]; [done|..].
  - injection Hg as <- <-. done.
  - apply fill_content in Hf as ->. rewrite IH, app_assoc. by destruct b.
  - apply fill_content in Hf as ->. done.
Qed.
End Script.

Definition zeros (n : Z) : list Z := replicate (Z.to_nat n) 0.
Lemma len_zeros n : 0 <= n -> len (zeros n) = n.
Proof. intros. unfold zeros. rewrite len_replicate. lia. Qed.

(** A number behind a restore point, in pieces of one and three bytes. *)
Definition read_tagged : prog Z bool :=
  require hasData 1 ;; setRestorePoint;; t ← readU8;
  require hasDataOrRestore 2 ;; clearRestorePoint;; v ← readU16;
  emit (t + v);; mret true.

(** [hasData(1); readU8()] *)
Definition read_one {E} : prog E bool := require hasData 1 ;; _ ← readU8; mret true.

Import Script.

Definition some_stream : istream (list happening) :=
  BufferedInStream zeros [Interrupt; Arrive [7]; Arrive [1]; Nothing; Arrive [2; 9]].

Lemma BufferedInStream_refines_witness :
  let s1 := (crun zeros read_tagged some_stream).2 in
  let s2 := (crun zeros read_tagged s1).2 in
  pending s1 = [7; 1] /\ pending s2 = [9] /\ at_rest s2 /\
  exists got, delivers (device s1) got (device s2) /\ bytes got /\
    outcome read_tagged (pending s1 ++ got) = Ok (true, pending s2, [265]).
Proof.
  intros s1 s2. split; [vm_compute; reflexivity|]. split; [vm_compute; reflexivity|].
  assert (guarded (P := hanging) (fun b => b = true) false Clean 0 read_tagged) as Hg by (unfold read_tagged; discipline).
  assert (at_rest some_stream) as Hs by apply (BufferedInStream_at_rest zeros len_zeros).
  assert (at_rest s1) as Hs1.
  { apply (BufferedInStream_refines zeros (fun b => b = true) false read_tagged some_stream s1 (Ok (false, [])));
      [exact len_zeros|exact Hg|exact Hs|vm_compute; reflexivity]. }
  apply (BufferedInStream_refines zeros (fun b => b = true) false read_tagged s1 s2 (Ok (true, [265])));
    [exact len_zeros|exact Hg|exact Hs1|vm_compute; reflexivity].
Defined.

(** The position of the stream goes back when an empty buffer is made smaller:
    behind a buffer of 32768 bytes read to its end, six seconds later. *)
Definition idle_stream : istream (list happening) :=
  IStream (zeros 32768) 32768 32768 32768 0 (-6) 0 None [Arrive [1]].

Lemma pos_goes_back : pos idle_stream = 32768 /\ pos (crun zeros (read_one (E:=Z)) idle_stream).2 = 1.
Proof. vm_compute. split; reflexivity. Qed.
