(* ===== verification/BufferedOutStream.v ===== *)
(** * Buffered output ([rdr/BufferedOutStream.cxx], [rdr/FdOutStream.cxx])

    [BufferedOutStream] keeps what has been written and not been sent in an
    array it moves, enlarges and shrinks.  The array is the list [mem], pointers
    are indices into it.  What the subclass does, and the clock, are the class
    [Sink]; [FdOutStream] over a socket is an instance.  The calls of a writer
    are [call]s: a number of two or four bytes is put at once, [writeBytes] in
    as many pieces as the room asks for.

    Proved here: whatever the subclass takes at a time, what it has taken and
    what is still in the buffer are the bytes written, in order; an exception
    loses none of them and cuts what is being written; and a flush leaves
    something only when the stream is corked or the subclass takes no more. *)
From stdpp Require Import base list numbers strings option.
From S2P Require Import Prelude.
#[local] Open Scope Z_scope.

Definition DEFAULT_BUF_SIZE : Z := 16384.
Definition MAX_BUF_SIZE : Z := 32 * 1024 * 1024.

Definition too_big : exn := runtime_error "Buffer size of %lu bytes exceeds maximum of %lu bytes".

(** ** The subclass and the clock *)

(** [flushBuffer bs] tells how many of the bytes it has taken, if it made
    progress; [cork_socket] is what an override of [cork] does besides. *)
Class Sink (D : Type) := {
  flushBuffer : list Z -> SE D (option Z);
  gettimeofday : D -> Z * D;
  cork_socket : bool -> D -> D
}.

Class SinkOk (D : Type) `{Sink D} : Prop := {
  flush_some bs (d d' : D) n : flushBuffer bs d = (Ok (Some n), d') -> 0 < len bs -> 0 < n <= len bs
}.

(** What a subclass does in some calls: the bytes it takes in them, in order. *)
Inductive takes {D} `{Sink D} : D -> list Z -> D -> Prop :=
| take_nothing d : takes d [] d
| take_time d t d' bs d2 : gettimeofday d = (t, d') -> takes d' bs d2 -> takes d bs d2
| take_cork d b bs d2 : takes (cork_socket b d) bs d2 -> takes d bs d2
| take_flush d buf n d' bs d2 : flushBuffer buf d = (Ok (Some n), d') -> takes d' bs d2 -> takes d (ztake n buf ++ bs) d2
| take_none d buf d' bs d2 : flushBuffer buf d = (Ok None, d') -> takes d' bs d2 -> takes d bs d2
| take_throw d buf e d' bs d2 : flushBuffer buf d = (Throw e, d') -> takes d' bs d2 -> takes d bs d2.

Definition sink_error {D} `{Sink D} (e : exn) : Prop := exists bs (d d' : D), flushBuffer bs d = (Throw e, d').
Definition refused {D} `{Sink D} : Prop := exists bs (d d' : D), flushBuffer bs d = (Ok None, d').

(** ** The stream *)

Record ostream (D : Type) := OStream {
  mem : list Z;                          (* the array at [start] *)
  sentUpTo : Z; ptr : Z; endp : Z;       (* relative to [start] *)
  bufSize : Z; offset : Z;
  lastSizeCheck : Z; peakUsage : Z;
  emulateCork : bool; corked : bool;
  sink : D
}.
Arguments OStream {D} _ _ _ _ _ _ _ _ _ _ _.
Arguments mem {D} _.
Arguments sentUpTo {D} _.
Arguments ptr {D} _.
Arguments endp {D} _.
Arguments bufSize {D} _.
Arguments offset {D} _.
Arguments lastSizeCheck {D} _.
Arguments peakUsage {D} _.
Arguments emulateCork {D} _.
Arguments corked {D} _.
Arguments sink {D} _.

(** The calls of a writer. *)
Inductive call :=
| Put (bs : list Z)        (* [writeU8], [writeU16], [writeU32] *)
| Bytes (data : list Z)    (* [writeBytes] *)
| Flush
| Cork (enable : bool).

Definition written (c : call) : list Z := match c with Put bs | Bytes bs => bs | _ => [] end.

Section stream.
Context {D : Type} `{Sink D} (new_bytes : Z -> list Z).
Implicit Types s : ostream D.

Definition avail s : Z := endp s - ptr s.
Definition length s : Z := offset s + ptr s - sentUpTo s.
Definition hasBufferedData s : bool := negb (sentUpTo s =? ptr s).

Definition set_sink (d : D) s : ostream D :=
  OStream (mem s) (sentUpTo s) (ptr s) (endp s) (bufSize s) (offset s) (lastSizeCheck s) (peakUsage s)
    (emulateCork s) (corked s) d.
Definition set_usage (time peak : Z) s : ostream D :=
  OStream (mem s) (sentUpTo s) (ptr s) (endp s) (bufSize s) (offset s) time peak (emulateCork s) (corked s) (sink s).
Definition set_corked (b : bool) s : ostream D :=
  OStream (mem s) (sentUpTo s) (ptr s) (endp s) (bufSize s) (offset s) (lastSizeCheck s) (peakUsage s)
    (emulateCork s) b (sink s).
(** [sentUpTo += n; offset += n] *)
Definition sent (n : Z) s : ostream D :=
  OStream (mem s) (sentUpTo s + n) (ptr s) (endp s) (bufSize s) (offset s + n) (lastSizeCheck s) (peakUsage s)
    (emulateCork s) (corked s) (sink s).

Definition BufferedOutStream (emulate : bool) (d : D) : ostream D :=
  let '(t, d') := gettimeofday d in
  OStream (new_bytes DEFAULT_BUF_SIZE) 0 0 DEFAULT_BUF_SIZE DEFAULT_BUF_SIZE 0 t 0 emulate false d'.

(** The bytes that have been written and not been sent. *)
Definition unsent s : list Z := slice (sentUpTo s) (ptr s) (mem s).

Definition time_now : SE (ostream D) Z := fun s =>
  let '(t, d') := gettimeofday (sink s) in (Ok t, set_sink d' s).

Definition new_size (needed : Z) : Z := double_until 11 DEFAULT_BUF_SIZE needed.

(** [ptr = sentUpTo = start] *)
Definition rewound s : ostream D :=
  OStream (mem s) 0 0 (endp s) (bufSize s) (offset s) (lastSizeCheck s) (peakUsage s) (emulateCork s) (corked s) (sink s).
(** An empty array becomes smaller. *)
Definition shrunk (newSize : Z) s : ostream D :=
  OStream (new_bytes newSize) 0 0 newSize newSize (offset s) (lastSizeCheck s) (peakUsage s)
    (emulateCork s) (corked s) (sink s).
(** The bytes move to the front of the array. *)
Definition shuffled s : ostream D :=
  OStream (copy_to 0 (unsent s) (mem s)) 0 (ptr s - sentUpTo s) (endp s) (bufSize s) (offset s)
    (lastSizeCheck s) (peakUsage s) (emulateCork s) (corked s) (sink s).
(** The bytes move to the front of a larger array. *)
Definition enlarged (newSize : Z) s : ostream D :=
  OStream (copy_to 0 (unsent s) (new_bytes newSize)) 0 (ptr s - sentUpTo s) newSize newSize (offset s)
    (lastSizeCheck s) (peakUsage s) (emulateCork s) (corked s) (sink s).

Definition flush_buffer : SE (ostream D) bool := fun s =>
  match flushBuffer (unsent s) (sink s) with
  | (Ok None, d') => (Ok false, set_sink d' s)
  | (Ok (Some n), d') => (Ok true, sent n (set_sink d' s))
  | (Throw e, d') => (Throw e, set_sink d' s)
  end.

(** [while (sentUpTo < ptr) if (!flushBuffer()) break;] *)
Fixpoint flush_loop (fuel : nat) : SE (ostream D) unit :=
  s ← st_get;
  if negb (sentUpTo s <? ptr s) then mret tt else
  match fuel with
  | O => st_throw (logic_error "no end")
  | S fuel => more ← flush_buffer; if (more : bool) then flush_loop fuel else mret tt
  end.

Definition shrink : SE (ostream D) unit :=
  now ← time_now;
  s ← st_get;
  if (sentUpTo s =? ptr s) && (DEFAULT_BUF_SIZE <? bufSize s) &&
     ((now <? lastSizeCheck s) || (lastSizeCheck s + 5 <? now))
  then
    (if peakUsage s <? bufSize s / 2 then st_change (shrunk (new_size (peakUsage s))) else mret tt);;
    t ← time_now;
    st_change (set_usage t 0)
  else mret tt.

Definition flush : SE (ostream D) unit :=
  s ← st_get;
  if corked s && emulateCork s && (ptr s - sentUpTo s <? 1024) then mret tt
  else
    flush_loop (Z.to_nat (ptr s - sentUpTo s));;
    st_change (fun s => if sentUpTo s =? ptr s then rewound s else s);;
    shrink.

Definition cork (enable : bool) : SE (ostream D) unit :=
  st_change (set_corked enable);;
  (if enable then mret tt else flush);;
  st_change (fun s => set_sink (cork_socket enable (sink s)) s).

(** [overrun] behind the flush. *)
Definition make_room (needed : Z) : SE (ostream D) unit :=
  s ← st_get;
  let totalNeeded := needed + (ptr s - sentUpTo s) in
  st_change (fun s => if peakUsage s <? totalNeeded then set_usage (lastSizeCheck s) totalNeeded s else s);;
  if needed <? avail s then mret tt
  else if needed <? bufSize s - (ptr s - sentUpTo s) then st_change shuffled
  else if MAX_BUF_SIZE <? totalNeeded then st_throw too_big
  else
    st_change (enlarged (new_size totalNeeded));;
    t ← time_now;
    st_change (set_usage t totalNeeded).

Definition overrun (needed : Z) : SE (ostream D) unit :=
  s ← st_get;
  cork true;;
  flush;;
  cork (corked s);;
  make_room needed.

Definition check (n : Z) : SE (ostream D) unit :=
  s ← st_get;
  if avail s <? n then overrun n else mret tt.

(** Bytes at [ptr], where there is room. *)
Definition stored (bs : list Z) s : ostream D :=
  OStream (copy_to (ptr s) bs (mem s)) (sentUpTo s) (ptr s + len bs) (endp s) (bufSize s) (offset s)
    (lastSizeCheck s) (peakUsage s) (emulateCork s) (corked s) (sink s).

Definition put (bs : list Z) : SE (ostream D) unit :=
  check (len bs);; st_change (stored bs).

Fixpoint write_loop (fuel : nat) (data : list Z) : SE (ostream D) unit :=
  if negb (0 <? len data) then mret tt else
  match fuel with
  | O => st_throw (logic_error "no end")
  | S fuel =>
      check 1;;
      s ← st_get;
      let n := Z.min (len data) (avail s) in
      st_change (stored (ztake n data));;
      write_loop fuel (zdrop n data)
  end.

Definition writeBytes (data : list Z) : SE (ostream D) unit := write_loop (Z.to_nat (len data)) data.

Definition perform (c : call) : SE (ostream D) unit :=
  match c with
  | Put bs => put bs
  | Bytes data => writeBytes data
  | Flush => flush
  | Cork enable => cork enable
  end.

Fixpoint perform_all (cs : list call) : SE (ostream D) unit :=
  match cs with
  | [] => mret tt
  | c :: cs => perform c;; perform_all cs
  end.
End stream.

(** ** Nothing is lost, repeated or reordered *)

Section takes.
Context {D : Type} `{Sink D}.

Lemma takes_app (d d1 d2 : D) a b : takes d a d1 -> takes d1 b d2 -> takes d (a ++ b) d2.
Proof.
  induction 1; intros Hb; [done|..]; rewrite <- ?app_assoc;
    eauto using take_time, take_cork, take_flush, take_none, take_throw.
Qed.
Lemma takes_time (d d' : D) t : gettimeofday d = (t, d') -> takes d [] d'.
Proof. intros. eapply take_time; [done|]. apply take_nothing. Qed.
Lemma takes_some (d d' : D) buf n : flushBuffer buf d = (Ok (Some n), d') -> takes d (ztake n buf) d'.
Proof. intros. rewrite <- (app_nil_r (ztake n buf)). eapply take_flush; [done|]. apply take_nothing. Qed.
End takes.

Section correct.
Context {D : Type} `{HD : SinkOk D} (new_bytes : Z -> list Z).
Hypothesis new_bytes_len : forall n, 0 <= n -> len (new_bytes n) = n.
Implicit Types s : ostream D.

Record in_order s : Prop := {
  oo_ptr : 0 <= sentUpTo s <= ptr s;
  oo_end : ptr s <= endp s;
  oo_room : endp s = bufSize s;
  oo_size : DEFAULT_BUF_SIZE <= bufSize s <= MAX_BUF_SIZE;
  oo_mem : len (mem s) = bufSize s;
  oo_peak : 0 <= peakUsage s
}.

(** From [s] to [s'], [w] has been written, and some bytes have been taken. *)
Definition wrote (w : list Z) s s' : Prop :=
  in_order s' /\ length s' = length s + len w /\
  exists took, takes (sink s) took (sink s') /\ took ++ unsent s' = unsent s ++ w.

Definition write_error (e : exn) : Prop := e = too_big \/ sink_error (D:=D) e.

Lemma len_unsent s : in_order s -> len (unsent s) = ptr s - sentUpTo s.
Proof. intros []. unfold unsent. rewrite len_slice; lia. Qed.

Lemma wrote_refl s : in_order s -> wrote [] s s.
Proof.
  intros Ho. split_and!; [done|rewrite len_nil; lia|]. exists []. split; [apply take_nothing|by rewrite app_nil_r].
Qed.

Lemma wrote_app w1 w2 s s1 s2 : wrote w1 s s1 -> wrote w2 s1 s2 -> wrote (w1 ++ w2) s s2.
Proof.
  intros (_ & Hl1 & took1 & Ht1 & He1) (Ho & Hl2 & took2 & Ht2 & He2). split_and!; [done|rewrite len_app; lia|].
  exists (took1 ++ took2). split; [by eapply takes_app|]. by rewrite <- app_assoc, He2, !app_assoc, He1.
Qed.

Lemma wrote_then w s s1 s2 : wrote [] s s1 -> wrote w s1 s2 -> wrote w s s2.
Proof. apply (wrote_app [] w). Qed.
Lemma wrote_before w s s1 s2 : wrote w s s1 -> wrote [] s1 s2 -> wrote w s s2.
Proof. intros Hw Hs. rewrite <- (app_nil_r w). by eapply wrote_app. Qed.

(** A step that moves the bytes, at most. *)
Lemma wrote_same s s' : in_order s' -> length s' = length s -> sink s' = sink s -> unsent s' = unsent s -> wrote [] s s'.
Proof.
  intros Ho Hl Hd Hu. split_and!; [done|rewrite len_nil; lia|]. exists []. rewrite Hd, Hu, app_nil_r.
  split; [apply take_nothing|done].
Qed.

Lemma out_new_size_spec needed : needed <= MAX_BUF_SIZE ->
  needed <= new_size needed /\ DEFAULT_BUF_SIZE <= new_size needed <= MAX_BUF_SIZE.
Proof. intros Hn. split; [by apply double_until_ge|exact (double_until_bounds 11 DEFAULT_BUF_SIZE needed ltac:(done))]. Qed.

Lemma set_sink_ok s d' : in_order s -> takes (sink s) [] d' -> wrote [] s (set_sink d' s).
Proof.
  intros Ho Ht. pose proof Ho as []. split_and!; [by split|rewrite len_nil; unfold length; cbn; lia|].
  exists []. by rewrite app_nil_r.
Qed.

Lemma out_time_now_ends s (Q : Z -> ostream D -> Prop) F :
  (forall t d', takes (sink s) [] d' -> Q t (set_sink d' s)) -> st_ends time_now Q F s.
Proof.
  intros HQ. unfold st_ends, time_now. destruct (gettimeofday (sink s)) as [t d'] eqn:Hg.
  apply HQ. by eapply takes_time.
Qed.

Lemma out_set_usage_ok t p s : in_order s -> 0 <= p -> wrote [] s (set_usage t p s).
Proof. intros Ho Hp. pose proof Ho as []. by apply wrote_same. Qed.
Lemma set_corked_ok b s : in_order s -> wrote [] s (set_corked b s).
Proof. intros Ho. pose proof Ho as []. by apply wrote_same. Qed.

Lemma rewound_ok s : in_order s -> sentUpTo s = ptr s -> wrote [] s (rewound s).
Proof.
  intros Ho Hs. pose proof (len_unsent s Ho) as Hl. pose proof Ho as [].
  apply wrote_same; [split; cbn; try done; lia|unfold length; cbn; lia|done|].
  rewrite (len_zero_nil (unsent s)) by lia. done.
Qed.

Lemma out_shrunk_ok s n : in_order s -> sentUpTo s = ptr s -> DEFAULT_BUF_SIZE <= n <= MAX_BUF_SIZE ->
  wrote [] s (shrunk new_bytes n s).
Proof.
  intros Ho Hs Hn. pose proof (len_unsent s Ho) as Hl. pose proof Ho as [].
  apply wrote_same; [|unfold length; cbn; lia|done|rewrite (len_zero_nil (unsent s)) by lia; done].
  split; cbn; try done; try (unfold DEFAULT_BUF_SIZE in *; lia). apply new_bytes_len. unfold DEFAULT_BUF_SIZE in *. lia.
Qed.

Lemma moved_ok s m n : in_order s -> len m = n -> DEFAULT_BUF_SIZE <= n <= MAX_BUF_SIZE -> ptr s - sentUpTo s <= n ->
  let s' := OStream (copy_to 0 (unsent s) m) 0 (ptr s - sentUpTo s) n n (offset s) (lastSizeCheck s)
              (peakUsage s) (emulateCork s) (corked s) (sink s) in
  wrote [] s s'.
Proof.
  intros Ho Hm Hn Hp s'. pose proof (len_unsent s Ho) as Hl. pose proof Ho as [].
  apply wrote_same; [|unfold length; cbn; lia|done|].
  - split; cbn; try done; try lia. rewrite len_copy_to; lia.
  - by apply (slice_copy_front (sentUpTo s) (ptr s) _ (mem s)); [|lia..].
Qed.

(** ** Flushing *)

Lemma flush_buffer_ends s : in_order s -> sentUpTo s < ptr s ->
  st_ends flush_buffer
    (fun more s' => wrote [] s s' /\
       if more : bool then ptr s' - sentUpTo s' < ptr s - sentUpTo s else refused (D:=D))
    (fun e s' => sink_error (D:=D) e /\ wrote [] s s') s.
Proof.
  intros Ho Hs. pose proof (len_unsent s Ho) as Hl. pose proof Ho as []. unfold st_ends, flush_buffer.
  destruct (flushBuffer (unsent s) (sink s)) as [[[n|]|e] d'] eqn:Hf.
  - destruct (flush_some _ _ _ _ Hf ltac:(lia)) as [Hn1 Hn2]. split; [|cbn; lia].
    split_and!; [split; cbn; try done; lia|rewrite len_nil; unfold length; cbn; lia|].
    exists (ztake n (unsent s)). split; [by apply takes_some|]. rewrite app_nil_r.
    assert (unsent (sent n (set_sink d' s)) = zdrop n (unsent s)) as ->; [|by rewrite ztake_zdrop].
    apply (app_inv_head (ztake n (unsent s))). rewrite ztake_zdrop. unfold unsent. cbn.
    assert (ztake n (slice (sentUpTo s) (ptr s) (mem s)) = slice (sentUpTo s) (sentUpTo s + n) (mem s)) as ->.
    { rewrite <- (slice_app _ (sentUpTo s + n) (ptr s)) by lia. apply ztake_app. rewrite len_slice; lia. }
    apply slice_app; lia.
  - split; [|by eexists _, _, _]. apply set_sink_ok; [done|]. eapply take_none; [done|]. apply take_nothing.
  - split; [by eexists _, _, _|]. apply set_sink_ok; [done|]. eapply take_throw; [done|]. apply take_nothing.
Qed.

Lemma flush_loop_ends fuel s : in_order s -> (Z.to_nat (ptr s - sentUpTo s) <= fuel)%nat ->
  st_ends (flush_loop fuel)
    (fun _ s' => wrote [] s s' /\ (sentUpTo s' = ptr s' \/ refused (D:=D)))
    (fun e s' => sink_error (D:=D) e /\ wrote [] s s') s.
Proof.
  revert s. induction fuel as [|fuel IH]; intros s Ho Hf; pose proof Ho as []; cbn [flush_loop]; apply ends_bind, ends_get.
  - case_test; [|lia]. apply ends_ret. split; [by apply wrote_refl|left; lia].
  - case_test; [apply ends_ret; split; [by apply wrote_refl|left; lia]|].
    eapply ends_seq; [by apply flush_buffer_ends|]. intros [|] s1 [Hw Hm].
    + eapply ends_conseq_throw; [eapply ends_conseq; [apply IH; [apply Hw|lia]|]|]; cbn; intros ? s2 [? ?];
        (split; [by first [done|eapply wrote_then]|by first [done|eapply wrote_then]]).
    + apply ends_ret. auto.
Qed.

Lemma out_shrink_ends s : in_order s ->
  st_ends (shrink new_bytes) (fun _ s' => wrote [] s s' /\ (sentUpTo s = ptr s -> sentUpTo s' = ptr s')) (fun _ _ => False) s.
Proof.
  intros Ho. unfold shrink. apply ends_bind, out_time_now_ends. intros now d' Hd.
  pose proof (set_sink_ok s d' Ho Hd) as Hs1. apply ends_bind, ends_get.
  case_test; [|by apply ends_ret].
  apply (ends_seq _ _ _ (fun _ s' => wrote [] s s' /\ (sentUpTo s = ptr s -> sentUpTo s' = ptr s'))).
  - case_test; [apply ends_change|by apply ends_ret]. pose proof Ho as [].
    destruct (out_new_size_spec (peakUsage s)) as [Hge Hle]; [cbn in *; Z.to_euclidean_division_equations; lia|].
    split; [|done]. eapply wrote_then; [exact Hs1|]. apply out_shrunk_ok; [apply Hs1|done|done].
  - intros _ s1 [Hw Hk]. apply ends_bind, out_time_now_ends. intros t d2 Hd2. apply ends_change. split; [|exact Hk].
    eapply wrote_then; [exact Hw|]. pose proof (set_sink_ok s1 d2 (proj1 Hw) Hd2) as Hs2.
    eapply wrote_then; [exact Hs2|]. apply out_set_usage_ok; [apply Hs2|lia].
Qed.

Definition held_back s : Prop := corked s = true /\ ptr s - sentUpTo s < 1024.

Lemma flush_ends s : in_order s ->
  st_ends (flush new_bytes)
    (fun _ s' => wrote [] s s' /\ (sentUpTo s' = ptr s' \/ held_back s \/ refused (D:=D)))
    (fun e s' => sink_error (D:=D) e /\ wrote [] s s') s.
Proof.
  intros Ho. unfold flush. apply ends_bind, ends_get.
  case_test; [apply ends_ret; split; [by apply wrote_refl|right; left; by split]|]. clear Heqb.
  eapply ends_seq; [by apply flush_loop_ends|]. intros _ s1 [Hw He].
  apply ends_bind, ends_change. set (s2 := if sentUpTo s1 =? ptr s1 then _ else _).
  assert (wrote [] s s2 /\ (sentUpTo s1 = ptr s1 -> sentUpTo s2 = ptr s2)) as [Hw2 He2].
  { subst s2. case_test; [|by split]. split; [|done]. eapply wrote_then; [exact Hw|]. apply rewound_ok; [apply Hw|done]. }
  eapply ends_conseq_throw; [eapply ends_conseq; [apply out_shrink_ends, Hw2|]|done].
  cbn. intros _ s3 [Hw3 He3]. split; [by eapply wrote_then|]. destruct He as [He|He]; auto.
Qed.

Lemma cork_ends b s : in_order s ->
  st_ends (cork new_bytes b) (fun _ s' => wrote [] s s') (fun e s' => sink_error (D:=D) e /\ wrote [] s s') s.
Proof.
  intros Ho. unfold cork. apply ends_bind, ends_change. pose proof (set_corked_ok b s Ho) as Hw.
  apply (ends_seq _ _ _ (fun _ s' => wrote [] s s')).
  - destruct b; [by apply ends_ret|].
    eapply ends_conseq_throw; [eapply ends_conseq; [apply flush_ends, Hw|]|]; cbn; intros ? s1 [? ?].
    + eapply wrote_then; [exact Hw|done].
    + split; [done|]. eapply wrote_then; [exact Hw|done].
  - intros _ s1 Hw1. apply ends_change. eapply wrote_then; [exact Hw1|]. apply set_sink_ok; [apply Hw1|].
    eapply take_cork. apply take_nothing.
Qed.

(** ** Room *)

Lemma make_room_ends n s : in_order s -> 0 <= n ->
  st_ends (make_room new_bytes n) (fun _ s' => wrote [] s s' /\ n <= avail s')
    (fun e s' => e = too_big /\ wrote [] s s') s.
Proof.
  intros Ho Hn. unfold make_room. apply ends_bind, ends_get. cbv zeta. apply ends_bind, ends_change.
  set (s1 := if peakUsage s <? _ then _ else _).
  assert (wrote [] s s1 /\ ptr s1 = ptr s /\ sentUpTo s1 = sentUpTo s /\ endp s1 = endp s /\ bufSize s1 = bufSize s)
    as (Hw & Hp & Hsu & He & Hbs).
  { subst s1. pose proof Ho as []. case_test; [|split; [by apply wrote_refl|done]]. split; [|done].
    apply out_set_usage_ok; [done|lia]. }
  clearbody s1. pose proof (proj1 Hw) as [].
  unfold avail in *. case_test; [apply ends_ret; split; [done|lia]|]. case_test.
  - apply ends_change. split; [|cbn; lia]. eapply wrote_then; [exact Hw|].
    eapply (moved_ok s1 (mem s1) (bufSize s1)) in oo_mem0; [|by split|lia|lia].
    unfold shuffled. by rewrite oo_room0.
  - case_test; [by apply ends_throw|].
    destruct (out_new_size_spec (n + (ptr s - sentUpTo s))) as [Hge Hle]; [done|].
    set (m := new_size _) in *. clearbody m. assert (0 <= m) by (unfold DEFAULT_BUF_SIZE in *; lia).
    pose proof (moved_ok s1 (new_bytes m) m (proj1 Hw) (new_bytes_len m ltac:(done)) Hle ltac:(lia)) as Hm.
    apply ends_bind, ends_change, ends_bind, out_time_now_ends. intros t d' Hd. apply ends_change.
    split; [|cbn; lia]. eapply wrote_then; [exact Hw|]. eapply wrote_then; [exact Hm|].
    pose proof (set_sink_ok _ d' (proj1 Hm) Hd) as Hs2. eapply wrote_then; [exact Hs2|].
    apply out_set_usage_ok; [apply Hs2|lia].
Qed.

Lemma out_overrun_ends n s : in_order s -> 0 <= n ->
  st_ends (overrun new_bytes n) (fun _ s' => wrote [] s s' /\ n <= avail s')
    (fun e s' => write_error e /\ wrote [] s s') s.
Proof.
  intros Ho Hn. unfold overrun. apply ends_bind, ends_get.
  assert (forall e s', sink_error (D:=D) e /\ wrote [] s s' -> write_error e /\ wrote [] s s') as He.
  { intros e s' [??]. split; [by right|done]. }
  eapply ends_seq; [eapply ends_conseq_throw; [by apply cork_ends|exact He]|]. cbn beta. intros _ s1 Hw1.
  assert (forall e s', sink_error (D:=D) e /\ wrote [] s1 s' -> write_error e /\ wrote [] s s') as He1.
  { intros e s' [??]. split; [by right|by eapply wrote_then]. }
  eapply ends_seq; [eapply ends_conseq_throw; [apply flush_ends, Hw1|exact He1]|]. cbn beta. intros _ s2 [Hw2 _].
  eapply ends_seq; [eapply ends_conseq_throw; [apply cork_ends, Hw2|]|].
  { intros e s' [??]. split; [by right|]. eapply wrote_then; [|done]. by eapply wrote_then. }
  cbn beta. intros _ s3 Hw3. assert (wrote [] s s3) as Hw by (do 2 (eapply wrote_then; [done|]); done).
  eapply ends_conseq_throw; [eapply ends_conseq; [apply make_room_ends; [apply Hw3|done]|]|]; cbn.
  - intros _ s4 [Hw4 Hr]. split; [by eapply wrote_then|done].
  - intros e s4 [-> Hw4]. split; [by left|by eapply wrote_then].
Qed.

Lemma check_ends n s : in_order s -> 0 <= n ->
  st_ends (check new_bytes n) (fun _ s' => wrote [] s s' /\ n <= avail s')
    (fun e s' => write_error e /\ wrote [] s s') s.
Proof.
  intros Ho Hn. unfold check. apply ends_bind, ends_get. case_test; [by apply out_overrun_ends|].
  apply ends_ret. split; [by apply wrote_refl|done].
Qed.

Lemma stored_ok bs s : in_order s -> len bs <= avail s -> wrote bs s (stored bs s).
Proof.
  intros Ho Hb. pose proof Ho as []. pose proof (len_nonneg bs). unfold avail in *.
  split_and!; [|unfold length; cbn; lia|].
  - split; cbn; try done; try lia. rewrite len_copy_to; lia.
  - exists []. split; [apply take_nothing|]. unfold unsent. cbn. rewrite slice_copy_to; [done|lia|lia].
Qed.

(** ** The calls of a writer *)

(** A call that throws has written the front of its bytes. *)
Definition cut_short (w : list Z) s (e : exn) s' : Prop :=
  write_error e /\ exists w1 w2, w = w1 ++ w2 /\ wrote w1 s s'.

Lemma cut_nothing w s e s' : write_error e /\ wrote [] s s' -> cut_short w s e s'.
Proof. intros [He Hw]. split; [done|]. by exists [], w. Qed.

Lemma put_ends bs s : in_order s -> st_ends (put new_bytes bs) (fun _ s' => wrote bs s s') (cut_short bs s) s.
Proof.
  intros Ho. pose proof (len_nonneg bs). unfold put.
  eapply ends_seq; [eapply ends_conseq_throw; [by apply check_ends|apply cut_nothing]|].
  cbn beta. intros _ s1 [Hw Hr]. apply ends_change. eapply wrote_then; [exact Hw|]. apply stored_ok; [apply Hw|done].
Qed.

Lemma write_loop_ends fuel data s : in_order s -> (Z.to_nat (len data) <= fuel)%nat ->
  st_ends (write_loop new_bytes fuel data) (fun _ s' => wrote data s s') (cut_short data s) s.
Proof.
  revert data s. induction fuel as [|fuel IH]; intros data s Ho Hf; cbn [write_loop]; pose proof (len_nonneg data).
  - case_test; [|lia]. apply ends_ret. rewrite (len_zero_nil data) by lia. by apply wrote_refl.
  - case_test; [apply ends_ret; rewrite (len_zero_nil data) by lia; by apply wrote_refl|].
    eapply ends_seq; [eapply ends_conseq_throw; [by apply check_ends|apply cut_nothing]|].
    cbn beta. intros _ s1 [Hw Hr]. apply ends_bind, ends_get. cbv zeta. apply ends_bind, ends_change.
    set (n := Z.min _ _). assert (0 < n <= len data /\ n <= avail s1) as [Hn1 Hn2] by lia.
    assert (wrote (ztake n data) s (stored (ztake n data) s1)) as Hw1.
    { eapply wrote_then; [exact Hw|]. apply stored_ok; [apply Hw|]. rewrite len_ztake; lia. }
    set (s2 := stored _ s1) in *. clearbody s2. clearbody n.
    eapply ends_conseq_throw; [eapply ends_conseq; [apply IH; [apply Hw1|rewrite len_zdrop; lia]|]|].
    + cbn beta. intros _ s3 Hw2. rewrite <- (ztake_zdrop n data). by eapply wrote_app.
    + intros e s3 (He & w1 & w2 & Hd & Hw2). split; [done|]. exists (ztake n data ++ w1), w2.
      split; [by rewrite <- app_assoc, <- Hd, ztake_zdrop|]. by eapply wrote_app.
Qed.

Lemma perform_ends c s : in_order s -> st_ends (perform new_bytes c) (fun _ s' => wrote (written c) s s') (cut_short (written c) s) s.
Proof.
  intros Ho. assert (forall e s', sink_error (D:=D) e /\ wrote [] s s' -> cut_short [] s e s') as He.
  { intros e s' [??]. apply cut_nothing. split; [by right|done]. }
  destruct c as [bs|data| |b]; cbn [perform written].
  - by apply put_ends.
  - by apply write_loop_ends.
  - eapply ends_conseq_throw; [eapply ends_conseq; [by apply flush_ends|]|exact He]. by intros _ s' [? _].
  - eapply ends_conseq_throw; [by apply cork_ends|exact He].
Qed.

Lemma perform_all_ends cs s : in_order s ->
  st_ends (perform_all new_bytes cs) (fun _ s' => wrote (concat (map written cs)) s s')
    (cut_short (concat (map written cs)) s) s.
Proof.
  revert s. induction cs as [|c cs IH]; intros s Ho; cbn [perform_all map concat]; [by apply ends_ret, wrote_refl|].
  eapply ends_seq; [eapply ends_conseq_throw; [by apply perform_ends|]|].
  { intros e s' (He & w1 & w2 & Hd & Hw). split; [done|]. exists w1, (w2 ++ concat (map written cs)).
    by rewrite Hd, app_assoc. }
  cbn beta. intros _ s1 Hw1.
  eapply ends_conseq_throw; [eapply ends_conseq; [apply IH, Hw1|]|].
  - cbn beta. intros _ s2 Hw2. by eapply wrote_app.
  - intros e s2 (He & w1 & w2 & Hd & Hw2). split; [done|]. exists (written c ++ w1), w2.
    split; [by rewrite Hd, app_assoc|]. by eapply wrote_app.
Qed.

Lemma BufferedOutStream_in_order b d : let s := BufferedOutStream new_bytes b d in
  in_order s /\ unsent s = [] /\ length s = 0 /\ takes d [] (sink s).
Proof.
  unfold BufferedOutStream. destruct (gettimeofday d) as [t d'] eqn:Hg. cbn.
  split_and!; [|done|done|by eapply takes_time].
  split; cbn; try (unfold DEFAULT_BUF_SIZE, MAX_BUF_SIZE in *; lia). by apply new_bytes_len.
Qed.
End correct.

(** ** [FdOutStream] *)

Inductive select_result := SelectInterrupted | SelectError | SelectReady | SelectTimeout.
Inductive send_result := SendInterrupted | SendAgain | SendError | Sent (n : Z).

(** The calls of the system, on a descriptor; [interrupts] bounds how many of
    the calls to come are interrupted in a row.  [setsockopt] is the option
    [TCP_CORK] (nothing where the system has none). *)
Class OutSocket (K : Type) := {
  select_write : K -> select_result * K;
  send : list Z -> K -> send_result * K;
  timeofday : K -> Z * K;
  setsockopt : bool -> K -> K;
  interrupts : K -> nat
}.

Class OutSocketOk (K : Type) `{OutSocket K} : Prop := {
  select_interrupted (k k' : K) : select_write k = (SelectInterrupted, k') -> (interrupts k' < interrupts k)%nat;
  send_interrupted (k k' : K) bs : send bs k = (SendInterrupted, k') -> (interrupts k' < interrupts k)%nat;
  send_count (k k' : K) bs n : send bs k = (Sent n, k') -> 0 <= n <= len bs
}.

Section FdOutStream.
Context {K : Type} `{OutSocket K}.

Fixpoint select_loop (fuel : nat) (k : K) : select_result * K :=
  match fuel, select_write k with
  | S fuel, (SelectInterrupted, k') => select_loop fuel k'
  | _, r => r
  end.

Fixpoint send_loop (fuel : nat) (bs : list Z) (k : K) : send_result * K :=
  match fuel, send bs k with
  | S fuel, (SendInterrupted, k') => send_loop fuel bs k'
  | _, r => r
  end.

Definition writeFd (data : list Z) : SE K Z := fun k =>
  match select_loop (interrupts k) k with
  | (SelectInterrupted, k) | (SelectError, k) => (Throw (runtime_error "select"), k)
  | (SelectTimeout, k) => (Ok 0, k)
  | (SelectReady, k) =>
      match send_loop (interrupts k) data k with
      | (SendInterrupted, k) | (SendError, k) => (Throw (runtime_error "write"), k)
      | (SendAgain, k) => (Ok 0, k)
      | (Sent n, k) => (Ok n, snd (timeofday k))
      end
  end.

Definition fd_flushBuffer (data : list Z) : SE K (option Z) :=
  n ← writeFd data;
  mret (if n =? 0 then None else Some n).

#[export] Instance FdOutStream : Sink K := {
  flushBuffer := fd_flushBuffer;
  gettimeofday := timeofday;
  cork_socket := setsockopt
}.

Context `{!OutSocketOk K}.

(** Neither loop is left with an interruption. *)
Lemma select_write_ends fuel k : (interrupts k <= fuel)%nat -> (select_loop fuel k).1 <> SelectInterrupted.
Proof.
  revert k. induction fuel as [|fuel IH]; intros k Hf; cbn [select_loop]; destruct (select_write k) as [r k'] eqn:Hs.
  - intros Hr. cbn in Hr. subst r. apply select_interrupted in Hs. lia.
  - destruct r; try done. apply select_interrupted in Hs. apply IH. lia.
Qed.

Lemma send_loop_ends fuel bs k : (interrupts k <= fuel)%nat -> (send_loop fuel bs k).1 <> SendInterrupted.
Proof.
  revert k. induction fuel as [|fuel IH]; intros k Hf; cbn [send_loop]; destruct (send bs k) as [r k'] eqn:Hs.
  - intros Hr. cbn in Hr. subst r. apply send_interrupted in Hs. lia.
  - destruct r; try done. apply send_interrupted in Hs. apply IH. lia.
Qed.

Lemma send_loop_count fuel bs k k' n : send_loop fuel bs k = (Sent n, k') -> 0 <= n <= len bs.
Proof.
  revert k. induction fuel as [|fuel IH]; intros k; cbn [send_loop]; destruct (send bs k) as [r k2] eqn:Hs.
  - intros [= -> ->]. by eapply send_count.
  - destruct r; try done; [by eauto|]. intros [= -> ->]. by eapply send_count.
Qed.

#[export] Instance FdOutStream_ok : SinkOk K.
Proof.
  constructor. intros bs k k' n. cbn. unfold fd_flushBuffer, writeFd, mbind, SE_bind, mret, SE_ret. intros Hf Hb.
  destruct (select_loop _ k) as [[] k1]; try done.
  destruct (send_loop _ bs k1) as [[| | |m] k2] eqn:Hr; try done. apply send_loop_count in Hr.
  destruct (Z.eqb_spec m 0); [done|]. injection Hf as <- _. lia.
Qed.
End FdOutStream.

(** ** Theorems *)

(** C13: [BufferedOutStream] sends what is written.  For any calls of a writer,
    over a subclass that takes as many of the bytes at a time as it likes and may
    refuse them or throw: what it has taken since and what is still in the
    buffer are the bytes that were there and those written, in order, nothing
    lost and nothing twice, and [length] counts them.  If the subclass throws, or
    more than 32 MiB would have to be kept, the same holds of the part that was
    written before.  The pointers stay in the array, and the calls return; a
    [flush] leaves bytes only where the stream is corked or the subclass
    refuses them. *)
Theorem BufferedOutStream_keeps_all {D : Type} `{SinkOk D} (new_bytes : Z -> list Z) (cs : list call)
    (s s' : ostream D) (r : res unit) :
  (forall n, 0 <= n -> len (new_bytes n) = n) -> in_order s ->
  perform_all new_bytes cs s = (r, s') ->
  (exists w took, wrote w s s' /\ takes (sink s) took (sink s') /\ took ++ unsent s' = unsent s ++ w /\
    match r with
    | Ok _ => w = concat (map written cs)
    | Throw e => w `prefix_of` concat (map written cs) /\ (e = too_big \/ sink_error (D:=D) e)
    end) /\
  (forall s'', flush new_bytes s' = (Ok tt, s'') -> hasBufferedData s'' = false \/ held_back s' \/ refused (D:=D)).
Proof.
  intros Hn Ho Hr. pose proof (perform_all_ends new_bytes Hn cs s Ho) as Hc. unfold st_ends in Hc. rewrite Hr in Hc.
  assert (exists w, wrote w s s' /\ match r with Ok _ => w = concat (map written cs)
    | Throw e => w `prefix_of` concat (map written cs) /\ (e = too_big \/ sink_error (D:=D) e) end) as (w & Hw & Hwr).
  { destruct r as [[]|e]; [by eexists|]. destruct Hc as (He & w1 & w2 & -> & Hw). exists w1. split_and!; [done| |done].
    by exists w2. }
  split.
  - destruct Hw as (Ho' & Hl & took & Ht & He). exists w, took. split_and!; [|done..]. by repeat (split; [done|]); exists took.
  - intros s'' Hf. pose proof (flush_ends new_bytes Hn s' (proj1 Hw)) as Hfl. unfold st_ends in Hfl. rewrite Hf in Hfl.
    destruct Hfl as [_ [He|?]]; [left|by right]. unfold hasBufferedData. by rewrite He, Z.eqb_refl.
Qed.

(** A sink that takes three bytes at a time, and keeps them. *)
Module Sips.
#[export] Instance sips : Sink (list Z) := {
  flushBuffer bs d := let n := Z.min 3 (len bs) in (Ok (Some n), d ++ ztake n bs);
  gettimeofday d := (0, d);
  cork_socket _ d := d
}.
#[export] Instance sips_ok : SinkOk (list Z).
Proof. constructor. intros bs d d' n. cbn. intros [= <- _] Hl. lia. Qed.

Lemma sips_keep (d d' bs : list Z) : takes d bs d' -> d' = d ++ bs.
Proof.
  induction 1 as [|d t d' bs d2 Hg _ IH|d b bs d2 _ IH|d buf n d' bs d2 Hf _ IH|d buf d' bs d2 Hf _ IH|d buf e d' bs d2 Hf _ IH];
    [by rewrite app_nil_r|by injection Hg as <- <-|done| |done|done].
  injection Hf as <- <-. by rewrite IH, app_assoc.
Qed.
End Sips.
Import Sips.

Definition zeros (n : Z) : list Z := replicate (Z.to_nat n) 0.

Definition some_calls : list call := [Put [1; 2]; Bytes [3; 4; 5]; Flush; Cork true; Put [6]; Flush].

Lemma BufferedOutStream_keeps_all_witness :
  let s := BufferedOutStream zeros true [] in
  let s1 := (perform_all zeros some_calls s).2 in
  sink s1 = [1; 2; 3; 4; 5] /\ unsent s1 = [6] /\
  exists w took, wrote w s s1 /\ takes [] took [1; 2; 3; 4; 5] /\ took ++ [6] = w.
Proof.
  intros s s1. split; [vm_compute; reflexivity|]. split; [vm_compute; reflexivity|].
  assert (forall n, 0 <= n -> len (zeros n) = n) as Hz by (intros; unfold zeros; rewrite len_replicate; lia).
  assert (perform_all zeros some_calls s = (Ok tt, s1)) as Hr by (vm_compute; reflexivity).
  destruct (proj1 (BufferedOutStream_keeps_all zeros some_calls s s1 (Ok tt) Hz
    (proj1 (BufferedOutStream_in_order zeros Hz true [])) Hr)) as (w & took & Hw & Ht & He & _).
  exists w, took. split; [exact Hw|]. split; [exact Ht|]. exact He.
Defined.
