(* ===== verification/Strings.v ===== *)
(** * Strings ([common/core/string.cxx])

    A C string or character buffer is the list of its bytes ([unsigned char]
    values); a [wchar_t] string the list of its units.  A conversion that would
    read outside the buffer it is given returns [None].  The loops below keep
    the second pass of the C++ functions: the first only computes the size to
    reserve. *)
From stdpp Require Import base list numbers strings option.
From S2P Require Import Prelude.
#[local] Open Scope Z_scope.

(** ** Splitting *)

(** [strchr(start, delimiter)]: the text before the delimiter and after it. *)
Fixpoint strchr_split (start : list Z) (delimiter : Z) : list Z * option (list Z) :=
  match start with
  | [] => ([], None)
  | c :: l =>
      if c =? delimiter then ([], Some l)
      else let '(a, r) := strchr_split l delimiter in (c :: a, r)
  end.

(** The [do ... while (stop != nullptr)] loop. *)
Fixpoint split_loop (fuel : nat) (start : list Z) (delimiter : Z) : list (list Z) :=
  match fuel with
  | O => []
  | S fuel =>
      match strchr_split start delimiter with
      | (piece, None) => [piece]
      | (piece, Some next) => piece :: split_loop fuel next delimiter
      end
  end.

Definition split (src : list Z) (delimiter : Z) : list (list Z) :=
  match src with [] => [] | _ => split_loop (S (length src)) src delimiter end.

(** ** Hexadecimal *)

Definition intToHex (i : Z) : Z :=
  if i <=? 9 then 48 + i else 97 + (i - 10).

Definition binToHex_into (inp : list Z) (outlen : Z) : list Z :=
  let inlen := if len inp >? outlen / 2 then outlen / 2 else len inp in
  concat (map (fun b => [intToHex (Z.land (Z.shiftr b 4) 15); intToHex (Z.land b 15)])
              (ztake inlen inp)).

Definition binToHex (inp : list Z) : list Z := binToHex_into inp (len inp * 2).

Definition tolower (c : Z) : Z := if (65 <=? c) && (c <=? 90) then c + 32 else c.

Definition readHexAndShift (c : Z) (v : Z) : option Z :=
  let c := tolower c in
  if (48 <=? c) && (c <=? 57) then Some (u8 (Z.shiftl v 4 + (c - 48)))
  else if (97 <=? c) && (c <=? 102) then Some (u8 (Z.shiftl v 4 + (c - 97 + 10)))
  else None.

Fixpoint hex_pairs (inp : list Z) : option (list Z) :=
  match inp with
  | a :: b :: inp =>
      v ← readHexAndShift a 0; byte ← readHexAndShift b v;
      rest ← hex_pairs inp; Some (byte :: rest)
  | _ => Some []
  end.

(** [None] is the return value [false]. *)
Definition hexToBin_into (inp : list Z) (outlen : Z) : option (list Z) :=
  if Z.land (len inp) 1 =? 1 then None
  else
    let inlen := if len inp >? outlen * 2 then outlen * 2 else len inp in
    hex_pairs (ztake inlen inp).

Definition hexToBin (inp : list Z) : list Z :=
  match hexToBin_into inp (len inp / 2) with None => [] | Some out => out end.

(** ** Line endings *)

Definition CR : Z := 13.
Definition LF : Z := 10.
Definition starts_with_LF (l : list Z) : bool :=
  match l with c :: _ => c =? LF | [] => false end.

Fixpoint convertLF (src : list Z) : list Z :=
  match src with
  | [] => []
  | c :: src' =>
      if c =? 0 then []
      else if negb (c =? CR) then c :: convertLF src'
      else if negb (starts_with_LF src') then LF :: convertLF src' else convertLF src'
  end.

(** [prev] is [*(in-1)], [-1] at the start of the text. *)
Fixpoint convertCRLF_from (prev : Z) (src : list Z) : list Z :=
  match src with
  | [] => []
  | c :: src' =>
      if c =? 0 then []
      else (if (c =? LF) && negb (prev =? CR) then [CR] else [])
           ++ [c]
           ++ (if (c =? CR) && negb (starts_with_LF src') then [LF] else [])
           ++ convertCRLF_from c src'
  end.
Definition convertCRLF (src : list Z) : list Z := convertCRLF_from (-1) src.

(** ** Unicode *)

Definition replacement : Z := 0xfffd.

Definition ucs4ToUTF8 (src : Z) : list Z :=
  let three src :=
    [Z.lor 0xe0 (Z.shiftr src 12);
     Z.lor 0x80 (Z.land (Z.shiftr src 6) 0x3f);
     Z.lor 0x80 (Z.land src 0x3f)] in
  if src <? 0x80 then [src]
  else if src <? 0x800 then [Z.lor 0xc0 (Z.shiftr src 6); Z.lor 0x80 (Z.land src 0x3f)]
  else if (0xd800 <=? src) && (src <? 0xe000) then three replacement
  else if src <? 0x10000 then three src
  else if src <? 0x110000 then
    [Z.lor 0xf0 (Z.shiftr src 18);
     Z.lor 0x80 (Z.land (Z.shiftr src 12) 0x3f);
     Z.lor 0x80 (Z.land (Z.shiftr src 6) 0x3f);
     Z.lor 0x80 (Z.land src 0x3f)]
  else three replacement.

Definition is_cont (c : Z) : bool := Z.land c 0xc0 =? 0x80.

(** The [while (count--)] loop of [utf8ToUCS4]; results are [(consumed, *dst)]. *)
Fixpoint utf8_cont (count : nat) (src : list Z) (max dst consumed : Z) : option (Z * Z) :=
  match count with
  | O => Some (consumed, if (0xd800 <=? dst) && (dst <? 0xe000) then replacement else dst)
  | S count =>
      if max =? 0 then Some (consumed + 1, replacement)
      else match src with
      | [] => None
      | c :: src =>
          if negb (is_cont c) then Some (consumed + 1, replacement)
          else utf8_cont count src (max - 1)
                 (Z.lor (u32 (Z.shiftl dst 6)) (Z.land c 0x3f)) (consumed + 1)
      end
  end.

(** [while ((max-- > 0) && (( *src++ & 0xc0) == 0x80)) consumed++] *)
Fixpoint skip_conts (src : list Z) (max consumed : Z) : option Z :=
  if max <=? 0 then Some consumed
  else match src with
  | [] => None
  | c :: src => if is_cont c then skip_conts src (max - 1) (consumed + 1) else Some consumed
  end.

Definition utf8ToUCS4 (src : list Z) (max : Z) : option (Z * Z) :=
  if max =? 0 then Some (0, replacement)
  else match src with
  | [] => None
  | c :: src =>
      if Z.land c 0x80 =? 0 then utf8_cont 0 src (max - 1) c 1
      else if Z.land c 0xe0 =? 0xc0 then utf8_cont 1 src (max - 1) (Z.land c 0x1f) 1
      else if Z.land c 0xf0 =? 0xe0 then utf8_cont 2 src (max - 1) (Z.land c 0x0f) 1
      else if Z.land c 0xf8 =? 0xf0 then utf8_cont 3 src (max - 1) (Z.land c 0x07) 1
      else n ← skip_conts src (max - 1) 1; Some (n, replacement)
  end.

Definition ucs4ToUTF16 (src : Z) : list Z :=
  if (src <? 0xd800) || ((0xe000 <=? src) && (src <? 0x10000)) then [src]
  else if (0x10000 <=? src) && (src <? 0x110000) then
    let src := src - 0x10000 in
    [Z.lor 0xd800 (Z.land (Z.shiftr src 10) 0x03ff); Z.lor 0xdc00 (Z.land src 0x03ff)]
  else [replacement].

(** [while ((max > 0) && ( *src & 0x0400))] *)
Fixpoint skip_low (src : list Z) (max consumed : Z) : option Z :=
  if max <=? 0 then Some consumed
  else match src with
  | [] => None
  | c :: src =>
      if negb (Z.land c 0x0400 =? 0) then skip_low src (max - 1) (consumed + 1)
      else Some consumed
  end.

Definition utf16ToUCS4 (src : list Z) (max : Z) : option (Z * Z) :=
  if max =? 0 then Some (0, replacement)
  else match src with
  | [] => None
  | c :: src' =>
      if (c <? 0xd800) || (0xe000 <=? c) then Some (1, c)
      else if negb (Z.land c 0x0400 =? 0) then n ← skip_low src max 0; Some (n, replacement)
      else if max - 1 =? 0 then Some (1, replacement)
      else match src' with
      | [] => None
      | d :: _ =>
          if negb (Z.land d 0xfc00 =? 0xdc00) then Some (1, replacement)
          else Some (2, Z.lor (0x10000 + Z.shiftl (Z.land c 0x03ff) 10) (Z.land d 0x3ff))
      end
  end.

(** [while ((in_len > 0) && ( *in != '\0'))] with one decoder call per round:
    the code points decoded.  [in_len] is a [size_t]. *)
Fixpoint decode_loop (decode : list Z -> Z -> option (Z * Z)) (fuel : nat)
    (inp : list Z) (in_len : Z) : option (list Z) :=
  match fuel with
  | O => None
  | S fuel =>
      if in_len =? 0 then Some []
      else match inp with
      | [] => None
      | c :: _ =>
          if c =? 0 then Some []
          else '(n, ucs) ← decode inp in_len;
               rest ← decode_loop decode fuel (zdrop n inp) (u64 (in_len - n));
               Some (ucs :: rest)
      end
  end.

(** The default argument [bytes = (size_t)-1]: up to the terminator. *)
Definition npos : Z := 2 ^ 64 - 1.

Definition utf8_codepoints (src : list Z) (bytes : Z) : option (list Z) :=
  decode_loop utf8ToUCS4 (S (length src)) src bytes.
Definition utf16_codepoints (src : list Z) (units : Z) : option (list Z) :=
  decode_loop utf16ToUCS4 (S (length src)) src units.

Definition utf8ToLatin1 (src : list Z) (bytes : Z) : option (list Z) :=
  cs ← utf8_codepoints src bytes; Some (map (fun ucs => if ucs >? 0xff then 63 else ucs) cs).

Definition utf8ToAscii (src : list Z) (bytes : Z) : option (list Z) :=
  cs ← utf8_codepoints src bytes; Some (map (fun ucs => if ucs <=? 0x7f then ucs else 63) cs).

(** [out += buf], with [buf] the encoding of a code point: [buf] is taken up to
    its terminator, so that code point 0 adds nothing. *)
Definition plus_buf (encode : Z -> list Z) (ucs : Z) : list Z := if ucs =? 0 then [] else encode ucs.

Definition utf8ToUTF16 (src : list Z) (bytes : Z) : option (list Z) :=
  cs ← utf8_codepoints src bytes; Some (concat (map (plus_buf ucs4ToUTF16) cs)).

Definition utf16ToUTF8 (src : list Z) (units : Z) : option (list Z) :=
  cs ← utf16_codepoints src units; Some (concat (map (plus_buf ucs4ToUTF8) cs)).

(** [while ((in_len > 0) && ( *in != '\0'))], one byte per round. *)
Fixpoint latin1ToUTF8 (src : list Z) (bytes : Z) : option (list Z) :=
  if bytes =? 0 then Some []
  else match src with
  | [] => None
  | c :: src =>
      if c =? 0 then Some []
      else rest ← latin1ToUTF8 src (bytes - 1); Some (ucs4ToUTF8 c ++ rest)
  end.

(** The validity loops: they stop at the first replacement character. *)
Fixpoint valid_loop (decode : list Z -> Z -> option (Z * Z)) (fuel : nat)
    (str : list Z) (bytes : Z) : option bool :=
  match fuel with
  | O => None
  | S fuel =>
      if bytes =? 0 then Some true
      else match str with
      | [] => None
      | c :: _ =>
          if c =? 0 then Some true
          else '(n, ucs) ← decode str bytes;
               if ucs =? replacement then Some false
               else valid_loop decode fuel (zdrop n str) (u64 (bytes - n))
      end
  end.

Definition isValidUTF8 (str : list Z) (bytes : Z) : option bool :=
  valid_loop utf8ToUCS4 (S (length str)) str bytes.
Definition isValidUTF16 (str : list Z) (units : Z) : option bool :=
  valid_loop utf16ToUCS4 (S (length str)) str units.

(** [bytes] is tested, and never changed. *)
Fixpoint isValidAscii (str : list Z) (bytes : Z) : option bool :=
  if bytes =? 0 then Some true
  else match str with
  | [] => None
  | c :: str =>
      if c =? 0 then Some true
      else if negb (c <? 128) then Some false else isValidAscii str bytes
  end.

(** ** Properties *)

(** *** UTF-8 *)

(** The Unicode scalar values. *)
Definition scalar (c : Z) : Prop := 0 <= c < 0x110000 /\ ~ (0xd800 <= c < 0xe000).

Lemma cont_byte x : 0 <= x < 64 -> is_cont (Z.lor 0x80 x) = true.
Proof. intros H. by_bytes x H. Qed.

Lemma cont_bits x : 0 <= x < 64 -> Z.land (Z.lor 0x80 x) 0x3f = x.
Proof. intros H. by_bytes x H. Qed.

(** One continuation byte shifts six more bits in. *)
Lemma utf8_cont_shift k x src max dst n :
  0 < max -> 0 <= x < 64 -> 0 <= dst < 2 ^ 26 ->
  utf8_cont (S k) (Z.lor 0x80 x :: src) max dst n = utf8_cont k src (max - 1) (dst * 64 + x) (n + 1).
Proof.
  intros Hm Hx Hd. cbn. rewrite cont_byte, cont_bits by done.
  rewrite (proj2 (Z.eqb_neq max 0)) by lia. cbn. f_equal.
  replace (dst * 64 + x) with (Z.lor (Z.shiftl dst 6) x) by (rewrite lor_shiftl_add; lia).
  f_equal. rewrite Z.shiftl_mul_pow2 by lia. apply u32_id. lia.
Qed.

Lemma utf8_lead1 c src max : 0 < max -> 0 <= c < 0x80 ->
  utf8ToUCS4 (c :: src) max = utf8_cont 0 src (max - 1) c 1.
Proof.
  intros Hm Hc. unfold utf8ToUCS4. rewrite (proj2 (Z.eqb_neq max 0)) by lia.
  assert (Z.land c 0x80 = 0) as -> by by_bytes c Hc. done.
Qed.

Lemma utf8_lead2 x src max : 0 < max -> 0 <= x < 32 ->
  utf8ToUCS4 (Z.lor 0xc0 x :: src) max = utf8_cont 1 src (max - 1) x 1.
Proof.
  intros Hm Hc. unfold utf8ToUCS4. rewrite (proj2 (Z.eqb_neq max 0)) by lia.
  assert (Z.land (Z.lor 0xc0 x) 0x80 = 0x80) as -> by by_bytes x Hc.
  assert (Z.land (Z.lor 0xc0 x) 0xe0 = 0xc0) as -> by by_bytes x Hc.
  assert (Z.land (Z.lor 0xc0 x) 0x1f = x) as -> by by_bytes x Hc. done.
Qed.

Lemma utf8_lead3 x src max : 0 < max -> 0 <= x < 16 ->
  utf8ToUCS4 (Z.lor 0xe0 x :: src) max = utf8_cont 2 src (max - 1) x 1.
Proof.
  intros Hm Hc. unfold utf8ToUCS4. rewrite (proj2 (Z.eqb_neq max 0)) by lia.
  assert (Z.land (Z.lor 0xe0 x) 0x80 = 0x80) as -> by by_bytes x Hc.
  assert (Z.land (Z.lor 0xe0 x) 0xe0 = 0xe0) as -> by by_bytes x Hc.
  assert (Z.land (Z.lor 0xe0 x) 0xf0 = 0xe0) as -> by by_bytes x Hc.
  assert (Z.land (Z.lor 0xe0 x) 0x0f = x) as -> by by_bytes x Hc. done.
Qed.

Lemma utf8_lead4 x src max : 0 < max -> 0 <= x < 8 ->
  utf8ToUCS4 (Z.lor 0xf0 x :: src) max = utf8_cont 3 src (max - 1) x 1.
Proof.
  intros Hm Hc. unfold utf8ToUCS4. rewrite (proj2 (Z.eqb_neq max 0)) by lia.
  assert (Z.land (Z.lor 0xf0 x) 0x80 = 0x80) as -> by by_bytes x Hc.
  assert (Z.land (Z.lor 0xf0 x) 0xe0 = 0xe0) as -> by by_bytes x Hc.
  assert (Z.land (Z.lor 0xf0 x) 0xf0 = 0xf0) as -> by by_bytes x Hc.
  assert (Z.land (Z.lor 0xf0 x) 0xf8 = 0xf0) as -> by by_bytes x Hc.
  assert (Z.land (Z.lor 0xf0 x) 0x07 = x) as -> by by_bytes x Hc. done.
Qed.

Lemma utf8_cont_done src max dst n : ~ (0xd800 <= dst < 0xe000) ->
  utf8_cont 0 src max dst n = Some (n, dst).
Proof. intros H. cbn. case_test; [lia|done]. Qed.

(** The decoder inverts the encoder, whatever follows. *)
Lemma utf8_decode_encode c rest max : scalar c -> len (ucs4ToUTF8 c) <= max ->
  utf8ToUCS4 (ucs4ToUTF8 c ++ rest) max = Some (len (ucs4ToUTF8 c), c).
Proof.
  intros [Hr Hs] Hm. unfold ucs4ToUTF8 in *. rewrite !shiftr_div, !land_63 in * by lia.
  repeat case_test; try lia; cbn [app] in *; autorewrite with len in *.
  - rewrite utf8_lead1, utf8_cont_done by lia. done.
  - rewrite utf8_lead2, utf8_cont_shift, utf8_cont_done by zlia. f_equal. f_equal; zlia.
  - rewrite utf8_lead3, !utf8_cont_shift, utf8_cont_done by zlia. f_equal. f_equal; zlia.
  - rewrite utf8_lead4, !utf8_cont_shift, utf8_cont_done by zlia. f_equal. f_equal; zlia.
Qed.

Lemma lor_nonzero a b : 0 < a -> Z.lor a b <> 0.
Proof. intros Ha Heq%Z.lor_eq_0_iff. lia. Qed.

Lemma ucs4ToUTF8_lead c : c <> 0 -> exists b l, ucs4ToUTF8 c = b :: l /\ b <> 0.
Proof.
  intros H0. unfold ucs4ToUTF8.
  repeat case_test; do 2 eexists; (split; [reflexivity|]); first [done|by apply lor_nonzero].
Qed.

Definition utf8_text (cs : list Z) : list Z := concat (map ucs4ToUTF8 cs).

(** Where a buffer may be read: [max] bytes of it, or up to a terminator. *)
Inductive readable : list Z -> Z -> Prop :=
| rd_end src : readable src 0
| rd_nul src max : 0 <= max -> readable (0 :: src) max
| rd_cons c src max : 0 < max -> readable src (max - 1) -> readable (c :: src) max.

Lemma readable_bounded src max : 0 <= max <= len src -> readable src max.
Proof.
  revert max. induction src as [|c src IH]; intros max H; autorewrite with len in H.
  - assert (max = 0) as -> by lia. constructor.
  - destruct (Z.eq_dec max 0) as [->|]; [constructor|]. apply rd_cons; [lia|]. apply IH. lia.
Qed.

Lemma readable_cstring text rest max : 0 <= max -> readable (text ++ 0 :: rest) max.
Proof.
  revert max. induction text as [|c text IH]; intros max H; cbn; [by apply rd_nul|].
  destruct (Z.eq_dec max 0) as [->|]; [constructor|]. apply rd_cons; [lia|]. apply IH. lia.
Qed.

(** The end of a text: exactly where [bytes] runs out, or at a terminator. *)
Definition ends_text (tail : list Z) (rest : Z) : Prop :=
  rest = 0 \/ (exists l, tail = 0 :: l) /\ 0 < rest.

(** A multi-unit encoding and its decoder: what the loops below need of them. *)
Section text.
Context (enc : Z -> list Z) (decode : list Z -> Z -> option (Z * Z)).
Context (decode_enc : forall c rest max, scalar c -> len (enc c) <= max ->
  decode (enc c ++ rest) max = Some (len (enc c), c)).
Context (enc_lead : forall c, c <> 0 -> exists b l, enc c = b :: l /\ b <> 0).

Lemma decode_text cs tail fuel max :
  Forall (fun c => scalar c /\ c <> 0) cs -> (length cs < fuel)%nat ->
  len (concat (map enc cs)) <= max < 2 ^ 64 -> ends_text tail (max - len (concat (map enc cs))) ->
  decode_loop decode fuel (concat (map enc cs) ++ tail) max = Some cs.
Proof.
  intros Hcs. revert fuel max. induction Hcs as [|c cs [Hc H0] Hcs IH]; intros fuel max Hf Hm He;
    (destruct fuel as [|fuel]; [cbn in Hf; lia|]); cbn [decode_loop].
  - cbn in *. rewrite Z.sub_0_r in He. destruct He as [->|[[l ->] He]]; [done|].
    by rewrite (proj2 (Z.eqb_neq max 0)) by lia.
  - cbn [map concat] in *. rewrite len_app in *.
    destruct (enc_lead c H0) as (b & l & Hbl & Hb).
    pose proof (len_nonneg (concat (map enc cs))).
    assert (1 <= len (enc c)) by (rewrite Hbl; llia).
    rewrite (proj2 (Z.eqb_neq max 0)), <- app_assoc by lia.
    rewrite decode_enc by (done || lia). cbn.
    rewrite zdrop_app by done. unfold u64. rewrite Z.mod_small by lia.
    rewrite Hbl at 1. cbn. rewrite (proj2 (Z.eqb_neq b 0)) by done.
    rewrite IH; [done|cbn in Hf; lia|lia|]. unfold ends_text in *. by rewrite <- Z.sub_add_distr.
Qed.

Lemma length_text cs : Forall (fun c => scalar c /\ c <> 0) cs ->
  (length cs <= length (concat (map enc cs)))%nat.
Proof.
  induction 1 as [|c cs [_ H0] _ IH]; [done|]. cbn. rewrite length_app.
  destruct (enc_lead c H0) as (b & l & -> & _). cbn. lia.
Qed.

(** Decoding an encoded, terminated text gives its code points back. *)
Lemma decode_cstring cs rest :
  Forall (fun c => scalar c /\ c <> 0) cs -> len (concat (map enc cs)) < npos ->
  decode_loop decode (S (length (concat (map enc cs) ++ 0 :: rest)))
    (concat (map enc cs) ++ 0 :: rest) npos = Some cs.
Proof.
  intros Hcs Hl. pose proof (len_nonneg (concat (map enc cs))). unfold npos in *.
  pose proof (length_text cs Hcs).
  apply decode_text; [done|rewrite length_app; cbn; lia|lia|].
  right. split; [by eexists|lia].
Qed.
End text.

Lemma utf8_codepoints_text cs rest :
  Forall (fun c => scalar c /\ c <> 0) cs -> len (utf8_text cs) < npos ->
  utf8_codepoints (utf8_text cs ++ 0 :: rest) npos = Some cs.
Proof. apply decode_cstring; [apply utf8_decode_encode|apply ucs4ToUTF8_lead]. Qed.

(** *** UTF-16 *)

Lemma high_surrogate x : 0 <= x < 1024 -> Z.land (Z.lor 0xd800 x) 0x0400 = 0 /\
  Z.land (Z.lor 0xd800 x) 0x03ff = x /\ 0xd800 <= Z.lor 0xd800 x < 0xdc00.
Proof. intros H. by_range 1024 x H. Qed.

Lemma low_surrogate x : 0 <= x < 1024 ->
  Z.land (Z.lor 0xdc00 x) 0xfc00 = 0xdc00 /\ Z.land (Z.lor 0xdc00 x) 0x3ff = x.
Proof. intros H. by_range 1024 x H. Qed.

Lemma ucs4ToUTF16_bmp c : scalar c -> c < 0x10000 -> ucs4ToUTF16 c = [c].
Proof.
  intros [Hr Hs] Hc. unfold ucs4ToUTF16.
  destruct (Z.ltb_spec c 0xd800), (Z.leb_spec 0xe000 c), (Z.ltb_spec c 0x10000); cbn; done || lia.
Qed.

Lemma ucs4ToUTF16_pair c : 0x10000 <= c < 0x110000 -> ucs4ToUTF16 c =
  [Z.lor 0xd800 ((c - 0x10000) / 1024 mod 1024); Z.lor 0xdc00 ((c - 0x10000) mod 1024)].
Proof.
  intros Hc. unfold ucs4ToUTF16. rewrite shiftr_div, !land_1023 by lia.
  rewrite (proj2 (Z.ltb_ge c 0xd800)), (proj2 (Z.ltb_ge c 0x10000)) by lia.
  rewrite andb_false_r, (proj2 (Z.leb_le _ c)), (proj2 (Z.ltb_lt c _)) by lia. done.
Qed.

Lemma utf16_decode_encode c rest max : scalar c -> len (ucs4ToUTF16 c) <= max ->
  utf16ToUCS4 (ucs4ToUTF16 c ++ rest) max = Some (len (ucs4ToUTF16 c), c).
Proof.
  intros Hs Hm. destruct (Z.lt_ge_cases c 0x10000) as [Hc|Hc].
  - rewrite ucs4ToUTF16_bmp in * by done. unfold utf16ToUCS4, scalar in *. cbn [app].
    rewrite (proj2 (Z.eqb_neq max 0)) by llia.
    by destruct (Z.ltb_spec c 0xd800), (Z.leb_spec 0xe000 c); cbn; try done; lia.
  - assert (0x10000 <= c < 0x110000) as Hr by (unfold scalar in Hs; lia).
    rewrite ucs4ToUTF16_pair in * by done.
    set (x := (c - 0x10000) / 1024 mod 1024) in *. set (y := (c - 0x10000) mod 1024) in *.
    assert (0 <= x < 1024 /\ 0 <= y < 1024) as [Hx Hy] by (unfold x, y; zlia).
    destruct (high_surrogate x Hx) as (E1 & E2 & E3), (low_surrogate y Hy) as [E4 E5].
    unfold utf16ToUCS4. cbn [app]. rewrite (proj2 (Z.eqb_neq max 0)) by llia.
    rewrite (proj2 (Z.ltb_ge (Z.lor _ x) _)), (proj2 (Z.leb_gt 0xe000 _)) by lia.
    rewrite E1, E2, E4, E5. cbn [orb negb Z.eqb]. rewrite (proj2 (Z.eqb_neq (max - 1) 0)) by llia.
    f_equal. f_equal. replace (0x10000 + Z.shiftl x 10) with (Z.shiftl (64 + x) 10)
      by (rewrite !Z.shiftl_mul_pow2; lia).
    rewrite lor_shiftl_add by lia. unfold x, y. zlia.
Qed.

Lemma ucs4ToUTF16_lead c : c <> 0 -> exists b l, ucs4ToUTF16 c = b :: l /\ b <> 0.
Proof.
  intros H0. unfold ucs4ToUTF16.
  repeat case_test; do 2 eexists; (split; [reflexivity|]); first [done|by apply lor_nonzero].
Qed.

Definition utf16_text (cs : list Z) : list Z := concat (map ucs4ToUTF16 cs).

Lemma utf16_codepoints_text cs rest :
  Forall (fun c => scalar c /\ c <> 0) cs -> len (utf16_text cs) < npos ->
  utf16_codepoints (utf16_text cs ++ 0 :: rest) npos = Some cs.
Proof. apply decode_cstring; [apply utf16_decode_encode|apply ucs4ToUTF16_lead]. Qed.

(** *** Latin-1 *)

Lemma latin1_utf8_text s : Forall (fun c => 0 < c < 256) s ->
  latin1ToUTF8 s (len s) = Some (utf8_text s).
Proof.
  induction 1 as [|c s Hc _ IH]; [done|]. cbn [latin1ToUTF8]. rewrite len_cons.
  pose proof (len_nonneg s). rewrite (proj2 (Z.eqb_neq _ 0)) by lia.
  rewrite (proj2 (Z.eqb_neq c 0)) by lia.
  by replace (1 + len s - 1) with (len s) by lia; rewrite IH.
Qed.

Lemma utf8_text_latin1_length s : Forall (fun c => 0 < c < 256) s -> len (utf8_text s) <= 2 * len s.
Proof.
  induction 1 as [|c s Hc _ IH]; [done|]. unfold utf8_text in *. cbn [map concat].
  rewrite len_app, len_cons. assert (len (ucs4ToUTF8 c) <= 2); [|lia].
  unfold ucs4ToUTF8. repeat case_test; llia.
Qed.

Lemma latin1_chars_scalar s : Forall (fun c => 0 < c < 256) s -> Forall (fun c => scalar c /\ c <> 0) s.
Proof. intros H. eapply Forall_impl; [|exact H]. unfold scalar. cbn. lia. Qed.

Lemma latin1_map_id s : Forall (fun c => 0 < c < 256) s ->
  map (fun ucs => if ucs >? 0xff then 63 else ucs) s = s.
Proof.
  induction 1 as [|c s Hc _ IH]; [done|]. cbn. rewrite IH. by destruct (Z.gtb_spec c 255); [lia|].
Qed.

(** *** The validator reads only what it may *)

Lemma utf8_cont_safe count src max dst n : readable src max -> 0 <= max ->
  exists n' u, utf8_cont count src max dst n = Some (n', u) /\ n <= n' /\
    (u <> replacement -> n' - n <= max /\ readable (zdrop (n' - n) src) (max - (n' - n))).
Proof.
  revert src max dst n. induction count as [|count IH]; intros src max dst n Hr Hm; cbn [utf8_cont].
  - do 2 eexists. split; [reflexivity|]. split; [lia|]. intros _. rewrite Z.sub_diag, Z.sub_0_r. done.
  - case_test; [by do 2 eexists; split; [reflexivity|split; [lia|done]]|].
    inversion Hr as [| |c src' ? ? Hr']; subst; [done|by do 2 eexists; split; [reflexivity|split; [lia|done]]|].
    case_test; [by do 2 eexists; split; [reflexivity|split; [lia|done]]|].
    destruct (IH src' (max - 1) (Z.lor (u32 (Z.shiftl dst 6)) (Z.land c 0x3f)) (n + 1) Hr' ltac:(lia))
      as (n' & u & -> & Hn & Hu).
    exists n', u. split; [done|]. split; [lia|]. intros Hne. destruct (Hu Hne) as [H1 H2]. split; [lia|].
    replace (zdrop (n' - n) (c :: src')) with (zdrop (n' - (n + 1)) src').
    2: { unfold zdrop. replace (Z.to_nat (n' - n)) with (S (Z.to_nat (n' - (n + 1)))) by lia. done. }
    by replace (max - (n' - n)) with (max - 1 - (n' - (n + 1))) by lia.
Qed.

Lemma skip_conts_safe src max n : readable src max -> 0 <= max -> exists n', skip_conts src max n = Some n'.
Proof.
  intros Hr. revert n. induction Hr as [src|src max Hm|c src max Hm Hr IH]; intros n H; cbn [skip_conts].
  - by destruct src; eexists.
  - case_test; [by eexists|]. by eexists.
  - case_test; [by eexists|]. case_test; [apply IH; lia|by eexists].
Qed.

Lemma utf8ToUCS4_safe c src max : 0 < max -> readable src (max - 1) ->
  exists n u, utf8ToUCS4 (c :: src) max = Some (n, u) /\
    (u <> replacement -> 1 <= n <= max /\ readable (zdrop n (c :: src)) (max - n)).
Proof.
  intros Hm Hr. unfold utf8ToUCS4. rewrite (proj2 (Z.eqb_neq max 0)) by lia.
  assert (forall k d, exists n u, utf8_cont k src (max - 1) d 1 = Some (n, u) /\
    (u <> replacement -> 1 <= n <= max /\ readable (zdrop n (c :: src)) (max - n))) as Hk.
  { intros k d. destruct (utf8_cont_safe k src (max - 1) d 1 Hr ltac:(lia)) as (n & u & -> & Hn & Hu).
    exists n, u. split; [done|]. intros Hne. destruct (Hu Hne) as [H1 H2]. split; [lia|].
    replace (zdrop n (c :: src)) with (zdrop (n - 1) src).
    2: { unfold zdrop. replace (Z.to_nat n) with (S (Z.to_nat (n - 1))) by lia. done. }
    by replace (max - n) with (max - 1 - (n - 1)) by lia. }
  repeat (case_test; [apply Hk|]).
  destruct (skip_conts_safe src (max - 1) 1 Hr ltac:(lia)) as [n ->]. by exists n, replacement.
Qed.

Lemma valid_loop_total fuel str max : readable str max -> 0 <= max < 2 ^ 64 ->
  (length str < fuel)%nat -> exists b, valid_loop utf8ToUCS4 fuel str max = Some b.
Proof.
  revert str max. induction fuel as [|fuel IH]; intros str max Hr Hm Hf; [lia|]. cbn [valid_loop].
  case_test; [by eexists|].
  inversion Hr as [| |c src ? ? Hr']; subst; [done|by eexists|].
  case_test; [by eexists|].
  destruct (utf8ToUCS4_safe c src max ltac:(lia) Hr') as (n & u & -> & Hu). cbn.
  case_test; [by eexists|]. destruct (Hu ltac:(done)) as [Hn Hr2].
  unfold u64. rewrite Z.mod_small by lia. apply IH; [done|lia|].
  unfold zdrop. rewrite length_drop. cbn in *. lia.
Qed.

(** What the validator accepts, the converters can decode. *)
Lemma valid_loop_decodes decode fuel str max :
  valid_loop decode fuel str max = Some true ->
  exists cs, decode_loop decode fuel str max = Some cs /\ ~ In replacement cs.
Proof.
  revert str max. induction fuel as [|fuel IH]; intros str max H; cbn in *; [done|].
  case_test; [by exists []; auto|]. destruct str as [|c str]; [done|].
  case_test; [by exists []; auto|].
  destruct (decode (c :: str) max) as [[n u]|]; cbn in *; [|done].
  destruct (Z.eqb_spec u replacement); [done|].
  destruct (IH _ _ H) as (cs & -> & Hn). exists (u :: cs). split; [done|]. by intros [|].
Qed.

(** *** Line endings *)

Lemma convertLF_CRLF_from prev l : convertLF (convertCRLF_from prev l) = convertLF l.
Proof.
  revert prev. induction l as [|c l IH]; intros prev; [done|]. cbn [convertCRLF_from convertLF].
  destruct (Z.eqb_spec c 0) as [->|H0]; [done|].
  destruct (Z.eqb_spec c CR) as [->|HCR].
  - change (CR =? LF) with false. cbn [andb app]. destruct (starts_with_LF l) eqn:Hl; cbn [negb app].
    + destruct l as [|d l]; [done|]. cbn in Hl. apply Z.eqb_eq in Hl as ->.
      change (convertLF (CR :: convertCRLF_from CR (LF :: l)) = convertLF (LF :: l)).
      rewrite <- (IH CR). reflexivity.
    + change (LF :: convertLF (convertCRLF_from CR l) = LF :: convertLF l). by rewrite IH.
  - rewrite andb_false_l. cbn [app]. destruct (Z.eqb_spec c LF) as [->|HLF]; cbn [andb].
    + destruct (prev =? CR); cbn [negb app].
      * change (LF :: convertLF (convertCRLF_from LF l) = LF :: convertLF l). by rewrite IH.
      * change (LF :: convertLF (convertCRLF_from LF l) = LF :: convertLF l). by rewrite IH.
    + cbn [app convertLF]. rewrite (proj2 (Z.eqb_neq c 0)), (proj2 (Z.eqb_neq c CR)) by done.
      cbn [negb]. by rewrite IH.
Qed.

(** The character before only matters to a line feed. *)
Lemma convertCRLF_from_prev p q l :
  starts_with_LF l = false \/ p <> CR /\ q <> CR -> convertCRLF_from p l = convertCRLF_from q l.
Proof.
  destruct l as [|c l]; [done|]. cbn. intros [Hl|[Hp Hq]].
  - by rewrite Hl.
  - by rewrite (proj2 (Z.eqb_neq p CR)), (proj2 (Z.eqb_neq q CR)).
Qed.

Lemma convertCRLF_LF_from prev l : prev <> CR ->
  convertCRLF_from prev (convertLF l) = convertCRLF_from prev l.
Proof.
  revert prev. induction l as [|c l IH]; intros prev Hp; [done|]. cbn [convertLF].
  destruct (Z.eqb_spec c 0) as [->|H0]; [done|].
  destruct (Z.eqb_spec c CR) as [->|HCR]; cbn [negb].
  - destruct (starts_with_LF l) eqn:Hl; cbn [negb].
    + rewrite IH by done. destruct l as [|d l]; [done|]. cbn in Hl. apply Z.eqb_eq in Hl as ->.
      cbn. by rewrite (proj2 (Z.eqb_neq prev CR)).
    + cbn [convertCRLF_from]. rewrite (proj2 (Z.eqb_neq prev CR)), Hl, IH by done.
      change (CR :: LF :: convertCRLF_from LF l = CR :: LF :: convertCRLF_from CR l).
      do 2 f_equal. apply convertCRLF_from_prev. by left.
  - cbn [convertCRLF_from]. rewrite (proj2 (Z.eqb_neq c 0)), (proj2 (Z.eqb_neq c CR)), IH by done. done.
Qed.

Lemma convertLF_clean l : ~ In CR (convertLF l) /\ ~ In 0 (convertLF l).
Proof.
  induction l as [|c l [IH1 IH2]]; [by split; intros []|]. cbn.
  destruct (Z.eqb_spec c 0); [by split; intros []|].
  destruct (Z.eqb_spec c CR); cbn [negb].
  - destruct (starts_with_LF l); cbn; [done|]. unfold CR, LF in *. naive_solver lia.
  - cbn. unfold CR in *. naive_solver.
Qed.

(** *** Hexadecimal *)

Lemma tolower_hex d : 0 <= d < 16 -> tolower (intToHex d) = intToHex d.
Proof. intros H. by_range 16 d H. Qed.

Lemma readHexAndShift_digit d v : 0 <= d < 16 -> 0 <= v < 16 ->
  readHexAndShift (intToHex d) v = Some (v * 16 + d).
Proof.
  intros Hd Hv. unfold readHexAndShift. rewrite tolower_hex, Z.shiftl_mul_pow2 by lia.
  unfold intToHex. destruct (Z.leb_spec d 9).
  - rewrite (proj2 (Z.leb_le 48 _)), (proj2 (Z.leb_le _ 57)) by lia. cbn [andb].
    f_equal. rewrite u8_id; lia.
  - rewrite (proj2 (Z.leb_gt _ 57)), andb_false_r by lia.
    rewrite (proj2 (Z.leb_le 97 _)), (proj2 (Z.leb_le _ 102)) by lia. cbn [andb].
    f_equal. rewrite u8_id; lia.
Qed.

Lemma hex_pairs_roundtrip l : bytes l ->
  hex_pairs (concat (map (fun b => [intToHex (Z.land (Z.shiftr b 4) 15); intToHex (Z.land b 15)]) l)) = Some l.
Proof.
  induction 1 as [|b l Hb _ IH]; [done|]. unfold is_byte in Hb.
  change 15 with (Z.ones 4) in *. cbn [map concat app hex_pairs].
  rewrite !land_mask, shiftr_div in * by lia.
  rewrite readHexAndShift_digit by zlia. cbn. rewrite readHexAndShift_digit by zlia. cbn.
  rewrite IH. cbn. f_equal. f_equal. zlia.
Qed.

Lemma len_hex_text l :
  len (concat (map (fun b => [intToHex (Z.land (Z.shiftr b 4) 15); intToHex (Z.land b 15)]) l)) = len l * 2.
Proof. induction l as [|b l IH]; [done|]. cbn [map concat app]. rewrite !len_cons, IH. lia. Qed.

(** *** Splitting *)

Definition join (delimiter : Z) (pieces : list (list Z)) : list Z :=
  match pieces with
  | [] => []
  | p :: ps => p ++ concat (map (fun q => delimiter :: q) ps)
  end.

Lemma strchr_split_spec l d : match strchr_split l d with
  | (a, None) => l = a /\ ~ In d a
  | (a, Some r) => l = a ++ d :: r /\ ~ In d a /\ (length r < length l)%nat
  end.
Proof.
  induction l as [|c l IH]; [by split; [|intros []]|]. cbn.
  destruct (Z.eqb_spec c d) as [->|Hne]; [by cbn; repeat split; [intros []|lia]|].
  destruct (strchr_split l d) as [a [r|]]; cbn in *; naive_solver lia.
Qed.

Lemma strchr_split_end l d : ~ In d l -> fst (strchr_split (l ++ [d]) d) = l.
Proof.
  induction l as [|c l IH]; intros Hn; cbn; [by rewrite Z.eqb_refl|].
  destruct (Z.eqb_spec c d) as [->|]; [destruct Hn; by left|].
  rewrite <- (IH ltac:(intros H; apply Hn; by right)) at 2. by destruct (strchr_split (l ++ [d]) d).
Qed.

Lemma split_loop_spec fuel l d : (length l < fuel)%nat ->
  join d (split_loop fuel l d) = l /\ Forall (fun p => ~ In d p) (split_loop fuel l d) /\
  split_loop fuel l d <> [].
Proof.
  revert l. induction fuel as [|fuel IH]; intros l Hf; [lia|]. cbn [split_loop].
  pose proof (strchr_split_spec l d) as H. destruct (strchr_split l d) as [a [r|]].
  - destruct H as (-> & Ha & Hr). destruct (IH r ltac:(lia)) as (Hj & Hall & Hne).
    repeat split; [|by constructor|done].
    destruct (split_loop fuel r d) as [|p ps]; [done|]. cbn in *. by rewrite Hj.
  - destruct H as [-> Ha]. cbn. rewrite app_nil_r. by repeat constructor.
Qed.

Lemma plus_buf_nonzero encode cs : Forall (fun c => scalar c /\ c <> 0) cs ->
  concat (map (plus_buf encode) cs) = concat (map encode cs).
Proof.
  induction 1 as [|c cs [_ Hc] _ IH]; [done|]. cbn. rewrite IH. unfold plus_buf. by rewrite (proj2 (Z.eqb_neq _ _) Hc).
Qed.

(** An overlong form of code point 0, which the decoder lets through. *)
Lemma overlong_zero : utf8ToUTF16 [0x61; 0xc0; 0x80; 0x62; 0] npos = Some [0x61; 0x62] /\
  utf8ToLatin1 [0x61; 0xc0; 0x80; 0x62; 0] npos = Some [0x61; 0; 0x62].
Proof. split; vm_compute; reflexivity. Qed.

(** ** The properties of the module *)

(** C31: text survives the trip through UTF-16 and back: for every sequence of
    non-zero Unicode scalar values, [utf8ToUTF16] of its terminated UTF-8 form
    is its UTF-16 form, and [utf16ToUTF8] of that the UTF-8 text again. *)
Theorem utf8_utf16_roundtrip (cs rest rest' : list Z) :
  Forall (fun c => scalar c /\ c <> 0) cs ->
  len (utf8_text cs) < npos -> len (utf16_text cs) < npos ->
  utf8ToUTF16 (utf8_text cs ++ 0 :: rest) npos = Some (utf16_text cs) /\
  utf16ToUTF8 (utf16_text cs ++ 0 :: rest') npos = Some (utf8_text cs).
Proof.
  intros Hcs H8 H16. unfold utf8ToUTF16, utf16ToUTF8.
  rewrite utf8_codepoints_text, utf16_codepoints_text by done. cbn. by rewrite !plus_buf_nonzero.
Qed.

Lemma utf8_utf16_roundtrip_witness :
  utf8ToUTF16 (utf8_text [0x61; 0xf6; 0x263a; 0x1f638] ++ [0]) npos =
    Some [0x61; 0xf6; 0x263a; 0xd83d; 0xde38] /\
  utf16ToUTF8 (utf16_text [0x61; 0xf6; 0x263a; 0x1f638] ++ [0]) npos =
    Some [0x61; 0xc3; 0xb6; 0xe2; 0x98; 0xba; 0xf0; 0x9f; 0x98; 0xb8].
Proof.
  apply (utf8_utf16_roundtrip [0x61; 0xf6; 0x263a; 0x1f638] [] []); [|reflexivity..].
  repeat (constructor; [unfold scalar; split; lia|]). constructor.
Defined.

(** Latin-1 text, as the cut-text messages carry it, is converted to UTF-8
    and back without loss. *)
Theorem latin1_roundtrip (s rest : list Z) :
  Forall (fun c => 0 < c < 256) s -> 2 * len s < npos ->
  exists utf8, latin1ToUTF8 s (len s) = Some utf8 /\ utf8ToLatin1 (utf8 ++ 0 :: rest) npos = Some s.
Proof.
  intros Hs Hl. exists (utf8_text s). split; [by apply latin1_utf8_text|].
  pose proof (utf8_text_latin1_length s Hs). unfold utf8ToLatin1.
  rewrite utf8_codepoints_text by (done || lia || by apply latin1_chars_scalar). cbn.
  by rewrite latin1_map_id.
Qed.

Lemma latin1_roundtrip_witness :
  exists utf8, latin1ToUTF8 [0xe5; 0xe4; 0xf6] 3 = Some utf8 /\
               utf8ToLatin1 (utf8 ++ [0]) npos = Some [0xe5; 0xe4; 0xf6].
Proof.
  apply (latin1_roundtrip [0xe5; 0xe4; 0xf6] []); [|reflexivity].
  repeat (constructor; [lia|]). constructor.
Defined.

(** [isValidUTF8] never reads outside its buffer, whatever the bytes: given
    [bytes] readable bytes, or a terminator before that, it returns a verdict;
    and of a text it accepts no converter reads outside the buffer either. *)
Theorem isValidUTF8_memory_safe (str : list Z) (bytes : Z) :
  readable str bytes -> 0 <= bytes < 2 ^ 64 ->
  exists valid, isValidUTF8 str bytes = Some valid /\
    (valid = true -> is_Some (utf8ToLatin1 str bytes) /\ is_Some (utf8ToAscii str bytes) /\
                     is_Some (utf8ToUTF16 str bytes)).
Proof.
  intros Hr Hb. destruct (valid_loop_total (S (length str)) str bytes Hr Hb) as [b Hv]; [lia|].
  exists b. split; [done|]. intros ->.
  destruct (valid_loop_decodes _ _ _ _ Hv) as (cs & Hcs & _).
  unfold utf8ToLatin1, utf8ToAscii, utf8ToUTF16, utf8_codepoints. rewrite Hcs. cbn. eauto.
Qed.

Lemma isValidUTF8_memory_safe_witness :
  exists valid, isValidUTF8 [0xc3; 0xb6; 0xc3; 0] npos = Some valid /\
    (valid = true -> is_Some (utf8ToLatin1 [0xc3; 0xb6; 0xc3; 0] npos) /\
       is_Some (utf8ToAscii [0xc3; 0xb6; 0xc3; 0] npos) /\
       is_Some (utf8ToUTF16 [0xc3; 0xb6; 0xc3; 0] npos)).
Proof.
  apply (isValidUTF8_memory_safe [0xc3; 0xb6; 0xc3; 0] npos); [|unfold npos; lia].
  exact (readable_cstring [0xc3; 0xb6; 0xc3] [] npos ltac:(unfold npos; lia)).
Defined.

(** The converters have no such guarantee on text that was not validated: a
    truncated sequence makes [utf8ToUCS4] report more bytes than there are, the
    loops step over the terminator, and the next read is outside the buffer. *)
Lemma utf8ToUCS4_overconsumes : utf8ToUCS4 [0xc3] 1 = Some (2, replacement).
Proof. reflexivity. Qed.

Lemma utf8ToAscii_overread : utf8ToAscii [0xc3; 0] 1 = None /\ utf8ToAscii [0xc3; 0] npos = None.
Proof. split; vm_compute; reflexivity. Qed.

(** [isValidUTF8] answers [false] for the valid encoding of U+FFFD, and [true]
    for an overlong encoding and for a value above U+10FFFF. *)
Lemma isValidUTF8_inexact :
  isValidUTF8 (ucs4ToUTF8 replacement) 3 = Some false /\ isValidUTF8 [0xc1; 0x81] 2 = Some true /\
  isValidUTF8 [0xf7; 0xbf; 0xbf; 0xbf] 4 = Some true.
Proof. repeat split; vm_compute; reflexivity. Qed.

(** [isValidAscii] looks past the [bytes] it is given: the first byte of the
    buffer is ASCII, and the answer about it depends on the second. *)
Lemma isValidAscii_ignores_bytes : isValidAscii [0x61; 0xff; 0] 1 = Some false.
Proof. reflexivity. Qed.

(** The line-ending conversions agree on what a line is: converting to one
    form and then the other gives what converting directly gives, and
    [convertLF] leaves neither carriage return nor terminator. *)
Theorem line_endings_agree (src : list Z) :
  convertLF (convertCRLF src) = convertLF src /\
  convertCRLF (convertLF src) = convertCRLF src /\
  ~ In CR (convertLF src) /\ ~ In 0 (convertLF src).
Proof.
  split; [apply convertLF_CRLF_from|]. split; [by apply convertCRLF_LF_from|]. apply convertLF_clean.
Qed.

(** [hexToBin] inverts [binToHex] on every byte string, and refuses every
    text of odd length. *)
Theorem hex_roundtrip (data text : list Z) (outlen : Z) : bytes data ->
  hexToBin (binToHex data) = data /\
  (len text mod 2 = 1 -> hexToBin_into text outlen = None).
Proof.
  intros Hb. split.
  - unfold hexToBin, binToHex, binToHex_into, hexToBin_into.
    rewrite Z.div_mul by lia.
    replace (if len data >? len data then len data else len data) with (len data) by (by case_test).
    rewrite ztake_all, len_hex_text, Z.div_mul, land_1, Z.mod_mul by lia. cbn [Z.eqb].
    destruct (Z.gtb_spec (len data * 2) (len data * 2)); [lia|].
    rewrite <- (len_hex_text data), ztake_all. by rewrite hex_pairs_roundtrip.
  - intros Hodd. unfold hexToBin_into. by rewrite land_1, Hodd.
Qed.

Lemma hex_roundtrip_witness :
  hexToBin (binToHex [0; 0x1f; 0xa0; 0xff]) = [0; 0x1f; 0xa0; 0xff] /\
  (len [0x66] mod 2 = 1 -> hexToBin_into [0x66] 1 = None).
Proof.
  apply (hex_roundtrip [0; 0x1f; 0xa0; 0xff] [0x66] 1).
  repeat (constructor; [unfold is_byte; lia|]). constructor.
Defined.

(** [split] cuts at every delimiter and only there: joining the pieces
    gives the text back, and no piece contains the delimiter. *)
Theorem split_join (src : list Z) (delimiter : Z) :
  join delimiter (split src delimiter) = src /\
  Forall (fun piece => ~ In delimiter piece) (split src delimiter) /\
  (split src delimiter = [] <-> src = []).
Proof.
  unfold split. destruct src as [|c src]; [done|].
  destruct (split_loop_spec (S (length (c :: src))) (c :: src) delimiter) as (H1 & H2 & H3); [lia|].
  done.
Qed.
