(* ===== verification/D3des.v ===== *)
(** * The cipher behind VNC passwords ([common/rfb/d3des.c], [obfuscate.cxx])

    The data encryption standard in the form the program has it: an [unsigned
    long] has [w] bits, 32 or 64, and what is shifted out of it is lost.  Bits
    above the 32 of a half block are garbage that no result depends on, so
    [d3des_transform] computes the same function on both, and decrypting undoes
    encrypting for every key. *)
From stdpp Require Import base list numbers strings option.
From S2P Require Import Prelude.
#[local] Open Scope Z_scope.

(** ** Tables *)

Definition bytebit : list Z := [1; 2; 4; 8; 16; 32; 64; 128].

Definition bigbyte : list Z :=
  [0x800000; 0x400000; 0x200000; 0x100000; 0x80000; 0x40000; 0x20000; 0x10000;
   0x8000; 0x4000; 0x2000; 0x1000; 0x800; 0x400; 0x200; 0x100;
   0x80; 0x40; 0x20; 0x10; 0x8; 0x4; 0x2; 0x1].

Definition pc1 : list Z :=
  [56; 48; 40; 32; 24; 16; 8; 0; 57; 49; 41; 33; 25; 17;
   9; 1; 58; 50; 42; 34; 26; 18; 10; 2; 59; 51; 43; 35;
   62; 54; 46; 38; 30; 22; 14; 6; 61; 53; 45; 37; 29; 21;
   13; 5; 60; 52; 44; 36; 28; 20; 12; 4; 27; 19; 11; 3].

Definition totrot : list Z := [1; 2; 4; 6; 8; 10; 12; 14; 15; 17; 19; 21; 23; 25; 27; 28].

Definition pc2 : list Z :=
  [13; 16; 10; 23; 0; 4; 2; 27; 14; 5; 20; 9;
   22; 18; 11; 3; 25; 7; 15; 6; 26; 19; 12; 1;
   40; 51; 30; 36; 46; 54; 29; 39; 50; 44; 32; 47;
   43; 48; 38; 55; 33; 52; 45; 41; 49; 35; 28; 31].

Definition SP1 : list Z :=
  [0x01010400; 0x00000000; 0x00010000; 0x01010404; 0x01010004; 0x00010404; 0x00000004; 0x00010000;
   0x00000400; 0x01010400; 0x01010404; 0x00000400; 0x01000404; 0x01010004; 0x01000000; 0x00000004;
   0x00000404; 0x01000400; 0x01000400; 0x00010400; 0x00010400; 0x01010000; 0x01010000; 0x01000404;
   0x00010004; 0x01000004; 0x01000004; 0x00010004; 0x00000000; 0x00000404; 0x00010404; 0x01000000;
   0x00010000; 0x01010404; 0x00000004; 0x01010000; 0x01010400; 0x01000000; 0x01000000; 0x00000400;
   0x01010004; 0x00010000; 0x00010400; 0x01000004; 0x00000400; 0x00000004; 0x01000404; 0x00010404;
   0x01010404; 0x00010004; 0x01010000; 0x01000404; 0x01000004; 0x00000404; 0x00010404; 0x01010400;
   0x00000404; 0x01000400; 0x01000400; 0x00000000; 0x00010004; 0x00010400; 0x00000000; 0x01010004].

Definition SP2 : list Z :=
  [0x80108020; 0x80008000; 0x00008000; 0x00108020; 0x00100000; 0x00000020; 0x80100020; 0x80008020;
   0x80000020; 0x80108020; 0x80108000; 0x80000000; 0x80008000; 0x00100000; 0x00000020; 0x80100020;
   0x00108000; 0x00100020; 0x80008020; 0x00000000; 0x80000000; 0x00008000; 0x00108020; 0x80100000;
   0x00100020; 0x80000020; 0x00000000; 0x00108000; 0x00008020; 0x80108000; 0x80100000; 0x00008020;
   0x00000000; 0x00108020; 0x80100020; 0x00100000; 0x80008020; 0x80100000; 0x80108000; 0x00008000;
   0x80100000; 0x80008000; 0x00000020; 0x80108020; 0x00108020; 0x00000020; 0x00008000; 0x80000000;
   0x00008020; 0x80108000; 0x00100000; 0x80000020; 0x00100020; 0x80008020; 0x80000020; 0x00100020;
   0x00108000; 0x00000000; 0x80008000; 0x00008020; 0x80000000; 0x80100020; 0x80108020; 0x00108000].

Definition SP3 : list Z :=
  [0x00000208; 0x08020200; 0x00000000; 0x08020008; 0x08000200; 0x00000000; 0x00020208; 0x08000200;
   0x00020008; 0x08000008; 0x08000008; 0x00020000; 0x08020208; 0x00020008; 0x08020000; 0x00000208;
   0x08000000; 0x00000008; 0x08020200; 0x00000200; 0x00020200; 0x08020000; 0x08020008; 0x00020208;
   0x08000208; 0x00020200; 0x00020000; 0x08000208; 0x00000008; 0x08020208; 0x00000200; 0x08000000;
   0x08020200; 0x08000000; 0x00020008; 0x00000208; 0x00020000; 0x08020200; 0x08000200; 0x00000000;
   0x00000200; 0x00020008; 0x08020208; 0x08000200; 0x08000008; 0x00000200; 0x00000000; 0x08020008;
   0x08000208; 0x00020000; 0x08000000; 0x08020208; 0x00000008; 0x00020208; 0x00020200; 0x08000008;
   0x08020000; 0x08000208; 0x00000208; 0x08020000; 0x00020208; 0x00000008; 0x08020008; 0x00020200].

Definition SP4 : list Z :=
  [0x00802001; 0x00002081; 0x00002081; 0x00000080; 0x00802080; 0x00800081; 0x00800001; 0x00002001;
   0x00000000; 0x00802000; 0x00802000; 0x00802081; 0x00000081; 0x00000000; 0x00800080; 0x00800001;
   0x00000001; 0x00002000; 0x00800000; 0x00802001; 0x00000080; 0x00800000; 0x00002001; 0x00002080;
   0x00800081; 0x00000001; 0x00002080; 0x00800080; 0x00002000; 0x00802080; 0x00802081; 0x00000081;
   0x00800080; 0x00800001; 0x00802000; 0x00802081; 0x00000081; 0x00000000; 0x00000000; 0x00802000;
   0x00002080; 0x00800080; 0x00800081; 0x00000001; 0x00802001; 0x00002081; 0x00002081; 0x00000080;
   0x00802081; 0x00000081; 0x00000001; 0x00002000; 0x00800001; 0x00002001; 0x00802080; 0x00800081;
   0x00002001; 0x00002080; 0x00800000; 0x00802001; 0x00000080; 0x00800000; 0x00002000; 0x00802080].

Definition SP5 : list Z :=
  [0x00000100; 0x02080100; 0x02080000; 0x42000100; 0x00080000; 0x00000100; 0x40000000; 0x02080000;
   0x40080100; 0x00080000; 0x02000100; 0x40080100; 0x42000100; 0x42080000; 0x00080100; 0x40000000;
   0x02000000; 0x40080000; 0x40080000; 0x00000000; 0x40000100; 0x42080100; 0x42080100; 0x02000100;
   0x42080000; 0x40000100; 0x00000000; 0x42000000; 0x02080100; 0x02000000; 0x42000000; 0x00080100;
   0x00080000; 0x42000100; 0x00000100; 0x02000000; 0x40000000; 0x02080000; 0x42000100; 0x40080100;
   0x02000100; 0x40000000; 0x42080000; 0x02080100; 0x40080100; 0x00000100; 0x02000000; 0x42080000;
   0x42080100; 0x00080100; 0x42000000; 0x42080100; 0x02080000; 0x00000000; 0x40080000; 0x42000000;
   0x00080100; 0x02000100; 0x40000100; 0x00080000; 0x00000000; 0x40080000; 0x02080100; 0x40000100].

Definition SP6 : list Z :=
  [0x20000010; 0x20400000; 0x00004000; 0x20404010; 0x20400000; 0x00000010; 0x20404010; 0x00400000;
   0x20004000; 0x00404010; 0x00400000; 0x20000010; 0x00400010; 0x20004000; 0x20000000; 0x00004010;
   0x00000000; 0x00400010; 0x20004010; 0x00004000; 0x00404000; 0x20004010; 0x00000010; 0x20400010;
   0x20400010; 0x00000000; 0x00404010; 0x20404000; 0x00004010; 0x00404000; 0x20404000; 0x20000000;
   0x20004000; 0x00000010; 0x20400010; 0x00404000; 0x20404010; 0x00400000; 0x00004010; 0x20000010;
   0x00400000; 0x20004000; 0x20000000; 0x00004010; 0x20000010; 0x20404010; 0x00404000; 0x20400000;
   0x00404010; 0x20404000; 0x00000000; 0x20400010; 0x00000010; 0x00004000; 0x20400000; 0x00404010;
   0x00004000; 0x00400010; 0x20004010; 0x00000000; 0x20404000; 0x20000000; 0x00400010; 0x20004010].

Definition SP7 : list Z :=
  [0x00200000; 0x04200002; 0x04000802; 0x00000000; 0x00000800; 0x04000802; 0x00200802; 0x04200800;
   0x04200802; 0x00200000; 0x00000000; 0x04000002; 0x00000002; 0x04000000; 0x04200002; 0x00000802;
   0x04000800; 0x00200802; 0x00200002; 0x04000800; 0x04000002; 0x04200000; 0x04200800; 0x00200002;
   0x04200000; 0x00000800; 0x00000802; 0x04200802; 0x00200800; 0x00000002; 0x04000000; 0x00200800;
   0x04000000; 0x00200800; 0x00200000; 0x04000802; 0x04000802; 0x04200002; 0x04200002; 0x00000002;
   0x00200002; 0x04000000; 0x04000800; 0x00200000; 0x04200800; 0x00000802; 0x00200802; 0x04200800;
   0x00000802; 0x04000002; 0x04200802; 0x04200000; 0x00200800; 0x00000000; 0x00000002; 0x04200802;
   0x00000000; 0x00200802; 0x04200000; 0x00000800; 0x04000002; 0x04000800; 0x00000800; 0x00200002].

Definition SP8 : list Z :=
  [0x10001040; 0x00001000; 0x00040000; 0x10041040; 0x10000000; 0x10001040; 0x00000040; 0x10000000;
   0x00040040; 0x10040000; 0x10041040; 0x00041000; 0x10041000; 0x00041040; 0x00001000; 0x00000040;
   0x10040000; 0x10000040; 0x10001000; 0x00001040; 0x00041000; 0x00040040; 0x10040040; 0x10041000;
   0x00001040; 0x00000000; 0x00000000; 0x10040040; 0x10000040; 0x10001000; 0x00041040; 0x00040000;
   0x00041040; 0x00040000; 0x10041000; 0x00001000; 0x00000040; 0x10040040; 0x00001000; 0x00041040;
   0x10001000; 0x00000040; 0x10000040; 0x10040000; 0x10040040; 0x10000000; 0x00040000; 0x10001040;
   0x00000000; 0x10041040; 0x00040040; 0x10000040; 0x10040000; 0x10001000; 0x10001040; 0x00000000;
   0x10041040; 0x00041000; 0x00041000; 0x00001040; 0x00001040; 0x00040040; 0x10000000; 0x10041000].

(** ** The key schedule *)

Inductive mode := EN0 | DE1.

#[export] Instance mode_eq_dec : EqDecision mode.
Proof. solve_decision. Defined.

Definition pc1m (key : list Z) : list bool :=
  map (fun l => negb (Z.land (znth 0 key (Z.shiftr l 3)) (znth 0 bytebit (Z.land l 7)) =? 0)) pc1.

(** [pcr], rotated for one round. *)
Definition pcr (bits : list bool) (rot : Z) : list bool :=
  map (fun j => let l := Z.of_nat j + rot in
         if l <? (if Nat.ltb j 28 then 28 else 56) then znth false bits l else znth false bits (l - 28)) (seq 0 56).

(** The bits of [rot] chosen by a part of [pc2]. *)
Fixpoint chosen (bits : list bool) (sel big : list Z) : Z :=
  match sel, big with
  | s :: sel, b :: big => let rest := chosen bits sel big in if znth false bits s then Z.lor b rest else rest
  | _, _ => 0
  end.

(** [kn[m]] and [kn[n]] of one round. *)
Definition raw_pair (bits : list bool) (rot : Z) : Z * Z :=
  let p := pcr bits rot in (chosen p (take 24 pc2) bigbyte, chosen p (drop 24 pc2) bigbyte).

(** [kn]: the pair of round [i] is stored at [2 i], or from the end. *)
Fixpoint store_pairs (edf : mode) (i : nat) (pairs : list (Z * Z)) (kn : list Z) : list Z :=
  match pairs with
  | [] => kn
  | (a, b) :: pairs =>
      let m := match edf with DE1 => ((15 - i) * 2)%nat | EN0 => (i * 2)%nat end in
      store_pairs edf (S i) pairs (<[S m := b]> (<[m := a]> kn))
  end.

Section words.
(** The width of [unsigned long]. *)
Context (w : Z).

Definition shl (x n : Z) : Z := Z.shiftl x n mod 2 ^ w.

Fixpoint cookey (raw : list Z) : list Z :=
  match raw with
  | raw0 :: raw1 :: raw =>
      Z.lor (Z.lor (Z.lor (shl (Z.land raw0 0x00fc0000) 6) (shl (Z.land raw0 0x00000fc0) 10))
        (Z.shiftr (Z.land raw1 0x00fc0000) 10)) (Z.shiftr (Z.land raw1 0x00000fc0) 6) ::
      Z.lor (Z.lor (Z.lor (shl (Z.land raw0 0x0003f000) 12) (shl (Z.land raw0 0x0000003f) 16))
        (Z.shiftr (Z.land raw1 0x0003f000) 4)) (Z.land raw1 0x0000003f) ::
      cookey raw
  | _ => []
  end.

Definition d3des_set_key (key : list Z) (edf : mode) : list Z :=
  cookey (store_pairs edf 0 (map (raw_pair (pc1m key)) totrot) (replicate 32 0)).

(** ** One block *)

Definition scrunch4 (b0 b1 b2 b3 : Z) : Z :=
  Z.lor (Z.lor (Z.lor (shl (Z.land b0 0xff) 24) (shl (Z.land b1 0xff) 16)) (shl (Z.land b2 0xff) 8)) (Z.land b3 0xff).
Definition scrunch (outof : list Z) : Z * Z :=
  (scrunch4 (znth 0 outof 0) (znth 0 outof 1) (znth 0 outof 2) (znth 0 outof 3),
   scrunch4 (znth 0 outof 4) (znth 0 outof 5) (znth 0 outof 6) (znth 0 outof 7)).

Definition unscrun4 (x : Z) : list Z :=
  [Z.land (Z.shiftr x 24) 0xff; Z.land (Z.shiftr x 16) 0xff; Z.land (Z.shiftr x 8) 0xff; Z.land x 0xff].
Definition unscrun (block : Z * Z) : list Z := unscrun4 block.1 ++ unscrun4 block.2.

(** [work = ((a >> n) ^ b) & mask; b ^= work; a ^= work << n] *)
Definition bit_swap (n mask : Z) (ab : Z * Z) : Z * Z :=
  let '(a, b) := ab in
  let work := Z.land (Z.lxor (Z.shiftr a n) b) mask in
  (Z.lxor a (shl work n), Z.lxor b work).

Definition rotl1 (x : Z) : Z := Z.land (Z.lor (shl x 1) (Z.land (Z.shiftr x 31) 1)) 0xffffffff.
Definition rotr1 (x : Z) : Z := Z.lor (shl x 31) (Z.shiftr x 1).

Definition swap (p : Z * Z) : Z * Z := (p.2, p.1).

(** From the block to [(leftt, right)]. *)
Definition initial (block : Z * Z) : Z * Z :=
  let p := bit_swap 16 0x0000ffff (bit_swap 4 0x0f0f0f0f block) in
  let '(rght, leftt) := bit_swap 8 0x00ff00ff (bit_swap 2 0x33333333 (swap p)) in
  let '(leftt, rght) := bit_swap 0 0xaaaaaaaa (leftt, rotl1 rght) in
  (rotl1 leftt, rght).

(** From [(leftt, right)] to the block. *)
Definition final (p : Z * Z) : Z * Z :=
  let '(leftt, rght) := p in
  let '(leftt, rght) := bit_swap 0 0xaaaaaaaa (leftt, rotr1 rght) in
  let p := bit_swap 2 0x33333333 (bit_swap 8 0x00ff00ff (rotr1 leftt, rght)) in
  bit_swap 4 0x0f0f0f0f (bit_swap 16 0x0000ffff (swap p)).

Definition sbox (SP : list Z) (work n : Z) : Z := znth 0 SP (Z.land (Z.shiftr work n) 0x3f).

(** [fval] of one half of a round. *)
Definition fval (x k0 k1 : Z) : Z :=
  let work := Z.lxor (Z.lor (shl x 28) (Z.shiftr x 4)) k0 in
  let f := Z.lor (Z.lor (Z.lor (sbox SP7 work 0) (sbox SP5 work 8)) (sbox SP3 work 16)) (sbox SP1 work 24) in
  let work := Z.lxor x k1 in
  Z.lor (Z.lor (Z.lor (Z.lor f (sbox SP8 work 0)) (sbox SP6 work 8)) (sbox SP4 work 16)) (sbox SP2 work 24).

Fixpoint rounds (keys : list Z) (leftt rght : Z) : Z * Z :=
  match keys with
  | k0 :: k1 :: k2 :: k3 :: keys =>
      let leftt := Z.lxor leftt (fval rght k0 k1) in
      let rght := Z.lxor rght (fval leftt k2 k3) in
      rounds keys leftt rght
  | _ => (leftt, rght)
  end.

Definition desfunc (block : Z * Z) (keys : list Z) : Z * Z :=
  let '(leftt, rght) := initial block in
  final (rounds keys leftt rght).

Definition d3des_transform (keys inblock : list Z) : list Z :=
  unscrun (desfunc (scrunch inblock) keys).
End words.


(** ** [obfuscate.cxx] *)

Definition d3desObfuscationKey : list Z := [23; 82; 107; 6; 35; 78; 88; 7].

(** The first eight bytes of a text, the rest zero. *)
Definition padded (str : list Z) : list Z := map (fun i => znth 0 str (Z.of_nat i)) (seq 0 8).

Definition obfuscate (w : Z) (str : list Z) : list Z :=
  d3des_transform w (d3des_set_key w d3desObfuscationKey EN0) (padded str).

(** [while (count < 8 && output[count]) ++count] *)
Fixpoint until_nul (output : list Z) : list Z :=
  match output with
  | [] => []
  | c :: output => if c =? 0 then [] else c :: until_nul output
  end.

Definition deobfuscate (w : Z) (data : list Z) : res (list Z) :=
  if negb (len data =? 8) then Throw (invalid_argument "Bad obfuscated password buffer") else
  Ok (until_nul (d3des_transform w (d3des_set_key w d3desObfuscationKey DE1) data)).

(** ** Words that agree in their low 32 bits *)

Definition same32 (x y : Z) : Prop := forall i, 0 <= i < 32 -> Z.testbit x i = Z.testbit y i.
Infix "≡32" := same32 (at level 70) : vnc_scope.

#[export] Instance same32_equiv : Equivalence same32.
Proof.
  split; [done|by intros x y H i Hi; rewrite H|]. intros x y z H1 H2 i Hi. rewrite H1 by done. by apply H2.
Qed.

Definition pair32 (p q : Z * Z) : Prop := p.1 ≡32 q.1 /\ p.2 ≡32 q.2.
#[export] Instance pair32_equiv : Equivalence pair32.
Proof.
  split; [by split| |].
  - by intros p q [H1 H2]; split; symmetry.
  - intros p q r [H1 H2] [H3 H4]. split; etransitivity; done.
Qed.

(** No bits above the low 32. *)
Definition clean (x : Z) : Prop := forall i, 32 <= i -> Z.testbit x i = false.

Lemma clean_range x : 0 <= x < 2 ^ 32 -> clean x.
Proof. intros Hx i Hi. rewrite <- (Z.mod_small x (2 ^ 32)) by done. apply Z.mod_pow2_bits_high. lia. Qed.

Lemma clean_same x y : clean x -> clean y -> x ≡32 y -> x = y.
Proof.
  intros Hx Hy H. apply Z.bits_inj'. intros i Hi. destruct (Z.ltb_spec i 32); [by apply H|]. rewrite Hx, Hy by done. done.
Qed.

Lemma clean_lxor x y : clean x -> clean y -> clean (Z.lxor x y).
Proof. intros Hx Hy i Hi. rewrite Z.lxor_spec, Hx, Hy by done. done. Qed.

Lemma clean_lor x y : clean x -> clean y -> clean (Z.lor x y).
Proof. intros Hx Hy i Hi. rewrite Z.lor_spec, Hx, Hy by done. done. Qed.

Lemma clean_land x y : clean y -> clean (Z.land x y).
Proof. intros Hy i Hi. rewrite Z.land_spec, Hy by done. apply andb_false_r. Qed.

Ltac clean_const := apply clean_range; split; [discriminate|reflexivity].

Section words_ok.
Context (w : Z) (Hw : 32 <= w).
Abbreviation shl := (shl w).
Abbreviation bit_swap := (bit_swap w).
Abbreviation rotl1 := (rotl1 w).
Abbreviation rotr1 := (rotr1 w).
Abbreviation initial := (initial w).
Abbreviation final := (final w).

Lemma testbit_shl x n i : 0 <= i < w -> Z.testbit (shl x n) i = Z.testbit x (i - n).
Proof. intros Hi. unfold D3des.shl. rewrite Z.mod_pow2_bits_low by lia. apply Z.shiftl_spec. lia. Qed.

(** A mask whose bits stay below 32 when they are shifted up. *)
Class mask_ok (n m : Z) : Prop := mask_bits : 0 <= n /\ forall i, Z.testbit m i = true -> i + n < 32.

Lemma mask_range n m : 0 <= n <= 32 -> 0 <= m < 2 ^ (32 - n) -> mask_ok n m.
Proof.
  intros Hn Hm. split; [lia|]. intros i Hi. destruct (Z.ltb_spec (i + n) 32); [done|].
  rewrite <- (Z.mod_small m (2 ^ (32 - n))), Z.mod_pow2_bits_high in Hi by lia. done.
Qed.

Ltac mask := apply mask_range; split; solve [discriminate|reflexivity].
#[local] Instance mask_4 : mask_ok 4 0x0f0f0f0f. Proof. mask. Qed.
#[local] Instance mask_16 : mask_ok 16 0x0000ffff. Proof. mask. Qed.
#[local] Instance mask_2 : mask_ok 2 0x33333333. Proof. mask. Qed.
#[local] Instance mask_8 : mask_ok 8 0x00ff00ff. Proof. mask. Qed.
#[local] Instance mask_0 : mask_ok 0 0xaaaaaaaa. Proof. mask. Qed.

Section one.
Context (n m : Z) {Hm : mask_ok n m}.

Lemma bit_swap_snd p i : 0 <= i ->
  Z.testbit (bit_swap n m p).2 i = xorb (Z.testbit p.2 i) (Z.testbit m i && xorb (Z.testbit p.1 (i + n)) (Z.testbit p.2 i)).
Proof.
  intros Hi. destruct p as [a b], Hm as [Hn _]. cbn. rewrite Z.lxor_spec, Z.land_spec, Z.lxor_spec, Z.shiftr_spec by lia.
  by rewrite andb_comm.
Qed.

Lemma bit_swap_fst p i : 0 <= i < w ->
  Z.testbit (bit_swap n m p).1 i = xorb (Z.testbit p.1 i) (Z.testbit m (i - n) && xorb (Z.testbit p.1 i) (Z.testbit p.2 (i - n))).
Proof.
  intros Hi. destruct p as [a b], Hm as [Hn _]. cbn. rewrite Z.lxor_spec, testbit_shl, Z.land_spec, Z.lxor_spec by lia.
  f_equal. rewrite andb_comm. destruct (Z.ltb_spec (i - n) 0) as [H|H].
  - by rewrite (Z.testbit_neg_r m) by done.
  - rewrite Z.shiftr_spec by lia. by replace (i - n + n) with i by lia.
Qed.

#[export] Instance bit_swap_proper : Proper (pair32 ==> pair32) (bit_swap n m).
Proof.
  intros p q [H1 H2]. destruct Hm as [Hn Hmi]. split; intros i Hi.
  - rewrite !bit_swap_fst by lia. rewrite H1 by done.
    destruct (Z.testbit m (i - n)) eqn:E; [|done]. destruct (Z.ltb_spec (i - n) 0); [by rewrite Z.testbit_neg_r in E by lia|].
    by rewrite H2 by lia.
  - rewrite !bit_swap_snd by lia. rewrite H2 by done.
    destruct (Z.testbit m i) eqn:E; [|done]. apply Hmi in E. by rewrite H1 by lia.
Qed.

Lemma bit_swap_twice p : pair32 (bit_swap n m (bit_swap n m p)) p.
Proof.
  destruct Hm as [Hn Hmi]. split; intros i Hi.
  - rewrite bit_swap_fst by lia. destruct (Z.testbit m (i - n)) eqn:E.
    + destruct (Z.ltb_spec (i - n) 0); [by rewrite Z.testbit_neg_r in E by lia|].
      rewrite bit_swap_fst, bit_swap_snd by lia. rewrite E. replace (i - n + n) with i by lia.
      by destruct (Z.testbit p.1 i), (Z.testbit p.2 (i - n)).
    + rewrite bit_swap_fst by lia. rewrite E. cbn. by rewrite !xorb_false_r.
  - rewrite bit_swap_snd by lia. destruct (Z.testbit m i) eqn:E.
    + pose proof (Hmi i E). rewrite bit_swap_fst, bit_swap_snd by lia. replace (i + n - n) with i by lia. rewrite E.
      by destruct (Z.testbit p.1 (i + n)), (Z.testbit p.2 i).
    + rewrite bit_swap_snd by lia. rewrite E. cbn. by rewrite !xorb_false_r.
Qed.
End one.

#[local] Instance swap_proper : Proper (pair32 ==> pair32) swap.
Proof. by intros p q [H1 H2]. Qed.

Lemma clean_mod x : clean x -> clean (x mod 2 ^ w).
Proof.
  intros Hx i Hi. destruct (Z.ltb_spec i w); [|by rewrite Z.mod_pow2_bits_high by lia].
  rewrite Z.mod_pow2_bits_low by lia. by apply Hx.
Qed.

Lemma bit_swap_fst_clean m p : clean m -> clean p.1 -> clean (bit_swap 0 m p).1.
Proof.
  destruct p as [a b]. cbn. intros Hm Ha. unfold D3des.shl. rewrite Z.shiftl_0_r.
  apply clean_lxor; [done|]. by apply clean_mod, clean_land.
Qed.

Lemma bit_swap_snd_clean m p : clean m -> clean p.2 -> clean (bit_swap 0 m p).2.
Proof. destruct p as [a b]. cbn. intros Hm Hb. apply clean_lxor; [done|]. by apply clean_land. Qed.

Lemma bit_swap_sym m p : mask_ok 0 m -> pair32 (bit_swap 0 m (swap p)) (swap (bit_swap 0 m p)).
Proof.
  intros Hm. destruct p as [a b]. split; intros i Hi; cbn [swap fst snd].
  - rewrite (bit_swap_fst 0 m), (bit_swap_snd 0 m) by lia. cbn [swap fst snd]. rewrite Z.sub_0_r, Z.add_0_r.
    by destruct (Z.testbit m i), (Z.testbit a i), (Z.testbit b i).
  - rewrite (bit_swap_fst 0 m), (bit_swap_snd 0 m) by lia. cbn [swap fst snd]. rewrite Z.sub_0_r, Z.add_0_r.
    by destruct (Z.testbit m i), (Z.testbit a i), (Z.testbit b i).
Qed.

Lemma rotl1_bits x i : 0 <= i < 32 -> Z.testbit (rotl1 x) i = Z.testbit x (if i =? 0 then 31 else i - 1).
Proof.
  intros Hi. unfold D3des.rotl1. rewrite Z.land_spec, Z.lor_spec, testbit_shl, Z.land_spec, Z.shiftr_spec by lia.
  change 0xffffffff with (Z.ones 32). rewrite Z.ones_spec_low, andb_true_r by lia. change 1 with (Z.ones 1) at 2.
  destruct (Z.eqb_spec i 0) as [->|].
  - rewrite (Z.testbit_neg_r x (0 - 1)) by lia. by rewrite Z.ones_spec_low, andb_true_r by lia.
  - rewrite Z.ones_spec_high, andb_false_r, orb_false_r by lia. done.
Qed.

Lemma rotr1_bits x i : clean x -> 0 <= i < 32 -> Z.testbit (rotr1 x) i = Z.testbit x (if i =? 31 then 0 else i + 1).
Proof.
  intros Hx Hi. unfold D3des.rotr1. rewrite Z.lor_spec, testbit_shl, Z.shiftr_spec by lia.
  destruct (Z.eqb_spec i 31) as [->|].
  - rewrite (Hx (31 + 1)) by lia. apply orb_false_r.
  - by rewrite (Z.testbit_neg_r x (i - 31)) by lia.
Qed.

Lemma rotl1_clean x : clean (rotl1 x).
Proof. apply clean_land. clean_const. Qed.

#[local] Instance rotl1_proper : Proper (same32 ==> same32) rotl1.
Proof. intros x y H i Hi. rewrite !rotl1_bits by done. apply H. destruct (Z.eqb_spec i 0); lia. Qed.

Lemma rotl_rotr x : clean x -> rotl1 (rotr1 x) ≡32 x.
Proof.
  intros Hx i Hi. rewrite rotl1_bits by done. destruct (Z.eqb_spec i 0) as [->|].
  - by rewrite rotr1_bits by (done || lia).
  - rewrite rotr1_bits by (done || lia). destruct (Z.eqb_spec (i - 1) 31); [lia|]. by replace (i - 1 + 1) with i by lia.
Qed.

Lemma rotr_rotl x y : clean x -> x ≡32 rotl1 y -> rotr1 x ≡32 y.
Proof.
  intros Hx H i Hi. rewrite rotr1_bits by done. destruct (Z.eqb_spec i 31) as [->|].
  - rewrite H by lia. by rewrite rotl1_bits by lia.
  - rewrite H by lia. rewrite rotl1_bits by lia. destruct (Z.eqb_spec (i + 1) 0); [lia|]. by replace (i + 1 - 1) with i by lia.
Qed.

Definition clean2 (p : Z * Z) : Prop := clean p.1 /\ clean p.2.

Lemma clean2_same p q : clean2 p -> clean2 q -> pair32 p q -> p = q.
Proof. destruct p, q. intros [H1 H2] [H3 H4] [H5 H6]. cbn in *. f_equal; by apply clean_same. Qed.

(** The permutations as a composition, and what they do to the garbage. *)
Definition spread (block : Z * Z) : Z * Z :=
  bit_swap 8 0x00ff00ff (bit_swap 2 0x33333333 (swap (bit_swap 16 0x0000ffff (bit_swap 4 0x0f0f0f0f block)))).
Definition gather (p : Z * Z) : Z * Z :=
  bit_swap 4 0x0f0f0f0f (bit_swap 16 0x0000ffff (swap (bit_swap 2 0x33333333 (bit_swap 8 0x00ff00ff p)))).
Definition cross : Z * Z -> Z * Z := bit_swap 0 0xaaaaaaaa.

#[local] Instance spread_proper : Proper (pair32 ==> pair32) spread.
Proof. intros p q H. unfold spread. by rewrite H. Qed.
#[local] Instance gather_proper : Proper (pair32 ==> pair32) gather.
Proof. intros p q H. unfold gather. by rewrite H. Qed.
#[local] Instance cross_proper : Proper (pair32 ==> pair32) cross.
Proof. intros p q H. unfold cross. by rewrite H. Qed.

Lemma swap_swap p : swap (swap p) = p.
Proof. by destruct p. Qed.

Lemma spread_gather p : pair32 (spread (gather p)) p.
Proof.
  unfold spread, gather. by rewrite (bit_swap_twice 4), (bit_swap_twice 16), swap_swap, (bit_swap_twice 2), (bit_swap_twice 8) by apply _.
Qed.

Lemma gather_spread p : pair32 (gather (spread p)) p.
Proof.
  unfold spread, gather. by rewrite (bit_swap_twice 8), (bit_swap_twice 2), swap_swap, (bit_swap_twice 16), (bit_swap_twice 4) by apply _.
Qed.

Lemma initial_eq b : initial b =
  let q := cross ((spread b).2, rotl1 (spread b).1) in (rotl1 q.1, q.2).
Proof.
  unfold D3des.initial, spread, cross. cbv zeta.
  destruct (D3des.bit_swap w 8 _ _) as [rt lf]. cbn [fst snd]. by destruct (D3des.bit_swap w 0 _ _).
Qed.

Lemma final_eq p : final p = let q := cross (p.1, rotr1 p.2) in gather (rotr1 q.1, q.2).
Proof.
  destruct p as [lf rt]. unfold D3des.final, gather, cross. cbv zeta. cbn [fst snd]. by destruct (D3des.bit_swap w 0 _ _).
Qed.

Lemma pair32_intro p q : p.1 ≡32 q.1 -> p.2 ≡32 q.2 -> pair32 p q.
Proof. by split. Qed.

Lemma cross_clean_1 p : clean p.1 -> clean (cross p).1.
Proof. apply bit_swap_fst_clean. clean_const. Qed.

Lemma cross_clean_2 p : clean p.2 -> clean (cross p).2.
Proof. apply bit_swap_snd_clean. clean_const. Qed.

Lemma cross_swap p : pair32 (cross (swap p)) (swap (cross p)).
Proof. by apply bit_swap_sym, mask_0. Qed.

Lemma cross_twice p : pair32 (cross (cross p)) p.
Proof. apply (bit_swap_twice 0 0xaaaaaaaa). Qed.

#[local] Opaque spread gather cross D3des.rotl1 D3des.rotr1 D3des.initial D3des.final.

Lemma initial_clean b : clean2 (initial b).
Proof. rewrite initial_eq. cbv zeta. split; cbn [fst snd]; [apply rotl1_clean|]. apply cross_clean_2, rotl1_clean. Qed.

#[local] Instance initial_proper : Proper (pair32 ==> eq) initial.
Proof.
  intros p q H. apply clean2_same; [apply initial_clean..|]. rewrite !initial_eq. cbv zeta.
  apply spread_proper in H as [H1 H2].
  destruct (cross_proper ((spread p).2, rotl1 (spread p).1) ((spread q).2, rotl1 (spread q).1)) as [H3 H4].
  { split; cbn [fst snd]; [done|]. by rewrite H1. }
  split; cbn [fst snd]; [by rewrite H3|done].
Qed.

(** The final permutation undoes the initial one on the swapped halves, and
    the other way round. *)
Lemma initial_final p : clean2 p -> initial (final p) = swap p.
Proof.
  intros [H1 H2]. destruct p as [l r]. cbn in H1, H2. apply clean2_same; [apply initial_clean|done|].
  rewrite initial_eq, final_eq. cbn [fst snd]. cbv zeta.
  pose proof (cross_clean_1 (l, rotr1 r) H1) as Hq. pose proof (cross_twice (l, rotr1 r)) as Ht.
  generalize dependent (cross (l, rotr1 r)). intros q Hq Ht.
  pose proof (spread_gather (rotr1 q.1, q.2)) as Hs.
  generalize dependent (spread (gather (rotr1 q.1, q.2))). intros [s1 s2] [H3 H4]. cbn [fst snd] in *.
  assert (pair32 (cross (s2, rotl1 s1)) (rotr1 r, l)) as Hc.
  { transitivity (cross (swap q)).
    - apply cross_proper. split; [exact H4|]. cbn [swap fst snd]. rewrite H3. by apply rotl_rotr.
    - rewrite cross_swap, Ht. done. }
  generalize dependent (cross (s2, rotl1 s1)). intros c [H5 H6]. cbn [fst snd] in *.
  apply pair32_intro; [|exact H6]. cbn [fst snd]. rewrite H5. by apply rotl_rotr.
Qed.

Lemma final_initial b : pair32 (final (swap (initial b))) b.
Proof.
  rewrite initial_eq, final_eq. cbv zeta. cbn [swap fst snd].
  pose proof (gather_spread b) as Hg. generalize dependent (spread b). intros [s1 s2] Hg. cbn [fst snd].
  pose proof (cross_clean_2 (s2, rotl1 s1) (rotl1_clean s1)) as Hq. pose proof (cross_twice (s2, rotl1 s1)) as Ht.
  generalize dependent (cross (s2, rotl1 s1)). intros q Hq Ht.
  assert (pair32 (cross (q.2, rotr1 (rotl1 q.1))) (rotl1 s1, s2)) as Hc.
  { transitivity (cross (swap q)).
    - apply cross_proper. split; [done|]. cbn [swap fst snd]. by apply rotr_rotl; [apply rotl1_clean|].
    - rewrite cross_swap, Ht. done. }
  pose proof (cross_clean_1 (q.2, rotr1 (rotl1 q.1)) Hq) as Hc1.
  generalize dependent (cross (q.2, rotr1 (rotl1 q.1))). intros c [H1 H2] Hc1. cbn [fst snd] in *.
  rewrite <- Hg. apply gather_proper. split; [|exact H2]. cbn [fst snd]. by apply rotr_rotl.
Qed.

(** ** Rounds *)

Lemma znth_clean l n : Forall (fun x => 0 <= x < 2 ^ 32) l -> clean (znth 0 l n).
Proof.
  intros Hl. apply clean_range. unfold znth. destruct (nth_in_or_default (Z.to_nat n) l 0) as [Hi| ->]; [|lia].
  rewrite Forall_forall in Hl. by apply Hl.
Qed.

Lemma fval_clean x k0 k1 : clean (fval w x k0 k1).
Proof.
  unfold fval, sbox. repeat apply clean_lor; apply znth_clean; repeat (constructor; [split; [discriminate|reflexivity]|]); constructor.
Qed.

(** Half a round, the halves exchanged. *)
Definition half_round (p k : Z * Z) : Z * Z := (p.2, Z.lxor p.1 (fval w p.2 k.1 k.2)).

Definition flat (ps : list (Z * Z)) : list Z := flat_map (fun p => [p.1; p.2]) ps.

Lemma rounds_halves n : forall ps l r, length ps = (2 * n)%nat -> rounds w (flat ps) l r = foldl half_round (l, r) ps.
Proof.
  induction n as [|n IH]; intros ps l r Hn.
  - by destruct ps.
  - destruct ps as [|k0 [|k1 ps]]; try (cbn in Hn; lia). cbn [flat flat_map app rounds foldl]. apply IH. cbn in Hn. lia.
Qed.

Lemma halves_clean ps : forall p, clean2 p -> clean2 (foldl half_round p ps).
Proof.
  induction ps as [|k ps IH]; intros p Hp; [done|]. apply IH. destruct Hp as [H1 H2]. split; cbn; [done|].
  by apply clean_lxor; [|apply fval_clean].
Qed.

Lemma halves_reverse ps p : foldl half_round (swap (foldl half_round p ps)) (reverse ps) = swap p.
Proof.
  induction ps as [|k ps IH] using rev_ind; [done|]. rewrite foldl_app, reverse_app. cbn [foldl reverse rev_append app].
  set (q := foldl half_round p ps) in *.
  assert (half_round (swap (half_round q k)) k = swap q) as ->; [|done].
  destruct q as [a b]. unfold half_round, swap. cbn [fst snd]. by rewrite Z.lxor_assoc, Z.lxor_nilpotent, Z.lxor_0_r.
Qed.

(** ** Keys *)

Definition cook (raw : Z * Z) : Z * Z :=
  match cookey w [raw.1; raw.2] with [a; b] => (a, b) | _ => (0, 0) end.

Lemma cookey_flat ps : cookey w (flat ps) = flat (map cook ps).
Proof. induction ps as [|[a b] ps IH]; [done|]. cbn [flat flat_map app cookey map]. f_equal. f_equal. exact IH. Qed.

Lemma store_flat edf ps : length ps = 16%nat ->
  store_pairs edf 0 ps (replicate 32 0) = flat (match edf with EN0 => ps | DE1 => reverse ps end).
Proof.
  intros Hn. do 16 (destruct ps as [|[? ?] ps]; [done|]). destruct ps; [|done]. by destruct edf.
Qed.

Lemma set_key_flat key : exists ps, length ps = 16%nat /\
  d3des_set_key w key EN0 = flat ps /\ d3des_set_key w key DE1 = flat (reverse ps).
Proof.
  exists (map cook (map (raw_pair (pc1m key)) totrot)). unfold d3des_set_key.
  rewrite !store_flat by done. rewrite !cookey_flat. split; [done|]. split; [done|].
  done.
Qed.

(** ** Blocks and bytes *)

Lemma scrunch4_bits b0 b1 b2 b3 i : 0 <= i < 32 ->
  Z.testbit (scrunch4 w b0 b1 b2 b3) i =
  if i <? 8 then Z.testbit b3 i else if i <? 16 then Z.testbit b2 (i - 8)
  else if i <? 24 then Z.testbit b1 (i - 16) else Z.testbit b0 (i - 24).
Proof.
  intros Hi. unfold scrunch4. rewrite !Z.lor_spec, !testbit_shl, !Z.land_spec by lia. change 0xff with (Z.ones 8).
  assert (forall j, Z.testbit (Z.ones 8) j = (0 <=? j) && (j <? 8)) as Ho.
  { intros j. destruct (Z.leb_spec 0 j); [|by rewrite Z.testbit_neg_r by lia].
    destruct (Z.ltb_spec j 8); [by rewrite Z.ones_spec_low|by rewrite Z.ones_spec_high]. }
  rewrite !Ho.
  repeat match goal with |- context [?a <? ?b] => destruct (Z.ltb_spec a b); try lia end;
  repeat match goal with |- context [?a <=? ?b] => destruct (Z.leb_spec a b); try lia end;
  cbn; rewrite ?andb_true_r, ?andb_false_r, ?orb_false_r; done.
Qed.

Lemma low_byte x : Z.land x 0xff = x mod 2 ^ 8.
Proof. change 0xff with (Z.ones 8). by apply Z.land_ones. Qed.

Lemma unscrun4_scrunch4 b0 b1 b2 b3 : is_byte b0 -> is_byte b1 -> is_byte b2 -> is_byte b3 ->
  unscrun4 (scrunch4 w b0 b1 b2 b3) = [b0; b1; b2; b3].
Proof.
  intros H0 H1 H2 H3.
  assert (forall n b, (n = 0 \/ n = 8 \/ n = 16 \/ n = 24) -> is_byte b ->
    (forall i, 0 <= i < 8 -> Z.testbit (scrunch4 w b0 b1 b2 b3) (i + n) = Z.testbit b i) ->
    Z.land (Z.shiftr (scrunch4 w b0 b1 b2 b3) n) 0xff = b) as Hb.
  { intros n b Hn Hbyte Hi. rewrite low_byte. rewrite <- (Z.mod_small b (2 ^ 8)) by done.
    apply Z.bits_inj'. intros i Hi0. destruct (Z.ltb_spec i 8).
    - rewrite !Z.mod_pow2_bits_low, Z.shiftr_spec by lia. apply Hi. lia.
    - by rewrite !Z.mod_pow2_bits_high by lia. }
  unfold unscrun4. f_equal; [|f_equal; [|f_equal; [|f_equal]]].
  1-3: apply Hb; [lia|done|].
  4: rewrite <- (Z.shiftr_0_r (scrunch4 _ _ _ _ _)); apply Hb; [lia|done|].
  all: intros i Hi; rewrite scrunch4_bits by lia;
    repeat match goal with |- context [?a <? ?b] => destruct (Z.ltb_spec a b); try lia end;
    first [done | by f_equal; lia].
Qed.

Lemma scrunch4_unscrun4 x b0 b1 b2 b3 : unscrun4 x = [b0; b1; b2; b3] -> scrunch4 w b0 b1 b2 b3 ≡32 x.
Proof.
  intros [= <- <- <- <-] i Hi. rewrite scrunch4_bits by done. rewrite !low_byte.
  repeat match goal with |- context [?a <? ?b] => destruct (Z.ltb_spec a b); try lia end;
    rewrite Z.mod_pow2_bits_low, ?Z.shiftr_spec by lia; first [done | by f_equal; lia].
Qed.

Lemma unscrun4_same x y : x ≡32 y -> unscrun4 x = unscrun4 y.
Proof.
  intros H. unfold unscrun4. rewrite !low_byte.
  f_equal; [|f_equal; [|f_equal; [|f_equal]]]; apply Z.bits_inj'; intros i Hi.
  all: destruct (Z.ltb_spec i 8); [|by rewrite !Z.mod_pow2_bits_high by lia].
  all: rewrite !Z.mod_pow2_bits_low, ?Z.shiftr_spec by lia; apply H; lia.
Qed.

Lemma scrunch_unscrun p : pair32 (scrunch w (unscrun p)) p.
Proof. split; by apply scrunch4_unscrun4. Qed.

Lemma unscrun_scrunch bs : len bs = 8 -> bytes bs -> unscrun (scrunch w bs) = bs.
Proof.
  intros Hl Hb. do 8 (destruct bs as [|? bs]; [done|]). destruct bs; [|by rewrite !len_cons in Hl; pose proof (len_nonneg bs); lia].
  repeat match goal with H : Forall _ (_ :: _) |- _ => apply Forall_cons_1 in H as [? H] | H : bytes _ |- _ => unfold bytes in H end.
  change (unscrun4 (scrunch4 w z z0 z1 z2) ++ unscrun4 (scrunch4 w z3 z4 z5 z6) = [z; z0; z1; z2; z3; z4; z5; z6]).
  by rewrite !unscrun4_scrunch4.
Qed.

Lemma unscrun_same p q : pair32 p q -> unscrun p = unscrun q.
Proof. intros [H1 H2]. unfold unscrun. f_equal; by apply unscrun4_same. Qed.

(** ** What the cipher is for *)

Lemma desfunc_eq ps b : length ps = 16%nat ->
  desfunc w b (flat ps) = final (foldl half_round (initial b) ps).
Proof. intros Hn. unfold desfunc. destruct (initial b) as [l r]. by rewrite (rounds_halves 8) by done. Qed.

Lemma desfunc_reverse ps b c : length ps = 16%nat -> pair32 c (desfunc w b (flat ps)) ->
  pair32 (desfunc w c (flat (reverse ps))) b.
Proof.
  intros Hn Hc. rewrite desfunc_eq in Hc by done. rewrite desfunc_eq by by rewrite length_reverse.
  rewrite (initial_proper _ _ Hc), initial_final by apply halves_clean, initial_clean.
  rewrite halves_reverse. apply final_initial.
Qed.

Lemma transform_decrypts key block : len block = 8 -> bytes block ->
  d3des_transform w (d3des_set_key w key DE1) (d3des_transform w (d3des_set_key w key EN0) block) = block.
Proof.
  intros Hl Hb. destruct (set_key_flat key) as (ps & Hn & -> & ->). unfold d3des_transform.
  etransitivity; [|by apply unscrun_scrunch]. apply unscrun_same. apply desfunc_reverse; [done|]. apply scrunch_unscrun.
Qed.

Lemma transform_block keys block : len (d3des_transform w keys block) = 8 /\ bytes (d3des_transform w keys block).
Proof.
  split; [done|]. unfold d3des_transform, unscrun, unscrun4. rewrite !low_byte.
  repeat constructor; apply Z.mod_pos_bound; lia.
Qed.
End words_ok.

(** ** The width of a word does not matter *)

Section widths.
Context (w : Z) (Hw : 32 <= w).

Lemma shl_width x n i : 0 <= i < 32 -> Z.testbit (shl w x n) i = Z.testbit (shl 32 x n) i.
Proof. intros Hi. by rewrite !testbit_shl by lia. Qed.

Lemma shl_small x n : 0 <= Z.shiftl x n < 2 ^ 32 -> shl w x n = shl 32 x n.
Proof.
  intros Hx. unfold shl. rewrite !Z.mod_small; [done|lia|]. split; [lia|].
  pose proof (Z.pow_le_mono_r 2 32 w). lia.
Qed.

Lemma scrunch_width bs : scrunch w bs = scrunch 32 bs.
Proof.
  assert (forall b0 b1 b2 b3, scrunch4 w b0 b1 b2 b3 = scrunch4 32 b0 b1 b2 b3) as H.
  { intros b0 b1 b2 b3. unfold scrunch4. rewrite !low_byte.
    rewrite !shl_small; [done|..]; rewrite Z.shiftl_mul_pow2 by lia; match goal with |- context [?x mod 2 ^ 8] =>
      pose proof (Z.mod_pos_bound x (2 ^ 8) ltac:(lia)) end; lia. }
  unfold scrunch. by rewrite !H.
Qed.

Lemma bit_swap_width n m p q : mask_ok n m -> pair32 p q -> pair32 (bit_swap w n m p) (bit_swap 32 n m q).
Proof.
  intros Hm Hp. etransitivity; [by apply (bit_swap_proper w Hw n m), Hp|]. destruct q as [a b]. split; cbn; [|done]. intros i Hi. by rewrite !Z.lxor_spec, shl_width by done.
Qed.

Lemma swap_same p q : pair32 p q -> pair32 (swap p) (swap q).
Proof. by intros [H1 H2]. Qed.

Lemma rotl1_width x y : x ≡32 y -> rotl1 w x = rotl1 32 y.
Proof.
  intros H. apply clean_same; [apply rotl1_clean..|]. intros i Hi. rewrite !rotl1_bits by lia. apply H.
  destruct (Z.eqb_spec i 0); lia.
Qed.

Lemma rotr1_width x y : clean x -> clean y -> x ≡32 y -> rotr1 w x ≡32 rotr1 32 y.
Proof.
  intros Hx Hy H i Hi. rewrite !rotr1_bits by (done || lia). apply H. destruct (Z.eqb_spec i 31); lia.
Qed.

Lemma cross_width p q : pair32 p q -> pair32 (cross w p) (cross 32 q).
Proof. apply bit_swap_width, mask_range; split; solve [discriminate|reflexivity]. Qed.

Ltac mask := apply mask_range; split; solve [discriminate|reflexivity].

Lemma spread_width b : pair32 (spread w b) (spread 32 b).
Proof.
  unfold spread. apply bit_swap_width; [mask|]. apply bit_swap_width; [mask|]. apply swap_same.
  apply bit_swap_width; [mask|]. by apply bit_swap_width; [mask|].
Qed.

Lemma gather_width p q : pair32 p q -> pair32 (gather w p) (gather 32 q).
Proof.
  intros H. unfold gather. apply bit_swap_width; [mask|]. apply bit_swap_width; [mask|]. apply swap_same.
  apply bit_swap_width; [mask|]. by apply bit_swap_width; [mask|].
Qed.

Lemma initial_width b : initial w b = initial 32 b.
Proof.
  apply clean2_same; [by apply initial_clean..|]. rewrite !initial_eq. cbv zeta.
  destruct (spread_width b) as [H1 H2].
  destruct (cross_width ((spread w b).2, rotl1 w (spread w b).1) ((spread 32 b).2, rotl1 32 (spread 32 b).1)) as [H3 H4].
  { split; cbn [fst snd]; [done|]. by rewrite (rotl1_width _ _ H1). }
  split; cbn [fst snd]; [|done]. by rewrite (rotl1_width _ _ H3).
Qed.

Lemma final_width p : clean2 p -> pair32 (final w p) (final 32 p).
Proof.
  intros [H1 H2]. rewrite !final_eq. cbv zeta. apply gather_width.
  destruct (cross_width (p.1, rotr1 w p.2) (p.1, rotr1 32 p.2)) as [H3 H4].
  { split; cbn [fst snd]; [done|]. by apply rotr1_width. }
  split; cbn [fst snd]; [|done]. apply rotr1_width; [by apply cross_clean_1..|done].
Qed.

Lemma sbox_same SP x y n : 0 <= n <= 24 -> (forall i, 0 <= i < 30 -> Z.testbit x i = Z.testbit y i) ->
  sbox SP x n = sbox SP y n.
Proof.
  intros Hn H. unfold sbox. f_equal. apply Z.bits_inj'. intros i Hi. change 0x3f with (Z.ones 6).
  rewrite !Z.land_spec, !Z.shiftr_spec by lia. destruct (Z.ltb_spec i 6).
  - by rewrite H by lia.
  - by rewrite Z.ones_spec_high, !andb_false_r by lia.
Qed.

Lemma fval_width x k0 k1 : fval w x k0 k1 = fval 32 x k0 k1.
Proof.
  unfold fval. cbv zeta. set (work := Z.lxor (Z.lor (shl 32 x 28) (Z.shiftr x 4)) k0).
  assert (forall SP n, 0 <= n <= 24 -> sbox SP (Z.lxor (Z.lor (shl w x 28) (Z.shiftr x 4)) k0) n = sbox SP work n) as H.
  { intros SP n Hn. apply sbox_same; [done|]. intros i Hi. unfold work. by rewrite !Z.lxor_spec, !Z.lor_spec, shl_width by lia. }
  by rewrite !H by lia.
Qed.

Lemma rounds_width n : forall keys l r, (length keys <= n)%nat -> rounds w keys l r = rounds 32 keys l r.
Proof.
  induction n as [|n IH]; intros keys l r Hn; [by destruct keys; [|cbn in Hn; lia]|].
  destruct keys as [|k0 [|k1 [|k2 [|k3 keys]]]]; try done. cbn [rounds]. rewrite !fval_width. apply IH. cbn in Hn. lia.
Qed.

Lemma shl_clean n m x : mask_ok n m -> clean (shl w (Z.land x m) n).
Proof.
  intros [Hn Hm] i Hi. destruct (Z.ltb_spec i w); [|by unfold shl; rewrite Z.mod_pow2_bits_high by lia].
  rewrite testbit_shl, Z.land_spec by lia. destruct (Z.testbit m (i - n)) eqn:E; [|apply andb_false_r].
  apply Hm in E. lia.
Qed.
End widths.

Section widths_agree.
Context (w : Z) (Hw : 32 <= w).

Lemma shl_masked n m x : mask_ok n m -> shl w (Z.land x m) n = shl 32 (Z.land x m) n.
Proof.
  intros Hm. apply clean_same; [by apply shl_clean..|]. intros i Hi. by apply shl_width.
Qed.

Lemma cookey_width n : forall raw, (length raw <= n)%nat -> cookey w raw = cookey 32 raw.
Proof.
  induction n as [|n IH]; intros raw Hn; [by destruct raw; [|cbn in Hn; lia]|].
  destruct raw as [|r0 [|r1 raw]]; try done. cbn [cookey].
  rewrite !(shl_masked _ 0x00fc0000), !(shl_masked _ 0x00000fc0), !(shl_masked _ 0x0003f000), !(shl_masked _ 0x0000003f)
    by (apply mask_range; split; solve [discriminate|reflexivity]).
  by rewrite IH by (cbn in Hn; lia).
Qed.

Lemma set_key_width key edf : d3des_set_key w key edf = d3des_set_key 32 key edf.
Proof. unfold d3des_set_key. by eapply cookey_width. Qed.

Lemma transform_width key edf block :
  d3des_transform w (d3des_set_key w key edf) block = d3des_transform 32 (d3des_set_key 32 key edf) block.
Proof.
  rewrite set_key_width. unfold d3des_transform. apply unscrun_same. rewrite (scrunch_width w Hw).
  unfold desfunc. rewrite (initial_width w Hw). set (b := scrunch 32 block).
  assert (exists ps, length ps = 16%nat /\ d3des_set_key 32 key edf = flat ps) as (ps & Hn & ->).
  { destruct (set_key_flat 32 key) as (ps & Hn & He & Hd). destruct edf; [by exists ps|].
    exists (reverse ps). by rewrite length_reverse. }
  destruct (initial 32 b) as [l r] eqn:Hi. rewrite (rounds_width w Hw _ _ _ _ (le_n _)).
  apply final_width; [done|]. rewrite (rounds_halves 32 8) by done. rewrite <- Hi.
  by apply halves_clean, initial_clean.
Qed.
End widths_agree.

(** The validation set in the source, its key with the bits of every byte
    reversed as the program's [bytebit] wants them. *)
Definition validation_key : list Z := [0x80; 0xc4; 0xa2; 0xe6; 0x91; 0xd5; 0xb3; 0xf7].
Example d3des_validation :
  d3des_transform 64 (d3des_set_key 64 validation_key EN0) [0x01; 0x23; 0x45; 0x67; 0x89; 0xab; 0xcd; 0xe7] =
  [0xc9; 0x57; 0x44; 0x25; 0x6a; 0x5e; 0xd3; 0x1d].
Proof. vm_compute. reflexivity. Qed.

Lemma padded_ok str : bytes str -> len (padded str) = 8 /\ bytes (padded str).
Proof.
  intros Hs. split; [done|]. unfold padded. apply Forall_map, Forall_true. intros i. cbn. unfold znth.
  destruct (nth_in_or_default (Z.to_nat (Z.of_nat i)) str 0) as [Hi| ->]; [|done].
  unfold bytes in Hs. rewrite Forall_forall in Hs. by apply Hs.
Qed.

Lemma until_nul_nth k : forall str, Forall (fun c => c <> 0) str ->
  until_nul (map (fun i => nth i str 0) (seq 0 k)) = take k str.
Proof.
  induction k as [|k IH]; intros str Hs; [done|]. cbn [seq map]. rewrite <- seq_shift, map_map.
  destruct Hs as [|c str Hc Hs]; [done|]. cbn [nth until_nul take]. destruct (Z.eqb_spec c 0); [done|]. f_equal. by apply IH.
Qed.

Lemma until_nul_padded str : Forall (fun c => c <> 0) str -> until_nul (padded str) = ztake 8 str.
Proof.
  intros Hs. unfold padded, ztake. change (Z.to_nat 8) with 8%nat. by rewrite <- (until_nul_nth 8 str Hs).
Qed.

(** ** Theorems *)

(** C30: decrypting undoes encrypting, for every key and every block, whether
    [unsigned long] has 32 bits or 64; both compute the same cipher, so that a
    client and a server of different platforms agree on it. *)
Theorem d3des_decrypts (w : Z) (key block : list Z) :
  w = 32 \/ w = 64 -> len block = 8 -> bytes block ->
  d3des_transform w (d3des_set_key w key DE1) (d3des_transform w (d3des_set_key w key EN0) block) = block /\
  (forall edf, d3des_transform w (d3des_set_key w key edf) block =
     d3des_transform 32 (d3des_set_key 32 key edf) block) /\
  len (d3des_transform w (d3des_set_key w key EN0) block) = 8 /\
  bytes (d3des_transform w (d3des_set_key w key EN0) block).
Proof.
  intros Hw Hl Hb. assert (32 <= w) as Hw' by lia. split; [by apply transform_decrypts|].
  split; [intros edf; by apply transform_width|]. apply transform_block.
Qed.

Lemma d3des_decrypts_witness :
  d3des_transform 64 (d3des_set_key 64 validation_key DE1)
    (d3des_transform 64 (d3des_set_key 64 validation_key EN0) [1; 2; 3; 4; 5; 6; 7; 8]) = [1; 2; 3; 4; 5; 6; 7; 8].
Proof. by apply (d3des_decrypts 64); [right|reflexivity|apply bytes_decide]. Defined.

(** a stored password is read back: deobfuscating what [obfuscate] writes
    gives the first eight characters of the password, which are all that a
    VNC password has; data of any other size is refused. *)
Theorem obfuscate_roundtrip (w : Z) (password : list Z) :
  w = 32 \/ w = 64 -> bytes password -> Forall (fun c => c <> 0) password ->
  deobfuscate w (obfuscate w password) = Ok (ztake 8 password) /\
  (forall data, len data <> 8 -> deobfuscate w data = Throw (invalid_argument "Bad obfuscated password buffer")).
Proof.
  intros Hw Hb Hz. assert (32 <= w) as Hw' by lia. split.
  - destruct (padded_ok password Hb) as [Hl Hp]. unfold deobfuscate, obfuscate. cbn [len]. rewrite transform_decrypts by done.
    by rewrite until_nul_padded.
  - intros data Hd. unfold deobfuscate. by destruct (Z.eqb_spec (len data) 8).
Qed.

Lemma obfuscate_roundtrip_witness :
  obfuscate 64 [115; 101; 99; 114; 101; 116] = [46; 45; 191; 87; 110; 176; 108; 158] /\
  deobfuscate 64 (obfuscate 64 [115; 101; 99; 114; 101; 116]) = Ok [115; 101; 99; 114; 101; 116].
Proof.
  split; [reflexivity|]. apply (obfuscate_roundtrip 64); [by right|by apply bytes_decide|by repeat constructor].
Defined.
