(* ===== verification/PixelFmt.v ===== *)
(** * Pixel formats ([common/rfb/PixelFormat.cxx], [.h], [.inl])

    [updateState] caches the bit counts of the channels; here they are computed
    where they are used.  Buffers are lists of bytes. *)
From stdpp Require Import base list numbers strings option.
From S2P Require Import Prelude InStream OutStream.
#[local] Open Scope Z_scope.

Record PixelFormat := MkPF {
  bpp : Z; depth : Z; trueColour : bool; bigEndian : bool;
  redMax : Z; greenMax : Z; blueMax : Z;
  redShift : Z; greenShift : Z; blueShift : Z
}.

#[export] Instance PixelFormat_eq_dec : EqDecision PixelFormat.
Proof. solve_decision. Defined.

(** [static int bits(uint16_t value)] *)
Definition bits (value : Z) : Z :=
  let step (mask n : Z) (s : Z * Z) : Z * Z :=
    let '(bits, value) := s in
    if Z.land value mask =? 0 then (bits - n, u16 (Z.shiftl value n)) else s in
  fst (step 0x8000 1 (step 0xc000 2 (step 0xf000 4 (step 0xff00 8 (16, value))))).

Definition isSane (pf : PixelFormat) : bool :=
  if negb (bpp pf =? 8) && negb (bpp pf =? 16) && negb (bpp pf =? 32) then false
  else if depth pf >? bpp pf then false
  else if negb (trueColour pf) && negb (depth pf =? 8) then false
  else if negb (Z.land (redMax pf) (redMax pf + 1) =? 0) then false
  else if negb (Z.land (greenMax pf) (greenMax pf + 1) =? 0) then false
  else if negb (Z.land (blueMax pf) (blueMax pf + 1) =? 0) then false
  else if redMax pf >=? Z.shiftl 1 8 then false
  else if greenMax pf >=? Z.shiftl 1 8 then false
  else if blueMax pf >=? Z.shiftl 1 8 then false
  else if bits (redMax pf) + bits (greenMax pf) + bits (blueMax pf) >? depth pf then false
  else if bits (redMax pf) + redShift pf >? bpp pf then false
  else if bits (greenMax pf) + greenShift pf >? bpp pf then false
  else if bits (blueMax pf) + blueShift pf >? bpp pf then false
  else if negb (Z.land (Z.shiftl (redMax pf) (redShift pf)) (Z.shiftl (greenMax pf) (greenShift pf)) =? 0) then false
  else if negb (Z.land (Z.shiftl (redMax pf) (redShift pf)) (Z.shiftl (blueMax pf) (blueShift pf)) =? 0) then false
  else if negb (Z.land (Z.shiftl (greenMax pf) (greenShift pf)) (Z.shiftl (blueMax pf) (blueShift pf)) =? 0) then false
  else true.

Definition redBits (pf : PixelFormat) : Z := bits (redMax pf).
Definition greenBits (pf : PixelFormat) : Z := bits (greenMax pf).
Definition blueBits (pf : PixelFormat) : Z := bits (blueMax pf).

(** [PixelFormat::read] *)
Definition pf_read {E} : prog E PixelFormat :=
  bpp ← readU8; depth ← readU8; bigEndian ← readU8; trueColour ← readU8;
  redMax ← readU16; greenMax ← readU16; blueMax ← readU16;
  redShift ← readU8; greenShift ← readU8; blueShift ← readU8;
  skip 3;;
  let pf :=
    if negb (z2b trueColour) then MkPF bpp depth false (z2b bigEndian) 7 7 3 0 3 6
    else MkPF bpp depth true (z2b bigEndian) redMax greenMax blueMax redShift greenShift blueShift in
  if negb (isSane pf) then Raise (protocol_error "Invalid pixel format") else mret pf.

(** [PixelFormat::write] *)
Definition pf_write (pf : PixelFormat) : list Z :=
  writeU8 (bpp pf) ++ writeU8 (depth pf) ++ writeU8 (b2z (bigEndian pf)) ++ writeU8 (b2z (trueColour pf)) ++
  writeU16 (redMax pf) ++ writeU16 (greenMax pf) ++ writeU16 (blueMax pf) ++
  writeU8 (redShift pf) ++ writeU8 (greenShift pf) ++ writeU8 (blueShift pf) ++ pad 3.

(** [PixelFormat::operator==] *)
Definition pf_eqb (pf other : PixelFormat) : bool :=
  if negb (bpp pf =? bpp other) || negb (depth pf =? depth other) then false
  else if negb (redMax pf =? redMax other) then false
  else if negb (greenMax pf =? greenMax other) then false
  else if negb (blueMax pf =? blueMax other) then false
  else if Bool.eqb (bigEndian pf) (bigEndian other) || (bpp pf =? 8) then
    if negb (redShift pf =? redShift other) then false
    else if negb (greenShift pf =? greenShift other) then false
    else if negb (blueShift pf =? blueShift other) then false
    else true
  else
    if negb (redShift pf / 8 =? 3 - redShift other / 8) then false
    else if negb (greenShift pf / 8 =? 3 - greenShift other / 8) then false
    else if negb (blueShift pf / 8 =? 3 - blueShift other / 8) then false
    else if negb (redShift pf mod 8 =? redShift other mod 8) then false
    else if negb (greenShift pf mod 8 =? greenShift other mod 8) then false
    else if negb (blueShift pf mod 8 =? blueShift other mod 8) then false
    else if negb (redShift pf / 8 =? (redShift pf + redBits pf - 1) / 8) then false
    else if negb (greenShift pf / 8 =? (greenShift pf + greenBits pf - 1) / 8) then false
    else if negb (blueShift pf / 8 =? (blueShift pf + blueBits pf - 1) / 8) then false
    else true.

Definition is888 (pf : PixelFormat) : bool :=
  if negb (trueColour pf) then false
  else if negb (bpp pf =? 32) then false
  else if negb (depth pf =? 24) then false
  else if negb (redMax pf =? 255) then false
  else if negb (greenMax pf =? 255) then false
  else if negb (blueMax pf =? 255) then false
  else if negb (Z.land (redShift pf) 7 =? 0) then false
  else if negb (Z.land (greenShift pf) 7 =? 0) then false
  else if negb (Z.land (blueShift pf) 7 =? 0) then false
  else true.

(** *** The conversion tables, as [PixelFormat::Init::Init] fills them *)

Definition subUpTable (bits : Z) : list Z :=
  let maxVal := Z.shiftl 1 bits - 1 in
  concat (replicate (Z.to_nat (256 / (maxVal + 1)))
                    (map (fun i => i * 255 / maxVal) (seqZ 0 (maxVal + 1)))).
Definition subDownTable (bits : Z) : list Z :=
  let maxVal := Z.shiftl 1 bits - 1 in
  map (fun i => (i * maxVal + 128) / 255) (seqZ 0 256).

Definition upconvTable : list Z := Eval vm_compute in concat (map subUpTable (seqZ 1 8)).
Definition downconvTable : list Z := Eval vm_compute in concat (map subDownTable (seqZ 1 8)).

(** *** Single pixels *)

Definition pixelFromBuffer (pf : PixelFormat) (buffer : list Z) : Z :=
  let b i := znth 0 buffer i in
  if bigEndian pf then
    if bpp pf =? 32 then
      Z.lor (Z.lor (Z.lor (Z.shiftl (b 0) 24) (Z.shiftl (b 1) 16)) (Z.shiftl (b 2) 8)) (b 3)
    else if bpp pf =? 16 then Z.lor (Z.shiftl (b 0) 8) (b 1)
    else b 0
  else
    let p := b 0 in
    if bpp pf >=? 16 then
      let p := Z.lor p (Z.shiftl (b 1) 8) in
      if bpp pf =? 32 then Z.lor (Z.lor p (Z.shiftl (b 2) 16)) (Z.shiftl (b 3) 24) else p
    else p.

Definition bufferFromPixel (pf : PixelFormat) (p : Z) : list Z :=
  let b n := Z.land (Z.shiftr p n) 0xff in
  if bigEndian pf then
    if bpp pf =? 32 then [b 24; b 16; b 8; b 0]
    else if bpp pf =? 16 then [b 8; b 0]
    else [b 0]
  else
    [b 0] ++ (if bpp pf >=? 16 then [b 8] ++ (if bpp pf =? 32 then [b 16; b 24] else []) else []).

Definition pixelFromRGB (pf : PixelFormat) (red green blue : Z) : Z :=
  Z.lor (Z.lor
    (u32 (Z.shiftl (znth 0 downconvTable ((redBits pf - 1) * 256 + red)) (redShift pf)))
    (u32 (Z.shiftl (znth 0 downconvTable ((greenBits pf - 1) * 256 + green)) (greenShift pf))))
    (u32 (Z.shiftl (znth 0 downconvTable ((blueBits pf - 1) * 256 + blue)) (blueShift pf))).

Definition rgbFromPixel (pf : PixelFormat) (p : Z) : Z * Z * Z :=
  (znth 0 upconvTable ((redBits pf - 1) * 256 + u8 (Z.shiftr p (redShift pf))),
   znth 0 upconvTable ((greenBits pf - 1) * 256 + u8 (Z.shiftr p (greenShift pf))),
   znth 0 upconvTable ((blueBits pf - 1) * 256 + u8 (Z.shiftr p (blueShift pf)))).

(** The 16-bit variants, through which [pixelFromPixel] goes. *)
Definition pixelFromRGB16 (pf : PixelFormat) (red green blue : Z) : Z :=
  pixelFromRGB pf (Z.shiftr red 8) (Z.shiftr green 8) (Z.shiftr blue 8).
Definition rgb16FromPixel (pf : PixelFormat) (p : Z) : Z * Z * Z :=
  let '(r, g, b) := rgbFromPixel pf p in
  (Z.lor (Z.shiftl r 8) r, Z.lor (Z.shiftl g 8) g, Z.lor (Z.shiftl b 8) b).
Definition pixelFromPixel (pf srcPF : PixelFormat) (src : Z) : Z :=
  let '(r, g, b) := rgb16FromPixel srcPF src in pixelFromRGB16 pf r g b.

(** *** Runs of pixels *)

(** The bytes of the channels and of the padding in an 888 pixel. *)
Definition off888 (pf : PixelFormat) (shift : Z) : Z :=
  if bigEndian pf then (24 - shift) / 8 else shift / 8.
Definition pad888 (pf : PixelFormat) : Z :=
  let s := 48 - redShift pf - greenShift pf - blueShift pf in
  if bigEndian pf then (24 - s) / 8 else s / 8.

(** One pixel of the optimised and of the generic branch of [bufferFromRGB];
    [dst] holds the bytes that are overwritten. *)
Definition store888 (pf : PixelFormat) (dst : list Z) (r g b : Z) : list Z :=
  <[Z.to_nat (pad888 pf) := 0]> (<[Z.to_nat (off888 pf (blueShift pf)) := b]>
    (<[Z.to_nat (off888 pf (greenShift pf)) := g]> (<[Z.to_nat (off888 pf (redShift pf)) := r]> dst))).
Definition store_generic (pf : PixelFormat) (r g b : Z) : list Z :=
  bufferFromPixel pf (pixelFromRGB pf r g b).

(** [bufferFromRGB(dst, src, pixels)] *)
Fixpoint bufferFromRGB (pf : PixelFormat) (dst src : list Z) (pixels : nat) {struct pixels} : list Z :=
  match pixels, src with
  | S pixels, r :: g :: b :: src =>
      (if is888 pf then store888 pf (ztake 4 dst) r g b else store_generic pf r g b)
      ++ bufferFromRGB pf (zdrop (bpp pf / 8) dst) src pixels
  | _, _ => []
  end.

Definition load888 (pf : PixelFormat) (src : list Z) : Z * Z * Z :=
  (znth 0 src (off888 pf (redShift pf)), znth 0 src (off888 pf (greenShift pf)),
   znth 0 src (off888 pf (blueShift pf))).
Definition load_generic (pf : PixelFormat) (src : list Z) : Z * Z * Z :=
  rgbFromPixel pf (pixelFromBuffer pf src).

(** [rgbFromBuffer(dst, src, pixels)] *)
Fixpoint rgbFromBuffer (pf : PixelFormat) (src : list Z) (pixels : nat) : list Z :=
  match pixels with
  | O => []
  | S pixels =>
      let '(r, g, b) := if is888 pf then load888 pf src else load_generic pf src in
      r :: g :: b :: rgbFromBuffer pf (zdrop (bpp pf / 8) src) pixels
  end.

(** ** Properties *)

(** The ranges of the fields as they travel on the wire. *)
Definition pf_wf (pf : PixelFormat) : Prop :=
  0 <= bpp pf < 256 /\ 0 <= depth pf < 256 /\
  0 <= redMax pf < 65536 /\ 0 <= greenMax pf < 65536 /\ 0 <= blueMax pf < 65536 /\
  0 <= redShift pf < 256 /\ 0 <= greenShift pf < 256 /\ 0 <= blueShift pf < 256.

Lemma len_pf_write pf : len (pf_write pf) = 16.
Proof. unfold pf_write. by autorewrite with len. Qed.

#[export] Hint Rewrite len_pf_write : len.

Lemma bytes_pf_write pf : bytes (pf_write pf).
Proof. unfold pf_write. rewrite !bytes_app. auto 20 with vnc. Qed.

Lemma reads_back_pf {E} pf : pf_wf pf -> isSane pf = true -> trueColour pf = true ->
  reads_back (E:=E) pf_read pf_write (fun pf => pf) 16 pf.
Proof.
  intros Hwf Hs Ht C k d rp c Hc. unfold pf_read, pf_write. read_fields.
  rewrite !z2b_u8, Ht. cbn [negb]. unfold pf_wf in Hwf. rewrite !u8_id, !u16_id by lia.
  assert (MkPF (bpp pf) (depth pf) true (bigEndian pf) (redMax pf) (greenMax pf) (blueMax pf)
            (redShift pf) (greenShift pf) (blueShift pf) = pf) as -> by (destruct pf; cbn in *; by subst).
  rewrite Hs. cbn [negb]. unfold mret, prog_mret. cbn [prog_bind].
  f_equal. f_equal; [|lia]. destruct rp; cbn; [|done]. by rewrite <- !app_assoc.
Qed.

Lemma arun_pf_read {E A} (k : PixelFormat -> prog E A) pf d c :
  pf_wf pf -> isSane pf = true -> trueColour pf = true -> 16 <= c ->
  arun (prog_bind k pf_read) (AState (pf_write pf ++ d) None c) = arun (k pf) (AState d None (c - 16)).
Proof. intros Hwf Hs Ht Hc. by rewrite (reads_back_pf pf Hwf Hs Ht). Qed.

Lemma reads_pf_read {E} : reads 16 (pf_read (E:=E)).
Proof. unfold pf_read. reads_seq. case_test; constructor; done. Qed.
#[export] Hint Resolve reads_pf_read : reads.

(** *** Conversion of single pixels *)

(** Reading a channel up to 8 bits and back down loses nothing. *)
Lemma down_up_index i : 0 <= i < 2048 ->
  znth 0 downconvTable (i / 256 * 256 + znth 0 upconvTable i) = (i mod 256) mod 2 ^ (i / 256 + 1) /\
  0 <= znth 0 upconvTable i < 256.
Proof. intros H. by_range 2048 i H. Qed.

Lemma down_up bits x : 1 <= bits <= 8 -> 0 <= x < 256 ->
  znth 0 downconvTable ((bits - 1) * 256 + znth 0 upconvTable ((bits - 1) * 256 + x)) = x mod 2 ^ bits.
Proof.
  intros Hb Hx. destruct (down_up_index ((bits - 1) * 256 + x)) as [H _]; [lia|].
  rewrite Z.div_add_l, Z.div_small, Z.add_0_r in H by lia.
  replace (((bits - 1) * 256 + x) mod 256) with x in H by zlia.
  by replace (bits - 1 + 1) with bits in H by lia.
Qed.

(** The eight-bit tables are the identity. *)
Lemma conv8 x : 0 <= x < 256 -> znth 0 downconvTable (7 * 256 + x) = x /\ znth 0 upconvTable (7 * 256 + x) = x.
Proof. intros H. by_bytes x H. Qed.

Lemma sane_max max : 0 < max < 256 -> Z.land max (max + 1) = 0 ->
  max = Z.ones (bits max) /\ 1 <= bits max <= 8.
Proof. intros H. by_bytes max H. Qed.

(** Cutting a channel out of a pixel and putting it back. *)
Lemma channel_mask p s n : 0 <= s -> 0 <= n ->
  Z.shiftl (Z.shiftr p s mod 2 ^ n) s = Z.land p (Z.shiftl (Z.ones n) s).
Proof.
  intros Hs Hn. rewrite <- Z.land_ones by done. apply Z.bits_inj'. intros i Hi.
  rewrite Z.shiftl_spec, !Z.land_spec, Z.shiftl_spec by done.
  destruct (Z.lt_ge_cases i s).
  - rewrite !(Z.testbit_neg_r _ (i - s)) by lia. by rewrite !andb_false_r.
  - rewrite Z.shiftr_spec by lia. by replace (i - s + s) with i by lia.
Qed.

Lemma u8_mod z n : 0 <= n <= 8 -> u8 z mod 2 ^ n = z mod 2 ^ n.
Proof.
  intros H. unfold u8. apply Z.mod_mod_divide. exists (2 ^ (8 - n)). rewrite <- Z.pow_add_r by lia.
  f_equal. lia.
Qed.

(** One channel of [pixelFromRGB(rgbFromPixel(p))]. *)
Lemma channel_roundtrip p max s : 0 < max < 256 -> Z.land max (max + 1) = 0 ->
  0 <= s -> bits max + s <= 32 ->
  u32 (Z.shiftl (znth 0 downconvTable ((bits max - 1) * 256 +
        znth 0 upconvTable ((bits max - 1) * 256 + u8 (Z.shiftr p s)))) s) = Z.land p (Z.shiftl max s).
Proof.
  intros Hm Hl Hs Hb. destruct (sane_max max Hm Hl) as [Hmax Hbits].
  rewrite down_up, u8_mod by (lia || apply u8_range). rewrite u32_id.
  - rewrite channel_mask by lia. by rewrite <- Hmax.
  - pose proof (Z.mod_pos_bound (Z.shiftr p s) (2 ^ bits max) ltac:(lia)).
    rewrite Z.shiftl_mul_pow2 by done. split; [lia|].
    apply Z.lt_le_trans with (2 ^ bits max * 2 ^ s); [nia|].
    rewrite <- Z.pow_add_r by lia. apply (Z.pow_le_mono_r 2 _ 32); lia.
Qed.

(** The facts about the channels a sane format comes with. *)
Lemma sane_channels pf : isSane pf = true ->
  (bpp pf = 8 \/ bpp pf = 16 \/ bpp pf = 32) /\
  Z.land (redMax pf) (redMax pf + 1) = 0 /\ Z.land (greenMax pf) (greenMax pf + 1) = 0 /\
  Z.land (blueMax pf) (blueMax pf + 1) = 0 /\
  redMax pf < 256 /\ greenMax pf < 256 /\ blueMax pf < 256 /\
  bits (redMax pf) + redShift pf <= bpp pf /\ bits (greenMax pf) + greenShift pf <= bpp pf /\
  bits (blueMax pf) + blueShift pf <= bpp pf /\
  Z.land (Z.shiftl (redMax pf) (redShift pf)) (Z.shiftl (greenMax pf) (greenShift pf)) = 0 /\
  Z.land (Z.shiftl (redMax pf) (redShift pf)) (Z.shiftl (blueMax pf) (blueShift pf)) = 0 /\
  Z.land (Z.shiftl (greenMax pf) (greenShift pf)) (Z.shiftl (blueMax pf) (blueShift pf)) = 0.
Proof.
  unfold isSane. intros H. rewrite ?Z.gtb_ltb, ?Z.geb_leb in H.
  change (Z.shiftl 1 8) with 256 in H.
  repeat match type of H with
  | (if ?b then false else _) = true => destruct b eqn:?; [discriminate H|]
  end.
  bool_decide_hyps. repeat split; try done; lia.
Qed.

(** The bits of a pixel that carry colour. *)
Definition pixel_mask (pf : PixelFormat) : Z :=
  Z.lor (Z.lor (Z.shiftl (redMax pf) (redShift pf)) (Z.shiftl (greenMax pf) (greenShift pf)))
        (Z.shiftl (blueMax pf) (blueShift pf)).

Definition channels_wf (pf : PixelFormat) : Prop :=
  0 < redMax pf /\ 0 < greenMax pf /\ 0 < blueMax pf /\
  0 <= redShift pf /\ 0 <= greenShift pf /\ 0 <= blueShift pf.

Lemma pixel_rgb_pixel pf p : isSane pf = true -> channels_wf pf ->
  (let '(r, g, b) := rgbFromPixel pf p in pixelFromRGB pf r g b) = Z.land p (pixel_mask pf).
Proof.
  intros Hs Hw. destruct (sane_channels pf Hs) as (Hb & H1 & H2 & H3 & H4 & H5 & H6 & H7 & H8 & H9 & _).
  unfold channels_wf in Hw. unfold rgbFromPixel, pixelFromRGB, redBits, greenBits, blueBits, pixel_mask.
  rewrite !channel_roundtrip by (done || lia). by rewrite !Z.land_lor_distr_r.
Qed.

(** *** The 888 fast paths *)

Lemma is888_fields pf : is888 pf = true ->
  bpp pf = 32 /\ redMax pf = 255 /\ greenMax pf = 255 /\ blueMax pf = 255 /\
  Z.land (redShift pf) 7 = 0 /\ Z.land (greenShift pf) 7 = 0 /\ Z.land (blueShift pf) 7 = 0.
Proof.
  unfold is888. intros H.
  repeat match type of H with
  | (if ?b then false else _) = true => destruct b eqn:?; [discriminate H|]
  end.
  by bool_decide_hyps.
Qed.

Lemma shift_multiple s : 0 <= s <= 24 -> Z.land s 7 = 0 -> s = 0 \/ s = 8 \/ s = 16 \/ s = 24.
Proof. intros H. by_range 25 s H. Qed.

(** The four byte positions, in some order. *)
Lemma shifts888 pf : is888 pf = true -> isSane pf = true -> channels_wf pf ->
  let S s := s = 0 \/ s = 8 \/ s = 16 \/ s = 24 in
  S (redShift pf) /\ S (greenShift pf) /\ S (blueShift pf) /\
  redShift pf <> greenShift pf /\ redShift pf <> blueShift pf /\ greenShift pf <> blueShift pf.
Proof.
  intros H8 Hs (_ & _ & _ & Hr & Hg & Hb) S.
  destruct (is888_fields pf H8) as (E1 & E2 & E3 & E4 & E5 & E6 & E7).
  destruct (sane_channels pf Hs) as (_ & _ & _ & _ & _ & _ & _ & H7 & H9 & H10 & D1 & D2 & D3).
  rewrite E2, E3, E4, E1 in *. change (bits 255) with 8 in *.
  assert (forall s t, 0 <= s -> Z.land (Z.shiftl 255 s) (Z.shiftl 255 t) = 0 -> s <> t) as Hne.
  { intros s t Hs0 Hl <-. rewrite Z.land_diag, Z.shiftl_mul_pow2 in Hl by done.
    pose proof (Z.pow_pos_nonneg 2 s). lia. }
  split; [apply shift_multiple; [lia|done]|]. split; [apply shift_multiple; [lia|done]|].
  split; [apply shift_multiple; [lia|done]|]. repeat split; by apply Hne.
Qed.

Lemma u32_shifted x s : 0 <= x < 256 -> s = 0 \/ s = 8 \/ s = 16 \/ s = 24 ->
  u32 (Z.shiftl x s) = Z.shiftl x s.
Proof.
  intros Hx Hs. rewrite Z.shiftl_mul_pow2 by lia. apply u32_id.
  destruct Hs as [-> |[-> |[-> | ->]]]; lia.
Qed.

(** Byte [n / 8] of a byte shifted to [s]. *)
Lemma byte_at x s n : 0 <= x < 256 -> s = 0 \/ s = 8 \/ s = 16 \/ s = 24 ->
  n = 0 \/ n = 8 \/ n = 16 \/ n = 24 ->
  Z.land (Z.shiftr (Z.shiftl x s) n) 0xff = if s =? n then x else 0.
Proof.
  intros Hx Hs Hn.
  destruct Hs as [-> |[-> |[-> | ->]]], Hn as [-> |[-> |[-> | ->]]]; by_bytes x Hx.
Qed.

Lemma u8_land z : u8 z = Z.land z 0xff.
Proof. by rewrite land_255. Qed.

Lemma pixelFromRGB_888 pf r g b : is888 pf = true -> isSane pf = true -> channels_wf pf ->
  is_byte r -> is_byte g -> is_byte b ->
  pixelFromRGB pf r g b =
  Z.lor (Z.lor (Z.shiftl r (redShift pf)) (Z.shiftl g (greenShift pf))) (Z.shiftl b (blueShift pf)).
Proof.
  intros H8 Hs Hw Hr Hg Hb. destruct (shifts888 pf H8 Hs Hw) as (S1 & S2 & S3 & _).
  destruct (is888_fields pf H8) as (_ & E2 & E3 & E4 & _).
  unfold pixelFromRGB, redBits, greenBits, blueBits. rewrite E2, E3, E4.
  change (bits 255 - 1) with 7.
  rewrite !(proj1 (conv8 _ Hr)), !(proj1 (conv8 _ Hg)), !(proj1 (conv8 _ Hb)).
  by rewrite !u32_shifted.
Qed.

Lemma rgbFromPixel_888 pf p : is888 pf = true -> rgbFromPixel pf p =
  (Z.land (Z.shiftr p (redShift pf)) 0xff, Z.land (Z.shiftr p (greenShift pf)) 0xff,
   Z.land (Z.shiftr p (blueShift pf)) 0xff).
Proof.
  intros H8. destruct (is888_fields pf H8) as (_ & E2 & E3 & E4 & _).
  unfold rgbFromPixel, redBits, greenBits, blueBits. rewrite E2, E3, E4.
  change (bits 255 - 1) with 7. by rewrite !(proj2 (conv8 _ (u8_range _))), !u8_land.
Qed.

(** Case analysis over the positions of the channels and the byte order. *)
Ltac cases888 S1 S2 S3 :=
  destruct S1 as [Er|[Er|[Er|Er]]], S2 as [Eg|[Eg|[Eg|Eg]]], S3 as [Eb|[Eb|[Eb|Eb]]];
  rewrite ?Er, ?Eg, ?Eb in *; try congruence.

Lemma store888_generic pf d0 d1 d2 d3 r g b :
  is888 pf = true -> isSane pf = true -> channels_wf pf -> is_byte r -> is_byte g -> is_byte b ->
  store888 pf [d0; d1; d2; d3] r g b = store_generic pf r g b.
Proof.
  intros H8 Hs Hw Hr Hg Hb. destruct (shifts888 pf H8 Hs Hw) as (S1 & S2 & S3 & N1 & N2 & N3).
  destruct (is888_fields pf H8) as (E1 & _).
  unfold store_generic, bufferFromPixel. rewrite pixelFromRGB_888, E1 by done.
  rewrite !Z.shiftr_lor, !Z.land_lor_distr_l, !byte_at by (done || auto).
  unfold store888, off888, pad888.
  cases888 S1 S2 S3; destruct (bigEndian pf); cbn; by rewrite ?Z.lor_0_r, ?Z.lor_0_l.
Qed.

(** The bytes of a pixel read in either byte order. *)
Lemma be_byte s0 s1 s2 s3 n : bytes [s0; s1; s2; s3] -> n = 0 \/ n = 8 \/ n = 16 \/ n = 24 ->
  Z.land (Z.shiftr (Z.lor (Z.lor (Z.lor (Z.shiftl s0 24) (Z.shiftl s1 16)) (Z.shiftl s2 8)) s3) n) 0xff
  = znth 0 [s0; s1; s2; s3] ((24 - n) / 8).
Proof.
  intros Hb Hn. assert (is_byte s0 /\ is_byte s1 /\ is_byte s2 /\ is_byte s3) as (B0 & B1 & B2 & B3)
    by (unfold bytes in Hb; rewrite !Forall_cons_iff in Hb; naive_solver).
  assert (s3 = Z.shiftl s3 0) as Es by (by rewrite Z.shiftl_0_r). rewrite Es at 1.
  rewrite !Z.shiftr_lor, !Z.land_lor_distr_l, !byte_at by (done || auto).
  destruct Hn as [-> |[-> |[-> | ->]]]; cbn; by rewrite ?Z.lor_0_r, ?Z.lor_0_l.
Qed.

Lemma le_byte s0 s1 s2 s3 n : bytes [s0; s1; s2; s3] -> n = 0 \/ n = 8 \/ n = 16 \/ n = 24 ->
  Z.land (Z.shiftr (Z.lor (Z.lor (Z.lor s0 (Z.shiftl s1 8)) (Z.shiftl s2 16)) (Z.shiftl s3 24)) n) 0xff
  = znth 0 [s0; s1; s2; s3] (n / 8).
Proof.
  intros Hb Hn. assert (is_byte s0 /\ is_byte s1 /\ is_byte s2 /\ is_byte s3) as (B0 & B1 & B2 & B3)
    by (unfold bytes in Hb; rewrite !Forall_cons_iff in Hb; naive_solver).
  assert (s0 = Z.shiftl s0 0) as Es by (by rewrite Z.shiftl_0_r). rewrite Es at 1.
  rewrite !Z.shiftr_lor, !Z.land_lor_distr_l, !byte_at by (done || auto).
  destruct Hn as [-> |[-> |[-> | ->]]]; cbn; by rewrite ?Z.lor_0_r, ?Z.lor_0_l.
Qed.

Lemma load888_generic pf s0 s1 s2 s3 rest :
  is888 pf = true -> isSane pf = true -> channels_wf pf -> bytes [s0; s1; s2; s3] ->
  load888 pf ([s0; s1; s2; s3] ++ rest) = load_generic pf ([s0; s1; s2; s3] ++ rest).
Proof.
  intros H8 Hs Hw Hb. destruct (shifts888 pf H8 Hs Hw) as (S1 & S2 & S3 & _).
  destruct (is888_fields pf H8) as (E1 & _).
  unfold load_generic, pixelFromBuffer, load888, off888. rewrite rgbFromPixel_888, E1 by done.
  change (znth 0 ([s0; s1; s2; s3] ++ rest) 0) with s0. change (znth 0 ([s0; s1; s2; s3] ++ rest) 1) with s1.
  change (znth 0 ([s0; s1; s2; s3] ++ rest) 2) with s2. change (znth 0 ([s0; s1; s2; s3] ++ rest) 3) with s3.
  assert (forall n, n = 0 \/ n = 8 \/ n = 16 \/ n = 24 ->
    znth 0 ([s0; s1; s2; s3] ++ rest) (n / 8) = znth 0 [s0; s1; s2; s3] (n / 8) /\
    znth 0 ([s0; s1; s2; s3] ++ rest) ((24 - n) / 8) = znth 0 [s0; s1; s2; s3] ((24 - n) / 8)) as Hz
    by (intros n [-> |[-> |[-> | ->]]]; done).
  change (32 =? 32) with true. change (32 >=? 16) with true. cbv iota.
  destruct (bigEndian pf).
  - rewrite !be_byte by done. by rewrite !(proj2 (Hz _ S1)), !(proj2 (Hz _ S2)), !(proj2 (Hz _ S3)).
  - rewrite !le_byte by done. by rewrite !(proj1 (Hz _ S1)), !(proj1 (Hz _ S2)), !(proj1 (Hz _ S3)).
Qed.

(** *** Theorems *)

(** The generic branches of the two run conversions. *)
Fixpoint bufferFromRGB_generic (pf : PixelFormat) (src : list Z) (pixels : nat) {struct pixels} : list Z :=
  match pixels, src with
  | S pixels, r :: g :: b :: src => store_generic pf r g b ++ bufferFromRGB_generic pf src pixels
  | _, _ => []
  end.
Fixpoint rgbFromBuffer_generic (pf : PixelFormat) (src : list Z) (pixels : nat) : list Z :=
  match pixels with
  | O => []
  | S pixels =>
      let '(r, g, b) := load_generic pf src in
      r :: g :: b :: rgbFromBuffer_generic pf (zdrop (bpp pf / 8) src) pixels
  end.

Lemma split4 (l : list Z) : 4 <= len l -> exists a b c d r, l = [a; b; c; d] ++ r.
Proof.
  destruct l as [|a [|b [|c [|d r]]]]; unfold len; cbn; try lia. intros _. by exists a, b, c, d, r.
Qed.

Lemma bytes_three (r g b : Z) l : bytes (r :: g :: b :: l) -> is_byte r /\ is_byte g /\ is_byte b /\ bytes l.
Proof. unfold bytes. rewrite !Forall_cons_iff. naive_solver. Qed.

(** C39: the optimised 888 branches of [bufferFromRGB] and [rgbFromBuffer] compute
    what the generic branches do: for every sane format whose channels are not
    degenerate, every run of pixels, and whatever the destination held. *)
Theorem fast_paths_888 (pf : PixelFormat) (dst src : list Z) (pixels : nat) :
  isSane pf = true -> channels_wf pf -> bytes src ->
  (bpp pf / 8 * Z.of_nat pixels <= len dst ->
   bufferFromRGB pf dst src pixels = bufferFromRGB_generic pf src pixels) /\
  (bpp pf / 8 * Z.of_nat pixels <= len src ->
   rgbFromBuffer pf src pixels = rgbFromBuffer_generic pf src pixels).
Proof.
  intros Hs Hw Hb. destruct (is888 pf) eqn:H8.
  - destruct (is888_fields pf H8) as (E & _). rewrite E. change (32 / 8) with 4.
    split; revert dst src Hb; induction pixels as [|n IH]; intros dst src Hb Hl; try done.
    + cbn [bufferFromRGB bufferFromRGB_generic]. destruct src as [|r [|g [|b src]]]; try done.
      rewrite H8, E. destruct (split4 dst ltac:(lia)) as (d0 & d1 & d2 & d3 & dr & ->).
      apply bytes_three in Hb as (Hr & Hg & Hb & Hsrc). rewrite ztake_app, zdrop_app by done.
      rewrite store888_generic, IH by (done || (autorewrite with len in *; lia)). done.
    + cbn [rgbFromBuffer rgbFromBuffer_generic]. rewrite H8, E.
      destruct (split4 src ltac:(lia)) as (d0 & d1 & d2 & d3 & dr & ->).
      apply bytes_app in Hb as [Hb1 Hb2]. rewrite load888_generic, zdrop_app by done.
      destruct (load_generic pf _) as [[? ?] ?].
      rewrite (IH dst); [done|done|]. autorewrite with len in Hl. unfold len in Hl |- *. cbn [length] in Hl. lia.
  - split; intros _; revert dst src Hb; induction pixels as [|n IH]; intros dst src Hb; try done;
      cbn [bufferFromRGB bufferFromRGB_generic rgbFromBuffer rgbFromBuffer_generic].
    + destruct src as [|r [|g [|b src]]]; try done. apply bytes_three in Hb as (_ & _ & _ & Hb).
      by rewrite H8, IH.
    + rewrite H8. destruct (load_generic pf src) as [[? ?] ?]. rewrite (IH dst); [done|].
      by apply bytes_zdrop.
Qed.

Definition rgb888 : PixelFormat := MkPF 32 24 true false 255 255 255 16 8 0.
Definition rgb565be : PixelFormat := MkPF 16 16 true true 31 63 31 11 5 0.

Lemma fast_paths_888_witness :
  bufferFromRGB rgb888 [9; 9; 9; 9; 9; 9; 9; 9] [1; 2; 3; 4; 5; 6] 2 = [3; 2; 1; 0; 6; 5; 4; 0] /\
  rgbFromBuffer rgb888 [3; 2; 1; 0; 6; 5; 4; 0] 2 = rgbFromBuffer_generic rgb888 [3; 2; 1; 0; 6; 5; 4; 0] 2.
Proof.
  assert (channels_wf rgb888) as Hw by (unfold channels_wf; cbn; lia).
  assert (forall l, forallb (fun b => (0 <=? b) && (b <? 256)) l = true -> bytes l) as Hb.
  { intros l Hl. rewrite forallb_forall in Hl. apply List.Forall_forall. intros b Hin%Hl.
    unfold is_byte. eval_pow2. bool_decide_hyps. lia. }
  destruct (fast_paths_888 rgb888 [9; 9; 9; 9; 9; 9; 9; 9] [1; 2; 3; 4; 5; 6] 2 eq_refl Hw (Hb [1; 2; 3; 4; 5; 6] eq_refl)) as [H1 _].
  destruct (fast_paths_888 rgb888 [] [3; 2; 1; 0; 6; 5; 4; 0] 2 eq_refl Hw (Hb [3; 2; 1; 0; 6; 5; 4; 0] eq_refl)) as [_ H2].
  split; [rewrite H1; [reflexivity|vm_compute; congruence]|]. apply H2. vm_compute. congruence.
Defined.

(** Converting a pixel to RGB and back in the same sane format keeps exactly
    the bits that carry colour; in particular a pixel without stray bits
    survives, at every depth and channel layout. *)
Theorem pixel_rgb_roundtrip (pf : PixelFormat) (p : Z) :
  isSane pf = true -> channels_wf pf ->
  (let '(r, g, b) := rgbFromPixel pf p in pixelFromRGB pf r g b) = Z.land p (pixel_mask pf) /\
  pixelFromPixel pf pf p = Z.land p (pixel_mask pf).
Proof.
  intros Hs Hw. pose proof (pixel_rgb_pixel pf p Hs Hw) as H. split; [done|].
  unfold pixelFromPixel, rgb16FromPixel, pixelFromRGB16.
  destruct (sane_channels pf Hs) as (_ & M1 & M2 & M3 & M4 & M5 & M6 & _). destruct Hw as (W1 & W2 & W3 & _).
  assert (forall b m x, b = bits m -> 0 < m < 256 -> Z.land m (m + 1) = 0 -> 
    0 <= znth 0 upconvTable ((b - 1) * 256 + u8 x) < 256) as Hup.
  { intros b m x -> Hm Hl. destruct (sane_max m Hm Hl) as [_ Hbits]. pose proof (u8_range x).
    apply (down_up_index ((bits m - 1) * 256 + u8 x)). lia. }
  destruct (rgbFromPixel pf p) as [[r g] b] eqn:Hrgb. rewrite <- H.
  unfold rgbFromPixel, redBits, greenBits, blueBits in Hrgb. injection Hrgb as <- <- <-.
  assert (forall y, 0 <= y < 256 -> Z.shiftr (Z.lor (Z.shiftl y 8) y) 8 = y) as Hhi
    by (intros y Hy; by_bytes y Hy).
  rewrite !Hhi; [done|eapply Hup; [reflexivity|lia|done]..].
Qed.

Lemma pixel_rgb_roundtrip_witness :
  (let '(r, g, b) := rgbFromPixel rgb565be 0xabcd in pixelFromRGB rgb565be r g b) = 0xabcd /\
  pixelFromPixel rgb565be rgb565be 0xabcd = 0xabcd.
Proof.
  apply (pixel_rgb_roundtrip rgb565be 0xabcd eq_refl). unfold channels_wf. cbn. lia.
Defined.
