(* ===== verification/Geometry.v ===== *)
(** * Points and rectangles ([common/core/Rect.h])

    Coordinates are C [int]s, taken as exact integers. *)
From stdpp Require Import base list numbers.
From S2P Require Import Prelude.
#[local] Open Scope Z_scope.

Record Point := MkPoint { px : Z; py : Z }.
Record Rect := MkRect { tl : Point; br : Point }.

#[export] Instance Point_eq_dec : EqDecision Point.
Proof. solve_decision. Defined.
#[export] Instance Rect_eq_dec : EqDecision Rect.
Proof. solve_decision. Defined.

(** [Rect(x1, y1, x2, y2)] *)
Definition rect (x1 y1 x2 y2 : Z) : Rect := MkRect (MkPoint x1 y1) (MkPoint x2 y2).

Definition pt_negate (p : Point) : Point := MkPoint (- px p) (- py p).
Definition pt_translate (p q : Point) : Point := MkPoint (px p + px q) (py p + py q).
Definition pt_subtract (p q : Point) : Point := MkPoint (px p - px q) (py p - py q).
Definition pt_eqb (p q : Point) : bool := (px p =? px q) && (py p =? py q).

Definition setXYWH (x y w h : Z) : Rect := rect x y (x + w) (y + h).

Definition is_empty (r : Rect) : bool := (px (tl r) >=? px (br r)) || (py (tl r) >=? py (br r)).

Definition intersect (a r : Rect) : Rect :=
  let x1 := Z.max (px (tl a)) (px (tl r)) in
  let y1 := Z.max (py (tl a)) (py (tl r)) in
  rect x1 y1 (Z.max (Z.min (px (br a)) (px (br r))) x1)
             (Z.max (Z.min (py (br a)) (py (br r))) y1).

Definition union_boundary (a r : Rect) : Rect :=
  if is_empty r then a
  else if is_empty a then r
  else rect (Z.min (px (tl a)) (px (tl r))) (Z.min (py (tl a)) (py (tl r)))
            (Z.max (px (br a)) (px (br r))) (Z.max (py (br a)) (py (br r))).

Definition translate (r : Rect) (p : Point) : Rect :=
  MkRect (pt_translate (tl r) p) (pt_translate (br r) p).

Definition rect_eqb (a r : Rect) : bool := pt_eqb (tl r) (tl a) && pt_eqb (br r) (br a).

Definition enclosed_by (a r : Rect) : bool :=
  (px (tl a) >=? px (tl r)) && (py (tl a) >=? py (tl r)) &&
  (px (br a) <=? px (br r)) && (py (br a) <=? py (br r)).

Definition overlaps (a r : Rect) : bool :=
  (px (tl a) <? px (br r)) && (py (tl a) <? py (br r)) &&
  (px (br a) >? px (tl r)) && (py (br a) >? py (tl r)).

Definition width (r : Rect) : Z := px (br r) - px (tl r).
Definition height (r : Rect) : Z := py (br r) - py (tl r).
Definition dimensions (r : Rect) : Point := MkPoint (width r) (height r).

Definition area (r : Rect) : Z :=
  if is_empty r then 0 else (px (br r) - px (tl r)) * (py (br r) - py (tl r)).

Definition contains (r : Rect) (p : Point) : bool :=
  (px (tl r) <=? px p) && (py (tl r) <=? py p) && (px (br r) >? px p) && (py (br r) >? py p).

(** ** Properties *)

(** Turns the boolean comparisons of rectangles into arithmetic. *)
Ltac rect_arith :=
  unfold intersect, union_boundary, is_empty, enclosed_by, overlaps, contains, translate, rect_eqb,
    pt_eqb, pt_translate, area, width, height, setXYWH, rect in *; cbn in *;
  rewrite ?andb_true_iff, ?orb_true_iff, ?orb_false_iff, ?Z.geb_leb, ?Z.gtb_ltb,
    ?Z.leb_le, ?Z.ltb_lt, ?Z.eqb_eq, ?Z.leb_gt in *.

Lemma contains_spec r x y :
  contains r (MkPoint x y) = true <->
  px (tl r) <= x < px (br r) /\ py (tl r) <= y < py (br r).
Proof. rect_arith. lia. Qed.

Lemma is_empty_spec r : is_empty r = true <-> px (tl r) >= px (br r) \/ py (tl r) >= py (br r).
Proof. rect_arith. lia. Qed.

Lemma is_empty_false r : is_empty r = false <-> px (tl r) < px (br r) /\ py (tl r) < py (br r).
Proof. rect_arith. lia. Qed.

(** Rectangles as the wire carries them: corner, width and height in 16 bits. *)
Definition rect_wf (r : Rect) : Prop :=
  u16_wf (px (tl r)) /\ u16_wf (py (tl r)) /\ u16_wf (width r) /\ u16_wf (height r).

Lemma rect_xywh r : rect (px (tl r)) (py (tl r)) (px (tl r) + width r) (py (tl r) + height r) = r.
Proof. destruct r as [[] []]. unfold rect, width, height. cbn. repeat f_equal; lia. Qed.

(** The rectangle operations are the operations on sets of pixels:
    [intersect] is intersection, [is_empty] emptiness, [enclosed_by] (of a
    non-empty rectangle) inclusion, [overlaps] (of non-empty rectangles) a
    common pixel, and [translate] moves the pixels. *)
Theorem rect_pixel_sets (a b : Rect) (d : Point) :
  (forall p, contains (intersect a b) p = contains a p && contains b p) /\
  (is_empty a = true <-> forall p, contains a p = false) /\
  (is_empty a = false -> enclosed_by a b = true <-> forall p, contains a p = true -> contains b p = true) /\
  (is_empty a = false -> is_empty b = false ->
     overlaps a b = true <-> exists p, contains a p = true /\ contains b p = true) /\
  (forall p, contains (translate a d) (pt_translate p d) = contains a p).
Proof.
  destruct a as [[ax1 ay1] [ax2 ay2]], b as [[bx1 by1] [bx2 by2]], d as [dx dy].
  split; [|split; [|split; [|split]]].
  - intros [x y]. apply eq_true_iff_eq. rewrite andb_true_iff, !contains_spec. rect_arith. lia.
  - rewrite is_empty_spec. split.
    + intros He [x y]. apply not_true_iff_false. rewrite contains_spec. lia.
    + intros Hp. specialize (Hp (MkPoint ax1 ay1)). apply not_true_iff_false in Hp.
      rewrite contains_spec in Hp. cbn in *. lia.
  - rewrite is_empty_false. intros Hne. split.
    + intros He [x y]. rewrite !contains_spec. rect_arith. lia.
    + intros Hp. pose proof (Hp (MkPoint ax1 ay1)) as H1. pose proof (Hp (MkPoint (ax2 - 1) (ay2 - 1))) as H2.
      rewrite !contains_spec in *. rect_arith. lia.
  - rewrite !is_empty_false. intros Ha Hb. split.
    + intros Ho. exists (MkPoint (Z.max ax1 bx1) (Z.max ay1 by1)). rewrite !contains_spec. rect_arith. lia.
    + intros [[x y] H]. rewrite !contains_spec in H. rect_arith. lia.
  - intros [x y]. apply eq_true_iff_eq. rewrite contains_spec. unfold pt_translate. cbn [px py].
    rewrite contains_spec. rect_arith. lia.
Qed.

Lemma rect_pixel_sets_witness :
  overlaps (rect 0 0 10 10) (rect 9 9 20 20) = true /\
  enclosed_by (rect 9 9 10 10) (rect 0 0 10 10) = true.
Proof.
  destruct (rect_pixel_sets (rect 0 0 10 10) (rect 9 9 20 20) (MkPoint 1 1)) as (_ & _ & _ & H & _).
  split; [|reflexivity]. apply (H eq_refl eq_refl). exists (MkPoint 9 9). split; reflexivity.
Defined.

(** [union_boundary] is the smallest rectangle around two non-empty ones:
    it encloses both, and every rectangle that encloses both encloses it. *)
Theorem union_boundary_least (a b c : Rect) :
  is_empty a = false -> is_empty b = false ->
  enclosed_by a (union_boundary a b) = true /\ enclosed_by b (union_boundary a b) = true /\
  (enclosed_by a c = true -> enclosed_by b c = true -> enclosed_by (union_boundary a b) c = true).
Proof.
  intros Ha Hb. unfold union_boundary. rewrite Ha, Hb. rect_arith. lia.
Qed.

Lemma union_boundary_least_witness :
  enclosed_by (union_boundary (rect 0 0 2 2) (rect 5 5 6 6)) (rect 0 0 6 6) = true.
Proof.
  exact (proj2 (proj2 (union_boundary_least (rect 0 0 2 2) (rect 5 5 6 6) (rect 0 0 6 6) eq_refl eq_refl))
           eq_refl eq_refl).
Defined.
