(* ===== verification/Screens.v ===== *)
(** * Screen layouts ([common/rfb/ScreenSet.h]) *)
From stdpp Require Import base list numbers gmap sorting.
From S2P Require Import Prelude Geometry.
#[local] Open Scope Z_scope.

Record Screen := MkScreen { scr_id : Z; scr_dims : Rect; scr_flags : Z }.

#[export] Instance Screen_eq_dec : EqDecision Screen.
Proof. solve_decision. Defined.

(** [Screen(id, x, y, w, h, flags)] *)
Definition screen (id x y w h flags : Z) : Screen := MkScreen id (rect x y (x + w) (y + h)) flags.

Definition screen_eqb (a r : Screen) : bool :=
  if negb (scr_id a =? scr_id r) then false
  else if negb (rect_eqb (scr_dims a) (scr_dims r)) then false
  else if negb (scr_flags a =? scr_flags r) then false
  else true.

(** A [ScreenSet] is its [std::list<Screen>]. *)
Definition num_screens (screens : list Screen) : Z := len screens.
Definition add_screen (screens : list Screen) (s : Screen) : list Screen := screens ++ [s].
Fixpoint remove_screen (screens : list Screen) (id : Z) : list Screen :=
  match screens with
  | [] => []
  | s :: screens => if scr_id s =? id then remove_screen screens id else s :: remove_screen screens id
  end.

(** The loop of [validate], with the set [seen_ids]. *)
Fixpoint validate_loop (fb_rect : Rect) (seen_ids : gset Z) (screens : list Screen) : bool :=
  match screens with
  | [] => true
  | s :: screens =>
      if is_empty (scr_dims s) then false
      else if negb (enclosed_by (scr_dims s) fb_rect) then false
      else if decide (scr_id s ∈ seen_ids) then false
      else validate_loop fb_rect ({[scr_id s]} ∪ seen_ids) screens
  end.

Definition validate (screens : list Screen) (fb_width fb_height : Z) : bool :=
  match screens with
  | [] => false
  | _ =>
      if num_screens screens >? 255 then false
      else validate_loop (setXYWH 0 0 fb_width fb_height) ∅ screens
  end.

Definition compare_screen (first second : Screen) : bool := scr_id first <? scr_id second.

(** [std::list::sort] is stable: an element goes before the first one that is
    not smaller than it. *)
Fixpoint sort_insert (s : Screen) (l : list Screen) : list Screen :=
  match l with
  | [] => [s]
  | t :: l => if compare_screen t s then t :: sort_insert s l else s :: t :: l
  end.
Definition sort (l : list Screen) : list Screen := foldr sort_insert [] l.

Fixpoint list_eqb (a b : list Screen) : bool :=
  match a, b with
  | [], [] => true
  | x :: a, y :: b => screen_eqb x y && list_eqb a b
  | _, _ => false
  end.

(** [ScreenSet::operator==] *)
Definition screens_eqb (a b : list Screen) : bool := list_eqb (sort a) (sort b).

(** ** Properties *)

Lemma pt_eqb_eq p q : pt_eqb p q = true <-> p = q.
Proof.
  destruct p, q. unfold pt_eqb. cbn. rewrite andb_true_iff, !Z.eqb_eq. naive_solver.
Qed.

Lemma rect_eqb_eq a r : rect_eqb a r = true <-> a = r.
Proof.
  destruct a, r. unfold rect_eqb. cbn. rewrite andb_true_iff, !pt_eqb_eq. naive_solver.
Qed.

Lemma screen_eqb_eq a b : screen_eqb a b = true <-> a = b.
Proof.
  destruct a as [i d f], b as [i' d' f']. unfold screen_eqb. cbn.
  destruct (Z.eqb_spec i i'); cbn; [|naive_solver].
  destruct (rect_eqb d d') eqn:Hd; cbn.
  - apply rect_eqb_eq in Hd. destruct (Z.eqb_spec f f'); cbn; naive_solver.
  - split; [done|]. intros [= _ Heq _]. apply rect_eqb_eq in Heq. congruence.
Qed.

Lemma list_eqb_eq a b : list_eqb a b = true <-> a = b.
Proof.
  revert b. induction a as [|x a IH]; intros [|y b]; cbn; [done..|].
  rewrite andb_true_iff. split.
  - intros [H1%screen_eqb_eq H2%IH]. by subst.
  - intros [= -> ->]. by rewrite screen_eqb_eq, IH.
Qed.

Lemma sort_insert_perm s l : sort_insert s l ≡ₚ s :: l.
Proof.
  induction l as [|t l IH]; cbn; [done|]. destruct (compare_screen t s); [|done].
  rewrite IH. apply Permutation_swap.
Qed.

Lemma sort_perm l : sort l ≡ₚ l.
Proof. induction l as [|s l IH]; cbn; [done|]. by rewrite sort_insert_perm, IH. Qed.

(** Ascending by id: every element is no larger than those behind it. *)
Fixpoint ascending (l : list Screen) : Prop :=
  match l with
  | [] => True
  | s :: l => (forall t, In t l -> scr_id s <= scr_id t) /\ ascending l
  end.

Lemma sort_insert_in s l t : In t (sort_insert s l) <-> s = t \/ In t l.
Proof. rewrite <- !list_elem_of_In, sort_insert_perm, elem_of_cons, list_elem_of_In. naive_solver. Qed.

Lemma sort_ascending l : ascending (sort l).
Proof.
  induction l as [|s l IH]; [done|]. change (sort (s :: l)) with (sort_insert s (sort l)).
  induction (sort l) as [|t m IHm]; [by split; [intros ? []|]|].
  destruct IH as [Ht IH]. cbn. unfold compare_screen. destruct (Z.ltb_spec (scr_id t) (scr_id s)); cbn.
  - split; [|auto]. intros u [<-|Hu]%sort_insert_in; [lia|auto].
  - repeat split; auto. intros u [<-|Hu]; [lia|]. specialize (Ht u Hu). lia.
Qed.

(** Two ascending lists of screens with distinct ids and the same elements are
    the same list. *)
Lemma ascending_unique a b : ascending a -> ascending b -> NoDup (scr_id <$> a) -> a ≡ₚ b -> a = b.
Proof.
  revert b. induction a as [|s a IH]; intros [|t b] Ha Hb Hn Hp;
    [done|by apply Permutation_nil_cons in Hp|by apply symmetry, Permutation_nil_cons in Hp|].
  assert (s = t) as ->.
  { cbn in Ha, Hb, Hn. destruct Ha as [Ha _], Hb as [Hb _]. apply NoDup_cons in Hn as [Hn _].
    assert (In s (t :: b)) as Hs by (rewrite <- list_elem_of_In, <- Hp; constructor).
    assert (In t (s :: a)) as Ht by (rewrite <- list_elem_of_In, Hp; constructor).
    destruct Hs as [|Hs]; [done|]. destruct Ht as [|Ht]; [done|].
    destruct Hn. apply list_elem_of_fmap. exists t. rewrite list_elem_of_In. split; [|done].
    specialize (Ha t Ht). specialize (Hb s Hs). lia. }
  f_equal. apply IH; [apply Ha|apply Hb|by apply NoDup_cons in Hn as [_ ?]|by apply Permutation_cons_inv in Hp].
Qed.

(** The fields of a screen fit the messages it travels in. *)
Definition screen_wf (s : Screen) : Prop := u32_wf (scr_id s) /\ rect_wf (scr_dims s) /\ u32_wf (scr_flags s).

(** What a valid layout is. *)
Definition valid_layout (screens : list Screen) (w h : Z) : Prop :=
  1 <= num_screens screens <= 255 /\
  (forall s, In s screens -> is_empty (scr_dims s) = false /\ enclosed_by (scr_dims s) (rect 0 0 w h) = true) /\
  NoDup (scr_id <$> screens).

Lemma validate_loop_spec fb seen screens : validate_loop fb seen screens = true <->
  (forall s, In s screens -> is_empty (scr_dims s) = false /\ enclosed_by (scr_dims s) fb = true) /\
  NoDup (scr_id <$> screens) /\ (forall s, In s screens -> scr_id s ∉ seen).
Proof.
  revert seen. induction screens as [|s screens IH]; intros seen.
  { cbn. split; [|done]. intros _. repeat split; try done. by apply NoDup_nil. }
  cbn [validate_loop fmap list_fmap]. rewrite NoDup_cons.
  destruct (is_empty (scr_dims s)) eqn:He; [split; [done|intros [H _]; destruct (H s); [by left|congruence]]|].
  destruct (enclosed_by (scr_dims s) fb) eqn:Hc; cbn [negb];
    [|split; [done|intros [H _]; destruct (H s); [by left|congruence]]].
  destruct (decide (scr_id s ∈ seen)) as [Hs|Hs];
    [split; [done|intros (_ & _ & H); destruct (H s); [by left|done]]|].
  rewrite IH. split.
  - intros (H1 & H2 & H3). repeat split.
    + destruct H as [<-|H]; [done|]. by apply H1.
    + destruct H as [<-|H]; [done|]. by apply H1.
    + intros (t & Ht & Hin)%list_elem_of_fmap. apply (H3 t); [by apply list_elem_of_In|].
      by apply elem_of_union_l, elem_of_singleton.
    + done.
    + intros t [<-|Ht]; [done|]. by destruct (proj1 (not_elem_of_union _ _ _) (H3 t Ht)).
  - intros (H1 & [H2 H2'] & H3). split; [intros t Ht; apply H1; by right|]. split; [done|].
    intros t Ht. specialize (H3 t (or_intror Ht)).
    apply not_elem_of_union. split; [|done]. apply not_elem_of_singleton.
    intros Heq. apply H2, list_elem_of_fmap. exists t. by rewrite list_elem_of_In.
Qed.

(** C38: [validate] accepts exactly the layouts of 1 to 255 non-empty screens
    with distinct ids that lie inside the framebuffer. *)
Theorem validate_spec (screens : list Screen) (fb_width fb_height : Z) :
  validate screens fb_width fb_height = true <-> valid_layout screens fb_width fb_height.
Proof.
  unfold validate, valid_layout, num_screens. destruct screens as [|s screens].
  - rewrite len_nil. split; [done|lia].
  - destruct (Z.gtb_spec (len (s :: screens)) 255); [split; [done|lia]|].
    rewrite validate_loop_spec. unfold setXYWH. rewrite !Z.add_0_l.
    split; [|set_solver]. intros (H1 & H2 & _). repeat split; try apply H1; try done. llia.
Qed.

(** [operator==] compares layouts up to order: for layouts with distinct ids
    it holds exactly when one is a permutation of the other; in particular the
    order in which screens are added never matters. *)
Theorem screens_eqb_perm (a b : list Screen) :
  NoDup (scr_id <$> a) -> screens_eqb a b = true <-> a ≡ₚ b.
Proof.
  intros Hn. unfold screens_eqb. rewrite list_eqb_eq. split; intros H.
  - by rewrite <- (sort_perm a), H, sort_perm.
  - apply ascending_unique; [apply sort_ascending..| |by rewrite !sort_perm].
    by rewrite sort_perm.
Qed.

Lemma screens_eqb_perm_witness :
  [screen 2 0 0 8 8 0; screen 1 8 0 8 8 0] ≡ₚ [screen 1 8 0 8 8 0; screen 2 0 0 8 8 0].
Proof.
  apply (screens_eqb_perm [screen 2 0 0 8 8 0; screen 1 8 0 8 8 0] [screen 1 8 0 8 8 0; screen 2 0 0 8 8 0]);
    [|reflexivity].
  apply (bool_decide_eq_true_1 (NoDup (scr_id <$> [screen 2 0 0 8 8 0; screen 1 8 0 8 8 0]))). reflexivity.
Defined.
