(* ===== verification/Params.v ===== *)
(** * What each side knows of the other ([rfb/ClientParams.cxx], [rfb/ServerParams.cxx])

    [ClientParams] is what a server has learnt about its client, [ServerParams]
    what a client has learnt about its server.  Both keep a validated screen
    layout, a pixel format and a table of sixteen clipboard sizes. *)
From stdpp Require Import base gmap list numbers strings option.
From S2P Require Import Prelude Geometry Screens PixelFmt.
#[local] Open Scope Z_scope.

(** ** Constants ([encodings.h], [fenceTypes.h], [clipboardTypes.h], [ledStates.h]) *)

Definition encodingRaw : Z := 0.
Definition pseudoEncodingXCursor : Z := -240.
Definition pseudoEncodingCursor : Z := -239.
Definition pseudoEncodingExtendedMouseButtons : Z := -316.
Definition pseudoEncodingDesktopSize : Z := -223.
Definition pseudoEncodingLEDState : Z := -261.
Definition pseudoEncodingExtendedDesktopSize : Z := -308.
Definition pseudoEncodingDesktopName : Z := -307.
Definition pseudoEncodingFence : Z := -312.
Definition pseudoEncodingContinuousUpdates : Z := -313.
Definition pseudoEncodingCursorWithAlpha : Z := -314.
Definition pseudoEncodingQEMUKeyEvent : Z := -258.
Definition pseudoEncodingQEMUAudio : Z := -259.
Definition pseudoEncodingLastRect : Z := -224.
Definition pseudoEncodingQualityLevel0 : Z := -32.
Definition pseudoEncodingQualityLevel9 : Z := -23.
Definition pseudoEncodingCompressLevel0 : Z := -256.
Definition pseudoEncodingCompressLevel9 : Z := -247.
Definition pseudoEncodingFineQualityLevel0 : Z := -512.
Definition pseudoEncodingFineQualityLevel100 : Z := -412.
Definition pseudoEncodingSubsamp1X : Z := -768.
Definition pseudoEncodingSubsamp4X : Z := -767.
Definition pseudoEncodingSubsamp2X : Z := -766.
Definition pseudoEncodingSubsampGray : Z := -765.
Definition pseudoEncodingSubsamp8X : Z := -764.
Definition pseudoEncodingSubsamp16X : Z := -763.
Definition pseudoEncodingVMwareCursor : Z := 0x574d5664.
Definition pseudoEncodingVMwareCursorPosition : Z := 0x574d5666.
Definition pseudoEncodingVMwareLEDState : Z := 0x574d5668.
(** [const int] initialised with a value above [INT_MAX] *)
Definition pseudoEncodingExtendedClipboard : Z := s32 0xC0A1E5CE.

Definition subsampleUndefined : Z := -1.
Definition subsampleNone : Z := 0.
Definition subsampleGray : Z := 1.
Definition subsample2X : Z := 2.
Definition subsample4X : Z := 3.
Definition subsample8X : Z := 4.
Definition subsample16X : Z := 5.

Definition clipboardUTF8 : Z := Z.shiftl 1 0.
Definition clipboardRTF : Z := Z.shiftl 1 1.
Definition clipboardHTML : Z := Z.shiftl 1 2.
Definition clipboardCaps : Z := Z.shiftl 1 24.
Definition clipboardRequest : Z := Z.shiftl 1 25.
Definition clipboardPeek : Z := Z.shiftl 1 26.
Definition clipboardNotify : Z := Z.shiftl 1 27.
Definition clipboardProvide : Z := Z.shiftl 1 28.
Definition clipboardActionMask : Z := 0xff000000.

Definition fenceFlagBlockBefore : Z := Z.shiftl 1 0.
Definition fenceFlagBlockAfter : Z := Z.shiftl 1 1.
Definition fenceFlagSyncNext : Z := Z.shiftl 1 2.
Definition fenceFlagRequest : Z := Z.shiftl 1 31.
Definition fenceFlagsSupported : Z :=
  Z.lor (Z.lor (Z.lor fenceFlagBlockBefore fenceFlagBlockAfter) fenceFlagSyncNext) fenceFlagRequest.

Definition ledUnknown : Z := u32 (-1).

(** ** Clipboard size tables *)

(** The formats [i] below 16 with [flags & (1 << i)], in the order of the
    loops [for (i = 0; i < 16; i++)]. *)
Definition formats (flags : Z) : list Z := filter (fun i => Z.testbit flags i = true) (seqZ 0 16).

(** [clipSizes[i] = lengths[num++]] for the formats of [flags] *)
Definition set_sizes (fmts : list Z) (lengths sizes : list Z) : list Z :=
  foldl (fun sizes p => <[Z.to_nat p.1 := p.2]> sizes) sizes (zip fmts lengths).

Fixpoint find_size (i : nat) (sizes : list Z) (format : Z) : res Z :=
  match sizes with
  | [] => Throw (invalid_argument "Invalid clipboard format")
  | size :: sizes => if Z.shiftl 1 (Z.of_nat i) =? format then Ok size else find_size (S i) sizes format
  end.

(** ** Cursors and versions *)

Record Cursor := MkCursor {
  cur_width : Z; cur_height : Z; cur_hotspot : Point; cur_data : list Z }.

Definition beforeVersion (majorVersion minorVersion major minor : Z) : bool :=
  (majorVersion <? major) || ((majorVersion =? major) && (minorVersion <? minor)).
Definition afterVersion (majorVersion minorVersion major minor : Z) : bool :=
  negb (beforeVersion majorVersion minorVersion major (minor + 1)).

(** ** What both records share: [width_] to [clipSizes] *)

Record Common := MkCommon {
  width_ : Z; height_ : Z; screenLayout_ : list Screen;
  pf_ : PixelFormat; name_ : list Z; cursor_ : Cursor; ledState_ : Z;
  clipFlags : Z; clipSizes : list Z }.

Definition setDimensions (width height : Z) (layout : list Screen) (c : Common) : res Common :=
  if negb (validate layout width height)
  then Throw (invalid_argument "Attempted to configure an invalid screen layout")
  else Ok (MkCommon width height layout (pf_ c) (name_ c) (cursor_ c) (ledState_ c) (clipFlags c) (clipSizes c)).

Definition setDimensions1 (width height : Z) (c : Common) : res Common :=
  setDimensions width height [screen 0 0 0 width height 0] c.

(** The assignment comes before the test, so the new format is in place even
    when the call throws; the state is returned with the exception. *)
Definition setPF (pf : PixelFormat) (c : Common) : Common * option exn :=
  (MkCommon (width_ c) (height_ c) (screenLayout_ c) pf (name_ c) (cursor_ c) (ledState_ c) (clipFlags c) (clipSizes c),
   if negb (bpp pf =? 8) && negb (bpp pf =? 16) && negb (bpp pf =? 32)
   then Some (invalid_argument "setPF: Not 8, 16 or 32 bpp?") else None).

Definition setName (name : list Z) (c : Common) : Common :=
  MkCommon (width_ c) (height_ c) (screenLayout_ c) (pf_ c) name (cursor_ c) (ledState_ c) (clipFlags c) (clipSizes c).
Definition setCursor (cursor : Cursor) (c : Common) : Common :=
  MkCommon (width_ c) (height_ c) (screenLayout_ c) (pf_ c) (name_ c) cursor (ledState_ c) (clipFlags c) (clipSizes c).
Definition setLEDState (state : Z) (c : Common) : Common :=
  MkCommon (width_ c) (height_ c) (screenLayout_ c) (pf_ c) (name_ c) (cursor_ c) state (clipFlags c) (clipSizes c).

Definition clipboardSize (c : Common) (format : Z) : res Z := find_size 0 (clipSizes c) format.

Definition setClipboardCaps (flags : Z) (lengths : list Z) (c : Common) : Common :=
  MkCommon (width_ c) (height_ c) (screenLayout_ c) (pf_ c) (name_ c) (cursor_ c) (ledState_ c)
    flags (set_sizes (formats flags) lengths (clipSizes c)).

(** The pixel format of [PixelFormat()]: 8 bits, depth 8. *)
Definition default_pf : PixelFormat := MkPF 8 8 true false 7 7 3 0 3 6.

(** ** [ServerParams] *)

Record ServerParams := MkServer {
  sp : Common; sp_majorVersion : Z; sp_minorVersion : Z;
  supportsQEMUKeyEvent : bool; supportsQEMUAudio : bool; supportsSetDesktopSize : bool;
  supportsFence : bool; supportsContinuousUpdates : bool; supportsExtendedMouseButtons : bool }.

Definition init_server : ServerParams :=
  MkServer (MkCommon 0 0 [] default_pf [] (MkCursor 0 0 (MkPoint 0 0) []) ledUnknown 0 (replicate 16 0))
    0 0 false false false false false false.

(** ** [ClientParams] *)

Record Levels := MkLevels {
  compressLevel : Z; qualityLevel : Z; fineQualityLevel : Z; subsampling : Z }.

Record ClientParams := MkClient {
  cp : Common; cp_majorVersion : Z; cp_minorVersion : Z;
  cp_levels : Levels; encodings_ : gset Z; cursorPos_ : Point }.

Definition init_client : ClientParams :=
  MkClient
    (MkCommon 0 0 [] default_pf [] (MkCursor 0 0 (MkPoint 0 0) []) ledUnknown
       (foldr Z.lor 0 [clipboardUTF8; clipboardRTF; clipboardHTML; clipboardRequest; clipboardNotify; clipboardProvide])
       (20 * 1024 * 1024 :: replicate 15 0))
    0 0 (MkLevels 2 (-1) (-1) subsampleUndefined) ∅ (MkPoint 0 0).

Definition supportsEncoding (c : ClientParams) (encoding : Z) : bool := bool_decide (encoding ∈ encodings_ c).

(** The [switch] and the range tests of the loop body. *)
Definition subsamp_of (encoding old : Z) : Z :=
  if encoding =? pseudoEncodingSubsamp1X then subsampleNone
  else if encoding =? pseudoEncodingSubsampGray then subsampleGray
  else if encoding =? pseudoEncodingSubsamp2X then subsample2X
  else if encoding =? pseudoEncodingSubsamp4X then subsample4X
  else if encoding =? pseudoEncodingSubsamp8X then subsample8X
  else if encoding =? pseudoEncodingSubsamp16X then subsample16X
  else old.

Definition level_of (lo hi encoding old : Z) : Z :=
  if (lo <=? encoding) && (encoding <=? hi) then encoding - lo else old.

Definition note_encoding (encoding : Z) (l : Levels) : Levels :=
  MkLevels (level_of pseudoEncodingCompressLevel0 pseudoEncodingCompressLevel9 encoding (compressLevel l))
    (level_of pseudoEncodingQualityLevel0 pseudoEncodingQualityLevel9 encoding (qualityLevel l))
    (level_of pseudoEncodingFineQualityLevel0 pseudoEncodingFineQualityLevel100 encoding (fineQualityLevel l))
    (subsamp_of encoding (subsampling l)).

(** [for (i = nEncodings-1; i >= 0; i--)]: from the last entry to the first. *)
Definition setEncodings (encodings : list Z) (c : ClientParams) : ClientParams :=
  MkClient (cp c) (cp_majorVersion c) (cp_minorVersion c)
    (foldr note_encoding (MkLevels (-1) (-1) (-1) subsampleUndefined) encodings)
    (foldr (fun e s => {[ e ]} ∪ s) {[ encodingRaw ]} encodings)
    (cursorPos_ c).

Definition setCursorPos (pos : Point) (c : ClientParams) : ClientParams :=
  MkClient (cp c) (cp_majorVersion c) (cp_minorVersion c) (cp_levels c) (encodings_ c) pos.

Definition supportsLocalCursor (c : ClientParams) : bool :=
  supportsEncoding c pseudoEncodingCursorWithAlpha || supportsEncoding c pseudoEncodingVMwareCursor ||
  supportsEncoding c pseudoEncodingCursor || supportsEncoding c pseudoEncodingXCursor.
Definition supportsCursorPosition (c : ClientParams) : bool := supportsEncoding c pseudoEncodingVMwareCursorPosition.
Definition supportsDesktopSize (c : ClientParams) : bool :=
  supportsEncoding c pseudoEncodingExtendedDesktopSize || supportsEncoding c pseudoEncodingDesktopSize.
Definition supportsLEDState (c : ClientParams) : bool :=
  supportsEncoding c pseudoEncodingLEDState || supportsEncoding c pseudoEncodingVMwareLEDState.
Definition client_supportsFence (c : ClientParams) : bool := supportsEncoding c pseudoEncodingFence.
Definition client_supportsContinuousUpdates (c : ClientParams) : bool :=
  supportsEncoding c pseudoEncodingContinuousUpdates.
Definition client_supportsExtendedMouseButtons (c : ClientParams) : bool :=
  supportsEncoding c pseudoEncodingExtendedMouseButtons.

(** ** Lemmas *)

Lemma elem_formats flags i : i ∈ formats flags <-> 0 <= i < 16 /\ Z.testbit flags i = true.
Proof. unfold formats. rewrite list_elem_of_filter, elem_of_seqZ. intuition lia. Qed.

Lemma formats_range flags : Forall (fun i => 0 <= i < 16) (formats flags).
Proof. apply list.Forall_forall. intros i H. apply elem_formats in H as [H _]. done. Qed.

Lemma NoDup_formats flags : NoDup (formats flags).
Proof. apply list.NoDup_filter, NoDup_seqZ. Qed.

Lemma len_formats flags : 0 <= len (formats flags) <= 16.
Proof.
  split; [apply len_nonneg|]. unfold len, formats.
  pose proof (length_filter (fun i => Z.testbit flags i = true) (seqZ 0 16)). rewrite length_seqZ in *. lia.
Qed.

Lemma formats_lor flags k : 16 <= k -> formats (Z.lor flags (Z.shiftl 1 k)) = formats flags.
Proof.
  intros Hk. unfold formats.
  assert (Forall (fun i => i < 16) (seqZ 0 16)) as Hf by (cbn; repeat constructor; lia).
  induction Hf as [|i l Hi _ IH]; [done|].
  rewrite !filter_cons, IH, Z.lor_spec, Z.shiftl_spec_low, orb_false_r by lia. done.
Qed.

Lemma length_set_sizes fmts lengths sizes : length (set_sizes fmts lengths sizes) = length sizes.
Proof.
  unfold set_sizes. generalize (zip fmts lengths). intros l. revert sizes.
  induction l as [|p l IH]; intros sizes; cbn; [done|]. by rewrite IH, length_insert.
Qed.

Lemma lookup_set_sizes_ne (i : nat) fmts lengths sizes : Forall (fun j => Z.to_nat j <> i) fmts ->
  set_sizes fmts lengths sizes !! i = sizes !! i.
Proof.
  unfold set_sizes. revert lengths sizes. induction fmts as [|f fmts IH]; intros [|l lengths] sizes H;
    try done. apply Forall_cons_1 in H as [H1 H]. cbn. rewrite IH by done. by apply list_lookup_insert_ne.
Qed.

Lemma find_size_lookup (i : nat) (j : nat) sizes size : sizes !! i = Some size ->
  find_size j sizes (Z.shiftl 1 (Z.of_nat (j + i))) = Ok size.
Proof.
  revert i j. induction sizes as [|s sizes IH]; intros [|i] j H; try done.
  - injection H as ->. cbn. by rewrite Nat.add_0_r, Z.eqb_refl.
  - cbn. rewrite !Z.shiftl_1_l. case_test.
    + apply Z.pow_inj_r in Heqb; lia.
    + rewrite <- Z.shiftl_1_l. replace (j + S i)%nat with (S j + i)%nat by lia. by apply IH.
Qed.

(** a clipboard format announced by [setClipboardCaps] gets the size sent
    with it and a format left out keeps the size it had; the sizes come packed,
    in ascending order of the announced formats, and the table keeps its sixteen
    entries. *)
Theorem setClipboardCaps_sizes (c : Common) (flags : Z) (lengths : list Z) :
  length (clipSizes c) = 16%nat -> length lengths = length (formats flags) ->
  let c' := setClipboardCaps flags lengths c in
  length (clipSizes c') = 16%nat /\ clipFlags c' = flags /\
  (forall k i size, formats flags !! k = Some i -> lengths !! k = Some size ->
     clipboardSize c' (Z.shiftl 1 i) = Ok size) /\
  (forall i, 0 <= i < 16 -> i ∉ formats flags ->
     clipboardSize c' (Z.shiftl 1 i) = clipboardSize c (Z.shiftl 1 i)).
Proof.
  intros Hc Hl. cbn. split; [by rewrite length_set_sizes|]. split; [done|].
  unfold clipboardSize. cbn. split.
  - intros k i size Hi Hs.
    assert (0 <= i < 16) as Hr by (by apply (elem_formats flags), (list_elem_of_lookup_2 _ k)).
    replace (Z.shiftl 1 i) with (Z.shiftl 1 (Z.of_nat (0 + Z.to_nat i))) by (f_equal; lia).
    apply find_size_lookup.
    generalize (formats_range flags) (NoDup_formats flags) Hi. clear Hl Hi. unfold set_sizes.
    generalize (clipSizes c), Hc. clear Hc. revert k lengths Hs.
    induction (formats flags) as [|f fmts IH]; intros k lengths Hs sizes Hc Hf Hn Hi; [done|].
    apply Forall_cons_1 in Hf as [Hf Hfs]. apply list.NoDup_cons in Hn as [Hnf Hn].
    destruct lengths as [|l lengths], k as [|k]; try done; cbn in *.
    + injection Hi as ->. injection Hs as ->.
      fold (set_sizes fmts lengths (<[Z.to_nat i := size]> sizes)).
      rewrite lookup_set_sizes_ne; [apply list_lookup_insert_eq; lia|].
      apply list.Forall_forall. intros j Hj Hji. rewrite list.Forall_forall in Hfs. specialize (Hfs j Hj).
      assert (j = i) as -> by lia. done.
    + eapply IH; [done|by rewrite length_insert|done..].
  - intros i Hi Hni. destruct (lookup_lt_is_Some_2 (clipSizes c) (Z.to_nat i)) as [size Hs]; [lia|].
    replace (Z.shiftl 1 i) with (Z.shiftl 1 (Z.of_nat (0 + Z.to_nat i))) by (f_equal; lia).
    rewrite (find_size_lookup (Z.to_nat i) 0 (clipSizes c) size Hs).
    apply find_size_lookup. rewrite lookup_set_sizes_ne; [done|].
    apply list.Forall_forall. intros j Hj Hji. pose proof (formats_range flags) as Hf.
    rewrite list.Forall_forall in Hf. specialize (Hf j Hj). by assert (j = i) as -> by lia.
Qed.

Lemma setClipboardCaps_sizes_witness :
  clipboardSize (setClipboardCaps 0x1000005 [10; 20] (cp init_client)) (Z.shiftl 1 2) = Ok 20.
Proof.
  destruct (setClipboardCaps_sizes (cp init_client) 0x1000005 [10; 20] eq_refl eq_refl) as (_ & _ & H & _).
  by apply (H 1%nat).
Defined.

(** The levels the loop ends with: the first entry of a family decides. *)
Lemma level_first lo hi (encodings : list Z) (f : Levels -> Z) :
  lo <= hi -> (forall e l, f (note_encoding e l) = level_of lo hi e (f l)) ->
  forall l, f (foldr note_encoding l encodings) =
    match filter (fun e => lo <= e <= hi) encodings with e :: _ => e - lo | [] => f l end.
Proof.
  intros Hh Hf l. induction encodings as [|e es IH]; cbn; [done|].
  rewrite Hf, IH. unfold level_of. case_decide as He.
  - rewrite !(proj2 (Z.leb_le _ _)) by lia. done.
  - destruct (Z.leb_spec lo e), (Z.leb_spec e hi); cbn; try done. lia.
Qed.

Lemma supports_setEncodings (c : ClientParams) (encodings : list Z) e :
  supportsEncoding (setEncodings encodings c) e = true <-> e = encodingRaw \/ e ∈ encodings.
Proof.
  unfold supportsEncoding. cbn. rewrite bool_decide_eq_true.
  induction encodings as [|x es IH]; cbn; set_solver.
Qed.

(** after [setEncodings] a client supports exactly the encodings it listed
    and Raw; where it lists several levels of one family the first one counts,
    and a family it leaves out is unset. *)
Theorem setEncodings_spec (c : ClientParams) (encodings : list Z) :
  let c' := setEncodings encodings c in
  (forall e, supportsEncoding c' e = true <-> e = encodingRaw \/ e ∈ encodings) /\
  compressLevel (cp_levels c') =
    match filter (fun e => -256 <= e <= -247) encodings with e :: _ => e + 256 | [] => -1 end /\
  qualityLevel (cp_levels c') =
    match filter (fun e => -32 <= e <= -23) encodings with e :: _ => e + 32 | [] => -1 end /\
  fineQualityLevel (cp_levels c') =
    match filter (fun e => -512 <= e <= -412) encodings with e :: _ => e + 512 | [] => -1 end /\
  cp c' = cp c.
Proof.
  cbn. split.
  - intros e. apply supports_setEncodings.
  - split; [|split; [|split; [|done]]].
    + etransitivity; [apply (level_first (-256) (-247) encodings compressLevel); done|].
      destruct (filter _ encodings); cbn; lia.
    + etransitivity; [apply (level_first (-32) (-23) encodings qualityLevel); done|].
      destruct (filter _ encodings); cbn; lia.
    + etransitivity; [apply (level_first (-512) (-412) encodings fineQualityLevel); done|].
      destruct (filter _ encodings); cbn; lia.
Qed.
