(* ===== verification/Cursors.v ===== *)
(** * Cursors ([rfb/Cursor.cxx])

    A cursor has four bytes for a pixel, the last one its opacity.  Clients that
    cannot show it as it is get a bit mask and a bitmap, both made by dithering;
    [crop] cuts it down to what can be seen of it. *)
From stdpp Require Import base gmap list numbers strings option.
From S2P Require Import Prelude Geometry Screens PixelFmt Params.
#[local] Open Scope Z_scope.

(** The loops over [y < height] and [x < width]. *)
Definition pixels (width height : Z) : list (Z * Z) :=
  concat (map (fun y => map (fun x => (x, y)) (seqZ 0 width)) (seqZ 0 height)).

(** Bit [x], [y] of a mask with rows of whole bytes. *)
Definition mask_bit (mask : list Z) (width x y : Z) : bool :=
  Z.testbit (znth 0 mask (y * ((width + 7) / 8) + x / 8)) (7 - x mod 8).

(** ** From sRGB to linear light *)

Definition pow223 : list Z :=
  [0; 30; 143; 355; 676; 1113; 1673; 2361; 3181; 4139; 5237; 6479; 7869; 9409; 11103; 12952; 14961; 17130;
   19462; 21960; 24626; 27461; 30467; 33647; 37003; 40535; 44245; 48136; 52209; 56466; 60907; 65535].

Definition ipow (val : Z) (lut : list Z) : Z :=
  let idx := Z.shiftr val (16 - 5) in
  let '(a, b) := if val <? 0x8000 then (znth 0 lut idx, znth 0 lut (idx + 1))
                 else (znth 0 lut (idx - 1), znth 0 lut idx) in
  u16 (Z.quot (Z.land val 0x7ff * (b - a)) 0x7ff + a).

Definition srgb_to_lin (srgb : Z) : Z := ipow (u16 (srgb * 65535 / 255)) pow223.

(** ** Dithering *)

Definition store (i v : Z) (data : list Z) : list Z := <[Z.to_nat i := v]> data.
(** [data[i] += v] *)
Definition bump (i v : Z) (data : list Z) : list Z := store i (znth 0 data i + v) data.

(** The body of the loops, at row [y] and step [x_]; the code moves [data] on
    by a row, here the index starts at the row. *)
Definition dither_step (width height : Z) (data : list Z) (p : Z * Z) : list Z :=
  let '(x_, y) := p in
  let x := if Z.odd y then width - x_ - 1 else x_ in
  let i := y * width + x in
  let old := znth 0 data i in
  let '(error, new) := if old >? 32767 then (old - 65535, 65535) else (old - 0, 0) in
  let data := store i new data in
  if Z.odd y then
    let data := if x >? 0 then bump (i - 1) (Z.quot (error * 7) 16) data else data in
    if y + 1 <? height then
      let data := if x >? 0 then bump (i - 1 + width) (Z.quot (error * 3) 16) data else data in
      let data := bump (i + width) (Z.quot (error * 5) 16) data in
      if x + 1 <? width then bump (i + 1) (Z.quot (error * 1) 16) data else data
    else data
  else
    let data := if x + 1 <? width then bump (i + 1) (Z.quot (error * 7) 16) data else data in
    if y + 1 <? height then
      let data := if x + 1 <? width then bump (i + 1 + width) (Z.quot (error * 3) 16) data else data in
      let data := bump (i + width) (Z.quot (error * 5) 16) data in
      if x >? 0 then bump (i - 1) (Z.quot (error * 1) 16) data else data
    else data.

Definition dither (width height : Z) (data : list Z) : list Z :=
  foldl (dither_step width height) data (pixels width height).

(** The conversion to a bit mask. *)
Definition bits_step (width : Z) (values : list Z) (source : list Z) (p : Z * Z) : list Z :=
  let '(x, y) := p in
  let byte := y * ((width + 7) / 8) + x / 8 in
  let bit := 7 - x mod 8 in
  if znth 0 values (y * width + x) >? 32767
  then store byte (Z.lor (znth 0 source byte) (Z.shiftl 1 bit)) source
  else source.

Definition to_bits (width height : Z) (values : list Z) : list Z :=
  foldl (bits_step width values) (replicate (Z.to_nat ((width + 7) / 8 * height)) 0) (pixels width height).

(** Component [k] of pixel [i]. *)
Definition component (c : Cursor) (i k : Z) : Z := znth 0 (cur_data c) (4 * i + k).

Definition luminance (c : Cursor) (i : Z) : Z :=
  Z.quot (srgb_to_lin (component c i 0) * 6947 + srgb_to_lin (component c i 1) * 23436 +
          srgb_to_lin (component c i 2) * 2366) 32768.

Definition getBitmap (c : Cursor) : list Z :=
  to_bits (cur_width c) (cur_height c) (dither (cur_width c) (cur_height c)
    (map (luminance c) (seqZ 0 (cur_width c * cur_height c)))).

Definition getMask (c : Cursor) : list Z :=
  to_bits (cur_width c) (cur_height c) (dither (cur_width c) (cur_height c)
    (map (fun i => component c i 3 * 65535 / 255) (seqZ 0 (cur_width c * cur_height c)))).

(** ** Cropping *)

Definition grow_busy (c : Cursor) (busy : Rect) (p : Z * Z) : Rect :=
  let '(x, y) := p in
  if component c (y * cur_width c + x) 3 >? 0 then
    MkRect (MkPoint (if x <? px (tl busy) then x else px (tl busy)) (if y <? py (tl busy) then y else py (tl busy)))
      (MkPoint (if x + 1 >? px (br busy) then x + 1 else px (br busy))
         (if y + 1 >? py (br busy) then y + 1 else py (br busy)))
  else busy.

Definition busy_rect (c : Cursor) : Rect :=
  let hot := cur_hotspot c in
  foldl (grow_busy c) (intersect (rect 0 0 (cur_width c) (cur_height c)) (rect (px hot) (py hot) (px hot + 1) (py hot + 1)))
    (pixels (cur_width c) (cur_height c)).

Definition crop (c : Cursor) : Cursor :=
  let busy := busy_rect c in
  if (cur_width c =? width busy) && (cur_height c =? height busy) then c
  else
    let row y := ztake (width busy * 4) (zdrop (y * cur_width c * 4 + px (tl busy) * 4) (cur_data c)) in
    MkCursor (width busy) (height busy) (pt_subtract (cur_hotspot c) (tl busy))
      (concat (map row (seqZ (py (tl busy)) (height busy)))).

(** ** The conversion to linear light *)

(** Each step up in [lo], [lo + 1], ..., [hi] is a step up in the result. *)
Definition increasing (f : Z -> Z) (lo hi : Z) : bool :=
  forallb (fun s => f s <? f (s + 1)) (seqZ lo (hi - lo)).

(** C40: [srgb_to_lin] takes a byte to 16 bits, black to 0 and white to 65535,
    and is strictly increasing on each half of the bytes; but from 127 to 128 it
    falls, because [ipow] takes the wrong segment of its table in the upper
    half. *)
Theorem srgb_to_lin_shape :
  srgb_to_lin 0 = 0 /\ srgb_to_lin 255 = 65535 /\
  (forall s, 0 <= s < 256 -> 0 <= srgb_to_lin s < 65536) /\
  (forall s, 0 <= s < 127 \/ 128 <= s < 255 -> srgb_to_lin s < srgb_to_lin (s + 1)) /\
  srgb_to_lin 127 = 14835 /\ srgb_to_lin 128 = 13077.
Proof.
  assert (increasing srgb_to_lin 0 127 = true) as Hlo by (vm_compute; reflexivity).
  assert (increasing srgb_to_lin 128 255 = true) as Hhi by (vm_compute; reflexivity).
  unfold increasing in *. rewrite forallb_forall in Hlo, Hhi.
  do 2 (split; [vm_compute; reflexivity|]). split; [intros s Hs; unfold srgb_to_lin, ipow; case_match; apply u16_range|].
  split; [|split; vm_compute; reflexivity].
  intros s [Hs|Hs]; apply Z.ltb_lt; [apply Hlo|apply Hhi]; apply list_elem_of_In, elem_of_seqZ; lia.
Qed.

(** ** Masks *)

Lemma elem_of_pixels w h x y : (x, y) ∈ pixels w h <-> 0 <= x < w /\ 0 <= y < h.
Proof.
  unfold pixels. rewrite list_elem_of_In, in_concat. split.
  - intros (l & Hl & Hp). apply in_map_iff in Hl as (y' & <- & Hy). apply in_map_iff in Hp as (x' & [= <- <-] & Hx).
    apply list_elem_of_In, elem_of_seqZ in Hx. apply list_elem_of_In, elem_of_seqZ in Hy. lia.
  - intros [Hx Hy]. exists (map (fun x => (x, y)) (seqZ 0 w)). split.
    + apply in_map_iff. exists y. split; [done|]. apply list_elem_of_In, elem_of_seqZ. lia.
    + apply in_map_iff. exists x. split; [done|]. apply list_elem_of_In, elem_of_seqZ. lia.
Qed.

Lemma pixels_empty w h : 0 <= w -> 0 <= h -> w * h = 0 -> pixels w h = [].
Proof.
  intros Hw Hh Hz. destruct (pixels w h) as [|[x y] l] eqn:Hp; [done|].
  assert ((x, y) ∈ pixels w h) as Hin by (rewrite Hp; by left). apply elem_of_pixels in Hin. nia.
Qed.

Lemma znth_store i v l j : 0 <= i < len l -> 0 <= j ->
  znth 0 (store i v l) j = if j =? i then v else znth 0 l j.
Proof.
  intros Hi Hj. unfold znth, store, len in *. rewrite !nth_lookup. case_test.
  - subst. rewrite list_lookup_insert_eq by lia. done.
  - by rewrite list_lookup_insert_ne by lia.
Qed.
Lemma len_store i v l : len (store i v l) = len l.
Proof. unfold len, store. by rewrite length_insert. Qed.
Lemma store_same i l : store i (znth 0 l i) l = l.
Proof.
  unfold store, znth. destruct (decide (Z.to_nat i < length l)%nat) as [Hi|Hi].
  - apply list_insert_id. destruct (lookup_lt_is_Some_2 l (Z.to_nat i) Hi) as [v Hv].
    rewrite nth_lookup, Hv. done.
  - apply list_insert_ge. lia.
Qed.
Lemma bump_0 i l : bump i 0 l = l.
Proof. unfold bump. rewrite Z.add_0_r. apply store_same. Qed.

(** Dithering leaves alone what is black and white. *)
Lemma dither_sharp w h l : Forall (fun v => v = 0 \/ v = 65535) l -> dither w h l = l.
Proof.
  intros Hl. unfold dither. induction (pixels w h) as [|[x_ y] ps IH]; [done|]. cbn [foldl].
  assert (dither_step w h l (x_, y) = l) as ->; [|done].
  assert (forall i, znth 0 l i = 0 \/ znth 0 l i = 65535) as Hv.
  { intros i. unfold znth. destruct (nth_in_or_default (Z.to_nat i) l 0) as [Hi| ->]; [|auto].
    rewrite List.Forall_forall in Hl. auto. }
  unfold dither_step. cbv zeta. set (i := y * w + _). pose proof (store_same i l) as Hs.
  destruct (Hv i) as [Hi|Hi]; rewrite Hi in Hs |- *;
    [change (0 >? 32767) with false; change (0 - 0) with 0|change (65535 >? 32767) with true; change (65535 - 65535) with 0];
    cbv iota; rewrite Hs, !Z.mul_0_l, !Z.quot_0_l by lia; repeat case_match; by rewrite ?bump_0.
Qed.

Lemma mask_column w x : 0 <= x < w -> 0 <= x / 8 < (w + 7) / 8.
Proof.
  intros Hx. pose proof (Z.div_le_mono (x + 1 * 8) (w + 7) 8 ltac:(lia) ltac:(lia)) as Hm.
  rewrite Z.div_add in Hm by lia. split; [apply Z.div_pos; lia|lia].
Qed.

(** The position of a pixel in the mask. *)
Definition mask_byte (w x y : Z) : Z := y * ((w + 7) / 8) + x / 8.

Lemma mask_byte_range w h x y : 0 <= x < w -> 0 <= y < h -> 0 <= mask_byte w x y < (w + 7) / 8 * h.
Proof.
  intros Hx Hy. unfold mask_byte. pose proof (mask_column w x Hx).
  nia.
Qed.

Lemma mask_pos_inj w x y x' y' : 0 <= x < w -> 0 <= x' < w ->
  mask_byte w x y = mask_byte w x' y' -> x mod 8 = x' mod 8 -> x = x' /\ y = y'.
Proof.
  intros Hx Hx' Hb Hm. unfold mask_byte in Hb.
  pose proof (mask_column w x Hx).
  pose proof (mask_column w x' Hx').
  assert (y = y') as -> by nia. split; [|done].
  rewrite (Z.div_mod x 8), (Z.div_mod x' 8) by lia. lia.
Qed.

(** What the conversion has set after a part of its loops. *)
Lemma bits_loop w h values ps src x y : (forall p, p ∈ ps -> p ∈ pixels w h) ->
  len src = (w + 7) / 8 * h -> 0 <= x < w -> 0 <= y < h ->
  len (foldl (bits_step w values) src ps) = (w + 7) / 8 * h /\
  mask_bit (foldl (bits_step w values) src ps) w x y =
    mask_bit src w x y || existsb (fun '(x', y') => (x' =? x) && (y' =? y) && (znth 0 values (y' * w + x') >? 32767)) ps.
Proof.
  intros Hps Hlen Hx Hy. revert src Hlen. induction ps as [|[x' y'] ps IH]; intros src Hlen; cbn [foldl existsb].
  { by rewrite orb_false_r. }
  assert (len (bits_step w values src (x', y')) = (w + 7) / 8 * h) as Hlen'.
  { unfold bits_step. cbv zeta. case_match; [by rewrite len_store|done]. }
  destruct (IH ltac:(intros; apply Hps; by right) _ Hlen') as [? Hbit]. split; [done|]. rewrite Hbit.
  assert ((x', y') ∈ pixels w h) as [Hx' Hy']%elem_of_pixels by (apply Hps; by left).
  rewrite orb_assoc. f_equal. clear IH Hbit.
  pose proof (mask_byte_range w h x y Hx Hy) as Hm. pose proof (mask_byte_range w h x' y' Hx' Hy') as Hm'.
  unfold bits_step. cbv zeta. fold (mask_byte w x' y').
  destruct (znth 0 values (y' * w + x') >? 32767); [|by rewrite andb_false_r, orb_false_r].
  unfold mask_bit. fold (mask_byte w x y). rewrite znth_store by lia. rewrite andb_true_r. case_test.
  - rewrite Z.lor_spec, Heqb. f_equal.
    rewrite Z.shiftl_1_l, Z.pow2_bits_eqb by (pose proof (Z.mod_pos_bound x' 8); lia).
    destruct (Z.eqb_spec (7 - x' mod 8) (7 - x mod 8)) as [He|He].
    + destruct (mask_pos_inj w x y x' y' Hx Hx' Heqb ltac:(lia)) as [-> ->]. by rewrite !Z.eqb_refl.
    + destruct (Z.eqb_spec x' x) as [->|]; [lia|done].
  - destruct (Z.eqb_spec x' x) as [->|], (Z.eqb_spec y' y) as [->|]; cbn; by rewrite ?orb_false_r.
Qed.

Lemma len_to_bits w h values : 0 <= w -> 0 <= h -> len (to_bits w h values) = (w + 7) / 8 * h.
Proof.
  intros Hw Hh. unfold to_bits.
  assert (0 <= (w + 7) / 8 * h) as Hnn by (apply Z.mul_nonneg_nonneg; [apply Z.div_pos; lia|lia]).
  rewrite <- (Z2Nat.id ((w + 7) / 8 * h)) at 2 by done. rewrite <- (length_replicate (Z.to_nat ((w + 7) / 8 * h)) (0 : Z)) at 2.
  fold (len (replicate (Z.to_nat ((w + 7) / 8 * h)) (0 : Z))). generalize (replicate (Z.to_nat ((w + 7) / 8 * h)) (0 : Z)).
  induction (pixels w h) as [|[x y] ps IH]; intros src; [done|]. cbn [foldl]. rewrite IH.
  unfold bits_step. case_match; [apply len_store|done].
Qed.

Lemma to_bits_spec w h values x y : 0 <= x < w -> 0 <= y < h ->
  len (to_bits w h values) = (w + 7) / 8 * h /\
  mask_bit (to_bits w h values) w x y = (znth 0 values (y * w + x) >? 32767).
Proof.
  intros Hx Hy. unfold to_bits.
  assert (0 <= (w + 7) / 8 * h) as Hnn by (apply Z.mul_nonneg_nonneg; [apply Z.div_pos; lia|lia]).
  destruct (bits_loop w h values (pixels w h) (replicate (Z.to_nat ((w + 7) / 8 * h)) 0) x y) as [Hl Hb];
    [done|unfold len; rewrite length_replicate; lia|done|done|].
  split; [done|]. rewrite Hb. unfold mask_bit at 1.
  assert (znth 0 (replicate (Z.to_nat ((w + 7) / 8 * h)) 0) (y * ((w + 7) / 8) + x / 8) = 0) as ->.
  { unfold znth. destruct (nth_in_or_default (Z.to_nat (y * ((w + 7) / 8) + x / 8)) (replicate (Z.to_nat ((w + 7) / 8 * h)) 0) 0)
      as [Hi|Hi]; [|done]. by apply list_elem_of_In, elem_of_replicate in Hi as [? _]. }
  rewrite Z.bits_0. cbn [orb]. apply eq_true_iff_eq. rewrite existsb_exists. split.
  - intros ([x' y'] & _ & Hp). apply andb_true_iff in Hp as [Hp Hv]. apply andb_true_iff in Hp as [Hp1 Hp2].
    apply Z.eqb_eq in Hp1 as ->. apply Z.eqb_eq in Hp2 as ->. done.
  - intros Hv. exists (x, y). split; [apply list_elem_of_In, elem_of_pixels; lia|]. by rewrite !Z.eqb_refl, Hv.
Qed.

(** What a well-formed cursor is: a constructor's arguments fit together. *)
Definition cursor_wf (c : Cursor) : Prop :=
  0 <= cur_width c /\ 0 <= cur_height c /\ len (cur_data c) = 4 * (cur_width c * cur_height c) /\ bytes (cur_data c).

(** The mask of a cursor whose pixels are all opaque or all transparent is
    exact: it has a bit for each pixel, rows of whole bytes, and the bit is set
    where the pixel is opaque; the dithering does not disturb it. *)
Theorem getMask_exact (c : Cursor) :
  cursor_wf c -> (forall i, 0 <= i < cur_width c * cur_height c -> component c i 3 = 0 \/ component c i 3 = 255) ->
  forall x y, 0 <= x < cur_width c -> 0 <= y < cur_height c ->
  len (getMask c) = (cur_width c + 7) / 8 * cur_height c /\
  mask_bit (getMask c) (cur_width c) x y = (component c (y * cur_width c + x) 3 =? 255).
Proof.
  intros (Hw & Hh & Hlen & _) Hsharp x y Hx Hy. unfold getMask. rewrite dither_sharp.
  - destruct (to_bits_spec (cur_width c) (cur_height c)
      (map (fun i => component c i 3 * 65535 / 255) (seqZ 0 (cur_width c * cur_height c))) x y Hx Hy) as [-> ->].
    split; [done|]. assert (0 <= y * cur_width c + x < cur_width c * cur_height c) as Hi by nia.
    rewrite znth_map_seqZ by done. by destruct (Hsharp _ Hi) as [->| ->].
  - apply List.Forall_map, List.Forall_forall. intros i Hi%list_elem_of_In%elem_of_seqZ.
    destruct (Hsharp i ltac:(lia)) as [->| ->]; auto.
Qed.

Lemma getMask_exact_witness :
  let c := MkCursor 3 2 (MkPoint 0 0) (concat (map (fun a => [1; 2; 3; a]) [0; 255; 255; 0; 0; 255])) in
  len (getMask c) = 2 /\ mask_bit (getMask c) 3 2 1 = true /\ getMask c = [0x60; 0x20].
Proof.
  intros c. destruct (getMask_exact c) with (x := 2) (y := 1) as [Hl Hb]; subst c; cbn [cur_width cur_height].
  - repeat split; [done|done|by apply bytes_decide].
  - intros i Hi. assert (i = 0 \/ i = 1 \/ i = 2 \/ i = 3 \/ i = 4 \/ i = 5) as Hc by (cbn in Hi; lia).
    decompose [or] Hc; subst; vm_compute; auto.
  - lia.
  - lia.
  - split; [exact Hl|]. split; [exact Hb|]. vm_compute. reflexivity.
Defined.

(** ** Cropping *)

(** Busy rectangles lie within the cursor. *)
Definition within (c : Cursor) (b : Rect) : Prop :=
  0 <= px (tl b) <= px (br b) /\ px (br b) <= cur_width c /\ 0 <= py (tl b) <= py (br b) /\ py (br b) <= cur_height c.
Definition covers (b : Rect) (x y : Z) : Prop := px (tl b) <= x < px (br b) /\ py (tl b) <= y < py (br b).

Lemma grow_busy_spec c b x y : within c b -> 0 <= x < cur_width c -> 0 <= y < cur_height c ->
  within c (grow_busy c b (x, y)) /\ (forall x' y', covers b x' y' -> covers (grow_busy c b (x, y)) x' y') /\
  (0 < component c (y * cur_width c + x) 3 -> covers (grow_busy c b (x, y)) x y).
Proof.
  unfold within, covers, grow_busy. intros Hb Hx Hy. destruct (Z.gtb_spec (component c (y * cur_width c + x) 3) 0);
    [|split; [done|split; [done|lia]]].
  cbn [tl br px py]. destruct (Z.ltb_spec x (px (tl b))), (Z.ltb_spec y (py (tl b))),
    (Z.gtb_spec (x + 1) (px (br b))), (Z.gtb_spec (y + 1) (py (br b))); split_and!; intros; lia.
Qed.

Lemma grow_all c ps b : within c b -> (forall x y, (x, y) ∈ ps -> 0 <= x < cur_width c /\ 0 <= y < cur_height c) ->
  let b' := foldl (grow_busy c) b ps in
  within c b' /\ (forall x y, covers b x y -> covers b' x y) /\
  (forall x y, (x, y) ∈ ps -> 0 < component c (y * cur_width c + x) 3 -> covers b' x y).
Proof.
  revert b. induction ps as [|[x y] ps IH]; intros b Hb Hps; cbn [foldl].
  { split_and!; [done|done|]. intros x y Hin. by apply elem_of_nil in Hin. }
  destruct (Hps x y ltac:(by left)) as [Hx Hy]. destruct (grow_busy_spec c b x y Hb Hx Hy) as (Hw & Hm & Hp).
  destruct (IH (grow_busy c b (x, y)) Hw ltac:(intros; apply Hps; by right)) as (Hw' & Hm' & Hp').
  split_and!; [done|auto|]. intros x' y' Hin Ha. apply elem_of_cons in Hin as [[= -> ->]|Hin]; auto.
Qed.

(** The rectangle [crop] keeps, for a hotspot that is not beyond the cursor. *)
Lemma busy_rect_spec c : 0 <= cur_width c -> 0 <= cur_height c ->
  px (cur_hotspot c) <= cur_width c -> py (cur_hotspot c) <= cur_height c ->
  within c (busy_rect c) /\
  (forall x y, 0 <= x < cur_width c -> 0 <= y < cur_height c -> 0 < component c (y * cur_width c + x) 3 ->
     covers (busy_rect c) x y) /\
  (0 <= px (cur_hotspot c) < cur_width c -> 0 <= py (cur_hotspot c) < cur_height c ->
     covers (busy_rect c) (px (cur_hotspot c)) (py (cur_hotspot c))).
Proof.
  intros Hw Hh Hx Hy. unfold busy_rect. cbv zeta.
  set (b := intersect _ _).
  assert (within c b) as Hb by (unfold within, b, intersect, rect; cbn; lia).
  destruct (grow_all c (pixels (cur_width c) (cur_height c)) b Hb) as (Hi & Hm & Hp).
  { intros x y Hin. by apply elem_of_pixels in Hin. }
  split_and!; [done| |].
  - intros x y Hx' Hy'. apply Hp. by apply elem_of_pixels.
  - intros Hx' Hy'. apply Hm. unfold covers, b, intersect, rect. cbn. lia.
Qed.

(** An element of equally long rows put together. *)
Lemma znth_rows n (rows : list (list Z)) y x : Forall (fun r => len r = n) rows -> 0 <= x < n -> 0 <= y < Z.of_nat (length rows) ->
  znth 0 (concat rows) (y * n + x) = znth 0 (znth [] rows y) x.
Proof.
  intros Hr Hx. revert y. induction Hr as [|r rows Hr _ IH]; intros y Hy; [cbn in Hy; lia|].
  unfold znth in *. unfold len in Hr. cbn [concat]. destruct (Z.eq_dec y 0) as [->|Hne].
  - rewrite app_nth1 by lia. by rewrite Z.mul_0_l, Z.add_0_l.
  - rewrite app_nth2 by nia. cbn [length] in Hy. specialize (IH (y - 1) ltac:(lia)).
    replace (Z.to_nat (y * n + x) - length r)%nat with (Z.to_nat ((y - 1) * n + x)) by nia. rewrite IH.
    by replace (Z.to_nat y) with (S (Z.to_nat (y - 1))) by lia.
Qed.

Lemma len_rows n (rows : list (list Z)) : Forall (fun r => len r = n) rows -> len (concat rows) = n * Z.of_nat (length rows).
Proof. induction 1 as [|r rows Hr _ IH]; cbn [concat length]; [rewrite Z.mul_0_r; done|]. rewrite len_app. lia. Qed.

Lemma znth_ztake_zdrop (l : list Z) m n j : 0 <= m -> 0 <= j < n -> znth 0 (ztake n (zdrop m l)) j = znth 0 l (m + j).
Proof.
  intros Hm Hj. unfold znth, ztake, zdrop. rewrite !nth_lookup, lookup_take_lt by lia. rewrite lookup_drop.
  by replace (Z.to_nat (m + j)) with (Z.to_nat m + Z.to_nat j)%nat by lia.
Qed.

(** C37: [crop] keeps a rectangle of the cursor, with its pixels unchanged and
    the hotspot where it was: what is cut off is transparent, and a hotspot
    within the cursor stays within. *)
Theorem crop_spec (c : Cursor) :
  cursor_wf c -> px (cur_hotspot c) <= cur_width c -> py (cur_hotspot c) <= cur_height c ->
  exists left top, cursor_wf (crop c) /\
  0 <= left /\ left + cur_width (crop c) <= cur_width c /\ 0 <= top /\ top + cur_height (crop c) <= cur_height c /\
  cur_hotspot (crop c) = MkPoint (px (cur_hotspot c) - left) (py (cur_hotspot c) - top) /\
  (forall x y k, 0 <= x < cur_width (crop c) -> 0 <= y < cur_height (crop c) -> 0 <= k < 4 ->
     component (crop c) (y * cur_width (crop c) + x) k = component c ((top + y) * cur_width c + (left + x)) k) /\
  (forall x y, 0 <= x < cur_width c -> 0 <= y < cur_height c -> 0 < component c (y * cur_width c + x) 3 ->
     left <= x < left + cur_width (crop c) /\ top <= y < top + cur_height (crop c)) /\
  (0 <= px (cur_hotspot c) < cur_width c -> 0 <= py (cur_hotspot c) < cur_height c ->
     px (cur_hotspot (crop c)) < cur_width (crop c) /\ py (cur_hotspot (crop c)) < cur_height (crop c)).
Proof.
  intros (Hw & Hh & Hlen & Hbytes) Hx Hy. destruct (busy_rect_spec c Hw Hh Hx Hy) as (Hin & Hvis & Hhot).
  unfold crop. cbv zeta. unfold covers in Hvis, Hhot. set (b := busy_rect c) in *.
  destruct Hin as (H1 & H2 & H3 & H4). unfold width, height in *. destruct ((_ =? _) && (_ =? _)) eqn:Hsame.
  - apply andb_true_iff in Hsame as [Hs1 Hs2]. bool_decide_hyps. exists 0, 0.
    split_and!; try done; try lia.
    destruct (cur_hotspot c). cbn. by rewrite !Z.sub_0_r.
  - exists (px (tl b)), (py (tl b)).
    set (w := px (br b) - px (tl b)) in *. set (h := py (br b) - py (tl b)) in *.
    set (row := fun y => ztake (w * 4) (zdrop (y * cur_width c * 4 + px (tl b) * 4) (cur_data c))).
    assert (forall y, 0 <= y < cur_height c -> len (row y) = w * 4) as Hrow.
    { intros y Hy'. unfold row. assert (0 <= y * cur_width c) by nia.
      assert (y * cur_width c + cur_width c <= cur_width c * cur_height c) by nia.
      apply len_ztake. rewrite len_zdrop_max by lia. lia. }
    assert (Forall (fun r => len r = w * 4) (map row (seqZ (py (tl b)) h))) as Hrows.
    { apply List.Forall_map, List.Forall_forall. intros y Hy'%list_elem_of_In%elem_of_seqZ. apply Hrow. subst h. lia. }
    assert (len (concat (map row (seqZ (py (tl b)) h))) = 4 * (w * h)) as Hl.
    { rewrite (len_rows _ _ Hrows), length_map, length_seqZ, Z2Nat.id by lia. lia. }
    cbn [cur_width cur_height cur_hotspot]. split_and!; try lia.
    + split_and!; cbn; [lia|lia|done|]. apply Forall_concat, List.Forall_map, List.Forall_forall.
      intros y _. by apply bytes_ztake, bytes_zdrop.
    + done.
    + intros x y k Hx' Hy' Hk. unfold component. cbn [cur_data].
      replace (4 * (y * w + x) + k) with (y * (w * 4) + (4 * x + k)) by lia.
      rewrite znth_rows by (rewrite ?length_map, ?length_seqZ; first [done|lia]).
      assert (znth [] (map row (seqZ (py (tl b)) h)) y = row (py (tl b) + y)) as ->.
      { unfold znth. rewrite nth_lookup, list_lookup_fmap, lookup_seqZ_lt by lia. cbn. f_equal. lia. }
      unfold row. rewrite znth_ztake_zdrop by nia. f_equal. lia.
    + intros x y Hx' Hy' Ha. specialize (Hvis x y Hx' Hy' Ha). lia.
    + intros Hx' Hy'. specialize (Hhot Hx' Hy'). cbn. lia.
Qed.

(** A cursor of 4 by 3 pixels with two visible ones, cropped to 2 by 2. *)
Lemma crop_spec_witness :
  let c := MkCursor 4 3 (MkPoint 2 1) (concat (map (fun a => [9; 9; 9; a]) [0; 0; 0; 0; 0; 255; 0; 0; 0; 0; 7; 0])) in
  crop c = MkCursor 2 2 (MkPoint 1 0) (concat (map (fun a => [9; 9; 9; a]) [255; 0; 0; 7])) /\
  exists left top, left + cur_width (crop c) <= 4 /\ top + cur_height (crop c) <= 3 /\ cursor_wf (crop c).
Proof.
  intros c. split; [vm_compute; reflexivity|].
  destruct (crop_spec c) as (left & top & Hwf & _ & Hl & _ & Ht & _).
  - repeat split; subst c; cbn; [lia|lia|by apply bytes_decide].
  - subst c; cbn; lia.
  - subst c; cbn; lia.
  - exists left, top. split; [exact Hl|]. split; [exact Ht|exact Hwf].
Defined.
