(* ===== verification/Clipboard.v ===== *)
(** * Messages both directions have: fences and clipboards

    [SMsgReader] and [CMsgReader] read fences, cut texts and the extended
    clipboard alike, and [SMsgWriter] and [CMsgWriter] write them alike; they
    differ in the handler they call and in what they check first.  The common
    part is stated once, over the class of the handler calls it makes.  The zlib
    stream of a "provide" message is a parameter ([inflate], [deflate]). *)
From stdpp Require Import base gmap list numbers strings option.
From S2P Require Import Prelude InStream OutStream Strings PixelFmt Geometry Screens Params.
#[local] Open Scope Z_scope.

(** The calls that [SMsgHandler] and [CMsgHandler] have in common. *)
Class MsgEvents (E : Type) := {
  ev_fence : Z -> list Z -> E;
  ev_cutText : list Z -> E;
  ev_clipboardCaps : Z -> list Z -> E;
  ev_clipboardRequest : Z -> E;
  ev_clipboardPeek : E;
  ev_clipboardNotify : Z -> E;
  ev_clipboardProvide : Z -> list (list Z) -> E
}.

(** ** What a zlib stream makes of a segment of compressed data

    [inflate] stands for what the calls of zlib's function of that name in
    [ZlibInStream::fillBuffer] make of the compressed data of one message: what
    they decompress before they fail or stop, and how they go on.  They want
    more input, there being none left; or they answer [Z_STREAM_END] or
    [Z_NEED_DICT] from then on, [behind] which compressed data may be left over;
    or they fail in front of compressed data. *)
Inductive zend := z_wants_more | z_stops (behind : bool) | z_data_error.

Record zseg := ZSeg {
  z_out : list Z;    (* the data it decompresses to *)
  z_end : zend       (* how it goes on behind that *)
}.

Section clipboard_provide.
Context (maxCutText : Z).

(** The loop of a "provide" message over the decompressed data [u]: the flags
    that are left, the buffers, and the rest of the data; nothing when [hasData]
    asks for more than there is. *)
Fixpoint provide_loop (fmts : list Z) (flags : Z) (u : list Z) : option (Z * list (list Z) * list Z) :=
  match fmts with
  | [] => Some (flags, [], u)
  | i :: fmts =>
      if len u <? 4 then None
      else
        let length := be32 (ztake 4 u) in
        let u := zdrop 4 u in
        if len u <? length then None
        else if length >? maxCutText then
          provide_loop fmts (Z.land flags (Z.lnot (Z.shiftl 1 i))) (zdrop length u)
        else
          '(flags, buffers, rest) ← provide_loop fmts flags (zdrop length u);
          Some (flags, ztake length u :: buffers, rest)
  end.
End clipboard_provide.

(** ** Readers *)

Section readers.
Context {E : Type} `{!MsgEvents E} (maxCutText : Z) (inflate : list Z -> zseg).

Definition readFenceMsg : prog E bool :=
  require hasData (3 + 4 + 1) ;;
  setRestorePoint;;
  skip 3;;
  flags ← readU32;
  len ← readU8;
  require hasDataOrRestore len ;;
  clearRestorePoint;;
  if len >? 64 then skip len;; mret true
  else
    data ← readBytes len;
    emit (ev_fence flags data);;
    mret true.

(** A [hasData] that the decompressed data of [z] does not satisfy, where the
    caller throws [e] on [false].  [fillBuffer] asks the stream below for a byte
    even when none of the message is left: without one it answers [false]; with
    one it calls [inflate] on no input, which fails unless it has stopped, and
    then [fillBuffer] has added nothing and answers [true], again and again. *)
Definition zlib_overrun {A} (z : list Z) (e : exn) : prog E A :=
  match z_end (inflate z) with
  | z_wants_more => HasData 1 (fun ok => Raise (if ok then runtime_error "Failed to decompress data" else e))
  | z_stops false => HasData 1 (fun ok => Raise (if ok then endless z else e))
  | z_stops true => Raise (endless z)
  | z_data_error => Raise (runtime_error "Failed to decompress data")
  end.

(** The loop of [flushUnderlying] decompresses while compressed data is left
    ([unread]: none of [z] has been looked at).  It needs a byte of data for
    each round, also for the one that uses up the compressed data. *)
Definition flushUnderlying (z : list Z) (unread : bool) : prog E unit :=
  if len z =? 0 then mret tt
  else
    match z_end (inflate z) with
    | z_stops true => Raise (endless z)
    | z_data_error => Raise (runtime_error "Failed to decompress data")
    | _ =>
        if unread && (len (z_out (inflate z)) =? 0)
        then zlib_overrun z (runtime_error "Failed to flush remaining stream data")
        else mret tt
    end.

(** What [readExtendedClipboard] does once it has read the flags. *)
Definition readExtendedAction (slen flags : Z) : prog E bool :=
  let action := Z.land flags clipboardActionMask in
  if z2b (Z.land action clipboardCaps) then
    let num := len (formats flags) in
    if slen <? 4 + 4 * num then Raise (protocol_error "Invalid extended clipboard message")
    else
      lengths ← repeatM (length (formats flags)) readU32;
      emit (ev_clipboardCaps flags lengths);;
      mret true
  else if action =? clipboardProvide then
    z ← getptr_setptr (slen - 4);
    match provide_loop maxCutText (formats flags) flags (z_out (inflate z)) with
    | None => zlib_overrun z (protocol_error "Invalid extended clipboard message")
    | Some (flags', buffers, _) =>
        flushUnderlying z (len (formats flags) =? 0);;
        emit (ev_clipboardProvide flags' buffers);;
        mret true
    end
  else if action =? clipboardRequest then emit (ev_clipboardRequest flags);; mret true
  else if action =? clipboardPeek then emit ev_clipboardPeek;; mret true
  else if action =? clipboardNotify then emit (ev_clipboardNotify flags);; mret true
  else Raise (protocol_error "Invalid extended clipboard message").

(** [slen] is the [int32_t] argument; [hasData] takes it as a [size_t]. *)
Definition readExtendedClipboard (slen : Z) : prog E bool :=
  require hasData (u64 slen) ;;
  if slen <? 4 then Raise (protocol_error "Invalid extended clipboard message")
  else if slen >? maxCutText then skip slen;; mret true
  else flags ← readU32; readExtendedAction slen flags.

(** [clearRestorePoint] or [gotoRestorePoint], by the answer of the reader that
    ran behind the restore point. *)
Definition restore_unless (p : prog E bool) : prog E bool :=
  ok ← p;
  if (ok : bool) then clearRestorePoint;; mret true else gotoRestorePoint;; mret false.

(** A cut text message behind its length field. *)
Definition readCutText (len : Z) : prog E bool :=
  if z2b (Z.land len 0x80000000) then restore_unless (readExtendedClipboard (s32 (- s32 len)))
  else
    require hasDataOrRestore len ;;
    clearRestorePoint;;
    if len >? maxCutText then skip len;; mret true
    else
      ca ← readBytes len;
      emit (ev_cutText (convertLF (default [] (latin1ToUTF8 ca len))));;
      mret true.

(** [reject_min]: whether a length of INT32_MIN is refused before it is negated. *)
Definition readCutTextMsg (reject_min : bool) : prog E bool :=
  require hasData (3 + 4) ;;
  setRestorePoint;;
  skip 3;;
  len ← readU32;
  if reject_min && (len =? 0x80000000) then Raise (protocol_error "Invalid extended clipboard message")
  else readCutText len.
End readers.

(** ** Writers *)

Definition writeFenceMsg (msgType flags : Z) (data : list Z) : list Z :=
  writeU8 msgType ++ pad 3 ++ writeU32 flags ++ writeU8 (len data) ++ writeBytes data.

(** [str] is the text up to its terminator. *)
Definition writeCutTextMsg (msgType : Z) (str : list Z) : res (list Z) :=
  if bool_decide (CR ∈ str)
  then Throw (invalid_argument "Invalid carriage return in clipboard data")
  else
    let latin1 := default [] (utf8ToLatin1 (str ++ [0]) npos) in
    Ok (writeU8 msgType ++ pad 3 ++ writeU32 (len latin1) ++ writeBytes latin1).

Definition writeCapsMsg (msgType caps : Z) (lengths : list Z) : list Z :=
  let count := len (formats caps) in
  writeU8 msgType ++ pad 3 ++ writeS32 (- (4 + 4 * count)) ++
  writeU32 (Z.lor caps clipboardCaps) ++ concat (map writeU32 (ztake count lengths)).

(** "request", "peek" and "notify" messages. *)
Definition writeActionMsg (msgType flags action : Z) : list Z :=
  writeU8 msgType ++ pad 3 ++ writeS32 (-4) ++ writeU32 (Z.lor flags action).

(** What goes through the zlib stream: each buffer behind its length. *)
Definition provide_data (buffers : list (list Z)) : list Z :=
  concat (map (fun data => writeU32 (len data) ++ writeBytes data) buffers).

Definition writeProvideMsg (deflate : list Z -> list Z) (msgType flags : Z) (buffers : list (list Z)) : list Z :=
  let mos := deflate (provide_data buffers) in
  writeU8 msgType ++ pad 3 ++ writeS32 (- (4 + len mos)) ++
  writeU32 (Z.lor flags clipboardProvide) ++ writeBytes mos.

(** ** The readers keep to the discipline of the stream *)

Section discipline.
Context {P : Policy} {E : Type} `{!MsgEvents E} (maxCutText : Z) (inflate : list Z -> zseg).
(** What a compressed message that ends may do to its reader. *)
Hypothesis hang_ok : forall z behind, piece z -> z_end (inflate z) = z_stops behind -> fault (endless z).

(** A program that may not return, and otherwise throws. *)
Definition doomed {A} (p : prog E A) : Prop :=
  (exists e, p = Raise e /\ fault e) \/
  (exists e1 e2, p = HasData 1 (fun ok => Raise (if ok then e1 else e2)) /\ fault e1 /\ fault e2).

Lemma guarded_doomed {A X} (Q : X -> Prop) (more : X) ph c (p : prog E A) (f : A -> prog E X) :
  doomed p -> guarded Q more ph c (prog_bind f p).
Proof.
  intros [(e & -> & He)|(e1 & e2 & -> & He1 & He2)]; [by apply g_raise|].
  by eapply g_has_fault; [lia|reflexivity|reflexivity| |].
Qed.

Lemma doomed_overrun {A} z e : piece z -> ordinary e -> doomed (zlib_overrun inflate z e : prog E A).
Proof.
  intros Hz He%fault_ordinary. unfold zlib_overrun, doomed.
  assert (fault (runtime_error "Failed to decompress data")) as Hd by (apply fault_ordinary; exact I).
  destruct (z_end (inflate z)) as [|[|]|] eqn:Hs; [right|left|right|left]; eauto 6.
Qed.

Lemma flushUnderlying_ends z unread : piece z ->
  flushUnderlying (E:=E) inflate z unread = mret tt \/ doomed (flushUnderlying inflate z unread : prog E unit).
Proof.
  intros Hz. unfold flushUnderlying. case_test; [by left|].
  assert (fault (runtime_error "Failed to decompress data")) as Hd by (apply fault_ordinary; exact I).
  destruct (z_end (inflate z)) as [|[|]|] eqn:Hs; [|right; left; eauto|..|right; left; eauto];
    (destruct (_ && _); [right; by apply doomed_overrun|by left]).
Qed.

Lemma guarded_readFenceMsg : guarded (eq true) false Clean 0 readFenceMsg.
Proof. unfold readFenceMsg. discipline. Qed.
Lemma guarded_action slen flags (f : bool -> prog E bool) : 4 <= slen ->
  (forall c, guarded (eq true) false Ready c (f true)) ->
  guarded (eq true) false Ready (slen - 4) (prog_bind f (readExtendedAction maxCutText inflate slen flags)).
Proof.
  intros H4 Hf. unfold readExtendedAction. cbv zeta.
  destruct (z2b (Z.land _ clipboardCaps)).
  { pose proof (len_formats flags). unfold len in *. repeat guard_step. apply Hf. }
  destruct (_ =? clipboardProvide); [|repeat guard_step; apply Hf].
  prog_simpl. apply g_take; [done|lia|]. intros z _ _ Hz. cbn [prog_bind].
  destruct (provide_loop _ _ _ _) as [[[flags' buffers] rest]|]; [|by apply guarded_doomed, doomed_overrun].
  destruct (flushUnderlying_ends z (len (formats flags) =? 0) Hz) as [->|Hd]; [repeat guard_step; apply Hf|].
  destruct Hd as [(e & -> & He)|(e1 & e2 & -> & He1 & He2)]; [by apply g_raise|].
  by eapply g_has_fault; [lia|reflexivity|reflexivity| |].
Qed.

Lemma guarded_extended slen c : - 2 ^ 31 <= slen < 2 ^ 31 ->
  guarded (eq true) false Marked c (restore_unless (readExtendedClipboard maxCutText inflate slen)).
Proof.
  intros Hs. unfold restore_unless, readExtendedClipboard. prog_simpl.
  apply g_has_ready; [reflexivity|apply u64_range|]. cbn [prog_bind].
  destruct (Z.ltb_spec slen 4) as [|H4]; [discipline|]. rewrite u64_id by lia.
  destruct (slen >? maxCutText); [discipline|].
  prog_simpl. apply g_take; [done|lia|]. intros bs _ _ _. cbn [prog_bind].
  apply guarded_action; [done|intros; discipline].
Qed.

Lemma guarded_readCutText len c : 0 <= len < 2 ^ 32 ->
  guarded (eq true) false Marked c (readCutText maxCutText inflate len).
Proof.
  intros Hl. unfold readCutText. destruct (z2b (Z.land _ _)).
  - apply guarded_extended. apply s32_range.
  - discipline.
Qed.

Lemma guarded_readCutTextMsg reject_min : guarded (eq true) false Clean 0 (readCutTextMsg maxCutText inflate reject_min).
Proof.
  unfold readCutTextMsg. do 5 guard_step; [guard_step|].
  apply guarded_readCutText. apply be32_range.
Qed.
End discipline.

(** ** What is written is what is read *)

Section fence.
Context {E : Type} `{!MsgEvents E}.

Lemma rt_Fence flags data rest : u32_wf flags -> len data <= 64 ->
  outcome readFenceMsg (E:=E) (pad 3 ++ writeU32 flags ++ writeU8 (len data) ++ writeBytes data ++ rest) =
  Ok (true, rest, [ev_fence flags data]).
Proof.
  unfold u32_wf. intros. pose proof (len_nonneg data). unfold readFenceMsg. run_reader. rewrite u8_id, u32_id by lia.
  unfold writeBytes. read_fields. case_test; [lia|]. rewrite arun_readBytes by lia. by read_fields.
Qed.

End fence.

(** *** Clipboard text *)

Lemma latin1_utf8_clean c : 0 < c < 256 -> c <> CR -> Forall (fun b => b <> CR /\ b <> 0) (ucs4ToUTF8 c).
Proof. 
  intros H Hc. assert (forallb (fun b => negb (b =? CR) && negb (b =? 0)) (ucs4ToUTF8 c) || (c =? CR) = true) as Hf.
  { assert (0 <= c < 256 /\ c <> 0) as [H1 H2] by lia. clear H Hc.
    revert H2. by_bytes c H1. }
  apply orb_true_iff in Hf as [Hf|Hf]; bool_decide_hyps; [|done].
  rewrite forallb_forall in Hf. apply List.Forall_forall. intros b Hb%Hf. by bool_decide_hyps.
Qed.

Lemma convertLF_id l : Forall (fun b => b <> CR /\ b <> 0) l -> convertLF l = l.
Proof.
  induction 1 as [|c l [H1 H2] _ IH]; [done|]. cbn.
  rewrite (proj2 (Z.eqb_neq c 0)), (proj2 (Z.eqb_neq c CR)) by done. cbn. by rewrite IH.
Qed.

Lemma utf8_text_CR text : CR ∈ text -> CR ∈ utf8_text text.
Proof.
  intros H. unfold utf8_text. apply list_elem_of_In, in_concat. exists (ucs4ToUTF8 CR).
  split; [by apply in_map, list_elem_of_In|by left].
Qed.

Lemma to_latin1_range text : Forall (fun c => scalar c /\ c <> 0) text -> CR ∉ text ->
  Forall (fun c => 0 < c < 256 /\ c <> CR) (map (fun ucs => if ucs >? 0xff then 63 else ucs) text).
Proof.
  intros H Hn. apply List.Forall_map. rewrite List.Forall_forall in *. intros c Hc.
  destruct (H c Hc) as [[? _] ?]. assert (c <> CR) by (intros ->; by apply Hn, list_elem_of_In).
  case_test; unfold CR in *; lia.
Qed.


Section cut.
Context {E : Type} `{!MsgEvents E} (maxCutText : Z) (inflate : list Z -> zseg).
Hypothesis maxCutText_int : 0 <= maxCutText < 2 ^ 31.

Lemma rt_CutText reject_min msgType text rest bs : Forall (fun c => scalar c /\ c <> 0) text ->
  len (utf8_text text) < npos -> len text <= maxCutText ->
  writeCutTextMsg msgType (utf8_text text) = Ok bs ->
  exists body, bs = writeU8 msgType ++ body /\
  outcome (readCutTextMsg maxCutText inflate reject_min) (body ++ rest) =
    Ok (true, rest, [ev_cutText (utf8_text (map (fun c => if c >? 0xff then 63 else c) text))]).
Proof.
  intros Ht Hlen Hmax. unfold writeCutTextMsg. case_bool_decide as Hcr; [done|]. intros [= <-].
  unfold utf8ToLatin1. change [0] with (0 :: []). rewrite utf8_codepoints_text by done. cbn [default option_map mbind option_bind id].
  eexists. split; [reflexivity|].
  pose proof (to_latin1_range text Ht (fun H => Hcr (utf8_text_CR text H))) as Hl.
  set (l := map _ text) in *. 
  assert (len l = len text) as Hll by (unfold l; by autorewrite with len).
  pose proof (len_nonneg l). rewrite <- Hll in Hmax.
  unfold readCutTextMsg. run_reader. rewrite u32_id by lia.
  rewrite (proj2 (Z.eqb_neq _ _)), andb_false_r by lia. unfold readCutText. rewrite top_bit by lia.
  rewrite (proj2 (Z.leb_gt _ _)) by lia. unfold writeBytes. read_fields.
  case_test; [lia|]. rewrite arun_readBytes by lia. read_fields.
  rewrite latin1_utf8_text by (eapply Forall_impl; [|exact Hl]; intros ? [? ?]; done). cbn [default].
  rewrite convertLF_id; [done|]. unfold utf8_text. apply Forall_concat, List.Forall_map.
  eapply Forall_impl; [|exact Hl]. intros c [? ?]. by apply latin1_utf8_clean.
Qed.
End cut.

Section ext.
Context {E : Type} `{!MsgEvents E} (maxCutText : Z) (inflate : list Z -> zseg) (deflate : list Z -> list Z).
Hypothesis maxCutText_int : 0 <= maxCutText < 2 ^ 31.

Lemma ext_length n : 4 <= n < 2 ^ 31 ->
  (2 ^ 31 <=? u32 (- n)) = true /\ s32 (- s32 (u32 (- n))) = n.
Proof.
  intros H. rewrite s32_u32, (s32_id (- n)), s32_id by lia. split; [|lia].
  apply Z.leb_le. unfold u32. zlia.
Qed.

Lemma rt_ext reject_min n flags body rest ev : n = 4 + len body -> n <= maxCutText -> u32_wf flags ->
  (forall C (k : bool -> prog E C) pre c, len body <= c ->
    arun (prog_bind k (readExtendedAction maxCutText inflate n flags)) (AState (body ++ rest) (Some pre) c) =
    prepend [ev] (arun (k true) (AState rest (Some (pre ++ body)) (c - len body)))) ->
  outcome (readCutTextMsg maxCutText inflate reject_min) (pad 3 ++ writeS32 (- n) ++ writeU32 flags ++ body ++ rest) =
  Ok (true, rest, [ev]).
Proof.
  intros Hn Hm Hf Hact. pose proof (len_nonneg body). unfold u32_wf in Hf.
  destruct (ext_length n) as [H1 H2]; [lia|]. unfold writeS32.
  unfold readCutTextMsg. run_reader.
  rewrite (proj2 (Z.eqb_neq _ _)), andb_false_r by (unfold u32; zlia).
  unfold readCutText. rewrite top_bit by apply u32_range. rewrite H1, H2.
  unfold restore_unless, readExtendedClipboard. read_fields. rewrite u64_id by lia. read_fields.
  rewrite (proj2 (Z.ltb_ge _ _)) by lia. rewrite Z.gtb_ltb, (proj2 (Z.ltb_ge _ _)) by lia.
  read_fields. rewrite u32_id by lia. cbn [fmap option_fmap option_map]. rewrite Hact by lia. by read_fields.
Qed.

Lemma flush_written z : z_end (inflate z) = z_wants_more -> flushUnderlying (E:=E) inflate z false = mret tt.
Proof. intros Hz. unfold flushUnderlying. case_test; [done|]. by rewrite Hz. Qed.

(** The four actions, on flags that carry nothing but formats. *)
Lemma action_bit flags k : 0 <= flags < 2 ^ 24 -> 24 <= k < 32 ->
  Z.land (Z.lor flags (Z.shiftl 1 k)) clipboardActionMask = Z.shiftl 1 k.
Proof.
  intros H Hk. unfold clipboardActionMask. change 0xff000000 with (Z.shiftl (Z.ones 8) 24).
  apply Z.bits_inj'. intros i Hi. rewrite Z.land_spec, Z.lor_spec.
  destruct (Z.ltb_spec i 24) as [Hl|Hl].
  - rewrite (Z.shiftl_spec_low (Z.ones 8)), andb_false_r by lia. by rewrite Z.shiftl_spec_low by lia.
  - assert (Z.testbit flags i = false) as ->.
    { destruct (Z.eq_dec flags 0) as [->|]; [apply Z.bits_0|]. apply Z.bits_above_log2; [lia|].
      apply Z.lt_le_trans with 24; [apply Z.log2_lt_pow2; lia|lia]. }
    cbn. rewrite (Z.shiftl_spec (Z.ones 8)) by lia. rewrite Z.shiftl_1_l, Z.pow2_bits_eqb by lia.
    destruct (Z.eqb_spec k i) as [->|]; [|done]. by rewrite Z.ones_spec_low by lia.
Qed.

Lemma rt_simple_action reject_min flags k ev rest : 0 <= flags < 2 ^ 24 -> 4 <= maxCutText ->
  (k = 25 /\ ev = ev_clipboardRequest (Z.lor flags clipboardRequest)) \/
  (k = 26 /\ ev = ev_clipboardPeek) \/
  (k = 27 /\ ev = ev_clipboardNotify (Z.lor flags clipboardNotify)) ->
  outcome (readCutTextMsg maxCutText inflate reject_min)
    (pad 3 ++ writeS32 (-4) ++ writeU32 (Z.lor flags (Z.shiftl 1 k)) ++ rest) = Ok (true, rest, [ev]).
Proof.
  intros Hf Hm Hin.
  apply (rt_ext reject_min 4 (Z.lor flags (Z.shiftl 1 k)) [] rest ev); [done|done|apply lor_bit_range; lia|].
  intros C cont pre c Hc. rewrite len_nil, Z.sub_0_r, app_nil_r. cbn [app].
  unfold readExtendedAction. cbv zeta. rewrite action_bit by lia.
  destruct Hin as [[-> ->]|[[-> ->]|[-> ->]]]; repeat eval_test; read_fields; done.
Qed.

Lemma rt_caps reject_min caps lengths rest : u32_wf caps -> length lengths = length (formats caps) ->
  Forall u32_wf lengths -> 4 + 4 * len lengths <= maxCutText ->
  outcome (readCutTextMsg maxCutText inflate reject_min)
    (pad 3 ++ writeS32 (- (4 + 4 * len (formats caps))) ++ writeU32 (Z.lor caps clipboardCaps) ++
     concat (map writeU32 (ztake (len (formats caps)) lengths)) ++ rest) =
  Ok (true, rest, [ev_clipboardCaps (Z.lor caps clipboardCaps) lengths]).
Proof.
  intros Hc Hl Hw Hm. assert (len (formats caps) = len lengths) as -> by (unfold len; lia).
  rewrite ztake_all. unfold u32_wf in Hc.
  apply rt_ext; [by autorewrite with len|done|apply lor_bit_range; lia|].
  intros C cont pre c Hlen. autorewrite with len in Hlen. unfold readExtendedAction. cbv zeta.
  assert (z2b (Z.land (Z.land (Z.lor caps clipboardCaps) clipboardActionMask) clipboardCaps) = true) as ->.
  { rewrite <- Z.land_assoc. change (Z.land clipboardActionMask clipboardCaps) with (Z.shiftl 1 24).
    rewrite Z.land_lor_distr_l. change (Z.land clipboardCaps (Z.shiftl 1 24)) with (2 ^ 24).
    unfold z2b. apply negb_true_iff, Z.eqb_neq. intros H.
    apply (f_equal (fun z => Z.testbit z 24)) in H.
    by rewrite Z.lor_spec, Z.pow2_bits_true, orb_true_r in H by lia. }
  unfold clipboardCaps. rewrite formats_lor by lia.
  rewrite (proj2 (Z.ltb_ge _ _)) by (unfold len; lia). rewrite <- Hl.
  unfold mbind, prog_mbind. rewrite arun_bind_assoc.
  rewrite (reads_back_repeatM readU32 writeU32 u32 4) by (lia || (apply Forall_true; apply reads_back_U32)).
  cbn [fmap option_fmap option_map]. rewrite len_map_writeU32.
  assert (map u32 lengths = lengths) as ->.
  { rewrite <- (List.map_id lengths) at 2. apply map_ext_Forall.
    eapply Forall_impl; [|exact Hw]. intros z Hz. unfold u32_wf in Hz. apply u32_id. lia. }
  by read_fields.
Qed.

Lemma provide_loop_written flags buffers fmts : length buffers = length fmts ->
  Forall (fun b => len b <= maxCutText) buffers ->
  provide_loop maxCutText fmts flags (provide_data buffers) = Some (flags, buffers, []).
Proof.
  revert buffers. induction fmts as [|i fmts IH]; intros [|b bs] Hl Hb; try done.
  apply Forall_cons_1 in Hb as [Hb Hbs]. injection Hl as Hl. unfold provide_data. cbn [map concat provide_loop].
  fold (provide_data bs). unfold writeBytes. rewrite <- app_assoc.
  pose proof (len_nonneg b). pose proof (len_nonneg (provide_data bs)).
  rewrite (proj2 (Z.ltb_ge _ _)) by llia. rewrite zdrop_app, ztake_app, be32_write, u32_id by llia.
  rewrite (proj2 (Z.ltb_ge _ _)) by llia. rewrite Z.gtb_ltb, (proj2 (Z.ltb_ge _ _)) by lia.
  rewrite zdrop_app, ztake_app by done. by rewrite IH.
Qed.

Hypothesis inflate_deflate : forall u, bytes u ->
  z_out (inflate (deflate u)) = u /\ z_end (inflate (deflate u)) = z_wants_more.

Lemma bytes_provide_data buffers : Forall bytes buffers -> bytes (provide_data buffers).
Proof.
  intros H. unfold bytes, provide_data. apply Forall_concat, List.Forall_map.
  eapply Forall_impl; [|exact H]. intros b Hb. apply Forall_app. split; [apply bytes_writeU32|done].
Qed.

(** (Without a format the reader has decompressed nothing by the time it flushes
    the rest, and a flushed stream of no data is not empty.) *)
Lemma rt_provide reject_min flags buffers rest : 0 <= flags < 2 ^ 24 -> formats flags <> [] -> length buffers = length (formats flags) ->
  Forall (fun b => bytes b /\ len b <= maxCutText) buffers ->
  4 + len (deflate (provide_data buffers)) <= maxCutText ->
  outcome (readCutTextMsg maxCutText inflate reject_min)
    (pad 3 ++ writeS32 (- (4 + len (deflate (provide_data buffers)))) ++ writeU32 (Z.lor flags clipboardProvide) ++
     writeBytes (deflate (provide_data buffers)) ++ rest) =
  Ok (true, rest, [ev_clipboardProvide (Z.lor flags clipboardProvide) buffers]).
Proof.
  intros Hf Hne Hl Hb Hm. apply list.Forall_and in Hb as [Hb1 Hb2].
  destruct (inflate_deflate (provide_data buffers) (bytes_provide_data _ Hb1)) as [Hz1 Hz2].
  set (z := deflate _) in *. unfold writeBytes. pose proof (len_nonneg z).
  apply rt_ext; [done|done|apply lor_bit_range; lia|].
  intros C cont pre c Hc. unfold readExtendedAction, clipboardProvide. cbv zeta. rewrite action_bit by lia.
  repeat eval_test. unfold getptr_setptr. replace (4 + len z - 4) with (len z) by lia.
  read_fields. rewrite formats_lor by lia. rewrite Hz1, provide_loop_written by done.
  assert ((len (formats flags) =? 0) = false) as -> by (destruct (formats flags); [done|]; apply Z.eqb_neq; llia).
  rewrite flush_written by done.
  by read_fields.
Qed.
End ext.

(** The compressed data that stops [inflate], and the two ways the readers are
    looked at: any of it may catch them; or only what is in the data they read. *)
Definition stops (inflate : list Z -> zseg) (z : list Z) : Prop := exists behind, z_end (inflate z) = z_stops behind.

Lemma hang_hanging (inflate : list Z -> zseg) z behind :
  piece (Policy := hanging) z -> z_end (inflate z) = z_stops behind -> fault (Policy := hanging) (endless z).
Proof. done. Qed.
Lemma hang_watched (inflate : list Z -> zseg) d z behind :
  piece (Policy := watched d (stops inflate)) z -> z_end (inflate z) = z_stops behind ->
  fault (Policy := watched d (stops inflate)) (endless z).
Proof. intros Hd Hz. right. exists z. split; [done|]. split; [done|]. by exists behind. Qed.

(** A stand-in for zlib that stores its data. *)
Definition stored (z : list Z) : zseg := ZSeg z z_wants_more.
(** One whose data ends at the first zero byte. *)
Fixpoint ended (z : list Z) : zseg :=
  match z with
  | [] => ZSeg [] z_wants_more
  | 0 :: z => ZSeg [] (z_stops (negb (len z =? 0)))
  | b :: z => let s := ended z in ZSeg (b - 1 :: z_out s) (z_end s)
  end.
