(* ===== verification/ClientMsgs.v ===== *)
(** * Messages from the client to the server ([rfb/CMsgWriter.cxx], [rfb/SMsgReader.cxx])

    [CMsgWriter] is modelled by functions to the bytes they put on the stream,
    [SMsgReader] by programs over the input stream whose events are the calls
    of the [SMsgHandler].  The zlib stream of the extended clipboard is a
    parameter ([inflate], [deflate]). *)
From stdpp Require Import base gmap list numbers strings option.
From S2P Require Import Prelude InStream OutStream Strings PixelFmt Geometry Screens Params Clipboard.
#[local] Open Scope Z_scope.

Definition msgTypeSetPixelFormat : Z := 0.
Definition msgTypeSetEncodings : Z := 2.
Definition msgTypeFramebufferUpdateRequest : Z := 3.
Definition msgTypeKeyEvent : Z := 4.
Definition msgTypePointerEvent : Z := 5.
Definition msgTypeClientCutText : Z := 6.
Definition msgTypeEnableContinuousUpdates : Z := 150.
Definition msgTypeClientFence : Z := 248.
Definition msgTypeSetDesktopSize : Z := 251.
Definition msgTypeQEMUClientMessage : Z := 255.
Definition qemuExtendedKeyEvent : Z := 0.
Definition qemuAudio : Z := 1.
Definition msgToQemuEnableAudio : Z := 0.
Definition msgToQemuDisableAudio : Z := 1.
Definition msgToQemuSetAudioFormat : Z := 2.

(** ** The calls of the handler ([rfb/SMsgHandler.h]) *)

Inductive sevent :=
| clientInit (shared : bool)
| setPixelFormat (pf : PixelFormat)
| setEncodings_ev (encodings : list Z)
| framebufferUpdateRequest (r : Rect) (incremental : bool)
| setDesktopSize (fb_width fb_height : Z) (layout : list Screen)
| fence (flags : Z) (data : list Z)
| enableContinuousUpdates (enable : bool) (x y w h : Z)
| keyEvent (keysym keycode : Z) (down : bool)
| pointerEvent (pos : Point) (buttonMask : Z)
| clientCutText (str : list Z)
| handleClipboardCaps (flags : Z) (lengths : list Z)
| handleClipboardRequest (flags : Z)
| handleClipboardPeek
| handleClipboardNotify (flags : Z)
| handleClipboardProvide (flags : Z) (buffers : list (list Z)).

#[export] Instance SMsgEvents : MsgEvents sevent := {|
  ev_fence := fence;
  ev_cutText := clientCutText;
  ev_clipboardCaps := handleClipboardCaps;
  ev_clipboardRequest := handleClipboardRequest;
  ev_clipboardPeek := handleClipboardPeek;
  ev_clipboardNotify := handleClipboardNotify;
  ev_clipboardProvide := handleClipboardProvide
|}.

(** ** [SMsgReader] *)

Section SMsgReader.
Context (maxCutText : Z) (inflate : list Z -> zseg).

Definition readClientInit : prog sevent bool :=
  require hasData 1 ;;
  shared ← readU8;
  emit (clientInit (z2b shared));;
  mret true.

Definition readSetPixelFormat : prog sevent bool :=
  require hasData (3 + 16) ;;
  skip 3;;
  pf ← pf_read;
  emit (setPixelFormat pf);;
  mret true.

(** The handler passes the list on to [ClientParams::setEncodings]. *)
Definition readSetEncodings (client : ClientParams) : prog sevent (option ClientParams) :=
  ok ← hasData (1 + 2);
  if negb ok then mret None else
  setRestorePoint;;
  skip 1;;
  nEncodings ← readU16;
  ok ← hasDataOrRestore (nEncodings * 4);
  if negb ok then mret None else
  clearRestorePoint;;
  encodings ← repeatM (Z.to_nat nEncodings) readS32;
  emit (setEncodings_ev encodings);;
  mret (Some (setEncodings encodings client)).

Definition readScreen : prog sevent Screen :=
  id ← readU32; sx ← readU16; sy ← readU16; sw ← readU16; sh ← readU16; flags ← readU32;
  mret (screen id sx sy sw sh flags).

Definition readSetDesktopSize : prog sevent bool :=
  require hasData (1 + 2 + 2 + 1 + 1) ;;
  setRestorePoint;;
  skip 1;;
  width ← readU16; height ← readU16;
  screens ← readU8;
  skip 1;;
  require hasDataOrRestore (screens * (4 + 2 + 2 + 2 + 2 + 4)) ;;
  clearRestorePoint;;
  layout ← repeatM (Z.to_nat screens) readScreen;
  emit (setDesktopSize width height layout);;
  mret true.

Definition readFramebufferUpdateRequest : prog sevent bool :=
  require hasData (1 + 2 + 2 + 2 + 2) ;;
  inc ← readU8; x ← readU16; y ← readU16; w ← readU16; h ← readU16;
  emit (framebufferUpdateRequest (rect x y (x + w) (y + h)) (z2b inc));;
  mret true.

Definition readEnableContinuousUpdates : prog sevent bool :=
  require hasData (1 + 2 + 2 + 2 + 2) ;;
  enable ← readU8; x ← readU16; y ← readU16; w ← readU16; h ← readU16;
  emit (enableContinuousUpdates (z2b enable) x y w h);;
  mret true.

Definition readFence : prog sevent bool := readFenceMsg.

Definition readKeyEvent : prog sevent bool :=
  require hasData (1 + 2 + 4) ;;
  down ← readU8;
  skip 2;;
  key ← readU32;
  emit (keyEvent key 0 (z2b down));;
  mret true.

Definition readPointerEvent (client : ClientParams) : prog sevent bool :=
  require hasData (1 + 2 + 2) ;;
  setRestorePoint;;
  mask ← readU8; x ← readU16; y ← readU16;
  if client_supportsExtendedMouseButtons client && z2b (Z.land mask 0x80) then
    require hasDataOrRestore 1 ;;
    highBits ← readU8;
    clearRestorePoint;;
    emit (pointerEvent (MkPoint x y) (Z.lor (Z.shiftl highBits 7) (Z.land mask 0x7f)));;
    mret true
  else
    clearRestorePoint;;
    emit (pointerEvent (MkPoint x y) mask);;
    mret true.

(** Here the length is negated whatever it is. *)
Definition readClientCutText : prog sevent bool := readCutTextMsg maxCutText inflate false.

Definition readQEMUKeyEvent : prog sevent bool :=
  require hasData (2 + 4 + 4) ;;
  down ← readU16;
  keysym ← readU32;
  keycode ← readU32;
  if negb (z2b keycode) then mret true
  else
    emit (keyEvent keysym keycode (z2b down));;
    mret true.

Definition readQEMUMessage : prog sevent bool :=
  require hasData 1 ;;
  setRestorePoint;;
  subType ← readU8;
  if subType =? qemuExtendedKeyEvent then restore_unless readQEMUKeyEvent
  else Raise (protocol_error "Unknown QEMU submessage type").

(** *** The message loop *)

Inductive msgstate := MSGSTATE_IDLE | MSGSTATE_MESSAGE.

(** The reader's own state, and what the handler knows of the client. *)
Record sreader := SReader { sr_state : msgstate; sr_currentMsgType : Z; sr_client : ClientParams }.

Definition known (client : ClientParams) (p : prog sevent bool) : prog sevent (option ClientParams) :=
  ok ← p; mret (if (ok : bool) then Some client else None).

Definition readBody (t : Z) (client : ClientParams) : prog sevent (option ClientParams) :=
  if t =? msgTypeSetPixelFormat then known client readSetPixelFormat
  else if t =? msgTypeSetEncodings then readSetEncodings client
  else if t =? msgTypeSetDesktopSize then known client readSetDesktopSize
  else if t =? msgTypeFramebufferUpdateRequest then known client readFramebufferUpdateRequest
  else if t =? msgTypeEnableContinuousUpdates then known client readEnableContinuousUpdates
  else if t =? msgTypeClientFence then known client readFence
  else if t =? msgTypeKeyEvent then known client readKeyEvent
  else if t =? msgTypePointerEvent then known client (readPointerEvent client)
  else if t =? msgTypeClientCutText then known client readClientCutText
  else if t =? msgTypeQEMUClientMessage then known client readQEMUMessage
  else Raise (protocol_error "Unknown message type").

Definition readMsg (r : sreader) : prog sevent (bool * sreader) :=
  let message r :=
    ret ← readBody (sr_currentMsgType r) (sr_client r);
    mret (match ret with
          | Some client => (true, SReader MSGSTATE_IDLE (sr_currentMsgType r) client)
          | None => (false, r)
          end) in
  match sr_state r with
  | MSGSTATE_IDLE =>
      ok ← hasData 1;
      if (ok : bool) then t ← readU8; message (SReader MSGSTATE_MESSAGE t (sr_client r))
      else mret (false, r)
  | MSGSTATE_MESSAGE => message r
  end.

(** [SMsgReader::SMsgReader]; [currentMsgType] is not initialised. *)
Definition init_reader (garbage : Z) (client : ClientParams) : sreader := SReader MSGSTATE_IDLE garbage client.
End SMsgReader.

(** ** The readers keep to the discipline of the stream *)

Lemma reads_readScreen : reads 16 readScreen.
Proof. unfold readScreen. reads_seq. constructor. Qed.
#[export] Hint Resolve reads_readScreen : reads.

Section discipline.
Context {P : Policy} (maxCutText : Z) (inflate : list Z -> zseg).
Hypothesis hang_ok : forall z behind, piece z -> z_end (inflate z) = z_stops behind -> fault (endless z).

Lemma guarded_readClientInit : guarded (eq true) false Clean 0 readClientInit.
Proof. unfold readClientInit. discipline. Qed.
Lemma guarded_readSetPixelFormat : guarded (eq true) false Clean 0 readSetPixelFormat.
Proof. unfold readSetPixelFormat. discipline. Qed.
Lemma guarded_readSetEncodings client : guarded is_Some None Clean 0 (readSetEncodings client).
Proof. unfold readSetEncodings. discipline. Qed.
Lemma guarded_readSetDesktopSize : guarded (eq true) false Clean 0 readSetDesktopSize.
Proof. unfold readSetDesktopSize. discipline. Qed.
Lemma guarded_readFramebufferUpdateRequest : guarded (eq true) false Clean 0 readFramebufferUpdateRequest.
Proof. unfold readFramebufferUpdateRequest. discipline. Qed.
Lemma guarded_readEnableContinuousUpdates : guarded (eq true) false Clean 0 readEnableContinuousUpdates.
Proof. unfold readEnableContinuousUpdates. discipline. Qed.
Lemma guarded_readFence : guarded (eq true) false Clean 0 readFence.
Proof. apply guarded_readFenceMsg. Qed.
Lemma guarded_readKeyEvent : guarded (eq true) false Clean 0 readKeyEvent.
Proof. unfold readKeyEvent. discipline. Qed.
Lemma guarded_readPointerEvent client : guarded (eq true) false Clean 0 (readPointerEvent client).
Proof. unfold readPointerEvent. discipline. Qed.
Lemma guarded_readQEMUMessage : guarded (eq true) false Clean 0 readQEMUMessage.
Proof. unfold readQEMUMessage, restore_unless, readQEMUKeyEvent. discipline. Qed.

Lemma guarded_readClientCutText : guarded (eq true) false Clean 0 (readClientCutText maxCutText inflate).
Proof. unfold readClientCutText. by apply guarded_readCutTextMsg. Qed.

Lemma guarded_known client p : guarded (eq true) false Clean 0 p -> guarded is_Some None Clean 0 (known client p).
Proof.
  intros H. unfold known. unfold mbind, prog_mbind, mret, prog_mret.
  apply (guarded_map (eq true) is_Some false None (fun ok : bool => if ok then Some client else None)); [done| |done].
  intros [|] [=]. by eexists.
Qed.

Lemma guarded_readBody t client : guarded is_Some None Clean 0 (readBody maxCutText inflate t client).
Proof.
  unfold readBody.
  repeat (case_test; [solve [auto using guarded_readSetEncodings, guarded_known, guarded_readSetPixelFormat,
    guarded_readSetDesktopSize, guarded_readFramebufferUpdateRequest, guarded_readEnableContinuousUpdates,
    guarded_readFence, guarded_readKeyEvent, guarded_readPointerEvent, guarded_readClientCutText,
    guarded_readQEMUMessage]|]).
  by apply g_raise, fault_ordinary.
Qed.

(** The type byte counts until the message it announces is complete. *)
Definition mu (r : sreader) : nat := match sr_state r with MSGSTATE_IDLE => 0 | MSGSTATE_MESSAGE => 1 end.

Lemma readMsg_message_at t client :
  message_at (fun _ => True) mu (readMsg maxCutText inflate) (SReader MSGSTATE_MESSAGE t client).
Proof.
  unfold message_at, readMsg, mbind, prog_mbind, mret, prog_mret. cbn [sr_state].
  eapply guarded_map; [| |apply guarded_readBody]; [done|]. intros x [c ->]. cbn. auto with lia.
Qed.

Lemma readMsg_shape r : shape (fun _ => True) mu (readMsg maxCutText inflate) r.
Proof.
  destruct r as [[|] t client]; [|apply shape_message, readMsg_message_at; done].
  apply (shape_field _ _ _ _ 1 (fun f => FGo (SReader MSGSTATE_MESSAGE (znth 0 f 0) client) [])); [done..| | |].
  - intros f l' evs _ _ [= <- <-]. cbn. lia.
  - intros f l' evs _ _ [= <- <-]. by apply shape_message, readMsg_message_at.
  - intros d. rewrite prepend_nil. destruct (Z.leb_spec 1 (len d)) as [H|H].
    + unfold outcome, fresh, readMsg. cbn [sr_state]. prog_simpl.
      rewrite arun_has_enough, arun_take by lia. done.
    + destruct d as [|b d]; [done|llia].
Qed.
End discipline.

(** ** [CMsgWriter] *)

Section CMsgWriter.
Context (server : ServerParams) (deflate : list Z -> list Z).

Definition writeClientInit (shared : bool) : list Z := writeU8 (b2z shared).

Definition writeSetPixelFormat (pf : PixelFormat) : list Z :=
  writeU8 msgTypeSetPixelFormat ++ pad 3 ++ pf_write pf.

Definition writeSetEncodings (encodings : list Z) : list Z :=
  writeU8 msgTypeSetEncodings ++ pad 1 ++ writeU16 (len encodings) ++ concat (map writeU32 encodings).

Definition writeScreen (s : Screen) : list Z :=
  writeU32 (scr_id s) ++
  writeU16 (px (tl (scr_dims s))) ++ writeU16 (py (tl (scr_dims s))) ++
  writeU16 (width (scr_dims s)) ++ writeU16 (height (scr_dims s)) ++
  writeU32 (scr_flags s).

Definition writeSetDesktopSize (width height : Z) (layout : list Screen) : res (list Z) :=
  if negb (supportsSetDesktopSize server)
  then Throw (logic_error "Server does not support SetDesktopSize")
  else Ok (writeU8 msgTypeSetDesktopSize ++ pad 1 ++ writeU16 width ++ writeU16 height ++
           writeU8 (num_screens layout) ++ pad 1 ++ concat (map writeScreen layout)).

Definition writeFramebufferUpdateRequest (r : Rect) (incremental : bool) : list Z :=
  writeU8 msgTypeFramebufferUpdateRequest ++ writeU8 (b2z incremental) ++
  writeU16 (px (tl r)) ++ writeU16 (py (tl r)) ++ writeU16 (width r) ++ writeU16 (height r).

Definition writeEnableContinuousUpdates (enable : bool) (x y w h : Z) : res (list Z) :=
  if negb (supportsContinuousUpdates server)
  then Throw (logic_error "Server does not support continuous updates")
  else Ok (writeU8 msgTypeEnableContinuousUpdates ++ writeU8 (b2z enable) ++
           writeU16 x ++ writeU16 y ++ writeU16 w ++ writeU16 h).

Definition writeFence (flags : Z) (data : list Z) : res (list Z) :=
  if negb (supportsFence server) then Throw (logic_error "Server does not support fences")
  else if len data >? 64 then Throw (out_of_range "Too large fence payload")
  else if negb (Z.land flags (Z.lnot fenceFlagsSupported) =? 0)
  then Throw (invalid_argument "Unknown fence flags")
  else Ok (writeFenceMsg msgTypeClientFence flags data).

Definition writeKeyEvent (keysym keycode : Z) (down : bool) : list Z :=
  if negb (supportsQEMUKeyEvent server) || negb (z2b keycode) then
    if negb (z2b keysym) then []
    else writeU8 msgTypeKeyEvent ++ writeU8 (b2z down) ++ pad 2 ++ writeU32 keysym
  else
    writeU8 msgTypeQEMUClientMessage ++ writeU8 qemuExtendedKeyEvent ++ writeU16 (b2z down) ++
    writeU32 keysym ++ writeU32 keycode.

(** The four statements that bring a position into the framebuffer. *)
Definition clip_pos (pos : Point) : Point :=
  let p := pos in
  let p := if px p <? 0 then MkPoint 0 (py p) else p in
  let p := if py p <? 0 then MkPoint (px p) 0 else p in
  let p := if px p >=? width_ (sp server) then MkPoint (width_ (sp server) - 1) (py p) else p in
  if py p >=? height_ (sp server) then MkPoint (px p) (height_ (sp server) - 1) else p.

Definition writePointerEvent (pos : Point) (buttonMask : Z) : list Z :=
  let p := clip_pos pos in
  let extendedMouseButtons := z2b (Z.land buttonMask 0x7f80) in
  writeU8 msgTypePointerEvent ++
  (if supportsExtendedMouseButtons server && extendedMouseButtons then
     let higherBits := Z.land (Z.shiftr buttonMask 7) 0xff in
     let lowerBits := Z.lor (Z.land buttonMask 0x7f) 0x80 in
     writeU8 lowerBits ++ writeU16 (px p) ++ writeU16 (py p) ++ writeU8 higherBits
   else
     writeU8 (Z.land buttonMask 0x7f) ++ writeU16 (px p) ++ writeU16 (py p)).

Definition writeClientCutText (str : list Z) : res (list Z) := writeCutTextMsg msgTypeClientCutText str.

Definition writeClipboardCaps (caps : Z) (lengths : list Z) : res (list Z) :=
  if negb (z2b (Z.land (clipFlags (sp server)) clipboardCaps))
  then Throw (logic_error "Server does not support clipboard caps action")
  else Ok (writeCapsMsg msgTypeClientCutText caps lengths).

Definition writeClipboardRequest (flags : Z) : res (list Z) :=
  if negb (z2b (Z.land (clipFlags (sp server)) clipboardRequest))
  then Throw (logic_error "Server does not support clipboard request action")
  else Ok (writeActionMsg msgTypeClientCutText flags clipboardRequest).

Definition writeClipboardPeek (flags : Z) : res (list Z) :=
  if negb (z2b (Z.land (clipFlags (sp server)) clipboardPeek))
  then Throw (logic_error "Server does not support clipboard peek action")
  else Ok (writeActionMsg msgTypeClientCutText flags clipboardPeek).

Definition writeClipboardNotify (flags : Z) : res (list Z) :=
  if negb (z2b (Z.land (clipFlags (sp server)) clipboardNotify))
  then Throw (logic_error "Server does not support clipboard notify action")
  else Ok (writeActionMsg msgTypeClientCutText flags clipboardNotify).

Definition writeClipboardProvide (flags : Z) (buffers : list (list Z)) : res (list Z) :=
  if negb (z2b (Z.land (clipFlags (sp server)) clipboardProvide))
  then Throw (logic_error "Server does not support clipboard provide action")
  else Ok (writeProvideMsg deflate msgTypeClientCutText flags buffers).

Definition writeQEMUAudioEnable (enable : bool) : list Z :=
  writeU8 msgTypeQEMUClientMessage ++ writeU8 qemuAudio ++
  writeU16 (if enable then msgToQemuEnableAudio else msgToQemuDisableAudio).

Definition writeQEMUAudioSetFormat (sampleFormat channels frequency : Z) : list Z :=
  writeU8 msgTypeQEMUClientMessage ++ writeU8 qemuAudio ++ writeU16 msgToQemuSetAudioFormat ++
  writeU8 sampleFormat ++ writeU8 channels ++ writeU32 frequency.

(** *** One type for the messages a server understands *)

Inductive cmsg :=
| SetPixelFormat (pf : PixelFormat)
| SetEncodings (encodings : list Z)
| SetDesktopSize (width height : Z) (layout : list Screen)
| FramebufferUpdateRequest (r : Rect) (incremental : bool)
| EnableContinuousUpdates (enable : bool) (x y w h : Z)
| ClientFence (flags : Z) (data : list Z)
| KeyEvent (keysym keycode : Z) (down : bool)
| PointerEvent (pos : Point) (buttonMask : Z)
| ClientCutText (text : list Z)
| ClipboardCaps (caps : Z) (lengths : list Z)
| ClipboardRequest (flags : Z)
| ClipboardPeek (flags : Z)
| ClipboardNotify (flags : Z)
| ClipboardProvide (flags : Z) (buffers : list (list Z)).

(** The call of the writer; a clipboard text is given by its code points. *)
Definition write_cmsg (m : cmsg) : res (list Z) :=
  match m with
  | SetPixelFormat pf => Ok (writeSetPixelFormat pf)
  | SetEncodings encodings => Ok (writeSetEncodings encodings)
  | SetDesktopSize w h layout => writeSetDesktopSize w h layout
  | FramebufferUpdateRequest r incremental => Ok (writeFramebufferUpdateRequest r incremental)
  | EnableContinuousUpdates enable x y w h => writeEnableContinuousUpdates enable x y w h
  | ClientFence flags data => writeFence flags data
  | KeyEvent keysym keycode down => Ok (writeKeyEvent keysym keycode down)
  | PointerEvent pos buttonMask => Ok (writePointerEvent pos buttonMask)
  | ClientCutText text => writeClientCutText (utf8_text text)
  | ClipboardCaps caps lengths => writeClipboardCaps caps lengths
  | ClipboardRequest flags => writeClipboardRequest flags
  | ClipboardPeek flags => writeClipboardPeek flags
  | ClipboardNotify flags => writeClipboardNotify flags
  | ClipboardProvide flags buffers => writeClipboardProvide flags buffers
  end.

(** What the message means to the handler at the other end. *)
Definition delivered (m : cmsg) : list sevent :=
  match m with
  | SetPixelFormat pf => [setPixelFormat pf]
  | SetEncodings encodings => [setEncodings_ev (map s32 encodings)]
  | SetDesktopSize w h layout => [setDesktopSize w h layout]
  | FramebufferUpdateRequest r incremental => [framebufferUpdateRequest r incremental]
  | EnableContinuousUpdates enable x y w h => [enableContinuousUpdates enable x y w h]
  | ClientFence flags data => [fence flags data]
  | KeyEvent keysym keycode down =>
      if supportsQEMUKeyEvent server && z2b keycode then [keyEvent keysym keycode down]
      else if z2b keysym then [keyEvent keysym 0 down] else []
  | PointerEvent pos buttonMask =>
      [pointerEvent (clip_pos pos)
         (if supportsExtendedMouseButtons server then buttonMask else Z.land buttonMask 0x7f)]
  | ClientCutText text => [clientCutText (utf8_text (map (fun c => if c >? 0xff then 63 else c) text))]
  | ClipboardCaps caps lengths => [handleClipboardCaps (Z.lor caps clipboardCaps) lengths]
  | ClipboardRequest flags => [handleClipboardRequest (Z.lor flags clipboardRequest)]
  | ClipboardPeek flags => [handleClipboardPeek]
  | ClipboardNotify flags => [handleClipboardNotify (Z.lor flags clipboardNotify)]
  | ClipboardProvide flags buffers => [handleClipboardProvide (Z.lor flags clipboardProvide) buffers]
  end.

Definition client_after (m : cmsg) (client : ClientParams) : ClientParams :=
  match m with SetEncodings encodings => setEncodings (map s32 encodings) client | _ => client end.

(** The two sides agree on the extended buttons: a server that is known to
    understand them has a client that asked for them. *)
Definition buttons_agree (client : ClientParams) : Prop :=
  supportsExtendedMouseButtons server = true -> client_supportsExtendedMouseButtons client = true.
End CMsgWriter.
