(* ===== verification/ClientDelivery.v ===== *)
(** * Delivery of the client's messages ([CMsgWriter] to [SMsgReader])

    Whatever the client's writer puts on the stream arrives as the handler
    calls the writer was asked for, in order, however the stream is cut; and
    the reader takes any bytes at all without misusing the stream. *)
From stdpp Require Import base gmap list numbers strings option.
From S2P Require Import Prelude InStream OutStream Strings PixelFmt Geometry Screens Params Clipboard ClientMsgs.
#[local] Open Scope Z_scope.

(** ** One message of each kind *)

Lemma rt_SetPixelFormat pf rest : pf_wf pf -> isSane pf = true -> trueColour pf = true ->
  outcome readSetPixelFormat (pad 3 ++ pf_write pf ++ rest) = Ok (true, rest, [setPixelFormat pf]).
Proof.
  intros. unfold readSetPixelFormat. run_reader. rewrite arun_pf_read by (done || lia). done.
Qed.

Lemma rt_SetEncodings client encodings rest : len encodings < 65536 ->
  outcome (readSetEncodings client) (pad 1 ++ writeU16 (len encodings) ++ concat (map writeU32 encodings) ++ rest) =
  Ok (Some (setEncodings (map s32 encodings) client), rest, [setEncodings_ev (map s32 encodings)]).
Proof.
  intros. pose proof (len_nonneg encodings). unfold readSetEncodings. run_reader. rewrite u16_id by lia.
  read_fields. change (Take 4 (fun bs => Ret (s32 (be32 bs)))) with (readS32 (E:=sevent)).
  unfold len at 1. rewrite Nat2Z.id.
  rewrite (reads_back_repeatM readS32 writeU32 s32 4) by (lia || (apply Forall_true; apply reads_back_S32)).
  read_fields. done.
Qed.

Lemma reads_back_screen s : screen_wf s -> reads_back readScreen writeScreen (fun s => s) 16 s.
Proof.
  intros (H1 & (H2 & H3 & H4 & H5) & H6) C k d rp c Hc. unfold readScreen, writeScreen, u16_wf, u32_wf in *.
  read_fields. rewrite !u16_id, !u32_id by lia.
  f_equal; [|f_equal; [|lia]].
  - f_equal. destruct s as [i r f]. unfold screen. cbn in *. f_equal. apply rect_xywh.
  - rewrite !fmap_app_app. done.
Qed.

Lemma len_writeScreen s : len (writeScreen s) = 16.
Proof. unfold writeScreen. by autorewrite with len. Qed.

Lemma rt_SetDesktopSize w h layout rest : u16_wf w -> u16_wf h -> len layout < 256 -> Forall screen_wf layout ->
  outcome readSetDesktopSize (pad 1 ++ writeU16 w ++ writeU16 h ++ writeU8 (num_screens layout) ++ pad 1 ++
    concat (map writeScreen layout) ++ rest) = Ok (true, rest, [setDesktopSize w h layout]).
Proof.
  unfold u16_wf. intros. pose proof (len_nonneg layout). unfold readSetDesktopSize, num_screens.
  run_reader. rewrite !u16_id, !u8_id by lia. 
  pose proof (len_concat_map writeScreen 16 layout len_writeScreen).
  read_fields. unfold len at 1. rewrite Nat2Z.id.
  rewrite (reads_back_repeatM readScreen writeScreen (fun s => s) 16)
    by (lia || (eapply Forall_impl; [|eassumption]; apply reads_back_screen)).
  read_fields. by rewrite List.map_id.
Qed.

Lemma rt_FBUR r inc rest : rect_wf r ->
  outcome readFramebufferUpdateRequest (writeU8 (b2z inc) ++
  writeU16 (px (tl r)) ++ writeU16 (py (tl r)) ++ writeU16 (width r) ++ writeU16 (height r) ++ rest) =
  Ok (true, rest, [framebufferUpdateRequest r inc]).
Proof.
  intros (H2 & H3 & H4 & H5). unfold u16_wf in *. unfold readFramebufferUpdateRequest. run_reader.
  by rewrite !u16_id, z2b_u8, rect_xywh by lia.
Qed.

Lemma rt_ECU en x y w h rest : u16_wf x -> u16_wf y -> u16_wf w -> u16_wf h ->
  outcome readEnableContinuousUpdates (writeU8 (b2z en) ++
  writeU16 x ++ writeU16 y ++ writeU16 w ++ writeU16 h ++ rest) =
  Ok (true, rest, [enableContinuousUpdates en x y w h]).
Proof.
  unfold u16_wf. intros. unfold readEnableContinuousUpdates. run_reader.
  by rewrite !u16_id, z2b_u8 by lia.
Qed.

Lemma rt_KeyEvent keysym down rest : u32_wf keysym ->
  outcome readKeyEvent (writeU8 (b2z down) ++ pad 2 ++ writeU32 keysym ++ rest) =
  Ok (true, rest, [keyEvent keysym 0 down]).
Proof. unfold u32_wf. intros. unfold readKeyEvent. run_reader. by rewrite u32_id, z2b_u8 by lia. Qed.

Lemma rt_QEMUKey keysym keycode down rest : u32_wf keysym -> u32_wf keycode -> keycode <> 0 ->
  outcome readQEMUMessage (writeU8 qemuExtendedKeyEvent ++ writeU16 (b2z down) ++ writeU32 keysym ++ writeU32 keycode ++ rest) =
  Ok (true, rest, [keyEvent keysym keycode down]).
Proof.
  unfold u32_wf. intros. unfold readQEMUMessage, restore_unless, readQEMUKeyEvent, qemuExtendedKeyEvent. run_reader.
  change (u8 0 =? 0) with true. cbv iota. read_fields. rewrite !u32_id, z2b_u16 by lia.
  unfold z2b at 1. rewrite (proj2 (Z.eqb_neq _ _)) by done. by read_fields.
Qed.

(** *** Button masks *)

Lemma mask_split m : 0 <= m < 1024 ->
  Z.lor (Z.shiftl (u8 (Z.land (Z.shiftr m 7) 255)) 7) (Z.land (u8 (Z.lor (Z.land m 127) 128)) 127) = m /\
  z2b (Z.land (u8 (Z.lor (Z.land m 127) 128)) 128) = true /\
  z2b (Z.land (u8 (Z.land m 127)) 128) = false /\ u8 (Z.land m 127) = Z.land m 127 /\
  (z2b (Z.land m 0x7f80) = false -> Z.land m 127 = m).
Proof. intros H. by_range 1024 m H. Qed.

Lemma mask_plain m : z2b (Z.land (u8 (Z.land m 127)) 128) = false /\ u8 (Z.land m 127) = Z.land m 127.
Proof.
  assert (0 <= Z.land m 127 < 128) as H by (change 127 with (Z.ones 7); rewrite land_mask by lia; apply Z.mod_pos_bound; lia).
  generalize dependent (Z.land m 127). intros y H. by_range 128 y H.
Qed.

Section pointer.
Context (server : ServerParams).
Definition server_wf : Prop := 0 < width_ (sp server) <= 65536 /\ 0 < height_ (sp server) <= 65536.

Lemma clip_pos_wf pos : server_wf -> u16_wf (px (clip_pos server pos)) /\ u16_wf (py (clip_pos server pos)).
Proof. 
  intros [H1 H2]. unfold clip_pos, u16_wf. repeat (case_test; cbn in *); lia.
Qed.

Lemma rt_Pointer client pos mask rest : server_wf -> buttons_agree server client -> 
  0 <= mask < 0x8000 -> (supportsExtendedMouseButtons server = true -> mask < 0x400) ->
  outcome (readPointerEvent client) (zdrop 1 (writePointerEvent server pos mask) ++ rest) =
  Ok (true, rest, [pointerEvent (clip_pos server pos)
         (if supportsExtendedMouseButtons server then mask else Z.land mask 0x7f)]).
Proof.
  intros Hs Hb Hm He. destruct (clip_pos_wf pos Hs) as [Hx Hy]. unfold u16_wf in *.
  unfold writePointerEvent, readPointerEvent. cbv zeta. rewrite zdrop_app by llia.
  destruct (clip_pos server pos) as [x y]. cbn [px py] in *.
  unfold buttons_agree in Hb. destruct (supportsExtendedMouseButtons server) eqn:Hext; cbn [andb].
  - rewrite (Hb eq_refl). cbn [andb]. specialize (He eq_refl).
    destruct (mask_split mask) as (M1 & M2 & M3 & M4 & M5); [lia|].
    destruct (z2b (Z.land mask 0x7f80)) eqn:Hz.
    + run_reader. rewrite M2. read_fields. by rewrite M1, !u16_id by lia.
    + run_reader. rewrite M3, M4, !u16_id by lia. cbv iota. read_fields. by rewrite M5.
  - destruct (mask_plain mask) as [M3 M4]. run_reader. rewrite M3, andb_false_r, M4, !u16_id by lia. by read_fields.
Qed.
End pointer.

(** ** The reader on any bytes *)

Section any_bytes.
Context (maxCutText : Z) (inflate : list Z -> zseg).

Lemma readMsg_idle t client d :
  outcome (readMsg maxCutText inflate (SReader MSGSTATE_IDLE t client)) d =
  match d with
  | [] => Ok (false, SReader MSGSTATE_IDLE t client, [], [])
  | b :: d => outcome (readMsg maxCutText inflate (SReader MSGSTATE_MESSAGE b client)) d
  end.
Proof.
  destruct d as [|b d]; [done|]. unfold outcome, fresh, readMsg. cbn [sr_state]. prog_simpl.
  rewrite arun_has_enough by llia. rewrite (arun_take_app _ 1 _ [b] d) by llia. done.
Qed.

Lemma readMsg_message t client d :
  outcome (readMsg maxCutText inflate (SReader MSGSTATE_MESSAGE t client)) d =
  match outcome (readBody maxCutText inflate t client) d with
  | Ok (Some client', d', evs) => Ok (true, SReader MSGSTATE_IDLE t client', d', evs)
  | Ok (None, d', evs) => Ok (false, SReader MSGSTATE_MESSAGE t client, d', evs)
  | Throw e => Throw e
  end.
Proof.
  unfold readMsg. cbn [sr_state sr_currentMsgType sr_client]. unfold mbind, prog_mbind, mret, prog_mret.
  rewrite outcome_map. by destruct (outcome _ d) as [[[[c|] ?] ?]|].
Qed.

End any_bytes.

(** C8: fed any bytes, in any state, the server's message loop ends: it asks
    for more data, with the handler calls it made, or throws an error about the
    message; it never reads data it has not checked for, never runs past the
    buffer and never misuses a restore point.  There is one exception, and it
    takes particular data: a segment of it that is compressed data with an end
    marker, on which [ZlibInStream] may decompress for ever ([endless]). *)
Theorem SMsgReader_total (maxCutText : Z) (inflate : list Z -> zseg) (r : sreader) (d : list Z) :
  bytes d ->
  (exists r' d' evs, drain (length d + 2) (readMsg maxCutText inflate) r d = Ok (r', d', evs) /\
     drains (readMsg maxCutText inflate) r d r' d' evs) \/
  (exists e, drain (length d + 2) (readMsg maxCutText inflate) r d = Throw e /\
     match e with protocol_error _ | runtime_error _ | invalid_argument _ => True | _ => False end) \/
  (exists z before after, drain (length d + 2) (readMsg maxCutText inflate) r d = Throw (endless z) /\
     d = before ++ z ++ after /\ stops inflate z).
Proof.
  intros Hb.
  destruct (drain_total (P := watched d (stops inflate)) (fun _ => True) mu (readMsg maxCutText inflate) r d (length d + 2))
    as [H|(e & He & H)].
  - intros l _. apply readMsg_shape, hang_watched.
  - done.
  - by apply good_watched.
  - destruct r as [[|] ? ?]; cbn; lia.
  - by left.
  - right. destruct He as [He|(z & -> & (x & y & ->) & Hz)]; [left; by exists e|right]. by exists z, x, y.
Qed.

Lemma SMsgReader_total_witness :
  ((exists r' d' evs, drain 9 (readMsg 100 stored) (init_reader 0 init_client) [4; 1; 0; 0; 0; 0; 0] = Ok (r', d', evs) /\
     drains (readMsg 100 stored) (init_reader 0 init_client) [4; 1; 0; 0; 0; 0; 0] r' d' evs) \/
   (exists e, drain 9 (readMsg 100 stored) (init_reader 0 init_client) [4; 1; 0; 0; 0; 0; 0] = Throw e /\
     match e with protocol_error _ | runtime_error _ | invalid_argument _ => True | _ => False end) \/
   (exists z before after, drain 9 (readMsg 100 stored) (init_reader 0 init_client) [4; 1; 0; 0; 0; 0; 0] = Throw (endless z) /\
     [4; 1; 0; 0; 0; 0; 0] = before ++ z ++ after /\ stops stored z)) /\
  drain 20 (readMsg 100 ended) (init_reader 0 init_client)
    [6; 0; 0; 0; 0xff; 0xff; 0xff; 0xf8; 0x10; 0; 0; 1; 1; 1; 0; 9; 4; 0] = Throw (endless [1; 1; 0; 9]).
Proof.
  split; [|vm_compute; reflexivity].
  apply (SMsgReader_total 100 stored (init_reader 0 init_client) [4; 1; 0; 0; 0; 0; 0]).
  by apply bytes_decide.
Defined.

(** C9: how the network cuts the stream does not matter: on any bytes, the loop
    run after each piece makes the handler calls, and ends in the state and
    with the unread bytes, of the loop run once on all of them; [readMsg] can
    be resumed at every byte. *)
Theorem SMsgReader_segmentation (maxCutText : Z) (inflate : list Z -> zseg) (r r' : sreader)
    (d d' : list Z) (chunks : list (list Z)) (evs : list sevent) :
  bytes d -> Forall bytes chunks ->
  feeds (readMsg maxCutText inflate) r d chunks r' d' evs <->
  drains (readMsg maxCutText inflate) r (d ++ concat chunks) r' d' evs.
Proof.
  intros Hd Hc. split.
  - apply (feeds_concat (fun _ => True)); [|done..].
    apply (resumable_messages (P := hanging) _ mu). intros l _. apply readMsg_shape, hang_hanging.
  - apply (feeds_of_drains (P := hanging) (fun _ => True) mu); [intros l _; apply readMsg_shape, hang_hanging|done..].
Qed.

Lemma SMsgReader_segmentation_witness :
  feeds (readMsg 100 stored) (init_reader 0 init_client) [4; 1] [[0; 0; 0]; []; [0; 0; 65; 4]]
    (SReader MSGSTATE_MESSAGE 4 init_client) [] [keyEvent 65 0 true].
Proof.
  apply (SMsgReader_segmentation 100 stored); [by apply bytes_decide
    |repeat (constructor; [by apply bytes_decide|]); constructor|].
  apply (drain_step _ _ _ (SReader MSGSTATE_IDLE 4 init_client) [4] [keyEvent 65 0 true] _ _ []);
    [vm_compute; reflexivity|]. by apply drain_stop.
Defined.

(** ** Delivery *)

Section delivery.
Context (server : ServerParams) (maxCutText : Z) (inflate : list Z -> zseg) (deflate : list Z -> list Z).

(** The arguments that fit the fields they travel in, and for a clipboard what
    the receiver is willing to take. *)
Definition wf_cmsg (m : cmsg) : Prop :=
  match m with
  | SetPixelFormat pf => pf_wf pf /\ isSane pf = true /\ trueColour pf = true
  | SetEncodings encodings => len encodings < 65536 /\
      (supportsExtendedMouseButtons server = true -> pseudoEncodingExtendedMouseButtons ∈ map s32 encodings)
  | SetDesktopSize w h layout => u16_wf w /\ u16_wf h /\ len layout < 256 /\ Forall screen_wf layout
  | FramebufferUpdateRequest r _ => rect_wf r
  | EnableContinuousUpdates _ x y w h => u16_wf x /\ u16_wf y /\ u16_wf w /\ u16_wf h
  | ClientFence flags _ => u32_wf flags
  | KeyEvent keysym keycode _ => u32_wf keysym /\ u32_wf keycode
  | PointerEvent _ buttonMask => 0 <= buttonMask < 0x8000 /\
      (supportsExtendedMouseButtons server = true -> buttonMask < 0x400)
  | ClientCutText text => Forall (fun c => scalar c /\ c <> 0) text /\
      len (utf8_text text) < npos /\ len text <= maxCutText
  | ClipboardCaps caps lengths => u32_wf caps /\ length lengths = length (formats caps) /\
      Forall u32_wf lengths /\ 4 + 4 * len lengths <= maxCutText
  | ClipboardRequest flags | ClipboardPeek flags | ClipboardNotify flags =>
      0 <= flags < 2 ^ 24 /\ 4 <= maxCutText
  | ClipboardProvide flags buffers => 0 <= flags < 2 ^ 24 /\ formats flags <> [] /\ length buffers = length (formats flags) /\
      Forall (fun b => bytes b /\ len b <= maxCutText) buffers /\
      4 + len (deflate (provide_data buffers)) <= maxCutText
  end.

Hypothesis maxCutText_int : 0 <= maxCutText < 2 ^ 31.
Hypothesis inflate_deflate : forall u, bytes u ->
  z_out (inflate (deflate u)) = u /\ z_end (inflate (deflate u)) = z_wants_more.
Hypothesis server_ok : server_wf server.

Lemma delivered_known t client g p body rest evs :
  readBody maxCutText inflate (u8 t) client = known client p ->
  outcome p (body ++ rest) = Ok (true, rest, evs) ->
  outcome (readMsg maxCutText inflate (SReader MSGSTATE_IDLE g client)) ((writeU8 t ++ body) ++ rest) =
  Ok (true, SReader MSGSTATE_IDLE (u8 t) client, rest, evs).
Proof.
  intros Hp H. rewrite writeU8_eq. cbn [app]. rewrite readMsg_idle, readMsg_message, Hp. unfold known.
  unfold mbind, prog_mbind, mret, prog_mret. by rewrite outcome_map, H.
Qed.

(** One call of a writer, one call of the reader. *)
Lemma delivered_message m bs client g rest :
  wf_cmsg m -> buttons_agree server client -> write_cmsg server deflate m = Ok bs ->
  (bs = [] /\ delivered server m = []) \/
  exists t, outcome (readMsg maxCutText inflate (SReader MSGSTATE_IDLE g client)) (bs ++ rest) =
    Ok (true, SReader MSGSTATE_IDLE t (client_after m client), rest, delivered server m).
Proof.
  intros Hm Hb Hw. destruct m; cbn [write_cmsg wf_cmsg client_after delivered] in *.
  - right. injection Hw as <-. eexists. unfold writeSetPixelFormat.
    eapply delivered_known; [reflexivity|]. rewrite <- app_assoc. apply rt_SetPixelFormat; tauto.
  - right. injection Hw as <-. eexists. unfold writeSetEncodings. rewrite writeU8_eq. cbn [app].
    rewrite readMsg_idle, readMsg_message. change (readBody _ _ _ client) with (readSetEncodings client).
    rewrite <- !app_assoc, rt_SetEncodings by tauto. done.
  - right. unfold writeSetDesktopSize in Hw. destruct (supportsSetDesktopSize server); [|done].
    injection Hw as <-. eexists. eapply delivered_known; [reflexivity|].
    rewrite <- !app_assoc. apply rt_SetDesktopSize; tauto.
  - right. injection Hw as <-. eexists. unfold writeFramebufferUpdateRequest.
    eapply delivered_known; [reflexivity|]. rewrite <- !app_assoc. by apply rt_FBUR.
  - right. unfold writeEnableContinuousUpdates in Hw. destruct (supportsContinuousUpdates server); [|done].
    injection Hw as <-. eexists. eapply delivered_known; [reflexivity|].
    rewrite <- !app_assoc. apply rt_ECU; tauto.
  - right. unfold writeFence in Hw. destruct (supportsFence server); [|done]. cbn [negb] in Hw.
    destruct (len data >? 64) eqn:Hl; [done|]. bool_decide_hyps.
    destruct (Z.land flags (Z.lnot fenceFlagsSupported) =? 0); [|done]. injection Hw as <-. eexists.
    unfold writeFenceMsg. eapply delivered_known; [reflexivity|]. rewrite <- !app_assoc. apply (rt_Fence (E:=sevent) (MsgEvents0:=SMsgEvents)); done.
  - destruct Hm as [Hk1 Hk2]. injection Hw as <-. unfold writeKeyEvent.
    destruct (supportsQEMUKeyEvent server), (z2b keycode) eqn:Hk; cbn [andb orb negb].
    { right. eexists. eapply delivered_known; [reflexivity|]. rewrite <- !app_assoc.
      apply rt_QEMUKey; [done..|]. by intros ->. }
    all: destruct (z2b keysym) eqn:Hs; cbn [negb]; [right|by left].
    all: eexists; eapply delivered_known; [reflexivity|]; rewrite <- !app_assoc; by apply rt_KeyEvent.
  - right. injection Hw as <-. destruct Hm. eexists. 
    unfold writePointerEvent. cbv zeta. eapply delivered_known; [reflexivity|].
    pose proof (rt_Pointer server client pos buttonMask rest server_ok Hb) as H1.
    unfold writePointerEvent in H1. cbv zeta in H1. rewrite zdrop_app in H1 by done. by apply H1.
  - right. destruct Hm as (H1 & H2 & H3).
    destruct (rt_CutText (E:=sevent) maxCutText inflate maxCutText_int false _ text rest bs H1 H2 H3 Hw)
      as (body & -> & H4).
    eexists. by eapply delivered_known; [reflexivity|].
  - right. unfold writeClipboardCaps in Hw. destruct (z2b (Z.land (clipFlags _) _)); [|done]. injection Hw as <-. eexists.
    unfold writeCapsMsg. eapply delivered_known; [reflexivity|].
    unfold readClientCutText. rewrite <- !app_assoc. destruct Hm as (? & ? & ? & ?).
    by apply (rt_caps (E:=sevent) (MsgEvents0:=SMsgEvents)).
  - right. unfold writeClipboardRequest in Hw. destruct (z2b (Z.land (clipFlags _) _)); [|done]. injection Hw as <-. eexists.
    unfold writeActionMsg. eapply delivered_known; [reflexivity|].
    unfold readClientCutText. rewrite <- !app_assoc. destruct Hm.
    apply (rt_simple_action (E:=sevent) (MsgEvents0:=SMsgEvents)); auto.
  - right. unfold writeClipboardPeek in Hw. destruct (z2b (Z.land (clipFlags _) _)); [|done]. injection Hw as <-. eexists.
    unfold writeActionMsg. eapply delivered_known; [reflexivity|].
    unfold readClientCutText. rewrite <- !app_assoc. destruct Hm.
    apply (rt_simple_action (E:=sevent) (MsgEvents0:=SMsgEvents)); auto.
  - right. unfold writeClipboardNotify in Hw. destruct (z2b (Z.land (clipFlags _) _)); [|done]. injection Hw as <-. eexists.
    unfold writeActionMsg. eapply delivered_known; [reflexivity|].
    unfold readClientCutText. rewrite <- !app_assoc. destruct Hm.
    apply (rt_simple_action (E:=sevent) (MsgEvents0:=SMsgEvents)); auto.
  - right. unfold writeClipboardProvide in Hw. destruct (z2b (Z.land (clipFlags _) _)); [|done]. injection Hw as <-. eexists.
    unfold writeProvideMsg. eapply delivered_known; [reflexivity|].
    unfold readClientCutText. rewrite <- !app_assoc. destruct Hm as (? & ? & ? & ? & ?).
    by apply (rt_provide (E:=sevent) (MsgEvents0:=SMsgEvents)).
Qed.

Lemma buttons_agree_after m client : wf_cmsg m -> buttons_agree server client ->
  buttons_agree server (client_after m client).
Proof.
  intros Hm Hb. destruct m; try done. intros H. destruct Hm as [_ Hm].
  apply supports_setEncodings. right. by apply Hm.
Qed.

Lemma delivered_messages ms bss client g : Forall wf_cmsg ms -> buttons_agree server client ->
  Forall2 (fun m bs => write_cmsg server deflate m = Ok bs) ms bss ->
  exists t, drains (readMsg maxCutText inflate) (SReader MSGSTATE_IDLE g client) (concat bss)
    (SReader MSGSTATE_IDLE t (foldl (fun c m => client_after m c) client ms)) []
    (concat (map (delivered server) ms)).
Proof.
  intros Hm Hb Hw. revert client g Hm Hb. induction Hw as [|m bs ms bss H _ IH]; intros client g Hm Hb.
  - exists g. by apply drain_stop.
  - apply Forall_cons_1 in Hm as [Hm Hms]. cbn [concat map foldl].
    destruct (delivered_message m bs client g (concat bss) Hm Hb H) as [[-> Hd]|[t Ht]].
    + rewrite Hd. cbn [app].
      assert (client_after m client = client) as ->.
      { by destruct m. }
      by apply IH.
    + destruct (IH (client_after m client) t Hms (buttons_agree_after m client Hm Hb)) as [t' Ht'].
      exists t'. by eapply drain_step.
Qed.
End delivery.

(** C3: any sequence of messages the client's writer accepts arrives: cut into
    any pieces, the stream makes the server's reader call its handler with
    exactly the arguments the client gave (pointer positions brought into the
    framebuffer, text brought to Latin-1), in the same order, leaving no byte
    behind and the client's encodings as it last set them. *)
Theorem client_messages_delivered (server : ServerParams) (client : ClientParams) (maxCutText : Z)
    (inflate : list Z -> zseg) (deflate : list Z -> list Z) (garbage : Z)
    (ms : list cmsg) (bss chunks : list (list Z)) :
  0 <= maxCutText < 2 ^ 31 ->
  (forall u, bytes u -> z_out (inflate (deflate u)) = u /\ z_end (inflate (deflate u)) = z_wants_more) ->
  server_wf server -> buttons_agree server client ->
  Forall (wf_cmsg server maxCutText deflate) ms ->
  Forall2 (fun m bs => write_cmsg server deflate m = Ok bs) ms bss ->
  Forall bytes chunks -> concat chunks = concat bss ->
  exists t, feeds (readMsg maxCutText inflate) (init_reader garbage client) [] chunks
    (SReader MSGSTATE_IDLE t (foldl (fun c m => client_after m c) client ms)) []
    (concat (map (delivered server) ms)).
Proof.
  intros Hmax Hid Hs Hb Hm Hw Hc Heq.
  destruct (delivered_messages server maxCutText inflate deflate Hmax Hid Hs ms bss client garbage Hm Hb Hw)
    as [t Ht]. exists t. rewrite <- Heq in Ht.
  apply (feeds_of_drains (P := hanging) (fun _ => True) mu);
    [intros l _; apply readMsg_shape, hang_hanging|done|constructor|done|done].
Qed.

Lemma client_messages_delivered_witness :
  let server := MkServer (MkCommon 640 480 [] default_pf [] (MkCursor 0 0 (MkPoint 0 0) []) 0 0 [])
                  3 8 false false false true false false in
  exists t, feeds (readMsg 1000 stored) (init_reader 0 init_client) []
    [[5; 1; 2]; [127; 0; 20; 248; 0; 0; 0; 0; 0]; [0; 1; 2; 7; 9]]
    (SReader MSGSTATE_IDLE t init_client) []
    [pointerEvent (MkPoint 639 20) 1; fence 1 [7; 9]].
Proof.
  intros server.
  apply (client_messages_delivered server init_client 1000 stored (fun z => z) 0
           [PointerEvent (MkPoint 1000 20) 1; ClientFence 1 [7; 9]]
           [[5; 1; 2; 127; 0; 20]; [248; 0; 0; 0; 0; 0; 0; 1; 2; 7; 9]]).
  - lia.
  - done.
  - unfold server_wf. cbn. lia.
  - done.
  - repeat constructor; done.
  - repeat constructor.
  - repeat (constructor; [by apply bytes_decide|]). constructor.
  - reflexivity.
Defined.

(** A "request" whose length is above four: the call is made, and the four
    bytes behind the flags stay in the stream, where the next call takes them
    for a message. *)
Lemma request_leaves_bytes :
  outcome (readMsg 1000 stored (init_reader 0 init_client))
    [6; 0; 0; 0; 0xff; 0xff; 0xff; 0xf8; 2; 0; 0; 1; 7; 7; 7; 7] =
  Ok (true, SReader MSGSTATE_IDLE 6 init_client, [7; 7; 7; 7], [handleClipboardRequest 0x2000001]).
Proof. vm_compute. reflexivity. Qed.
