(* ===== verification/ServerMsgs.v ===== *)
(** * Messages from the server to the client, received ([rfb/CMsgReader.cxx])

    [CMsgReader] over the interfaces it uses: the [CMsgHandler] it calls, which
    may change what is known of the server and may throw, and the decoders that
    read the data of a rectangle. *)
From stdpp Require Import base gmap list numbers strings option.
From S2P Require Import Prelude InStream OutStream Strings PixelFmt Geometry Screens Params Cursors Clipboard.
#[local] Open Scope Z_scope.

Definition msgTypeFramebufferUpdate : Z := 0.
Definition msgTypeSetColourMapEntries : Z := 1.
Definition msgTypeBell : Z := 2.
Definition msgTypeServerCutText : Z := 3.
Definition msgTypeEndOfContinuousUpdates : Z := 150.
Definition msgTypeServerFence : Z := 248.
Definition msgTypeQEMUServerMessage : Z := 255.
Definition qemuAudio : Z := 1.
Definition msgFromQemuAudioEnd : Z := 0.
Definition msgFromQemuAudioBegin : Z := 1.
Definition msgFromQemuAudioData : Z := 2.
Definition maxAudioData : Z := 1024 * 1024.
Definition maxCursorSize : Z := 256.

(** ** The calls of the handler ([rfb/CMsgHandler.h]) *)

Inductive cevent :=
| setDesktopSize (w h : Z)
| setExtendedDesktopSize (reason result w h : Z) (layout : list Screen)
| setCursor_ev (width height : Z) (hotspot : Point) (data : list Z)
| setCursorPos_ev (pos : Point)
| setName_ev (name : list Z)
| fence (flags : Z) (data : list Z)
| endOfContinuousUpdates
| supportsQEMUKeyEvent_ev
| supportsQEMUAudio_ev
| supportsExtendedMouseButtons_ev
| serverInit (width height : Z) (pf : PixelFormat) (name : list Z)
| framebufferUpdateStart
| framebufferUpdateEnd
| dataRect (r : Rect) (encoding : Z) (data : list Z)
| setColourMapEntries (firstColour nColours : Z) (rgbs : list Z)
| bell
| serverCutText (str : list Z)
| setLEDState_ev (state : Z)
| handleClipboardCaps (flags : Z) (lengths : list Z)
| handleClipboardRequest (flags : Z)
| handleClipboardPeek
| handleClipboardNotify (flags : Z)
| handleClipboardProvide (flags : Z) (buffers : list (list Z))
| audioBegin
| audioEnd
| audioData (data : list Z).

#[export] Instance CMsgEvents : MsgEvents cevent := {|
  ev_fence := fence;
  ev_cutText := serverCutText;
  ev_clipboardCaps := handleClipboardCaps;
  ev_clipboardRequest := handleClipboardRequest;
  ev_clipboardPeek := handleClipboardPeek;
  ev_clipboardNotify := handleClipboardNotify;
  ev_clipboardProvide := handleClipboardProvide
|}.

(** What the reader relies on in [handler->server]: a pixel format [setPF] accepts. *)
Definition server_wf (server : ServerParams) : Prop :=
  bpp (pf_ (sp server)) = 8 \/ bpp (pf_ (sp server)) = 16 \/ bpp (pf_ (sp server)) = 32.

Definition server_setPF (pf : PixelFormat) (s : ServerParams) : ServerParams :=
  MkServer (fst (setPF pf (sp s))) (sp_majorVersion s) (sp_minorVersion s) (supportsQEMUKeyEvent s)
    (supportsQEMUAudio s) (supportsSetDesktopSize s) (supportsFence s) (supportsContinuousUpdates s)
    (supportsExtendedMouseButtons s).

(** The handler: what a call does to [handler->server], or the exception it ends in. *)
Class CMsgHandler := {
  handle : ServerParams -> cevent -> res ServerParams;
  handle_wf s ev s' : server_wf s -> handle s ev = Ok s' -> server_wf s';
  handle_ordinary s ev e : handle s ev = Throw e -> ordinary e
}.

Definition rgbaPF : PixelFormat := MkPF 32 32 true false 255 255 255 16 8 0.

Definition rect_nonneg (r : Rect) : Prop :=
  0 <= px (tl r) /\ 0 <= py (tl r) /\ 0 <= width r /\ 0 <= height r.

(** The [DecodeManager]: a decoder keeps the part of a rectangle it has read
    between two calls, and queues the rectangle for its threads when it is
    complete; [flush] waits for them, and answers with the pixels or with the
    exception a thread has met. *)
Class RectDecoder := {
  decoder : Type;
  decoder_ok : decoder -> Prop;
  decodeRect : ServerParams -> Rect -> Z -> decoder -> prog cevent (bool * decoder);
  queued : decoder -> list Z;  (* the bytes of the rectangle queued last *)
  flush : ServerParams -> Rect -> Z -> list Z -> res (list Z);
  decodeRect_part s r e d : server_wf s -> rect_nonneg r -> decoder_ok d ->
    part decoder_ok (decodeRect s r e) d;
  flush_ordinary s r e data x : flush s r e data = Throw x -> ordinary x;
  (** an encoding number that is none *)
  decodeRect_none s r d : exists e, ordinary e /\ decodeRect s r (-1) d = Raise e
}.

(** ** Cursor images *)

Definition xcursor_rgba (width height : Z) (primary secondary data mask : list Z) : list Z :=
  concat (map (fun '(x, y) =>
    (if mask_bit data width x y then primary else secondary) ++ [if mask_bit mask width x y then 255 else 0])
    (pixels width height)).

Definition cursor_rgba (pf : PixelFormat) (width height : Z) (data mask : list Z) : list Z :=
  concat (map (fun '(x, y) =>
    rgbFromBuffer pf (zdrop ((y * width + x) * (bpp pf / 8)) data) 1 ++
    [if mask_bit mask width x y then 255 else 0])
    (pixels width height)).

(** One pixel of a classic VMware cursor. *)
Definition vmware_pixel (pf : PixelFormat) (andPixel xorPixel : Z) : list Z :=
  if andPixel =? 0 then
    let '(r, g, b) := rgbFromPixel pf xorPixel in [r; g; b; 0xff]
  else if xorPixel =? 0 then [0; 0; 0; 0]
  else if andPixel =? xorPixel then [0; 0; 0; 0xff]
  else [0; 0; 0; 0xff].

Definition vmware_rgba (pf : PixelFormat) (count : Z) (andMask xorMask : list Z) : list Z :=
  let Bpp := bpp pf / 8 in
  concat (map (fun i => vmware_pixel pf (pixelFromBuffer pf (zdrop (i * Bpp) andMask))
                                        (pixelFromBuffer pf (zdrop (i * Bpp) xorMask)))
    (seqZ 0 count)).

(** Undoes the multiplication of the colours with alpha. *)
Fixpoint unpremultiply (n : nat) (buf : list Z) : list Z :=
  match n with
  | O => buf
  | S n =>
      let a := znth 0 buf 3 in
      let alpha := if a =? 0 then 1 else a in
      [u8 (znth 0 buf 0 * 255 / alpha); u8 (znth 0 buf 1 * 255 / alpha); u8 (znth 0 buf 2 * 255 / alpha); a] ++
      unpremultiply n (zdrop 4 buf)
  end.

(** ** [CMsgReader] *)

Section CMsgReader.
Context (maxCutText : Z) (inflate : list Z -> zseg) {handler : CMsgHandler} {decoders : RectDecoder}.

(** The handler calls of a reader, made: each one may change the server record
    the next one starts from, and may throw. *)
Fixpoint through {A} (server : ServerParams) (p : prog cevent A) : prog cevent (A * ServerParams) :=
  match p with
  | Ret ret => Ret (ret, server)
  | Raise e => Raise e
  | HasData n k => HasData n (fun b => through server (k b))
  | SetRestorePoint k => SetRestorePoint (through server k)
  | ClearRestorePoint k => ClearRestorePoint (through server k)
  | GotoRestorePoint k => GotoRestorePoint (through server k)
  | Take n k => Take n (fun bs => through server (k bs))
  | Emit ev k =>
      match handle server ev with
      | Ok server => Emit ev (through server k)
      | Throw e => Raise e
      end
  end.

(** [handler->f(...); return true;] *)
Definition done_call (ev : cevent) : prog cevent bool := emit ev;; mret true.

Definition readServerInit : prog cevent bool :=
  require hasData (2 + 2 + 16 + 4) ;;
  setRestorePoint;;
  width ← readU16; height ← readU16;
  pf ← pf_read;
  len ← readU32;
  require hasDataOrRestore len ;;
  clearRestorePoint;;
  name ← readBytes len;
  (* name.data() is a C string *)
  let str := fst (strchr_split (name ++ [0]) 0) in
  if default false (isValidUTF8 (name ++ [0]) npos)
  then done_call (serverInit width height pf str)
  else done_call (serverInit width height pf (default [] (latin1ToUTF8 (name ++ [0]) npos))).

Definition readQEMUServerMessage : prog cevent bool :=
  require hasData (1 + 2) ;;
  setRestorePoint;;
  submessage ← readU8;
  operation ← readU16;
  if negb (submessage =? qemuAudio) then Raise (protocol_error "Unknown QEMU submessage")
  else if operation =? msgFromQemuAudioBegin then clearRestorePoint;; done_call audioBegin
  else if operation =? msgFromQemuAudioEnd then clearRestorePoint;; done_call audioEnd
  else if negb (operation =? msgFromQemuAudioData) then Raise (protocol_error "Unknown QEMU audio operation")
  else
    require hasDataOrRestore 4 ;;
    length ← readU32;
    if length >? maxAudioData then Raise (protocol_error "Audio data is too large")
    else
      require hasDataOrRestore length ;;
      clearRestorePoint;;
      data ← getptr_setptr length;
      done_call (audioData data).

Definition readSetColourMapEntries : prog cevent bool :=
  require hasData (1 + 2 + 2) ;;
  setRestorePoint;;
  skip 1;;
  firstColour ← readU16;
  nColours ← readU16;
  require hasDataOrRestore (nColours * 3 * 2) ;;
  clearRestorePoint;;
  rgbs ← repeatM (Z.to_nat (nColours * 3)) readU16;
  done_call (setColourMapEntries firstColour nColours rgbs).

Definition readBell : prog cevent bool := done_call bell.

Definition readServerCutText : prog cevent bool := readCutTextMsg maxCutText inflate true.
Definition readFence : prog cevent bool := readFenceMsg.

Definition readEndOfContinuousUpdates : prog cevent bool :=
  done_call endOfContinuousUpdates.

Definition cursor_too_large (width height : Z) : bool := (width >? maxCursorSize) || (height >? maxCursorSize).

Definition readSetXCursor (width height : Z) (hotspot : Point) :
    prog cevent bool :=
  if cursor_too_large width height then Raise (protocol_error "Received cursor is too large")
  else if width * height >? 0 then
    let data_len := (width + 7) / 8 * height in
    let mask_len := (width + 7) / 8 * height in
    require hasData (3 + 3 + data_len + mask_len) ;;
    pr ← readU8; pg ← readU8; pb ← readU8;
    sr ← readU8; sg ← readU8; sb ← readU8;
    data ← readBytes data_len;
    mask ← readBytes mask_len;
    done_call (setCursor_ev width height hotspot
      (xcursor_rgba width height [pr; pg; pb] [sr; sg; sb] data mask))
  else done_call (setCursor_ev width height hotspot (replicate (Z.to_nat (width * height * 4)) 0)).

Definition readSetCursor (server : ServerParams) (width height : Z) (hotspot : Point) :
    prog cevent bool :=
  if cursor_too_large width height then Raise (protocol_error "Received cursor is too large")
  else
    let data_len := width * height * (bpp (pf_ (sp server)) / 8) in
    let mask_len := (width + 7) / 8 * height in
    require hasData (data_len + mask_len) ;;
    data ← readBytes data_len;
    mask ← readBytes mask_len;
    done_call (setCursor_ev width height hotspot (cursor_rgba (pf_ (sp server)) width height data mask)).

Definition readSetVMwareCursor (server : ServerParams) (width height : Z) (hotspot : Point) :
    prog cevent bool :=
  if cursor_too_large width height then Raise (protocol_error "Received cursor is too large")
  else
    require hasData (1 + 1) ;;
    setRestorePoint;;
    type ← readU8;
    skip 1;;
    if type =? 0 then
      let len := width * height * (bpp (pf_ (sp server)) / 8) in
      require hasDataOrRestore (len + len) ;;
      clearRestorePoint;;
      andMask ← readBytes len;
      xorMask ← readBytes len;
      done_call (setCursor_ev width height hotspot
        (vmware_rgba (pf_ (sp server)) (width * height) andMask xorMask))
    else if type =? 1 then
      require hasDataOrRestore (width * height * 4) ;;
      clearRestorePoint;;
      data ← readBytes (width * height * 4);
      done_call (setCursor_ev width height hotspot data)
    else Raise (protocol_error "Unknown cursor type").

Definition readSetDesktopName (x y w h : Z) : prog cevent bool :=
  require hasData 4 ;;
  setRestorePoint;;
  len ← readU32;
  require hasDataOrRestore len ;;
  clearRestorePoint;;
  name ← readBytes len;
  if z2b x || z2b y || z2b w || z2b h then mret true
  else if negb (default false (isValidUTF8 (name ++ [0]) npos)) then mret true
  else done_call (setName_ev (fst (strchr_split (name ++ [0]) 0))).

Definition readScreen : prog cevent Screen :=
  id ← readU32; sx ← readU16; sy ← readU16; sw ← readU16; sh ← readU16; flags ← readU32;
  mret (screen id sx sy sw sh flags).

Definition readExtendedDesktopSize (x y w h : Z) : prog cevent bool :=
  require hasData (1 + 3) ;;
  setRestorePoint;;
  screens ← readU8;
  skip 3;;
  require hasDataOrRestore (16 * screens) ;;
  clearRestorePoint;;
  layout ← repeatM (Z.to_nat screens) readScreen;
  done_call (setExtendedDesktopSize x y w h layout).

Definition readLEDState : prog cevent bool :=
  require hasData 1 ;;
  ledState ← readU8;
  done_call (setLEDState_ev ledState).

Definition readVMwareLEDState : prog cevent bool :=
  require hasData 4 ;;
  ledState ← readU32;
  done_call (setLEDState_ev ledState).

(** *** The state machine of [readMsg] *)

Inductive cstate := MSGSTATE_IDLE | MSGSTATE_MESSAGE | MSGSTATE_RECT_HEADER | MSGSTATE_RECT_DATA.

(** [dataRect] is a member and a call of the handler; here the member is
    [cr_dataRect].  The server record and the decoders belong to the handler. *)
Record creader := CReader {
  cr_state : cstate;
  cr_currentMsgType : Z;
  nUpdateRectsLeft : Z;
  cr_dataRect : Rect;
  rectEncoding : Z;
  cursorEncoding : Z;
  cr_server : ServerParams;
  cr_decoder : decoder
}.

Definition set_state (st : cstate) (r : creader) : creader :=
  CReader st (cr_currentMsgType r) (nUpdateRectsLeft r) (cr_dataRect r) (rectEncoding r) (cursorEncoding r)
    (cr_server r) (cr_decoder r).
Definition set_server (server : ServerParams) (r : creader) : creader :=
  CReader (cr_state r) (cr_currentMsgType r) (nUpdateRectsLeft r) (cr_dataRect r) (rectEncoding r) (cursorEncoding r)
    server (cr_decoder r).
Definition set_decoder (d : decoder) (r : creader) : creader :=
  CReader (cr_state r) (cr_currentMsgType r) (nUpdateRectsLeft r) (cr_dataRect r) (rectEncoding r) (cursorEncoding r)
    (cr_server r) d.
Definition set_rects_left (n : Z) (r : creader) : creader :=
  CReader (cr_state r) (cr_currentMsgType r) n (cr_dataRect r) (rectEncoding r) (cursorEncoding r)
    (cr_server r) (cr_decoder r).
Definition set_cursor_encoding (e : Z) (r : creader) : creader :=
  CReader (cr_state r) (cr_currentMsgType r) (nUpdateRectsLeft r) (cr_dataRect r) (rectEncoding r) e
    (cr_server r) (cr_decoder r).

(** [if (ret) state = MSGSTATE_IDLE; return ret;] *)
Definition to_idle (r : creader) (x : bool * ServerParams) : bool * creader :=
  let r := set_server x.2 r in
  if x.1 then (true, set_state MSGSTATE_IDLE r) else (false, r).

(** The [switch] on the message type. *)
Definition readBody (t : Z) : prog cevent bool :=
  if t =? msgTypeSetColourMapEntries then readSetColourMapEntries
  else if t =? msgTypeBell then readBell
  else if t =? msgTypeServerCutText then readServerCutText
  else if t =? msgTypeServerFence then readFence
  else if t =? msgTypeEndOfContinuousUpdates then readEndOfContinuousUpdates
  else if t =? msgTypeQEMUServerMessage then readQEMUServerMessage
  else Raise (protocol_error "Unknown message type").

(** The encodings of a rectangle that carry no state of their own from one call
    to the next. *)
Definition pseudo_encoding (e : Z) : bool :=
  existsb (Z.eqb e) [pseudoEncodingXCursor; pseudoEncodingCursor; pseudoEncodingVMwareCursor;
    pseudoEncodingVMwareCursorPosition; pseudoEncodingDesktopName; pseudoEncodingDesktopSize;
    pseudoEncodingExtendedDesktopSize; pseudoEncodingLEDState; pseudoEncodingVMwareLEDState;
    pseudoEncodingQEMUKeyEvent; pseudoEncodingQEMUAudio; pseudoEncodingExtendedMouseButtons].

Definition readRectBody (r : creader) : prog cevent bool :=
  let d := cr_dataRect r in
  let server := cr_server r in
  let e := rectEncoding r in
  if e =? pseudoEncodingXCursor then readSetXCursor (width d) (height d) (tl d)
  else if e =? pseudoEncodingCursor then readSetCursor server (width d) (height d) (tl d)
  else if e =? pseudoEncodingVMwareCursor then readSetVMwareCursor server (width d) (height d) (tl d)
  else if e =? pseudoEncodingVMwareCursorPosition then done_call (setCursorPos_ev (tl d))
  else if e =? pseudoEncodingDesktopName then readSetDesktopName (px (tl d)) (py (tl d)) (width d) (height d)
  else if e =? pseudoEncodingDesktopSize then done_call (setDesktopSize (width d) (height d))
  else if e =? pseudoEncodingExtendedDesktopSize then
    readExtendedDesktopSize (px (tl d)) (py (tl d)) (width d) (height d)
  else if e =? pseudoEncodingLEDState then readLEDState
  else if e =? pseudoEncodingVMwareLEDState then readVMwareLEDState
  else if e =? pseudoEncodingQEMUKeyEvent then done_call supportsQEMUKeyEvent_ev
  else if e =? pseudoEncodingQEMUAudio then done_call supportsQEMUAudio_ev
  else done_call supportsExtendedMouseButtons_ev.

(** [if (ret) { ... }] behind the switch: one rectangle less, and the end of
    the update behind the last one. *)
Definition finish_rect (r : creader) : prog cevent (bool * creader) :=
  let r := set_rects_left (nUpdateRectsLeft r - 1) (set_state MSGSTATE_RECT_HEADER r) in
  if nUpdateRectsLeft r =? 0 then
    x ← through (cr_server r) (done_call framebufferUpdateEnd);
    mret (to_idle r x)
  else mret (true, r).

Definition finish_if (r : creader) (x : bool * ServerParams) : prog cevent (bool * creader) :=
  let r := set_server x.2 r in
  if x.1 then finish_rect r else mret (false, r).

(** [readRect], and what [readMsg] does behind it: [dataRect] is a call of
    [decodeRect], and counts as an event when the rectangle is complete. *)
Definition rect_decoded (r : creader) (x : bool * decoder) : prog cevent (bool * creader) :=
  let r := set_decoder x.2 r in
  if x.1 then
    y ← through (cr_server r) (done_call (dataRect (cr_dataRect r) (rectEncoding r) (queued (cr_decoder r))));
    finish_if r y
  else mret (false, r).

Definition readRect (r : creader) : prog cevent (bool * creader) :=
  let d := cr_dataRect r in
  if (px (br d) >? width_ (sp (cr_server r))) || (py (br d) >? height_ (sp (cr_server r)))
  then Raise (protocol_error "Invalid rectangle received")
  else
    x ← decodeRect (cr_server r) d (rectEncoding r) (cr_decoder r);
    rect_decoded r x.

(** [readSetCursorWithAlpha] once the encoding of the image is known, and what
    [readMsg] does behind it.  The pixel format of the server is put back
    before the answer of [readAndDecodeRect] is looked at. *)
Definition cursor_decoded (r : creader) (x : bool * decoder) : prog cevent (bool * creader) :=
  let server := cr_server r in
  let w := width (cr_dataRect r) in
  let h := height (cr_dataRect r) in
  let r := set_decoder x.2 r in
  let restore := snd (setPF (pf_ (sp server)) (sp server)) in
  if x.1 then
    match flush (server_setPF rgbaPF server) (rect 0 0 w h) (cursorEncoding r) (queued (cr_decoder r)), restore with
    | Throw e, _ => Raise e
    | _, Some e => Raise e
    | Ok buf, None =>
        y ← through server (done_call (setCursor_ev w h (tl (cr_dataRect r)) (unpremultiply (Z.to_nat (w * h)) buf)));
        finish_if (set_cursor_encoding (-1) r) y
    end
  else
    match restore with
    | Some e => Raise e
    | None => mret (false, r)
    end.

Definition read_cursor_image (r : creader) : prog cevent (bool * creader) :=
  x ← decodeRect (server_setPF rgbaPF (cr_server r)) (rect 0 0 (width (cr_dataRect r)) (height (cr_dataRect r)))
        (cursorEncoding r) (cr_decoder r);
  cursor_decoded r x.

Definition readSetCursorWithAlpha (r : creader) : prog cevent (bool * creader) :=
  if cursor_too_large (width (cr_dataRect r)) (height (cr_dataRect r))
  then Raise (protocol_error "Received cursor is too large")
  else if cursorEncoding r =? -1 then
    ok ← hasData 4;
    if (ok : bool) then e ← readS32; read_cursor_image (set_cursor_encoding e r) else mret (false, r)
  else read_cursor_image r.

(** The [switch] on the encoding of a rectangle. *)
Definition read_rect_data (r : creader) : prog cevent (bool * creader) :=
  if rectEncoding r =? pseudoEncodingLastRect then finish_rect (set_rects_left 1 r)
  else if rectEncoding r =? pseudoEncodingCursorWithAlpha then readSetCursorWithAlpha r
  else if pseudo_encoding (rectEncoding r) then
    x ← through (cr_server r) (readRectBody r);
    finish_if r x
  else readRect r.

Definition read_rect_header (r : creader) : prog cevent (bool * creader) :=
  ok ← hasData (2 + 2 + 2 + 2 + 4);
  if (ok : bool) then
    x ← readU16; y ← readU16; w ← readU16; h ← readU16;
    e ← readS32;
    read_rect_data (CReader MSGSTATE_RECT_DATA (cr_currentMsgType r) (nUpdateRectsLeft r)
                      (setXYWH x y w h) e (cursorEncoding r) (cr_server r) (cr_decoder r))
  else mret (false, r).

(** [readFramebufferUpdate], and what [readMsg] does behind it. *)
Definition read_update (r : creader) : prog cevent (bool * creader) :=
  ok ← hasData (1 + 2);
  if (ok : bool) then
    skip 1;;
    n ← readU16;
    x ← through (cr_server r) (done_call framebufferUpdateStart);
    let r := set_rects_left n (set_server x.2 r) in
    if n =? 0 then
      x ← through (cr_server r) (done_call framebufferUpdateEnd);
      mret (to_idle r x)
    else read_rect_header (set_state MSGSTATE_RECT_HEADER r)
  else mret (false, r).

Definition read_message (r : creader) : prog cevent (bool * creader) :=
  if negb (cr_currentMsgType r =? msgTypeFramebufferUpdate) then
    x ← through (cr_server r) (readBody (cr_currentMsgType r));
    mret (to_idle r x)
  else
    match cr_state r with
    | MSGSTATE_MESSAGE => read_update r
    | MSGSTATE_RECT_HEADER => read_rect_header r
    | _ => read_rect_data r
    end.

Definition readMsg (r : creader) : prog cevent (bool * creader) :=
  match cr_state r with
  | MSGSTATE_IDLE =>
      ok ← hasData 1;
      if (ok : bool) then
        t ← readU8;
        read_message (CReader MSGSTATE_MESSAGE t (nUpdateRectsLeft r) (cr_dataRect r) (rectEncoding r)
                        (cursorEncoding r) (cr_server r) (cr_decoder r))
      else mret (false, r)
  | _ => read_message r
  end.
End CMsgReader.
