(* ===== verification/Decoders.v ===== *)
(** * Reading rectangles ([rfb/DecodeManager.cxx], [rfb/*Decoder.cxx])

    The [readRect] half of the decoders: how much of the stream belongs to a
    rectangle, and the bytes that are kept of it for the decoder thread.
    Raw, CopyRect, RRE, ZRLE and H.264 wait for the whole rectangle; Hextile
    and Tight keep what they have read between two calls.  The manager that
    puts them together is an instance of [RectDecoder].

    [JPEGDecoder] looks at all the bytes that have arrived, which [prog] has no
    operation for; its encoding number is an unknown one here.  What the
    threads make of the bytes is the parameter [decode]. *)
From stdpp Require Import base gmap list numbers strings option.
From S2P Require Import Prelude InStream OutStream Strings PixelFmt Geometry Screens Params Clipboard ServerMsgs.
#[local] Open Scope Z_scope.

Definition encodingCopyRect : Z := 1.
Definition encodingRRE : Z := 2.
Definition encodingHextile : Z := 5.
Definition encodingTight : Z := 7.
Definition encodingZRLE : Z := 16.
Definition encodingJPEG : Z := 21.
Definition encodingH264 : Z := 50.

Definition hextileRaw : Z := 1.
Definition hextileBgSpecified : Z := 2.
Definition hextileFgSpecified : Z := 4.
Definition hextileAnySubrects : Z := 8.
Definition hextileSubrectsColoured : Z := 16.

Definition tightExplicitFilter : Z := 4.
Definition tightFill : Z := 8.
Definition tightJpeg : Z := 9.
Definition tightMaxSubencoding : Z := 9.
Definition tightFilterCopy : Z := 0.
Definition tightFilterPalette : Z := 1.
Definition tightFilterGradient : Z := 2.
Definition TIGHT_MAX_WIDTH : Z := 2048.
Definition TIGHT_MIN_TO_COMPRESS : Z := 12.

(** [writeOpaque32] on a little-endian machine. *)
Definition writeOpaque32 (u : Z) : list Z :=
  [u8 u; u8 (Z.shiftr u 8); u8 (Z.shiftr u 16); u8 (Z.shiftr u 24)].

Inductive tight_state := T_IDLE | T_FILL | T_JPEG | T_FILTER | T_PALETTE | T_PIXELS.

(** What the manager and its decoders keep: the buffer of the rectangle that is
    being read, the buffer queued last, the tile [HextileDecoder] is at, and the
    state of [TightDecoder]. *)
Record manager := Manager {
  partialEntry : option (list Z);
  lastQueued : list Z;
  readTile : Point;
  readState : tight_state;
  readPalSize : Z
}.

Definition out (bs : list Z) (m : manager) : manager :=
  Manager (Some (default [] (partialEntry m) ++ bs)) (lastQueued m) (readTile m) (readState m) (readPalSize m).
Definition set_tile (t : Point) (m : manager) : manager :=
  Manager (partialEntry m) (lastQueued m) t (readState m) (readPalSize m).
Definition set_tight (st : tight_state) (m : manager) : manager :=
  Manager (partialEntry m) (lastQueued m) (readTile m) st (readPalSize m).
Definition set_pal (n : Z) (m : manager) : manager :=
  Manager (partialEntry m) (lastQueued m) (readTile m) (readState m) n.

Definition bytesPerPixel (server : ServerParams) : Z := bpp (pf_ (sp server)) / 8.

Section readRect.
Context {E : Type}.

(** [if (!p) return false; k], with the result of [p]. *)
Definition wait_for (n : Z) (k : prog E (option (list Z))) : prog E (option (list Z)) :=
  ok ← hasData n;
  if (ok : bool) then k else mret None.
Definition wait_or_restore (n : Z) (k : prog E (option (list Z))) : prog E (option (list Z)) :=
  ok ← hasDataOrRestore n;
  if (ok : bool) then k else mret None.

(** *** Decoders that wait for the whole rectangle *)

Definition raw_readRect (server : ServerParams) (r : Rect) : prog E (option (list Z)) :=
  wait_for (area r * bytesPerPixel server)
    (bs ← readBytes (area r * bytesPerPixel server);
     mret (Some bs)).

Definition copyrect_readRect : prog E (option (list Z)) :=
  wait_for 4 (bs ← readBytes 4; mret (Some bs)).

(** The length is computed in [uint32_t]. *)
Definition rre_len (server : ServerParams) (numRects : Z) : Z :=
  u32 (bytesPerPixel server + u32 (numRects * (bytesPerPixel server + 8))).

Definition rre_readRect (server : ServerParams) : prog E (option (list Z)) :=
  wait_for 4
    (setRestorePoint;;
     numRects ← readU32;
     wait_or_restore (rre_len server numRects)
       (clearRestorePoint;;
        bs ← readBytes (rre_len server numRects);
        mret (Some (writeU32 numRects ++ bs)))).

Definition zrle_readRect : prog E (option (list Z)) :=
  wait_for 4
    (setRestorePoint;;
     length ← readU32;
     wait_or_restore length
       (clearRestorePoint;;
        bs ← readBytes length;
        mret (Some (writeU32 length ++ bs)))).

Definition h264_readRect : prog E (option (list Z)) :=
  wait_for 8
    (setRestorePoint;;
     length ← readU32;
     reset ← readU32;
     wait_or_restore length
       (clearRestorePoint;;
        bs ← readBytes length;
        mret (Some (writeU32 length ++ writeU32 reset ++ bs)))).

Definition whole (p : prog E (option (list Z))) (m : manager) : prog E (bool * manager) :=
  x ← p;
  match x with
  | Some bs => mret (true, out bs m)
  | None => mret (false, m)
  end.

(** *** Hextile *)

Definition has_flag (t flag : Z) : bool := z2b (Z.land t flag).

(** The end of a tile, behind its colours [bg] and [fg], as far as it has them. *)
Definition hextile_subrects (server : ServerParams) (tileType : Z) (bg fg : list Z) : prog E (option (list Z)) :=
  if has_flag tileType hextileAnySubrects then
    wait_or_restore 1
      (nSubrects ← readU8;
       let n := nSubrects * (if has_flag tileType hextileSubrectsColoured then bytesPerPixel server + 2 else 2) in
       wait_or_restore n
         (bs ← readBytes n;
          clearRestorePoint;;
          mret (Some (writeU8 tileType ++ bg ++ fg ++ writeU8 nSubrects ++ bs))))
  else clearRestorePoint;; mret (Some (writeU8 tileType ++ bg ++ fg)).

Definition hextile_foreground (server : ServerParams) (tileType : Z) (bg : list Z) : prog E (option (list Z)) :=
  if has_flag tileType hextileFgSpecified
  then wait_or_restore (bytesPerPixel server)
         (fg ← readBytes (bytesPerPixel server); hextile_subrects server tileType bg fg)
  else hextile_subrects server tileType bg [].

(** The body of the inner loop: a tile. *)
Definition hextile_tile (server : ServerParams) (width height : Z) : prog E (option (list Z)) :=
  wait_for 1
    (setRestorePoint;;
     tileType ← readU8;
     if has_flag tileType hextileRaw then
       wait_or_restore (width * height * bytesPerPixel server)
         (bs ← readBytes (width * height * bytesPerPixel server);
          clearRestorePoint;;
          mret (Some (writeU8 tileType ++ bs)))
     else if has_flag tileType hextileBgSpecified
     then wait_or_restore (bytesPerPixel server)
            (bg ← readBytes (bytesPerPixel server); hextile_foreground server tileType bg)
     else hextile_foreground server tileType []).

(** The two loops. *)
Fixpoint hextile_loop (fuel : nat) (server : ServerParams) (r : Rect) (m : manager) : prog E (bool * manager) :=
  match fuel with
  | O => Raise (logic_error "out of fuel")
  | S fuel =>
      let t := readTile m in
      if py t <? height r then
        if px t <? width r then
          x ← hextile_tile server (Z.min (width r - px t) 16) (Z.min (height r - py t) 16);
          match x with
          | None => mret (false, m)
          | Some bs => hextile_loop fuel server r (set_tile (MkPoint (px t + 16) (py t)) (out bs m))
          end
        else hextile_loop fuel server r (set_tile (MkPoint 0 (py t + 16)) m)
      else mret (true, set_tile (MkPoint (px t) 0) m)
  end.

(** What is left of the loops, at least. *)
Definition tiles_left (r : Rect) (t : Point) : Z :=
  Z.max 0 (height r - py t) * (Z.max 0 (width r) + 1) + Z.max 0 (width r - px t).

Definition hextile_readRect (server : ServerParams) (r : Rect) (m : manager) : prog E (bool * manager) :=
  hextile_loop (S (Z.to_nat (tiles_left r (readTile m)))) server r m.

(** *** Tight *)

Definition readCompact : prog E Z :=
  b ← readU8;
  let result := Z.land b 0x7F in
  if z2b (Z.land b 0x80) then
    b ← readU8;
    let result := Z.lor result (Z.shiftl (Z.land b 0x7F) 7) in
    if z2b (Z.land b 0x80) then
      b ← readU8;
      mret (Z.lor result (Z.shiftl (Z.land b 0xFF) 14))
    else mret result
  else mret result.

(** Data behind a compact length. *)
Definition compact_data : prog E (option (list Z)) :=
  wait_for 3
    (setRestorePoint;;
     length ← readCompact;
     wait_or_restore length
       (bs ← readBytes length;
        clearRestorePoint;;
        mret (Some (writeOpaque32 length ++ bs)))).

Definition tight_pixel (server : ServerParams) : Z :=
  if is888 (pf_ (sp server)) then 3 else bytesPerPixel server.

(** The part of [readRect] a state stands for, answered with the next state;
    [T_IDLE] is the end of the rectangle.  (The code sets [readPalSize] before
    it knows that the palette is there, and again when it comes back; here it is
    set once the palette has been read.) *)
Definition tight_step (server : ServerParams) (r : Rect) (m : manager) : prog E (option manager) :=
  let finish (x : option (list Z)) : prog E (option manager) :=
    mret ((fun bs => set_tight T_IDLE (out bs m)) <$> x) in
  let too_wide := (width r >? TIGHT_MAX_WIDTH) : bool in
  match readState m with
  | T_IDLE =>
      ok ← hasData 1;
      if (ok : bool) then
        comp_ctl ← readU8;
        let m := out (writeU8 comp_ctl) m in
        let c := Z.shiftr comp_ctl 4 in
        if c >? tightMaxSubencoding then Raise (protocol_error "Bad Tight subencoding value received")
        else if c =? tightFill then mret (Some (set_tight T_FILL m))
        else if c =? tightJpeg then mret (Some (set_tight T_JPEG m))
        else
          mret (Some (set_tight (if z2b (Z.land c tightExplicitFilter) then T_FILTER else T_PIXELS) (set_pal 0 m)))
      else mret None
  | T_FILL => x ← wait_for (tight_pixel server) (bs ← readBytes (tight_pixel server); mret (Some bs)); finish x
  | T_JPEG =>
      if too_wide then Raise (protocol_error "Too large Tight rectangle")
      else x ← compact_data; finish x
  | T_FILTER =>
      if too_wide then Raise (protocol_error "Too large Tight rectangle")
      else
        ok ← hasData 1;
        if (ok : bool) then
          filterId ← readU8;
          let m := out (writeU8 filterId) m in
          if filterId =? tightFilterPalette then mret (Some (set_tight T_PALETTE m))
          else if filterId =? tightFilterGradient then
            if bpp (pf_ (sp server)) =? 8
            then Raise (protocol_error "Invalid bits per pixel for gradient filter")
            else mret (Some (set_tight T_PIXELS m))
          else if filterId =? tightFilterCopy then mret (Some (set_tight T_PIXELS m))
          else Raise (protocol_error "Invalid Tight filter code received")
        else mret None
  | T_PALETTE =>
      if too_wide then Raise (protocol_error "Too large Tight rectangle")
      else
        ok ← hasData 1;
        if (ok : bool) then
          setRestorePoint;;
          n ← readU8;
          ok ← hasDataOrRestore ((n + 1) * tight_pixel server);
          if (ok : bool) then
            bs ← readBytes ((n + 1) * tight_pixel server);
            clearRestorePoint;;
            mret (Some (set_tight T_PIXELS (set_pal (n + 1) (out (writeU8 n ++ bs) m))))
          else mret None
        else mret None
  | T_PIXELS =>
      if too_wide then Raise (protocol_error "Too large Tight rectangle")
      else
        let rowSize :=
          if negb (readPalSize m =? 0) then
            if readPalSize m <=? 2 then (width r + 7) / 8 else width r
          else if is888 (pf_ (sp server)) then width r * 3
          else width r * bytesPerPixel server in
        let dataSize := height r * rowSize in
        if dataSize <? TIGHT_MIN_TO_COMPRESS then
          x ← wait_for dataSize (bs ← readBytes dataSize; mret (Some bs)); finish x
        else x ← compact_data; finish x
  end.

(** The [if]s of [readRect], from the last one to the first. *)
Definition tight_last (server : ServerParams) (r : Rect) (m : manager) : prog E (bool * manager) :=
  x ← tight_step server r m;
  match x with
  | None => mret (false, m)
  | Some m' => mret (true, m')
  end.

Definition tight_palette (server : ServerParams) (r : Rect) (m : manager) : prog E (bool * manager) :=
  x ← tight_step server r m;
  match x with
  | None => mret (false, m)
  | Some m' => tight_last server r m'
  end.

Definition tight_filter (server : ServerParams) (r : Rect) (m : manager) : prog E (bool * manager) :=
  x ← tight_step server r m;
  match x with
  | None => mret (false, m)
  | Some m' => match readState m' with T_PALETTE => tight_palette server r m' | _ => tight_last server r m' end
  end.

Definition tight_idle (server : ServerParams) (r : Rect) (m : manager) : prog E (bool * manager) :=
  x ← tight_step server r m;
  match x with
  | None => mret (false, m)
  | Some m' => match readState m' with T_FILTER => tight_filter server r m' | _ => tight_last server r m' end
  end.

Definition tight_readRect (server : ServerParams) (r : Rect) (m : manager) : prog E (bool * manager) :=
  match readState m with
  | T_IDLE => tight_idle server r m
  | T_FILTER => tight_filter server r m
  | T_PALETTE => tight_palette server r m
  | T_FILL | T_JPEG | T_PIXELS => tight_last server r m
  end.

(** ** The manager *)

(** [Decoder::supported]; [h264] is [HAVE_H264]. *)
Definition supported (h264 : bool) (encoding : Z) : bool :=
  (encoding =? encodingRaw) || (encoding =? encodingCopyRect) || (encoding =? encodingRRE) ||
  (encoding =? encodingHextile) || (encoding =? encodingJPEG) || (encoding =? encodingZRLE) || (encoding =? encodingTight) ||
  (h264 && (encoding =? encodingH264)).

(** The manager here is one without a JPEG decoder. *)
Definition decodes (h264 : bool) (encoding : Z) : bool := supported h264 encoding && negb (encoding =? encodingJPEG).

(** [createDecoder(encoding)->readRect] *)
Definition decoder_readRect (encoding : Z) (server : ServerParams) (r : Rect) (m : manager) : prog E (bool * manager) :=
  if encoding =? encodingRaw then whole (raw_readRect server r) m
  else if encoding =? encodingCopyRect then whole copyrect_readRect m
  else if encoding =? encodingRRE then whole (rre_readRect server) m
  else if encoding =? encodingHextile then hextile_readRect server r m
  else if encoding =? encodingZRLE then whole zrle_readRect m
  else if encoding =? encodingTight then tight_readRect server r m
  else whole h264_readRect m.

(** A rectangle that is not partly read gets an empty buffer. *)
Definition begin_entry (m : manager) : manager :=
  match partialEntry m with
  | None => Manager (Some []) (lastQueued m) (readTile m) (readState m) (readPalSize m)
  | Some _ => m
  end.

(** [workQueue.push_back(partialEntry); partialEntry = nullptr;] *)
Definition enqueue (m : manager) : manager :=
  Manager None (default [] (partialEntry m)) (readTile m) (readState m) (readPalSize m).

Definition enqueue_if (x : bool * manager) : prog E (bool * manager) :=
  if x.1 then mret (true, enqueue x.2) else mret x.

Definition manager_decodeRect (h264 : bool) (server : ServerParams) (r : Rect) (encoding : Z) (m : manager) :
    prog E (bool * manager) :=
  if negb (decodes h264 encoding) then Raise (protocol_error "Unknown encoding")
  else x ← decoder_readRect encoding server r (begin_entry m); enqueue_if x.
End readRect.

(** ** The decoders keep to the discipline *)

Lemma bytesPerPixel_nonneg server : server_wf server -> 0 <= bytesPerPixel server.
Proof. unfold server_wf, bytesPerPixel. intros Hs. apply Z.div_pos; lia. Qed.
Lemma tight_pixel_nonneg server : server_wf server -> 0 <= tight_pixel server.
Proof. intros Hs. unfold tight_pixel. case_test; [lia|by apply bytesPerPixel_nonneg]. Qed.
Lemma area_nonneg r : rect_nonneg r -> 0 <= area r.
Proof. unfold rect_nonneg, area, width, height. intros. case_test; [lia|]. apply Z.mul_nonneg_nonneg; lia. Qed.

Section decoders.
Context {E : Type}.
Implicit Types server : ServerParams.

Lemma guarded_wait n k : 0 <= n -> guarded (E:=E) (X:=option (list Z)) is_Some None Clean n k ->
  guarded is_Some None Clean 0 (wait_for n k).
Proof. intros Hn Hk. unfold wait_for. prog_simpl. by apply g_has_clean. Qed.

Lemma guarded_wait_ready n c k : 0 <= n -> guarded (E:=E) (X:=option (list Z)) is_Some None Ready n k ->
  guarded is_Some None Marked c (wait_or_restore n k).
Proof. intros Hn Hk. unfold wait_or_restore. prog_simpl. by apply g_has_ready. Qed.
Lemma guarded_wait_marked n c k : 0 <= n -> guarded (E:=E) (X:=option (list Z)) is_Some None Marked n k ->
  guarded is_Some None Marked c (wait_or_restore n k).
Proof. intros Hn Hk. unfold wait_or_restore. prog_simpl. by apply g_has_marked. Qed.

Lemma guarded_raw server r : server_wf server -> rect_nonneg r -> guarded (E:=E) is_Some None Clean 0 (raw_readRect server r).
Proof.
  intros Hs Hr. unfold raw_readRect. pose proof (bytesPerPixel_nonneg _ Hs). pose proof (area_nonneg _ Hr).
  pose proof (Z.mul_nonneg_nonneg (area r) (bytesPerPixel server)). set (n := area r * bytesPerPixel server) in *.
  apply guarded_wait; [lia|]. discipline.
Qed.
Lemma guarded_copyrect : guarded (E:=E) is_Some None Clean 0 copyrect_readRect.
Proof. apply guarded_wait; [lia|]. discipline. Qed.
Lemma guarded_rre server : server_wf server -> guarded (E:=E) is_Some None Clean 0 (rre_readRect server).
Proof.
  intros Hs. apply guarded_wait; [lia|]. do 2 guard_step.
  match goal with |- context [rre_len server ?n] => pose proof (u32_range (bytesPerPixel server + u32 (n * (bytesPerPixel server + 8)))) as Hn;
    fold (rre_len server n) in Hn; set (l := rre_len server n) in * end.
  apply guarded_wait_ready; [lia|]. discipline.
Qed.
Lemma guarded_zrle : guarded (E:=E) is_Some None Clean 0 zrle_readRect.
Proof. apply guarded_wait; [lia|]. do 2 guard_step. apply guarded_wait_ready; [field_ranges; lia|]. discipline. Qed.
Lemma guarded_h264 : guarded (E:=E) is_Some None Clean 0 h264_readRect.
Proof. apply guarded_wait; [lia|]. do 3 guard_step. apply guarded_wait_ready; [field_ranges; lia|]. discipline. Qed.

Lemma part_whole I (p : prog E (option (list Z))) m : I m -> (forall bs, I (out bs m)) ->
  guarded is_Some None Clean 0 p -> part I (whole p) m.
Proof.
  intros Hi Ho Hp. apply part_message; [done|].
  unfold whole. eapply (guarded_then _ _ None); [reflexivity| |exact Hp].
  intros x c [bs ->]. apply g_done. by split; [|apply Ho].
Qed.

(** *** Hextile *)

Lemma guarded_hextile_subrects server t bg fg c : server_wf server ->
  guarded (E:=E) is_Some None Marked c (hextile_subrects server t bg fg).
Proof.
  intros Hs. unfold hextile_subrects. pose proof (bytesPerPixel_nonneg _ Hs) as Hb.
  case_match; [|discipline]. apply guarded_wait_marked; [lia|]. guard_step. cbn [prog_bind]. cbv zeta.
  match goal with |- context [znth 0 ?l 0 * ?k] =>
    pose proof (znth_range l 0 ltac:(done)); assert (0 <= znth 0 l 0 * k) by (case_match; nia);
    set (n := znth 0 l 0 * k) in * end.
  apply guarded_wait_ready; [lia|]. discipline.
Qed.

Lemma guarded_hextile_foreground server t bg c : server_wf server ->
  guarded (E:=E) is_Some None Marked c (hextile_foreground server t bg).
Proof.
  intros Hs. pose proof (bytesPerPixel_nonneg _ Hs) as Hb. unfold hextile_foreground.
  case_match; [|by apply guarded_hextile_subrects]. apply guarded_wait_marked; [lia|].
  eapply guarded_reads; [by apply reads_readBytes|lia|done|]. intros fg. by apply guarded_hextile_subrects.
Qed.

Lemma guarded_hextile_tile server w h : server_wf server -> 0 <= w -> 0 <= h ->
  guarded (E:=E) is_Some None Clean 0 (hextile_tile server w h).
Proof.
  intros Hs Hw Hh. unfold hextile_tile. pose proof (bytesPerPixel_nonneg _ Hs) as Hb.
  apply guarded_wait; [lia|]. do 2 guard_step. cbn [prog_bind]. case_match.
  { pose proof (Z.mul_nonneg_nonneg _ _ (Z.mul_nonneg_nonneg _ _ Hw Hh) Hb).
    set (n := w * h * bytesPerPixel server) in *. apply guarded_wait_ready; [lia|]. discipline. }
  case_match; [|by apply guarded_hextile_foreground]. apply guarded_wait_marked; [lia|].
  eapply guarded_reads; [by apply reads_readBytes|lia|done|]. intros bg. by apply guarded_hextile_foreground.
Qed.

Lemma tiles_left_nonneg r t : 0 <= tiles_left r t.
Proof. unfold tiles_left. nia. Qed.
Lemma tiles_left_tile r t : px t < width r -> tiles_left r (MkPoint (px t + 16) (py t)) < tiles_left r t.
Proof. unfold tiles_left. cbn. lia. Qed.
Lemma tiles_left_row r t : py t < height r -> tiles_left r (MkPoint 0 (py t + 16)) < tiles_left r t.
Proof. unfold tiles_left. cbn. nia. Qed.

(** More fuel than there are tiles is as good as any. *)
Lemma hextile_loop_fuel server r f f' m :
  tiles_left r (readTile m) < Z.of_nat f -> tiles_left r (readTile m) < Z.of_nat f' ->
  prog_eq (E:=E) (hextile_loop f server r m) (hextile_loop f' server r m).
Proof.
  revert f' m. induction f as [|f IH]; intros f' m Hf Hf'; [pose proof (tiles_left_nonneg r (readTile m)); lia|].
  destruct f' as [|f']; [pose proof (tiles_left_nonneg r (readTile m)); lia|]. cbn [hextile_loop].
  case_test; [|done]. case_test.
  - apply prog_bind_proper; [|done]. intros [bs|]; [|done].
    pose proof (tiles_left_tile r (readTile m) ltac:(done)). apply IH; cbn [readTile set_tile out]; lia.
  - pose proof (tiles_left_row r (readTile m) ltac:(done)). apply IH; cbn [readTile set_tile]; lia.
Qed.

(** A rectangle has been begun. *)
Definition begun (m : manager) : Prop := is_Some (partialEntry m).

Lemma hextile_part server r m : server_wf server -> begun m -> part (E:=E) begun (hextile_readRect server r) m.
Proof.
  intros Hs. remember (Z.to_nat (tiles_left r (readTile m))) as n eqn:Hn. revert m Hn.
  induction (lt_wf n) as [n _ IH]. intros m Hn Hm.
  assert (forall m', tiles_left r (readTile m') < tiles_left r (readTile m) ->
    prog_eq (E:=E) (hextile_loop (Z.to_nat (tiles_left r (readTile m))) server r m') (hextile_readRect server r m')) as Hfuel.
  { intros m' Hlt. pose proof (tiles_left_nonneg r (readTile m')). apply hextile_loop_fuel; lia. }
  assert (forall m', tiles_left r (readTile m') < tiles_left r (readTile m) -> begun m' ->
    part (E:=E) begun (hextile_readRect server r) m') as Hrest.
  { intros m' Hlt Hm'. pose proof (tiles_left_nonneg r (readTile m')). by eapply IH; [|reflexivity|]; [lia|]. }
  pose proof (tiles_left_tile r (readTile m)) as Htile. pose proof (tiles_left_row r (readTile m)) as Hrow.
  destruct (Z.ltb_spec (py (readTile m)) (height r)) as [Hy|Hy].
  2: { apply part_message; [done|]. unfold hextile_readRect. cbn [hextile_loop].
       rewrite (proj2 (Z.ltb_ge _ _) Hy). by apply g_done_clean. }
  destruct (Z.ltb_spec (px (readTile m)) (width r)) as [Hx|Hx].
  - set (next := fun bs => set_tile (MkPoint (px (readTile m) + 16) (py (readTile m))) (out bs m)).
    apply (part_step _ _ _ (fun m' => exists bs, m' = next bs)
      (prog_bind (fun x => Ret (next <$> x))
         (hextile_tile server (Z.min (width r - px (readTile m)) 16) (Z.min (height r - py (readTile m)) 16)))
      (fun x => match x with
                | None => Ret (false, m)
                | Some m' => hextile_loop (Z.to_nat (tiles_left r (readTile m))) server r m'
                end)).
    + done.
    + eapply guarded_map; [| |apply guarded_hextile_tile; [done|lia|lia]]; [done|]. intros x [bs ->]. cbn. eauto.
    + intros m' [bs ->]. apply Hrest; [by apply Htile|]. by eexists.
    + done.
    + intros m' [bs ->]. apply Hfuel. by apply Htile.
    + rewrite prog_bind_bind. unfold hextile_readRect at 1. cbn [hextile_loop].
      rewrite (proj2 (Z.ltb_lt _ _) Hy), (proj2 (Z.ltb_lt _ _) Hx).
      apply prog_bind_proper; [|done]. by intros [bs|].
  - set (next := set_tile (MkPoint 0 (py (readTile m) + 16)) m).
    apply (part_step _ _ _ (eq next) (Ret (Some next))
      (fun x => match x with Some m' => hextile_readRect server r m' | None => Ret (false, m) end));
      [done|apply g_done_clean; eauto| |done|by intros m' <-|].
    + intros m' <-. apply Hrest; [by apply Hrow|done].
    + unfold hextile_readRect at 1. cbn [hextile_loop prog_bind].
      rewrite (proj2 (Z.ltb_lt _ _) Hy), (proj2 (Z.ltb_ge _ _) Hx). apply Hfuel. by apply Hrow.
Qed.

(** *** Tight *)

Lemma guarded_compact : guarded (E:=E) is_Some None Clean 0 compact_data.
Proof.
  apply guarded_wait; [lia|]. guard_step. unfold readCompact. guard_step. cbn [prog_bind]. cbv zeta.
  assert (forall n c, 0 <= n -> guarded (E:=E) is_Some None Marked c (wait_or_restore n
    (bs ← readBytes n; clearRestorePoint;; mret (Some (writeOpaque32 n ++ bs))))) as Hend.
  { intros n c Hn. apply guarded_wait_ready; [done|]. discipline. }
  pose proof (znth_range bs 0 ltac:(done)).
  assert (forall a b, 0 <= Z.land a (Z.of_nat b)) as Hland by (intros; apply Z.land_nonneg; lia).
  case_match; [|apply Hend; by apply (Hland _ 127%nat)].
  prog_simpl. guard_step. cbn [prog_bind]. cbv zeta.
  case_match.
  2: { apply Hend. apply Z.lor_nonneg. split; [by apply (Hland _ 127%nat)|]. apply Z.shiftl_nonneg. by apply (Hland _ 127%nat). }
  prog_simpl. guard_step. cbn [prog_bind]. apply Hend.
  rewrite !Z.lor_nonneg, !Z.shiftl_nonneg.
  split_and!; [by apply (Hland _ 127%nat)|by apply (Hland _ 127%nat)|by apply (Hland _ 255%nat)].
Qed.

(** The states a call of [tight_step] may lead to. *)
Definition tight_next (m m' : manager) : Prop :=
  begun m' /\
  match readState m with
  | T_IDLE => readState m' = T_FILL \/ readState m' = T_JPEG \/ readState m' = T_FILTER \/ readState m' = T_PIXELS
  | T_FILTER => readState m' = T_PALETTE \/ readState m' = T_PIXELS
  | T_PALETTE => readState m' = T_PIXELS
  | T_FILL | T_JPEG | T_PIXELS => readState m' = T_IDLE
  end.

Lemma guarded_tight_finish m (p : prog E (option (list Z))) : tight_next m (set_tight T_IDLE m) ->
  guarded is_Some None Clean 0 p ->
  guarded (fun x => exists m', x = Some m' /\ tight_next m m') None Clean 0
    (prog_bind (fun x => Ret ((fun bs => set_tight T_IDLE (out bs m)) <$> x)) p).
Proof.
  intros [Hm Hn] Hp. eapply guarded_map; [| |exact Hp]; [done|]. intros x [bs ->]. eexists. split; [done|].
  split; [by eexists|exact Hn].
Qed.

Lemma tight_next_go m m' : begun m' ->
  match readState m with
  | T_IDLE => readState m' = T_FILL \/ readState m' = T_JPEG \/ readState m' = T_FILTER \/ readState m' = T_PIXELS
  | T_FILTER => readState m' = T_PALETTE \/ readState m' = T_PIXELS
  | T_PALETTE => readState m' = T_PIXELS
  | T_FILL | T_JPEG | T_PIXELS => readState m' = T_IDLE
  end -> exists m0, Some m' = Some m0 /\ tight_next m m0.
Proof. intros. by exists m'. Qed.

Lemma tight_row_nonneg server r m : server_wf server -> rect_nonneg r ->
  0 <= height r * (if negb (readPalSize m =? 0) then if readPalSize m <=? 2 then (width r + 7) / 8 else width r
                   else if is888 (pf_ (sp server)) then width r * 3 else width r * bytesPerPixel server).
Proof.
  intros Hs (_ & _ & Hw & Hh). pose proof (bytesPerPixel_nonneg _ Hs) as Hb.
  apply Z.mul_nonneg_nonneg; [done|]. repeat case_match; [apply Z.div_pos; lia|lia|lia|by apply Z.mul_nonneg_nonneg].
Qed.

Lemma guarded_tight_step server r m : server_wf server -> rect_nonneg r -> begun m ->
  guarded (E:=E) (fun x => exists m', x = Some m' /\ tight_next m m') None Clean 0 (tight_step server r m).
Proof.
  intros Hs Hr Hm. pose proof (tight_pixel_nonneg _ Hs) as Hpx. pose proof (tight_row_nonneg server r m Hs Hr) as Hrow.
  unfold tight_step. cbv zeta.
  assert (readState m = T_FILL \/ readState m = T_JPEG \/ readState m = T_PIXELS -> tight_next m (set_tight T_IDLE m))
    as Hnext by (intros Hst; split; [done|]; destruct Hst as [->|[->| ->]]; done).
  assert (forall n, 0 <= n -> guarded (E:=E) is_Some None Clean 0 (wait_for n (bs ← readBytes n; mret (Some bs))))
    as Hwait by (intros n Hn; apply guarded_wait; [done|]; discipline).
  pose proof (tight_next_go m) as Hgo.
  destruct (readState m) eqn:Hst; try (destruct (width r >? TIGHT_MAX_WIDTH); [by apply g_raise|]).
  - prog_simpl. apply g_has_clean; [done|lia|]. apply g_take_clean; [lia|]. intros bs Hl Hb _. cbn [prog_bind].
    destruct (_ >? _); [by apply g_raise|].
    destruct (_ =? tightFill); [apply g_done, Hgo; [by eexists|by auto]|].
    destruct (_ =? tightJpeg); [apply g_done, Hgo; [by eexists|by auto]|].
    apply g_done, Hgo; [by eexists|]. destruct (z2b _); cbn; auto 10.
  - apply guarded_tight_finish; [by auto|by apply Hwait].
  - apply guarded_tight_finish; [by auto|by apply guarded_compact].
  - prog_simpl. apply g_has_clean; [done|lia|]. apply g_take_clean; [lia|]. intros bs Hl Hb _. cbn [prog_bind].
    destruct (_ =? tightFilterPalette); [apply g_done, Hgo; [by eexists|by auto]|].
    destruct (_ =? tightFilterGradient).
    { destruct (_ =? 8); [by apply g_raise|apply g_done, Hgo; [by eexists|by auto]]. }
    destruct (_ =? tightFilterCopy); [apply g_done, Hgo; [by eexists|by auto]|by apply g_raise].
  - prog_simpl. apply g_has_clean; [done|lia|]. apply g_set. apply g_take; [done|lia|]. intros bs Hl Hb _. cbn [prog_bind].
    pose proof (znth_range bs 0 Hb).
    assert (0 <= (znth 0 bs 0 + 1) * tight_pixel server) as Hn by nia. set (n := (_ + 1) * _) in *.
    prog_simpl. apply g_has_ready; [done|done|]. unfold mret, prog_mret, mbind, prog_mbind. cbn [prog_bind].
    eapply guarded_reads; [by apply reads_readBytes|lia|done|]. intros b. apply g_clear, g_done, Hgo; [by eexists|done].
  - set (n := height r * _) in *. destruct (n <? TIGHT_MIN_TO_COMPRESS);
      (apply guarded_tight_finish; [by auto|]); [by apply Hwait|apply guarded_compact].
Qed.

Lemma guarded_tight_last server r m : server_wf server -> rect_nonneg r -> begun m ->
  guarded (E:=E) (fun x => x.1 = true /\ begun x.2) (false, m) Clean 0 (tight_last server r m).
Proof.
  intros Hs Hr Hm. unfold tight_last. eapply (guarded_then _ _ None); [reflexivity| |by apply guarded_tight_step].
  intros x c (m' & -> & Hm' & _). by apply g_done.
Qed.

(** A state that is followed by another one. *)
Lemma tight_part_step server r m next : server_wf server -> rect_nonneg r -> begun m ->
  tight_readRect (E:=E) server r m =
    prog_bind (fun x => match x with None => Ret (false, m) | Some m' => next m' end) (tight_step server r m) ->
  (forall m', tight_next m m' -> next m' = tight_readRect server r m' /\ part (E:=E) begun (tight_readRect server r) m') ->
  part (E:=E) begun (tight_readRect server r) m.
Proof.
  intros Hs Hr Hm Hrun Hnext.
  eapply (part_step _ _ _ (tight_next m) (tight_step server r m)
    (fun x => match x with None => Ret (false, m) | Some m' => next m' end));
    [done|by apply guarded_tight_step|by apply Hnext|done| |by rewrite Hrun].
  intros m' Hm'. by rewrite (proj1 (Hnext m' Hm')).
Qed.

Lemma tight_part server r m : server_wf server -> rect_nonneg r -> begun m ->
  part (E:=E) begun (tight_readRect server r) m.
Proof.
  intros Hs Hr. set (R := tight_readRect (E:=E) server r).
  assert (forall m, readState m = T_FILL \/ readState m = T_JPEG \/ readState m = T_PIXELS -> begun m ->
    tight_last server r m = R m /\ part begun R m) as Hlast.
  { intros m' Hst Hm. assert (tight_last server r m' = R m') as Heq.
    { unfold R, tight_readRect. by destruct Hst as [->|[->| ->]]. }
    split; [done|]. apply part_message; [done|]. rewrite <- Heq. by apply guarded_tight_last. }
  assert (forall m, readState m = T_PALETTE -> begun m -> tight_palette server r m = R m /\ part begun R m) as Hpalette.
  { intros m' Hst Hm. assert (R m' = tight_palette server r m') as Heq by (unfold R, tight_readRect; by rewrite Hst).
    split; [done|]. eapply tight_part_step; [done..|exact Heq|]. intros m2 [Hm2 Hn]. rewrite Hst in Hn. auto. }
  assert (forall m, readState m = T_FILTER -> begun m -> tight_filter server r m = R m /\ part begun R m) as Hfilter.
  { intros m' Hst Hm. assert (R m' = tight_filter server r m') as Heq by (unfold R, tight_readRect; by rewrite Hst).
    split; [done|]. eapply tight_part_step; [done..|exact Heq|]. intros m2 [Hm2 Hn]. rewrite Hst in Hn.
    destruct Hn as [Hn|Hn]; cbv beta; rewrite Hn; auto. }
  intros Hm. destruct (readState m) eqn:Hst; [|apply Hlast; by auto|apply Hlast; by auto|by apply Hfilter
    |by apply Hpalette|apply Hlast; by auto].
  eapply (tight_part_step server r m); [done..|unfold R, tight_readRect; rewrite Hst; reflexivity|].
  intros m' [Hm' Hn]. rewrite Hst in Hn. destruct Hn as [Hn|[Hn|[Hn|Hn]]]; cbv beta; rewrite Hn; auto.
Qed.

(** *** The manager *)

Lemma decoder_part e server r m : server_wf server -> rect_nonneg r -> begun m ->
  part (E:=E) begun (decoder_readRect e server r) m.
Proof.
  intros Hs Hr Hm. unfold decoder_readRect.
  assert (forall p, guarded (E:=E) is_Some None Clean 0 p -> part begun (whole p) m) as Hwhole.
  { intros p Hp. apply part_whole; [done| |done]. by eexists. }
  repeat (case_test; [auto using guarded_raw, guarded_copyrect, guarded_rre, guarded_zrle, hextile_part, tight_part|]).
  auto using guarded_h264.
Qed.

(** What the manager does with a rectangle that is complete. *)
Lemma part_enqueue (R : manager -> prog E (bool * manager)) m : part begun R m ->
  part (fun _ => True) (fun m => x ← R (begin_entry m); enqueue_if x) m.
Proof.
  intros Hp. assert (forall m, begun m -> begin_entry m = m) as Hbegun.
  { intros m' [bs Hm]. unfold begin_entry. by rewrite Hm. }
  induction Hp as [m Hm Hg|m P p k Hm Hp HP IH Hn Hk Heq].
  - apply part_message; [done|]. rewrite Hbegun by done. eapply (guarded_then _ _ (false, m)); [reflexivity| |exact Hg].
    intros [b m'] c [Hb Hm']. cbn in Hb. subst b. by apply g_done.
  - apply (part_step _ _ _ P p (fun x => prog_bind enqueue_if (k x))); [done|done|exact IH| | |].
    + by rewrite Hn.
    + intros m' HP'. rewrite (Hbegun m') by (eapply part_inv; eauto). unfold mbind, prog_mbind. by rewrite Hk.
    + rewrite Hbegun by done. unfold mbind, prog_mbind. by rewrite Heq, prog_bind_bind.
Qed.

Lemma manager_part h264 server r e m : server_wf server -> rect_nonneg r ->
  part (E:=E) (fun _ => True) (manager_decodeRect h264 server r e) m.
Proof.
  intros Hs Hr. unfold manager_decodeRect.
  destruct (decodes h264 e); cbn [negb]; [|by apply part_message; [|apply g_raise]].
  assert (begun (begin_entry m)) as Hm by (unfold begun, begin_entry; destruct (partialEntry m) as [bs|] eqn:Hbs; [by rewrite Hbs|by eexists]).
  pose proof (part_enqueue _ _ (decoder_part e server r (begin_entry m) Hs Hr Hm)) as Hp.
  destruct (partialEntry m) as [bs|] eqn:Hbs; [unfold begin_entry in Hp; by rewrite Hbs in Hp|].
  apply (part_step _ _ _ (eq (begin_entry m)) (Ret (Some (begin_entry m)))
    (fun x => match x with Some m' => x ← decoder_readRect e server r (begin_entry m'); enqueue_if x | None => Ret (false, m) end));
    [done|apply g_done_clean; eauto|by intros m' <-|done|by intros m' <-|].
  cbn [prog_bind]. unfold begin_entry at 2. unfold begin_entry at 2. by rewrite Hbs.
Qed.
End decoders.

(** The decode manager behind [CMsgReader]: its threads make pixels of the
    bytes of a rectangle, or throw. *)
Section instance.
Context (h264 : bool) (decode : ServerParams -> Rect -> Z -> list Z -> res (list Z)).
Hypothesis decode_ordinary : forall s r e data x, decode s r e data = Throw x -> ordinary x.

Lemma manager_none s r (m : manager) : exists e, ordinary e /\ manager_decodeRect (E:=cevent) h264 s r (-1) m = Raise e.
Proof. exists (protocol_error "Unknown encoding"). split; [done|]. unfold manager_decodeRect. by destruct h264. Qed.

Definition DecodeManager : RectDecoder := {|
  decoder := manager;
  decoder_ok _ := True;
  decodeRect := manager_decodeRect h264;
  queued := lastQueued;
  flush := decode;
  decodeRect_part s r e d Hs Hr _ := manager_part h264 s r e d Hs Hr;
  flush_ordinary := decode_ordinary;
  decodeRect_none := manager_none
|}.
End instance.
