(* ===== verification/ServerReader.v ===== *)
(** * The message loop of the client ([CMsgReader::readMsg])

    Every reader of [CMsgReader] keeps to the discipline of the stream, and
    every state of [readMsg] has the shape that makes the loop resumable: the
    loop ends on any input, and its handler calls do not depend on how the
    stream was cut into pieces, for any handler and any decoders that keep to
    their interface. *)
From stdpp Require Import base gmap list numbers strings option.
From S2P Require Import Prelude InStream OutStream Strings PixelFmt Geometry Screens Params Clipboard ServerMsgs Decoders.
#[local] Open Scope Z_scope.

(** Closes the branch of an outcome equation where data is missing. *)
Ltac short_data := prog_simpl; rewrite arun_has_short by lia; reflexivity.

(** ** The readers keep to the discipline of the stream *)

Lemma reads_layoutScreen : reads 16 readScreen.
Proof. unfold readScreen. reads_seq. constructor. Qed.
Lemma reads_readU16 {E} : reads 2 (readU16 (E:=E)).
Proof. apply (reads_take 2 0); [lia|lia|]. intros. constructor. Qed.
#[export] Hint Resolve reads_layoutScreen reads_readU16 : reads.

(** What [through] makes of a reader's answer. *)
Definition known_wf (x : bool * ServerParams) : Prop := x.1 = true /\ server_wf x.2.

Section discipline.
Context (maxCutText : Z) (inflate : list Z -> zseg) {handler : CMsgHandler} {decoders : RectDecoder}.

Lemma guarded_through {P : Policy} ph c p server : server_wf server -> guarded (eq true) false ph c p ->
  guarded known_wf (false, server) ph c (through server p).
Proof.
  intros Hs Hg. revert server Hs. induction Hg as
    [c x Hq|c x Hq|c|ph c e He|c n k Hf Hn _ IH|c n k Hf Hn _ IH|c n k Hf Hn _ IH|c k _ IH|c k _ IH|c k _ IH
    |c n k Hle _ IH|ph c n k Hph Hle _ IH|c ev k _ IH|ph c ev k Hph _ IH|ph c n k e1 e2 Hn Ht Hf He1 He2]; intros server Hs; cbn.
  - subst. by apply g_done_clean.
  - subst. by apply g_done.
  - apply g_more.
  - by apply g_raise.
  - apply g_has_clean; [by rewrite Hf|done|auto].
  - apply g_has_marked; [by rewrite Hf|done|auto].
  - apply g_has_ready; [by rewrite Hf|done|auto].
  - apply g_set. auto.
  - apply g_clear_marked. auto.
  - apply g_clear. auto.
  - apply g_take_clean; auto.
  - apply g_take; auto.
  - destruct (handle server ev) as [server'|e] eqn:He.
    + apply g_emit_clean. eapply guarded_any_more; [by right|]. apply IH. by eapply handle_wf.
    + apply g_raise, fault_ordinary. by eapply handle_ordinary.
  - destruct (handle server ev) as [server'|e] eqn:He.
    + apply g_emit; [done|]. eapply guarded_any_more; [done|]. apply IH. by eapply handle_wf.
    + apply g_raise, fault_ordinary. by eapply handle_ordinary.
  - by apply (g_has_fault _ _ _ _ _ _ e1 e2); [|rewrite Ht|rewrite Hf| |].
Qed.

Lemma guarded_done_call ph c ev : ph = Clean \/ ph = Committed -> guarded (eq true) false ph c (done_call ev).
Proof. intros [-> | ->]; unfold done_call; discipline. Qed.

Lemma guarded_readServerInit : guarded (eq true) false Clean 0 readServerInit.
Proof. unfold readServerInit, done_call. discipline. Qed.
Lemma guarded_readSetColourMapEntries : guarded (eq true) false Clean 0 readSetColourMapEntries.
Proof. unfold readSetColourMapEntries, done_call. discipline. Qed.

Lemma guarded_readQEMUServerMessage : guarded (eq true) false Clean 0 readQEMUServerMessage.
Proof.
  unfold readQEMUServerMessage, done_call, maxAudioData. do 5 guard_step; [discipline|].
  guard_step; [discipline|]. guard_step; [discipline|]. guard_step; [discipline|].
  prog_simpl. apply g_has_marked; [done|lia|]. discipline.
Qed.

(** *** Rectangles *)

Lemma mask_len_nonneg w h : 0 <= w -> 0 <= h -> 0 <= (w + 7) / 8 * h.
Proof. intros. apply Z.mul_nonneg_nonneg; [|done]. apply Z.div_pos; lia. Qed.

Lemma bpp_nonneg server : server_wf server -> 0 <= bpp (pf_ (sp server)) / 8.
Proof.
  unfold server_wf. intros Hs. apply Z.div_pos; lia.
Qed.

Lemma pixels_nonneg w h bytes : 0 <= w -> 0 <= h -> 0 <= bytes -> 0 <= w * h * bytes.
Proof. intros. apply Z.mul_nonneg_nonneg; [by apply Z.mul_nonneg_nonneg|done]. Qed.

Lemma guarded_readSetXCursor w h hotspot : 0 <= w -> 0 <= h ->
  guarded (eq true) false Clean 0 (readSetXCursor w h hotspot).
Proof.
  intros Hw Hh. unfold readSetXCursor, done_call. pose proof (mask_len_nonneg w h Hw Hh).
  set (m := (w + 7) / 8 * h) in *. discipline.
Qed.

Lemma guarded_readSetCursor server w h hotspot : server_wf server -> 0 <= w -> 0 <= h ->
  guarded (eq true) false Clean 0 (readSetCursor server w h hotspot).
Proof.
  intros Hs Hw Hh. unfold readSetCursor, done_call. pose proof (mask_len_nonneg w h Hw Hh).
  pose proof (pixels_nonneg w h _ Hw Hh (bpp_nonneg server Hs)).
  set (m := (w + 7) / 8 * h) in *. set (n := w * h * _) in *. discipline.
Qed.

Lemma guarded_readSetVMwareCursor server w h hotspot : server_wf server -> 0 <= w -> 0 <= h ->
  guarded (eq true) false Clean 0 (readSetVMwareCursor server w h hotspot).
Proof.
  intros Hs Hw Hh. unfold readSetVMwareCursor, done_call.
  pose proof (pixels_nonneg w h _ Hw Hh (bpp_nonneg server Hs)). pose proof (pixels_nonneg w h 4 Hw Hh ltac:(lia)).
  set (m := w * h * 4) in *. set (n := w * h * _) in *. discipline.
Qed.

Lemma guarded_readSetDesktopName x y w h : guarded (eq true) false Clean 0 (readSetDesktopName x y w h).
Proof. unfold readSetDesktopName, done_call. discipline. Qed.
Lemma guarded_readExtendedDesktopSize x y w h : guarded (eq true) false Clean 0 (readExtendedDesktopSize x y w h).
Proof. unfold readExtendedDesktopSize, done_call. discipline. Qed.
Lemma guarded_readLEDState : guarded (eq true) false Clean 0 readLEDState.
Proof. unfold readLEDState, done_call. discipline. Qed.
Lemma guarded_readVMwareLEDState : guarded (eq true) false Clean 0 readVMwareLEDState.
Proof. unfold readVMwareLEDState, done_call. discipline. Qed.

Lemma guarded_readRectBody r : server_wf (cr_server r) -> rect_nonneg (cr_dataRect r) ->
  guarded (eq true) false Clean 0 (readRectBody r).
Proof.
  intros Hs Hr. pose proof Hr as (_ & _ & Hw & Hh). unfold readRectBody. cbv zeta.
  case_test; [by apply guarded_readSetXCursor|].
  case_test; [by apply guarded_readSetCursor|].
  case_test; [by apply guarded_readSetVMwareCursor|].
  case_test; [by apply guarded_done_call; left|].
  case_test; [by apply guarded_readSetDesktopName|].
  case_test; [by apply guarded_done_call; left|].
  case_test; [by apply guarded_readExtendedDesktopSize|].
  case_test; [by apply guarded_readLEDState|].
  case_test; [by apply guarded_readVMwareLEDState|].
  repeat (case_test; [by apply guarded_done_call; left|]). by apply guarded_done_call; left.
Qed.

(** *** The state machine *)

(** Between the rectangles the current message is a framebuffer update. *)
Definition creader_ok (r : creader) : Prop :=
  server_wf (cr_server r) /\ rect_nonneg (cr_dataRect r) /\ decoder_ok (cr_decoder r) /\
  match cr_state r with
  | MSGSTATE_RECT_HEADER | MSGSTATE_RECT_DATA => cr_currentMsgType r = msgTypeFramebufferUpdate
  | _ => True
  end.

(** What a state still has to answer for without reading anything. *)
Definition cmu (r : creader) : nat :=
  match cr_state r with
  | MSGSTATE_IDLE | MSGSTATE_RECT_HEADER => 0
  | MSGSTATE_MESSAGE | MSGSTATE_RECT_DATA => 1
  end.

(** The results of a call that has completed something. *)
Definition completed (x : bool * creader) : Prop := x.1 = true /\ creader_ok x.2 /\ cmu x.2 = 0%nat.

(** A state in which the data of a rectangle is read. *)
Definition in_rect (r : creader) : Prop :=
  server_wf (cr_server r) /\ rect_nonneg (cr_dataRect r) /\ decoder_ok (cr_decoder r) /\
  cr_currentMsgType r = msgTypeFramebufferUpdate.

Lemma set_decoder_same r : set_decoder (cr_decoder r) r = r.
Proof. by destruct r. Qed.
Lemma set_server_same r : set_server (cr_server r) r = r.
Proof. by destruct r. Qed.

Lemma guarded_finish_rect r more c : in_rect r -> guarded completed more Committed c (finish_rect r).
Proof.
  intros (Hs & Hr & Hd & Ht). unfold finish_rect. cbv zeta. cbn [nUpdateRectsLeft set_rects_left cr_server set_state].
  case_test; [|by apply g_done; split_and!].
  eapply guarded_seq; [by apply guarded_through, guarded_done_call; [|right]|].
  intros [ok server] c' [Hok Hs']. cbn in Hok. subst ok. apply g_done. by split_and!.
Qed.

Lemma guarded_finish_if r more c x : in_rect r -> known_wf x -> guarded completed more Committed c (finish_if r x).
Proof.
  intros (Hs & Hr & Hd & Ht). destruct x as [ok server]. intros [Hok Hs']. cbn in Hok. subst ok.
  by apply guarded_finish_rect.
Qed.

(** A handler call past the point of no return, and the end of the rectangle. *)
Lemma guarded_call_finish r more c ev : in_rect r ->
  guarded completed more Committed c (prog_bind (finish_if r) (through (cr_server r) (done_call ev))).
Proof.
  intros Hi. eapply guarded_seq; [apply guarded_through; [apply Hi|by apply guarded_done_call; right]|].
  intros x c' Hx. by apply guarded_finish_if.
Qed.

(** A rectangle whose encoding carries no state of its own. *)
Lemma guarded_read_rect_data r : in_rect r -> pseudo_encoding (rectEncoding r) = true ->
  rectEncoding r <> pseudoEncodingCursorWithAlpha ->
  guarded completed (false, r) Clean 0 (read_rect_data r).
Proof.
  intros Hi Hp Ha. unfold read_rect_data. case_test; [by apply guarded_clean, guarded_finish_rect|].
  case_test; [done|]. rewrite Hp. destruct Hi as (Hs & Hr & Hd & Ht).
  eapply (guarded_then _ _ (false, cr_server r)); [| |by apply guarded_through, guarded_readRectBody].
  - unfold finish_if. cbn. by rewrite set_server_same.
  - intros x c Hx. by apply guarded_finish_if.
Qed.

Lemma guarded_rect_decoded r more c d : in_rect r -> decoder_ok d ->
  guarded completed more Committed c (rect_decoded r (true, d)).
Proof.
  intros (Hs & Hr & Hd & Ht) Hd'. unfold rect_decoded. cbn.
  by apply (guarded_call_finish (set_decoder d r)).
Qed.

Lemma setPF_same server : server_wf server -> snd (setPF (pf_ (sp server)) (sp server)) = None.
Proof. unfold setPF. cbn. by intros [->|[->| ->]]. Qed.

Lemma guarded_cursor_decoded r more c d : in_rect r -> decoder_ok d ->
  guarded completed more Committed c (cursor_decoded r (true, d)).
Proof.
  intros (Hs & Hr & Hd & Ht) Hd'. unfold cursor_decoded. cbv zeta. rewrite setPF_same by done. cbn [fst].
  destruct (flush _ _ _ _) eqn:Hf; [|apply g_raise; by eapply flush_ordinary].
  by apply (guarded_call_finish (set_cursor_encoding (-1) (set_decoder d r))).
Qed.

(** The states of [readMsg], one by one. *)
Definition readMsg' := readMsg maxCutText inflate.

Lemma readMsg_rect_data r : cr_state r = MSGSTATE_RECT_DATA -> cr_currentMsgType r = msgTypeFramebufferUpdate ->
  readMsg' r = read_rect_data r.
Proof. intros H1 H2. unfold readMsg', readMsg, read_message. by rewrite H1, H2. Qed.

Lemma readMsg_rect_header r : cr_state r = MSGSTATE_RECT_HEADER ->
  cr_currentMsgType r = msgTypeFramebufferUpdate -> readMsg' r = read_rect_header r.
Proof. intros H1 H2. unfold readMsg', readMsg, read_message. by rewrite H1, H2. Qed.

Lemma readMsg_update r : cr_state r = MSGSTATE_MESSAGE -> cr_currentMsgType r = msgTypeFramebufferUpdate ->
  readMsg' r = read_update r.
Proof. intros H1 H2. unfold readMsg', readMsg, read_message. by rewrite H1, H2. Qed.

Lemma completed_message {P : Policy} r : (0 < cmu r)%nat -> creader_ok r ->
  guarded completed (false, r) Clean 0 (readMsg' r) -> shape creader_ok cmu readMsg' r.
Proof.
  intros Hr Hi Hp. apply shape_message; [done|]. unfold message_at.
  eapply guarded_weaken; [|exact Hp]. intros x (? & ? & ->). auto.
Qed.

(** A rectangle in the hands of a decoder. *)
Lemma shape_decoder r d K server rect e : in_rect r -> cr_state r = MSGSTATE_RECT_DATA ->
  server_wf server -> rect_nonneg rect -> decoder_ok d ->
  (forall d, K (false, d) = Ret (false, set_decoder d r)) ->
  (forall d more c, decoder_ok d -> guarded completed more Committed c (K (true, d))) ->
  (forall d, readMsg' (set_decoder d r) = prog_bind K (decodeRect server rect e d)) ->
  shape creader_ok cmu readMsg' (set_decoder d r).
Proof.
  intros (Hs & Hr & Hd & Ht) Hst Hs' Hr' Hd' Hmore Hdone Hrun.
  refine (proj2 (shape_part decoder_ok (decodeRect server rect e) creader_ok cmu readMsg'
    (fun d => set_decoder d r) K _ _ Hrun Hmore _ d _)); [| | |by apply decodeRect_part].
  - intros d' Hd2. unfold creader_ok. cbn. rewrite Hst. by split_and!.
  - done.
  - intros d1 d2 c Hd1. eapply guarded_weaken; [|by apply Hdone]. intros x (Hx & Hok & Hmu).
    split_and!; [done|done|]. rewrite Hmu. unfold cmu. cbn. rewrite Hst. lia.
Qed.

(** The image of a cursor whose encoding has been read. *)
Lemma shape_cursor_image r : in_rect r -> cr_state r = MSGSTATE_RECT_DATA ->
  rectEncoding r = pseudoEncodingCursorWithAlpha -> cursorEncoding r <> -1 ->
  cursor_too_large (width (cr_dataRect r)) (height (cr_dataRect r)) = false ->
  shape creader_ok cmu readMsg' r.
Proof.
  intros Hin Hst Ha Hce Hbig. pose proof Hin as (Hs & Hr & Hd & Ht). pose proof Hr as (_ & _ & Hw & Hh).
  rewrite <- (set_decoder_same r).
  apply (shape_decoder r (cr_decoder r) (cursor_decoded r) (server_setPF rgbaPF (cr_server r))
           (rect 0 0 (width (cr_dataRect r)) (height (cr_dataRect r))) (cursorEncoding r)); [done|done| | |done| | |].
  - unfold server_wf. cbn. lia.
  - unfold rect_nonneg, width, height in *. cbn. lia.
  - intros d. unfold cursor_decoded. cbv zeta. by rewrite setPF_same.
  - intros d more c Hd'. by apply guarded_cursor_decoded.
  - intros d. rewrite readMsg_rect_data by done. unfold read_rect_data, readSetCursorWithAlpha.
    cbn [rectEncoding cursorEncoding cr_dataRect set_decoder]. rewrite Ha, Hbig, (proj2 (Z.eqb_neq _ _) Hce). reflexivity.
Qed.

Lemma shape_cursor r : in_rect r -> cr_state r = MSGSTATE_RECT_DATA ->
  rectEncoding r = pseudoEncodingCursorWithAlpha -> shape creader_ok cmu readMsg' r.
Proof.
  intros Hin Hst Ha. pose proof Hin as (Hs & Hr & Hd & Ht).
  assert (creader_ok r) as Hi by (unfold creader_ok; rewrite Hst; by split_and!).
  assert (readMsg' r = readSetCursorWithAlpha r) as Hrun.
  { rewrite readMsg_rect_data by done. unfold read_rect_data. by rewrite Ha. }
  destruct (cursor_too_large (width (cr_dataRect r)) (height (cr_dataRect r))) eqn:Hbig.
  { apply completed_message; [unfold cmu; rewrite Hst; lia|done|].
    rewrite Hrun. unfold readSetCursorWithAlpha. rewrite Hbig. by apply g_raise. }
  destruct (Z.eq_dec (cursorEncoding r) (-1)) as [Hce|Hce]; [|by apply shape_cursor_image].
  destruct (decodeRect_none (server_setPF rgbaPF (cr_server r))
              (rect 0 0 (width (cr_dataRect r)) (height (cr_dataRect r))) (cr_decoder r)) as (e0 & He0 & Hnone).
  apply (shape_field _ _ _ _ 4 (fun f =>
    let e := s32 (be32 f) in if e =? -1 then FThrow e0 else FGo (set_cursor_encoding e r) [])); [done|done| | | | |].
  - intros f e _ _. cbn. case_test; [by intros [= <-]|done].
  - intros f l' evs _ _. cbn. by case_test.
  - intros f l' evs _ _. cbn. case_test; [done|]. intros [= <- <-]. unfold cmu at 1. cbn. rewrite Hst. lia.
  - intros f l' evs _ _. cbn. case_test; [done|]. intros [= <- <-]. by apply shape_cursor_image.
  - intros d. rewrite Hrun. unfold readSetCursorWithAlpha, outcome, fresh. rewrite Hbig, Hce. cbn [Z.eqb Pos.eqb].
    destruct (Z.leb_spec 4 (len d)) as [Hl|Hl]; [|short_data].
    prog_simpl. rewrite arun_has_enough, arun_take by lia. cbn [prog_bind mret prog_mret]. cbv zeta. case_test.
    + unfold read_cursor_image. cbn [cr_server cr_dataRect cursorEncoding cr_decoder set_cursor_encoding].
      rewrite Heqb, Hnone. done.
    + rewrite prepend_nil, readMsg_rect_data by done. unfold read_rect_data, readSetCursorWithAlpha.
      cbn [rectEncoding cursorEncoding cr_dataRect set_cursor_encoding].
      rewrite Ha, Hbig, (proj2 (Z.eqb_neq _ _) Heqb). done.
Qed.

Lemma shape_rect_data r : cr_state r = MSGSTATE_RECT_DATA -> creader_ok r -> shape creader_ok cmu readMsg' r.
Proof.
  intros Hst Hi. assert (in_rect r) as Hin.
  { destruct Hi as (? & ? & ? & Ht). rewrite Hst in Ht. by split_and!. }
  pose proof Hin as (Hs & Hr & Hd & Ht).
  destruct (Z.eq_dec (rectEncoding r) pseudoEncodingCursorWithAlpha) as [Ha|Ha]; [by apply shape_cursor|].
  destruct (pseudo_encoding (rectEncoding r)) eqn:Hp.
  { apply completed_message; [unfold cmu; rewrite Hst; lia|done|].
    rewrite readMsg_rect_data by done. by apply guarded_read_rect_data. }
  destruct (Z.eq_dec (rectEncoding r) pseudoEncodingLastRect) as [Hl|Hl].
  { apply completed_message; [unfold cmu; rewrite Hst; lia|done|].
    rewrite readMsg_rect_data by done. unfold read_rect_data. rewrite (proj2 (Z.eqb_eq _ _) Hl).
    by apply guarded_clean, guarded_finish_rect. }
  assert (forall d, readMsg' (set_decoder d r) = readRect (set_decoder d r)) as Hrun.
  { intros d. rewrite readMsg_rect_data by done. unfold read_rect_data. cbn [rectEncoding set_decoder].
    by rewrite (proj2 (Z.eqb_neq _ _) Ha), (proj2 (Z.eqb_neq _ _) Hl), Hp. }
  rewrite <- (set_decoder_same r). unfold readRect in Hrun. cbn [cr_dataRect cr_server rectEncoding cr_decoder set_decoder] in Hrun.
  destruct (_ || _) eqn:Hbig.
  { apply completed_message; [unfold cmu; cbn; rewrite Hst; lia|by rewrite set_decoder_same|].
    rewrite Hrun. by apply g_raise. }
  apply (shape_decoder r (cr_decoder r) (rect_decoded r) (cr_server r) (cr_dataRect r) (rectEncoding r));
    [done..| |exact Hrun].
  intros d more c Hd'. by apply guarded_rect_decoded.
Qed.

(** The header of a rectangle, from its twelve bytes. *)
Definition rect_header (r : creader) (f : list Z) : creader :=
  let x := be16 (ztake 2 f) in
  let y := be16 (ztake 2 (zdrop 2 f)) in
  let w := be16 (ztake 2 (zdrop 2 (zdrop 2 f))) in
  let h := be16 (ztake 2 (zdrop 2 (zdrop 2 (zdrop 2 f)))) in
  let e := s32 (be32 (ztake 4 (zdrop 2 (zdrop 2 (zdrop 2 (zdrop 2 f)))))) in
  CReader MSGSTATE_RECT_DATA (cr_currentMsgType r) (nUpdateRectsLeft r)
    (setXYWH x y w h) e (cursorEncoding r) (cr_server r) (cr_decoder r).

Lemma rect_header_ok r f : server_wf (cr_server r) -> decoder_ok (cr_decoder r) -> cr_currentMsgType r = msgTypeFramebufferUpdate ->
  creader_ok (rect_header r f).
Proof.
  intros Hs Hd Ht. unfold rect_header. cbv zeta. field_ranges. split_and!; cbn; [done| |done|done].
  unfold setXYWH. unfold rect_nonneg, width, height. cbn. lia.
Qed.

Lemma shape_rect_header r : cr_state r = MSGSTATE_RECT_HEADER -> creader_ok r -> shape creader_ok cmu readMsg' r.
Proof.
  intros Hst Hi. pose proof Hi as (Hs & _ & Hd & Ht). rewrite Hst in Ht.
  apply (shape_field _ _ _ _ 12 (fun f => FGo (rect_header r f) [])); [done..| | |].
  - intros f l' evs _ _ [= <- <-]. unfold cmu at 1. cbn. lia.
  - intros f l' evs _ _ [= <- <-]. apply shape_rect_data; [done|]. by apply rect_header_ok.
  - intros d. rewrite readMsg_rect_header by done. unfold read_rect_header, outcome, fresh.
    destruct (Z.leb_spec 12 (len d)) as [Hl|Hl]; [|short_data].
    rewrite <- (ztake_zdrop 12 d) at 1.
    assert (len (ztake 12 d) = 12) as Hf by (apply len_ztake; lia).
    set (f := ztake 12 d) in *. set (d' := zdrop 12 d) in *. prog_simpl.
    rewrite arun_has_enough by llia. do 5 rewrite arun_take_front by (rewrite ?len_zdrop_max by lia; lia).
    rewrite (zdrop_all 4) by (rewrite !len_zdrop_max by lia; lia).
    by rewrite prepend_nil, readMsg_rect_data.
Qed.

(** The start of a framebuffer update, from its three bytes. *)
Definition update_header (r : creader) (f : list Z) : field_step (E:=cevent) (L:=creader) :=
  let n := be16 (ztake 2 (zdrop 1 f)) in
  match handle (cr_server r) framebufferUpdateStart with
  | Throw e => FThrow e
  | Ok server =>
      let r := set_rects_left n (set_server server r) in
      if n =? 0 then
        match handle server framebufferUpdateEnd with
        | Throw e => FThrow e
        | Ok server => FDone (set_state MSGSTATE_IDLE (set_server server r)) [framebufferUpdateStart; framebufferUpdateEnd]
        end
      else FGo (set_state MSGSTATE_RECT_HEADER r) [framebufferUpdateStart]
  end.

Lemma shape_update r : cr_state r = MSGSTATE_MESSAGE -> cr_currentMsgType r = msgTypeFramebufferUpdate ->
  creader_ok r -> shape creader_ok cmu readMsg' r.
Proof.
  intros Hst Ht Hi. pose proof Hi as (Hs & Hr & Hd & _).
  apply (shape_field _ _ _ _ 3 (update_header r)); [done|done| | | | |]; unfold update_header; cbv zeta;
    (destruct (handle (cr_server r) framebufferUpdateStart) as [server|e0] eqn:He;
      [apply handle_wf in He as Hwf; [|done]|apply handle_ordinary in He as Hoe]).
  2, 4, 6, 8: try congruence.
  2: (intros f e _ _ [= <-]; exact Hoe).
  - intros f e _ _. case_test; [|done]. destruct (handle server framebufferUpdateEnd) as [|e1] eqn:He1; [done|].
    intros [= <-]. by eapply handle_ordinary.
  - intros f l' evs _ _. case_test; [|done].
    destruct (handle server framebufferUpdateEnd) as [server'|e1] eqn:He1; [|done]. intros [= <- <-].
    split; [|unfold cmu at 1; cbn; lia]. split_and!; cbn; [by eapply handle_wf|done|done|done].
  - intros f l' evs _ _. case_test; [by destruct (handle server framebufferUpdateEnd)|].
    intros [= <- <-]. unfold cmu at 1. cbn. lia.
  - intros f l' evs _ _. case_test; [by destruct (handle server framebufferUpdateEnd)|].
    intros [= <- <-]. apply shape_rect_header; [done|]. by split_and!.
  - intros d. rewrite readMsg_update by done. unfold read_update, outcome, fresh.
    destruct (Z.leb_spec 3 (len d)) as [Hl|Hl]; [|short_data].
    rewrite <- (ztake_zdrop 3 d) at 1.
    assert (len (ztake 3 d) = 3) as Hf by (apply len_ztake; lia).
    set (f := ztake 3 d) in *. set (d' := zdrop 3 d) in *. prog_simpl.
    rewrite arun_has_enough by llia. do 2 rewrite arun_take_front by (rewrite ?len_zdrop_max by lia; lia).
    rewrite (zdrop_all 2) by (rewrite !len_zdrop_max by lia; lia).
    unfold done_call. prog_simpl. cbn [through]. rewrite He. unfold mbind, prog_mbind, mret, prog_mret. cbn [through prog_bind default].
    rewrite arun_emit.
    case_test.
    + cbn [snd cr_server set_rects_left set_server].
      destruct (handle server framebufferUpdateEnd) as [server'|e1] eqn:He1; reflexivity.
    + rewrite readMsg_rect_header by done. change (1 + 2 - 1 - 2) with 0. cbn [app snd].
      destruct (arun (read_rect_header _) _) as [[[? [? [|] ?]] ?]|]; done.
  - intros d. rewrite readMsg_update by done. unfold read_update, outcome, fresh.
    destruct (Z.leb_spec 3 (len d)) as [Hl|Hl]; [|short_data].
    prog_simpl. rewrite arun_has_enough, !arun_take by (rewrite ?len_zdrop_max by lia; lia).
    unfold done_call. prog_simpl. cbn [through]. by rewrite He.
Qed.

(** *** Messages, whatever a compressed message may do *)

Section messages.
Context {P : Policy}.
Hypothesis hang_ok : forall z behind, piece z -> z_end (inflate z) = z_stops behind -> fault (endless z).

Lemma guarded_readServerBody t : guarded (eq true) false Clean 0 (readBody maxCutText inflate t).
Proof.
  unfold readBody.
  case_test; [apply guarded_returning, guarded_readSetColourMapEntries|].
  case_test; [by apply guarded_returning, guarded_done_call; left|].
  case_test; [by apply guarded_readCutTextMsg|].
  case_test; [apply guarded_readFenceMsg|].
  case_test; [by apply guarded_returning, guarded_done_call; left|].
  case_test; [apply guarded_returning, guarded_readQEMUServerMessage|].
  apply g_raise, fault_ordinary. exact I.
Qed.

Lemma shape_message_state r : cr_state r = MSGSTATE_MESSAGE -> creader_ok r -> shape creader_ok cmu readMsg' r.
Proof.
  intros Hst Hi. destruct (Z.eq_dec (cr_currentMsgType r) msgTypeFramebufferUpdate) as [Ht|Ht];
    [by apply shape_returning, shape_update|].
  apply completed_message; [unfold cmu; rewrite Hst; lia|done|]. unfold readMsg', readMsg, read_message.
  rewrite Hst, (proj2 (Z.eqb_neq _ _) Ht). cbn [negb]. destruct Hi as (Hs & Hr & Hd & _).
  eapply (guarded_map known_wf completed (false, cr_server r) (false, r) (to_idle r)).
  - unfold to_idle. cbn. by rewrite set_server_same.
  - intros [ok server] [Hok Hs']. cbn in Hok. subst ok. by split_and!.
  - by apply guarded_through, guarded_readServerBody.
Qed.

Lemma readMsg_states r : creader_ok r -> shape creader_ok cmu (readMsg maxCutText inflate) r.
Proof.
  intros Hi. destruct (cr_state r) eqn:Hst.
  - apply (shape_field _ _ _ _ 1 (fun f => FGo (CReader MSGSTATE_MESSAGE (znth 0 f 0) (nUpdateRectsLeft r)
      (cr_dataRect r) (rectEncoding r) (cursorEncoding r) (cr_server r) (cr_decoder r)) [])); [done..| | |].
    + intros f l' evs _ _ [= <- <-]. unfold cmu. cbn. lia.
    + intros f l' evs _ _ [= <- <-]. apply shape_message_state; [done|]. destruct Hi as (? & ? & ? & _). by split_and!.
    + intros d. unfold outcome at 1, fresh, readMsg at 1. rewrite Hst.
      destruct (Z.leb_spec 1 (len d)) as [Hl|Hl]; [|short_data].
      prog_simpl. rewrite arun_has_enough, arun_take by lia. rewrite prepend_nil. done.
  - by apply shape_message_state.
  - by apply shape_returning, shape_rect_header.
  - by apply shape_returning, shape_rect_data.
Qed.
End messages.
End discipline.


(** C10: how the network cuts the stream does not matter to the client: on any
    bytes, the loop run after each piece makes the handler calls, and ends in
    the state and with the unread bytes, of the loop run once on all of them,
    even where a piece ends within a rectangle a decoder has half read. *)
Theorem CMsgReader_segmentation (maxCutText : Z) (inflate : list Z -> zseg) (handler : CMsgHandler)
    (decoders : RectDecoder) (r r' : creader) (d d' : list Z) (chunks : list (list Z)) (evs : list cevent) :
  creader_ok r -> bytes d -> Forall bytes chunks ->
  feeds (readMsg maxCutText inflate) r d chunks r' d' evs <->
  drains (readMsg maxCutText inflate) r (d ++ concat chunks) r' d' evs.
Proof.
  intros Hr Hd Hc.
  assert (forall l, creader_ok l -> shape (P := hanging) creader_ok cmu (readMsg maxCutText inflate) l) as Hs
    by (intros l Hl; apply readMsg_states; [apply hang_hanging|done]).
  split; [apply (feeds_concat creader_ok); [by apply (resumable_messages (P := hanging) _ cmu)|done..]|].
  by apply (feeds_of_drains (P := hanging) creader_ok cmu).
Qed.

(** *** A client *)

Lemma keep_wf (s : ServerParams) (ev : cevent) s' : server_wf s -> Ok s = Ok s' -> server_wf s'.
Proof. by intros ? [= <-]. Qed.
Lemma keep_ordinary (s : ServerParams) (ev : cevent) e : Ok s = Throw e -> ordinary e.
Proof. done. Qed.

(** A handler that leaves the server record alone, over decoder threads that
    take the bytes of a rectangle for its pixels. *)
#[local] Instance keep_handler : CMsgHandler :=
  {| handle s _ := Ok s; handle_wf := keep_wf; handle_ordinary := keep_ordinary |}.
#[local] Instance copy_decoders : RectDecoder :=
  DecodeManager false (fun _ _ _ data => Ok data) (fun _ _ _ _ _ H => ltac:(discriminate H)).

(** A reader before its first message, on a server with a framebuffer of 8 by 2
    pixels of 32 bits. *)
Definition some_server : ServerParams :=
  MkServer (MkCommon 8 2 [] rgbaPF [] (MkCursor 0 0 (MkPoint 0 0) []) ledUnknown 0 (replicate 16 0))
    3 8 false false false false false false.
Definition some_reader : creader :=
  CReader MSGSTATE_IDLE 0 0 (rect 0 0 0 0) 0 (-1) some_server (Manager None [] (MkPoint 0 0) T_IDLE 0).

(** An update of a Hextile and of a Tight rectangle, and a bell behind it. *)
Definition some_update : list Z :=
  [0; 0; 0; 2] ++ [0; 0; 0; 0; 0; 2; 0; 1] ++ [0; 0; 0; 5] ++ [2; 10; 20; 30; 40] ++
  [0; 1; 0; 0; 0; 3; 0; 2] ++ [0; 0; 0; 7] ++ [0x80; 1; 2; 3; 4] ++ [2].
Definition some_events : list cevent :=
  [framebufferUpdateStart; dataRect (rect 0 0 2 1) 5 [2; 10; 20; 30; 40]] ++
  [dataRect (rect 1 0 4 2) 7 [0x80; 1; 2; 3; 4]; framebufferUpdateEnd] ++ [bell].
Definition some_state (st : cstate) (t left : Z) (r : Rect) (e : Z) (queue : list Z) : creader :=
  CReader st t left r e (-1) some_server (Manager None queue (MkPoint 0 0) T_IDLE 0).

Lemma some_reader_ok : creader_ok some_reader.
Proof. unfold creader_ok, server_wf, rect_nonneg, width, height. cbn. split_and!; try done; auto. Qed.


Lemma CMsgReader_segmentation_witness :
  feeds (readMsg 100 stored) some_reader (ztake 18 some_update)
    [ztake 15 (zdrop 18 some_update); []; zdrop 33 some_update]
    (some_state MSGSTATE_IDLE 2 0 (rect 1 0 4 2) 7 [0x80; 1; 2; 3; 4]) [] some_events.
Proof.
  apply (CMsgReader_segmentation 100 stored keep_handler copy_decoders); [exact some_reader_ok
    |by apply bytes_decide|repeat (constructor; [by apply bytes_decide|]); constructor|].
  change (ztake 18 some_update ++ _) with some_update. unfold some_events.
  apply (drain_step _ _ _ (some_state MSGSTATE_RECT_HEADER 0 1 (rect 0 0 2 1) 5 [2; 10; 20; 30; 40]) (zdrop 21 some_update));
    [reflexivity|].
  apply (drain_step _ _ _ (some_state MSGSTATE_IDLE 0 0 (rect 1 0 4 2) 7 [0x80; 1; 2; 3; 4]) [2]); [reflexivity|].
  apply (drain_step _ _ _ (some_state MSGSTATE_IDLE 2 0 (rect 1 0 4 2) 7 [0x80; 1; 2; 3; 4]) [] [bell] _ _ []); [reflexivity|]. by apply drain_stop.
Defined.
