(* ===== verification/ServerWriter.v ===== *)
(** * Messages from the server to the client, sent ([rfb/SMsgWriter.cxx])

    [SMsgWriter] queues the parts of a framebuffer update that carry no pixels
    (cursor, desktop name and size, LED state) and writes them in front of, or
    behind, the rectangles of the next update, whose header announces how many
    rectangles follow.  An operation takes the writer's state and gives the new
    one with the bytes it has written, or the exception it throws. *)
From stdpp Require Import base gmap list numbers strings option.
From S2P Require Import Prelude InStream OutStream Strings PixelFmt Geometry Screens Params Cursors Clipboard ServerMsgs.
#[local] Open Scope Z_scope.

Record swriter := SWriter {
  nRectsInUpdate : Z;
  nRectsInHeader : Z;
  needSetDesktopName : bool;
  needCursor : bool;
  needCursorPos : bool;
  needLEDState : bool;
  needQEMUKeyEvent : bool;
  needExtMouseButtonsEvent : bool;
  extendedDesktopSizeMsgs : list (Z * Z)   (* reason, result *)
}.

Definition init_writer : swriter := SWriter 0 0 false false false false false false [].

(** ** Operations in sequence *)

Definition W : Type := swriter -> res (swriter * list Z).

Definition put (bs : list Z) : W := fun s => Ok (s, bs).
Definition modify (f : swriter -> swriter) : W := fun s => Ok (f s, []).
Definition throw (e : exn) : W := fun _ => Throw e.
Definition nothing : W := put [].
(** [if (b(s)) throw e;] *)
Definition refuse (b : swriter -> bool) (e : exn) : W := fun s => if b s then Throw e else Ok (s, []).
Definition when (b : swriter -> bool) (w : W) : W := fun s => if b s then w s else Ok (s, []).

Definition andthen (a b : W) : W := fun s =>
  match a s with
  | Throw e => Throw e
  | Ok (s1, o1) => match b s1 with Throw e => Throw e | Ok (s2, o2) => Ok (s2, o1 ++ o2) end
  end.
Infix "&>" := andthen (at level 58, right associativity) : vnc_scope.

Definition set_counts (inUpdate inHeader : Z) (s : swriter) : swriter :=
  SWriter inUpdate inHeader (needSetDesktopName s) (needCursor s) (needCursorPos s) (needLEDState s)
    (needQEMUKeyEvent s) (needExtMouseButtonsEvent s) (extendedDesktopSizeMsgs s).
Definition set_needSetDesktopName (b : bool) (s : swriter) : swriter :=
  SWriter (nRectsInUpdate s) (nRectsInHeader s) b (needCursor s) (needCursorPos s) (needLEDState s)
    (needQEMUKeyEvent s) (needExtMouseButtonsEvent s) (extendedDesktopSizeMsgs s).
Definition set_needCursor (b : bool) (s : swriter) : swriter :=
  SWriter (nRectsInUpdate s) (nRectsInHeader s) (needSetDesktopName s) b (needCursorPos s) (needLEDState s)
    (needQEMUKeyEvent s) (needExtMouseButtonsEvent s) (extendedDesktopSizeMsgs s).
Definition set_needCursorPos (b : bool) (s : swriter) : swriter :=
  SWriter (nRectsInUpdate s) (nRectsInHeader s) (needSetDesktopName s) (needCursor s) b (needLEDState s)
    (needQEMUKeyEvent s) (needExtMouseButtonsEvent s) (extendedDesktopSizeMsgs s).
Definition set_needLEDState (b : bool) (s : swriter) : swriter :=
  SWriter (nRectsInUpdate s) (nRectsInHeader s) (needSetDesktopName s) (needCursor s) (needCursorPos s) b
    (needQEMUKeyEvent s) (needExtMouseButtonsEvent s) (extendedDesktopSizeMsgs s).
Definition set_needQEMUKeyEvent (b : bool) (s : swriter) : swriter :=
  SWriter (nRectsInUpdate s) (nRectsInHeader s) (needSetDesktopName s) (needCursor s) (needCursorPos s) (needLEDState s)
    b (needExtMouseButtonsEvent s) (extendedDesktopSizeMsgs s).
Definition set_needExtMouseButtonsEvent (b : bool) (s : swriter) : swriter :=
  SWriter (nRectsInUpdate s) (nRectsInHeader s) (needSetDesktopName s) (needCursor s) (needCursorPos s) (needLEDState s)
    (needQEMUKeyEvent s) b (extendedDesktopSizeMsgs s).
Definition set_sizeMsgs (l : list (Z * Z)) (s : swriter) : swriter :=
  SWriter (nRectsInUpdate s) (nRectsInHeader s) (needSetDesktopName s) (needCursor s) (needCursorPos s) (needLEDState s)
    (needQEMUKeyEvent s) (needExtMouseButtonsEvent s) l.

Section SMsgWriter.
Context (client : ClientParams) (deflate : list Z -> list Z).

Definition supports (encoding : Z) : bool := supportsEncoding client encoding.
Definition supports_any (encodings : list Z) : bool := existsb supports encodings.
(** [if (!client->supportsEncoding(...)) throw std::logic_error(what);] *)
Definition demand (encodings : list Z) (what : string) : W :=
  refuse (fun _ => negb (supports_any encodings)) (logic_error what).

(** ** Messages of their own *)

Definition writeServerInit (width height : Z) (pf : PixelFormat) (name : list Z) : list Z :=
  writeU16 width ++ writeU16 height ++ pf_write pf ++ writeU32 (len name) ++ writeBytes name.

(** [rgbs]: the three components of each of the [nColours] entries. *)
Definition writeSetColourMapEntries (firstColour nColours : Z) (red green blue : Z -> Z) : W :=
  put (writeU8 msgTypeSetColourMapEntries ++ pad 1 ++ writeU16 firstColour ++ writeU16 nColours ++
       concat (map (fun i => writeU16 (red i) ++ writeU16 (green i) ++ writeU16 (blue i)) (seqZ firstColour nColours))).

Definition writeBell : W := put (writeU8 msgTypeBell).

Definition writeServerCutText (str : list Z) : W := fun s =>
  match writeCutTextMsg msgTypeServerCutText str with Ok bs => Ok (s, bs) | Throw e => Throw e end.

Definition writeClipboardCaps (caps : Z) (lengths : list Z) : W :=
  demand [pseudoEncodingExtendedClipboard] "Client does not support extended clipboard" &>
  put (writeCapsMsg msgTypeServerCutText caps lengths).

Definition demand_action (action : Z) (what : string) : W :=
  demand [pseudoEncodingExtendedClipboard] "Client does not support extended clipboard" &>
  refuse (fun _ => negb (z2b (Z.land (clipFlags (cp client)) action))) (logic_error what).

Definition writeClipboardRequest (flags : Z) : W :=
  demand_action clipboardRequest "Client does not support clipboard request action" &>
  put (writeActionMsg msgTypeServerCutText flags clipboardRequest).
Definition writeClipboardPeek (flags : Z) : W :=
  demand_action clipboardPeek "Client does not support clipboard peek action" &>
  put (writeActionMsg msgTypeServerCutText flags clipboardPeek).
Definition writeClipboardNotify (flags : Z) : W :=
  demand_action clipboardNotify "Client does not support clipboard notify action" &>
  put (writeActionMsg msgTypeServerCutText flags clipboardNotify).
Definition writeClipboardProvide (flags : Z) (buffers : list (list Z)) : W :=
  demand_action clipboardProvide "Client does not support clipboard provide action" &>
  put (writeProvideMsg deflate msgTypeServerCutText flags buffers).

Definition writeFence (flags : Z) (data : list Z) : W :=
  demand [pseudoEncodingFence] "Client does not support fences" &>
  refuse (fun _ => len data >? 64) (out_of_range "Too large fence payload") &>
  refuse (fun _ => negb (Z.land flags (Z.lnot fenceFlagsSupported) =? 0)) (invalid_argument "Unknown fence flags") &>
  put (writeFenceMsg msgTypeServerFence flags data).

Definition writeEndOfContinuousUpdates : W :=
  demand [pseudoEncodingContinuousUpdates] "Client does not support continuous updates" &>
  put (writeU8 msgTypeEndOfContinuousUpdates).

(** ** What waits for the next update *)

Definition writeDesktopSize (reason result : Z) : W :=
  demand [pseudoEncodingDesktopSize; pseudoEncodingExtendedDesktopSize] "Client does not support desktop size changes" &>
  modify (fun s => set_sizeMsgs (extendedDesktopSizeMsgs s ++ [(reason, result)]) s).

Definition writeSetDesktopName : W :=
  demand [pseudoEncodingDesktopName] "Client does not support desktop name changes" &>
  modify (set_needSetDesktopName true).

Definition writeCursor : W :=
  demand [pseudoEncodingCursor; pseudoEncodingXCursor; pseudoEncodingCursorWithAlpha; pseudoEncodingVMwareCursor]
    "Client does not support local cursor" &>
  modify (set_needCursor true).

Definition writeCursorPos : W :=
  demand [pseudoEncodingVMwareCursorPosition] "Client does not support cursor position" &>
  modify (set_needCursorPos true).

Definition demand_led_known (what : string) : W :=
  refuse (fun _ => ledState_ (cp client) =? ledUnknown) (logic_error what).

Definition writeLEDState : W :=
  demand [pseudoEncodingLEDState; pseudoEncodingVMwareLEDState] "Client does not support LED state" &>
  demand_led_known "Server has not specified LED state" &>
  modify (set_needLEDState true).

Definition writeQEMUKeyEvent : W :=
  demand [pseudoEncodingQEMUKeyEvent] "Client does not support QEMU key events" &>
  modify (set_needQEMUKeyEvent true).

Definition writeExtendedMouseButtonsSupport : W :=
  demand [pseudoEncodingExtendedMouseButtons] "Client does not support Extended Mouse Buttons" &>
  modify (set_needExtMouseButtonsEvent true).

Definition needNoDataUpdate (s : swriter) : bool := negb (bool_decide (extendedDesktopSizeMsgs s = [])).

Definition needFakeUpdate (s : swriter) : bool :=
  needSetDesktopName s || needCursor s || needCursorPos s || needLEDState s || needQEMUKeyEvent s ||
  needExtMouseButtonsEvent s || needNoDataUpdate s.

(** ** Rectangles *)

(** [if (++nRectsInUpdate > nRectsInHeader && nRectsInHeader) throw ...;] *)
Definition count_rect (what : string) : W :=
  modify (fun s => set_counts (nRectsInUpdate s + 1) (nRectsInHeader s) s) &>
  refuse (fun s => (nRectsInUpdate s >? nRectsInHeader s) && z2b (nRectsInHeader s)) (logic_error what).

Definition rect_header_bytes (x y w h encoding : Z) : list Z :=
  writeS16 x ++ writeS16 y ++ writeU16 w ++ writeU16 h ++ writeU32 encoding.

Definition startRect (r : Rect) (encoding : Z) : W :=
  count_rect "SMsgWriter::startRect: nRects out of sync" &>
  put (rect_header_bytes (px (tl r)) (py (tl r)) (width r) (height r) encoding).

Definition writeCopyRect (r : Rect) (srcX srcY : Z) : W :=
  startRect r 1 &> put (writeU16 srcX ++ writeU16 srcY).

Definition writeSetDesktopSizeRect (width height : Z) : W :=
  demand [pseudoEncodingDesktopSize] "Client does not support desktop resize" &>
  count_rect "SMsgWriter::writeSetDesktopSizeRect: nRects out of sync" &>
  put (rect_header_bytes 0 0 width height pseudoEncodingDesktopSize).

Definition screen_bytes (s : Screen) : list Z :=
  writeU32 (scr_id s) ++
  writeU16 (px (tl (scr_dims s))) ++ writeU16 (py (tl (scr_dims s))) ++
  writeU16 (width (scr_dims s)) ++ writeU16 (height (scr_dims s)) ++
  writeU32 (scr_flags s).

Definition writeExtendedDesktopSizeRect (reason result fb_width fb_height : Z) (layout : list Screen) : W :=
  demand [pseudoEncodingExtendedDesktopSize] "Client does not support extended desktop resize" &>
  count_rect "SMsgWriter::writeExtendedDesktopSizeRect: nRects out of sync" &>
  put (writeU16 reason ++ writeU16 result ++ writeU16 fb_width ++ writeU16 fb_height ++
       writeU32 pseudoEncodingExtendedDesktopSize ++
       writeU8 (num_screens layout) ++ pad 3 ++ concat (map screen_bytes layout)).

Definition writeSetDesktopNameRect (name : list Z) : W :=
  demand [pseudoEncodingDesktopName] "Client does not support desktop rename" &>
  count_rect "SMsgWriter::writeSetDesktopNameRect: nRects out of sync" &>
  put (rect_header_bytes 0 0 0 0 pseudoEncodingDesktopName ++ writeU32 (len name) ++ writeBytes name).

(** [data] and [mask] hold what [writeBytes] takes of them. *)
Definition writeSetCursorRect (width height hotspotX hotspotY : Z) (data mask : list Z) : W :=
  demand [pseudoEncodingCursor] "Client does not support local cursors" &>
  count_rect "SMsgWriter::writeSetCursorRect: nRects out of sync" &>
  put (rect_header_bytes hotspotX hotspotY width height pseudoEncodingCursor ++
       ztake (width * height * (bpp (pf_ (cp client)) / 8)) data ++ ztake ((width + 7) / 8 * height) mask).

Definition writeSetXCursorRect (width height hotspotX hotspotY : Z) (data mask : list Z) : W :=
  demand [pseudoEncodingXCursor] "Client does not support local cursors" &>
  count_rect "SMsgWriter::writeSetXCursorRect: nRects out of sync" &>
  put (rect_header_bytes hotspotX hotspotY width height pseudoEncodingXCursor ++
       if width * height >? 0 then
         writeU8 255 ++ writeU8 255 ++ writeU8 255 ++ writeU8 0 ++ writeU8 0 ++ writeU8 0 ++
         ztake ((width + 7) / 8 * height) data ++ ztake ((width + 7) / 8 * height) mask
       else []).

(** The colours multiplied with alpha. *)
Fixpoint premultiply (n : nat) (data : list Z) : list Z :=
  match n with
  | O => []
  | S n =>
      let a := znth 0 data 3 in
      writeU8 (znth 0 data 0 * a / 255) ++ writeU8 (znth 0 data 1 * a / 255) ++
      writeU8 (znth 0 data 2 * a / 255) ++ writeU8 a ++ premultiply n (zdrop 4 data)
  end.

Definition writeSetCursorWithAlphaRect (width height hotspotX hotspotY : Z) (data : list Z) : W :=
  demand [pseudoEncodingCursorWithAlpha] "Client does not support local cursors" &>
  count_rect "SMsgWriter::writeSetCursorWithAlphaRect: nRects out of sync" &>
  put (rect_header_bytes hotspotX hotspotY width height pseudoEncodingCursorWithAlpha ++
       writeU32 encodingRaw ++ premultiply (Z.to_nat (width * height)) data).

Definition writeSetVMwareCursorRect (width height hotspotX hotspotY : Z) (data : list Z) : W :=
  demand [pseudoEncodingVMwareCursor] "Client does not support local cursors" &>
  count_rect "SMsgWriter::writeSetVMwareCursorRect: nRects out of sync" &>
  put (rect_header_bytes hotspotX hotspotY width height pseudoEncodingVMwareCursor ++
       writeU8 1 ++ pad 1 ++ ztake (width * height * 4) data).

Definition writeSetVMwareCursorPositionRect (hotspotX hotspotY : Z) : W :=
  demand [pseudoEncodingVMwareCursorPosition] "Client does not support cursor position" &>
  count_rect "SMsgWriter::writeSetVMwareCursorRect: nRects out of sync" &>
  put (rect_header_bytes hotspotX hotspotY 0 0 pseudoEncodingVMwareCursorPosition).

(** [state] is a [uint8_t]. *)
Definition writeLEDStateRect (state : Z) : W :=
  demand [pseudoEncodingLEDState; pseudoEncodingVMwareLEDState] "Client does not support LED state updates" &>
  demand_led_known "Server does not support LED state updates" &>
  count_rect "SMsgWriter::writeLEDStateRect: nRects out of sync" &>
  put (writeS16 0 ++ writeS16 0 ++ writeU16 0 ++ writeU16 0 ++
       if supports pseudoEncodingLEDState
       then writeU32 pseudoEncodingLEDState ++ writeU8 (u8 state)
       else writeU32 pseudoEncodingVMwareLEDState ++ writeU32 (u8 state)).

Definition writeQEMUKeyEventRect : W :=
  demand [pseudoEncodingQEMUKeyEvent] "Client does not support QEMU extended key events" &>
  count_rect "SMsgWriter::writeQEMUKeyEventRect: nRects out of sync" &>
  put (rect_header_bytes 0 0 0 0 pseudoEncodingQEMUKeyEvent).

Definition writeExtendedMouseButtonsRect : W :=
  demand [pseudoEncodingExtendedMouseButtons] "Client does not support extended mouse button events" &>
  count_rect "SMsgWriter::writeExtendedMouseButtonsRect: nRects out of sync" &>
  put (rect_header_bytes 0 0 0 0 pseudoEncodingExtendedMouseButtons).

(** ** Updates *)

(** The colours of a cursor in the client's pixel format. *)
Fixpoint cursor_pixels (pf : PixelFormat) (n : nat) (data : list Z) : list Z :=
  match n with
  | O => []
  | S n => bufferFromRGB pf (replicate 4 0) (ztake 3 data) 1 ++ cursor_pixels pf n (zdrop 4 data)
  end.

Definition write_cursor_rect : W :=
  let cursor := cursor_ (cp client) in
  let w := cur_width cursor in
  let h := cur_height cursor in
  let x := px (cur_hotspot cursor) in
  let y := py (cur_hotspot cursor) in
  if supports pseudoEncodingCursorWithAlpha then writeSetCursorWithAlphaRect w h x y (cur_data cursor)
  else if supports pseudoEncodingVMwareCursor then writeSetVMwareCursorRect w h x y (cur_data cursor)
  else if supports pseudoEncodingCursor then
    writeSetCursorRect w h x y (cursor_pixels (pf_ (cp client)) (Z.to_nat (w * h)) (cur_data cursor)) (getMask cursor)
  else if supports pseudoEncodingXCursor then writeSetXCursorRect w h x y (getBitmap cursor) (getMask cursor)
  else throw (logic_error "Client does not support local cursor").

Definition write_position_rect : W :=
  if supports pseudoEncodingVMwareCursorPosition
  then writeSetVMwareCursorPositionRect (px (cursorPos_ client)) (py (cursorPos_ client))
  else throw (logic_error "Client does not support cursor position").

Definition writePseudoRects : W :=
  when needCursor (write_cursor_rect &> modify (set_needCursor false)) &>
  when needCursorPos (write_position_rect &> modify (set_needCursorPos false)) &>
  when needSetDesktopName (writeSetDesktopNameRect (name_ (cp client)) &> modify (set_needSetDesktopName false)) &>
  when needLEDState (writeLEDStateRect (ledState_ (cp client)) &> modify (set_needLEDState false)) &>
  when needQEMUKeyEvent (writeQEMUKeyEventRect &> modify (set_needQEMUKeyEvent false)) &>
  when needExtMouseButtonsEvent (writeExtendedMouseButtonsRect &> modify (set_needExtMouseButtonsEvent false)).

Fixpoint size_rects (msgs : list (Z * Z)) : W :=
  match msgs with
  | [] => nothing
  | (reason, result) :: msgs =>
      writeExtendedDesktopSizeRect reason result (width_ (cp client)) (height_ (cp client)) (screenLayout_ (cp client)) &>
      size_rects msgs
  end.

Definition writeNoDataRects : W := fun s =>
  if bool_decide (extendedDesktopSizeMsgs s = []) then Ok (s, [])
  else
    ((if supports pseudoEncodingExtendedDesktopSize then size_rects (extendedDesktopSizeMsgs s)
      else if supports pseudoEncodingDesktopSize then writeSetDesktopSizeRect (width_ (cp client)) (height_ (cp client))
      else throw (logic_error "Client does not support desktop size changes")) &>
     modify (set_sizeMsgs [])) s.

(** The number in the header. *)
Definition announced (nRects : Z) (s : swriter) : Z :=
  if negb (nRects =? 0xFFFF) then
    nRects + b2z (needSetDesktopName s) + b2z (needCursor s) + b2z (needCursorPos s) + b2z (needLEDState s) +
    b2z (needQEMUKeyEvent s) + b2z (needExtMouseButtonsEvent s)
  else nRects.

Definition writeFramebufferUpdateStart (nRects : Z) : W := fun s =>
  let n := announced nRects s in
  (put (writeU8 msgTypeFramebufferUpdate ++ pad 1 ++ writeU16 n) &>
   modify (set_counts 0 (if n =? 0xFFFF then 0 else n)) &>
   writePseudoRects) s.

Definition writeFramebufferUpdateEnd : W :=
  refuse (fun s => negb (nRectsInUpdate s =? nRectsInHeader s) && z2b (nRectsInHeader s))
    (logic_error "SMsgWriter::writeFramebufferUpdateEnd: nRects out of sync") &>
  when (fun s => nRectsInHeader s =? 0) (put (rect_header_bytes 0 0 0 0 pseudoEncodingLastRect)).

Definition writeNoDataUpdate : W := fun s =>
  let nRects :=
    if bool_decide (extendedDesktopSizeMsgs s = []) then 0
    else if supports pseudoEncodingExtendedDesktopSize then len (extendedDesktopSizeMsgs s) else 1 in
  (writeFramebufferUpdateStart nRects &> writeNoDataRects &> writeFramebufferUpdateEnd) s.
End SMsgWriter.

(** Rectangles, each with its encoding and its data, the way an encoder writes
    them; and an update made of them, the way [EncodeManager::doUpdate] makes
    it: the number of rectangles is announced unless the client can be told
    where they end. *)
Fixpoint write_rects (rects : list (Rect * Z * list Z)) : W :=
  match rects with
  | [] => nothing
  | (r, encoding, data) :: rects => startRect r encoding &> put data &> write_rects rects
  end.

Definition write_update (client : ClientParams) (rects : list (Rect * Z * list Z)) : W :=
  writeFramebufferUpdateStart client (if supports client pseudoEncodingLastRect then 0xFFFF else len rects) &>
  write_rects rects &> writeFramebufferUpdateEnd.

(** The calls of [SMsgWriter], an update as one of them. *)
Inductive smsg :=
| SetColourMapEntries (firstColour nColours : Z) (red green blue : Z -> Z)
| Bell
| ServerCutText (str : list Z)
| ClipboardCaps (caps : Z) (lengths : list Z)
| ClipboardRequest (flags : Z)
| ClipboardPeek (flags : Z)
| ClipboardNotify (flags : Z)
| ClipboardProvide (flags : Z) (buffers : list (list Z))
| ServerFence (flags : Z) (data : list Z)
| EndOfContinuousUpdates
| DesktopSize (reason result : Z)
| SetDesktopName
| CursorChange
| CursorPosChange
| LEDStateChange
| QEMUKeyEvent
| ExtendedMouseButtonsSupport
| NoDataUpdate
| Update (rects : list (Rect * Z * list Z)).

Definition write_smsg (client : ClientParams) (deflate : list Z -> list Z) (m : smsg) : W :=
  match m with
  | SetColourMapEntries firstColour nColours red green blue => writeSetColourMapEntries firstColour nColours red green blue
  | Bell => writeBell
  | ServerCutText str => writeServerCutText str
  | ClipboardCaps caps lengths => writeClipboardCaps client caps lengths
  | ClipboardRequest flags => writeClipboardRequest client flags
  | ClipboardPeek flags => writeClipboardPeek client flags
  | ClipboardNotify flags => writeClipboardNotify client flags
  | ClipboardProvide flags buffers => writeClipboardProvide client deflate flags buffers
  | ServerFence flags data => writeFence client flags data
  | EndOfContinuousUpdates => writeEndOfContinuousUpdates client
  | DesktopSize reason result => writeDesktopSize client reason result
  | SetDesktopName => writeSetDesktopName client
  | CursorChange => writeCursor client
  | CursorPosChange => writeCursorPos client
  | LEDStateChange => writeLEDState client
  | QEMUKeyEvent => writeQEMUKeyEvent client
  | ExtendedMouseButtonsSupport => writeExtendedMouseButtonsSupport client
  | NoDataUpdate => writeNoDataUpdate client
  | Update rects => write_update client rects
  end.

(** ** The writer keeps its promises *)

Section invariant.
Context (client : ClientParams) (deflate : list Z -> list Z).

(** What waits for an update is something the client can take. *)
Definition writer_ok (s : swriter) : Prop :=
  (needSetDesktopName s = true -> supports client pseudoEncodingDesktopName = true) /\
  (needCursor s = true -> supports_any client
     [pseudoEncodingCursor; pseudoEncodingXCursor; pseudoEncodingCursorWithAlpha; pseudoEncodingVMwareCursor] = true) /\
  (needCursorPos s = true -> supports client pseudoEncodingVMwareCursorPosition = true) /\
  (needLEDState s = true -> supports_any client [pseudoEncodingLEDState; pseudoEncodingVMwareLEDState] = true /\
     ledState_ (cp client) <> ledUnknown) /\
  (needQEMUKeyEvent s = true -> supports client pseudoEncodingQEMUKeyEvent = true) /\
  (needExtMouseButtonsEvent s = true -> supports client pseudoEncodingExtendedMouseButtons = true) /\
  (extendedDesktopSizeMsgs s <> [] ->
     supports_any client [pseudoEncodingDesktopSize; pseudoEncodingExtendedDesktopSize] = true).

(** [w] keeps [writer_ok], where it does not throw. *)
Definition keeps (w : W) : Prop := forall s s' bs, writer_ok s -> w s = Ok (s', bs) -> writer_ok s'.

Lemma keeps_put bs : keeps (put bs).
Proof. by intros s s' bs' Hs [= <- _]. Qed.
Lemma keeps_throw e : keeps (throw e).
Proof. done. Qed.
Lemma keeps_refuse b e : keeps (refuse b e).
Proof. intros s s' bs Hs. unfold refuse. case_match; [done|]. by intros [= <- _]. Qed.
Lemma keeps_andthen a b : keeps a -> keeps b -> keeps (a &> b).
Proof.
  intros Ha Hb s s' bs Hs. unfold andthen. destruct (a s) as [[s1 o1]|e] eqn:H1; [|done].
  destruct (b s1) as [[s2 o2]|e] eqn:H2; [|done]. intros [= <- _]. eauto.
Qed.
Lemma keeps_when b w : keeps w -> keeps (when b w).
Proof. intros Hw s s' bs Hs. unfold when. case_match; [by apply Hw|]. by intros [= <- _]. Qed.
Lemma keeps_modify f : (forall s, writer_ok s -> writer_ok (f s)) -> keeps (modify f).
Proof. intros Hf s s' bs Hs [= <- _]. auto. Qed.
Lemma keeps_count what : keeps (count_rect what).
Proof. apply keeps_andthen; [by apply keeps_modify|apply keeps_refuse]. Qed.
(** A test, and what it allows. *)
Lemma keeps_demand encodings what w : (supports_any client encodings = true -> keeps w) ->
  keeps (demand client encodings what &> w).
Proof.
  intros Hw s s' bs Hs. unfold andthen, demand, refuse. destruct (supports_any client encodings) eqn:He; cbn; [|done].
  destruct (w s) as [[s2 o2]|e] eqn:H2; [|done]. intros [= <- _]. by eapply Hw.
Qed.
Lemma keeps_led what w : (ledState_ (cp client) <> ledUnknown -> keeps w) -> keeps (demand_led_known client what &> w).
Proof.
  intros Hw s s' bs Hs. unfold andthen, demand_led_known, refuse. case_test; [done|].
  destruct (w s) as [[s2 o2]|e] eqn:H2; [|done]. intros [= <- _]. by eapply Hw.
Qed.
End invariant.

Create HintDb keeps discriminated.
#[export] Hint Resolve keeps_put keeps_throw keeps_refuse keeps_andthen keeps_when keeps_count : keeps.
#[export] Hint Extern 2 (keeps _ (demand _ _ _ &> _)) => apply keeps_demand; intros ? : keeps.
#[export] Hint Extern 2 (keeps _ (demand_led_known _ _ &> _)) => apply keeps_led; intros ? : keeps.

(** A change of one field: what the field stands for is known to be supported. *)
Ltac keeps_field :=
  apply keeps_modify; unfold writer_ok; intros ?s (?&?&?&?&?&?&?); cbn in *; split_and!; auto; try discriminate;
  unfold supports_any in *; cbn in *; rewrite ?orb_false_r in *; auto.

Section preserved.
Context (client : ClientParams) (deflate : list Z -> list Z).
#[local] Abbreviation keeps := (keeps client).

Lemma keeps_rects :
  (forall w h x y data mask, keeps (writeSetCursorRect client w h x y data mask)) /\
  (forall w h x y data mask, keeps (writeSetXCursorRect client w h x y data mask)) /\
  (forall w h x y data, keeps (writeSetCursorWithAlphaRect client w h x y data)) /\
  (forall w h x y data, keeps (writeSetVMwareCursorRect client w h x y data)) /\
  (forall x y, keeps (writeSetVMwareCursorPositionRect client x y)) /\
  (forall name, keeps (writeSetDesktopNameRect client name)) /\
  (forall state, keeps (writeLEDStateRect client state)) /\
  keeps (writeQEMUKeyEventRect client) /\ keeps (writeExtendedMouseButtonsRect client) /\
  (forall w h, keeps (writeSetDesktopSizeRect client w h)) /\
  (forall reason result w h layout, keeps (writeExtendedDesktopSizeRect client reason result w h layout)).
Proof.
  split_and!; intros; unfold writeSetCursorRect, writeSetXCursorRect, writeSetCursorWithAlphaRect, writeSetVMwareCursorRect,
    writeSetVMwareCursorPositionRect, writeSetDesktopNameRect, writeLEDStateRect, writeQEMUKeyEventRect,
    writeExtendedMouseButtonsRect, writeSetDesktopSizeRect, writeExtendedDesktopSizeRect; auto 10 with keeps.
Qed.

Lemma keeps_pseudo : keeps (writePseudoRects client).
Proof.
  destruct keeps_rects as (Hc & Hx & Ha & Hv & Hp & Hn & Hl & Hq & Hm & _). unfold writePseudoRects.
  repeat apply keeps_andthen; apply keeps_when, keeps_andthen; try (by keeps_field); auto.
  - unfold write_cursor_rect. cbv zeta. repeat case_match; auto using keeps_throw.
  - unfold write_position_rect. case_match; auto using keeps_throw.
Qed.

Lemma keeps_size_rects msgs : keeps (size_rects client msgs).
Proof.
  destruct keeps_rects as (_ & _ & _ & _ & _ & _ & _ & _ & _ & _ & He).
  induction msgs as [|[reason result] msgs IH]; cbn [size_rects]; auto with keeps. apply keeps_put.
Qed.

Lemma keeps_no_data : keeps (writeNoDataRects client).
Proof.
  intros s s' bs Hs. unfold writeNoDataRects. case_match; [by intros [= <- _]|]. revert Hs.
  apply (keeps_andthen client); [|by keeps_field].
  destruct keeps_rects as (_ & _ & _ & _ & _ & _ & _ & _ & _ & Hd & _).
  repeat case_match; auto using keeps_size_rects, keeps_throw.
Qed.

Lemma keeps_start n : keeps (writeFramebufferUpdateStart client n).
Proof.
  intros s s' bs Hs. unfold writeFramebufferUpdateStart. cbv zeta. revert Hs.
  apply (keeps_andthen client), keeps_andthen; [apply keeps_put|by apply keeps_modify|apply keeps_pseudo].
Qed.

Lemma keeps_end : keeps writeFramebufferUpdateEnd.
Proof. unfold writeFramebufferUpdateEnd. auto with keeps. Qed.

Lemma keeps_write_rects rects : keeps (write_rects rects).
Proof. induction rects as [|[[r e] data] rects IH]; cbn [write_rects]; unfold startRect; auto 10 with keeps. apply keeps_put. Qed.

Lemma keeps_smsg m : keeps (write_smsg client deflate m).
Proof.
  destruct m; cbn [write_smsg]; try (unfold writeClipboardCaps, writeClipboardRequest, writeClipboardPeek,
    writeClipboardNotify, writeClipboardProvide, demand_action, writeFence, writeEndOfContinuousUpdates,
    writeSetColourMapEntries, writeBell, demand; by auto 10 with keeps).
  - intros s s' bs Hs. unfold writeServerCutText. case_match; [|done]. by intros [= <- _].
  - apply keeps_demand. intros Hd. keeps_field.
  - apply keeps_demand. intros Hd. keeps_field.
  - apply keeps_demand. intros Hd. keeps_field.
  - apply keeps_demand. intros Hd. keeps_field.
  - apply keeps_demand. intros Hd. apply keeps_led. intros Hl. keeps_field.
  - apply keeps_demand. intros Hd. keeps_field.
  - apply keeps_demand. intros Hd. keeps_field.
  - intros s s' bs Hs. unfold writeNoDataUpdate. cbv zeta. revert Hs.
    apply (keeps_andthen client), keeps_andthen; [apply keeps_start|apply keeps_no_data|apply keeps_end].
  - apply keeps_andthen, keeps_andthen; [apply keeps_start|apply keeps_write_rects|apply keeps_end].
Qed.
End preserved.

(** C25: whatever calls are made of a [SMsgWriter], as long as none throws and
    the client keeps its encodings: a change that waits for the next update is
    one the client has said it understands, and an LED state waits only when
    it is known. *)
Theorem SMsgWriter_invariant (client : ClientParams) (deflate : list Z -> list Z) (msgs : list smsg) :
  forall s bs, foldl (fun w m => w &> write_smsg client deflate m) nothing msgs init_writer = Ok (s, bs) ->
  writer_ok client s.
Proof.
  assert (keeps client (foldl (fun w m => w &> write_smsg client deflate m) nothing msgs)) as Hk.
  { assert (keeps client nothing) as Hn by apply keeps_put. revert Hn. generalize nothing.
    induction msgs as [|m msgs IH]; intros w Hw; cbn [foldl]; [done|]. apply IH, keeps_andthen; [done|apply keeps_smsg]. }
  intros s bs. apply Hk. unfold writer_ok. cbn. by split_and!.
Qed.

(** A client that knows cursors and desktop names. *)
Definition some_client : ClientParams :=
  setEncodings [pseudoEncodingVMwareCursor; pseudoEncodingDesktopName; pseudoEncodingFence] init_client.

Lemma SMsgWriter_invariant_witness :
  let calls := [CursorChange; ServerFence 1 [7]; SetDesktopName] in
  exists s bs, foldl (fun w m => w &> write_smsg some_client (fun l => l) m) nothing calls init_writer = Ok (s, bs) /\
  needCursor s = true /\ needSetDesktopName s = true /\ writer_ok some_client s.
Proof.
  intros calls. destruct (foldl (fun w m => w &> write_smsg some_client (fun l => l) m) nothing calls init_writer)
    as [[s bs]|e] eqn:Hrun.
  - exists s, bs. split; [done|]. pose proof (SMsgWriter_invariant some_client (fun l => l) calls s bs Hrun) as Hok.
    vm_compute in Hrun. injection Hrun as <- _. split; [done|]. split; [done|]. exact Hok.
  - exfalso. vm_compute in Hrun. discriminate Hrun.
Defined.
