(* ===== verification/ServerDelivery.v ===== *)
(** * From server to client

    What [SMsgWriter] writes is what [CMsgReader] reports: an update arrives as
    one update with the queued changes in front of its rectangles, whatever its
    rectangles are, as long as the client's decoders can read them. *)
From stdpp Require Import base gmap list numbers strings option.
From S2P Require Import Prelude InStream OutStream Strings PixelFmt Geometry Screens Params Cursors Clipboard ServerMsgs Decoders ServerReader ServerWriter.
#[local] Open Scope Z_scope.

(** Calls of a reader that complete something, one after the other. *)
Inductive steps {E L} (R : L -> prog E (bool * L)) : L -> list Z -> L -> list Z -> list E -> Prop :=
| steps_refl l d : steps R l d l d []
| steps_step l d l1 d1 evs1 l2 d2 evs2 :
    outcome (R l) d = Ok (true, l1, d1, evs1) -> steps R l1 d1 l2 d2 evs2 ->
    steps R l d l2 d2 (evs1 ++ evs2).

(** The message loop makes these calls before anything else. *)
Lemma steps_drains {E L} (R : L -> prog E (bool * L)) l d l1 d1 evs1 l2 d2 evs2 :
  steps R l d l1 d1 evs1 -> drains R l1 d1 l2 d2 evs2 -> drains R l d l2 d2 (evs1 ++ evs2).
Proof.
  induction 1 as [|l d l' d' e' l1 d1 e1 Hs _ IH]; intros Hd; [done|].
  rewrite <- app_assoc. eapply drain_step; [done|auto].
Qed.

Section delivery.
Context (maxCutText : Z) (inflate : list Z -> zseg) {handler : CMsgHandler} {decoders : RectDecoder}.
Implicit Types (r : creader) (s server : ServerParams).

(** ** Handler calls *)

(** The handler's view of the server behind a call, and behind some. *)
Definition after (s : ServerParams) (ev : cevent) : ServerParams :=
  match handle s ev with Ok s' => s' | Throw _ => s end.
Definition accepts (s : ServerParams) (evs : list cevent) : Prop :=
  forall evs1 ev evs2, evs = evs1 ++ ev :: evs2 -> handle (foldl after s evs1) ev = Ok (after (foldl after s evs1) ev).

Lemma accepts_cons s ev evs : accepts s (ev :: evs) -> handle s ev = Ok (after s ev) /\ accepts (after s ev) evs.
Proof.
  intros Ha. split; [exact (Ha [] ev evs eq_refl)|]. intros evs1 ev' evs2 ->. exact (Ha (ev :: evs1) ev' evs2 eq_refl).
Qed.
Lemma accepts_app s evs1 evs2 : accepts s (evs1 ++ evs2) -> accepts s evs1 /\ accepts (foldl after s evs1) evs2.
Proof.
  revert s. induction evs1 as [|ev evs1 IH]; intros s Ha; [split; [|done]; by intros [|] ? ? ?|].
  apply accepts_cons in Ha as [Hh Ha]. destruct (IH _ Ha) as [H1 H2]. split; [|done].
  intros [|ev1 l] ev' l' Heq; cbn in Heq; injection Heq as <- Heq; [done|]. exact (H1 l ev' l' Heq).
Qed.

(** Calls that are accepted go through. *)
Lemma arun_through {A} (p : prog cevent A) s st a st' evs : accepts s evs -> arun p st = Ok (a, st', evs) ->
  arun (through s p) st = Ok ((a, foldl after s evs), st', evs).
Proof.
  revert s st evs. induction p as [x|e|n k IH|k IH|k IH|k IH|n k IH|ev k IH]; intros s [d rp c] evs Ha; cbn.
  - by intros [= -> <- <-].
  - done.
  - case_match; intros Hr; by apply IH.
  - case_match; [done|]. intros Hr. by apply IH.
  - case_match; [|done]. intros Hr. by apply IH.
  - case_match; [|done]. intros Hr. by apply IH.
  - case_match; [done|]. case_match; [done|]. intros Hr. by apply IH.
  - destruct (arun k (AState d rp c)) as [[[a' st1] evs1]|e] eqn:Hk; cbn; [|done]. intros [= -> -> <-].
    apply accepts_cons in Ha as [Hh Ha]. rewrite Hh. cbn. by rewrite (IH _ _ _ Ha Hk).
Qed.

(** ** Reading a rectangle *)

(** The end of a rectangle: the reader behind it, and the last event of an update. *)
Definition finished (r : creader) : creader :=
  let r := set_rects_left (nUpdateRectsLeft r - 1) (set_state MSGSTATE_RECT_HEADER r) in
  if nUpdateRectsLeft r =? 0
  then set_state MSGSTATE_IDLE (set_server (after (cr_server r) framebufferUpdateEnd) r) else r.
Definition finish_events (r : creader) : list cevent :=
  if nUpdateRectsLeft r - 1 =? 0 then [framebufferUpdateEnd] else [].

Lemma arun_finish_rect r st : accepts (cr_server r) (finish_events r) ->
  arun (finish_rect r) st = Ok ((true, finished r), st, finish_events r).
Proof.
  unfold finish_rect, finished, finish_events. cbn [nUpdateRectsLeft set_rects_left]. cbv zeta. cbn [nUpdateRectsLeft set_rects_left].
  destruct (nUpdateRectsLeft r - 1 =? 0); [|by destruct st].
  intros Ha. apply accepts_cons in Ha as [Hh _]. unfold done_call. prog_simpl. cbn [through cr_server set_rects_left set_state].
  rewrite Hh. destruct st. done.
Qed.

(** [body] is the data of the rectangle [r] is at: it is read to its end, makes
    the calls [evs], and leaves the decoders in the state [dec]. *)
Definition reads_rect (r : creader) (body : list Z) (evs : list cevent) (dec : decoder) : Prop :=
  accepts (cr_server r) (evs ++ finish_events r) ->
  forall rest, exists c,
  arun (read_rect_data r) (AState (body ++ rest) None 0) =
  Ok ((true, finished (set_server (foldl after (cr_server r) evs) (set_decoder dec r))), AState rest None c,
      evs ++ finish_events r).

(** Rectangles that carry no state of their own. *)
Lemma reads_pseudo r body evs : pseudo_encoding (rectEncoding r) = true ->
  (forall rest, exists c, arun (readRectBody r) (AState (body ++ rest) None 0) = Ok (true, AState rest None c, evs)) ->
  cursorEncoding r = -1 -> reads_rect r body evs (cr_decoder r).
Proof.
  intros Hp Hrun Hc Ha rest. destruct (Hrun rest) as [c Hr]. exists c. unfold read_rect_data.
  assert ((rectEncoding r =? pseudoEncodingLastRect) = false) as ->.
  { apply Z.eqb_neq. intros He. by rewrite He in Hp. }
  assert ((rectEncoding r =? pseudoEncodingCursorWithAlpha) = false) as ->.
  { apply Z.eqb_neq. intros He. by rewrite He in Hp. }
  rewrite Hp. unfold mbind, prog_mbind. rewrite arun_bind. apply accepts_app in Ha as [Ha1 Ha2].
  rewrite (arun_through _ _ _ _ _ _ Ha1 Hr). unfold finish_if. cbn [fst snd].
  rewrite arun_finish_rect by done. cbn. by rewrite set_decoder_same.
Qed.

(** Rectangles of pixels. *)
Lemma reads_pixels r body dec : pseudo_encoding (rectEncoding r) = false ->
  rectEncoding r <> pseudoEncodingLastRect -> rectEncoding r <> pseudoEncodingCursorWithAlpha ->
  px (br (cr_dataRect r)) <= width_ (sp (cr_server r)) -> py (br (cr_dataRect r)) <= height_ (sp (cr_server r)) ->
  (forall rest, exists c, arun (decodeRect (cr_server r) (cr_dataRect r) (rectEncoding r) (cr_decoder r))
     (AState (body ++ rest) None 0) = Ok ((true, dec), AState rest None c, [])) ->
  reads_rect r body [dataRect (cr_dataRect r) (rectEncoding r) (queued dec)] dec.
Proof.
  intros Hp Hl Hca Hx Hy Hrun Ha rest. destruct (Hrun rest) as [c Hr]. exists c. unfold read_rect_data.
  rewrite (proj2 (Z.eqb_neq _ _) Hl), (proj2 (Z.eqb_neq _ _) Hca), Hp. unfold readRect. cbv zeta.
  rewrite !Z.gtb_ltb, !(proj2 (Z.ltb_ge _ _)) by lia. cbn [orb].
  unfold mbind, prog_mbind. rewrite arun_bind, Hr. unfold rect_decoded. cbv zeta. cbn [fst snd].
  unfold mbind, prog_mbind. rewrite arun_bind. apply accepts_app in Ha as [Ha1 Ha2].
  erewrite arun_through; [|exact Ha1|]; [|unfold done_call; prog_simpl; reflexivity].
  unfold finish_if. cbn [fst snd]. rewrite arun_finish_rect by done. done.
Qed.
(** Cursors with alpha, whose image is a rectangle of raw pixels in front of the
    client's own format. *)
Lemma reads_alpha r body image dec :
  let w := width (cr_dataRect r) in let h := height (cr_dataRect r) in
  let frame := rect 0 0 w h in let server := server_setPF rgbaPF (cr_server r) in
  rectEncoding r = pseudoEncodingCursorWithAlpha -> cursorEncoding r = -1 -> cursor_too_large w h = false ->
  server_wf (cr_server r) ->
  (forall rest, exists c, arun (decodeRect server frame encodingRaw (cr_decoder r)) (AState (body ++ rest) None 0) =
     Ok ((true, dec), AState rest None c, [])) ->
  flush server frame encodingRaw (queued dec) = Ok image ->
  reads_rect r (writeU32 encodingRaw ++ body) [setCursor_ev w h (tl (cr_dataRect r)) (unpremultiply (Z.to_nat (w * h)) image)] dec.
Proof.
  intros w h frame server He Hc Hfit Hwf Hread Hflush Ha rest. destruct (Hread rest) as [c Hrun]. exists c.
  pose proof (len_nonneg body). pose proof (len_nonneg rest).
  unfold read_rect_data, readSetCursorWithAlpha. rewrite He, Hc. repeat eval_test. fold w h. rewrite Hfit.
  read_fields. change (s32 (u32 encodingRaw)) with encodingRaw. change (4 - 4) with 0. unfold read_cursor_image.
  cbn [set_cursor_encoding cr_server cr_dataRect cursorEncoding cr_decoder fmap option_fmap option_map].
  fold w h frame server. unfold mbind, prog_mbind. rewrite arun_bind, Hrun. unfold cursor_decoded. cbv zeta.
  cbn [fst snd set_decoder set_cursor_encoding cr_server cr_dataRect cursorEncoding cr_decoder]. fold w h frame server.
  rewrite Hflush, setPF_same by done. unfold mbind, prog_mbind. rewrite arun_bind. apply accepts_app in Ha as [Ha1 Ha2].
  erewrite arun_through; [|exact Ha1|unfold done_call; prog_simpl; reflexivity].
  assert (set_cursor_encoding (-1) (set_decoder dec (set_cursor_encoding encodingRaw r)) = set_decoder dec r) as ->.
  { destruct r. cbn in Hc. by subst. }
  unfold finish_if. cbn [fst snd]. by rewrite arun_finish_rect.
Qed.

(** ** Rectangles on the wire *)

(** A rectangle with its header. *)
Record wire := Wire { w_x : Z; w_y : Z; w_width : Z; w_height : Z; w_encoding : Z; w_body : list Z }.

Definition wire_bytes (w : wire) : list Z :=
  rect_header_bytes (w_x w) (w_y w) (w_width w) (w_height w) (w_encoding w) ++ w_body w.
Definition wire_wf (w : wire) : Prop :=
  u16_wf (w_x w) /\ u16_wf (w_y w) /\ u16_wf (w_width w) /\ u16_wf (w_height w) /\ - 2 ^ 31 <= w_encoding w < 2 ^ 31.

(** The reader behind the header of [w]. *)
Definition at_rect (r : creader) (w : wire) : creader :=
  CReader MSGSTATE_RECT_DATA (cr_currentMsgType r) (nUpdateRectsLeft r)
    (setXYWH (w_x w) (w_y w) (w_width w) (w_height w)) (w_encoding w) (cursorEncoding r) (cr_server r) (cr_decoder r).

Lemma arun_rect_header r w rest : wire_wf w ->
  arun (read_rect_header r) (AState (wire_bytes w ++ rest) None 0) =
  arun (read_rect_data (at_rect r w)) (AState (w_body w ++ rest) None 0).
Proof.
  intros (Hx & Hy & Hw & Hh & He). unfold u16_wf in *. pose proof (len_nonneg (w_body w)).
  unfold wire_bytes, rect_header_bytes, writeS16, read_rect_header. read_fields.
  rewrite !u16_id, s32_u32, s32_id by lia. done.
Qed.

(** A client with the server record [s] and the decoders [d] reads the
    rectangles [ws], one after the other, with the calls [evs]. *)
Inductive carried : ServerParams -> decoder -> list wire -> list cevent -> decoder -> Prop :=
| carried_nil s d : carried s d [] [] d
| carried_cons s d w evs d1 ws evs2 d2 :
    wire_wf w ->
    (forall r, cr_server r = s -> cr_decoder r = d -> cursorEncoding r = -1 ->
       reads_rect (at_rect r w) (w_body w) evs d1) ->
    carried (foldl after s evs) d1 ws evs2 d2 -> carried s d (w :: ws) (evs ++ evs2) d2.

Lemma carried_app s d ws1 evs1 d1 ws2 evs2 d2 : carried s d ws1 evs1 d1 ->
  carried (foldl after s evs1) d1 ws2 evs2 d2 -> carried s d (ws1 ++ ws2) (evs1 ++ evs2) d2.
Proof.
  induction 1 as [|s d w evs d0 ws evs1 d1 Hw Hr _ IH]; intros H2; [done|].
  rewrite foldl_app in H2. rewrite <- app_assoc. cbn [app]. econstructor; [done..|]. by apply IH.
Qed.
Lemma carried_one s d w evs d1 : wire_wf w ->
  (forall r, cr_server r = s -> cr_decoder r = d -> cursorEncoding r = -1 -> reads_rect (at_rect r w) (w_body w) evs d1) ->
  carried s d [w] evs d1.
Proof. intros Hw Hr. rewrite <- (app_nil_r evs). econstructor; [done|done|constructor]. Qed.
(** ** Rectangles in a row *)

#[local] Abbreviation R := (readMsg maxCutText inflate).

(** The reader between two rectangles, with [n] of them to come. *)
Definition between (r : creader) (n : Z) (s : ServerParams) (d : decoder) : Prop :=
  cr_state r = MSGSTATE_RECT_HEADER /\ cr_currentMsgType r = msgTypeFramebufferUpdate /\ nUpdateRectsLeft r = n /\
  cursorEncoding r = -1 /\ cr_server r = s /\ cr_decoder r = d.
(** The reader between two messages. *)
Definition idle (r : creader) (s : ServerParams) (d : decoder) : Prop :=
  cr_state r = MSGSTATE_IDLE /\ cursorEncoding r = -1 /\ cr_server r = s /\ cr_decoder r = d.

Lemma step_rect r n s d w evs d1 rest : between r n s d -> wire_wf w ->
  reads_rect (at_rect r w) (w_body w) evs d1 -> accepts s (evs ++ finish_events r) ->
  outcome (R r) (wire_bytes w ++ rest) =
  Ok (true, finished (set_server (foldl after s evs) (set_decoder d1 (at_rect r w))), rest, evs ++ finish_events r).
Proof.
  intros (Hst & Ht & Hn & Hc & Hs & Hd) Hw Hr Ha. unfold outcome, fresh.
  rewrite (readMsg_rect_header _ _ r Hst Ht), arun_rect_header by done. destruct (Hr ltac:(cbn; by rewrite Hs) rest) as [c ->].
  cbn [cr_server at_rect]. by rewrite Hs.
Qed.

Lemma steps_carried s d ws evs d2 rest : carried s d ws evs d2 -> forall r n, between r n s d -> len ws < n ->
  accepts s evs ->
  exists r', steps R r (concat (map wire_bytes ws) ++ rest) r' rest evs /\ between r' (n - len ws) (foldl after s evs) d2.
Proof.
  induction 1 as [s d|s d w evs d1 ws evs2 d2 Hw Hr _ IH]; intros r n Hb Hn Ha.
  - exists r. split; [constructor|]. by rewrite len_nil, Z.sub_0_r.
  - rewrite len_cons in Hn. pose proof (len_nonneg ws). pose proof Hb as (Hst & Ht & Hl & Hc & Hs & Hd).
    apply accepts_app in Ha as [Ha1 Ha2].
    assert (finish_events r = []) as Hf by (unfold finish_events; rewrite Hl, (proj2 (Z.eqb_neq _ _)) by lia; done).
    pose proof (step_rect r n s d w evs d1 (concat (map wire_bytes ws) ++ rest) Hb Hw (Hr r Hs Hd Hc)) as Hstep.
    rewrite Hf, !app_nil_r in Hstep. specialize (Hstep Ha1).
    set (r1 := finished _) in *. assert (between r1 (n - 1) (foldl after s evs) d1) as Hb1.
    { unfold r1, finished. cbn [nUpdateRectsLeft set_rects_left set_state set_server set_decoder at_rect].
      rewrite Hl, (proj2 (Z.eqb_neq _ _)) by lia. repeat split; cbn; done. }
    destruct (IH r1 (n - 1) Hb1 ltac:(lia) Ha2) as (r' & Hsteps & Hb').
    exists r'. cbn [map concat]. rewrite <- app_assoc, len_cons, foldl_app. split; [by econstructor|].
    by replace (n - (1 + len ws)) with (n - 1 - len ws) by lia.
Qed.

(** All of the announced rectangles: the last one ends the update. *)
Lemma steps_counted s d w ws evs d2 rest : carried s d (w :: ws) evs d2 ->
  forall r, between r (len (w :: ws)) s d -> accepts s (evs ++ [framebufferUpdateEnd]) ->
  exists r', steps R r (concat (map wire_bytes (w :: ws)) ++ rest) r' rest (evs ++ [framebufferUpdateEnd]) /\
    idle r' (foldl after s (evs ++ [framebufferUpdateEnd])) d2.
Proof.
  revert s d w evs. induction ws as [|w2 ws IH]; intros s d w evs Hc r Hb Ha;
    inversion Hc as [|? ? ? evs1 d1 ? evs2 ? Hw Hr Hrest]; subst; pose proof Hb as (Hst & Ht & Hl & Hce & Hs & Hd).
  - inversion Hrest; subst. rewrite app_nil_r in *.
    assert (finish_events r = [framebufferUpdateEnd]) as Hf by (unfold finish_events; by rewrite Hl).
    pose proof (step_rect r _ _ _ w evs1 d2 rest Hb Hw (Hr r eq_refl eq_refl Hce)) as Hstep. rewrite Hf in Hstep.
    specialize (Hstep Ha). cbn [map concat]. rewrite app_nil_r. eexists. split.
    + rewrite <- (app_nil_r (evs1 ++ _)). econstructor; [exact Hstep|constructor].
    + unfold finished. cbn [nUpdateRectsLeft set_rects_left set_state set_server set_decoder at_rect].
      rewrite Hl. cbn. rewrite foldl_app. done.
  - rewrite <- app_assoc in *. apply accepts_app in Ha as [Ha1 Ha2]. rewrite !len_cons in Hl. pose proof (len_nonneg ws).
    assert (finish_events r = []) as Hf by (unfold finish_events; rewrite Hl, (proj2 (Z.eqb_neq _ _)) by lia; done).
    pose proof (step_rect r _ _ _ w evs1 d1 (concat (map wire_bytes (w2 :: ws)) ++ rest) Hb Hw (Hr r Hs Hd Hce)) as Hstep.
    rewrite Hf, !app_nil_r in Hstep. specialize (Hstep Ha1).
    set (r1 := finished _) in *. assert (between r1 (len (w2 :: ws)) (foldl after s evs1) d1) as Hb1.
    { unfold r1, finished. cbn [nUpdateRectsLeft set_rects_left set_state set_server set_decoder at_rect].
      rewrite Hl, (proj2 (Z.eqb_neq _ _)) by lia. repeat split; cbn; rewrite ?len_cons; done || lia. }
    destruct (IH _ _ _ _ Hrest r1 Hb1 Ha2) as (r' & Hsteps & Hi). exists r'. cbn [map concat] in *.
    rewrite <- app_assoc, foldl_app. split; [by econstructor|done].
Qed.

(** The rectangle that ends an update whose rectangles were not counted. *)
Definition last_wire : wire := Wire 0 0 0 0 pseudoEncodingLastRect [].

Lemma steps_last r n s d rest : between r n s d -> accepts s [framebufferUpdateEnd] ->
  exists r', steps R r (wire_bytes last_wire ++ rest) r' rest [framebufferUpdateEnd] /\
    idle r' (after s framebufferUpdateEnd) d.
Proof.
  intros Hb Ha. pose proof Hb as (Hst & Ht & Hl & Hce & Hs & Hd).
  assert (wire_wf last_wire) as Hw by (unfold wire_wf, u16_wf, last_wire, pseudoEncodingLastRect; cbn; lia).
  set (r1 := set_rects_left 1 (at_rect r last_wire)).
  exists (finished r1). split.
  - rewrite <- (app_nil_r [framebufferUpdateEnd]). econstructor; [|constructor].
    unfold outcome, fresh. rewrite (readMsg_rect_header _ _ r Hst Ht), arun_rect_header by done. cbn [w_body last_wire app].
    change (read_rect_data (at_rect r last_wire)) with (finish_rect r1).
    rewrite arun_finish_rect by (unfold finish_events, r1; cbn; by rewrite Hs). done.
  - unfold finished, r1. cbn. by rewrite Hs.
Qed.

(** An update, in front of whatever the message loop makes of the rest. *)
Lemma drains_prefix r h d r1 evs1 l2 d2 evs2 : outcome (R r) (h ++ d) = prepend evs1 (outcome (R r1) d) ->
  drains R r1 d l2 d2 evs2 -> drains R r (h ++ d) l2 d2 (evs1 ++ evs2).
Proof.
  intros Ho Hd. inversion Hd as [? ? ? ? ? H|? ? ? ? ? ? ? ? H Hrest]; subst; rewrite H in Ho; cbn in Ho.
  - by constructor.
  - rewrite app_assoc. by econstructor.
Qed.

Definition update_header_bytes (n : Z) : list Z := writeU8 msgTypeFramebufferUpdate ++ pad 1 ++ writeU16 n.

Lemma outcome_update r n s d rest : idle r s d -> 0 < n < 65536 -> accepts s [framebufferUpdateStart] ->
  exists r1, between r1 n (after s framebufferUpdateStart) d /\
  outcome (R r) (update_header_bytes n ++ rest) = prepend [framebufferUpdateStart] (outcome (R r1) rest).
Proof.
  intros (Hst & Hce & Hs & Hd) Hn Ha. apply accepts_cons in Ha as [Hh _].
  set (r0 := CReader MSGSTATE_MESSAGE 0 (nUpdateRectsLeft r) (cr_dataRect r) (rectEncoding r) (cursorEncoding r)
               (cr_server r) (cr_decoder r)).
  set (r1 := set_state MSGSTATE_RECT_HEADER (set_rects_left n (set_server (after s framebufferUpdateStart) r0))).
  exists r1. split; [by repeat split|]. rewrite (readMsg_rect_header _ _ r1) by done.
  unfold outcome, fresh, update_header_bytes, readMsg. rewrite Hst. read_fields.
  change (u8 msgTypeFramebufferUpdate) with 0. fold r0. unfold read_message. cbn [cr_currentMsgType r0 cr_state].
  change (negb (0 =? msgTypeFramebufferUpdate)) with false. cbv iota. unfold read_update, done_call. read_fields.
  cbn [through]. change (cr_server r0) with (cr_server r). rewrite Hs, Hh. cbn [through prog_bind snd]. rewrite u16_id, (proj2 (Z.eqb_neq _ _)) by lia.
  rewrite arun_emit. change (1 + 2 - 1 - 2) with 0. fold r1. cbn [fmap option_fmap option_map].
  destruct (arun (read_rect_header _) _) as [[[? [? [|] ?]] ?]|]; done.
Qed.
End delivery.
