(* ===== verification/Updates.v ===== *)
(** * Framebuffer updates, from the writer's flags to the handler's calls

    An update announces its rectangles, and they are counted while they are
    written.  The changes that wait in a [SMsgWriter] travel as rectangles in
    front of the pixels; this file says which rectangles they are, that the
    count is right, and what the client makes of them. *)
From stdpp Require Import base gmap list numbers strings option.
From S2P Require Import Prelude InStream OutStream Strings PixelFmt Geometry Screens Params Cursors Clipboard ServerMsgs Decoders ServerReader ServerWriter ServerDelivery.
#[local] Open Scope Z_scope.

(** ** What the writer puts on the wire *)

Section emits.
Context (client : ClientParams).
Implicit Types (s : swriter).

Definition counted (k : Z) (s : swriter) : swriter := set_counts (nRectsInUpdate s + k) (nRectsInHeader s) s.
(** The header has room for [k] more rectangles. *)
Definition room (k : Z) (s : swriter) : Prop := nRectsInHeader s = 0 \/ nRectsInUpdate s + k <= nRectsInHeader s.

Definition wires_bytes (ws : list wire) : list Z := concat (map wire_bytes ws).
Lemma wires_bytes_app ws1 ws2 : wires_bytes (ws1 ++ ws2) = wires_bytes ws1 ++ wires_bytes ws2.
Proof. unfold wires_bytes. by rewrite map_app, concat_app. Qed.

(** [w] writes the rectangles [ws], and takes [s] to [s']. *)
Definition emits (w : W) (s s' : swriter) (ws : list wire) : Prop := w s = Ok (s', wires_bytes ws).

Lemma emits_andthen a b s s1 s2 ws1 ws2 : emits a s s1 ws1 -> emits b s1 s2 ws2 -> emits (a &> b) s s2 (ws1 ++ ws2).
Proof. unfold emits, andthen. intros -> ->. by rewrite wires_bytes_app. Qed.
Lemma emits_eq w s s1 s2 ws : emits w s s1 ws -> s1 = s2 -> emits w s s2 ws.
Proof. by intros ? ->. Qed.
Lemma emits_modify f s : emits (modify f) s (f s) [].
Proof. done. Qed.

Lemma demand_ok encodings what s : supports_any client encodings = true -> demand client encodings what s = Ok (s, []).
Proof. intros H. unfold demand, refuse. by rewrite H. Qed.
Lemma led_known_ok what s : ledState_ (cp client) <> ledUnknown -> demand_led_known client what s = Ok (s, []).
Proof. intros H. unfold demand_led_known, refuse. by rewrite (proj2 (Z.eqb_neq _ _) H). Qed.
Lemma count_ok what s : room 1 s -> count_rect what s = Ok (counted 1 s, []).
Proof.
  intros Hr. unfold count_rect, andthen, modify, refuse. cbn [nRectsInUpdate nRectsInHeader set_counts].
  assert ((nRectsInUpdate s + 1 >? nRectsInHeader s) && z2b (nRectsInHeader s) = false) as ->; [|done].
  destruct Hr as [->|Hr]; [apply andb_false_r|]. by rewrite Z.gtb_ltb, (proj2 (Z.ltb_ge _ _)) by lia.
Qed.
(** Tests that succeed write nothing. *)
Lemma after_test (a b : W) s s1 : a s = Ok (s1, []) -> (a &> b) s = b s1.
Proof. unfold andthen. intros ->. by destruct (b s1) as [[]|]. Qed.

(** A rectangle behind the tests all of them begin with. *)
Lemma emits_rect encodings what1 what2 s w bs : wire_bytes w = bs -> supports_any client encodings = true -> room 1 s ->
  emits (demand client encodings what1 &> count_rect what2 &> put bs) s (counted 1 s) [w].
Proof.
  intros <- He Hr. unfold emits. rewrite (after_test _ _ _ s) by by apply demand_ok.
  rewrite (after_test _ _ _ (counted 1 s)) by by apply count_ok. unfold put, wires_bytes. cbn. by rewrite app_nil_r.
Qed.

(** A change that waits, or not. *)
Lemma emits_when (b : bool) need clear w x s : need s = b -> (need s = false -> clear s = s) ->
  (b = true -> room 1 s -> emits w s (counted 1 s) [x]) -> room (b2z b) s ->
  emits (when need (w &> modify clear)) s (clear (counted (b2z b) s)) (if b then [x] else []).
Proof.
  intros Hb Hc Hw Hr. unfold when, emits in *. rewrite Hb. destruct b.
  - rewrite <- (app_nil_r [x]). by apply emits_andthen with (s1 := counted 1 s); [apply Hw|].
  - cbn [b2z]. unfold counted. rewrite Z.add_0_r.
    assert (set_counts (nRectsInUpdate s) (nRectsInHeader s) s = s) as -> by by destruct s. by rewrite Hc.
Qed.

(** *** The rectangles of the changes *)

Definition cursor_body (c : Cursor) (encoding : Z) : list Z :=
  let w := cur_width c in
  let h := cur_height c in
  if encoding =? pseudoEncodingCursorWithAlpha then
    writeU32 encodingRaw ++ premultiply (Z.to_nat (w * h)) (cur_data c)
  else if encoding =? pseudoEncodingVMwareCursor then writeU8 1 ++ pad 1 ++ ztake (w * h * 4) (cur_data c)
  else if encoding =? pseudoEncodingCursor then
    ztake (w * h * (bpp (pf_ (cp client)) / 8)) (cursor_pixels (pf_ (cp client)) (Z.to_nat (w * h)) (cur_data c)) ++
    ztake ((w + 7) / 8 * h) (getMask c)
  else if w * h >? 0 then
    writeU8 255 ++ writeU8 255 ++ writeU8 255 ++ writeU8 0 ++ writeU8 0 ++ writeU8 0 ++
    ztake ((w + 7) / 8 * h) (getBitmap c) ++ ztake ((w + 7) / 8 * h) (getMask c)
  else [].

(** The best form of a cursor the client knows. *)
Definition cursor_encoding : Z :=
  if supports client pseudoEncodingCursorWithAlpha then pseudoEncodingCursorWithAlpha
  else if supports client pseudoEncodingVMwareCursor then pseudoEncodingVMwareCursor
  else if supports client pseudoEncodingCursor then pseudoEncodingCursor
  else pseudoEncodingXCursor.

Definition cursor_wire : wire :=
  let c := cursor_ (cp client) in
  Wire (px (cur_hotspot c)) (py (cur_hotspot c)) (cur_width c) (cur_height c) cursor_encoding (cursor_body c cursor_encoding).
Definition position_wire : wire :=
  Wire (px (cursorPos_ client)) (py (cursorPos_ client)) 0 0 pseudoEncodingVMwareCursorPosition [].
Definition name_wire : wire :=
  Wire 0 0 0 0 pseudoEncodingDesktopName (writeU32 (len (name_ (cp client))) ++ writeBytes (name_ (cp client))).
Definition led_wire : wire :=
  if supports client pseudoEncodingLEDState
  then Wire 0 0 0 0 pseudoEncodingLEDState (writeU8 (u8 (ledState_ (cp client))))
  else Wire 0 0 0 0 pseudoEncodingVMwareLEDState (writeU32 (u8 (ledState_ (cp client)))).
Definition qemu_wire : wire := Wire 0 0 0 0 pseudoEncodingQEMUKeyEvent [].
Definition buttons_wire : wire := Wire 0 0 0 0 pseudoEncodingExtendedMouseButtons [].

Definition pseudo_wires (s : swriter) : list wire :=
  (if needCursor s then [cursor_wire] else []) ++ (if needCursorPos s then [position_wire] else []) ++
  (if needSetDesktopName s then [name_wire] else []) ++ (if needLEDState s then [led_wire] else []) ++
  (if needQEMUKeyEvent s then [qemu_wire] else []) ++ (if needExtMouseButtonsEvent s then [buttons_wire] else []).

Lemma len_pseudo_wires s : len (pseudo_wires s) =
  b2z (needSetDesktopName s) + b2z (needCursor s) + b2z (needCursorPos s) + b2z (needLEDState s) +
  b2z (needQEMUKeyEvent s) + b2z (needExtMouseButtonsEvent s).
Proof.
  unfold pseudo_wires. autorewrite with len. destruct s as [? ? [|] [|] [|] [|] [|] [|] ?]; reflexivity.
Qed.

Lemma emits_cursor s : supports_any client
    [pseudoEncodingCursor; pseudoEncodingXCursor; pseudoEncodingCursorWithAlpha; pseudoEncodingVMwareCursor] = true ->
  room 1 s -> emits (write_cursor_rect client) s (counted 1 s) [cursor_wire].
Proof.
  intros Hany Hr. unfold write_cursor_rect, cursor_wire, cursor_encoding. cbv zeta.
  assert (forall e, supports client e = true -> supports_any client [e] = true) as Hone by (intros e He; cbn; by rewrite He).
  destruct (supports client pseudoEncodingCursorWithAlpha) eqn:Ha.
  { unfold writeSetCursorWithAlphaRect. apply emits_rect; [reflexivity|by apply Hone|done]. }
  destruct (supports client pseudoEncodingVMwareCursor) eqn:Hv.
  { unfold writeSetVMwareCursorRect. apply emits_rect; [reflexivity|by apply Hone|done]. }
  destruct (supports client pseudoEncodingCursor) eqn:Hc.
  { unfold writeSetCursorRect. apply emits_rect; [reflexivity|by apply Hone|done]. }
  cbn [supports_any existsb] in Hany. unfold supports_any in Hany. cbn [existsb] in Hany. rewrite Ha, Hv, Hc in Hany.
  cbn [orb] in Hany. rewrite orb_false_r in Hany. rewrite Hany.
  unfold writeSetXCursorRect. apply emits_rect; [reflexivity|by apply Hone|done].
Qed.

Lemma emits_led s : supports_any client [pseudoEncodingLEDState; pseudoEncodingVMwareLEDState] = true ->
  ledState_ (cp client) <> ledUnknown -> room 1 s ->
  emits (writeLEDStateRect client (ledState_ (cp client))) s (counted 1 s) [led_wire].
Proof.
  intros Hany Hl Hr. unfold emits, writeLEDStateRect. rewrite (after_test _ _ _ s) by by apply demand_ok.
  rewrite (after_test _ _ _ s) by by apply led_known_ok. rewrite (after_test _ _ _ (counted 1 s)) by by apply count_ok.
  unfold put, wires_bytes, led_wire. destruct (supports client pseudoEncodingLEDState); cbn [map concat]; by rewrite app_nil_r.
Qed.

(** *** An update *)

Lemma swriter_ext s s' : nRectsInUpdate s = nRectsInUpdate s' -> nRectsInHeader s = nRectsInHeader s' ->
  needSetDesktopName s = needSetDesktopName s' -> needCursor s = needCursor s' -> needCursorPos s = needCursorPos s' ->
  needLEDState s = needLEDState s' -> needQEMUKeyEvent s = needQEMUKeyEvent s' ->
  needExtMouseButtonsEvent s = needExtMouseButtonsEvent s' ->
  extendedDesktopSizeMsgs s = extendedDesktopSizeMsgs s' -> s = s'.
Proof. destruct s, s'. cbn. by intros -> -> -> -> -> -> -> -> ->. Qed.

Definition flushed (s : swriter) (inUpdate inHeader : Z) : swriter :=
  SWriter inUpdate inHeader false false false false false false (extendedDesktopSizeMsgs s).

(** The changes, one after the other. *)
Ltac emits_flags :=
  lazymatch goal with
  | |- emits (_ &> _) _ _ _ => eapply emits_andthen; [eapply emits_when|emits_flags]
  | _ => eapply emits_when
  end.

Lemma emits_pseudo s : writer_ok client s -> room (len (pseudo_wires s)) s ->
  emits (writePseudoRects client) s (flushed s (nRectsInUpdate s + len (pseudo_wires s)) (nRectsInHeader s)) (pseudo_wires s).
Proof.
  intros (Hn & Hc & Hp & Hl & Hq & Hm & _) Hr. rewrite len_pseudo_wires in *.
  assert (forall e, supports client e = true -> supports_any client [e] = true) as Hone by (intros e He; cbn; by rewrite He).
  unfold writePseudoRects, pseudo_wires.
  assert (forall b, 0 <= b2z b) as Hb by by intros [].
  pose proof (Hb (needSetDesktopName s)). pose proof (Hb (needCursor s)). pose proof (Hb (needCursorPos s)).
  pose proof (Hb (needLEDState s)). pose proof (Hb (needQEMUKeyEvent s)). pose proof (Hb (needExtMouseButtonsEvent s)).
  eapply emits_eq; [emits_flags|].
  all: try reflexivity.
  all: try (destruct s; cbn; by intros ->).
  all: try (destruct Hr as [?|?]; [by left|right; cbn; lia]).
  all: try (intros Hs Hr').
  - by apply emits_cursor; auto.
  - unfold write_position_rect. rewrite Hp by done. apply emits_rect; [|auto..]. reflexivity.
  - apply emits_rect; [reflexivity|auto..].
  - apply emits_led; [by apply Hl..|done].
  - apply emits_rect; [reflexivity|auto..].
  - apply emits_rect; [reflexivity|auto..].
  - apply swriter_ext; [|reflexivity..].
    cbn [nRectsInUpdate flushed counted set_counts set_needExtMouseButtonsEvent set_needQEMUKeyEvent set_needLEDState
      set_needSetDesktopName set_needCursorPos set_needCursor]. lia.
Qed.
Definition rect_wire (r : Rect * Z * list Z) : wire :=
  let '(r, encoding, data) := r in Wire (px (tl r)) (py (tl r)) (width r) (height r) encoding data.

Lemma emits_rects rects s : room (len rects) s -> emits (write_rects rects) s (counted (len rects) s) (map rect_wire rects).
Proof.
  revert s. induction rects as [|[[r e] data] rects IH]; intros s Hr.
  - unfold counted. cbn. rewrite Z.add_0_r. unfold emits. by destruct s.
  - rewrite len_cons in Hr. pose proof (len_nonneg rects). cbn [write_rects map].
    assert (room 1 s) as H1 by (destruct Hr; [by left|right; lia]).
    assert (room (len rects) (counted 1 s)) as H2 by (destruct Hr; [by left|right; cbn; lia]).
    unfold emits, wires_bytes in *. unfold startRect, andthen. rewrite count_ok by done. cbn [put map concat].
    rewrite (IH _ H2). unfold rect_wire at 2, wire_bytes.
    cbn [w_x w_y w_width w_height w_encoding w_body]. rewrite <- app_assoc, len_cons. unfold counted. cbn. by rewrite Z.add_assoc.
Qed.

(** The bytes of an update: its rectangles are counted, or ended with a marker. *)
Definition framed_bytes (marked : bool) (ws : list wire) : list Z :=
  update_header_bytes (if marked then 0xFFFF else len ws) ++ wires_bytes ws ++
  (if marked then wire_bytes last_wire else []).

(** [w] writes [ws] from the state behind the changes, and they are counted. *)
Definition fills (marked : bool) (s : swriter) (w : W) (ws : list wire) (s' : swriter) : Prop :=
  let n := len (pseudo_wires s ++ ws) in
  let inHeader := if marked then 0 else n in
  emits w (flushed s (len (pseudo_wires s)) inHeader) s' ws /\ nRectsInUpdate s' = n /\ nRectsInHeader s' = inHeader.

Lemma framed_ok marked w ws s s' : writer_ok client s -> fills marked s w ws s' ->
  (marked = false -> 0 < len (pseudo_wires s ++ ws) < 0xFFFF) ->
  (writeFramebufferUpdateStart client (if marked then 0xFFFF else len ws) &> w &> writeFramebufferUpdateEnd) s =
  Ok (s', framed_bytes marked (pseudo_wires s ++ ws)).
Proof.
  intros Hok (Hw & Hup & Hin) Hn. set (hdr := if marked then 0 else len (pseudo_wires s ++ ws)) in *.
  pose proof (len_nonneg (pseudo_wires s)). pose proof (len_nonneg ws).
  pose proof (len_app (pseudo_wires s) ws) as Hlen.
  set (n := if marked then 0xFFFF else len ws).
  assert (announced n s = if marked then 0xFFFF else len (pseudo_wires s ++ ws)) as Hann.
  { unfold announced, n. destruct marked; [done|]. specialize (Hn eq_refl).
    rewrite (proj2 (Z.eqb_neq _ _)) by lia. cbn [negb]. rewrite Hlen, len_pseudo_wires. lia. }
  assert ((if announced n s =? 0xFFFF then 0 else announced n s) = hdr) as Hhdr.
  { rewrite Hann. unfold hdr. destruct marked; [done|]. specialize (Hn eq_refl). by rewrite (proj2 (Z.eqb_neq _ _)) by lia. }
  assert (room (len (pseudo_wires s)) (set_counts 0 hdr s)) as Hroom.
  { unfold hdr. destruct marked; [by left|right]. cbn [nRectsInUpdate nRectsInHeader set_counts]. lia. }
  pose proof (emits_pseudo (set_counts 0 hdr s) Hok Hroom) as Hp.
  change (pseudo_wires (set_counts 0 hdr s)) with (pseudo_wires s) in Hp. cbn [nRectsInUpdate nRectsInHeader set_counts] in Hp.
  unfold emits in Hp, Hw. unfold writeFramebufferUpdateStart.
  unfold andthen, put, modify. rewrite Hhdr, Hp, Hann. change (flushed (set_counts 0 hdr s)) with (flushed s).
  rewrite Z.add_0_l, Hw. unfold writeFramebufferUpdateEnd, andthen, refuse, when. rewrite Hup, Hin.
  assert (negb (len (pseudo_wires s ++ ws) =? hdr) && z2b hdr = false) as ->.
  { unfold hdr. destruct marked; [apply andb_false_r|]. by rewrite Z.eqb_refl. }
  cbv beta. rewrite Hin. unfold framed_bytes, update_header_bytes. rewrite wires_bytes_app, !app_nil_l, <- !app_assoc. unfold hdr.
  destruct marked; cbn [Z.eqb put].
  - unfold wire_bytes, last_wire. cbn [w_body w_x w_y w_width w_height w_encoding]. by rewrite app_nil_r.
  - specialize (Hn eq_refl). by rewrite (proj2 (Z.eqb_neq (len (pseudo_wires s ++ ws)) 0)) by lia.
Qed.

(** An update of pixels: the client is asked whether it wants a marker. *)
Definition marked_update : bool := supports client pseudoEncodingLastRect.
Definition update_wires (s : swriter) (rects : list (Rect * Z * list Z)) : list wire :=
  pseudo_wires s ++ map rect_wire rects.
Definition update_bytes (s : swriter) (rects : list (Rect * Z * list Z)) : list Z :=
  framed_bytes marked_update (update_wires s rects).
(** The writer behind it: nothing waits, except for the changes of the size. *)
Definition sent (s : swriter) (rects : list (Rect * Z * list Z)) : swriter :=
  flushed s (len (update_wires s rects)) (if marked_update then 0 else len (update_wires s rects)).

Lemma write_update_ok s rects : writer_ok client s ->
  (marked_update = false -> 0 < len (update_wires s rects) < 0xFFFF) ->
  write_update client rects s = Ok (sent s rects, update_bytes s rects).
Proof.
  intros Hok Hn. unfold write_update, update_bytes, update_wires. fold marked_update. rewrite <- (len_map rect_wire rects).
  apply framed_ok; [done| |done]. unfold fills, sent, update_wires. cbv zeta.
  set (hdr := if marked_update then 0 else _).
  assert (len (pseudo_wires s ++ map rect_wire rects) = len (pseudo_wires s) + len rects) as Hlen by by rewrite len_app, len_map.
  split; [|done]. eapply emits_eq; [apply emits_rects|].
  - unfold hdr. destruct marked_update; [by left|right]. cbn [nRectsInUpdate nRectsInHeader flushed]. lia.
  - unfold counted, flushed, set_counts. cbn. by rewrite Hlen.
Qed.
End emits.

Lemma width_setXYWH x y w h : width (setXYWH x y w h) = w.
Proof. unfold setXYWH, width. cbn. lia. Qed.
Lemma height_setXYWH x y w h : height (setXYWH x y w h) = h.
Proof. unfold setXYWH, height. cbn. lia. Qed.
Lemma tl_setXYWH x y w h : tl (setXYWH x y w h) = MkPoint x y.
Proof. done. Qed.

(** ** What the client reads *)

Lemma len_bufferFromRGB pf data : bpp pf = 8 \/ bpp pf = 16 \/ bpp pf = 32 -> 3 <= len data ->
  len (bufferFromRGB pf (replicate 4 0) (ztake 3 data) 1) = bpp pf / 8.
Proof.
  intros Hb Hl. destruct data as [|r [|g [|b data]]]; [llia..|].
  change (ztake 3 (r :: g :: b :: data)) with [r; g; b]. cbn [bufferFromRGB]. rewrite app_nil_r.
  destruct (is888 pf) eqn:H8.
  - destruct (is888_fields pf H8) as (Hbpp & _). unfold store888. unfold len. rewrite !length_insert. by rewrite Hbpp.
  - unfold store_generic, bufferFromPixel. destruct (bigEndian pf), Hb as [->|[->| ->]]; done.
Qed.

Lemma len_cursor_pixels pf n data : bpp pf = 8 \/ bpp pf = 16 \/ bpp pf = 32 -> 4 * Z.of_nat n <= len data ->
  len (cursor_pixels pf n data) = Z.of_nat n * (bpp pf / 8).
Proof.
  intros Hb. revert data. induction n as [|n IH]; intros data Hl; [done|]. cbn [cursor_pixels].
  rewrite len_app, len_bufferFromRGB, IH by (done || (rewrite ?len_zdrop_max; lia)). lia.
Qed.

Lemma len_premultiply n data : len (premultiply n data) = 4 * Z.of_nat n.
Proof. revert data. induction n as [|n IH]; intros data; [done|]. cbn [premultiply]. autorewrite with len. rewrite IH. lia. Qed.

Lemma len_getMask c : cursor_wf c -> len (getMask c) = (cur_width c + 7) / 8 * cur_height c.
Proof. intros (Hw & Hh & _). by apply len_to_bits. Qed.
Lemma len_getBitmap c : cursor_wf c -> len (getBitmap c) = (cur_width c + 7) / 8 * cur_height c.
Proof. intros (Hw & Hh & _). by apply len_to_bits. Qed.

(** A rectangle whose header is known to fit. *)
Ltac wire_fits := unfold wire_wf, u16_wf in *; split_and!; cbn [w_x w_y w_width w_height w_encoding]; first [lia|vm_compute; congruence|vm_compute; reflexivity].

(** A rectangle that is read by a call of its own: to the switch on its encoding. *)
Ltac stateless :=
  unfold position_wire, name_wire, qemu_wire, buttons_wire;
  lazymatch goal with |- carried _ _ [?w] _ _ =>
    apply carried_one; [|intros r Hs Hd Hc; rewrite <- Hd; apply (reads_pseudo (at_rect r w)); [done| |done]; intros rest; eexists]
  end;
  [|unfold readRectBody, at_rect; cbn [rectEncoding w_encoding w_body cr_dataRect cr_server w_x w_y w_width w_height];
    rewrite ?width_setXYWH, ?height_setXYWH, ?tl_setXYWH; cbn [px py]; repeat eval_test; unfold done_call; cbn [app]].

Section delivery.
Context (client : ClientParams) {handler : CMsgHandler} {decoders : RectDecoder}.
Implicit Types (s : swriter) (server : ServerParams) (d : decoder).

(** What of the client's record fits the rectangles it travels in. *)
Definition sendable : Prop :=
  let c := cursor_ (cp client) in
  let name := name_ (cp client) in
  cursor_wf c /\ cur_width c <= maxCursorSize /\ cur_height c <= maxCursorSize /\
  u16_wf (px (cur_hotspot c)) /\ u16_wf (py (cur_hotspot c)) /\
  u16_wf (px (cursorPos_ client)) /\ u16_wf (py (cursorPos_ client)) /\
  ~ In 0 name /\ isValidUTF8 (name ++ [0]) npos = Some true /\ len name < 2 ^ 32 /\
  (ledState_ (cp client) = ledUnknown \/ 0 <= ledState_ (cp client) < 256) /\
  (bpp (pf_ (cp client)) = 8 \/ bpp (pf_ (cp client)) = 16 \/ bpp (pf_ (cp client)) = 32).

(** The image a client shows: the colours of its pixel format, or two of them,
    or what multiplying with alpha has left. *)
Definition received_cursor : list Z :=
  let c := cursor_ (cp client) in
  let w := cur_width c in
  let h := cur_height c in
  let pf := pf_ (cp client) in
  let n := Z.to_nat (w * h) in
  if cursor_encoding client =? pseudoEncodingCursorWithAlpha then unpremultiply n (premultiply n (cur_data c))
  else if cursor_encoding client =? pseudoEncodingVMwareCursor then cur_data c
  else if cursor_encoding client =? pseudoEncodingCursor then
    cursor_rgba pf w h (cursor_pixels pf n (cur_data c)) (getMask c)
  else xcursor_rgba w h [255; 255; 255] [0; 0; 0] (getBitmap c) (getMask c).

Definition cursor_event : cevent :=
  let c := cursor_ (cp client) in setCursor_ev (cur_width c) (cur_height c) (cur_hotspot c) received_cursor.

Definition pseudo_events (s : swriter) : list cevent :=
  (if needCursor s then [cursor_event] else []) ++
  (if needCursorPos s then [setCursorPos_ev (cursorPos_ client)] else []) ++
  (if needSetDesktopName s then [setName_ev (name_ (cp client))] else []) ++
  (if needLEDState s then [setLEDState_ev (ledState_ (cp client))] else []) ++
  (if needQEMUKeyEvent s then [supportsQEMUKeyEvent_ev] else []) ++
  (if needExtMouseButtonsEvent s then [supportsExtendedMouseButtons_ev] else []).

Hypothesis Hsend : sendable.

Lemma carries_position server d : carried server d [position_wire client] [setCursorPos_ev (cursorPos_ client)] d.
Proof.
  destruct Hsend as (_ & _ & _ & _ & _ & Hx & Hy & _). unfold u16_wf in *.
  stateless; [wire_fits|]. read_fields. destruct (cursorPos_ client). done.
Qed.

Lemma carries_name server d : carried server d [name_wire client] [setName_ev (name_ (cp client))] d.
Proof.
  destruct Hsend as (_ & _ & _ & _ & _ & _ & _ & Hnul & Hvalid & Hlen & _). pose proof (len_nonneg (name_ (cp client))).
  stateless; [wire_fits|]. unfold readSetDesktopName, writeBytes. read_fields. rewrite u32_id by lia. read_fields.
  rewrite arun_readBytes by lia. cbn [z2b Z.eqb negb orb]. rewrite Hvalid. cbn [default negb]. read_fields.
  rewrite strchr_split_end by done. done.
Qed.

Lemma carries_led server d : ledState_ (cp client) <> ledUnknown ->
  carried server d [led_wire client] [setLEDState_ev (ledState_ (cp client))] d.
Proof.
  intros Hknown. destruct Hsend as (_ & _ & _ & _ & _ & _ & _ & _ & _ & _ & [Hled|Hled] & _); [done|].
  unfold led_wire. destruct (supports client pseudoEncodingLEDState).
  - stateless; [wire_fits|]. unfold readLEDState. read_fields. by rewrite (u8_id (ledState_ (cp client))), u8_id by lia.
  - stateless; [wire_fits|]. unfold readVMwareLEDState. read_fields. by rewrite (u8_id (ledState_ (cp client))), u32_id by lia.
Qed.

Lemma carries_qemu server d : carried server d [qemu_wire] [supportsQEMUKeyEvent_ev] d.
Proof. stateless; [wire_fits|]. by read_fields. Qed.
Lemma carries_buttons server d : carried server d [buttons_wire] [supportsExtendedMouseButtons_ev] d.
Proof. stateless; [wire_fits|]. by read_fields. Qed.

(** *** The cursor *)

Lemma cursor_fits : cursor_too_large (cur_width (cursor_ (cp client))) (cur_height (cursor_ (cp client))) = false.
Proof.
  destruct Hsend as (_ & Hw & Hh & _). unfold cursor_too_large. by rewrite !Z.gtb_ltb, !(proj2 (Z.ltb_ge _ _)) by lia.
Qed.

Lemma cursor_wire_wf : wire_wf (cursor_wire client).
Proof.
  destruct Hsend as ((Hw0 & Hh0 & _) & Hw & Hh & Hx & Hy & _). unfold maxCursorSize, u16_wf, wire_wf, cursor_wire, u16_wf in *.
  cbv zeta. cbn [w_x w_y w_width w_height w_encoding]. split_and!; try lia; unfold cursor_encoding; repeat case_match;
    first [vm_compute; congruence|vm_compute; reflexivity].
Qed.

Lemma znonneg_mul a b : 0 <= a -> 0 <= b -> 0 <= a * b.
Proof. nia. Qed.

(** The cursor in one of the forms that are read at once. *)
Lemma carries_cursor server d : cursor_encoding client <> pseudoEncodingCursorWithAlpha ->
  (cursor_encoding client = pseudoEncodingCursor -> pf_ (sp server) = pf_ (cp client)) ->
  carried server d [cursor_wire client] [cursor_event] d.
Proof.
  intros Hna Hpf. pose proof cursor_fits as Hfit. destruct Hsend as (Hcw & Hw & Hh & Hx & Hy & _).
  pose proof (len_getMask _ Hcw) as Hmask. pose proof (len_getBitmap _ Hcw) as Hbitmap.
  destruct Hsend as (_ & _ & _ & _ & _ & _ & _ & _ & _ & _ & _ & Hbpp).
  pose proof Hcw as (Hw0 & Hh0 & Hlen & _). pose proof (len_nonneg (getMask (cursor_ (cp client)))).
  pose proof (znonneg_mul _ _ Hw0 Hh0) as Hn.
  pose proof cursor_wire_wf as Hwf. unfold cursor_event, received_cursor, cursor_wire, cursor_body in *. cbv zeta in *.
  set (c := cursor_ (cp client)) in *. set (w := cur_width c) in *. set (h := cur_height c) in *.
  assert (cursor_encoding client = pseudoEncodingVMwareCursor \/ cursor_encoding client = pseudoEncodingCursor \/
    cursor_encoding client = pseudoEncodingXCursor) as [He|[He|He]].
  { revert Hna. unfold cursor_encoding. repeat case_match; intros Hna; first [done|by auto]. }
  all: rewrite He in *; repeat eval_test.
  - stateless; [done|]. unfold readSetVMwareCursor. rewrite Hfit. rewrite (ztake_eq _ (cur_data c)) by lia.
    read_fields. change (u8 1) with 1. repeat eval_test. read_fields.
    replace (w * h * 4) with (len (cur_data c)) by lia. read_fields. rewrite arun_readBytes by lia. read_fields.
    by destruct (cur_hotspot c).
  - stateless; [done|]. unfold readSetCursor. rewrite Hfit. cbv zeta. rewrite Hs, Hpf by done. set (pf := pf_ (cp client)) in *.
    pose proof (len_cursor_pixels pf (Z.to_nat (w * h)) (cur_data c) Hbpp ltac:(lia)) as Hpix. rewrite Z2Nat.id in Hpix by done.
    set (data := cursor_pixels pf _ _) in *. rewrite (ztake_eq _ data), (ztake_eq _ (getMask c)) by lia.
    rewrite <- Hpix, <- Hmask. read_fields. rewrite arun_readBytes by llia. rewrite arun_readBytes by llia. read_fields.
    by destruct (cur_hotspot c).
  - destruct (w * h >? 0) eqn:Hempty; (stateless; [done|]); unfold readSetXCursor; rewrite Hfit; cbv zeta; rewrite Hempty.
    + rewrite (ztake_eq _ (getBitmap c)), (ztake_eq _ (getMask c)) by lia. rewrite <- Hmask at 1. rewrite <- Hbitmap.
      read_fields. rewrite arun_readBytes by llia. rewrite Hbitmap, <- Hmask. rewrite arun_readBytes by llia. read_fields.
      by destruct (cur_hotspot c).
    + rewrite Z.gtb_ltb in Hempty. apply Z.ltb_ge in Hempty. read_fields. assert (w * h = 0) as Hz by lia.
      unfold xcursor_rgba. rewrite pixels_empty by done. rewrite Hz. by destruct (cur_hotspot c).
Qed.

(** The image of a cursor with alpha is a rectangle of its own: the decoders
    must read raw pixels, and give them back. *)
Definition image_read (server : ServerParams) (d d1 : decoder) : Prop :=
  let c := cursor_ (cp client) in
  let frame := rect 0 0 (cur_width c) (cur_height c) in
  let body := premultiply (Z.to_nat (cur_width c * cur_height c)) (cur_data c) in
  (forall rest, exists chk, arun (decodeRect (server_setPF rgbaPF server) frame encodingRaw d) (AState (body ++ rest) None 0) =
     Ok ((true, d1), AState rest None chk, [])) /\
  flush (server_setPF rgbaPF server) frame encodingRaw (queued d1) = Ok body.

Lemma carries_alpha server d d1 : cursor_encoding client = pseudoEncodingCursorWithAlpha -> server_wf server ->
  image_read server d d1 -> carried server d [cursor_wire client] [cursor_event] d1.
Proof.
  intros He Hswf [Hread Hflush]. apply carried_one; [apply cursor_wire_wf|]. intros r Hs Hd Hc.
  unfold cursor_event, received_cursor, cursor_wire, cursor_body in *. cbv zeta in *. rewrite He in *. repeat eval_test.
  set (c := cursor_ (cp client)) in *. set (body := premultiply _ _) in *. cbn [w_body].
  set (r' := at_rect r _).
  assert (width (cr_dataRect r') = cur_width c) as Hw by (apply width_setXYWH).
  assert (height (cr_dataRect r') = cur_height c) as Hh by (apply height_setXYWH).
  pose proof (reads_alpha r' body body d1) as Hr. cbv zeta in Hr. rewrite Hw, Hh in Hr.
  unfold r', at_rect in Hr. cbn [cr_server cr_decoder cr_dataRect] in Hr.
  rewrite Hs, Hd, tl_setXYWH in Hr. cbn [w_x w_y w_width w_height] in Hr.
  replace (MkPoint (px (cur_hotspot c)) (py (cur_hotspot c))) with (cur_hotspot c) in Hr by by destruct (cur_hotspot c).
  unfold r', at_rect. rewrite Hs, Hd. by apply Hr; [|done|apply cursor_fits|..].
Qed.

(** ** An update *)

(** Rectangles of pixels the client's decoders can read: they lie in its
    framebuffer, and their data is what the decoder of their encoding takes. *)
Inductive decodable : ServerParams -> decoder -> list (Rect * Z * list Z) -> list cevent -> decoder -> Prop :=
| decodable_nil server d : decodable server d [] [] d
| decodable_cons server d r e data d1 rects evs d2 :
    rect_wf r -> - 2 ^ 31 <= e < 2 ^ 31 ->
    pseudo_encoding e = false -> e <> pseudoEncodingLastRect -> e <> pseudoEncodingCursorWithAlpha ->
    px (br r) <= width_ (sp server) -> py (br r) <= height_ (sp server) ->
    (forall rest, exists chk, arun (decodeRect server r e d) (AState (data ++ rest) None 0) =
       Ok ((true, d1), AState rest None chk, [])) ->
    decodable (after server (dataRect r e (queued d1))) d1 rects evs d2 ->
    decodable server d ((r, e, data) :: rects) (dataRect r e (queued d1) :: evs) d2.

Lemma carries_rects server d rects evs d2 : decodable server d rects evs d2 ->
  carried server d (map rect_wire rects) evs d2.
Proof.
  induction 1 as [|server d r e data d1 rects evs d2 Hr He Hp Hl Ha Hx Hy Hread _ IH]; [constructor|].
  cbn [map]. change (?ev :: ?evs) with ([ev] ++ evs). econstructor; [| |exact IH].
  - unfold wire_wf. cbn. by destruct Hr as (? & ? & ? & ?).
  - intros r' Hs Hd Hc. unfold rect_wire. cbn [w_body].
    assert (setXYWH (px (tl r)) (py (tl r)) (width r) (height r) = r) as Hrect by apply rect_xywh.
    pose proof (reads_pixels (at_rect r' (Wire (px (tl r)) (py (tl r)) (width r) (height r) e data)) data d1) as Hread'.
    unfold at_rect in *. cbn [rectEncoding cr_dataRect cr_server cr_decoder w_x w_y w_width w_height w_encoding] in *.
    rewrite Hrect, Hs, Hd in *. by apply Hread'.
Qed.

(** The decoders behind the cursor of an update, if there is one: its image is
    read by them when it has alpha; when it is in the client's own pixel format,
    both sides must mean the same one. *)
Definition cursor_read (s : swriter) (server : ServerParams) (d d1 : decoder) : Prop :=
  if needCursor s then
    if cursor_encoding client =? pseudoEncodingCursorWithAlpha then server_wf server /\ image_read server d d1
    else d1 = d /\ (cursor_encoding client = pseudoEncodingCursor -> pf_ (sp server) = pf_ (cp client))
  else d1 = d.

Lemma carried_if (b : bool) server d w ev : (b = true -> carried server d [w] [ev] d) ->
  carried server d (if b then [w] else []) (if b then [ev] else []) d.
Proof. intros H. destruct b; [by apply H|constructor]. Qed.

Lemma carries_pseudo s server d d1 : writer_ok client s -> cursor_read s server d d1 ->
  carried server d (pseudo_wires client s) (pseudo_events s) d1.
Proof.
  intros Hok Hcur. unfold pseudo_wires, pseudo_events. apply carried_app with d1.
  - unfold cursor_read in Hcur. destruct (needCursor s); [|subst; constructor].
    destruct (Z.eqb_spec (cursor_encoding client) pseudoEncodingCursorWithAlpha).
    + destruct Hcur. by apply carries_alpha.
    + destruct Hcur as [-> Hpf]. by apply carries_cursor.
  - destruct Hok as (_ & _ & _ & Hled & _).
    repeat (eapply carried_app; [apply carried_if; intros Hb|]);
      auto using carries_position, carries_name, carries_qemu; [by apply carries_led, Hled|].
    apply carried_if. intros _. apply carries_buttons.
Qed.

(** An update whose rectangles the client can read, with the calls [evs]. *)
Lemma framed_delivered (maxCutText : Z) (inflate : list Z -> zseg) marked ws evs server d d2 r rest :
  (marked = false -> 0 < len ws) -> len ws < 0xFFFF ->
  carried (after server framebufferUpdateStart) d ws evs d2 ->
  idle r server d -> accepts server (framebufferUpdateStart :: evs ++ [framebufferUpdateEnd]) ->
  exists r', idle r' (foldl after server (framebufferUpdateStart :: evs ++ [framebufferUpdateEnd])) d2 /\
  forall r2 rest2 evs2, drains (readMsg maxCutText inflate) r' rest r2 rest2 evs2 ->
  drains (readMsg maxCutText inflate) r (framed_bytes marked ws ++ rest) r2 rest2
    ((framebufferUpdateStart :: evs ++ [framebufferUpdateEnd]) ++ evs2).
Proof.
  intros Hn Hmax Hall Hidle Hacc. pose proof (len_nonneg ws) as Hlen0.
  apply (accepts_app _ [framebufferUpdateStart]) in Hacc as [Hacc0 Hacc]. cbn [foldl] in Hacc.
  set (n := if marked then 0xFFFF else len ws).
  assert (0 < n < 65536) as Hcount by (unfold n; destruct marked; [lia|specialize (Hn eq_refl); lia]).
  unfold framed_bytes. fold n. cbn [foldl]. rewrite <- (app_assoc (update_header_bytes _)), <- (app_assoc (wires_bytes _)).
  destruct (outcome_update maxCutText inflate r n server d
    (wires_bytes ws ++ (if marked then wire_bytes last_wire else []) ++ rest) Hidle Hcount Hacc0) as (r1 & Hb & Hout).
  unfold n, wires_bytes in *. change (framebufferUpdateStart :: ?l) with ([framebufferUpdateStart] ++ l). destruct marked.
  - apply accepts_app in Hacc as [Hacc1 Hacc2].
    destruct (steps_carried maxCutText inflate _ _ _ _ _ (wire_bytes last_wire ++ rest) Hall r1 _ Hb ltac:(lia) Hacc1)
      as (r2 & Hsteps & Hb2).
    destruct (steps_last maxCutText inflate r2 _ _ _ rest Hb2 Hacc2) as (r3 & Hsteps3 & Hidle3).
    exists r3. rewrite foldl_app. split; [done|]. intros r4 rest4 evs4 Hd.
    rewrite <- (app_assoc [framebufferUpdateStart]), <- (app_assoc evs).
    eapply drains_prefix; [exact Hout|]. eapply steps_drains; [exact Hsteps|]. by eapply steps_drains.
  - destruct ws as [|w ws']; [exfalso; by apply (Z.lt_irrefl 0), Hn|].
    destruct (steps_counted maxCutText inflate _ _ _ _ _ _ rest Hall r1 Hb Hacc) as (r2 & Hsteps & Hidle2).
    exists r2. split; [done|]. intros r4 rest4 evs4 Hd.
    rewrite <- (app_assoc [framebufferUpdateStart]). eapply drains_prefix; [exact Hout|]. by eapply steps_drains.
Qed.

Definition update_events (s : swriter) (rect_events : list cevent) : list cevent :=
  framebufferUpdateStart :: (pseudo_events s ++ rect_events) ++ [framebufferUpdateEnd].

Lemma update_delivered (maxCutText : Z) (inflate : list Z -> zseg) s rects server d d1 d2 rect_events r rest :
  writer_ok client s ->
  (marked_update client = false -> 0 < len (update_wires client s rects)) ->
  len (update_wires client s rects) < 0xFFFF ->
  cursor_read s (after server framebufferUpdateStart) d d1 ->
  decodable (foldl after (after server framebufferUpdateStart) (pseudo_events s)) d1 rects rect_events d2 ->
  idle r server d -> accepts server (update_events s rect_events) ->
  exists r', idle r' (foldl after server (update_events s rect_events)) d2 /\
  forall r2 rest2 evs2, drains (readMsg maxCutText inflate) r' rest r2 rest2 evs2 ->
  drains (readMsg maxCutText inflate) r (update_bytes client s rects ++ rest) r2 rest2
    (update_events s rect_events ++ evs2).
Proof.
  intros Hok Hn Hmax Hcur Hdec. apply framed_delivered; [done|done|].
  eapply carried_app; [by apply carries_pseudo|by apply carries_rects].
Qed.
End delivery.

(** Raw pixels in the hands of the decode manager. *)
Lemma manager_raw h264 server r data rest (m : manager) : partialEntry m = None -> len data = area r * bytesPerPixel server ->
  exists chk, arun (manager_decodeRect (E:=cevent) h264 server r encodingRaw m) (AState (data ++ rest) None 0) =
  Ok ((true, Manager None data (readTile m) (readState m) (readPalSize m)), AState rest None chk, []).
Proof.
  intros Hm Hl. pose proof (len_nonneg data). pose proof (len_nonneg rest). eexists. unfold manager_decodeRect, decodes, supported. cbn [Z.eqb encodingRaw encodingJPEG orb andb negb].
  unfold decoder_readRect. change (encodingRaw =? encodingRaw) with true. cbv iota. unfold whole, raw_readRect, wait_for.
  rewrite <- Hl. read_fields. rewrite !arun_bind_assoc, arun_readBytes by lia. read_fields.
  unfold enqueue_if, enqueue, begin_entry. rewrite Hm. cbn. reflexivity.
Qed.

Lemma idle_waits {handler : CMsgHandler} {decoders : RectDecoder} maxCutText inflate r server d :
  idle r server d -> drains (readMsg maxCutText inflate) r [] r [] [].
Proof. intros (Hst & _). constructor. unfold readMsg. by rewrite Hst. Qed.

(** C5: an update arrives.  For a writer that keeps its promises and a client
    whose record fits the wire, the update can be written whatever waits in the
    writer - the rectangles agree with the number announced, or the update ends
    with the marker the client has asked for; nothing but a change of the size
    waits behind it.  Cut into any pieces, it makes the client call its handler
    with the start of an update, the changes (the cursor, its position, the
    name, the LEDs, the two announcements), the rectangles of pixels, and the
    end of the update, in this order; no byte is left, and the client is ready
    for the next message. *)
Theorem server_update_delivered (client : ClientParams) (maxCutText : Z) (inflate : list Z -> zseg)
    (handler : CMsgHandler) (decoders : RectDecoder) (s : swriter) (rects : list (Rect * Z * list Z))
    (r : creader) (server : ServerParams) (d d1 d2 : decoder) (rect_events : list cevent) (chunks : list (list Z)) :
  sendable client -> writer_ok client s ->
  (marked_update client = false -> 0 < len (update_wires client s rects)) ->
  len (update_wires client s rects) < 0xFFFF ->
  creader_ok r -> idle r server d -> accepts server (update_events client s rect_events) ->
  cursor_read client s (after server framebufferUpdateStart) d d1 ->
  decodable (foldl after (after server framebufferUpdateStart) (pseudo_events client s)) d1 rects rect_events d2 ->
  Forall bytes chunks -> concat chunks = update_bytes client s rects ->
  write_update client rects s = Ok (sent client s rects, concat chunks) /\
  exists r', feeds (readMsg maxCutText inflate) r [] chunks r' [] (update_events client s rect_events) /\
    idle r' (foldl after server (update_events client s rect_events)) d2.
Proof.
  intros Hsend Hok Hn Hmax Hr Hidle Hacc Hcur Hdec Hb Hc. split.
  { rewrite Hc. apply write_update_ok; [done|]. intros Hl. specialize (Hn Hl). lia. }
  destruct (update_delivered client Hsend maxCutText inflate s rects server d d1 d2 rect_events r []
    Hok Hn Hmax Hcur Hdec Hidle Hacc) as (r' & Hidle' & Hd).
  exists r'. split; [|done]. apply (feeds_of_drains (P := hanging) creader_ok cmu);
    [intros l Hl; apply readMsg_states; [apply hang_hanging|done]|done|constructor|done|]. cbn [app]. rewrite Hc.
  specialize (Hd r' [] [] (idle_waits _ _ _ _ _ Hidle')). by rewrite !app_nil_r in Hd.
Qed.

(** A cursor that waits, and a rectangle of one raw pixel. *)
Lemma server_update_delivered_witness :
  let s := set_needCursor true init_writer in
  let client := setEncodings [pseudoEncodingVMwareCursor; pseudoEncodingLastRect] init_client in
  let rects := [(rect 1 0 2 1, encodingRaw, [10; 20; 30; 40])] in
  let events := [framebufferUpdateStart; setCursor_ev 0 0 (MkPoint 0 0) []; dataRect (rect 1 0 2 1) 0 [10; 20; 30; 40];
    framebufferUpdateEnd] in
  let bs := [0; 0; 255; 255] ++ [0; 0; 0; 0; 0; 0; 0; 0; 0x57; 0x4d; 0x56; 0x64; 1; 0] ++
    [0; 1; 0; 0; 0; 1; 0; 1; 0; 0; 0; 0] ++ [10; 20; 30; 40] ++ [0; 0; 0; 0; 0; 0; 0; 0; 255; 255; 255; 32] in
  write_update client rects s = Ok (sent client s rects, bs) /\
  exists r', feeds (@readMsg 100 stored keep_handler copy_decoders) some_reader [] [ztake 9 bs; zdrop 9 bs] r' [] events /\
    @idle copy_decoders r' some_server (Manager None [10; 20; 30; 40] (MkPoint 0 0) T_IDLE 0).
Proof.
  intros s client rects events bs.
  pose proof (server_update_delivered client 100 stored keep_handler copy_decoders s rects some_reader some_server
    (Manager None [] (MkPoint 0 0) T_IDLE 0) (Manager None [] (MkPoint 0 0) T_IDLE 0)
    (Manager None [10; 20; 30; 40] (MkPoint 0 0) T_IDLE 0) [dataRect (rect 1 0 2 1) 0 [10; 20; 30; 40]]
    [ztake 9 bs; zdrop 9 bs]) as Hthm.
  apply Hthm; clear Hthm.
  - unfold sendable, cursor_wf, u16_wf. cbv zeta. split_and!;
      first [vm_compute; congruence|vm_compute; reflexivity|by intros []|by constructor|by left|auto].
  - unfold writer_ok. split_and!; intros H; first [discriminate H|vm_compute; reflexivity|by destruct H].
  - discriminate.
  - reflexivity.
  - exact some_reader_ok.
  - by split_and!.
  - by intros evs1 ev evs2 _.
  - split; done.
  - refine (@decodable_cons keep_handler copy_decoders some_server _ (rect 1 0 2 1) encodingRaw [10; 20; 30; 40]
      (Manager None [10; 20; 30; 40] (MkPoint 0 0) T_IDLE 0) [] [] _ _ _ _ _ _ _ _ _ (@decodable_nil keep_handler copy_decoders _ _)).
    + unfold rect_wf, u16_wf, width, height. cbn. lia.
    + vm_compute. split; congruence.
    + done.
    + done.
    + done.
    + cbn. lia.
    + cbn. lia.
    + intros rest. by apply manager_raw.
  - repeat (constructor; [by apply bytes_decide|]). constructor.
  - vm_compute. reflexivity.
Defined.
