(* ===== verification/ServerSession.v ===== *)
(** * Everything a server sends

    The messages [SMsgWriter] sends at once, and a whole session of calls:
    messages, changes that wait and the updates that carry them. *)
From stdpp Require Import base gmap list numbers strings option.
From S2P Require Import Prelude InStream OutStream Strings PixelFmt Geometry Screens Params Cursors Clipboard ServerMsgs Decoders ServerReader ServerWriter ServerDelivery Updates.
#[local] Open Scope Z_scope.

Lemma reads_back_U16 {E} x : reads_back (E:=E) readU16 writeU16 u16 2 x.
Proof. intros C k d rp c Hc. unfold readU16. cbn [prog_bind]. rewrite arun_take_app by llia. by rewrite be16_write. Qed.

Lemma rt_ColourMap first n (red green blue : Z -> Z) rest : u16_wf first -> u16_wf n ->
  (forall i, first <= i < first + n -> u16_wf (red i) /\ u16_wf (green i) /\ u16_wf (blue i)) ->
  outcome readSetColourMapEntries (pad 1 ++ writeU16 first ++ writeU16 n ++
    concat (map (fun i => writeU16 (red i) ++ writeU16 (green i) ++ writeU16 (blue i)) (seqZ first n)) ++ rest) =
  Ok (true, rest, [setColourMapEntries first n (concat (map (fun i => [red i; green i; blue i]) (seqZ first n)))]).
Proof.
  unfold u16_wf. intros Hf Hn Hc. set (rgbs := concat (map (fun i => [red i; green i; blue i]) (seqZ first n))).
  assert (forall l, concat (map (fun i => writeU16 (red i) ++ writeU16 (green i) ++ writeU16 (blue i)) l) =
    concat (map writeU16 (concat (map (fun i => [red i; green i; blue i]) l)))) as Hflat.
  { induction l as [|i l IH]; [done|]. cbn [map concat]. rewrite map_app, concat_app, IH. cbn [map concat]. by rewrite app_nil_r. }
  assert (forall l, len (concat (map (fun i => [red i; green i; blue i]) l)) = 3 * len l) as Hlen.
  { induction l as [|i l IH]; [done|]. cbn [map concat]. rewrite len_app, IH, !len_cons, len_nil. lia. }
  assert (len rgbs = n * 3) as Hl by (unfold rgbs; rewrite Hlen; unfold len; rewrite length_seqZ; lia).
  rewrite Hflat. fold rgbs.
  pose proof (len_concat_map writeU16 2 rgbs len_writeU16).
  unfold readSetColourMapEntries. run_reader. rewrite !u16_id by lia. read_fields.
  replace (Z.to_nat (n * 3)) with (length rgbs) by (unfold len in Hl; lia).
  rewrite (reads_back_repeatM readU16 writeU16 u16 2) by (lia || (apply Forall_true; apply reads_back_U16)).
  unfold done_call. read_fields. do 4 f_equal.
  rewrite <- (List.map_id rgbs) at 2. apply map_ext_Forall. unfold rgbs. apply Forall_concat, List.Forall_map.
  apply List.Forall_forall. intros i Hi%list_elem_of_In%elem_of_seqZ. destruct (Hc i Hi) as (? & ? & ?).
  repeat constructor; apply u16_id; lia.
Qed.

Section plain.
Context (maxCutText : Z) (inflate : list Z -> zseg) (deflate : list Z -> list Z) (client : ClientParams)
  {handler : CMsgHandler} {decoders : RectDecoder}.
Hypothesis maxCutText_int : 0 <= maxCutText < 2 ^ 31.
Hypothesis inflate_deflate : forall u, bytes u ->
  z_out (inflate (deflate u)) = u /\ z_end (inflate (deflate u)) = z_wants_more.

(** The messages that are sent at once, with arguments that fit their fields
    and a clipboard the client is willing to take; and the calls they make. *)
Definition plain (m : smsg) (evs : list cevent) : Prop :=
  match m with
  | SetColourMapEntries first n red green blue => u16_wf first /\ u16_wf n /\
      (forall i, first <= i < first + n -> u16_wf (red i) /\ u16_wf (green i) /\ u16_wf (blue i)) /\
      evs = [setColourMapEntries first n (concat (map (fun i => [red i; green i; blue i]) (seqZ first n)))]
  | Bell => evs = [bell]
  | ServerCutText str => exists text, str = utf8_text text /\ Forall (fun c => scalar c /\ c <> 0) text /\
      len (utf8_text text) < npos /\ len text <= maxCutText /\
      evs = [serverCutText (utf8_text (map (fun c => if c >? 0xff then 63 else c) text))]
  | ClipboardCaps caps lengths => u32_wf caps /\ length lengths = length (formats caps) /\
      Forall u32_wf lengths /\ 4 + 4 * len lengths <= maxCutText /\
      evs = [handleClipboardCaps (Z.lor caps clipboardCaps) lengths]
  | ClipboardRequest flags => 0 <= flags < 2 ^ 24 /\ 4 <= maxCutText /\
      evs = [handleClipboardRequest (Z.lor flags clipboardRequest)]
  | ClipboardPeek flags => 0 <= flags < 2 ^ 24 /\ 4 <= maxCutText /\ evs = [handleClipboardPeek]
  | ClipboardNotify flags => 0 <= flags < 2 ^ 24 /\ 4 <= maxCutText /\
      evs = [handleClipboardNotify (Z.lor flags clipboardNotify)]
  | ClipboardProvide flags buffers => 0 <= flags < 2 ^ 24 /\ formats flags <> [] /\ length buffers = length (formats flags) /\
      Forall (fun b => bytes b /\ len b <= maxCutText) buffers /\
      4 + len (deflate (provide_data buffers)) <= maxCutText /\
      evs = [handleClipboardProvide (Z.lor flags clipboardProvide) buffers]
  | ServerFence flags data => u32_wf flags /\ evs = [fence flags data]
  | EndOfContinuousUpdates => evs = [endOfContinuousUpdates]
  | _ => False
  end.

#[local] Abbreviation R := (readMsg maxCutText inflate).

(** A message whose type announces the reader [p]. *)
Lemma plain_read r server d t p body rest evs : idle r server d -> t <> msgTypeFramebufferUpdate -> 0 <= t < 256 ->
  readBody maxCutText inflate t = p -> outcome p (body ++ rest) = Ok (true, rest, evs) -> accepts server evs ->
  exists r', outcome (R r) ((writeU8 t ++ body) ++ rest) = Ok (true, r', rest, evs) /\ idle r' (foldl after server evs) d.
Proof.
  intros (Hst & Hce & Hs & Hd) Ht Hrange Hp Hout Hacc. pose proof (len_nonneg body). pose proof (len_nonneg rest).
  unfold outcome, fresh, readMsg in *. rewrite Hst. read_fields. rewrite u8_id by lia.
  change (1 - 1) with 0. cbn [fmap option_fmap option_map]. unfold read_message. cbn [cr_currentMsgType].
  rewrite (proj2 (Z.eqb_neq _ _) Ht). cbn [negb]. unfold mbind, prog_mbind. rewrite arun_bind. cbn [cr_server].
  destruct (arun p _) as [[[b [d' [|] c]] evs']|] eqn:Hrun; [done| |done]. injection Hout as -> -> ->.
  rewrite Hp, Hs, (arun_through _ _ _ _ _ _ Hacc Hrun). eexists. split; [unfold to_idle; cbn; rewrite app_nil_r; reflexivity|].
  by repeat split.
Qed.

Ltac cut_message :=
  eapply (plain_read _ _ _ _ (readCutTextMsg maxCutText inflate true));
  [done|done|vm_compute; split; congruence|reflexivity| |done].
Ltac plain_message :=
  eapply plain_read; [done|done|vm_compute; split; congruence|reflexivity| |done].

Lemma plain_delivered m evs s s' bs r server d rest : plain m evs -> write_smsg client deflate m s = Ok (s', bs) ->
  idle r server d -> accepts server evs ->
  s' = s /\ exists r', outcome (R r) (bs ++ rest) = Ok (true, r', rest, evs) /\ idle r' (foldl after server evs) d.
Proof.
  intros Hm Hw Hi Ha. destruct m; cbn [write_smsg plain] in *; try done.
  - destruct Hm as (Hf & Hn & Hc & ->). injection Hw as <- <-. split; [done|].
    plain_message. rewrite <- !app_assoc. by apply rt_ColourMap.
  - subst evs. injection Hw as <- <-. split; [done|]. rewrite <- (app_nil_r (writeU8 msgTypeBell)). by plain_message.
  - destruct Hm as (text & -> & Ht & Hl & Hmax & ->). unfold writeServerCutText in Hw.
    destruct (writeCutTextMsg _ _) as [b|] eqn:Hb; [|done]. injection Hw as <- <-. split; [done|].
    destruct (rt_CutText (E:=cevent) maxCutText inflate maxCutText_int true _ text rest b Ht Hl Hmax Hb) as (body & -> & Hr).
    by plain_message.
  - destruct Hm as (Hc & Hl & Hf & Hmax & ->). unfold writeClipboardCaps, andthen, demand, refuse in Hw.
    destruct (negb _); [done|]. injection Hw as <- <-. split; [done|]. unfold writeCapsMsg. cut_message.
    rewrite <- !app_assoc. by apply (rt_caps (E:=cevent) (MsgEvents0:=CMsgEvents)).
  - destruct Hm as (Hf & Hmax & ->). unfold writeClipboardRequest, demand_action, andthen, demand, refuse in Hw.
    repeat (destruct (negb _); [done|]). injection Hw as <- <-. split; [done|]. unfold writeActionMsg. cut_message.
    rewrite <- !app_assoc. apply (rt_simple_action (E:=cevent) (MsgEvents0:=CMsgEvents)); auto.
  - destruct Hm as (Hf & Hmax & ->). unfold writeClipboardPeek, demand_action, andthen, demand, refuse in Hw.
    repeat (destruct (negb _); [done|]). injection Hw as <- <-. split; [done|]. unfold writeActionMsg. cut_message.
    rewrite <- !app_assoc. apply (rt_simple_action (E:=cevent) (MsgEvents0:=CMsgEvents)); auto.
  - destruct Hm as (Hf & Hmax & ->). unfold writeClipboardNotify, demand_action, andthen, demand, refuse in Hw.
    repeat (destruct (negb _); [done|]). injection Hw as <- <-. split; [done|]. unfold writeActionMsg. cut_message.
    rewrite <- !app_assoc. apply (rt_simple_action (E:=cevent) (MsgEvents0:=CMsgEvents)); auto.
  - destruct Hm as (Hf & Hne & Hl & Hb & Hmax & ->). unfold writeClipboardProvide, demand_action, andthen, demand, refuse in Hw.
    repeat (destruct (negb _); [done|]). injection Hw as <- <-. split; [done|]. unfold writeProvideMsg. cut_message.
    rewrite <- !app_assoc. by apply (rt_provide (E:=cevent) (MsgEvents0:=CMsgEvents)).
  - destruct Hm as (Hf & ->). unfold writeFence, andthen, demand, refuse in Hw.
    destruct (negb _); [done|]. destruct (len data >? 64) eqn:Hlen; [done|]. destruct (negb _); [done|].
    injection Hw as <- <-. split; [done|]. bool_decide_hyps. unfold writeFenceMsg. plain_message. rewrite <- !app_assoc.
    by apply (rt_Fence (E:=cevent) (MsgEvents0:=CMsgEvents)).
  - subst evs. unfold writeEndOfContinuousUpdates, andthen, demand, refuse in Hw.
    destruct (negb _); [done|]. injection Hw as <- <-. split; [done|]. cbn [app].
    rewrite <- (app_nil_r (writeU8 msgTypeEndOfContinuousUpdates)). by plain_message.
Qed.
End plain.

(** ** Changes of the size *)

Section sizes.
Context (client : ClientParams).
Implicit Types (s : swriter).

Definition size_wire (m : Z * Z) : wire :=
  Wire m.1 m.2 (width_ (cp client)) (height_ (cp client)) pseudoEncodingExtendedDesktopSize
    (writeU8 (num_screens (screenLayout_ (cp client))) ++ pad 3 ++ concat (map screen_bytes (screenLayout_ (cp client)))).
Definition size_wires (msgs : list (Z * Z)) : list wire :=
  if bool_decide (msgs = []) then []
  else if supports client pseudoEncodingExtendedDesktopSize then map size_wire msgs
  else [Wire 0 0 (width_ (cp client)) (height_ (cp client)) pseudoEncodingDesktopSize []].

Lemma emits_sizes msgs s : supports client pseudoEncodingExtendedDesktopSize = true -> room (len msgs) s ->
  emits (size_rects client msgs) s (counted (len msgs) s) (map size_wire msgs).
Proof.
  intros Hs. revert s. induction msgs as [|[reason result] msgs IH]; intros s Hr.
  - unfold counted, emits. cbn. rewrite Z.add_0_r. by destruct s.
  - rewrite len_cons in Hr. pose proof (len_nonneg msgs). cbn [size_rects map].
    change (size_wire ?m :: ?l) with ([size_wire m] ++ l). eapply emits_andthen.
    + unfold writeExtendedDesktopSizeRect. apply emits_rect; [reflexivity|by cbn; rewrite Hs|].
      destruct Hr; [by left|right; lia].
    + eapply emits_eq; [apply IH; destruct Hr; [by left|right; cbn; lia]|].
      rewrite len_cons. unfold counted. cbn. by rewrite Z.add_assoc.
Qed.

(** The writer once the changes of the size have been sent. *)
Definition sizes_sent (s : swriter) : swriter :=
  let n := len (pseudo_wires client s ++ size_wires (extendedDesktopSizeMsgs s)) in
  SWriter n n false false false false false false [].

Lemma write_nodata_ok s : writer_ok client s ->
  let ws := pseudo_wires client s ++ size_wires (extendedDesktopSizeMsgs s) in 0 < len ws < 0xFFFF ->
  writeNoDataUpdate client s = Ok (sizes_sent s, framed_bytes false ws).
Proof.
  intros Hok ws Hn. pose proof Hok as (_ & _ & _ & _ & _ & _ & Hsize). unfold writeNoDataUpdate.
  set (nRects := if bool_decide _ then 0 else _).
  assert (nRects = len (size_wires (extendedDesktopSizeMsgs s))) as ->.
  { unfold nRects, size_wires. case_bool_decide; [done|]. destruct (supports client pseudoEncodingExtendedDesktopSize);
      [by rewrite len_map|done]. }
  apply (framed_ok client false); [done| |by intros _]. unfold fills. cbv zeta. fold ws. unfold sizes_sent. fold ws.
  assert (len ws = len (pseudo_wires client s) + len (size_wires (extendedDesktopSizeMsgs s))) as Hlen by apply len_app.
  split; [|done]. unfold emits, writeNoDataRects. cbn [flushed extendedDesktopSizeMsgs].
  unfold size_wires in *. case_bool_decide as Hnil.
  { rewrite Hnil, len_nil in *. unfold flushed. rewrite Hnil. do 3 f_equal. lia. }
  specialize (Hsize Hnil). set (s1 := flushed _ _ _).
  assert (forall w ws', emits w s1 (counted (len ws') s1) ws' -> len ws = len (pseudo_wires client s) + len ws' ->
    (w &> modify (set_sizeMsgs [])) s1 = Ok (SWriter (len ws) (len ws) false false false false false false [], wires_bytes ws')) as Hw.
  { intros w ws' He Hl. rewrite <- (app_nil_r ws'). change (_ = _) with (emits (w &> modify (set_sizeMsgs [])) s1
      (SWriter (len ws) (len ws) false false false false false false []) (ws' ++ [])).
    eapply emits_eq; [eapply emits_andthen; [exact He|apply emits_modify]|]. unfold s1, counted, flushed, set_sizeMsgs. cbn.
    f_equal; lia. }
  assert (forall k, k <= len (size_wires (extendedDesktopSizeMsgs s)) -> room k s1) as Hroom.
  { intros k Hk. right. unfold s1. cbn. unfold size_wires in Hk. rewrite bool_decide_eq_false_2 in Hk by done. lia. }
  unfold size_wires in Hroom. rewrite bool_decide_eq_false_2 in Hroom by done.
  destruct (supports client pseudoEncodingExtendedDesktopSize) eqn:Hext.
  - apply Hw; [|done]. rewrite !len_map in *. apply emits_sizes; [done|]. by apply Hroom.
  - unfold supports_any in Hsize. cbn [existsb] in Hsize. rewrite Hext in Hsize. cbn [orb] in Hsize. rewrite orb_false_r in Hsize.
    rewrite Hsize. apply Hw; [|done]. unfold writeSetDesktopSizeRect. apply emits_rect; [reflexivity|by cbn; rewrite Hsize|by apply Hroom].
Qed.

Context {handler : CMsgHandler} {decoders : RectDecoder}.

Definition size_events (msgs : list (Z * Z)) : list cevent :=
  let c := cp client in
  if bool_decide (msgs = []) then []
  else if supports client pseudoEncodingExtendedDesktopSize
  then map (fun m => setExtendedDesktopSize m.1 m.2 (width_ c) (height_ c) (screenLayout_ c)) msgs
  else [setDesktopSize (width_ c) (height_ c)].

(** A size and a layout that fit their fields. *)
Definition size_sendable : Prop :=
  u16_wf (width_ (cp client)) /\ u16_wf (height_ (cp client)) /\ Forall screen_wf (screenLayout_ (cp client)) /\
  len (screenLayout_ (cp client)) < 256.

Lemma reads_back_screen_bytes sc : screen_wf sc -> reads_back readScreen screen_bytes (fun sc => sc) 16 sc.
Proof.
  intros (H1 & (H2 & H3 & H4 & H5) & H6) C k d rp c Hc. unfold readScreen, screen_bytes, u16_wf, u32_wf in *.
  read_fields. rewrite !u16_id, !u32_id by lia.
  f_equal; [|f_equal; [|lia]].
  - f_equal. destruct sc as [i r f]. unfold screen. cbn in *. f_equal. apply rect_xywh.
  - rewrite !fmap_app_app. done.
Qed.

Lemma carries_sizes server d msgs : size_sendable -> Forall (fun m => u16_wf m.1 /\ u16_wf m.2) msgs ->
  carried server d (size_wires msgs) (size_events msgs) d.
Proof.
  intros (Hw & Hh & Hlay & Hl) Hm. unfold size_wires, size_events. case_bool_decide; [constructor|].
  destruct (supports client pseudoEncodingExtendedDesktopSize).
  - clear H. revert server. induction Hm as [|[reason result] msgs [Hx Hy] _ IH]; intros server; [constructor|]. cbn [map].
    refine (carried_app server d [_] [_] d _ _ d _ (IH _)). unfold size_wire. cbn [fst snd] in *. stateless; [wire_fits|].
    set (layout := screenLayout_ (cp client)) in *. pose proof (len_nonneg layout).
    assert (forall sc, len (screen_bytes sc) = 16) as H16 by (intros sc; unfold screen_bytes; by autorewrite with len).
    pose proof (len_concat_map screen_bytes 16 layout H16).
    unfold readExtendedDesktopSize, num_screens. read_fields. rewrite u8_id by lia. read_fields.
    unfold len at 1. rewrite Nat2Z.id.
    rewrite (reads_back_repeatM readScreen screen_bytes (fun sc => sc) 16)
      by (lia || (eapply Forall_impl; [|eassumption]; apply reads_back_screen_bytes)).
    unfold done_call. read_fields. by rewrite List.map_id.
  - stateless; [wire_fits|]. by read_fields.
Qed.
End sizes.

(** ** A session *)

Section session.
Context (maxCutText : Z) (inflate : list Z -> zseg) (deflate : list Z -> list Z)
  {handler : CMsgHandler} {decoders : RectDecoder}.

(** The calls that write nothing: they queue a change. *)
Definition waits (m : smsg) : bool :=
  match m with
  | DesktopSize _ _ | SetDesktopName | CursorChange | CursorPosChange | LEDStateChange | QEMUKeyEvent
  | ExtendedMouseButtonsSupport => true
  | _ => false
  end.

(** The calls of a session, each with the record of the client as it is then. *)
Fixpoint write_all (calls : list (ClientParams * smsg)) : W :=
  match calls with
  | [] => nothing
  | (client, m) :: calls => write_smsg client deflate m &> write_all calls
  end.

(** Calls that can be made of a writer in the state [s], with a client whose
    handler knows the server as [server]; the bytes they write and the calls
    the client makes. *)
Inductive session : swriter -> ServerParams -> decoder -> list (ClientParams * smsg) -> list Z -> list cevent ->
    swriter -> ServerParams -> decoder -> Prop :=
| session_end s server d : session s server d [] [] [] s server d
| session_plain client m evs bs s server d calls bs2 evs2 s2 server2 d2 :
    plain maxCutText deflate m evs -> write_smsg client deflate m s = Ok (s, bs) -> accepts server evs ->
    session s (foldl after server evs) d calls bs2 evs2 s2 server2 d2 ->
    session s server d ((client, m) :: calls) (bs ++ bs2) (evs ++ evs2) s2 server2 d2
| session_waits client m s s1 server d calls bs2 evs2 s2 server2 d2 :
    waits m = true -> write_smsg client deflate m s = Ok (s1, []) ->
    session s1 server d calls bs2 evs2 s2 server2 d2 ->
    session s server d ((client, m) :: calls) bs2 evs2 s2 server2 d2
| session_update client rects s server d d0 d1 rect_events calls bs2 evs2 s2 server2 d2 :
    sendable client -> writer_ok client s ->
    (marked_update client = false -> 0 < len (update_wires client s rects)) ->
    len (update_wires client s rects) < 0xFFFF ->
    cursor_read client s (after server framebufferUpdateStart) d d0 ->
    decodable (foldl after (after server framebufferUpdateStart) (pseudo_events client s)) d0 rects rect_events d1 ->
    accepts server (update_events client s rect_events) ->
    session (sent client s rects) (foldl after server (update_events client s rect_events)) d1 calls bs2 evs2 s2 server2 d2 ->
    session s server d ((client, Update rects) :: calls) (update_bytes client s rects ++ bs2)
      (update_events client s rect_events ++ evs2) s2 server2 d2
| session_sizes client s server d d1 calls bs2 evs2 s2 server2 d2 :
    let ws := pseudo_wires client s ++ size_wires client (extendedDesktopSizeMsgs s) in
    let evs := update_events client s (size_events client (extendedDesktopSizeMsgs s)) in
    sendable client -> size_sendable client -> writer_ok client s -> 0 < len ws < 0xFFFF ->
    Forall (fun m => u16_wf m.1 /\ u16_wf m.2) (extendedDesktopSizeMsgs s) ->
    cursor_read client s (after server framebufferUpdateStart) d d1 -> accepts server evs ->
    session (sizes_sent client s) (foldl after server evs) d1 calls bs2 evs2 s2 server2 d2 ->
    session s server d ((client, NoDataUpdate) :: calls) (framed_bytes false ws ++ bs2) (evs ++ evs2) s2 server2 d2.

Hypothesis maxCutText_int : 0 <= maxCutText < 2 ^ 31.
Hypothesis inflate_deflate : forall u, bytes u ->
  z_out (inflate (deflate u)) = u /\ z_end (inflate (deflate u)) = z_wants_more.

Lemma session_written s server d calls bs evs s2 server2 d2 : session s server d calls bs evs s2 server2 d2 ->
  write_all calls s = Ok (s2, bs).
Proof.
  induction 1 as [|client m evs bs s server d calls bs2 evs2 s2 server2 d2 Hm Hw _ _ IH
    |client m s s1 server d calls bs2 evs2 s2 server2 d2 _ Hw _ IH
    |client rects s server d d0 d1 rect_events calls bs2 evs2 s2 server2 d2 _ Hok Hn Hmax _ _ _ _ IH
    |client s server d d1 calls bs2 evs2 s2 server2 d2 ws evs _ _ Hok Hn _ _ _ _ IH]; [done| | | |];
    cbn [write_all]; unfold andthen.
  - by rewrite Hw, IH.
  - by rewrite Hw, IH.
  - cbn [write_smsg]. rewrite write_update_ok, IH; [done|done|]. intros Hl. specialize (Hn Hl). lia.
  - cbn [write_smsg]. by rewrite write_nodata_ok, IH.
Qed.

Lemma session_read s server d calls bs evs s2 server2 d2 : session s server d calls bs evs s2 server2 d2 ->
  forall r, idle r server d ->
  exists r', idle r' server2 d2 /\ drains (readMsg maxCutText inflate) r bs r' [] evs.
Proof.
  induction 1 as [|client m evs bs s server d calls bs2 evs2 s2 server2 d2 Hm Hw Ha _ IH
    |client m s s1 server d calls bs2 evs2 s2 server2 d2 _ Hw _ IH
    |client rects s server d d0 d1 rect_events calls bs2 evs2 s2 server2 d2 Hsend Hok Hn Hmax Hcur Hdec Ha _ IH
    |client s server d d1 calls bs2 evs2 s2 server2 d2 ws evs Hsend Hsize Hok Hn Hmsgs Hcur Ha _ IH]; intros r Hi.
  - exists r. split; [done|]. by eapply idle_waits.
  - destruct (plain_delivered maxCutText inflate deflate client maxCutText_int inflate_deflate m evs s s bs r server d bs2
      Hm Hw Hi Ha) as (_ & r1 & Hout & Hi1).
    destruct (IH r1 Hi1) as (r' & Hi' & Hd). exists r'. split; [done|]. by eapply drain_step.
  - by apply IH.
  - destruct (update_delivered client Hsend maxCutText inflate s rects server d d0 d1 rect_events r bs2
      Hok Hn Hmax Hcur Hdec Hi Ha) as (r1 & Hi1 & Hd1).
    destruct (IH r1 Hi1) as (r' & Hi' & Hd). exists r'. split; [done|]. by apply Hd1.
  - destruct (framed_delivered maxCutText inflate false ws
      (pseudo_events client s ++ size_events client (extendedDesktopSizeMsgs s)) server d d1 r bs2) as (r1 & Hi1 & Hd1).
    + intros _. lia.
    + lia.
    + eapply carried_app; [by apply carries_pseudo|by apply carries_sizes].
    + done.
    + done.
    + destruct (IH r1 Hi1) as (r' & Hi' & Hd). exists r'. split; [done|]. by apply Hd1.
Qed.
End session.

(** C4: whatever a server sends arrives.  For calls of [SMsgWriter] made of a
    writer that keeps its promises - messages, changes that wait, updates of
    pixels and updates of the size, with the client's record as it is at each
    call - none throws, and cut into any pieces the stream makes the client's
    reader call its handler with exactly what was sent, in order: messages
    where they are sent, changes with the update that carries them.  No byte
    is left and the client is between two messages. *)
Theorem server_session_delivered (maxCutText : Z) (inflate : list Z -> zseg) (deflate : list Z -> list Z)
    (handler : CMsgHandler) (decoders : RectDecoder) (s s' : swriter) (calls : list (ClientParams * smsg))
    (r : creader) (server server' : ServerParams) (d d' : decoder) (evs : list cevent) (bs : list Z) (chunks : list (list Z)) :
  0 <= maxCutText < 2 ^ 31 ->
  (forall u, bytes u -> z_out (inflate (deflate u)) = u /\ z_end (inflate (deflate u)) = z_wants_more) ->
  creader_ok r -> idle r server d ->
  session maxCutText deflate s server d calls bs evs s' server' d' ->
  Forall bytes chunks -> concat chunks = bs ->
  write_all deflate calls s = Ok (s', bs) /\
  exists r', feeds (readMsg maxCutText inflate) r [] chunks r' [] evs /\ idle r' server' d'.
Proof.
  intros Hmax Hid Hr Hi Hs Hb Hc. split; [by eapply session_written|].
  destruct (session_read maxCutText inflate deflate Hmax Hid _ _ _ _ _ _ _ _ _ Hs r Hi) as (r' & Hi' & Hd).
  exists r'. split; [|done]. apply (feeds_of_drains (P := hanging) creader_ok cmu);
    [intros l Hl; apply readMsg_states; [apply hang_hanging|done]|done|constructor|done|]. cbn [app]. by rewrite Hc.
Qed.

(** A fence, a cursor that waits, an update that carries it with a raw pixel,
    and a bell. *)
Definition some_client : ClientParams :=
  setEncodings [pseudoEncodingVMwareCursor; pseudoEncodingLastRect; pseudoEncodingFence] init_client.
Definition some_sends : list (ClientParams * smsg) :=
  [(some_client, ServerFence 1 [7]); (some_client, CursorChange);
   (some_client, Update [(rect 1 0 2 1, encodingRaw, [10; 20; 30; 40])]); (some_client, Bell)].
Definition some_calls_made : list cevent :=
  [fence 1 [7]; framebufferUpdateStart; setCursor_ev 0 0 (MkPoint 0 0) [];
   dataRect (rect 1 0 2 1) 0 [10; 20; 30; 40]; framebufferUpdateEnd; bell].
Definition some_sent : list Z :=
  [248; 0; 0; 0; 0; 0; 0; 1; 1; 7] ++
  [0; 0; 255; 255] ++ [0; 0; 0; 0; 0; 0; 0; 0; 0x57; 0x4d; 0x56; 0x64; 1; 0] ++
  [0; 1; 0; 0; 0; 1; 0; 1; 0; 0; 0; 0] ++ [10; 20; 30; 40] ++ [0; 0; 0; 0; 0; 0; 0; 0; 255; 255; 255; 32] ++ [2].
Definition some_writer_after : swriter := SWriter 2 0 false false false false false false [].

Lemma some_session :
  @session 100 (fun z => z) keep_handler copy_decoders init_writer some_server (Manager None [] (MkPoint 0 0) T_IDLE 0)
    some_sends some_sent some_calls_made some_writer_after some_server (Manager None [10; 20; 30; 40] (MkPoint 0 0) T_IDLE 0).
Proof.
  pose (client := some_client).
  refine (@session_plain 100 _ keep_handler copy_decoders client (ServerFence 1 [7]) [fence 1 [7]]
    [248; 0; 0; 0; 0; 0; 0; 1; 1; 7] init_writer some_server _ _ _ _ _ _ _ _ _ _ _).
  { by split; [unfold u32_wf; lia|]. }
  { vm_compute. reflexivity. }
  { by intros evs1 ev evs2 _. }
  refine (@session_waits 100 _ keep_handler copy_decoders client CursorChange init_writer (set_needCursor true init_writer)
    some_server _ _ _ _ _ _ _ _ _ _); [reflexivity|vm_compute; reflexivity|].
  refine (@session_update 100 _ keep_handler copy_decoders client [(rect 1 0 2 1, encodingRaw, [10; 20; 30; 40])]
    (set_needCursor true init_writer) some_server _ _ (Manager None [10; 20; 30; 40] (MkPoint 0 0) T_IDLE 0)
    [dataRect (rect 1 0 2 1) 0 [10; 20; 30; 40]] [(client, Bell)] [2] [bell] _ _ _ _ _ _ _ _ _ _ _).
  { unfold sendable, cursor_wf, u16_wf. cbv zeta. split_and!;
      first [vm_compute; congruence|vm_compute; reflexivity|by intros []|by constructor|by left|auto]. }
  { unfold writer_ok. split_and!; intros H; first [discriminate H|vm_compute; reflexivity|by destruct H]. }
  { discriminate. }
  { reflexivity. }
  { by split. }
  { refine (@decodable_cons keep_handler copy_decoders some_server _ (rect 1 0 2 1) encodingRaw [10; 20; 30; 40]
      (Manager None [10; 20; 30; 40] (MkPoint 0 0) T_IDLE 0) [] [] _ _ _ _ _ _ _ _ _ (@decodable_nil keep_handler copy_decoders _ _));
      [unfold rect_wf, u16_wf, width, height; cbn; lia|vm_compute; split; congruence|done..|cbn; lia|cbn; lia|].
    intros rest. by apply manager_raw. }
  { by intros evs1 ev evs2 _. }
  refine (@session_plain 100 _ keep_handler copy_decoders client Bell [bell] [2] _ some_server _ [] [] [] _ _ _ _ _ _ _);
    [done|vm_compute; reflexivity|by intros evs1 ev evs2 _|]. apply session_end.
Qed.

Lemma server_session_delivered_witness :
  write_all (fun z => z) some_sends init_writer = Ok (some_writer_after, some_sent) /\
  exists r', feeds (@readMsg 100 stored keep_handler copy_decoders) some_reader []
      [ztake 12 some_sent; []; zdrop 12 some_sent] r' [] some_calls_made /\
    @idle copy_decoders r' some_server (Manager None [10; 20; 30; 40] (MkPoint 0 0) T_IDLE 0).
Proof.
  apply (server_session_delivered 100 stored (fun z => z) keep_handler copy_decoders init_writer some_writer_after some_sends
    some_reader some_server some_server (Manager None [] (MkPoint 0 0) T_IDLE 0)
    (Manager None [10; 20; 30; 40] (MkPoint 0 0) T_IDLE 0) some_calls_made some_sent
    [ztake 12 some_sent; []; zdrop 12 some_sent]).
  - lia.
  - done.
  - exact some_reader_ok.
  - by split_and!.
  - exact some_session.
  - repeat (constructor; [by apply bytes_decide|]). constructor.
  - reflexivity.
Defined.
