(* ===== verification/SocketDelivery.v ===== *)
(** * From one end of a connection to the other, buffers included

    The readers of both sides stop asking for data when a test has failed, so
    that they can run over a [BufferedInStream]; and what a writer puts into a
    [BufferedOutStream] is what its socket takes.  Between the two sockets the
    bytes keep their order: what is delivered is the front of what was taken.
    Whatever pieces the sockets make of the stream, and whenever the loops are
    run, the handler's calls are the messages that were sent. *)
From stdpp Require Import base list numbers strings option.
From S2P Require Import Prelude InStream OutStream BufferedOutStream BufferedInStream PixelFmt Geometry Screens Params Cursors Clipboard ClientMsgs ClientDelivery ServerMsgs Decoders ServerReader ServerWriter ServerDelivery Updates ServerSession.
#[local] Open Scope Z_scope.

(** ** The server's reader *)

Definition not_done {L} (x : bool * L) : Prop := x.1 = false.

Section server_side.
Context (maxCutText : Z) (inflate : list Z -> zseg).

Lemma server_readMsg_eager r : eager (fun _ => True) not_done (ClientMsgs.readMsg maxCutText inflate r).
Proof.
  assert (forall t client (k : option ClientParams -> bool * sreader), not_done (k None) ->
    eager (fun _ => True) not_done (prog_bind (fun x => Ret (k x)) (ClientMsgs.readBody maxCutText inflate t client))) as Hbody.
  { intros t client k Hk. eapply eager_bind; [exact (guarded_eager _ _ _ _ _ (guarded_readBody (P := hanging) maxCutText inflate (hang_hanging inflate) t client))| |].
    - intros x <-. by apply q_ret.
    - intros x _. by apply e_ret. }
  destruct r as [[|] t client]; unfold ClientMsgs.readMsg; cbn [sr_state sr_currentMsgType sr_client].
  - prog_simpl. apply e_has; [by apply q_ret|]. apply e_take; [lia|]. intros bs _ _. by apply Hbody.
  - by apply Hbody.
Qed.
End server_side.

(** ** A message loop over a buffer *)

Section loop.
Context {D : Type} `{HD : DeviceOk D} (new_bytes : Z -> list Z).
Hypothesis new_bytes_len : forall n, 0 <= n -> len (new_bytes n) = n.
Context {E L : Type} (I : L -> Prop) (mu : L -> nat) (R : L -> prog E (bool * L)).
Hypothesis R_shape : forall l, I l -> shape (P := hanging) I mu R l.
Hypothesis R_eager : forall l, I l -> exists P Q, eager P Q (R l).

(** The calls that have been made when the front of a stream has arrived are
    the front of the calls the stream makes, and all when it all has. *)
Lemma served_front l d (total : list Z) l2 d2 e2 b l' (s' : istream D) evs :
  I l -> bytes total -> drains R l total l2 d2 e2 -> b = false ->
  served new_bytes R l (BufferedInStream new_bytes d) b l' s' evs ->
  (forall got d', delivers d got d' -> got `prefix_of` total) ->
  exists got, delivers d got (device s') /\ evs `prefix_of` e2 /\
    (got = total -> evs = e2 /\ l' = l2 /\ pending s' = d2).
Proof.
  intros Hi Ht Hdr -> Hsv Hnet.
  destruct (BufferedInStream_at_rest new_bytes new_bytes_len d) as (Hs & Hp & Hd0). cbv zeta in *.
  set (s := BufferedInStream new_bytes d) in *. clearbody s.
  pose proof (resumable_messages (P := hanging) I mu R R_shape) as HR.
  destruct (served_drains new_bytes new_bytes_len I R l s l' s' evs HR R_eager
    (fun l d Hl => shape_no_misuse (P := hanging) I mu R l d (R_shape l Hl)) Hi Hs Hsv) as [Hs' (got & Hd & Hb & Hg)].
  rewrite Hp in Hg. cbn [app] in Hg.
  pose proof (delivers_app _ _ _ _ _ Hd0 Hd) as Hgot. exists got. split; [done|].
  destruct (Hnet _ _ Hgot) as [rest Heq]. cbn [app] in Heq. rewrite Heq in Hdr, Ht. apply bytes_app in Ht as [_ Hrest].
  destruct (drains_split I R _ _ _ _ _ _ _ _ _ HR Hi Hb Hrest Hg Hdr) as (e3 & -> & H3).
  split; [by exists e3|]. intros Hall. rewrite Hall in Heq.
  assert (rest = []) as -> by (apply (app_inv_head total); by rewrite app_nil_r).
  rewrite app_nil_r in Hdr. destruct (drains_functional R _ _ _ _ _ _ _ _ Hg Hdr) as (? & ? & ?). done.
Qed.
End loop.

(** ** Two sockets *)

Section sockets.
Context {O : Type} `{HO : SinkOk O} {D : Type} `{HD : DeviceOk D} (new_bytes : Z -> list Z).
Hypothesis new_bytes_len : forall n, 0 <= n -> len (new_bytes n) = n.

(** What the receiver's socket delivers is the front of what the sender's has
    taken: a network that keeps bytes in order. *)
Definition in_order_network (o o' : O) (d : D) : Prop :=
  forall took got d', takes o took o' -> delivers d got d' -> got `prefix_of` took.

(** All that has been taken has been delivered. *)
Definition all_arrived (o o' : O) (d d' : D) : Prop :=
  forall took got, takes o took o' -> delivers d got d' -> got = took.

(** What has been taken by the end of some calls on a new stream. *)
Lemma taken_front emulate (o : O) cs r (so : ostream O) :
  perform_all new_bytes cs (BufferedOutStream.BufferedOutStream new_bytes emulate o) = (r, so) ->
  exists took, takes o took (sink so) /\ took `prefix_of` concat (map written cs) /\
    (r = Ok tt -> hasBufferedData so = false -> took = concat (map written cs)).
Proof.
  intros Hr. destruct (BufferedOutStream_in_order new_bytes new_bytes_len emulate o) as (Ho & Hu & _ & Ht0).
  cbv zeta in *. set (s := BufferedOutStream.BufferedOutStream new_bytes emulate o) in *. clearbody s.
  pose proof (perform_all_ends new_bytes new_bytes_len cs s Ho) as Hc. unfold st_ends in Hc. rewrite Hr in Hc.
  assert (exists w w2, concat (map written cs) = w ++ w2 /\ wrote w s so /\ (r = Ok tt -> w2 = [])) as (w & w2 & Hw2 & Hw & Hok).
  { destruct r as [[]|e].
    - exists (concat (map written cs)), []. by rewrite app_nil_r.
    - destruct Hc as (_ & w & w2 & ? & ?). by exists w, w2. }
  destruct Hw as (Ho' & _ & took & Ht & He). rewrite Hu in He. cbn [app] in He. exists took.
  split; [exact (takes_app _ _ _ _ _ Ht0 Ht)|]. rewrite Hw2, <- He. split; [by exists (unsent so ++ w2); rewrite app_assoc|].
  intros Hrt Hb. rewrite (Hok Hrt), app_nil_r.
  assert (unsent so = []) as ->; [|by rewrite app_nil_r].
  apply len_zero_nil. rewrite len_unsent by done. unfold hasBufferedData in Hb. apply negb_false_iff, Z.eqb_eq in Hb. lia.
Qed.

(** A reader behind the network: its calls are the front of those that the
    bytes written make, and all of them once all has arrived. *)
Lemma over_sockets {E L : Type} (I : L -> Prop) (mu : L -> nat) (R : L -> prog E (bool * L))
    emulate (o : O) (d : D) cs r so l (s' : istream D) l' evs total l2 e2 :
  (forall l, I l -> shape (P := hanging) I mu R l) -> (forall l, I l -> exists P Q, eager P Q (R l)) ->
  I l -> bytes total -> drains R l total l2 [] e2 ->
  concat (map written cs) = total ->
  perform_all new_bytes cs (BufferedOutStream.BufferedOutStream new_bytes emulate o) = (r, so) ->
  in_order_network o (sink so) d ->
  served new_bytes R l (BufferedInStream.BufferedInStream new_bytes d) false l' s' evs ->
  evs `prefix_of` e2 /\
  (r = Ok tt -> hasBufferedData so = false -> all_arrived o (sink so) d (device s') ->
   evs = e2 /\ l' = l2 /\ pending s' = []).
Proof.
  intros Hsh Heg Hi Ht Hdr Hcs Hp Hnet Hsv.
  destruct (taken_front emulate o cs r so Hp) as (took & Htk & Hpre & Hall). rewrite Hcs in Hpre, Hall.
  destruct (served_front new_bytes new_bytes_len I mu R Hsh Heg l d total l2 [] e2 false l' s' evs Hi Ht Hdr eq_refl Hsv)
    as (got & Hd & Hev & Hfull).
  { intros got d' Hg. etransitivity; [by eapply Hnet|done]. }
  split; [done|]. intros Hr Hb Harr. apply Hfull. rewrite (Harr _ _ Htk Hd). by apply Hall.
Qed.
End sockets.

(** C1: the messages of a client reach the server through both buffers and both
    sockets.  The client's writer puts the messages it accepts into its output
    stream, with any flushes and corks between, whatever its socket takes at a
    time, even if it fails in between; the network keeps the bytes in order and
    delivers them in any pieces, at any time; the server runs its message loop
    as often as it likes.  Then the handler has been called with the messages
    sent, in order, up to some point; and with all of them, nothing left over,
    once the client has flushed and what was taken has arrived. *)
Theorem client_reaches_server {O D : Type} `{SinkOk O} `{DeviceOk D} (new_bytes : Z -> list Z)
    (server : ServerParams) (client : ClientParams) (maxCutText : Z)
    (inflate : list Z -> zseg) (deflate : list Z -> list Z) (garbage : Z)
    (ms : list cmsg) (bss : list (list Z))
    (emulate : bool) (o : O) (cs : list call) (r : res unit) (so : ostream O)
    (d : D) (l' : sreader) (s' : istream D) (evs : list sevent) :
  (forall n, 0 <= n -> len (new_bytes n) = n) ->
  0 <= maxCutText < 2 ^ 31 ->
  (forall u, bytes u -> z_out (inflate (deflate u)) = u /\ z_end (inflate (deflate u)) = z_wants_more) ->
  ClientDelivery.server_wf server -> buttons_agree server client ->
  Forall (wf_cmsg server maxCutText deflate) ms ->
  Forall2 (fun m bs => write_cmsg server deflate m = Ok bs) ms bss -> bytes (concat bss) ->
  concat (map written cs) = concat bss ->
  perform_all new_bytes cs (BufferedOutStream.BufferedOutStream new_bytes emulate o) = (r, so) ->
  in_order_network o (sink so) d ->
  served new_bytes (ClientMsgs.readMsg maxCutText inflate) (init_reader garbage client)
    (BufferedInStream.BufferedInStream new_bytes d) false l' s' evs ->
  evs `prefix_of` concat (map (delivered server) ms) /\
  (r = Ok tt -> hasBufferedData so = false -> all_arrived o (sink so) d (device s') ->
   evs = concat (map (delivered server) ms) /\ pending s' = [] /\
   sr_client l' = foldl (fun c m => client_after m c) client ms).
Proof.
  intros Hn Hmax Hid Hs Hb Hm Hw Hbs Hcs Hp Hnet Hsv.
  destruct (delivered_messages server maxCutText inflate deflate Hmax Hid Hs ms bss client garbage Hm Hb Hw) as [t Ht].
  destruct (over_sockets new_bytes Hn (fun _ => True) ClientMsgs.mu _ emulate o d cs r so _ s' l' evs _ _ _
    (fun l _ => ClientMsgs.readMsg_shape maxCutText inflate (hang_hanging inflate) l)
    (fun l _ => ex_intro _ _ (ex_intro _ _ (server_readMsg_eager maxCutText inflate l)))
    I Hbs Ht Hcs Hp Hnet Hsv) as [Hpre Hall].
  split; [done|]. intros Hr Hbuf Harr. destruct (Hall Hr Hbuf Harr) as (-> & -> & ->). done.
Qed.

(** ** The client's reader *)

(** Decoders stop asking for data when a test has failed, too. *)
Class EagerDecoder (decoders : RectDecoder) : Prop :=
  decodeRect_eager : forall s r e d, server_wf s -> rect_nonneg r -> decoder_ok d ->
    eager (fun _ => True) not_done (decodeRect s r e d).

Section client_side.
Context (maxCutText : Z) (inflate : list Z -> zseg) {handler : CMsgHandler} {decoders : RectDecoder}
  `{!EagerDecoder decoders}.
Implicit Types r : creader.

Let any {A} (_ : A) : Prop := True.

Lemma quits_call {B} Q (f : bool * ServerParams -> prog cevent B) server ev :
  (forall x, quits Q (f x)) -> quits Q (prog_bind f (through server (done_call ev))).
Proof.
  intros Hf. unfold done_call. prog_simpl. cbn [through]. destruct (handle server ev); cbn; [|apply q_raise].
  apply q_emit, Hf.
Qed.

Lemma quits_finish_rect r : quits any (finish_rect r).
Proof. unfold finish_rect. cbv zeta. case_test; [|by apply q_ret]. apply quits_call. intros x. by apply q_ret. Qed.

Lemma quits_finish_if r x : quits any (finish_if r x).
Proof. unfold finish_if. destruct x.1; [apply quits_finish_rect|by apply q_ret]. Qed.

Lemma quits_not_done r x : x.1 = false -> quits not_done (finish_if r x).
Proof. intros Hx. unfold finish_if. rewrite Hx. by apply q_ret. Qed.

Lemma eager_decoded {A} (p : prog cevent (bool * A)) (f : bool * A -> prog cevent (bool * creader)) :
  eager any not_done p -> (forall x, quits any (f x)) -> (forall x, x.1 = false -> quits not_done (f x)) ->
  eager any not_done (prog_bind f p).
Proof. intros Hp Hf Hn. eapply eager_bind; [exact Hp|exact Hn|]. intros x _. apply quits_eager, Hf. Qed.

Lemma quits_rect_decoded r x : quits any (rect_decoded r x) /\ (x.1 = false -> quits not_done (rect_decoded r x)).
Proof.
  unfold rect_decoded. cbv zeta. destruct x.1; cbn [fst]; [|split; [by apply q_ret|intros _; by apply q_ret]]. split; [|done].
  apply quits_call, quits_finish_if.
Qed.

Lemma quits_cursor_decoded r x : quits any (cursor_decoded r x) /\ (x.1 = false -> quits not_done (cursor_decoded r x)).
Proof.
  unfold cursor_decoded. cbv zeta. destruct x.1.
  - split; [|done]. destruct (flush _ _ _ _) as [buf|e]; [|apply q_raise].
    destruct (setPF _ _) as [? [e|]]; cbn; [apply q_raise|]. apply quits_call, quits_finish_if.
  - destruct (setPF _ _) as [? [e|]]; cbn; split; intros; try apply q_raise; by apply q_ret.
Qed.

Definition ready_for_rect r : Prop := server_wf (cr_server r) /\ rect_nonneg (cr_dataRect r) /\ decoder_ok (cr_decoder r).

Lemma eager_read_cursor_image r : ready_for_rect r -> eager any not_done (read_cursor_image r).
Proof.
  intros (Hs & Hr & Hd). pose proof Hr as (_ & _ & Hw & Hh). unfold read_cursor_image.
  apply eager_decoded; [|intros x; apply quits_cursor_decoded..]. apply decodeRect_eager; [| |done].
  - unfold server_wf. cbn. lia.
  - unfold rect_nonneg, width, height in *. cbn. lia.
Qed.

Lemma eager_through `{!Free P} p server : guarded (eq true) false Clean 0 p -> server_wf server ->
  eager (fun x => server_wf x.2) not_done (through server p).
Proof.
  intros Hp Hs. pose proof (guarded_eager _ _ _ _ _ (guarded_through _ _ _ _ Hs Hp)) as He.
  eapply eager_weaken; [exact He| |by intros x <-]. intros x [[_ ?]| ->]; done.
Qed.
Lemma eager_read_rect_data r : ready_for_rect r -> eager any not_done (read_rect_data r).
Proof.
  intros Hr. pose proof Hr as (Hs & Hn & Hd). unfold read_rect_data.
  case_test; [apply quits_eager, quits_finish_rect|]. case_test.
  { unfold readSetCursorWithAlpha. case_test; [apply e_raise|]. case_test; [|by apply eager_read_cursor_image].
    prog_simpl. apply e_has; [by apply q_ret|]. apply e_take; [lia|]. intros bs _ _. cbn [prog_bind].
    by apply eager_read_cursor_image. }
  case_test.
  - eapply eager_bind; [by apply eager_through; [apply guarded_readRectBody|]| |].
    + intros x Hx. by apply quits_not_done.
    + intros x _. apply quits_eager, quits_finish_if.
  - unfold readRect. case_test; [apply e_raise|].
    apply eager_decoded; [by apply decodeRect_eager|intros x; apply quits_rect_decoded..].
Qed.

Lemma eager_read_rect_header r : ready_for_rect r -> eager any not_done (read_rect_header r).
Proof.
  intros (Hs & Hn & Hd). unfold read_rect_header. prog_simpl. apply e_has; [by apply q_ret|].
  repeat (apply e_take; [lia|]; intros ? ? ?; cbn [prog_bind]). apply eager_read_rect_data.
  split_and!; [done| |done]. cbn [cr_dataRect]. field_ranges. unfold rect_nonneg, width, height, setXYWH. cbn. lia.
Qed.

Lemma eager_read_update r : ready_for_rect r -> eager any not_done (read_update r).
Proof.
  intros (Hs & Hn & Hd). unfold read_update. prog_simpl. apply e_has; [by apply q_ret|].
  do 2 (apply e_take; [lia|]; intros ? ? ?; cbn [prog_bind]).
  apply (eager_bind (fun x => server_wf x.2) (fun _ => False)); [|done|].
  { apply quits_eager. unfold done_call. prog_simpl. cbn [through].
    destruct (handle _ _) eqn:He; [|apply q_raise]. apply q_emit, q_ret. by eapply handle_wf. }
  intros x Hx. cbv zeta. case_test; [apply quits_eager, quits_call; intros y; by apply q_ret|].
  by apply eager_read_rect_header.
Qed.

Lemma client_readMsg_eager r : creader_ok r -> eager any not_done (ServerMsgs.readMsg maxCutText inflate r).
Proof.
  intros (Hs & Hn & Hd & _).
  assert (forall r, ready_for_rect r -> eager any not_done (read_message maxCutText inflate r)) as Hmsg.
  { intros r' Hr. pose proof Hr as (Hs' & _). unfold read_message. case_test.
    - eapply eager_bind; [by apply (eager_through (P := hanging)); [apply guarded_readServerBody, hang_hanging|]| |].
      + intros x Hx. apply q_ret. unfold to_idle. by rewrite Hx.
      + intros x _. by apply e_ret.
    - destruct (cr_state r'); by auto using eager_read_update, eager_read_rect_header, eager_read_rect_data. }
  unfold readMsg. destruct (cr_state r); [|by apply Hmsg..].
  prog_simpl. apply e_has; [by apply q_ret|]. apply e_take; [lia|]. intros bs _ _. cbn [prog_bind]. by apply Hmsg.
Qed.
End client_side.

(** *** The decoders of the manager *)

Section decoders.
Context {E : Type}.

Lemma eager_whole (p : prog E (option (list Z))) m : guarded is_Some None Clean 0 p ->
  eager (fun _ => True) not_done (whole p m).
Proof.
  intros Hp. eapply eager_bind; [by eapply guarded_eager| |].
  - intros x <-. by apply q_ret.
  - intros [bs|] _; by apply e_ret.
Qed.

Lemma eager_hextile fuel server r m : server_wf server -> eager (E:=E) (fun _ => True) not_done (hextile_loop fuel server r m).
Proof.
  intros Hs. revert m. induction fuel as [|fuel IH]; intros m; cbn [hextile_loop]; [apply e_raise|].
  case_test; [|by apply e_ret]. case_test; [|apply IH].
  eapply eager_bind; [by eapply guarded_eager, guarded_hextile_tile; [|lia|lia]| |].
  - intros x <-. by apply q_ret.
  - intros [bs|] _; [apply IH|by apply e_ret].
Qed.

(** A step of the Tight decoder, and what follows it. *)
Lemma eager_tight_step server r m (next : manager -> prog E (bool * manager)) :
  server_wf server -> rect_nonneg r -> begun m ->
  (forall m', begun m' -> eager (fun _ => True) not_done (next m')) ->
  eager (fun _ => True) not_done
    (prog_bind (fun x => match x with None => Ret (false, m) | Some m' => next m' end) (tight_step server r m)).
Proof.
  intros Hs Hr Hm Hn. eapply eager_bind; [by eapply guarded_eager, guarded_tight_step| |].
  - intros x <-. by apply q_ret.
  - intros x [(m' & -> & Hm' & _)| ->]; [by apply Hn|by apply e_ret].
Qed.

Lemma eager_tight server r m : server_wf server -> rect_nonneg r -> begun m ->
  eager (E:=E) (fun _ => True) not_done (tight_readRect server r m).
Proof.
  intros Hs Hr.
  assert (forall m, begun m -> eager (E:=E) (fun _ => True) not_done (tight_last server r m)) as Hlast.
  { intros m' Hm. apply eager_tight_step; [done..|]. intros m2 _. by apply e_ret. }
  assert (forall m, begun m -> eager (E:=E) (fun _ => True) not_done (tight_palette server r m)) as Hpalette.
  { intros m' Hm. apply eager_tight_step; [done..|]. auto. }
  assert (forall m, begun m -> eager (E:=E) (fun _ => True) not_done (tight_filter server r m)) as Hfilter.
  { intros m' Hm. apply eager_tight_step; [done..|]. intros m2 Hm2. destruct (readState m2); auto. }
  intros Hm. unfold tight_readRect. destruct (readState m); auto.
  apply eager_tight_step; [done..|]. intros m2 Hm2. destruct (readState m2); auto.
Qed.

Lemma manager_eager h264 server r e m : server_wf server -> rect_nonneg r ->
  eager (E:=E) (fun _ => True) not_done (manager_decodeRect h264 server r e m).
Proof.
  intros Hs Hr. unfold manager_decodeRect. destruct (negb _); [apply e_raise|].
  assert (begun (begin_entry m)) as Hm.
  { unfold begun, begin_entry. destruct (partialEntry m) as [bs|] eqn:Hbs; [by rewrite Hbs|by eexists]. }
  apply (eager_bind (fun _ => True) not_done).
  - unfold decoder_readRect, hextile_readRect.
    repeat (case_test; [by auto using eager_whole, eager_hextile, eager_tight, guarded_raw, guarded_copyrect, guarded_rre, guarded_zrle|]).
    by apply eager_whole, guarded_h264.
  - intros x Hx. unfold enqueue_if. rewrite Hx. by apply q_ret.
  - intros x _. unfold enqueue_if. by destruct x.1; apply e_ret.
Qed.
End decoders.

#[export] Instance DecodeManager_eager h264 decode H : EagerDecoder (DecodeManager h264 decode H).
Proof. intros s r e d Hs Hr _. by apply manager_eager. Qed.

(** C2: what a server sends reaches the client through both buffers and both
    sockets.  The server makes calls of its writer (messages, changes that wait,
    updates), which go into its output stream with any flushes and corks between,
    whatever its socket takes at a time, even if it fails in between; the network
    keeps the bytes in order and delivers them in any pieces, at any time, also
    within a rectangle; the client runs its message loop as often as it likes.
    Then its handler has been called with what was sent, in order, up to some
    point; and with all of it, the client between two messages, once the server
    has flushed and what was taken has arrived. *)
Theorem server_reaches_client {O D : Type} `{SinkOk O} `{DeviceOk D} (new_bytes : Z -> list Z)
    (maxCutText : Z) (inflate : list Z -> zseg) (deflate : list Z -> list Z)
    (handler : CMsgHandler) (decoders : RectDecoder) (w w' : swriter) (calls : list (ClientParams * smsg))
    (r0 : creader) (server server' : ServerParams) (dec dec' : decoder) (sent_evs : list cevent) (bs : list Z)
    (emulate : bool) (o : O) (cs : list call) (r : res unit) (so : ostream O)
    (d : D) (l' : creader) (s' : istream D) (evs : list cevent) :
  EagerDecoder decoders ->
  (forall n, 0 <= n -> len (new_bytes n) = n) ->
  0 <= maxCutText < 2 ^ 31 ->
  (forall u, bytes u -> z_out (inflate (deflate u)) = u /\ z_end (inflate (deflate u)) = z_wants_more) ->
  creader_ok r0 -> idle r0 server dec ->
  session maxCutText deflate w server dec calls bs sent_evs w' server' dec' -> bytes bs ->
  concat (map written cs) = bs ->
  perform_all new_bytes cs (BufferedOutStream.BufferedOutStream new_bytes emulate o) = (r, so) ->
  in_order_network o (sink so) d ->
  served new_bytes (ServerMsgs.readMsg maxCutText inflate) r0
    (BufferedInStream.BufferedInStream new_bytes d) false l' s' evs ->
  evs `prefix_of` sent_evs /\
  (r = Ok tt -> hasBufferedData so = false -> all_arrived o (sink so) d (device s') ->
   evs = sent_evs /\ pending s' = [] /\ idle l' server' dec').
Proof.
  intros Hde Hn Hmax Hid Hr Hi Hs Hbs Hcs Hp Hnet Hsv.
  destruct (session_read maxCutText inflate deflate Hmax Hid _ _ _ _ _ _ _ _ _ Hs r0 Hi) as (r' & Hi' & Hdr).
  destruct (over_sockets new_bytes Hn creader_ok cmu _ emulate o d cs r so _ s' l' evs _ _ _
    (fun l Hl => readMsg_states maxCutText inflate (hang_hanging inflate) l Hl)
    (fun l Hl => ex_intro _ _ (ex_intro _ _ (client_readMsg_eager maxCutText inflate l Hl)))
    Hr Hbs Hdr Hcs Hp Hnet Hsv) as [Hpre Hall].
  split; [done|]. intros Hr' Hbuf Harr. destruct (Hall Hr' Hbuf Harr) as (-> & -> & ->). done.
Qed.

(** ** Two connections that run *)

(** [n] calls of a reader, as a function; [None] when one throws, or when the
    last one does not ask for more. *)
Fixpoint serve {D E L} `{Device D} (new_bytes : Z -> list Z) (n : nat) (R : L -> prog E (bool * L)) (l : L)
    (s : istream D) : option (L * istream D * list E) :=
  match n, crun new_bytes (R l) s with
  | O, _ | _, (Throw _, _) => None
  | S O, (Ok ((b, l1), evs), s1) => if b then None else Some (l1, s1, evs)
  | S n, (Ok ((_, l1), evs), s1) =>
      match serve new_bytes n R l1 s1 with
      | Some (l2, s2, evs2) => Some (l2, s2, evs ++ evs2)
      | None => None
      end
  end.

Lemma serve_served {D E L} `{Device D} (new_bytes : Z -> list Z) n (R : L -> prog E (bool * L)) l s l' s' evs :
  serve new_bytes n R l s = Some (l', s', evs) -> served new_bytes R l s false l' s' evs.
Proof.
  revert l s evs. induction n as [|n IH]; intros l s evs; cbn [serve]; [done|].
  destruct (crun new_bytes (R l) s) as [[[[b l1] evs1]|e] s1] eqn:Hc; [|by destruct n].
  destruct n as [|n].
  - destruct b; [done|]. intros [= -> -> ->]. by apply served_last.
  - destruct (serve new_bytes (S n) R l1 s1) as [[[l2 s2] evs2]|] eqn:Hs; [|done]. intros [= -> -> <-].
    eapply served_step; [exact Hc|]. by apply IH.
Qed.

Import Script Sips.

(** Sockets that keep what they take, and deliver it as a script says. *)
Lemma script_network took k : took = content k -> in_order_network (O:=list Z) [] took k.
Proof. intros -> t g k' Ht%sips_keep Hg%script_in_order. cbn in Ht. exists (content k'). by rewrite <- Ht. Qed.

Lemma script_arrived took k k' : took = content k -> content k' = [] -> all_arrived (O:=list Z) [] took k k'.
Proof. intros -> Hk t g Ht%sips_keep Hg%script_in_order. cbn in Ht. by rewrite Hk, app_nil_r, Ht in Hg. Qed.

(** The end of some calls that ask for more at last. *)
Definition after {L S E} (d : L * S * list E) (x : option (L * S * list E)) : L * S * list E := default d x.

Lemma served_after {D E L} `{Device D} (new_bytes : Z -> list Z) n (R : L -> prog E (bool * L)) l s d :
  match serve new_bytes n R l s with Some _ => true | None => false end = true ->
  let x := after d (serve new_bytes n R l s) in served new_bytes R l s false x.1.1 x.1.2 x.2.
Proof.
  destruct (serve new_bytes n R l s) as [[[l' s'] evs]|] eqn:Hs; [|done]. intros _. by eapply serve_served.
Qed.

Lemma performed {D} `{Sink D} (new_bytes : Z -> list Z) cs (s : ostream D) :
  (perform_all new_bytes cs s).1 = Ok tt -> perform_all new_bytes cs s = (Ok tt, (perform_all new_bytes cs s).2).
Proof. intros <-. by destruct (perform_all new_bytes cs s). Qed.

(** A pointer event outside the framebuffer and a fence. *)
Definition pointer_and_fence : list happening :=
  [Arrive [5; 1; 2]; Nothing; Interrupt; Arrive [127; 0; 20; 248; 0; 0; 0; 0; 0]; Arrive [0; 1; 2; 7; 9]].
Definition pointer_and_fence_calls : list call :=
  [Put [5; 1]; Put [2; 127]; Flush; Put [0; 20]; Cork true; Bytes [248; 0; 0; 0; 0; 0; 0; 1; 2; 7; 9]; Cork false].
Definition pointer_stream := BufferedInStream.BufferedInStream BufferedInStream.zeros pointer_and_fence.
Definition fence_server : ServerParams :=
  MkServer (MkCommon 640 480 [] default_pf [] (MkCursor 0 0 (MkPoint 0 0) []) 0 0 []) 3 8 false false false true false false.

Lemma client_reaches_server_witness :
  let R := ClientMsgs.readMsg 1000 stored in
  let end_ := after (init_reader 0 init_client, pointer_stream, [])
    (serve BufferedInStream.zeros 4 R (init_reader 0 init_client) pointer_stream) in
  let so := (perform_all BufferedInStream.zeros pointer_and_fence_calls
    (BufferedOutStream.BufferedOutStream BufferedInStream.zeros true ([] : list Z))).2 in
  end_.2 = [ClientMsgs.pointerEvent (MkPoint 639 20) 1; ClientMsgs.fence 1 [7; 9]] /\ pending end_.1.2 = [] /\ sr_client end_.1.1 = init_client.
Proof.
  intros R end_ so.
  assert (end_.2 = concat (map (delivered fence_server) [PointerEvent (MkPoint 1000 20) 1; ClientFence 1 [7; 9]]) /\
    pending end_.1.2 = [] /\ sr_client end_.1.1 =
      foldl (fun c m => client_after m c) init_client [PointerEvent (MkPoint 1000 20) 1; ClientFence 1 [7; 9]]) as H; [|exact H].
  refine (proj2 (client_reaches_server BufferedInStream.zeros fence_server init_client 1000 stored (fun z => z) 0
    [PointerEvent (MkPoint 1000 20) 1; ClientFence 1 [7; 9]]
    [[5; 1; 2; 127; 0; 20]; [248; 0; 0; 0; 0; 0; 0; 1; 2; 7; 9]]
    true ([] : list Z) pointer_and_fence_calls (Ok tt) so pointer_and_fence end_.1.1 end_.1.2 end_.2
    _ _ _ _ _ _ _ _ _ _ _ _) _ _ _).
  - exact len_zeros.
  - lia.
  - done.
  - unfold ClientDelivery.server_wf. cbn. lia.
  - done.
  - repeat constructor; done.
  - repeat constructor.
  - by apply bytes_decide.
  - reflexivity.
  - apply performed. vm_compute. reflexivity.
  - apply script_network. vm_compute. reflexivity.
  - apply (served_after _ 4). vm_compute. reflexivity.
  - reflexivity.
  - vm_compute. reflexivity.
  - apply script_arrived; vm_compute; reflexivity.
Defined.

(** The session of [some_session], cut within the update. *)
Definition session_script : list happening :=
  [Arrive (ztake 12 some_sent); Nothing; Arrive (ztake 20 (zdrop 12 some_sent)); Nothing; Arrive (zdrop 32 some_sent)].
Definition session_stream := BufferedInStream.BufferedInStream BufferedInStream.zeros session_script.

Lemma server_reaches_client_witness :
  let R := @ServerMsgs.readMsg 100 stored keep_handler copy_decoders in
  let end_ := after (some_reader, session_stream, []) (serve BufferedInStream.zeros 8 R some_reader session_stream) in
  let so := (perform_all BufferedInStream.zeros [Bytes some_sent; Flush]
    (BufferedOutStream.BufferedOutStream BufferedInStream.zeros true ([] : list Z))).2 in
  end_.2 = some_calls_made /\ pending end_.1.2 = [] /\
  @idle copy_decoders end_.1.1 some_server (Manager None [10; 20; 30; 40] (MkPoint 0 0) T_IDLE 0).
Proof.
  intros R end_ so.
  refine (proj2 (server_reaches_client BufferedInStream.zeros 100 stored (fun z => z) keep_handler copy_decoders
    init_writer some_writer_after some_sends some_reader some_server some_server (Manager None [] (MkPoint 0 0) T_IDLE 0)
    (Manager None [10; 20; 30; 40] (MkPoint 0 0) T_IDLE 0) some_calls_made some_sent
    true ([] : list Z) [Bytes some_sent; Flush] (Ok tt) so session_script end_.1.1 end_.1.2 end_.2
    _ _ _ _ _ _ _ _ _ _ _ _) _ _ _).
  - exact len_zeros.
  - lia.
  - done.
  - exact some_reader_ok.
  - by split_and!.
  - exact some_session.
  - by apply bytes_decide.
  - reflexivity.
  - apply performed. vm_compute. reflexivity.
  - apply script_network. vm_compute. reflexivity.
  - apply (served_after _ 8). vm_compute. reflexivity.
  - reflexivity.
  - vm_compute. reflexivity.
  - apply script_arrived; vm_compute; reflexivity.
Defined.
