(* ===== verification/Security.v ===== *)
(** * Security types, access rights, protocol versions ([common/rfb/Security.cxx], [AccessRights.cxx])

    The list of security types a side has enabled and what it offers of it,
    the rights a security type gives, and the line with the protocol version
    as [sprintf] writes it and [sscanf] reads it. *)
From stdpp Require Import base list numbers strings option.
From S2P Require Import Prelude.
#[local] Open Scope Z_scope.

(** ** Security types ([Security.h]) *)

Definition secTypeInvalid : Z := 0.
Definition secTypeNone : Z := 1.
Definition secTypeVncAuth : Z := 2.
Definition secTypeRA2 : Z := 5.
Definition secTypeRA2ne : Z := 6.
Definition secTypeSSPI : Z := 7.
Definition secTypeSSPIne : Z := 8.
Definition secTypeTight : Z := 16.
Definition secTypeVeNCrypt : Z := 19.
Definition secTypeDH : Z := 30.
Definition secTypeMSLogonII : Z := 113.
Definition secTypeRA256 : Z := 129.
Definition secTypeRAne256 : Z := 130.
Definition secTypePlain : Z := 256.
Definition secTypeTLSNone : Z := 257.
Definition secTypeTLSVnc : Z := 258.
Definition secTypeTLSPlain : Z := 259.
Definition secTypeX509None : Z := 260.
Definition secTypeX509Vnc : Z := 261.
Definition secTypeX509Plain : Z := 262.

Definition secResultOK : Z := 0.
Definition secResultFailed : Z := 1.
Definition secResultTooMany : Z := 2.

(** ** Names *)

Definition lower (c : Ascii.ascii) : Ascii.ascii :=
  let n := Ascii.nat_of_ascii c in
  if (65 <=? n)%nat && (n <=? 90)%nat then Ascii.ascii_of_nat (n + 32) else c.

(** [strcasecmp(a, b) == 0] *)
Fixpoint strcaseeq (a b : string) : bool :=
  match a, b with
  | EmptyString, EmptyString => true
  | String c a, String d b => bool_decide (lower c = lower d) && strcaseeq a b
  | _, _ => false
  end.

Definition type_names : list (string * Z) :=
  [("None"%string, secTypeNone); ("VncAuth"%string, secTypeVncAuth); ("Tight"%string, secTypeTight);
   ("RA2"%string, secTypeRA2); ("RA2ne"%string, secTypeRA2ne); ("RA2_256"%string, secTypeRA256);
   ("RA2ne_256"%string, secTypeRAne256); ("SSPI"%string, secTypeSSPI); ("SSPIne"%string, secTypeSSPIne);
   ("VeNCrypt"%string, secTypeVeNCrypt); ("DH"%string, secTypeDH); ("MSLogonII"%string, secTypeMSLogonII);
   ("Plain"%string, secTypePlain); ("TLSNone"%string, secTypeTLSNone); ("TLSVnc"%string, secTypeTLSVnc);
   ("TLSPlain"%string, secTypeTLSPlain); ("X509None"%string, secTypeX509None); ("X509Vnc"%string, secTypeX509Vnc);
   ("X509Plain"%string, secTypeX509Plain)].

Definition secTypeNum (name : string) : Z :=
  match List.find (fun nt => strcaseeq name nt.1) type_names with Some nt => nt.2 | None => secTypeInvalid end.

Definition secTypeName (num : Z) : string :=
  match List.find (fun nt => num =? nt.2) type_names with Some nt => nt.1 | None => "[unknown]"%string end.

(** ** [Security] *)

(** The constructor from a configured list of names. *)
Fixpoint parse_types (names : list string) : res (list Z) :=
  match names with
  | [] => Ok []
  | name :: names =>
      if secTypeNum name =? secTypeInvalid then Throw (logic_error "Unknown security type") else
      types ← parse_types names; mret (secTypeNum name :: types)
  end.

Section lists.
Implicit Types enabledSecTypes : list Z.

Definition GetEnabledSecTypes enabledSecTypes : list Z :=
  (if existsb (fun type => 0x100 <=? type) enabledSecTypes then [secTypeVeNCrypt] else []) ++
  filter (fun type => type < 0x100) enabledSecTypes.

Definition GetEnabledExtSecTypes enabledSecTypes : list Z :=
  filter (fun type => type <> secTypeVeNCrypt) enabledSecTypes.

Definition EnableSecType (secType : Z) enabledSecTypes : list Z :=
  if bool_decide (secType ∈ enabledSecTypes) then enabledSecTypes else enabledSecTypes ++ [secType].

Definition DisableSecType (secType : Z) enabledSecTypes : list Z := filter (fun type => type <> secType) enabledSecTypes.

Definition IsSupported enabledSecTypes (secType : Z) : bool :=
  bool_decide (secType ∈ enabledSecTypes) || (secType =? secTypeVeNCrypt).

(** The names of the types that have one. *)
Definition ToString enabledSecTypes : string :=
  String.concat "," (filter (fun name => name <> "[unknown]"%string) (map secTypeName enabledSecTypes)).
End lists.

(** ** Access rights *)

Definition AccessNone : Z := 0x0000.
Definition AccessView : Z := 0x0001.
Definition AccessKeyEvents : Z := 0x0002.
Definition AccessPtrEvents : Z := 0x0004.
Definition AccessCutText : Z := 0x0008.
Definition AccessSetDesktopSize : Z := 0x0010.
Definition AccessNonShared : Z := 0x0020.
Definition AccessDefault : Z := 0x03ff.
Definition AccessNoQuery : Z := 0x0400.
Definition AccessFull : Z := 0xffff.

(** [(accessRights & ar) == ar] *)
Definition has_rights (accessRights ar : Z) : bool := Z.land accessRights ar =? ar.

Lemma has_rights_land a b ar : has_rights (Z.land a b) ar = has_rights a ar && has_rights b ar.
Proof.
  unfold has_rights. apply Bool.eq_iff_eq_true. rewrite andb_true_iff, !Z.eqb_eq. split.
  - intros H. split; rewrite <- H at 2; rewrite <- H at 1; apply Z.bits_inj'; intros i Hi; rewrite !Z.land_spec;
      by destruct (Z.testbit a i), (Z.testbit b i), (Z.testbit ar i).
  - intros [Ha Hb]. by rewrite <- Z.land_assoc, Hb.
Qed.

(** ** The version line *)

(** The decimal digits of a number, at least [width] of them. *)
Fixpoint digits (fuel : nat) (z : Z) (acc : list Z) : list Z :=
  match fuel with
  | O => acc
  | S fuel => let acc := (48 + z mod 10) :: acc in if z / 10 =? 0 then acc else digits fuel (z / 10) acc
  end.

(** [%d] *)
Definition print_d (z : Z) : list Z :=
  if z <? 0 then 45 :: digits 10 (- z) [] else digits 10 z [].

(** [%03d], of a number with at most three digits. *)
Definition print_03d (z : Z) : list Z := [48 + z / 100; 48 + z / 10 mod 10; 48 + z mod 10].

(** [sprintf(str, "RFB %03d.%03d\n", major, minor)] *)
Definition version_line (major minor : Z) : list Z := text "RFB " ++ print_03d major ++ [46] ++ print_03d minor ++ [10].

Definition isspace (c : Z) : bool := (c =? 32) || ((9 <=? c) && (c <=? 13)).
Definition isdigit (c : Z) : bool := (48 <=? c) && (c <=? 57).

Fixpoint skip_space (s : list Z) : list Z :=
  match s with
  | c :: s' => if isspace c then skip_space s' else s
  | [] => []
  end.

(** Digits, at most [width] of them: how many, the number they stand for,
    the rest. *)
Fixpoint scan_digits (width : nat) (s : list Z) (acc : Z) : nat * Z * list Z :=
  match width, s with
  | S width, c :: s' =>
      if isdigit c then let '(n, v, rest) := scan_digits width s' (acc * 10 + (c - 48)) in (S n, v, rest)
      else (O, acc, s)
  | _, _ => (O, acc, s)
  end.

(** [%03d]: white space, a sign that counts, digits. *)
Definition scan_03d (s : list Z) : option (Z * list Z) :=
  let s := skip_space s in
  let number width neg s :=
    match scan_digits width s 0 with
    | (O, _, _) => None
    | (_, v, rest) => Some (if (neg : bool) then - v else v, rest)
    end in
  match s with
  | c :: s' => if c =? 45 then number 2%nat true s' else if c =? 43 then number 2%nat false s' else number 3%nat false s
  | [] => None
  end.

Definition until0 : list Z -> list Z :=
  fix go s := match s with [] => [] | c :: s => if c =? 0 then [] else c :: go s end.

(** [sscanf(verStr, "RFB %03d.%03d\n", &major, &minor) == 2] *)
Definition scan_version (verStr : list Z) : option (Z * Z) :=
  match until0 verStr with
  | 82 :: 70 :: 66 :: s =>
      '(major, s) ← scan_03d (skip_space s);
      match s with
      | 46 :: s => '(minor, _) ← scan_03d s; mret (major, minor)
      | _ => None
      end
  | _ => None
  end.

(** ** Lemmas *)

Lemma secTypeNum_name name num : (name, num) ∈ type_names -> secTypeNum name = num /\ secTypeName num = name.
Proof.
  intros H. unfold type_names in H.
  repeat (apply list.elem_of_cons in H as [H|H]; [injection H as -> ->; split; reflexivity|]).
  by apply not_elem_of_nil in H.
Qed.

Lemma enabled_below types t : t ∈ GetEnabledSecTypes types -> t ∈ types \/ t = secTypeVeNCrypt.
Proof.
  unfold GetEnabledSecTypes. intros [H|H]%elem_of_app.
  - destruct (existsb _ _); [|by apply not_elem_of_nil in H]. apply list_elem_of_singleton in H. by right.
  - apply list_elem_of_filter in H as [_ H]. by left.
Qed.

Lemma IsSupported_spec types t : IsSupported types t = true <-> t ∈ types \/ t = secTypeVeNCrypt.
Proof. unfold IsSupported. rewrite orb_true_iff, bool_decide_eq_true, Z.eqb_eq. done. Qed.

Lemma enabled_ext types t : t ∈ GetEnabledExtSecTypes types <-> t ∈ types /\ t <> secTypeVeNCrypt.
Proof. unfold GetEnabledExtSecTypes. rewrite list_elem_of_filter. naive_solver. Qed.

Section version.

Lemma scan_digits_digit width d s acc : 0 <= d <= 9 ->
  scan_digits (S width) (48 + d :: s) acc =
  let '(n, v, rest) := scan_digits width s (acc * 10 + d) in (S n, v, rest).
Proof.
  intros Hd. cbn [scan_digits]. unfold isdigit.
  rewrite (proj2 (Z.leb_le _ _)) by lia. rewrite (proj2 (Z.leb_le _ _)) by lia. cbn [andb].
  by replace (48 + d - 48) with d by lia.
Qed.

Lemma isspace_digit d : 0 <= d <= 9 -> isspace (48 + d) = false.
Proof.
  intros Hd. unfold isspace. destruct (Z.eqb_spec (48 + d) 32); [lia|]. destruct (Z.leb_spec 9 (48 + d)); [|done].
  destruct (Z.leb_spec (48 + d) 13); [lia|done].
Qed.

Lemma scan_print z rest : 0 <= z < 1000 -> scan_03d (print_03d z ++ rest) = Some (z, rest).
Proof.
  intros Hz. unfold print_03d. cbn [app].
  assert (0 <= z / 100 <= 9 /\ 0 <= z / 10 mod 10 <= 9 /\ 0 <= z mod 10 <= 9) as (H1 & H2 & H3) by zlia.
  unfold scan_03d. cbn [skip_space]. rewrite isspace_digit by done.
  destruct (Z.eqb_spec (48 + z / 100) 45); [lia|]. destruct (Z.eqb_spec (48 + z / 100) 43); [lia|].
  rewrite !scan_digits_digit by done. cbn [scan_digits]. do 2 f_equal. zlia.
Qed.

Lemma until0_app l c : Forall (fun c => c <> 0) l -> until0 (l ++ c) = l ++ until0 c.
Proof. induction 1 as [|x l Hx _ IH]; [done|]. cbn. destruct (Z.eqb_spec x 0); [done|]. by rewrite IH. Qed.

Lemma print_03d_nonzero z : 0 <= z < 1000 -> Forall (fun c => c <> 0) (print_03d z).
Proof. intros Hz. unfold print_03d. repeat constructor; zlia. Qed.

(** What one side writes the other reads. *)
Lemma scan_version_line major minor : 0 <= major < 1000 -> 0 <= minor < 1000 ->
  scan_version (version_line major minor) = Some (major, minor).
Proof.
  intros Ha Hb. unfold scan_version, version_line.
  rewrite <- (app_nil_r [10]), !app_assoc. rewrite until0_app.
  2: { repeat apply Forall_app_2; try by apply print_03d_nonzero. all: by repeat constructor. }
  rewrite <- !app_assoc. change (text "RFB ") with [82; 70; 66; 32]. cbn [app skip_space until0].
  change (isspace 32) with true. cbv iota.
  assert (skip_space (print_03d major ++ 46 :: print_03d minor ++ [10]) = print_03d major ++ 46 :: print_03d minor ++ [10]) as ->.
  { unfold print_03d. cbn [app skip_space]. rewrite isspace_digit by zlia. done. }
  rewrite scan_print by done. cbn [mbind option_bind]. rewrite scan_print by done. done.
Qed.
End version.
