(* ===== verification/Link.v ===== *)
(** * The streams of a connection

    The pair of streams a connection has, as the code above the buffers sees
    them: the bytes that have arrived and not been read, the bytes flushed, and
    those that wait for a flush.  [SocketDelivery] is what connects the two ends
    of such streams.  The operations act on a link beside any other state. *)
From stdpp Require Import base list numbers strings option.
From S2P Require Import Prelude InStream OutStream.
#[local] Open Scope Z_scope.

Record link := Link {
  l_in : list Z;                (* arrived, not read *)
  l_eof : bool;                 (* the peer has closed its end *)
  l_mark : option (list Z);     (* what was unread at the restore point *)
  l_sent : list Z;              (* flushed *)
  l_unsent : list Z
}.

Definition empty_link : link := Link [] false None [] [].

Definition set_in (d : list Z) (l : link) : link := Link d (l_eof l) (l_mark l) (l_sent l) (l_unsent l).
Definition set_mark (m : option (list Z)) (l : link) : link := Link (l_in l) (l_eof l) m (l_sent l) (l_unsent l).

Section ops.
Context {V : Type}.
Abbreviation M := (SE (link * V)).

Definition l_get : M link := fun s => (Ok s.1, s).
Definition l_change (f : link -> link) : M unit := fun s => (Ok tt, (f s.1, s.2)).

(** [InStream]. *)
Definition is_hasData (n : Z) : M bool :=
  l ← l_get;
  if n <=? len (l_in l) then mret true
  else if l_eof l then st_throw end_of_stream else mret false.

Definition is_readBytes (n : Z) : M (list Z) :=
  l ← l_get;
  if len (l_in l) <? n then st_throw (out_of_range "InStream buffer underrun") else
  l_change (set_in (zdrop n (l_in l)));;
  mret (ztake n (l_in l)).

Definition is_readU8 : M Z := bs ← is_readBytes 1; mret (znth 0 bs 0).
Definition is_readU32 : M Z := bs ← is_readBytes 4; mret (be32 bs).
(** [is->skip(is->avail())] *)
Definition is_skip_all : M unit := l_change (set_in []).

Definition is_setRestorePoint : M unit :=
  l ← l_get;
  match l_mark l with
  | Some _ => st_throw (logic_error "Nested use of input stream restore point")
  | None => l_change (set_mark (Some (l_in l)))
  end.
Definition is_clearRestorePoint : M unit :=
  l ← l_get;
  match l_mark l with
  | Some _ => l_change (set_mark None)
  | None => st_throw (logic_error "Incorrect clearing of input stream restore point")
  end.
Definition is_gotoRestorePoint : M unit :=
  l ← l_get;
  match l_mark l with
  | Some d => l_change (fun l => set_mark None (set_in d l))
  | None => st_throw (logic_error "Incorrect activation of input stream restore point")
  end.
Definition is_hasDataOrRestore (n : Z) : M bool :=
  ok ← is_hasData n;
  if (ok : bool) then mret true else is_gotoRestorePoint;; mret false.

(** Where there is no more data to come, asking for it throws. *)
Fixpoint at_end {E A} (p : prog E A) : prog E A :=
  match p with
  | Ret a => Ret a
  | Raise e => Raise e
  | HasData n k => HasData n (fun b => if b then at_end (k true) else Raise end_of_stream)
  | SetRestorePoint k => SetRestorePoint (at_end k)
  | ClearRestorePoint k => ClearRestorePoint (at_end k)
  | GotoRestorePoint k => GotoRestorePoint (at_end k)
  | Take n k => Take n (fun bs => at_end (k bs))
  | Emit ev k => Emit ev (at_end k)
  end.

(** A reader of the library on the bytes that have arrived. *)
Definition is_run {E A} (p : prog E A) : M (A * list E) :=
  l ← l_get;
  match outcome (if l_eof l then at_end p else p) (l_in l) with
  | Ok (a, d, evs) => l_change (set_in d);; mret (a, evs)
  | Throw e => st_throw e
  end.

(** [OutStream]. *)
Definition os_writeBytes (bs : list Z) : M unit :=
  l_change (fun l => Link (l_in l) (l_eof l) (l_mark l) (l_sent l) (l_unsent l ++ bs)).
Definition os_writeU8 (z : Z) : M unit := os_writeBytes (writeU8 z).
Definition os_writeU32 (z : Z) : M unit := os_writeBytes (writeU32 z).
Definition os_flush : M unit :=
  l_change (fun l => Link (l_in l) (l_eof l) (l_mark l) (l_sent l ++ l_unsent l) []).

(** What everything else is. *)
Definition l_rest : M V := fun s => (Ok s.2, s).
Definition l_rest_op {A} (f : V -> A * V) : M A := fun s => let '(a, v) := f s.2 in (Ok a, (s.1, v)).
Definition l_rest_throw {A} (f : V -> res A * V) : M A := fun s => let '(a, v) := f s.2 in (a, (s.1, v)).
End ops.

(** All that has been written. *)
Definition written_to (l : link) : list Z := l_sent l ++ l_unsent l.
