(* ===== verification/SSecurity.v ===== *)
(** * The server's side of authentication ([common/rfb/SSecurity*.cxx], [SecurityServer.cxx])

    A security object as the server makes it for the type a client chose:
    [SSecurityNone], [SSecurityVncAuth], [SSecurityPlain] and the methods that
    encrypt the streams (TLS and RSA-AES, whose cryptography is GnuTLS and
    Nettle: parameters), a stack of two of them, and VeNCrypt, which negotiates
    one of these first.  [processMsg] acts on the streams and on what is outside
    the program (the source of random data, the password file, the platform's
    password check). *)
From stdpp Require Import base list numbers strings option.
From S2P Require Import Prelude InStream OutStream D3des Security Link.
#[local] Open Scope Z_scope.

(** ** What is outside *)

(** The methods of the external libraries. *)
Inductive ext_kind := TLS (anon : bool) | RSAAES (type keySize : Z) (isAllEncrypted : bool).

Class ServerSecEnv (V X : Type) := {
  word : Z;                                          (* the bits of [unsigned long] *)
  random_data : Z -> V -> option (list Z) * V;       (* [RandomStream]; none when it has no data *)
  password_param : V -> list Z;                      (* the parameter [Password] *)
  password_file : V -> option (list Z);              (* what the file [PasswordFile] holds, if it can be read *)
  plain_users : V -> list (list Z);                  (* the parameter [PlainUsers] *)
  is_own_user : list Z -> V -> bool;                 (* [getpwnam(username)->pw_uid == getuid()] *)
  has_validator : bool;                              (* built with PAM or for Windows *)
  validate_internal : list Z -> list Z -> V -> (bool * option (list Z)) * V;   (* and a message of its own *)
  ext_new : ext_kind -> X;
  ext_processMsg : X -> SE (link * V) (bool * X);
  ext_userName : X -> option (list Z);
  ext_accessRights : X -> Z
}.

Definition auth_failed : list Z := text "Authentication failed".

(** ** [SSecurityVncAuth] *)

(** [getVncAuthPasswd]: the password and the one that only allows to watch. *)
Definition getVncAuthPasswd {V X} `{ServerSecEnv V X} (v : V) : list Z * list Z :=
  let read o := match deobfuscate word o with Ok p => p | Throw _ => [] end in
  let decode o ro :=
    match deobfuscate word o with
    | Ok password => (password, read ro)
    | Throw _ => ([], [])
    end in
  if len (password_param v) =? 0 then
    match password_file v with
    | None => ([], [])
    | Some file => decode (ztake 8 file) (ztake 8 (zdrop 8 file))
    end
  else decode (password_param v) [].

(** The answer to a challenge with a password. *)
Definition vnc_response (w : Z) (password challenge : list Z) : list Z :=
  let keys := d3des_set_key w (padded password) EN0 in
  d3des_transform w keys (ztake 8 challenge) ++ d3des_transform w keys (zdrop 8 challenge).

Definition vncAuthChallengeSize : Z := 16.

Record vncauth := VncAuth { va_sent : bool; va_challenge : list Z; va_response : list Z; va_rights : Z }.
(** The arrays are not initialised. *)
Definition new_vncauth : vncauth := VncAuth false [] [] AccessNone.

Definition verifyResponse {V X} `{ServerSecEnv V X} (password : list Z) (a : vncauth) : bool :=
  bool_decide (va_response a = vnc_response word password (va_challenge a)).

Section vncauth.
Context {V X : Type} `{E : ServerSecEnv V X}.

Definition vncauth_processMsg (a : vncauth) : SE (link * V) (bool * vncauth) :=
  if negb (va_sent a) then
    r ← l_rest_op (random_data vncAuthChallengeSize);
    match r with
    | None => st_throw (runtime_error "Failed to generate random data")
    | Some challenge =>
        os_writeBytes challenge;;
        os_flush;;
        mret (false, VncAuth true challenge (va_response a) (va_rights a))
    end
  else
    ok ← is_hasData vncAuthChallengeSize;
    if negb ok then mret (false, a) else
    response ← is_readBytes vncAuthChallengeSize;
    v ← l_rest;
    let '(passwd, passwdReadOnly) := getVncAuthPasswd v in
    let a := VncAuth (va_sent a) (va_challenge a) response (va_rights a) in
    if len passwd =? 0 then st_throw (runtime_error "No password configured")
    else if verifyResponse passwd a then mret (true, VncAuth true (va_challenge a) response AccessDefault)
    else if negb (len passwdReadOnly =? 0) && verifyResponse passwdReadOnly a then
      mret (true, VncAuth true (va_challenge a) response AccessView)
    else st_throw (auth_error auth_failed).
End vncauth.

(** ** [SSecurityPlain] *)

Inductive plain_state := PlainStart | PlainLengths (ulen plen : Z) | PlainDone (username : list Z).

Section plain.
Context {V X : Type} `{E : ServerSecEnv V X}.

Definition validUser (username : list Z) (v : V) : bool :=
  existsb (fun user => bool_decide (user = text "*") || (bool_decide (user = text "%u") && is_own_user username v)
                       || bool_decide (user = username)) (plain_users v).

Definition validate (username password : list Z) : SE (link * V) (bool * option (list Z)) :=
  v ← l_rest;
  if validUser username v then l_rest_op (validate_internal username password) else mret (false, None).

(** State 1: both texts, which end at their first zero. *)
Definition plain_texts (ulen plen : Z) : SE (link * V) (bool * plain_state) :=
  ok ← is_hasData (ulen + plen);
  if negb ok then mret (false, PlainLengths ulen plen) else
  username ← is_readBytes ulen;
  password ← is_readBytes plen;
  r ← validate (until0 username) (until0 password);
  let '(valid, msg) := r in
  if (valid : bool) then mret (true, PlainDone (until0 username))
  else st_throw (auth_error (default auth_failed msg)).

Definition plain_processMsg (p : plain_state) : SE (link * V) (bool * plain_state) :=
  if negb has_validator then st_throw (logic_error "No password validator configured") else
  match p with
  | PlainStart =>
      ok ← is_hasData 8;
      if negb ok then mret (false, PlainStart) else
      ulen ← is_readU32;
      if 1024 <=? ulen then st_throw (auth_error (text "Username is too long")) else
      plen ← is_readU32;
      if 1024 <=? plen then st_throw (auth_error (text "Password is too long")) else
      plain_texts ulen plen
  | PlainLengths ulen plen => plain_texts ulen plen
  | PlainDone username => mret (true, PlainDone username)
  end.
End plain.

(** ** The objects *)

Inductive basic (X : Type) :=
| SNone
| SVncAuth (a : vncauth)
| SPlain (p : plain_state)
| SExt (x : X).
Arguments SNone {X}.
Arguments SVncAuth {X} _.
Arguments SPlain {X} _.
Arguments SExt {X} _.

(** [SSecurityStack] has at most two parts here, and [state] counts the ones
    that are done. *)
Inductive method (X : Type) :=
| Single (type : Z) (b : basic X)
| Stack (type : Z) (state : Z) (state0 : basic X) (state1 : option (basic X)).
Arguments Single {X} _ _.
Arguments Stack {X} _ _ _ _.

Record vencrypt (X : Type) := MkVeNCrypt {
  vc_haveSentVersion : bool; vc_haveRecvdMajorVersion : bool; vc_haveRecvdMinorVersion : bool;
  vc_majorVersion : Z; vc_haveSentTypes : bool; vc_haveChosenType : bool;
  vc_chosenType : Z; vc_subTypes : list Z; vc_ssecurity : option (method X)
}.
Arguments MkVeNCrypt {X} _ _ _ _ _ _ _ _ _.
Arguments vc_haveSentVersion {X} _.
Arguments vc_haveRecvdMajorVersion {X} _.
Arguments vc_haveRecvdMinorVersion {X} _.
Arguments vc_majorVersion {X} _.
Arguments vc_haveSentTypes {X} _.
Arguments vc_haveChosenType {X} _.
Arguments vc_chosenType {X} _.
Arguments vc_subTypes {X} _.
Arguments vc_ssecurity {X} _.

Inductive ssecurity (X : Type) :=
| Direct (m : method X)
| VeNCrypt (s : vencrypt X).
Arguments Direct {X} _.
Arguments VeNCrypt {X} _.

Definition new_vencrypt {X} : vencrypt X := MkVeNCrypt false false false 0 false false secTypeVeNCrypt [] None.

Section objects.
Context {V X : Type} `{E : ServerSecEnv V X}.

(** *** [getType], [getUserName], [getAccessRights] *)

Definition method_getType (m : method X) : Z := match m with Single type _ | Stack type _ _ _ => type end.
Definition getType (s : ssecurity X) : Z :=
  match s with Direct m => method_getType m | VeNCrypt s => vc_chosenType s end.

Definition basic_getUserName (b : basic X) : option (list Z) :=
  match b with
  | SNone | SVncAuth _ => None
  | SPlain (PlainDone username) => Some username
  | SPlain _ => Some []
  | SExt x => ext_userName x
  end.
Definition method_getUserName (m : method X) : option (list Z) :=
  match m with
  | Single _ b => basic_getUserName b
  | Stack _ _ s0 s1 =>
      match (match s1 with Some b => basic_getUserName b | None => None end) with
      | Some c => Some c
      | None => basic_getUserName s0
      end
  end.
Definition getUserName (s : ssecurity X) : option (list Z) :=
  match s with
  | Direct m => method_getUserName m
  | VeNCrypt s => match vc_ssecurity s with Some m => method_getUserName m | None => None end
  end.

Definition basic_getAccessRights (b : basic X) : Z :=
  match b with
  | SNone | SPlain _ => AccessDefault
  | SVncAuth a => va_rights a
  | SExt x => ext_accessRights x
  end.
Definition method_getAccessRights (m : method X) : Z :=
  match m with
  | Single _ b => basic_getAccessRights b
  | Stack _ _ s0 s1 =>
      let r := Z.land AccessFull (basic_getAccessRights s0) in
      match s1 with Some b => Z.land r (basic_getAccessRights b) | None => r end
  end.
Definition getAccessRights (s : ssecurity X) : Z :=
  match s with
  | Direct m => method_getAccessRights m
  | VeNCrypt s => match vc_ssecurity s with Some m => method_getAccessRights m | None => AccessDefault end
  end.

(** *** [SecurityServer::GetSSecurity] *)

Definition make_method (secType : Z) : option (method X) :=
  let tls anon := SExt (ext_new (TLS anon)) in
  let rsa keySize all := Single secType (SExt (ext_new (RSAAES secType keySize all))) in
  if secType =? secTypeNone then Some (Single secTypeNone SNone)
  else if secType =? secTypeVncAuth then Some (Single secTypeVncAuth (SVncAuth new_vncauth))
  else if secType =? secTypePlain then Some (Single secTypePlain (SPlain PlainStart))
  else if secType =? secTypeTLSNone then Some (Stack secTypeTLSNone 0 (tls true) None)
  else if secType =? secTypeTLSVnc then Some (Stack secTypeTLSVnc 0 (tls true) (Some (SVncAuth new_vncauth)))
  else if secType =? secTypeTLSPlain then Some (Stack secTypeTLSPlain 0 (tls true) (Some (SPlain PlainStart)))
  else if secType =? secTypeX509None then Some (Stack secTypeX509None 0 (tls false) None)
  else if secType =? secTypeX509Vnc then Some (Stack secTypeX509None 0 (tls false) (Some (SVncAuth new_vncauth)))
  else if secType =? secTypeX509Plain then Some (Stack secTypeX509Plain 0 (tls false) (Some (SPlain PlainStart)))
  else if secType =? secTypeRA2 then Some (rsa 128 true)
  else if secType =? secTypeRA2ne then Some (rsa 128 false)
  else if secType =? secTypeRA256 then Some (rsa 256 true)
  else if secType =? secTypeRAne256 then Some (rsa 256 false)
  else None.

Definition not_supported : exn := invalid_argument "Security type not supported".

Definition GetSSecurity (enabled : list Z) (secType : Z) : res (ssecurity X) :=
  if negb (IsSupported enabled secType) then Throw not_supported
  else if secType =? secTypeVeNCrypt then Ok (VeNCrypt new_vencrypt)
  else match make_method secType with Some m => Ok (Direct m) | None => Throw not_supported end.

(** *** [processMsg] *)

Definition basic_processMsg (b : basic X) : SE (link * V) (bool * basic X) :=
  match b with
  | SNone => mret (true, SNone)
  | SVncAuth a => r ← vncauth_processMsg a; mret (r.1, SVncAuth r.2)
  | SPlain p => r ← plain_processMsg p; mret (r.1, SPlain r.2)
  | SExt x => r ← ext_processMsg x; mret (r.1, SExt r.2)
  end.

(** The second part of [SSecurityStack::processMsg]. *)
Definition stack_part1 (type : Z) (s0 : basic X) (s1 : option (basic X)) : SE (link * V) (bool * method X) :=
  match s1 with
  | None => mret (true, Stack type 2 s0 None)
  | Some b =>
      r ← basic_processMsg b;
      mret (r.1, Stack type (if (r.1 : bool) then 2 else 1) s0 (Some r.2))
  end.

Definition method_processMsg (m : method X) : SE (link * V) (bool * method X) :=
  match m with
  | Single type b => r ← basic_processMsg b; mret (r.1, Single type r.2)
  | Stack type state s0 s1 =>
      if state =? 0 then
        r ← basic_processMsg s0;
        if negb r.1 then mret (false, Stack type 0 r.2 s1) else stack_part1 type r.2 s1
      else if state =? 1 then stack_part1 type s0 s1
      else mret (true, m)
  end.

(** [SSecurityVeNCrypt::processMsg] from the choice of a method on. *)
Definition vencrypt_choice (enabled : list Z) (s : vencrypt X) : SE (link * V) (bool * ssecurity X) :=
  ok ← is_hasData 4;
  if negb ok then mret (false, VeNCrypt s) else
  chosenType ← is_readU32;
  let haveChosenType := bool_decide (chosenType ∈ vc_subTypes s) in
  let chosenType := if haveChosenType then chosenType else secTypeInvalid in
  if (chosenType =? secTypeInvalid) || (chosenType =? secTypeVeNCrypt)
  then st_throw (protocol_error "No valid VeNCrypt sub-type")
  else
    match GetSSecurity enabled chosenType with
    | Throw e => st_throw e
    | Ok (VeNCrypt _) => st_throw not_supported
    | Ok (Direct m) =>
        r ← method_processMsg m;
        mret (r.1, VeNCrypt (MkVeNCrypt (vc_haveSentVersion s) (vc_haveRecvdMajorVersion s) (vc_haveRecvdMinorVersion s)
          (vc_majorVersion s) (vc_haveSentTypes s) true chosenType (vc_subTypes s) (Some r.2)))
    end.

Definition vencrypt_chosen (enabled : list Z) (s : vencrypt X) : SE (link * V) (bool * ssecurity X) :=
  if negb (vc_haveChosenType s) then vencrypt_choice enabled s else
  match vc_ssecurity s with
  | None => st_throw (logic_error "null")
  | Some m =>
      r ← method_processMsg m;
      mret (r.1, VeNCrypt (MkVeNCrypt (vc_haveSentVersion s) (vc_haveRecvdMajorVersion s) (vc_haveRecvdMinorVersion s)
        (vc_majorVersion s) (vc_haveSentTypes s) (vc_haveChosenType s) (vc_chosenType s) (vc_subTypes s) (Some r.2)))
  end.

(** From the list of methods on; its length is a [uint8_t]. *)
Definition vencrypt_types (enabled : list Z) (s : vencrypt X) : SE (link * V) (bool * ssecurity X) :=
  if negb (vc_haveSentTypes s) then
    let all := GetEnabledExtSecTypes enabled in
    let subTypes := ztake (u8 (len all)) all in
    if u8 (len all) =? 0 then st_throw (protocol_error "There are no VeNCrypt sub-types to send to the client") else
    os_writeU8 (u8 (len all));;
    os_writeBytes (concat (map writeU32 subTypes));;
    os_flush;;
    vencrypt_chosen enabled (MkVeNCrypt (vc_haveSentVersion s) (vc_haveRecvdMajorVersion s) (vc_haveRecvdMinorVersion s)
      (vc_majorVersion s) true (vc_haveChosenType s) (vc_chosenType s) subTypes (vc_ssecurity s))
  else vencrypt_chosen enabled s.

(** From the client's minor version on. *)
Definition vencrypt_minor (enabled : list Z) (s : vencrypt X) : SE (link * V) (bool * ssecurity X) :=
  if negb (vc_haveRecvdMinorVersion s) then
    ok ← is_hasData 1;
    if negb ok then mret (false, VeNCrypt s) else
    minorVersion ← is_readU8;
    let Version := Z.lor (Z.shiftl (vc_majorVersion s) 8) minorVersion in
    if Version =? 2 then
      os_writeU8 0;;
      vencrypt_types enabled (MkVeNCrypt (vc_haveSentVersion s) (vc_haveRecvdMajorVersion s) true (vc_majorVersion s)
        (vc_haveSentTypes s) (vc_haveChosenType s) (vc_chosenType s) (vc_subTypes s) (vc_ssecurity s))
    else
      os_writeU8 0xff;;
      os_flush;;
      st_throw (protocol_error (if Version <=? 1 then "The client cannot support the server's VeNCrypt version"
                                else "The client returned an unsupported VeNCrypt version"))
  else vencrypt_types enabled s.

Definition vencrypt_major (enabled : list Z) (s : vencrypt X) : SE (link * V) (bool * ssecurity X) :=
  if negb (vc_haveRecvdMajorVersion s) then
    ok ← is_hasData 1;
    if negb ok then mret (false, VeNCrypt s) else
    majorVersion ← is_readU8;
    vencrypt_minor enabled (MkVeNCrypt (vc_haveSentVersion s) true (vc_haveRecvdMinorVersion s) majorVersion
      (vc_haveSentTypes s) (vc_haveChosenType s) (vc_chosenType s) (vc_subTypes s) (vc_ssecurity s))
  else vencrypt_minor enabled s.

Definition vencrypt_processMsg (enabled : list Z) (s : vencrypt X) : SE (link * V) (bool * ssecurity X) :=
  if negb (vc_haveSentVersion s) then
    os_writeU8 0;;
    os_writeU8 2;;
    os_flush;;
    vencrypt_major enabled (MkVeNCrypt true (vc_haveRecvdMajorVersion s) (vc_haveRecvdMinorVersion s) (vc_majorVersion s)
      (vc_haveSentTypes s) (vc_haveChosenType s) (vc_chosenType s) (vc_subTypes s) (vc_ssecurity s))
  else vencrypt_major enabled s.

Definition processMsg (enabled : list Z) (s : ssecurity X) : SE (link * V) (bool * ssecurity X) :=
  match s with
  | Direct m => r ← method_processMsg m; mret (r.1, Direct r.2)
  | VeNCrypt s => vencrypt_processMsg enabled s
  end.
End objects.

(** ** What has been checked when a security object is done *)

Section checked.
Context {V X : Type} `{E : ServerSecEnv V X}.

(** The kinds of an object's parts. *)
Inductive kind := KNone | KVncAuth | KPlain | KExt.
Definition basic_kind (b : basic X) : kind :=
  match b with SNone => KNone | SVncAuth _ => KVncAuth | SPlain _ => KPlain | SExt _ => KExt end.
Definition kinds (m : method X) : list kind :=
  match m with
  | Single _ b => [basic_kind b]
  | Stack _ _ b0 b1 => basic_kind b0 :: match b1 with Some b => [basic_kind b] | None => [] end
  end.
(** What the server asks of a client that chooses a type. *)
Definition asks (secType : Z) : option (list kind) := option_map kinds (make_method secType).

(** Whether a type that is enabled asks for one of the libraries' methods. *)
Definition ext_asked (enabled : list Z) : Prop :=
  exists t ks, (t ∈ GetEnabledSecTypes enabled \/ t ∈ GetEnabledExtSecTypes enabled) /\ asks t = Some ks /\ KExt ∈ ks.

(** The history of the link and what is outside: bytes are used up, and
    nothing else changes but by the calls. *)
Class Outside (enabled : list Z) (R : link * V -> link * V -> Prop) := {
  outside_pre :: PreOrder R;
  outside_link l l' v : (exists used, l_in l = used ++ l_in l') -> R (l, v) (l', v);
  outside_random n l v : R (l, v) (l, (random_data n v).2);
  outside_validate user password l v : R (l, v) (l, (validate_internal user password v).2);
  outside_ext x s : ext_asked enabled -> R s (ext_processMsg x s).2
}.

(** The history, of which what happens during a call is a part. *)
Context (enabled : list Z) (R call : link * V -> link * V -> Prop) `{Hpre : !PreOrder R} `{HR : !Outside enabled call}
  (sub : forall s s', call s s' -> R s s') (s0 : link * V).
Implicit Types now : link * V.

(** A point of the history that leads to [now]. *)
Definition past now s : Prop := R s0 s /\ R s now.

(** The next bytes of the input at some point were these. *)
Definition read_in now (bs : list Z) : Prop := exists s, past now s /\ exists rest, l_in s.1 = bs ++ rest.

(** The challenge is from the source of random data, and the answer, which the
    client has sent, is that of the password, for all rights, or of the one for
    watching. *)
Definition vncauth_sent now (a : vncauth) : Prop :=
  exists s, past now s /\ (random_data vncAuthChallengeSize s.2).1 = Some (va_challenge a).
Definition vncauth_checked now (a : vncauth) : Prop :=
  vncauth_sent now a /\ read_in now (va_response a) /\
  exists s, past now s /\ let '(passwd, passwdReadOnly) := getVncAuthPasswd s.2 in
    passwd <> [] /\
    (va_response a = vnc_response word passwd (va_challenge a) /\ va_rights a = AccessDefault \/
     passwdReadOnly <> [] /\ va_response a = vnc_response word passwdReadOnly (va_challenge a) /\ va_rights a = AccessView).

(** The user is one of those allowed and the platform accepts the password,
    as the client has sent them. *)
Definition plain_checked now (p : plain_state) : Prop :=
  exists username password s, p = PlainDone (until0 username) /\ read_in now username /\ read_in now password /\ past now s /\
    validUser (until0 username) s.2 = true /\ (validate_internal (until0 username) (until0 password) s.2).1.1 = true.

Definition basic_checked now (b : basic X) : Prop :=
  match b with
  | SNone => True
  | SVncAuth a => vncauth_checked now a
  | SPlain p => plain_checked now p
  | SExt x => exists x0 s s', past now s /\ ext_processMsg x0 s = (Ok (true, x), s')
  end.

Definition basic_inv now (b : basic X) : Prop :=
  match b with
  | SVncAuth a => va_sent a = true -> vncauth_sent now a
  | SPlain (PlainDone username) => plain_checked now (PlainDone username)
  | SExt _ => ext_asked enabled
  | _ => True
  end.

Definition method_checked now (m : method X) : Prop :=
  match m with
  | Single _ b => basic_checked now b
  | Stack _ _ b0 b1 => basic_checked now b0 /\ match b1 with Some b => basic_checked now b | None => True end
  end.

Definition method_inv now (m : method X) : Prop :=
  match m with
  | Single _ b => basic_inv now b
  | Stack _ state b0 b1 =>
      (if state =? 0 then basic_inv now b0 else basic_checked now b0) /\
      match b1 with Some b => if state =? 2 then basic_checked now b else basic_inv now b | None => True end /\
      0 <= state <= 2
  end.

Definition is_for (secType : Z) (m : method X) : Prop := asks secType = Some (kinds m).

Definition security_checked now (s : ssecurity X) : Prop :=
  match s with
  | Direct m => (exists t, t ∈ GetEnabledSecTypes enabled /\ is_for t m) /\ method_checked now m
  | VeNCrypt s => exists m t, vc_ssecurity s = Some m /\ t ∈ GetEnabledExtSecTypes enabled /\ is_for t m /\ method_checked now m
  end.

Definition security_inv now (s : ssecurity X) : Prop :=
  match s with
  | Direct m => (exists t, t ∈ GetEnabledSecTypes enabled /\ is_for t m) /\ method_inv now m
  | VeNCrypt s =>
      (vc_haveSentTypes s = true -> forall t, t ∈ vc_subTypes s -> t ∈ GetEnabledExtSecTypes enabled) /\
      forall m, vc_ssecurity s = Some m -> exists t, t ∈ GetEnabledExtSecTypes enabled /\ is_for t m /\ method_inv now m
  end.

(** *** What has been stays so *)

Section later.
Context (now now' : link * V) (Hnow : R now now').

Lemma past_later s : past now s -> past now' s.
Proof. intros [??]. split; [done|by etrans]. Qed.
Lemma read_in_later bs : read_in now bs -> read_in now' bs.
Proof. intros (s & ? & ?). exists s. split; [by apply past_later|done]. Qed.
Lemma sent_later a : vncauth_sent now a -> vncauth_sent now' a.
Proof. intros (s & ? & ?). exists s. split; [by apply past_later|done]. Qed.
Lemma vncauth_later a : vncauth_checked now a -> vncauth_checked now' a.
Proof.
  intros (? & ? & s & ? & ?). split; [by apply sent_later|]. split; [by apply read_in_later|].
  exists s. split; [by apply past_later|done].
Qed.
Lemma plain_later p : plain_checked now p -> plain_checked now' p.
Proof.
  intros (username & password & s & ? & ? & ? & ? & ?). exists username, password, s.
  do 3 (split; [by try apply read_in_later|]). split; [by apply past_later|done].
Qed.
Lemma checked_later b : basic_checked now b -> basic_checked now' b.
Proof.
  destruct b as [|a|p|x]; cbn; [done|apply vncauth_later|apply plain_later|].
  intros (x0 & s & s' & ? & ?). exists x0, s, s'. split; [by apply past_later|done].
Qed.
Lemma basic_later b : basic_inv now b -> basic_inv now' b.
Proof. destruct b as [|a|[]|x]; cbn; eauto using sent_later, plain_later. Qed.
Lemma method_later m : method_inv now m -> method_inv now' m.
Proof.
  destruct m as [t b|t state b0 b1]; cbn; [apply basic_later|]. intros (H0 & H1 & ?).
  split; [|split; [|done]].
  - destruct (state =? 0); [by apply basic_later|by apply checked_later].
  - destruct b1; [|done]. destruct (state =? 2); [by apply checked_later|by apply basic_later].
Qed.
Lemma security_later s : security_inv now s -> security_inv now' s.
Proof.
  destruct s as [m|s]; cbn; [intros [? ?]; split; [done|by apply method_later]|]. intros [? H]. split; [done|].
  intros m Hm. destruct (H m Hm) as (t & ? & ? & ?). exists t. eauto using method_later.
Qed.
Lemma method_checked_later m : method_checked now m -> method_checked now' m.
Proof.
  destruct m as [t b|t state b0 b1]; cbn; [apply checked_later|]. intros [? ?]. split; [by apply checked_later|].
  destruct b1; [by apply checked_later|done].
Qed.
Lemma security_checked_later s : security_checked now s -> security_checked now' s.
Proof.
  destruct s as [m|s]; cbn; [intros [? ?]; split; [done|by apply method_checked_later]|].
  intros (m & t & ? & ? & ? & ?). exists m, t. eauto using method_checked_later.
Qed.
End later.

(** *** Computations that keep to the history *)

Definition goes {A} (m : SE (link * V) A) (Q : A -> link * V -> Prop) s : Prop :=
  st_ends m (fun a s' => Q a s' /\ call s s') (fun _ s' => call s s') s.

Lemma goes_ret {A} (Q : A -> link * V -> Prop) a s : Q a s -> goes (mret a) Q s.
Proof. intros H. by split. Qed.
Lemma goes_throw {A} (Q : A -> link * V -> Prop) e s : goes (st_throw e) Q s.
Proof. unfold goes, st_ends. cbn. done. Qed.
Lemma goes_bind {A B} (P : A -> link * V -> Prop) (Q : B -> link * V -> Prop) m f s : goes m P s ->
  (forall a s', P a s' -> R s s' -> goes (f a) Q s') -> goes (m ≫= f) Q s.
Proof.
  unfold goes, st_ends, mbind, SE_bind. destruct (m s) as [[a|e] s'] eqn:Hms; [|done]. intros [Ha Hs'] Hf.
  specialize (Hf a s' Ha (sub _ _ Hs')). destruct (f a s') as [[b|e] s'']; [destruct Hf as [??]; split; [done|]|]; by etrans.
Qed.
Lemma goes_if {A} (b : bool) (Q : A -> link * V -> Prop) m m' s : (b = true -> goes m Q s) -> (b = false -> goes m' Q s) ->
  goes (if b then m else m') Q s.
Proof. destruct b; auto. Qed.
Lemma goes_any {A} (P Q : A -> link * V -> Prop) m s : goes m P s -> (forall a s', P a s' -> R s s' -> Q a s') -> goes m Q s.
Proof. unfold goes, st_ends. destruct (m s) as [[a|e] s']; [|done]. intros [??]. eauto. Qed.
Lemma goes_link {A} (m : SE (link * V) A) (Q : A -> Prop) s :
  st_ends m (fun a s' => Q a /\ s'.2 = s.2 /\ exists used, l_in s.1 = used ++ l_in s'.1)
    (fun _ s' => s'.2 = s.2 /\ exists used, l_in s.1 = used ++ l_in s'.1) s -> goes m (fun a _ => Q a) s.
Proof.
  unfold goes, st_ends. destruct s as [l v]. destruct (m (l, v)) as [[a|e] [l' v']]; cbn; [intros (? & -> & ?)|intros (-> & ?)];
    [split; [done|]|]; by apply outside_link.
Qed.
Lemma goes_change f s : (forall l, l_in (f l) = l_in l) -> goes (l_change f) (fun _ _ => True) s.
Proof. intros Hf. apply goes_link. split; [done|]. split; [done|]. exists []. cbn. by rewrite Hf. Qed.
Lemma goes_hasData n s : goes (is_hasData n) (fun _ _ => True) s.
Proof.
  apply (goes_link _ (fun _ => True)). unfold st_ends, is_hasData, mbind, SE_bind, l_get.
  destruct (n <=? _); [|destruct (l_eof s.1)]; cbn; split_and?; try done; by exists [].
Qed.
Lemma goes_readBytes n s : R s0 s -> goes (is_readBytes n) (fun bs now => read_in now bs) s.
Proof.
  intros Hs. unfold goes, st_ends, is_readBytes, mbind, SE_bind, l_get, l_change. destruct s as [l v]. cbn [fst snd].
  destruct (len (l_in l) <? n); cbn; [done|].
  assert (call (l, v) (set_in (zdrop n (l_in l)) l, v)) as Hr.
  { apply outside_link. exists (ztake n (l_in l)). cbn. by rewrite ztake_zdrop. }
  split; [|done]. exists (l, v). split; [split; [done|by apply sub]|]. exists (zdrop n (l_in l)). by rewrite ztake_zdrop.
Qed.
Lemma goes_readU8 s : R s0 s -> goes is_readU8 (fun _ _ => True) s.
Proof. intros Hs. eapply goes_bind; [by apply goes_readBytes|]. intros. by apply goes_ret. Qed.
Lemma goes_readU32 s : R s0 s -> goes is_readU32 (fun _ _ => True) s.
Proof. intros Hs. eapply goes_bind; [by apply goes_readBytes|]. intros. by apply goes_ret. Qed.
Lemma goes_rest s : goes l_rest (fun v now => now = s /\ v = s.2) s.
Proof. unfold goes, st_ends. cbn. done. Qed.
Lemma goes_random n s : R s0 s -> goes (l_rest_op (random_data n)) (fun r now => exists s, past now s /\ (random_data n s.2).1 = r) s.
Proof.
  intros Hs. destruct s as [l v]. unfold goes, st_ends, l_rest_op. cbn [fst snd]. pose proof (outside_random n l v) as Hr.
  destruct (random_data n v) as [o v'] eqn:He. cbn [fst snd] in *. split; [|done]. exists (l, v). split; [split; [done|by apply sub]|]. cbn. by rewrite He.
Qed.
Lemma goes_validate username password s : R s0 s -> goes (validate username password) (fun r now => r.1 = true ->
  exists s, past now s /\ validUser username s.2 = true /\ (validate_internal username password s.2).1.1 = true) s.
Proof.
  intros Hs. destruct s as [l v]. unfold goes, st_ends, validate, mbind, SE_bind, l_rest, l_rest_op. cbn [fst snd].
  pose proof (outside_validate username password l v) as Hr. destruct (validUser username v) eqn:Hu; [|done]. cbn [fst snd].
  destruct (validate_internal username password v) as [o v'] eqn:He. cbn in *.
  split; [|done]. intros Ho. exists (l, v). cbn. rewrite He. split; [split; [done|by apply sub]|done].
Qed.
Lemma goes_ext x s : ext_asked enabled -> R s0 s -> goes (ext_processMsg x) (fun r now => r.1 = true -> basic_checked now (SExt r.2)) s.
Proof.
  intros Hx Hs. unfold goes, st_ends. pose proof (outside_ext x s Hx) as Hr.
  destruct (ext_processMsg x s) as [[[b x']|e] s'] eqn:He; cbn in *; [|done].
  split; [|done]. intros ->. exists x, s, s'. split; [split; [done|by apply sub]|done].
Qed.

(** *** Objects *)

Lemma len_nonempty {A} (l : list A) : len l <> 0 -> l <> [].
Proof. by intros H ->. Qed.

Lemma goes_vncauth a s : R s0 s -> basic_inv s (SVncAuth a) ->
  goes (vncauth_processMsg a) (fun r now => basic_inv now (SVncAuth r.2) /\ (r.1 = true -> vncauth_checked now r.2)) s.
Proof.
  intros Hs Ha. cbn in Ha. unfold vncauth_processMsg. apply goes_if; intros Hsent; bool_decide_hyps.
  - eapply goes_bind; [by apply goes_random|]. intros [challenge|] s1 (s' & Hp & Hr) H1; [|apply goes_throw].
    do 2 (eapply goes_bind; [by apply goes_change|]; intros _ ? _ ?). apply goes_ret. cbn. split; [|done]. intros _.
    exists s'. split; [|done]. by do 2 (eapply past_later; [done|]).
  - eapply goes_bind; [apply goes_hasData|]. intros ok s1 _ H1. assert (R s0 s1) as Hs1 by by etrans.
    apply goes_if; intros _; [apply goes_ret; split; [intros _; by eapply sent_later, Ha|done]|].
    eapply goes_bind; [by apply goes_readBytes|]. intros response s2 Hread H2. assert (R s0 s2) as Hs2 by by etrans.
    eapply goes_bind; [apply goes_rest|]. intros v ? [-> ->] _. cbv zeta. 
    destruct (getVncAuthPasswd s2.2) as [passwd ro] eqn:Hp.
    assert (vncauth_sent s2 a) as Hsent2 by (by eapply (sent_later _ _ (transitivity H1 H2)), Ha).
    apply goes_if; intros Hne; [apply goes_throw|]. bool_decide_hyps. apply len_nonempty in Hne.
    apply goes_if; intros Hv; [|apply goes_if; intros Hv'; [|apply goes_throw]]; apply goes_ret; (split; [intros _; exact Hsent2|]); intros _;
      (split; [exact Hsent2|]); (split; [done|]); exists s2; rewrite Hp; (split; [done|]); (split; [done|]).
    + left. split; [|done]. by apply bool_decide_eq_true in Hv.
    + right. apply andb_true_iff in Hv' as [Hro Hv']. bool_decide_hyps. apply bool_decide_eq_true in Hv'.
      split; [by apply len_nonempty|done].
Qed.

Lemma goes_plain_texts ulen plen s : R s0 s ->
  goes (plain_texts ulen plen) (fun r now => basic_inv now (SPlain r.2) /\ (r.1 = true -> plain_checked now r.2)) s.
Proof.
  intros Hs. unfold plain_texts. eapply goes_bind; [apply goes_hasData|]. intros ok s1 _ H1. assert (R s0 s1) as Hs1 by by etrans.
  apply goes_if; intros _; [by apply goes_ret|].
  eapply goes_bind; [by apply goes_readBytes|]. intros username s2 Hu H2. assert (R s0 s2) as Hs2 by by etrans.
  eapply goes_bind; [by apply goes_readBytes|]. intros password s3 Hw H3. assert (R s0 s3) as Hs3 by by etrans.
  eapply goes_bind; [by apply goes_validate|]. intros [valid msg] s4 Hv H4. cbn in Hv.
  apply goes_if; intros ->; [|apply goes_throw]. destruct (Hv eq_refl) as (s' & ? & ? & ?).
  assert (plain_checked s4 (PlainDone (until0 username))).
  { exists username, password, s'. split; [done|]. split; [by eapply (read_in_later _ _ (transitivity H3 H4))|].
    split; [by eapply (read_in_later _ _ H4)|done]. }
  by apply goes_ret.
Qed.

Lemma goes_plain p s : R s0 s -> basic_inv s (SPlain p) ->
  goes (plain_processMsg p) (fun r now => basic_inv now (SPlain r.2) /\ (r.1 = true -> plain_checked now r.2)) s.
Proof.
  intros Hs Hp. unfold plain_processMsg. apply goes_if; intros _; [apply goes_throw|].
  destruct p as [|ulen plen|username]; [|by apply goes_plain_texts|by apply goes_ret].
  eapply goes_bind; [apply goes_hasData|]. intros ok s1 _ H1. assert (R s0 s1) as Hs1 by by etrans.
  apply goes_if; intros _; [by apply goes_ret|].
  eapply goes_bind; [by apply goes_readU32|]. intros ulen s2 _ H2. assert (R s0 s2) as Hs2 by by etrans.
  apply goes_if; intros _; [apply goes_throw|].
  eapply goes_bind; [by apply goes_readU32|]. intros plen s3 _ H3. assert (R s0 s3) as Hs3 by by etrans.
  apply goes_if; intros _; [apply goes_throw|]. by apply goes_plain_texts.
Qed.

Lemma goes_basic b s : R s0 s -> basic_inv s b ->
  goes (basic_processMsg b) (fun r now => basic_inv now r.2 /\ basic_kind r.2 = basic_kind b /\ (r.1 = true -> basic_checked now r.2)) s.
Proof.
  intros Hs Hb. destruct b as [|a|p|x]; cbn [basic_processMsg].
  - by apply goes_ret.
  - eapply goes_bind; [by apply goes_vncauth|]. intros r s1 [??] _. by apply goes_ret.
  - eapply goes_bind; [by apply goes_plain|]. intros r s1 [??] _. by apply goes_ret.
  - eapply goes_bind; [by apply goes_ext|]. intros r s1 H _. apply goes_ret. by split.
Qed.

Lemma goes_stack_part1 type b0 b1 s : R s0 s -> basic_checked s b0 -> match b1 with Some b => basic_inv s b | None => True end ->
  goes (stack_part1 type b0 b1) (fun r now => method_inv now r.2 /\ kinds r.2 = kinds (Stack type 1 b0 b1) /\
    (r.1 = true -> method_checked now r.2)) s.
Proof.
  intros Hs H0 H1. unfold stack_part1. destruct b1 as [b|]; [|by apply goes_ret].
  eapply goes_bind; [by apply goes_basic|]. intros [ok b'] s1 (Hi & Hk & Hc) Hs1. cbn [fst snd] in *. apply goes_ret.
  assert (basic_checked s1 b0) by by eapply checked_later.
  cbn. rewrite Hk. destruct ok; cbn; repeat split; auto; lia.
Qed.

Lemma goes_method t m s : R s0 s -> is_for t m -> method_inv s m ->
  goes (method_processMsg m) (fun r now => is_for t r.2 /\ method_inv now r.2 /\ (r.1 = true -> method_checked now r.2)) s.
Proof.
  intros Hs Hfor Hm. unfold is_for in *.
  cut (goes (method_processMsg m) (fun r now => kinds r.2 = kinds m /\ method_inv now r.2 /\ (r.1 = true -> method_checked now r.2)) s).
  { intros Hg. eapply goes_any; [exact Hg|]. intros r s1 (-> & ? & ?) _. done. }
  clear Hfor. destruct m as [type b|type state b0 b1]; cbn [method_processMsg method_inv] in *.
  - eapply goes_bind; [by apply goes_basic|]. intros [ok b'] s1 (Hi & Hk & Hc) _. apply goes_ret. cbn in *. by rewrite Hk.
  - destruct Hm as (H0 & H1 & Hst). destruct (Z.eqb_spec state 0) as [->|Hn].
    + eapply goes_bind; [by apply goes_basic|]. intros [ok b'] s1 (Hi & Hk & Hc) H01. cbn [fst snd] in *. assert (R s0 s1) as Hs1 by by etrans.
      assert (match b1 with Some b => basic_inv s1 b | None => True end) as H1' by (destruct b1; [by apply (basic_later _ _ H01)|done]).
      destruct ok; cbn [negb].
      * eapply goes_any; [by apply goes_stack_part1; [|apply Hc|]|]. intros r s2 (?&Hr&?) _. split; [|done].
        rewrite Hr. cbn. by rewrite Hk.
      * apply goes_ret. cbn. by rewrite Hk.
    + apply goes_if; intros Hst1; bool_decide_hyps; subst.
      * eapply goes_any; [by apply goes_stack_part1|]. intros r s2 (?&?&?) _. done.
      * apply goes_ret. cbn. destruct (Z.eqb_spec state 0) as [|_]; [done|]. split; [done|]. split; [done|].
        intros _. split; [done|]. by replace state with 2 in * by lia.
Qed.

Lemma make_method_inv t m now : make_method t = Some m ->
  t ∈ GetEnabledSecTypes enabled \/ t ∈ GetEnabledExtSecTypes enabled -> is_for t m /\ method_inv now m.
Proof.
  intros H Ht. assert (asks t = Some (kinds m)) as Ha by (unfold asks; by rewrite H). split; [done|].
  assert (KExt ∈ kinds m -> ext_asked enabled) as Hx by (intros Hin; by exists t, (kinds m)). clear Ha Ht. revert H Hx. unfold make_method.
  repeat (case_match; [intros [= <-] Hx; cbn in *; repeat split; by try (apply Hx; left)|]). done.
Qed.

Lemma GetSSecurity_inv t s now : t ∈ GetEnabledSecTypes enabled -> GetSSecurity enabled t = Ok s -> security_inv now s.
Proof.
  unfold GetSSecurity. intros Hin. case_match; [done|].
  destruct (t =? secTypeVeNCrypt); [intros [= <-]; done|].
  destruct (make_method t) as [m|] eqn:Hm; [|done]. intros [= <-]. eapply make_method_inv in Hm as [? ?]; [|by left]. cbn. eauto.
Qed.

Lemma GetSSecurity_ext t m now : GetSSecurity enabled t = Ok (Direct m) -> t <> secTypeVeNCrypt ->
  t ∈ GetEnabledExtSecTypes enabled -> is_for t m /\ method_inv now m.
Proof.
  unfold GetSSecurity. intros H Ht Hin. case_match; [done|].
  rewrite (proj2 (Z.eqb_neq _ _) Ht) in H. destruct (make_method t) as [m'|] eqn:Hm; [|done]. injection H as ->.
  apply make_method_inv; [done|by right].
Qed.

Abbreviation keeps := (fun (r : bool * ssecurity X) now =>
  security_inv now r.2 /\ (r.1 = true -> security_checked now r.2)).

Lemma goes_vencrypt_choice s st : R s0 st -> security_inv st (VeNCrypt s) -> vc_haveSentTypes s = true ->
  goes (vencrypt_choice enabled s) keeps st.
Proof.
  intros Hst Hi Hsent. unfold vencrypt_choice. eapply goes_bind; [apply goes_hasData|]. intros ok s1 _ H1. assert (R s0 s1) as Hs1 by by etrans.
  eapply security_later in Hi as [Hsub Hs]; [|exact H1].
  apply goes_if; intros _; [by apply goes_ret|]. eapply goes_bind; [by apply goes_readU32|].
  intros t s2 _ H2. assert (R s0 s2) as Hs2 by by etrans. cbv zeta.
  destruct (bool_decide (t ∈ vc_subTypes s)) eqn:Hin; [|apply goes_throw].
  apply bool_decide_eq_true in Hin. pose proof (Hsub Hsent t Hin) as Hext.
  apply goes_if; intros Ht; [apply goes_throw|]. bool_decide_hyps.
  destruct (GetSSecurity enabled t) as [[m|]|e] eqn:Hg; [|apply goes_throw..].
  apply (GetSSecurity_ext _ _ s2) in Hg as [Hfor Hm]; [|done..].
  eapply goes_bind; [by apply (goes_method t)|]. intros [ok' m'] s3 (Hfor' & Hi & Hc) _. cbn [fst snd] in *.
  apply goes_ret. cbn. split; [|intros ->; eauto 10]. split; [done|]. intros ? [= <-]. eauto.
Qed.

Lemma goes_vencrypt_chosen s st : R s0 st -> security_inv st (VeNCrypt s) -> vc_haveSentTypes s = true ->
  goes (vencrypt_chosen enabled s) keeps st.
Proof.
  intros Hst Hs Hsent. unfold vencrypt_chosen. apply goes_if; intros _; [by apply goes_vencrypt_choice|].
  destruct (vc_ssecurity s) as [m|] eqn:Hm; [|apply goes_throw]. destruct Hs as [Hsub Hs].
  destruct (Hs m Hm) as (t & Ht & Hfor & Hi).
  eapply goes_bind; [by apply (goes_method t)|]. intros [ok' m'] s1 (Hfor' & Hi' & Hc) _. cbn [fst snd] in *.
  apply goes_ret. cbn. split; [|intros ->; eauto 10]. split; [done|]. intros ? [= <-]. eauto.
Qed.

Lemma elem_of_ztake {A} n (x : A) l : x ∈ ztake n l -> x ∈ l.
Proof. intros H. rewrite <- (ztake_zdrop n l). apply elem_of_app. by left. Qed.

(** Both facts at the next point. *)
Ltac move_on Hst Hs Hr :=
  eapply security_later in Hs; [|exact Hr]; let H := fresh in assert (H := transitivity Hst Hr); clear Hst Hr; rename H into Hst.

Lemma goes_vencrypt_types s st : R s0 st -> security_inv st (VeNCrypt s) -> goes (vencrypt_types enabled s) keeps st.
Proof.
  intros Hst Hs. unfold vencrypt_types. apply goes_if; intros Hsent; bool_decide_hyps; [|by apply goes_vencrypt_chosen].
  cbv zeta. apply goes_if; intros _; [apply goes_throw|].
  do 3 (eapply goes_bind; [by apply goes_change|]; intros ? ? _ Hr; move_on Hst Hs Hr).
  apply goes_vencrypt_chosen; [done| |done]. destruct Hs as [_ Hs]. split; [|done]. intros _ t Ht. by eapply elem_of_ztake.
Qed.

Lemma goes_vencrypt_minor s st : R s0 st -> security_inv st (VeNCrypt s) -> goes (vencrypt_minor enabled s) keeps st.
Proof.
  intros Hst Hs. unfold vencrypt_minor. apply goes_if; intros _; [|by apply goes_vencrypt_types].
  eapply goes_bind; [apply goes_hasData|]. intros ok s1 _ H1. assert (R s0 s1) as Hs1 by by etrans.
  eapply security_later in Hs; [|exact H1]. apply goes_if; intros _; [by apply goes_ret|].
  eapply goes_bind; [by apply goes_readU8|]. intros minor s2 _ H2. assert (R s0 s2) as Hs2 by by etrans.
  eapply security_later in Hs; [|exact H2]. cbv zeta. apply goes_if; intros _.
  - eapply goes_bind; [by apply goes_change|]. intros _ s3 _ H3. eapply security_later in Hs; [|exact H3].
    apply goes_vencrypt_types; [by etrans|done].
  - do 2 (eapply goes_bind; [by apply goes_change|]; intros _ ? _ _). apply goes_throw.
Qed.

Lemma goes_vencrypt_major s st : R s0 st -> security_inv st (VeNCrypt s) -> goes (vencrypt_major enabled s) keeps st.
Proof.
  intros Hst Hs. unfold vencrypt_major. apply goes_if; intros _; [|by apply goes_vencrypt_minor].
  eapply goes_bind; [apply goes_hasData|]. intros ok s1 _ H1. assert (R s0 s1) as Hs1 by by etrans.
  eapply security_later in Hs; [|exact H1]. apply goes_if; intros _; [by apply goes_ret|].
  eapply goes_bind; [by apply goes_readU8|]. intros major s2 _ H2. eapply security_later in Hs; [|exact H2].
  apply goes_vencrypt_minor; [by etrans|done].
Qed.

(** Whatever the client sends, a security object that says it is done has
    checked what its type, one of those enabled, asks for. *)
Lemma goes_processMsg s st : R s0 st -> security_inv st s -> goes (processMsg enabled s) keeps st.
Proof.
  intros Hst Hs. destruct s as [m|s]; cbn [processMsg].
  - destruct Hs as [(t & Ht & Hfor) Hm]. eapply goes_bind; [by apply (goes_method t)|].
    intros [ok m'] s1 (Hfor' & Hi & Hc) _. cbn [fst snd] in *. apply goes_ret. cbn. split; [by eauto|]. intros ->. eauto.
  - unfold vencrypt_processMsg. apply goes_if; intros _; [|by apply goes_vencrypt_major].
    do 3 (eapply goes_bind; [by apply goes_change|]; intros ? ? _ Hr; move_on Hst Hs Hr). by apply goes_vencrypt_major.
Qed.
End checked.
