(* ===== verification/CSecurity.v ===== *)
(** * The client's side of authentication ([common/rfb/CSecurity*.cxx], [SecurityClient.cxx])

    A security object as the client makes it for the type it chooses, the
    counterpart of [SSecurity].  The user, who is asked for the name and the
    password, is outside the program, and so is the cryptography of the methods
    that encrypt the streams. *)
From stdpp Require Import base list numbers strings option.
From S2P Require Import Prelude InStream OutStream D3des Security Link SSecurity.
#[local] Open Scope Z_scope.

Inductive cext_kind := CTLS (anon : bool) | CRSAAES (type keySize : Z) (isAllEncrypted : bool) | CDH | CMSLogonII.

Class ClientSecEnv (V X : Type) := {
  cword : Z;                                          (* the bits of [unsigned long] *)
  (** [getUserPasswd(secure, user, password)]: whether a name is wanted, too. *)
  getUserPasswd : bool -> bool -> V -> res (list Z * list Z) * V;
  cext_new : cext_kind -> X;
  cext_processMsg : X -> SE (link * V) (bool * X);
  cext_isSecure : X -> bool
}.

Inductive cbasic (X : Type) := CNone | CVncAuth | CPlain | CExt (x : X).
Arguments CNone {X}.
Arguments CVncAuth {X}.
Arguments CPlain {X}.
Arguments CExt {X} _.

Inductive cmethod (X : Type) :=
| CSingle (type : Z) (b : cbasic X)
| CStack (type : Z) (state : Z) (state0 : cbasic X) (state1 : option (cbasic X)).
Arguments CSingle {X} _ _.
Arguments CStack {X} _ _ _ _.

Record cvencrypt (X : Type) := MkCVeNCrypt {
  cv_haveRecvdMajorVersion : bool; cv_haveRecvdMinorVersion : bool; cv_haveSentVersion : bool;
  cv_haveAgreedVersion : bool; cv_haveNumberOfTypes : bool; cv_haveListOfTypes : bool; cv_haveChosenType : bool;
  cv_majorVersion : Z; cv_minorVersion : Z; cv_chosenType : Z; cv_nAvailableTypes : Z; cv_availableTypes : list Z;
  cv_csecurity : option (cmethod X)
}.
Arguments MkCVeNCrypt {X} _ _ _ _ _ _ _ _ _ _ _ _ _.
Arguments cv_haveRecvdMajorVersion {X} _.
Arguments cv_haveRecvdMinorVersion {X} _.
Arguments cv_haveSentVersion {X} _.
Arguments cv_haveAgreedVersion {X} _.
Arguments cv_haveNumberOfTypes {X} _.
Arguments cv_haveListOfTypes {X} _.
Arguments cv_haveChosenType {X} _.
Arguments cv_majorVersion {X} _.
Arguments cv_minorVersion {X} _.
Arguments cv_chosenType {X} _.
Arguments cv_nAvailableTypes {X} _.
Arguments cv_availableTypes {X} _.
Arguments cv_csecurity {X} _.

Inductive csecurity (X : Type) :=
| CDirect (m : cmethod X)
| CVeNCrypt (s : cvencrypt X).
Arguments CDirect {X} _.
Arguments CVeNCrypt {X} _.

Definition new_cvencrypt {X} : cvencrypt X :=
  MkCVeNCrypt false false false false false false false 0 0 secTypeVeNCrypt 0 [] None.

Section objects.
Context {V X : Type} `{E : ClientSecEnv V X}.

Definition cmethod_getType (m : cmethod X) : Z := match m with CSingle type _ | CStack type _ _ _ => type end.
Definition cgetType (s : csecurity X) : Z :=
  match s with CDirect m => cmethod_getType m | CVeNCrypt s => cv_chosenType s end.

Definition cbasic_isSecure (b : cbasic X) : bool := match b with CExt x => cext_isSecure x | _ => false end.
Definition cmethod_isSecure (m : cmethod X) : bool :=
  match m with
  | CSingle _ b => cbasic_isSecure b
  | CStack _ state s0 s1 =>
      cbasic_isSecure s0 || ((state =? 1) && match s1 with Some b => cbasic_isSecure b | None => false end)
  end.
Definition isSecure (s : csecurity X) : bool :=
  match s with
  | CDirect m => cmethod_isSecure m
  | CVeNCrypt s => match cv_csecurity s with Some m => cmethod_isSecure m | None => false end
  end.

(** [SecurityClient::GetCSecurity] *)

Definition make_cmethod (secType : Z) : option (cmethod X) :=
  let tls anon := CExt (cext_new (CTLS anon)) in
  let rsa keySize all := CSingle secType (CExt (cext_new (CRSAAES secType keySize all))) in
  if secType =? secTypeNone then Some (CSingle secTypeNone CNone)
  else if secType =? secTypeVncAuth then Some (CSingle secTypeVncAuth CVncAuth)
  else if secType =? secTypePlain then Some (CSingle secTypePlain CPlain)
  else if secType =? secTypeTLSNone then Some (CStack secTypeTLSNone 0 (tls true) None)
  else if secType =? secTypeTLSVnc then Some (CStack secTypeTLSVnc 0 (tls true) (Some CVncAuth))
  else if secType =? secTypeTLSPlain then Some (CStack secTypeTLSPlain 0 (tls true) (Some CPlain))
  else if secType =? secTypeX509None then Some (CStack secTypeX509None 0 (tls false) None)
  else if secType =? secTypeX509Vnc then Some (CStack secTypeX509Vnc 0 (tls false) (Some CVncAuth))
  else if secType =? secTypeX509Plain then Some (CStack secTypeX509Plain 0 (tls false) (Some CPlain))
  else if secType =? secTypeRA2 then Some (rsa 128 true)
  else if secType =? secTypeRA2ne then Some (rsa 128 false)
  else if secType =? secTypeRA256 then Some (rsa 256 true)
  else if secType =? secTypeRAne256 then Some (rsa 256 false)
  else if secType =? secTypeDH then Some (CSingle secTypeDH (CExt (cext_new CDH)))
  else if secType =? secTypeMSLogonII then Some (CSingle secTypeMSLogonII (CExt (cext_new CMSLogonII)))
  else None.

Definition GetCSecurity (enabled : list Z) (secType : Z) : res (csecurity X) :=
  if negb (IsSupported enabled secType) then Throw not_supported
  else if secType =? secTypeVeNCrypt then Ok (CVeNCrypt new_cvencrypt)
  else match make_cmethod secType with Some m => Ok (CDirect m) | None => Throw not_supported end.

(** *** [processMsg]; [secure] is what [CConnection::isSecure] answers *)

Definition cvncauth_processMsg (secure : bool) : SE (link * V) bool :=
  ok ← is_hasData vncAuthChallengeSize;
  if negb ok then mret false else
  challenge ← is_readBytes vncAuthChallengeSize;
  r ← l_rest_throw (getUserPasswd secure false);
  os_writeBytes (vnc_response cword r.2 challenge);;
  os_flush;;
  mret true.

Definition cplain_processMsg (secure : bool) : SE (link * V) bool :=
  r ← l_rest_throw (getUserPasswd secure true);
  os_writeU32 (len r.1);;
  os_writeU32 (len r.2);;
  os_writeBytes r.1;;
  os_writeBytes r.2;;
  os_flush;;
  mret true.

Definition cbasic_processMsg (secure : bool) (b : cbasic X) : SE (link * V) (bool * cbasic X) :=
  match b with
  | CNone => mret (true, CNone)
  | CVncAuth => ok ← cvncauth_processMsg secure; mret (ok, CVncAuth)
  | CPlain => ok ← cplain_processMsg secure; mret (ok, CPlain)
  | CExt x => r ← cext_processMsg x; mret (r.1, CExt r.2)
  end.

Definition cstack_part1 (type : Z) (s0 : cbasic X) (s1 : option (cbasic X)) : SE (link * V) (bool * cmethod X) :=
  match s1 with
  | None => mret (true, CStack type 2 s0 None)
  | Some b =>
      r ← cbasic_processMsg (cmethod_isSecure (CStack type 1 s0 s1)) b;
      mret (r.1, CStack type (if (r.1 : bool) then 2 else 1) s0 (Some r.2))
  end.

Definition cmethod_processMsg (m : cmethod X) : SE (link * V) (bool * cmethod X) :=
  match m with
  | CSingle type b => r ← cbasic_processMsg (cmethod_isSecure m) b; mret (r.1, CSingle type r.2)
  | CStack type state s0 s1 =>
      if state =? 0 then
        r ← cbasic_processMsg (cmethod_isSecure m) s0;
        if negb r.1 then mret (false, CStack type 0 r.2 s1) else cstack_part1 type r.2 s1
      else if state =? 1 then cstack_part1 type s0 s1
      else mret (true, m)
  end.

Definition set_csecurity (m : cmethod X) (s : cvencrypt X) : cvencrypt X :=
  MkCVeNCrypt (cv_haveRecvdMajorVersion s) (cv_haveRecvdMinorVersion s) (cv_haveSentVersion s) (cv_haveAgreedVersion s)
    (cv_haveNumberOfTypes s) (cv_haveListOfTypes s) (cv_haveChosenType s) (cv_majorVersion s) (cv_minorVersion s)
    (cv_chosenType s) (cv_nAvailableTypes s) (cv_availableTypes s) (Some m).

(** [return csecurity->processMsg()] *)
Definition cvencrypt_inner (s : cvencrypt X) : SE (link * V) (bool * csecurity X) :=
  match cv_csecurity s with
  | None => st_throw (logic_error "null")
  | Some m => r ← cmethod_processMsg m; mret (r.1, CVeNCrypt (set_csecurity r.2 s))
  end.

(** The first type of the server's list that is one of ours. *)
Definition first_common (theirs ours : list Z) : Z :=
  match List.find (fun t => bool_decide (t ∈ ours)) theirs with Some t => t | None => secTypeInvalid end.

Definition cvencrypt_choose (enabled : list Z) (s : cvencrypt X) : SE (link * V) (bool * csecurity X) :=
  if negb (cv_haveChosenType s) then
    let chosenType := first_common (cv_availableTypes s) (GetEnabledExtSecTypes enabled) in
    if (chosenType =? secTypeInvalid) || (chosenType =? secTypeVeNCrypt)
    then st_throw (protocol_error "No valid VeNCrypt sub-type")
    else
      match GetCSecurity enabled chosenType with
      | Throw e => st_throw e
      | Ok (CVeNCrypt _) => st_throw not_supported
      | Ok (CDirect m) =>
          os_writeU32 chosenType;;
          os_flush;;
          cvencrypt_inner (MkCVeNCrypt (cv_haveRecvdMajorVersion s) (cv_haveRecvdMinorVersion s) (cv_haveSentVersion s)
            (cv_haveAgreedVersion s) (cv_haveNumberOfTypes s) (cv_haveListOfTypes s) true (cv_majorVersion s)
            (cv_minorVersion s) chosenType (cv_nAvailableTypes s) (cv_availableTypes s) (Some m))
      end
  else cvencrypt_inner s.

(** Four bytes a type. *)
Fixpoint read_types (n : nat) : SE (link * V) (list Z) :=
  match n with
  | O => mret []
  | S n => t ← is_readU32; ts ← read_types n; mret (t :: ts)
  end.

Definition cvencrypt_list (enabled : list Z) (s : cvencrypt X) : SE (link * V) (bool * csecurity X) :=
  if negb (cv_haveListOfTypes s) then
    ok ← is_hasData (4 * cv_nAvailableTypes s);
    if negb ok then mret (false, CVeNCrypt s) else
    types ← read_types (Z.to_nat (cv_nAvailableTypes s));
    cvencrypt_choose enabled (MkCVeNCrypt (cv_haveRecvdMajorVersion s) (cv_haveRecvdMinorVersion s) (cv_haveSentVersion s)
      (cv_haveAgreedVersion s) (cv_haveNumberOfTypes s) true (cv_haveChosenType s) (cv_majorVersion s)
      (cv_minorVersion s) (cv_chosenType s) (cv_nAvailableTypes s) types (cv_csecurity s))
  else cvencrypt_choose enabled s.

Definition cvencrypt_number (enabled : list Z) (s : cvencrypt X) : SE (link * V) (bool * csecurity X) :=
  if negb (cv_haveNumberOfTypes s) then
    ok ← is_hasData 1;
    if negb ok then mret (false, CVeNCrypt s) else
    n ← is_readU8;
    if n =? 0 then st_throw (protocol_error "The server reported no VeNCrypt sub-types") else
    cvencrypt_list enabled (MkCVeNCrypt (cv_haveRecvdMajorVersion s) (cv_haveRecvdMinorVersion s) (cv_haveSentVersion s)
      (cv_haveAgreedVersion s) true (cv_haveListOfTypes s) (cv_haveChosenType s) (cv_majorVersion s)
      (cv_minorVersion s) (cv_chosenType s) n (cv_availableTypes s) (cv_csecurity s))
  else cvencrypt_list enabled s.

Definition cvencrypt_agreed (enabled : list Z) (s : cvencrypt X) : SE (link * V) (bool * csecurity X) :=
  if negb (cv_haveAgreedVersion s) then
    ok ← is_hasData 1;
    if negb ok then mret (false, CVeNCrypt s) else
    answer ← is_readU8;
    if z2b answer then st_throw (protocol_error
      "The server reported that it could not support the client's VeNCrypt version") else
    cvencrypt_number enabled (MkCVeNCrypt (cv_haveRecvdMajorVersion s) (cv_haveRecvdMinorVersion s) (cv_haveSentVersion s)
      true (cv_haveNumberOfTypes s) (cv_haveListOfTypes s) (cv_haveChosenType s) (cv_majorVersion s)
      (cv_minorVersion s) (cv_chosenType s) (cv_nAvailableTypes s) (cv_availableTypes s) (cv_csecurity s))
  else cvencrypt_number enabled s.

Definition cvencrypt_send (enabled : list Z) (s : cvencrypt X) : SE (link * V) (bool * csecurity X) :=
  if negb (cv_haveSentVersion s) then
    let Version := Z.lor (Z.shiftl (cv_majorVersion s) 8) (cv_minorVersion s) in
    if 2 <=? Version then
      os_writeU8 0;;
      os_writeU8 2;;
      os_flush;;
      cvencrypt_agreed enabled (MkCVeNCrypt (cv_haveRecvdMajorVersion s) (cv_haveRecvdMinorVersion s) true
        (cv_haveAgreedVersion s) (cv_haveNumberOfTypes s) (cv_haveListOfTypes s) (cv_haveChosenType s) 0 2
        (cv_chosenType s) (cv_nAvailableTypes s) (cv_availableTypes s) (cv_csecurity s))
    else
      os_writeU8 0;;
      os_writeU8 0;;
      os_flush;;
      st_throw (protocol_error "The server reported an unsupported VeNCrypt version")
  else cvencrypt_agreed enabled s.

Definition cvencrypt_minor (enabled : list Z) (s : cvencrypt X) : SE (link * V) (bool * csecurity X) :=
  if negb (cv_haveRecvdMinorVersion s) then
    ok ← is_hasData 1;
    if negb ok then mret (false, CVeNCrypt s) else
    minorVersion ← is_readU8;
    cvencrypt_send enabled (MkCVeNCrypt (cv_haveRecvdMajorVersion s) true (cv_haveSentVersion s)
      (cv_haveAgreedVersion s) (cv_haveNumberOfTypes s) (cv_haveListOfTypes s) (cv_haveChosenType s)
      (cv_majorVersion s) minorVersion
      (cv_chosenType s) (cv_nAvailableTypes s) (cv_availableTypes s) (cv_csecurity s))
  else cvencrypt_send enabled s.

Definition cvencrypt_processMsg (enabled : list Z) (s : cvencrypt X) : SE (link * V) (bool * csecurity X) :=
  if negb (cv_haveRecvdMajorVersion s) then
    ok ← is_hasData 1;
    if negb ok then mret (false, CVeNCrypt s) else
    majorVersion ← is_readU8;
    cvencrypt_minor enabled (MkCVeNCrypt true (cv_haveRecvdMinorVersion s) (cv_haveSentVersion s)
      (cv_haveAgreedVersion s) (cv_haveNumberOfTypes s) (cv_haveListOfTypes s) (cv_haveChosenType s)
      majorVersion (cv_minorVersion s)
      (cv_chosenType s) (cv_nAvailableTypes s) (cv_availableTypes s) (cv_csecurity s))
  else cvencrypt_minor enabled s.

Definition cprocessMsg (enabled : list Z) (s : csecurity X) : SE (link * V) (bool * csecurity X) :=
  match s with
  | CDirect m => r ← cmethod_processMsg m; mret (r.1, CDirect r.2)
  | CVeNCrypt s => cvencrypt_processMsg enabled s
  end.
End objects.
