(* ===== verification/SConnection.v ===== *)
(** * A connection of the server ([common/rfb/SConnection.cxx], [VNCSConnectionST.cxx])

    The server's end of a connection: the handshake as the state machine
    [processMsg] runs, the query for approval, the rights, and the messages of
    the client once it is through, as far as they are input (keys, pointer,
    clipboard, the size of the desktop).  [VNCServerST], which owns the connection,
    is an interface ([Owner]); the messages about the picture go to it whole.
    The corking of the output, the idle timer and fences that synchronise are
    left out. *)
From stdpp Require Import base gmap list numbers strings option sorting.
From S2P Require Import Prelude InStream OutStream Strings PixelFmt Geometry Screens Params Clipboard ClientMsgs ServerWriter D3des Security Link SSecurity.
#[local] Open Scope Z_scope.

(** ** The server behind a connection *)

(** What becomes of [queryConnection]: [approveConnection] is called with an
    answer, or the answer comes later. *)
Inductive decision := Approve | Reject (reason : option (list Z)) | AskUser.

Record desktop_info := Desktop {
  d_width : Z; d_height : Z; d_layout : list Screen; d_name : list Z; d_led : Z; d_pf : PixelFormat
}.

Class Owner (V : Type) := {
  (** the name of the user, and whether the connection may go without a query *)
  o_queryConnection : option (list Z) -> bool -> V -> decision * V;
  (** [shared], and whether the connection may be exclusive; a reason to close it *)
  o_clientReady : bool -> bool -> V -> option (list Z) * V;
  o_desktopReady : V -> bool;
  o_desktop : V -> desktop_info;
  o_alwaysShared : V -> bool;
  o_neverShared : V -> bool;
  o_acceptKeyEvents : V -> bool;
  o_keyEvent : Z -> Z -> bool -> V -> V;
  o_pointerEvent : Point -> Z -> V -> V;
  o_clipboardRequest : V -> V;
  o_clipboardAnnounce : bool -> V -> V;
  o_clipboardData : list Z -> V -> V;
  o_setDesktopSize : Z -> Z -> list Screen -> V -> res Z * V;
  (** the messages about the picture, with the client's parameters and whether
      it may see the picture; what is written to it *)
  o_picture : sevent -> bool -> ClientParams -> V -> (res (ClientParams * list Z)) * V
}.

(** ** The state *)

Inductive cstate :=
| RFBSTATE_UNINITIALISED | RFBSTATE_PROTOCOL_VERSION | RFBSTATE_SECURITY_TYPE | RFBSTATE_SECURITY
| RFBSTATE_SECURITY_FAILURE | RFBSTATE_QUERYING | RFBSTATE_INITIALISATION | RFBSTATE_CLIENT_READY
| RFBSTATE_NORMAL | RFBSTATE_CLOSING | RFBSTATE_INVALID.

#[export] Instance cstate_eq_dec : EqDecision cstate.
Proof. solve_decision. Defined.

(** The order of the enumeration. *)
Definition state_number (s : cstate) : Z :=
  match s with
  | RFBSTATE_UNINITIALISED => 0 | RFBSTATE_PROTOCOL_VERSION => 1 | RFBSTATE_SECURITY_TYPE => 2 | RFBSTATE_SECURITY => 3
  | RFBSTATE_SECURITY_FAILURE => 4 | RFBSTATE_QUERYING => 5 | RFBSTATE_INITIALISATION => 6
  | RFBSTATE_CLIENT_READY => 7 | RFBSTATE_NORMAL => 8 | RFBSTATE_CLOSING => 9 | RFBSTATE_INVALID => 10
  end.

Record clip := Clip {
  hasRemoteClipboard : bool; hasLocalClipboard : bool; unsolicitedClipboardAttempt : bool; clientClipboard : list Z
}.

(** [reader_] and [writer_], which exist together. *)
Record rw := RW { rw_reader : ClientMsgs.msgstate * Z; rw_writer : swriter }.

Record sconn (X : Type) := SConn {
  c_link : link;
  c_state : cstate;
  c_version : Z * Z;                       (* what the client needs *)
  c_ssecurity : option (ssecurity X);
  c_rights : Z;                            (* [accessRights] *)
  c_failure : option (list Z);             (* [authFailureMsg], while the timer runs *)
  c_rw : option rw;
  c_client : ClientParams;
  c_clip : clip;
  c_keys : gmap Z Z;                       (* [pressedKeys] *)
  c_pointer : Point;                       (* [pointerEventPos] *)
  c_reverse : bool;                        (* [reverseConnection] *)
  c_login : bool;                          (* [socketTimer] waits for the handshake *)
  c_closed : option (list Z)               (* [closeReason] *)
}.
Arguments SConn {X} _ _ _ _ _ _ _ _ _ _ _ _ _ _.
Arguments c_link {X} _.
Arguments c_state {X} _.
Arguments c_version {X} _.
Arguments c_ssecurity {X} _.
Arguments c_rights {X} _.
Arguments c_failure {X} _.
Arguments c_rw {X} _.
Arguments c_client {X} _.
Arguments c_clip {X} _.
Arguments c_keys {X} _.
Arguments c_pointer {X} _.
Arguments c_reverse {X} _.
Arguments c_login {X} _.
Arguments c_closed {X} _.

Definition key_le (a b : Z * Z) : Prop := a.1 <= b.1.
#[export] Instance key_le_dec a b : Decision (key_le a b).
Proof. unfold key_le. apply _. Defined.

(** The text of an exception. *)
Definition what (e : exn) : list Z :=
  match e with
  | protocol_error s | out_of_range s | logic_error s | invalid_argument s | runtime_error s
  | overflow_error s | length_error s => text s
  | auth_error m => m
  | end_of_stream => text "Clean disconnection"
  | endless _ => []
  end.

(** A computation that is over. *)
Definition returned {A} (r : res A) : Prop := match r with Throw (endless _) => False | _ => True end.

Section connection.
Context {V X : Type} `{HS : ServerSecEnv V X} `{HO : Owner V}.
(** The security types enabled, the version offered, the limit of the
    clipboard and zlib. *)
Context (enabled : list Z) (defaultMinorVersion : Z) (maxCutText : Z)
  (inflate : list Z -> zseg) (deflate : list Z -> list Z).
Abbreviation M := (SE (sconn X * V)).
Implicit Types c : sconn X.

Definition defaultMajorVersion : Z := 3.

(** *** Fields *)

Definition set_link (l : link) c : sconn X :=
  SConn l (c_state c) (c_version c) (c_ssecurity c) (c_rights c) (c_failure c) (c_rw c) (c_client c) (c_clip c) (c_keys c)
    (c_pointer c) (c_reverse c) (c_login c) (c_closed c).
Definition set_state (s : cstate) c : sconn X :=
  SConn (c_link c) s (c_version c) (c_ssecurity c) (c_rights c) (c_failure c) (c_rw c) (c_client c) (c_clip c) (c_keys c)
    (c_pointer c) (c_reverse c) (c_login c) (c_closed c).
Definition set_version (v : Z * Z) c : sconn X :=
  SConn (c_link c) (c_state c) v (c_ssecurity c) (c_rights c) (c_failure c) (c_rw c) (c_client c) (c_clip c) (c_keys c)
    (c_pointer c) (c_reverse c) (c_login c) (c_closed c).
Definition set_ssecurity (s : option (ssecurity X)) c : sconn X :=
  SConn (c_link c) (c_state c) (c_version c) s (c_rights c) (c_failure c) (c_rw c) (c_client c) (c_clip c) (c_keys c)
    (c_pointer c) (c_reverse c) (c_login c) (c_closed c).
Definition setAccessRights (ar : Z) c : sconn X :=
  SConn (c_link c) (c_state c) (c_version c) (c_ssecurity c) ar (c_failure c) (c_rw c) (c_client c) (c_clip c) (c_keys c)
    (c_pointer c) (c_reverse c) (c_login c) (c_closed c).
Definition set_failure (m : option (list Z)) c : sconn X :=
  SConn (c_link c) (c_state c) (c_version c) (c_ssecurity c) (c_rights c) m (c_rw c) (c_client c) (c_clip c) (c_keys c)
    (c_pointer c) (c_reverse c) (c_login c) (c_closed c).
Definition set_rw (r : option rw) c : sconn X :=
  SConn (c_link c) (c_state c) (c_version c) (c_ssecurity c) (c_rights c) (c_failure c) r (c_client c) (c_clip c) (c_keys c)
    (c_pointer c) (c_reverse c) (c_login c) (c_closed c).
Definition set_client (p : ClientParams) c : sconn X :=
  SConn (c_link c) (c_state c) (c_version c) (c_ssecurity c) (c_rights c) (c_failure c) (c_rw c) p (c_clip c) (c_keys c)
    (c_pointer c) (c_reverse c) (c_login c) (c_closed c).
Definition set_clip (cl : clip) c : sconn X :=
  SConn (c_link c) (c_state c) (c_version c) (c_ssecurity c) (c_rights c) (c_failure c) (c_rw c) (c_client c) cl (c_keys c)
    (c_pointer c) (c_reverse c) (c_login c) (c_closed c).
Definition set_keys (k : gmap Z Z) c : sconn X :=
  SConn (c_link c) (c_state c) (c_version c) (c_ssecurity c) (c_rights c) (c_failure c) (c_rw c) (c_client c) (c_clip c) k
    (c_pointer c) (c_reverse c) (c_login c) (c_closed c).
Definition set_pointer (p : Point) c : sconn X :=
  SConn (c_link c) (c_state c) (c_version c) (c_ssecurity c) (c_rights c) (c_failure c) (c_rw c) (c_client c) (c_clip c)
    (c_keys c) p (c_reverse c) (c_login c) (c_closed c).
Definition set_login (b : bool) c : sconn X :=
  SConn (c_link c) (c_state c) (c_version c) (c_ssecurity c) (c_rights c) (c_failure c) (c_rw c) (c_client c) (c_clip c)
    (c_keys c) (c_pointer c) (c_reverse c) b (c_closed c).
Definition set_closed (r : list Z) c : sconn X :=
  SConn (c_link c) (c_state c) (c_version c) (c_ssecurity c) (c_rights c) (c_failure c) (c_rw c) (c_client c) (c_clip c)
    (c_keys c) (c_pointer c) (c_reverse c) (c_login c) (Some (default r (c_closed c))).

Definition c_get : M (sconn X) := fun s => (Ok s.1, s).
Definition c_change (f : sconn X -> sconn X) : M unit := fun s => (Ok tt, (f s.1, s.2)).
Definition on_link {A} (m : SE (link * V) A) : M A := fun s =>
  let '(r, (l, v)) := m (c_link s.1, s.2) in (r, (set_link l s.1, v)).
Definition outside : M V := fun s => (Ok s.2, s).
Definition owner_do (f : V -> V) : M unit := fun s => (Ok tt, (s.1, f s.2)).
Definition owner_ask {A} (f : V -> A * V) : M A := fun s => let '(a, v) := f s.2 in (Ok a, (s.1, v)).
Definition owner_try {A} (f : V -> res A * V) : M A := fun s => let '(a, v) := f s.2 in (a, (s.1, v)).

(** A connection of the server, its rights those of the socket; the timer for
    the handshake runs. *)
Definition VNCSConnectionST (reverse : bool) (ar : Z) : sconn X :=
  SConn empty_link RFBSTATE_UNINITIALISED (defaultMajorVersion, defaultMinorVersion) None ar None None init_client
    (Clip false false false []) ∅ (MkPoint 0 0) reverse true None.

(** *** Closing and failing *)

Definition cleanup : M unit := c_change (fun c => set_rw None (set_ssecurity None c)).

(** The socket is shut down for writing, which sends what is left. *)
Definition close (reason : list Z) : M unit :=
  c_change (set_state RFBSTATE_CLOSING);;
  cleanup;;
  c_change (set_closed reason);;
  on_link os_flush.

(** [try { m } catch (std::exception& e) { close(e.what()); }]; a call that
    never returns throws nothing that could be caught. *)
Definition or_close (m : M unit) : M unit := fun s =>
  match m s with
  | (Ok u, s') => (Ok u, s')
  | (Throw (endless z), s') => (Throw (endless z), s')
  | (Throw e, s') => close (what e) s'
  end.

(** [failConnection(message)]; [e] is the message before its numbers are filled in. *)
Definition failConnection {A} (e : string) (message : list Z) : M A :=
  c ← c_get;
  (if bool_decide (c_state c = RFBSTATE_PROTOCOL_VERSION) then
     (if ((c_version c).1 =? 3) && ((c_version c).2 =? 3) then on_link (os_writeU32 0) else on_link (os_writeU8 0));;
     on_link (os_writeU32 (len message));;
     on_link (os_writeBytes message);;
     on_link os_flush
   else mret tt);;
  c_change (set_state RFBSTATE_INVALID);;
  st_throw (protocol_error e).

(** *** The handshake *)

Definition initialiseProtocol : M unit :=
  on_link (os_writeBytes (version_line defaultMajorVersion defaultMinorVersion));;
  on_link os_flush;;
  c_change (set_state RFBSTATE_PROTOCOL_VERSION).

(** The versions that are none of 3.3, 3.7 and 3.8 count as the one below. *)
Definition official (minor : Z) : Z :=
  if negb (minor =? 3) && negb (minor =? 7) && negb (minor =? 8)
  then if 8 <=? minor then 8 else if minor =? 7 then 7 else 3
  else minor.

Definition before_version (v : Z * Z) (major minor : Z) : bool := beforeVersion v.1 v.2 major minor.

Definition processVersionMsg : M bool :=
  ok ← on_link (is_hasData 12);
  if negb ok then mret false else
  verStr ← on_link (is_readBytes 12);
  match scan_version verStr with
  | None =>
      c_change (set_state RFBSTATE_INVALID);;
      st_throw (protocol_error "Reading version failed, not an RFB client?")
  | Some (major, minor) =>
      c_change (set_version (major, minor));;
      (if negb (major =? 3) then
         failConnection "Client needs protocol version %d.%d, server has %d.%d"
           (text "Client needs protocol version " ++ print_d major ++ [46] ++ print_d minor ++
            text ", server has " ++ print_d defaultMajorVersion ++ [46] ++ print_d defaultMinorVersion)
       else mret tt);;
      c_change (set_version (major, official minor));;
      let secTypes := GetEnabledSecTypes enabled in
      if official minor =? 3 then
        match List.find (fun t => (t =? secTypeNone) || (t =? secTypeVncAuth)) secTypes with
        | None =>
            failConnection "No supported security type for %d.%d client"
              (text "No supported security type for 3.3 client")
        | Some t =>
            on_link (os_writeU32 t);;
            (if t =? secTypeNone then on_link os_flush else mret tt);;
            c_change (set_state RFBSTATE_SECURITY);;
            match GetSSecurity enabled t with
            | Ok s => c_change (set_ssecurity (Some s));; mret true
            | Throw e => st_throw e
            end
        end
      else if len secTypes =? 0 then failConnection "No supported security types" (text "No supported security types")
      else
        on_link (os_writeU8 (u8 (len secTypes)));;
        on_link (os_writeBytes (concat (map writeU8 secTypes)));;
        on_link os_flush;;
        c_change (set_state RFBSTATE_SECURITY_TYPE);;
        mret true
  end.

Definition processSecurityType (secType : Z) : M unit :=
  if negb (bool_decide (secType ∈ GetEnabledSecTypes enabled))
  then st_throw (protocol_error "Requested security type is not available") else
  c_change (set_state RFBSTATE_SECURITY);;
  match GetSSecurity enabled secType with
  | Ok s => c_change (set_ssecurity (Some s))
  | Throw e => failConnection "Security type not supported" (what e)
  end.

Definition processSecurityTypeMsg : M bool :=
  ok ← on_link (is_hasData 1);
  if negb ok then mret false else
  secType ← on_link is_readU8;
  processSecurityType secType;;
  mret true.

Definition accessCheck (ar : Z) : M bool :=
  c ← c_get;
  let ar := if c_reverse c then Z.land ar (Z.lnot AccessNoQuery) else ar in
  if state_number (c_state c) <? state_number RFBSTATE_QUERYING
  then st_throw (logic_error "SConnection::accessCheck: Invalid state")
  else mret (has_rights (c_rights c) ar).

Definition approveConnection (accept : bool) (reason : option (list Z)) : M unit :=
  c ← c_get;
  if negb (bool_decide (c_state c = RFBSTATE_QUERYING))
  then st_throw (logic_error "SConnection::approveConnection: Invalid state") else
  let before38 := before_version (c_version c) 3 8 in
  let type := match c_ssecurity c with Some s => getType s | None => secTypeInvalid end in
  let message := default (text "Connection rejected") reason in
  (if negb before38 || negb (type =? secTypeNone) then
     (if accept then on_link (os_writeU32 secResultOK)
      else
        on_link (os_writeU32 secResultFailed);;
        if negb before38 then on_link (os_writeU32 (len message));; on_link (os_writeBytes message) else mret tt);;
     on_link os_flush
   else mret tt);;
  if accept then
    c_change (set_state RFBSTATE_INITIALISATION);;
    c_change (set_rw (Some (RW (ClientMsgs.MSGSTATE_IDLE, 0) init_writer)));;
    c_change (set_login false)
  else
    c_change (set_state RFBSTATE_INVALID);;
    st_throw (auth_error message).

(** [VNCSConnectionST::queryConnection] *)
Definition queryConnection (userName : option (list Z)) : M unit :=
  noQuery ← accessCheck AccessNoQuery;
  d ← owner_ask (o_queryConnection userName noQuery);
  match d with
  | Approve => or_close (approveConnection true None)
  | Reject reason => or_close (approveConnection false reason)
  | AskUser => mret tt
  end.

(** [ssecurity->processMsg()], in place. *)
Definition run_security : M bool :=
  c ← c_get;
  match c_ssecurity c with
  | None => st_throw (logic_error "null")
  | Some s => r ← on_link (SSecurity.processMsg enabled s); c_change (set_ssecurity (Some r.2));; mret r.1
  end.

Definition security_done : M bool :=
  c_change (set_state RFBSTATE_QUERYING);;
  c ← c_get;
  match c_ssecurity c with
  | None => st_throw (logic_error "null")
  | Some s =>
      c_change (setAccessRights (Z.land (c_rights c) (getAccessRights s)));;
      queryConnection (getUserName s);;
      c ← c_get;
      mret (bool_decide (c_state c = RFBSTATE_INITIALISATION))
  end.

(** The failure that is answered a little later. *)
Definition delayed_failure (message : list Z) : M bool :=
  c_change (set_state RFBSTATE_SECURITY_FAILURE);;
  c_change (set_failure (Some message));;
  mret true.

Definition processSecurityMsg : M bool := fun s =>
  match run_security s with
  | (Throw (auth_error m), s') => delayed_failure m s'
  | (Throw e, s') => (Throw e, s')
  | (Ok false, s') => (Ok false, s')
  | (Ok true, s') => security_done s'
  end.

Definition processSecurityFailure : M bool :=
  ok ← on_link (is_hasData 1);
  if negb ok then mret false else
  on_link is_skip_all;;
  mret true.

Definition handleAuthFailureTimeout : M unit :=
  c ← c_get;
  match c_failure c with
  | None => mret tt
  | Some m =>
      c_change (set_failure None);;
      if negb (bool_decide (c_state c = RFBSTATE_SECURITY_FAILURE))
      then close (text "SConnection::handleAuthFailureTimeout: Invalid state") else
      on_link (os_writeU32 secResultFailed);;
      (if negb (before_version (c_version c) 3 8)
       then on_link (os_writeU32 (len m));; on_link (os_writeBytes m) else mret tt);;
      on_link os_flush;;
      close m
  end.

(** *** Ready *)

Definition desktopReady : M unit :=
  c ← c_get;
  if negb (bool_decide (c_state c = RFBSTATE_CLIENT_READY)) then mret tt else
  v ← outside;
  let d := o_desktop v in
  match setDimensions (d_width d) (d_height d) (d_layout d) (cp (c_client c)) with
  | Throw e => st_throw e
  | Ok common =>
      let '(common, error) := setPF (d_pf d) (setLEDState (d_led d) (setName (d_name d) common)) in
      let p := c_client c in
      c_change (set_client (MkClient common (cp_majorVersion p) (cp_minorVersion p) (cp_levels p) (encodings_ p) (cursorPos_ p)));;
      match error with Some e => st_throw e | None => mret tt end;;
      on_link (os_writeBytes (writeServerInit (d_width d) (d_height d) (d_pf d) (d_name d)));;
      on_link os_flush;;
      c_change (set_state RFBSTATE_NORMAL)
  end.

(** [VNCSConnectionST::clientReady] *)
Definition clientReady (shared : bool) : M unit :=
  c ← c_get;
  v ← outside;
  exclusive ← accessCheck AccessNonShared;
  let shared := if o_alwaysShared v || c_reverse c then true else shared in
  let shared := if negb exclusive then true else shared in
  let shared := if o_neverShared v then false else shared in
  r ← owner_ask (o_clientReady shared exclusive);
  match r with Some reason => close reason | None => mret tt end;;
  v ← outside;
  if o_desktopReady v then desktopReady else mret tt.

Definition clientInit (shared : bool) : M unit :=
  c_change (set_state RFBSTATE_CLIENT_READY);;
  clientReady shared.

Definition processInitMsg : M bool :=
  r ← on_link (is_run ClientMsgs.readClientInit);
  if negb r.1 then mret false else
  match r.2 with ClientMsgs.clientInit shared :: _ => clientInit shared | _ => mret tt end;;
  c ← c_get;
  mret (bool_decide (c_state c = RFBSTATE_NORMAL)).

(** *** Keys *)

Definition XK_Tab : Z := 0xff09.
Definition XK_ISO_Left_Tab : Z := 0xfe20.
Definition XK_Num_Lock : Z := 0xff7f.
Definition XK_Caps_Lock : Z := 0xffe5.
Definition XK_Shift_L : Z := 0xffe1.
Definition XK_Shift_R : Z := 0xffe2.
Definition XK_KP_Home : Z := 0xff95.
Definition XK_KP_Delete : Z := 0xff9f.
Definition XK_KP_Separator : Z := 0xffac.
Definition XK_KP_Decimal : Z := 0xffae.
Definition XK_KP_0 : Z := 0xffb0.
Definition XK_KP_9 : Z := 0xffb9.
Definition ledNumLock : Z := 2.
Definition ledCapsLock : Z := 4.

Definition between (lo z hi : Z) : bool := (lo <=? z) && (z <=? hi).

Definition isShiftPressed (keys : gmap Z Z) : bool :=
  existsb (fun kv => (kv.2 =? XK_Shift_L) || (kv.2 =? XK_Shift_R)) (map_to_list keys).

(** A lock key pressed and released for the client. *)
Definition fake_lock (keysym keycode : Z) : M unit :=
  owner_do (o_keyEvent keysym keycode true);; owner_do (o_keyEvent keysym keycode false).

(** The heuristics for the lock keys, of a client that does not know their
    state. *)
Definition sync_locks (keysym : Z) (down : bool) : M unit :=
  c ← c_get;
  v ← outside;
  let led := d_led (o_desktop v) in
  if supportsLEDState (c_client c) || negb down || (led =? ledUnknown) then mret tt else
  let shift := isShiftPressed (c_keys c) in
  (if between 0x41 keysym 0x5a || between 0x61 keysym 0x7a then
     let uppercase := between 0x41 keysym 0x5a in
     let lock := z2b (Z.land led ledCapsLock) in
     if eqb lock (eqb uppercase shift) then fake_lock XK_Caps_Lock 0x3a else mret tt
   else mret tt);;
  if between XK_KP_Home keysym XK_KP_Delete || between XK_KP_0 keysym XK_KP_9 || (keysym =? XK_KP_Separator) || (keysym =? XK_KP_Decimal) then
    let number := between XK_KP_0 keysym XK_KP_9 || (keysym =? XK_KP_Separator) || (keysym =? XK_KP_Decimal) in
    v ← outside;
    let lock := z2b (Z.land (d_led (o_desktop v)) ledNumLock) in
    if shift then mret tt
    else if eqb lock (eqb number shift) then fake_lock XK_Num_Lock 0x45 else mret tt
  else mret tt.

(** The index of a key in [pressedKeys]. *)
Definition lookup_of (keysym keycode : Z) : Z := if keycode =? 0 then Z.lor 0x80000000 keysym else keycode.

(** The end of [keyEvent]: what is held stays the same key. *)
Definition press_or_release (keysym keycode : Z) (down : bool) : M unit :=
  c ← c_get;
  let i := lookup_of keysym keycode in
  let keysym := default keysym (c_keys c !! i) in
  if down then
    c_change (set_keys (<[i := keysym]> (c_keys c)));;
    owner_do (o_keyEvent keysym keycode true)
  else if bool_decide (c_keys c !! i = None) then mret tt
  else
    c_change (set_keys (delete i (c_keys c)));;
    owner_do (o_keyEvent keysym keycode false).

Definition keyEvent (keysym keycode : Z) (down : bool) : M unit :=
  allowed ← accessCheck AccessKeyEvents;
  if negb allowed then mret tt else
  v ← outside;
  if negb (o_acceptKeyEvents v) then mret tt else
  if (d_led (o_desktop v) =? ledUnknown) && ((keysym =? XK_Caps_Lock) || (keysym =? XK_Num_Lock)) then mret tt else
  sync_locks keysym down;;
  c ← c_get;
  if keysym =? XK_ISO_Left_Tab then
    let fake := negb (isShiftPressed (c_keys c)) in
    (if fake then owner_do (o_keyEvent XK_Shift_L 0x2a true) else mret tt);;
    press_or_release XK_Tab keycode down;;
    if fake then owner_do (o_keyEvent XK_Shift_L 0x2a false) else mret tt
  else press_or_release keysym keycode down.

(** The keys in the order of the map. *)
Definition keys_in_order (keys : gmap Z Z) : list (Z * Z) :=
  merge_sort key_le (map_to_list keys).

(** The destructor releases what is held. *)
Fixpoint release_keys (keys : list (Z * Z)) : M unit :=
  match keys with
  | [] => mret tt
  | (keycode, keysym) :: keys =>
      c_change (fun c => set_keys (delete keycode (c_keys c)) c);;
      owner_do (o_keyEvent keysym keycode false);;
      release_keys keys
  end.
Definition destroy : M unit := c ← c_get; release_keys (keys_in_order (c_keys c)).

(** *** The pointer, the size of the desktop, the clipboard *)

Definition pointerEvent (pos : Point) (buttonMask : Z) : M unit :=
  allowed ← accessCheck AccessPtrEvents;
  if negb allowed then mret tt else
  c_change (set_pointer pos);;
  owner_do (o_pointerEvent pos buttonMask).

(** A call of the writer. *)
Definition write (w : ClientParams -> W) : M unit :=
  c ← c_get;
  match c_rw c with
  | None => st_throw (logic_error "null")
  | Some r =>
      match w (c_client c) (rw_writer r) with
      | Throw e => st_throw e
      | Ok (wr, bs) => c_change (set_rw (Some (RW (rw_reader r) wr)));; on_link (os_writeBytes bs);; on_link os_flush
      end
  end.

Definition resultProhibited : Z := 1.
Definition reasonClient : Z := 1.

Definition setDesktopSize (fb_width fb_height : Z) (layout : list Screen) : M unit :=
  allowed ← accessCheck AccessSetDesktopSize;
  result ← (if negb allowed then mret resultProhibited else owner_try (o_setDesktopSize fb_width fb_height layout));
  write (fun client => writeDesktopSize client reasonClient result).

Definition change_clip (f : clip -> clip) : M unit := c_change (fun c => set_clip (f (c_clip c)) c).
Definition set_remote (b : bool) (cl : clip) : clip :=
  Clip b (hasLocalClipboard cl) (unsolicitedClipboardAttempt cl) (clientClipboard cl).
Definition set_local (b : bool) (cl : clip) : clip :=
  Clip (hasRemoteClipboard cl) b (unsolicitedClipboardAttempt cl) (clientClipboard cl).
Definition set_unsolicited (b : bool) (cl : clip) : clip :=
  Clip (hasRemoteClipboard cl) (hasLocalClipboard cl) b (clientClipboard cl).
Definition set_text (t : list Z) (cl : clip) : clip :=
  Clip true (hasLocalClipboard cl) (unsolicitedClipboardAttempt cl) t.

Definition clientCutText (str : list Z) : M unit :=
  change_clip (fun cl => set_text str (set_local false cl));;
  allowed ← accessCheck AccessCutText;
  if negb allowed then mret tt else owner_do (o_clipboardAnnounce true).

Definition clipboardFlags c : Z := clipFlags (cp (c_client c)).

Definition handleClipboardCaps (flags : Z) (lengths : list Z) : M unit :=
  c_change (fun c => let p := c_client c in
    set_client (MkClient (setClipboardCaps flags lengths (cp p)) (cp_majorVersion p) (cp_minorVersion p) (cp_levels p)
      (encodings_ p) (cursorPos_ p)) c).

Definition handleClipboardRequest (flags : Z) : M unit :=
  c ← c_get;
  if negb (z2b (Z.land flags clipboardUTF8)) || negb (hasLocalClipboard (c_clip c)) then mret tt else
  allowed ← accessCheck AccessCutText;
  if negb allowed then mret tt else owner_do o_clipboardRequest.

Definition handleClipboardPeek : M unit :=
  c ← c_get;
  if z2b (Z.land (clipboardFlags c) clipboardNotify)
  then write (fun client => writeClipboardNotify client (if hasLocalClipboard (c_clip c) then clipboardUTF8 else 0))
  else mret tt.

Definition handleClipboardNotify (flags : Z) : M unit :=
  change_clip (set_remote false);;
  let available := z2b (Z.land flags clipboardUTF8) in
  (if available then change_clip (set_local false) else mret tt);;
  allowed ← accessCheck AccessCutText;
  if negb allowed then mret tt else owner_do (o_clipboardAnnounce available).

(** The text is [lengths[0]] bytes. *)
Definition handleClipboardProvide (flags : Z) (buffers : list (list Z)) : M unit :=
  if negb (z2b (Z.land flags clipboardUTF8)) then mret tt else
  let data := default [] (buffers !! 0%nat) in
  if negb (default false (isValidUTF8 data (len data))) then mret tt else
  change_clip (set_text (convertLF data));;
  allowed ← accessCheck AccessCutText;
  if negb allowed then mret tt else
  c ← c_get;
  owner_do (o_clipboardData (clientClipboard (c_clip c))).

(** What the server asks of a connection. *)

Definition requestClipboard : M unit :=
  allowed ← accessCheck AccessCutText;
  if negb allowed then mret tt else
  c ← c_get;
  if hasRemoteClipboard (c_clip c) then owner_do (o_clipboardData (clientClipboard (c_clip c)))
  else if supportsEncoding (c_client c) pseudoEncodingExtendedClipboard && z2b (Z.land (clipboardFlags c) clipboardRequest)
  then write (fun client => writeClipboardRequest client clipboardUTF8)
  else mret tt.

Definition announceClipboard (available : bool) : M unit :=
  allowed ← accessCheck AccessCutText;
  if negb allowed then mret tt else
  change_clip (fun cl => set_unsolicited false (set_local available cl));;
  c ← c_get;
  let plain := if available then owner_do o_clipboardRequest else mret tt in
  if supportsEncoding (c_client c) pseudoEncodingExtendedClipboard then
    (size ← (if available then
               match clipboardSize (cp (c_client c)) clipboardUTF8 with Ok n => mret n | Throw e => st_throw e end
             else mret 0);
     if available && (0 <? size) && z2b (Z.land (clipboardFlags c) clipboardProvide) then
       change_clip (set_unsolicited true);; owner_do o_clipboardRequest
     else if z2b (Z.land (clipboardFlags c) clipboardNotify) then
       write (fun client => writeClipboardNotify client (if available then clipboardUTF8 else 0))
     else plain)
  else plain.

Definition sendClipboardData (data : list Z) : M unit :=
  allowed ← accessCheck AccessCutText;
  if negb allowed then mret tt else
  c ← c_get;
  if supportsEncoding (c_client c) pseudoEncodingExtendedClipboard && z2b (Z.land (clipboardFlags c) clipboardProvide) then
    let filtered := convertCRLF data in
    let provide := write (fun client => writeClipboardProvide client deflate clipboardUTF8 [filtered ++ [0]]) in
    if unsolicitedClipboardAttempt (c_clip c) then
      change_clip (set_unsolicited false);;
      match clipboardSize (cp (c_client c)) clipboardUTF8 with
      | Throw e => st_throw e
      | Ok size =>
          if size <? len filtered + 1 then
            if z2b (Z.land (clipboardFlags c) clipboardNotify)
            then write (fun client => writeClipboardNotify client clipboardUTF8) else mret tt
          else provide
      end
    else provide
  else write (fun _ => writeServerCutText data).

(** *** The messages of the client *)

(** A message about the picture. *)
Definition picture (ev : sevent) : M unit :=
  c ← c_get;
  let ar := if c_reverse c then Z.land AccessView (Z.lnot AccessNoQuery) else AccessView in
  r ← owner_try (o_picture ev (has_rights (c_rights c) ar) (c_client c));
  c_change (set_client r.1);;
  on_link (os_writeBytes r.2);;
  on_link os_flush.

Definition handle (ev : sevent) : M unit :=
  match ev with
  | ClientMsgs.keyEvent keysym keycode down => keyEvent keysym keycode down
  | ClientMsgs.pointerEvent pos buttonMask => pointerEvent pos buttonMask
  | ClientMsgs.setDesktopSize w h layout => setDesktopSize w h layout
  | ClientMsgs.clientCutText str => clientCutText str
  | ClientMsgs.handleClipboardCaps flags lengths => handleClipboardCaps flags lengths
  | ClientMsgs.handleClipboardRequest flags => handleClipboardRequest flags
  | ClientMsgs.handleClipboardPeek => handleClipboardPeek
  | ClientMsgs.handleClipboardNotify flags => handleClipboardNotify flags
  | ClientMsgs.handleClipboardProvide flags buffers => handleClipboardProvide flags buffers
  | ClientMsgs.clientInit _ => mret tt
  | _ => picture ev
  end.

Fixpoint handle_all (evs : list sevent) : M unit :=
  match evs with
  | [] => mret tt
  | ev :: evs => handle ev;; handle_all evs
  end.

(** [reader_->readMsg()] *)
Definition readMsg : M bool :=
  c ← c_get;
  match c_rw c with
  | None => st_throw (logic_error "null")
  | Some r =>
      let '(st, t) := rw_reader r in
      x ← on_link (is_run (ClientMsgs.readMsg maxCutText inflate (SReader st t (c_client c))));
      let '((ok, r'), evs) := x in
      c_change (fun c => set_client (sr_client r')
        (set_rw (Some (RW (sr_state r', sr_currentMsgType r') (rw_writer r))) c));;
      handle_all evs;;
      mret ok
  end.

Definition processMsg : M bool :=
  c ← c_get;
  match c_state c with
  | RFBSTATE_PROTOCOL_VERSION => processVersionMsg
  | RFBSTATE_SECURITY_TYPE => processSecurityTypeMsg
  | RFBSTATE_SECURITY => processSecurityMsg
  | RFBSTATE_SECURITY_FAILURE => processSecurityFailure
  | RFBSTATE_INITIALISATION => processInitMsg
  | RFBSTATE_NORMAL => readMsg
  | RFBSTATE_QUERYING => st_throw (logic_error "SConnection::processMsg: Bogus data from client while querying")
  | RFBSTATE_CLIENT_READY =>
      st_throw (logic_error "SConnection::processMsg: Bogus data from client while waiting for desktop")
  | RFBSTATE_CLOSING => st_throw (logic_error "SConnection::processMsg: Called while closing")
  | RFBSTATE_UNINITIALISED => st_throw (logic_error "SConnection::processMsg: Not initialised yet?")
  | RFBSTATE_INVALID => st_throw (logic_error "SConnection::processMsg: Invalid state")
  end.

(** *** Events of the socket and the timers *)

(** [while (processMsg());] *)
Fixpoint message_loop (fuel : nat) : M unit :=
  match fuel with
  | O => st_throw (logic_error "no end")
  | S fuel => more ← processMsg; if (more : bool) then message_loop fuel else mret tt
  end.

(** Every message takes bytes, or the connection a step further. *)
Definition loop_fuel c : nat := 2 * length (l_in (c_link c)) + 8.

Definition processSocketReadEvent : M unit :=
  c ← c_get;
  if bool_decide (c_state c = RFBSTATE_CLOSING) then on_link is_skip_all
  else or_close (message_loop (loop_fuel c);; on_link os_flush).

Definition init : M unit := or_close initialiseProtocol.
Definition desktopReadyOrClose : M unit := or_close desktopReady.
Definition approveConnectionOrClose (accept : bool) (reason : option (list Z)) : M unit :=
  or_close (approveConnection accept reason).
(** [if (state() != RFBSTATE_NORMAL) return;] *)
Definition when_normal (m : M unit) : M unit :=
  c ← c_get; if bool_decide (c_state c = RFBSTATE_NORMAL) then or_close m else mret tt.
Definition requestClipboardOrClose : M unit := when_normal requestClipboard.
Definition announceClipboardOrClose (available : bool) : M unit := when_normal (announceClipboard available).
Definition sendClipboardDataOrClose (data : list Z) : M unit := when_normal (sendClipboardData data).

(** [handleTimeout] of [socketTimer], before the connection closes. *)
Definition login_timeout : M unit :=
  c ← c_get;
  if c_login c && negb (bool_decide (c_state c = RFBSTATE_CLOSING))
  then c_change (set_login false);; close (text "Authentication timeout") else mret tt.
End connection.

(** What closing comes to. *)
Section closing.
Context {V X : Type}.

Lemma close_does (reason : list Z) (c : sconn X) (v : V) : close reason (c, v) =
  (Ok tt, (set_link (Link (l_in (c_link c)) (l_eof (c_link c)) (l_mark (c_link c)) (l_sent (c_link c) ++ l_unsent (c_link c)) [])
     (set_closed reason (set_rw None (set_ssecurity None (set_state RFBSTATE_CLOSING c)))), v)).
Proof. reflexivity. Qed.

Lemma or_close_ok (m : SE (sconn X * V) unit) s u s' : m s = (Ok u, s') -> or_close m s = (Ok u, s').
Proof. intros H. unfold or_close. by rewrite H. Qed.
Lemma or_close_throw (m : SE (sconn X * V) unit) s e s' : m s = (Throw e, s') -> returned (A := unit) (Throw e) ->
  or_close m s = close (what e) s'.
Proof. intros H He. unfold or_close. rewrite H. by destruct e. Qed.
End closing.

(** ** A server for the examples

    Its password is "secret", its random data is always the same, and it lets
    in who has authenticated. *)

Definition sample_challenge : list Z := [1; 2; 3; 4; 5; 6; 7; 8; 9; 10; 11; 12; 13; 14; 15; 16].

Definition sample_env : ServerSecEnv unit unit := {|
  word := 64;
  random_data _ v := (Some sample_challenge, v);
  password_param _ := [46; 45; 191; 87; 110; 176; 108; 158];
  password_file _ := None;
  plain_users _ := [];
  is_own_user _ _ := false;
  has_validator := false;
  validate_internal _ _ v := ((false, None), v);
  ext_new _ := tt;
  ext_processMsg x s := (Ok (false, x), s);
  ext_userName _ := None;
  ext_accessRights _ := 0
|}.

Definition sample_owner : Owner unit := {|
  o_queryConnection _ _ v := (Approve, v);
  o_clientReady _ _ v := (None, v);
  o_desktopReady _ := true;
  o_desktop _ := Desktop 64 48 [screen 0 0 0 64 48 0] (text "sample") ledUnknown default_pf;
  o_alwaysShared _ := false;
  o_neverShared _ := false;
  o_acceptKeyEvents _ := true;
  o_keyEvent _ _ _ v := v;
  o_pointerEvent _ _ v := v;
  o_clipboardRequest v := v;
  o_clipboardAnnounce _ v := v;
  o_clipboardData _ v := v;
  o_setDesktopSize _ _ _ v := (Ok 0, v);
  o_picture _ _ client v := (Ok (client, []), v)
|}.

(** A client that knows the password, and presses a key. *)
Definition sample_version : list Z := version_line 3 8.
Definition sample_response : list Z := vnc_response 64 (text "secret") sample_challenge.
Definition sample_key : list Z := [4; 1; 0; 0; 0; 0; 0; 97].
