(* ===== verification/ServerAccess.v ===== *)
(** * Who may do what to the server

    Everything a connection asks of the server behind it is written down
    ([watched]), and along every sequence of events of the socket, the timers and
    the server the list obeys the rules: a query first, nothing else before the
    approval, and then only what the rights allow that the security object has
    granted, which has checked what its type asks for.  Keys stay known until
    they are released. *)
From stdpp Require Import base gmap list numbers strings option sorting.
From S2P Require Import Prelude InStream OutStream Strings PixelFmt Geometry Screens Params Clipboard ClientMsgs ServerWriter D3des Security Link SSecurity SConnection.
#[local] Open Scope Z_scope.

(** ** What the client sends and what is asked of the server *)

Inductive act :=
| ActArrived (bs : list Z)                 (* from the client *)
| ActQuery (noQuery : bool) (d : decision)
| ActAnswer (accept : bool)
| ActReady (shared exclusive : bool)
| ActKey (keysym keycode : Z) (down : bool)
| ActPointer
| ActClipboard
| ActResize
| ActPicture (visible : bool).

(** The last one first. *)
Abbreviation acts := (list act).

(** What is outside, with the list. *)
Definition lift_link {V A} (m : SE (link * V) A) : SE (link * (acts * V)) A := fun s =>
  let '(l, (log, v)) := s in
  let '(r, (l, v)) := m (l, v) in
  (r, (l, (log, v))).

#[local] Instance watched_env {V X} `{ServerSecEnv V X} : ServerSecEnv (acts * V) X := {|
  word := word;
  random_data n v := let '(o, v') := random_data n v.2 in (o, (v.1, v'));
  password_param v := password_param v.2;
  password_file v := password_file v.2;
  plain_users v := plain_users v.2;
  is_own_user user v := is_own_user user v.2;
  has_validator := has_validator;
  validate_internal user password v := let '(o, v') := validate_internal user password v.2 in (o, (v.1, v'));
  ext_new := ext_new;
  ext_processMsg x := lift_link (ext_processMsg x);
  ext_userName := ext_userName;
  ext_accessRights := ext_accessRights
|}.

#[local] Instance watched {V} `{Owner V} : Owner (acts * V) := {|
  o_queryConnection user noQuery v := let '(d, v') := o_queryConnection user noQuery v.2 in (d, (ActQuery noQuery d :: v.1, v'));
  o_clientReady shared exclusive v :=
    let '(r, v') := o_clientReady shared exclusive v.2 in (r, (ActReady shared exclusive :: v.1, v'));
  o_desktopReady v := o_desktopReady v.2;
  o_desktop v := o_desktop v.2;
  o_alwaysShared v := o_alwaysShared v.2;
  o_neverShared v := o_neverShared v.2;
  o_acceptKeyEvents v := o_acceptKeyEvents v.2;
  o_keyEvent keysym keycode down v := (ActKey keysym keycode down :: v.1, o_keyEvent keysym keycode down v.2);
  o_pointerEvent pos mask v := (ActPointer :: v.1, o_pointerEvent pos mask v.2);
  o_clipboardRequest v := (ActClipboard :: v.1, o_clipboardRequest v.2);
  o_clipboardAnnounce b v := (ActClipboard :: v.1, o_clipboardAnnounce b v.2);
  o_clipboardData data v := (ActClipboard :: v.1, o_clipboardData data v.2);
  o_setDesktopSize w h layout v := let '(r, v') := o_setDesktopSize w h layout v.2 in (r, (ActResize :: v.1, v'));
  o_picture ev visible client v := let '(r, v') := o_picture ev visible client v.2 in (r, (ActPicture visible :: v.1, v'))
|}.

(** Permitted by the rights. *)
Definition permitted (reverse : bool) (rights : Z) (a : act) : Prop :=
  match a with
  | ActQuery noQuery _ => noQuery = has_rights rights (if reverse then 0 else AccessNoQuery)
  | ActAnswer _ | ActArrived _ => True
  | ActReady shared exclusive => exclusive = has_rights rights AccessNonShared
  | ActKey _ _ _ => has_rights rights AccessKeyEvents = true
  | ActPointer => has_rights rights AccessPtrEvents = true
  | ActClipboard => has_rights rights AccessCutText = true
  | ActResize => has_rights rights AccessSetDesktopSize = true
  | ActPicture visible => visible = has_rights rights AccessView
  end.

Definition arrival (a : act) : bool := match a with ActArrived _ => true | _ => false end.
(** Nothing the server does for the client: bytes arrive, the query, the answer
    to it. *)
Definition harmless (a : act) : bool := match a with ActArrived _ | ActQuery _ _ | ActAnswer _ => true | _ => false end.
Definition approves (a : act) : bool :=
  match a with ActQuery _ Approve | ActAnswer true => true | _ => false end.
Definition approved (log : acts) : bool := existsb approves log.

(** Each entry is permitted, and all but the query come after an approval. *)
Fixpoint lawful (reverse : bool) (rights : Z) (log : acts) : Prop :=
  match log with
  | [] => True
  | a :: log => lawful reverse rights log /\ permitted reverse rights a /\ (harmless a = true \/ approved log = true)
  end.

(** All that has come from the client. *)
Fixpoint arrivals (log : acts) : list Z :=
  match log with
  | [] => []
  | ActArrived bs :: log => arrivals log ++ bs
  | _ :: log => arrivals log
  end.

(** The keys that are down. *)
Fixpoint held (log : acts) : gset Z :=
  match log with
  | [] => ∅
  | ActKey keysym _ true :: log => {[ keysym ]} ∪ held log
  | ActKey keysym _ false :: log => held log ∖ {[ keysym ]}
  | _ :: log => held log
  end.

(** ** The history before the client is through *)

Section history.
Context {V X : Type} `{HS : ServerSecEnv V X} (moves : V -> V -> Prop) (enabled : list Z).

(** Bytes are used up, what is outside is asked, and the methods of the
    libraries do what they do. *)
Inductive calls : link * (acts * V) -> link * (acts * V) -> Prop :=
| calls_used l l' o : (exists used, l_in l = used ++ l_in l') -> calls (l, o) (l', o)
| calls_random n l log v : calls (l, (log, v)) (l, (log, (random_data n v).2))
| calls_validate user password l log v : calls (l, (log, v)) (l, (log, (validate_internal user password v).2))
| calls_ext x s : ext_asked enabled -> calls s (lift_link (ext_processMsg x) s).2.

(** And bytes arrive, and what is outside moves. *)
Inductive moment : link * (acts * V) -> link * (acts * V) -> Prop :=
| moment_calls s s' : calls s s' -> moment s s'
| moment_arrived bs l log v : moment (l, (log, v)) (set_in (l_in l ++ bs) l, (ActArrived bs :: log, v))
| moment_moves l log v v' : moves v v' -> moment (l, (log, v)) (l, (log, v')).

Definition asked : link * (acts * V) -> link * (acts * V) -> Prop := rtc calls.
Definition history : link * (acts * V) -> link * (acts * V) -> Prop := rtc moment.

#[export] Instance asked_outside : Outside (V := acts * V) enabled asked.
Proof.
  split.
  - split; [intros s; apply rtc_refl|intros s1 s2 s3; apply (transitivity (R := rtc calls))].
  - intros l l' o H. by apply rtc_once, calls_used.
  - intros n l [log v]. pose proof (calls_random n l log v) as H. cbn. destruct (random_data n v). by apply rtc_once.
  - intros user password l [log v]. pose proof (calls_validate user password l log v) as H. cbn.
    destruct (validate_internal user password v). by apply rtc_once.
  - intros x s Hx. by apply rtc_once, calls_ext.
Qed.
#[export] Instance history_pre : PreOrder history.
Proof. split; [intros s; apply rtc_refl|intros s1 s2 s3; apply (transitivity (R := rtc moment))]. Qed.

Lemma asked_history s s' : asked s s' -> history s s'.
Proof. induction 1; [done|]. eapply rtc_l; [by apply moment_calls|done]. Qed.

Lemma calls_log s s' : calls s s' -> s'.2.1 = s.2.1.
Proof. destruct 1 as [| | |x (l & log & v) ?]; cbn; try done. by destruct (ext_processMsg x (l, v)) as [r [l' v']]. Qed.
Lemma asked_log s s' : asked s s' -> s'.2.1 = s.2.1.
Proof. induction 1 as [|s s1 s' H _ IH]; [done|]. rewrite IH. by apply calls_log. Qed.

(** Where the history begins. *)
Definition beginning (v0 : V) : link * (acts * V) := (empty_link, ([], v0)).

(** Without methods of the libraries, what is unread is the end of what has
    come. *)
Lemma history_input s s' : ~ ext_asked enabled -> history s s' -> l_in s.1 `suffix_of` arrivals s.2.1 ->
  l_in s'.1 `suffix_of` arrivals s'.2.1.
Proof.
  intros Hx. induction 1 as [|s s1 s' H _ IH]; [done|]. intros Hs. apply IH. clear IH.
  destruct H as [s s1 [l l' o [used Hu]| | |]|bs l log v|]; cbn [fst snd arrivals set_in l_in] in *; try done.
  - rewrite Hu in Hs. etrans; [|exact Hs]. by exists used.
  - destruct Hs as [k ->]. exists k. by rewrite app_assoc.
Qed.

Lemma history_log s s' : history s s' -> s.2.1 `suffix_of` s'.2.1.
Proof.
  induction 1 as [|s s1 s' H _ IH]; [done|]. etrans; [|exact IH].
  destruct H as [s s1 H| |]; [by rewrite (calls_log _ _ H)|by apply suffix_cons_r|done].
Qed.
End history.

(** ** The messages of a client that is through *)

Section normal.
Context {V X : Type} `{HS : ServerSecEnv V X} `{HO : Owner V}.
Context (log0 : acts) (reverse : bool) (rights : Z) (st : cstate) (ss : option (ssecurity X)).
Context (late : state_number RFBSTATE_QUERYING <= state_number st).
Abbreviation world := (sconn X * (acts * V))%type.
Abbreviation M := (SE world).

(** [extra] is what is pressed for a moment only. *)
Record good (extra : gset Z) (w : world) : Prop := {
  g_state : c_state w.1 = st;
  g_security : c_ssecurity w.1 = ss;
  g_reverse : c_reverse w.1 = reverse;
  g_rights : c_rights w.1 = rights;
  g_since : log0 `suffix_of` w.2.1;
  g_lawful : lawful reverse rights w.2.1;
  g_approved : approved w.2.1 = true;
  g_held : forall k, k ∈ held w.2.1 -> k ∈ extra \/ exists i, c_keys w.1 !! i = Some k;
  g_keys : c_keys w.1 <> ∅ -> has_rights rights AccessKeyEvents = true
}.

(** It stays so, however the computation ends. *)
Definition stays {A} (Q : A -> Prop) (m : M A) : Prop := forall extra w, good extra w ->
  st_ends m (fun a w' => Q a /\ good extra w') (fun _ => good extra) w.

Lemma stays_ret {A} (Q : A -> Prop) a : Q a -> stays Q (mret a).
Proof. intros H extra w Hw. done. Qed.
Lemma stays_throw {A} (Q : A -> Prop) e : stays Q (st_throw e).
Proof. intros extra w Hw. done. Qed.
Lemma stays_bind {A B} (P : A -> Prop) (Q : B -> Prop) m f :
  stays P m -> (forall a, P a -> stays Q (f a)) -> stays Q (m ≫= f).
Proof. intros Hm Hf extra w Hw. eapply ends_seq; [by apply Hm|]. intros a w' [Ha Hw']. by apply Hf. Qed.
Lemma stays_if {A} (b : bool) (Q : A -> Prop) m m' : (b = true -> stays Q m) -> (b = false -> stays Q m') ->
  stays Q (if b then m else m').
Proof. destruct b; auto. Qed.

(** A change of the fields this is not about. *)
Definition elsewhere (f : sconn X -> sconn X) : Prop := forall c,
  c_state (f c) = c_state c /\ c_ssecurity (f c) = c_ssecurity c /\ c_reverse (f c) = c_reverse c /\
  c_rights (f c) = c_rights c /\ c_keys (f c) = c_keys c.

Lemma good_elsewhere f extra c o : elsewhere f -> good extra (c, o) -> good extra (f c, o).
Proof. intros Hf [?????????]. destruct (Hf c) as (E1&E2&E3&E4&E5). split; cbn [fst snd] in *; rewrite ?E1, ?E2, ?E3, ?E4, ?E5; done. Qed.

Lemma stays_change f : elsewhere f -> stays (fun _ => True) (c_change f).
Proof. intros Hf extra [c o] Hw. split; [done|]. by apply good_elsewhere. Qed.
Lemma stays_get : stays (fun c => c_reverse c = reverse /\ c_rights c = rights) c_get.
Proof. intros extra w Hw. split; [|done]. split; [apply (g_reverse _ _ Hw)|apply (g_rights _ _ Hw)]. Qed.
Lemma stays_outside : stays (fun _ => True) outside.
Proof. intros extra w Hw. done. Qed.

Lemma stays_on_link {A} (m : SE (link * (acts * V)) A) : (forall s, (m s).2.2 = s.2) -> stays (fun _ => True) (on_link m).
Proof.
  intros Hm extra [c o] Hw. unfold st_ends, on_link. cbn [fst snd]. specialize (Hm (c_link c, o)).
  destruct (m (c_link c, o)) as [[a|e] [l o']]; cbn in *; subst; [split; [done|]|]; by apply (good_elsewhere (set_link l)).
Qed.

Lemma stays_accessCheck ar : stays (fun b => b = has_rights rights (if reverse then Z.land ar (Z.lnot AccessNoQuery) else ar)) (accessCheck ar).
Proof.
  intros extra [c o] Hw. unfold st_ends, accessCheck, mbind, SE_bind, c_get. cbn [fst snd].
  pose proof Hw as [Hst ? Hrev Hr]. cbn [fst snd] in *. rewrite Hst, Hrev, (proj2 (Z.ltb_ge _ _) late). cbn. by rewrite Hr.
Qed.

(** The calls the rights permit. *)
Lemma good_act a extra c log v v' : good extra (c, (log, v)) -> permitted reverse rights a ->
  (forall k i d, a <> ActKey k i d) -> good extra (c, (a :: log, v')).
Proof.
  intros [?????????] Ha Hk. cbn in *. split; cbn; try done.
  - by apply suffix_cons_r.
  - by auto.
  - unfold approved in *; cbn; by rewrite g_approved0, orb_true_r.
  - intros k Hin. apply g_held0. destruct a; try done. by destruct (Hk keysym keycode down).
Qed.

Lemma stays_pointer pos mask : has_rights rights AccessPtrEvents = true -> stays (fun _ => True) (owner_do (o_pointerEvent pos mask)).
Proof. intros H extra [c [log v]] Hw. split; [done|]. by eapply good_act. Qed.
Lemma stays_request : has_rights rights AccessCutText = true -> stays (fun _ => True) (owner_do o_clipboardRequest).
Proof. intros H extra [c [log v]] Hw. split; [done|]. by eapply good_act. Qed.
Lemma stays_announce b : has_rights rights AccessCutText = true -> stays (fun _ => True) (owner_do (o_clipboardAnnounce b)).
Proof. intros H extra [c [log v]] Hw. split; [done|]. by eapply good_act. Qed.
Lemma stays_data data : has_rights rights AccessCutText = true -> stays (fun _ => True) (owner_do (o_clipboardData data)).
Proof. intros H extra [c [log v]] Hw. split; [done|]. by eapply good_act. Qed.
Lemma stays_resize w h layout : has_rights rights AccessSetDesktopSize = true ->
  stays (fun _ => True) (owner_try (o_setDesktopSize w h layout)).
Proof.
  intros H extra [c [log v]] Hw. unfold st_ends, owner_try. cbn.
  destruct (o_setDesktopSize w h layout v) as [[a|e] v']; cbn in *; [split; [done|]|];
    by eapply good_act.
Qed.
Lemma stays_owner_picture ev visible client : visible = has_rights rights AccessView ->
  stays (fun _ => True) (owner_try (o_picture ev visible client)).
Proof.
  intros H extra [c [log v]] Hw. unfold st_ends, owner_try. cbn.
  destruct (o_picture ev visible client v) as [[a|e] v']; cbn in *; [split; [done|]|];
    by eapply good_act.
Qed.
Lemma stays_ready shared exclusive : exclusive = has_rights rights AccessNonShared ->
  stays (fun _ => True) (owner_ask (o_clientReady shared exclusive)).
Proof.
  intros H extra [c [log v]] Hw. unfold st_ends, owner_ask. cbn.
  destruct (o_clientReady shared exclusive v) as [r v']; cbn in *. split; [done|].
  by eapply good_act.
Qed.

(** A key goes down or up. *)
Lemma good_key extra extra' keysym keycode (down : bool) c log v keys : good extra (c, (log, v)) ->
  has_rights rights AccessKeyEvents = true ->
  (forall k, k ∈ held (ActKey keysym keycode down :: log) -> k ∈ extra' \/ exists i, keys !! i = Some k) ->
  good extra' (set_keys keys c, (ActKey keysym keycode down :: log, o_keyEvent keysym keycode down v)).
Proof.
  intros [?????????] Hr Hheld. cbn [fst snd] in *. split; cbn [fst snd]; try done.
  - by apply suffix_cons_r.
  - cbn. by auto.
Qed.

Lemma good_key_same extra extra' keysym keycode (down : bool) c log v : good extra (c, (log, v)) ->
  has_rights rights AccessKeyEvents = true ->
  (forall k, k ∈ held (ActKey keysym keycode down :: log) -> k ∈ extra' \/ exists i, c_keys c !! i = Some k) ->
  good extra' (c, (ActKey keysym keycode down :: log, o_keyEvent keysym keycode down v)).
Proof. intros Hg Hr Hheld. destruct c as [????????? keys]. by apply (good_key extra extra' _ _ _ _ _ _ keys Hg). Qed.

Lemma stays_press keysym keycode down : has_rights rights AccessKeyEvents = true ->
  stays (fun _ => True) (press_or_release keysym keycode down).
Proof.
  intros Hr extra [c [log v]] Hw. unfold st_ends, press_or_release, mbind, SE_bind, c_get, c_change, owner_do. cbn [fst snd].
  set (i := lookup_of keysym keycode). pose proof (g_held _ _ Hw) as Hheld. cbn in Hheld. destruct down.
  - split; [done|]. apply (good_key extra); [done..|]. intros k. cbn [held]. rewrite elem_of_union, elem_of_singleton.
    intros [->|Hk]; [right; exists i; apply lookup_insert_eq|]. destruct (Hheld k Hk) as [|[j Hj]]; [by left|]. right.
    destruct (decide (i = j)) as [<-|Hne]; [exists i; by rewrite lookup_insert_eq, Hj|]. exists j. by rewrite lookup_insert_ne.
  - destruct (c_keys c !! i) as [keysym'|] eqn:Hi; cbn [default]; [|by rewrite bool_decide_true].
    rewrite bool_decide_false by done. cbn. split; [done|]. apply (good_key extra); [done..|].
    intros k. cbn [held]. rewrite elem_of_difference, elem_of_singleton. intros [Hk Hne].
    destruct (Hheld k Hk) as [|[j Hj]]; [by left|]. right. exists j. rewrite lookup_delete_ne; [done|]. intros ->. congruence.
Qed.

(** Pressed for a moment only, during what cannot throw. *)
Lemma stays_moment keysym keycode (m : M unit) : has_rights rights AccessKeyEvents = true -> stays (fun _ => True) m ->
  (forall w, exists w', m w = (Ok tt, w')) ->
  stays (fun _ => True) (owner_do (o_keyEvent keysym keycode true);; m;; owner_do (o_keyEvent keysym keycode false)).
Proof.
  intros Hr Hm Hok extra [c [log v]] Hw. unfold st_ends, mbind, SE_bind, owner_do. cbn [fst snd o_keyEvent watched].
  assert (good ({[ keysym ]} ∪ extra) (c, (ActKey keysym keycode true :: log, o_keyEvent keysym keycode true v))) as Hg.
  { apply (good_key_same extra); [done..|]. intros k. cbn [held].
    pose proof (g_held _ _ Hw k) as Hheld. cbn in Hheld. set_solver. }
  pose proof (Hm _ _ Hg) as Hm'. unfold st_ends in Hm'.
  destruct (Hok (c, (ActKey keysym keycode true :: log, o_keyEvent keysym keycode true v))) as [[c' [log' v']] Hw'].
  rewrite Hw' in Hm'. rewrite Hw'. destruct Hm' as [_ Hm']. split; [done|]. cbn [fst snd].
  eapply good_key_same; [exact Hm'|done|]. intros k. cbn [held].
  pose proof (g_held _ _ Hm' k) as Hheld. cbn in Hheld. set_solver.
Qed.

Lemma press_returns keysym keycode down (w : world) : exists w', press_or_release keysym keycode down w = (Ok tt, w').
Proof.
  unfold press_or_release, mbind, SE_bind, c_get. destruct down; [by eexists|]. case_bool_decide; by eexists.
Qed.
Lemma stays_fake_lock keysym keycode : has_rights rights AccessKeyEvents = true -> stays (fun _ => True) (fake_lock keysym keycode).
Proof.
  intros Hr extra w Hw. refine (stays_moment keysym keycode (mret tt) Hr _ _ extra w Hw); [by apply stays_ret|].
  intros w'. by exists w'.
Qed.

(** *** The handlers *)

Lemma stays_any {A} (P Q : A -> Prop) m : stays P m -> (forall a, P a -> Q a) -> stays Q m.
Proof. intros Hm H extra w Hw. eapply ends_conseq; [by apply Hm|]. intros a w' [??]. auto. Qed.
Lemma stays_seq {A B} (Q : B -> Prop) (m : M A) f : stays (fun _ => True) m -> (forall a, stays Q (f a)) -> stays Q (m ≫= f).
Proof. intros Hm Hf. eapply stays_bind; [exact Hm|]. auto. Qed.
(** A check of a right that does not concern the query. *)
Lemma stays_check {B} ar (Q : B -> Prop) f : Z.land ar (Z.lnot AccessNoQuery) = ar ->
  (has_rights rights ar = true -> stays Q (f true)) -> (has_rights rights ar = false -> stays Q (f false)) ->
  stays Q (accessCheck ar ≫= f).
Proof.
  intros Har Ht Hf. eapply stays_bind; [apply stays_accessCheck|]. intros b ->. rewrite Har.
  assert (forall b : bool, (if b then ar else ar) = ar) as -> by by intros [].
  destruct (has_rights rights ar); auto.
Qed.

Ltac quiet := match goal with
  | |- stays _ (mret _) => by apply stays_ret
  | |- stays _ (st_throw _) => apply stays_throw
  | |- stays _ (if _ then _ else _) => apply stays_if; intros ?
  | |- stays _ (match ?x with _ => _ end) => destruct x eqn:?
  | |- stays _ (c_get ≫= _) => eapply stays_bind; [apply stays_get|intros ? [??]]
  | |- stays _ (outside ≫= _) => apply stays_seq; [apply stays_outside|intros ?]
  | |- stays _ (c_change _ ≫= _) => apply stays_seq; [apply stays_change; by intros []|intros ?]
  | |- stays _ (c_change _) => apply stays_change; by intros []
  | |- stays _ (change_clip _ ≫= _) => apply stays_seq; [apply stays_change; by intros []|intros ?]
  | |- stays _ (change_clip _) => apply stays_change; by intros []
  | |- stays _ (on_link _ ≫= _) => apply stays_seq; [by apply stays_on_link|intros ?]
  | |- stays _ (on_link _) => by apply stays_on_link
  | |- stays _ (let _ := _ in _) => cbv zeta
  end.

Lemma stays_sync_locks keysym down : has_rights rights AccessKeyEvents = true -> stays (fun _ => True) (sync_locks keysym down).
Proof.
  intros Hr. unfold sync_locks. repeat quiet.
  apply stays_seq; [|intros _]; repeat quiet; by apply stays_fake_lock.
Qed.

Lemma stays_keyEvent keysym keycode down : stays (fun _ => True) (keyEvent keysym keycode down).
Proof.
  unfold keyEvent. apply stays_check; [done| |]; intros Hr; [|by apply stays_ret]. cbn [negb]. repeat quiet.
  apply stays_seq; [by apply stays_sync_locks|]. intros _. repeat quiet; [|by apply stays_press].
  destruct (isShiftPressed _); cbn [negb].
  - apply stays_seq; [by apply stays_ret|]. intros _. apply stays_seq; [by apply stays_press|]. intros _. by apply stays_ret.
  - apply stays_moment; [done|by apply stays_press|apply press_returns].
Qed.

Lemma stays_pointerEvent pos mask : stays (fun _ => True) (pointerEvent pos mask).
Proof.
  unfold pointerEvent. apply stays_check; [done| |]; intros Hr; cbn [negb]; repeat quiet. by apply stays_pointer.
Qed.

Lemma stays_write w : stays (fun _ => True) (write w).
Proof. unfold write. repeat quiet. Qed.

Lemma stays_setDesktopSize w h layout : stays (fun _ => True) (setDesktopSize w h layout).
Proof.
  unfold setDesktopSize. apply stays_check; [done| |]; intros Hr; cbn [negb];
    (apply stays_seq; [|intros ?; apply stays_write]); [by apply stays_resize|by apply stays_ret].
Qed.

Lemma stays_clientCutText str : stays (fun _ => True) (clientCutText str).
Proof.
  unfold clientCutText. quiet. apply stays_check; [done| |]; intros Hr; cbn [negb]; [by apply stays_announce|by apply stays_ret].
Qed.

Lemma stays_handleClipboardRequest flags : stays (fun _ => True) (handleClipboardRequest flags).
Proof.
  unfold handleClipboardRequest. repeat quiet.
  apply stays_check; [done| |]; intros Hr; cbn [negb]; [by apply stays_request|by apply stays_ret].
Qed.

Lemma stays_handleClipboardPeek : stays (fun _ => True) handleClipboardPeek.
Proof. unfold handleClipboardPeek. repeat quiet. apply stays_write. Qed.

Lemma stays_handleClipboardNotify flags : stays (fun _ => True) (handleClipboardNotify flags).
Proof.
  unfold handleClipboardNotify. repeat quiet. apply stays_seq; [repeat quiet|]. intros _.
  apply stays_check; [done| |]; intros Hr; cbn [negb]; [by apply stays_announce|by apply stays_ret].
Qed.

Lemma stays_handleClipboardProvide flags buffers : stays (fun _ => True) (handleClipboardProvide flags buffers).
Proof.
  unfold handleClipboardProvide. repeat quiet.
  apply stays_check; [done| |]; intros Hr; cbn [negb]; repeat quiet. by apply stays_data.
Qed.

Lemma stays_picture ev : stays (fun _ => True) (picture ev).
Proof.
  unfold picture. eapply stays_bind; [apply stays_get|]. intros c [Hrev Hr]. cbv zeta.
  apply stays_seq; [|intros ?; repeat quiet]. apply stays_owner_picture. rewrite Hr. by destruct (c_reverse c).
Qed.

Lemma stays_handle ev : stays (fun _ => True) (handle ev).
Proof.
  destruct ev; cbn [handle]; try apply stays_picture;
    eauto using stays_keyEvent, stays_pointerEvent, stays_setDesktopSize, stays_clientCutText, stays_handleClipboardRequest,
      stays_handleClipboardPeek, stays_handleClipboardNotify, stays_handleClipboardProvide, @stays_ret.
  unfold handleClipboardCaps. quiet.
Qed.

Lemma stays_handle_all evs : stays (fun _ => True) (handle_all evs).
Proof.
  induction evs as [|ev evs IH]; cbn [handle_all]; [by apply stays_ret|]. by apply stays_seq; [apply stays_handle|].
Qed.

(** *** What the server asks of the connection *)

Lemma stays_requestClipboard : stays (fun _ => True) requestClipboard.
Proof.
  unfold requestClipboard. apply stays_check; [done| |]; intros Hr; cbn [negb]; repeat quiet; [by apply stays_data|apply stays_write].
Qed.

Lemma stays_announceClipboard available : stays (fun _ => True) (announceClipboard available).
Proof.
  unfold announceClipboard. apply stays_check; [done| |]; intros Hr; cbn [negb]; [|by apply stays_ret].
  repeat quiet; try (by apply stays_request). apply stays_seq; [repeat quiet|]. intros size.
  repeat quiet; first [by apply stays_request|apply stays_write].
Qed.

Lemma stays_sendClipboardData deflate data : stays (fun _ => True) (sendClipboardData deflate data).
Proof.
  unfold sendClipboardData. apply stays_check; [done| |]; intros Hr; cbn [negb]; repeat quiet; apply stays_write.
Qed.

Lemma is_run_rest {B E A} (p : prog E A) (s : link * B) : (is_run p s).2.2 = s.2.
Proof.
  unfold is_run, mbind, SE_bind, l_get. destruct (outcome _ _) as [[[a d] evs]|e]; [|done]. by destruct s.
Qed.

Lemma stays_readMsg maxCutText inflate : stays (fun _ => True) (readMsg maxCutText inflate).
Proof.
  unfold readMsg. repeat quiet. apply stays_seq; [apply stays_on_link; intros; apply is_run_rest|].
  intros [[ok r'] evs]. quiet. apply stays_seq; [apply stays_handle_all|]. intros _. by apply stays_ret.
Qed.
End normal.

(** ** The whole connection *)

Section access.
Context {V X : Type} `{HS : ServerSecEnv V X} `{HO : Owner V} (moves : V -> V -> Prop) (v0 : V).
Context (enabled : list Z) (defaultMinorVersion maxCutText : Z) (inflate : list Z -> zseg) (deflate : list Z -> list Z)
  (reverse : bool) (ar : Z).
Abbreviation world := (sconn X * (acts * V))%type.
Abbreviation M := (SE world).
Implicit Types w : world.

(** *** Events *)

(** What the socket, the timers and the server call. *)
Inductive event : M unit -> Prop :=
| event_read : event (processSocketReadEvent enabled defaultMinorVersion maxCutText inflate)
| event_failure_timer : event handleAuthFailureTimeout
| event_login_timer : event login_timeout
| event_desktop : event desktopReadyOrClose
| event_request : event requestClipboardOrClose
| event_announce available : event (announceClipboardOrClose available)
| event_data data : event (sendClipboardDataOrClose deflate data)
| event_other f : elsewhere f -> (forall c, l_in (c_link (f c)) = l_in (c_link c)) -> event (c_change f).
  (* what the parts left out do to the rest of the connection *)

(** An event ends in a state, or never; the states between the messages of one
    call of [processSocketReadEvent] count as reached, too. *)
Inductive step : world -> world -> Prop :=
| step_arrive bs c log v :
    step (c, (log, v)) (set_link (set_in (l_in (c_link c) ++ bs) (c_link c)) c, (ActArrived bs :: log, v))
| step_hangup c o :
    step (c, o) (set_link (Link (l_in (c_link c)) true (l_mark (c_link c)) (l_sent (c_link c)) (l_unsent (c_link c))) c, o)
| step_init w : c_state w.1 = RFBSTATE_UNINITIALISED -> step w (init defaultMinorVersion w).2
| step_event w m : event m -> returned (m w).1 -> step w (m w).2
| step_message w w' : processMsg enabled defaultMinorVersion maxCutText inflate w = (Ok true, w') -> step w w'
| step_answer c log v accept reason :
    step (c, (log, v)) (approveConnectionOrClose accept reason (c, (ActAnswer accept :: log, v))).2
| step_moves c log v v' : moves v v' -> step (c, (log, v)) (c, (log, v')).

(** *** The invariant *)

Abbreviation history := (history (X := X) moves enabled).
Abbreviation beginning := (beginning v0).

(** The rights are those of the socket and of a security object that was done
    when this much had happened. *)
Definition granted_then (log0 : acts) (s : ssecurity X) (rights : Z) : Prop :=
  exists now, now.2.1 = log0 /\ security_checked (V := acts * V) enabled history beginning now s /\
    rights = Z.land ar (getAccessRights s).
Definition granted (log : acts) (rights : Z) : Prop := exists log0 s, log0 `suffix_of` log /\ granted_then log0 s rights.
Definition granted_by (log0 : acts) (ss : option (ssecurity X)) (rights : Z) : Prop :=
  exists s, ss = Some s /\ granted_then log0 s rights.

(** Nobody is through yet. *)
Definition now_of w : link * (acts * V) := (c_link w.1, w.2).
Definition fresh w : Prop :=
  forallb arrival w.2.1 = true /\ c_rights w.1 = ar /\ c_keys w.1 = ∅ /\ history beginning (now_of w).

Definition stage w : Prop :=
  match c_state w.1 with
  | RFBSTATE_UNINITIALISED | RFBSTATE_PROTOCOL_VERSION | RFBSTATE_SECURITY_TYPE | RFBSTATE_SECURITY_FAILURE => fresh w
  | RFBSTATE_SECURITY => fresh w /\ forall s, c_ssecurity w.1 = Some s -> security_inv (V := acts * V) enabled history beginning (now_of w) s
  | RFBSTATE_QUERYING => exists log0, log0 `suffix_of` w.2.1 /\ granted_by log0 (c_ssecurity w.1) (c_rights w.1)
  | RFBSTATE_INITIALISATION | RFBSTATE_CLIENT_READY | RFBSTATE_NORMAL =>
      (exists log0, log0 `suffix_of` w.2.1 /\ granted_by log0 (c_ssecurity w.1) (c_rights w.1)) /\ approved w.2.1 = true
  | RFBSTATE_CLOSING | RFBSTATE_INVALID => True
  end.

(** At every point, and where an event ends. *)
Record Base w : Prop := {
  i_reverse : c_reverse w.1 = reverse;
  i_lawful : lawful reverse (c_rights w.1) w.2.1;
  i_held : forall k, k ∈ held w.2.1 -> exists i, c_keys w.1 !! i = Some k;
  i_keys : c_keys w.1 <> ∅ -> has_rights (c_rights w.1) AccessKeyEvents = true /\ approved w.2.1 = true;
  i_granted : forallb harmless w.2.1 = true \/ granted w.2.1 (c_rights w.1)
}.
Definition Inv w : Prop := Base w /\ stage w.

Lemma granted_by_granted log log0 ss rights : log0 `suffix_of` log -> granted_by log0 ss rights -> granted log rights.
Proof. intros ? (s & _ & H). by exists log0, s. Qed.

Lemma granted_more log log' rights : log `suffix_of` log' -> granted log rights -> granted log' rights.
Proof. intros ? (log0 & s & ? & ?). exists log0, s. split; [by etrans|done]. Qed.

Lemma Base_elsewhere f c o : elsewhere f -> Base (c, o) -> Base (f c, o).
Proof.
  intros Hf [?????]. destruct (Hf c) as (E1&E2&E3&E4&E5). cbn [fst snd] in *.
  split; cbn [fst snd]; rewrite ?E1, ?E2, ?E3, ?E4, ?E5; done.
Qed.

(** Where the history is kept, input is only used up. *)
Definition early (st : cstate) : Prop := state_number st <= state_number RFBSTATE_SECURITY_FAILURE.
Definition uses (l l' : link) : Prop := exists used, l_in l = used ++ l_in l'.

Lemma history_uses l l' o : uses l l' -> history (l, o) (l', o).
Proof. intros H. by apply rtc_once, moment_calls, calls_used. Qed.

Lemma fresh_history c o c' o' : fresh (c, o) -> history (c_link c, o) (c_link c', o') -> forallb arrival o'.1 = true ->
  c_rights c' = c_rights c -> c_keys c' = c_keys c -> fresh (c', o').
Proof.
  intros (? & Er & Ek & Hh) Hn Ho E1 E2. unfold fresh, now_of in *. cbn [fst snd] in *. rewrite E1, E2.
  repeat split; try done. by etrans.
Qed.

Lemma stage_elsewhere f c o : elsewhere f -> (early (c_state c) -> uses (c_link c) (c_link (f c))) -> stage (c, o) -> stage (f c, o).
Proof.
  intros Hf Hu Hs. destruct (Hf c) as (E1&E2&E3&E4&E5). unfold stage in *. cbn [fst snd] in *. rewrite E1, E2, E4.
  destruct (c_state c); try exact Hs; try (eapply fresh_history; [exact Hs|by apply history_uses, Hu|by destruct Hs|done..]).
  destruct Hs as [Hs Hi]. assert (history (c_link c, o) (c_link (f c), o)) as Hh by by apply history_uses, Hu.
  split; [eapply fresh_history; [exact Hs|done|by destruct Hs|done..]|]. intros s Es.
  by eapply (security_later enabled history beginning _ _ Hh), Hi.
Qed.

Lemma Inv_elsewhere f c o : elsewhere f -> (early (c_state c) -> uses (c_link c) (c_link (f c))) -> Inv (c, o) -> Inv (f c, o).
Proof. intros Hf Hu [Hb Hs]. split; [by apply Base_elsewhere|by apply stage_elsewhere]. Qed.

(** A change of state. *)
Lemma Base_change f c o : Base (c, o) -> c_reverse (f c) = c_reverse c -> c_rights (f c) = c_rights c -> c_keys (f c) = c_keys c ->
  Base (f c, o).
Proof. intros [?????] E3 E4 E5. cbn [fst snd] in *. split; cbn [fst snd]; rewrite ?E3, ?E4, ?E5; done. Qed.

Definition keeps {A} (m : M A) w : Prop := st_ends m (fun _ => Inv) (fun _ => Base) w.

Lemma close_Inv reason w : Base w -> st_ends (close reason) (fun _ => Inv) (fun _ => Inv) w.
Proof.
  intros Hw. destruct w as [c o]. split; [|done].
  by apply (Base_change (fun c => set_link _ (set_closed reason (set_rw None (set_ssecurity None (set_state RFBSTATE_CLOSING c))))) c o).
Qed.
Lemma close_keeps reason w : Base w -> keeps (close reason) w.
Proof. intros Hw. eapply ends_conseq_throw; [by apply close_Inv|]. by intros ?? []. Qed.

(** A throw that has ended the connection, or one that is not over. *)
Definition ended (e : exn) w : Prop := Base w /\ (returned (A := unit) (Throw e) -> Inv w).
Lemma or_close_Inv m w : keeps m w -> st_ends (or_close m) (fun _ => Inv) ended w.
Proof.
  unfold keeps, or_close. intros H. unfold st_ends at 1 in H. unfold st_ends at 1.
  destruct (m w) as [[u|e] w'] eqn:E; [done|].
  assert (st_ends (close (what e)) (fun _ => Inv) ended w') as Hc
    by (eapply ends_conseq_throw; [by apply close_Inv|]; by intros ? ? [??]).
  destruct e; [exact Hc..|]. by split.
Qed.

(** In and out of the invariant of a client that is through. *)
Lemma Inv_good w st : Inv w -> c_state w.1 = st ->
  st = RFBSTATE_INITIALISATION \/ st = RFBSTATE_CLIENT_READY \/ st = RFBSTATE_NORMAL ->
  exists log0, good log0 reverse (c_rights w.1) st (c_ssecurity w.1) ∅ w /\ granted_by log0 (c_ssecurity w.1) (c_rights w.1).
Proof.
  intros [[Hr Hl Hh Hk Hg] Hs] <- Hst. unfold stage in Hs.
  assert ((exists log0, log0 `suffix_of` w.2.1 /\ granted_by log0 (c_ssecurity w.1) (c_rights w.1)) /\ approved w.2.1 = true)
    as [(log0 & Hl0 & Hg') Ha].
  { destruct Hst as [E|[E|E]]; by rewrite E in Hs. }
  exists log0. split; [|done]. split; try done.
  - auto.
  - intros H. by apply Hk.
Qed.

Lemma good_Inv log0 rights st ss w : good log0 reverse rights st ss ∅ w -> granted_by log0 ss rights ->
  state_number RFBSTATE_INITIALISATION <= state_number st -> Inv w.
Proof.
  intros [Es Ess Er Er' Ho Hl Ha Hh Hk] Hg Hst. subst. split; [split; try done|].
  - intros k Hin. destruct (Hh k Hin) as [He|]; [set_solver|done].
  - auto.
  - right. by eapply granted_by_granted.
  - unfold stage. destruct (c_state w.1); try done; by eauto.
Qed.

Lemma stays_keeps (m : M unit) w : Inv w ->
  c_state w.1 = RFBSTATE_INITIALISATION \/ c_state w.1 = RFBSTATE_CLIENT_READY \/ c_state w.1 = RFBSTATE_NORMAL ->
  (forall log0, stays log0 reverse (c_rights w.1) (c_state w.1) (c_ssecurity w.1) (fun _ => True) m) -> keeps m w.
Proof.
  intros Hw Hst Hm. destruct (Inv_good w _ Hw eq_refl Hst) as (log0 & Hg & Hby). specialize (Hm log0 _ _ Hg). unfold keeps.
  assert (state_number RFBSTATE_INITIALISATION <= state_number (c_state w.1)) as Hle by by destruct Hst as [->|[->| ->]].
  unfold st_ends in *. destruct (m w) as [[u|e] w']; [destruct Hm as [_ Hm]; by eapply good_Inv|].
  by eapply (good_Inv _ _ _ _ _ Hm).
Qed.

(** *** Ready *)

Lemma set_state_good log0 st st' rights ss (c : sconn X) (o : acts * V) : good log0 reverse rights st ss ∅ (c, o) ->
  good log0 reverse rights st' ss ∅ (set_state st' c, o).
Proof. intros [?????????]. by split. Qed.

(** A computation of a connection that is through, that may end in another
    such state. *)
Definition through log0 rights ss w : Prop := exists st, good log0 reverse rights st ss ∅ w /\
  state_number RFBSTATE_INITIALISATION <= state_number st.

Lemma through_Inv log0 rights ss w : through log0 rights ss w -> granted_by log0 ss rights -> Inv w.
Proof. intros (st & Hg & Hst) Hby. by eapply good_Inv. Qed.

Lemma desktopReady_through log0 rights ss w : good log0 reverse rights RFBSTATE_CLIENT_READY ss ∅ w ->
  st_ends desktopReady (fun _ => through log0 rights ss) (fun _ => through log0 rights ss) w.
Proof.
  intros Hw. unfold desktopReady. apply ends_bind. unfold st_ends at 1, c_get.
  rewrite (g_state _ _ _ _ _ _ _ Hw). cbn [bool_decide negb]. rewrite bool_decide_true by done. cbn [negb].
  apply ends_bind. unfold st_ends at 1, outside. cbv zeta.
  assert (forall w, good log0 reverse rights RFBSTATE_CLIENT_READY ss ∅ w -> through log0 rights ss w) as Ht.
  { intros w' Hw'. by exists RFBSTATE_CLIENT_READY. }
  destruct (setDimensions _ _ _ _) as [common|e]; [|by apply Ht].
  destruct (setPF _ _) as [common' error].
  assert (late : state_number RFBSTATE_QUERYING <= state_number RFBSTATE_CLIENT_READY) by done.
  eapply ends_seq; [eapply ends_conseq_throw; [apply stays_change; [by intros []|exact Hw]|by auto]|]. intros _ w1 [_ H1].
  apply ends_seq with (R := fun _ => good log0 reverse rights RFBSTATE_CLIENT_READY ss ∅);
    [by destruct error; [apply Ht|]|]. intros _ w2 H2.
  do 2 (eapply ends_seq; [eapply ends_conseq_throw; [by apply stays_on_link|by auto]|]; clear dependent w2; intros _ w2 [_ H2]). destruct w2 as [c o].
  exists RFBSTATE_NORMAL. split; [|done]. by eapply set_state_good.
Qed.

Lemma desktopReady_keeps w : Inv w -> keeps desktopReady w.
Proof.
  intros Hw. destruct (decide (c_state w.1 = RFBSTATE_CLIENT_READY)) as [Hst|Hst].
  - destruct (Inv_good w _ Hw Hst (or_intror (or_introl eq_refl))) as (log0 & Hg & Hby).
    pose proof (desktopReady_through _ _ _ _ Hg) as Hd. unfold keeps, st_ends in *.
    destruct (desktopReady w) as [[u|e] w']; [by eapply through_Inv|by eapply (through_Inv _ _ _ _ Hd)].
  - unfold keeps, desktopReady. apply ends_bind. unfold st_ends at 1, c_get. by rewrite bool_decide_false.
Qed.

Lemma clientInit_keeps shared w : Inv w -> c_state w.1 = RFBSTATE_INITIALISATION -> keeps (clientInit shared) w.
Proof.
  intros Hw Hst. destruct (Inv_good w _ Hw Hst (or_introl eq_refl)) as (log0 & Hg & Hby).
  set (rights := c_rights w.1) in *. set (ss := c_ssecurity w.1) in *. clearbody rights ss.
  assert (late : state_number RFBSTATE_QUERYING <= state_number RFBSTATE_CLIENT_READY) by done.
  assert (forall w, good log0 reverse rights RFBSTATE_CLIENT_READY ss ∅ w -> Inv w) as Hready.
  { intros w' Hw'. by eapply good_Inv. }
  unfold clientInit. apply ends_bind. destruct w as [c o]. unfold st_ends at 1, c_change. cbn [fst snd].
  apply (set_state_good _ _ RFBSTATE_CLIENT_READY) in Hg.
  unfold clientReady. apply ends_bind. unfold st_ends at 1, c_get. apply ends_bind. unfold st_ends at 1, outside.
  eapply ends_seq; [eapply ends_conseq_throw; [by apply stays_accessCheck|by intros; apply Hready]|].
  intros exclusive w1 [Hex H1].
  assert (exclusive = has_rights rights AccessNonShared) by (rewrite Hex; by destruct reverse).
  cbv zeta. eapply ends_seq; [eapply ends_conseq_throw; [by apply stays_ready|by intros; apply Hready]|]. intros r w2 [_ H2].
  apply ends_seq with (R := fun _ => Inv).
  { destruct r as [reason|]; [by apply close_keeps, Hready|by apply Hready]. }
  intros _ w3 H3. apply ends_bind. unfold st_ends at 1, outside. destruct (o_desktopReady w3.2); [by apply desktopReady_keeps|done].
Qed.

Lemma on_link_keeps {A} (m : SE (link * (acts * V)) A) w : (forall s, (m s).2.2 = s.2) ->
  (early (c_state w.1) -> forall s, uses s.1 (m s).2.1) -> Inv w ->
  st_ends (on_link m) (fun _ w' => Inv w' /\ c_state w'.1 = c_state w.1) (fun _ => Base) w.
Proof.
  intros Hm Hu Hw. destruct w as [c o]. unfold st_ends, on_link. specialize (Hm (c_link c, o)). cbn [fst snd] in *.
  specialize (fun H => Hu H (c_link c, o)).
  destruct (m (c_link c, o)) as [[x|e] [l o']]; cbn in Hm, Hu; subst o'; [split; [|done]|].
  - by apply (Inv_elsewhere (set_link l)).
  - by apply (Inv_elsewhere (set_link l) c o).
Qed.

Lemma processInitMsg_keeps w : Inv w -> c_state w.1 = RFBSTATE_INITIALISATION -> keeps processInitMsg w.
Proof.
  intros Hw Hst. unfold processInitMsg. eapply ends_seq; [apply on_link_keeps; [intros; apply is_run_rest|by rewrite Hst|done]|].
  intros [ok evs] w1 [H1 Hs1]. rewrite Hst in Hs1. cbn [fst snd]. destruct ok; [|done]. cbn [negb].
  apply ends_seq with (R := fun _ => Inv); [|by intros _ w2 H2; apply ends_bind].
  destruct evs as [|[] ?]; try done. by apply clientInit_keeps.
Qed.

(** *** The answer to the query *)

Lemma Base_log a c log v v' : Base (c, (log, v)) -> harmless a = true -> permitted reverse (c_rights c) a ->
  Base (c, (a :: log, v')).
Proof.
  intros [Hr Hl Hh Hk Hg] Ha Hp. cbn [fst snd] in *. split; cbn [fst snd]; try done.
  - cbn. auto.
  - intros k. destruct a; by try apply Hh.
  - intros H. destruct (Hk H) as [? Happ]. split; [done|]. unfold approved in *. cbn. by rewrite Happ, orb_true_r.
  - destruct Hg as [Hg|Hg]; [left; cbn; by rewrite Ha|right]. eapply granted_more; [|done]. by apply suffix_cons_r.
Qed.

(** A client that is past its authentication stays so. *)
Lemma stage_log a c log v v' : stage (c, (log, v)) -> ~ early (c_state c) -> stage (c, (a :: log, v')).
Proof.
  intros Hs Hst. unfold stage in *. cbn [fst snd] in *.
  assert (forall log0, log0 `suffix_of` log -> log0 `suffix_of` a :: log) as Hsuf by (intros; by apply suffix_cons_r).
  destruct (c_state c); try done; try (by destruct Hst); [naive_solver|..];
    (destruct Hs as [(log0 & ? & ?) Ha]; split; [by eauto|]; unfold approved in *; cbn; by rewrite Ha, orb_true_r).
Qed.

Lemma approve_keeps accept reason w : Base w ->
  (c_state w.1 = RFBSTATE_QUERYING -> stage w /\ (accept = true -> approved w.2.1 = true)) ->
  keeps (approveConnection accept reason) w.
Proof.
  intros Hb Hst. unfold approveConnection. apply ends_bind. unfold st_ends at 1, c_get.
  case_bool_decide as Hq; cbn [negb]; [|done]. destruct (Hst Hq) as [Hs Happ]. cbv zeta.
  unfold stage in Hs. rewrite Hq in Hs.
  apply ends_seq with (R := fun _ w' => exists l, w' = (set_link l w.1, w.2)).
  { destruct w as [c o]. case_match; [|exists (c_link c); by destruct c]. destruct accept; [by eexists|].
    destruct (negb _); by eexists. }
  intros _ w' [l ->]. destruct w as [c o]. destruct accept; cbn [fst snd] in *.
  - unfold keeps, st_ends, mbind, SE_bind, c_change. cbn [fst snd].
    set (f := fun c => set_login false (set_rw (Some (RW (ClientMsgs.MSGSTATE_IDLE, 0) init_writer)) (set_state RFBSTATE_INITIALISATION (set_link l c))) : sconn X).
    split; [by apply (Base_change f)|]. split; [exact Hs|by apply Happ].
  - by apply (Base_change (fun c => set_state RFBSTATE_INVALID (set_link l c))).
Qed.

Lemma queryConnection_keeps user w : Base w -> c_state w.1 = RFBSTATE_QUERYING -> stage w -> keeps (queryConnection user) w.
Proof.
  intros Hb Hq Hs. destruct w as [c [log v]]. unfold queryConnection. apply ends_bind. cbn [fst snd] in *.
  unfold accessCheck, st_ends at 1. unfold mbind, SE_bind at 1, c_get. cbn [fst snd]. rewrite Hq. cbn [state_number].
  pose proof Hb as [Hr _ _ _ _]. cbn in Hr. cbn.
  apply ends_bind. unfold st_ends at 1, owner_ask. cbn.
  match goal with |- context [o_queryConnection user ?b v] =>
    set (noQuery := b); assert (noQuery = b) as Hn by reflexivity; clearbody noQuery end.
  destruct (o_queryConnection user noQuery v) as [d v']. cbn [fst snd] in *.
  assert (Base (c, (ActQuery noQuery d :: log, v'))) as Hb'.
  { apply (Base_log _ _ _ v); [done|done|]. rewrite Hn, Hr. cbn. by destruct reverse. }
  assert (stage (c, (ActQuery noQuery d :: log, v'))) as Hs' by (apply (stage_log _ _ _ v); [done|by unfold early; rewrite Hq; cbn; lia]).
  destruct d; [..|done]; (eapply ends_conseq_throw; [apply or_close_Inv, approve_keeps; done|by intros ?? [??]]).
Qed.

(** *** Before the query *)

(** A connection nobody has been let in by. *)
Lemma arrivals_harmless log : forallb arrival log = true -> forallb harmless log = true.
Proof. induction log as [|[] log IH]; cbn; done. Qed.
Lemma arrivals_lawful rights log : forallb arrival log = true -> lawful reverse rights log.
Proof. induction log as [|[] log IH]; cbn; try done. intros H. split; [by apply IH|]. split; [done|by left]. Qed.
Lemma arrivals_held log : forallb arrival log = true -> held log = ∅.
Proof. induction log as [|[] log IH]; cbn; done. Qed.

Lemma fresh_Base c o : fresh (c, o) -> c_reverse c = reverse -> Base (c, o).
Proof.
  intros (Hl & Hr & Hk & _) Hrev. cbn [fst snd] in *. split; cbn [fst snd]; try done.
  - by apply arrivals_lawful.
  - intros k. by rewrite arrivals_held.
  - left. by apply arrivals_harmless.
Qed.

Lemma early_fresh w : Inv w -> early (c_state w.1) -> fresh w.
Proof. intros [_ Hs] Hst. unfold stage in Hs. destruct (c_state w.1); try done; try by destruct Hs. Qed.

Lemma security_keeps w : Inv w -> c_state w.1 = RFBSTATE_SECURITY -> keeps (processSecurityMsg enabled) w.
Proof.
  intros [Hb Hs] Hst. destruct w as [c [log v]]. unfold stage in Hs. cbn [fst snd] in *. rewrite Hst in Hs.
  destruct Hs as [Hf Hs]. pose proof Hf as (Hlog & Hr & Hk & Hh). unfold now_of in *. cbn [fst snd] in *.
  pose proof Hb as [Hrev _ _ _ _]. cbn in Hrev.
  unfold keeps, processSecurityMsg, run_security, st_ends, mbind, SE_bind, c_get, on_link, c_change. cbn [fst snd].
  destruct (c_ssecurity c) as [s|] eqn:Hss; [|exact Hb].
  pose proof (goes_processMsg enabled history (asked enabled) (asked_history moves enabled) beginning s _ Hh (Hs s eq_refl)) as Hw.
  unfold goes, st_ends in Hw. cbn [fst snd] in *.
  destruct (SSecurity.processMsg enabled s (c_link c, (log, v))) as [[[b s']|e] [l [log' v']]].
  - destruct Hw as [[Hi Hc] Hn]. cbn [fst snd] in *.
    assert (forallb arrival log' = true) as Hlog' by (by apply asked_log in Hn; cbn in Hn; rewrite Hn).
    apply (asked_history moves enabled) in Hn. assert (fresh (set_ssecurity (Some s') (set_link l c), (log', v'))) as Hf' by (eapply fresh_history; done).
    assert (Base (set_ssecurity (Some s') (set_link l c), (log', v'))) as Hb' by (by apply fresh_Base).
    destruct b; [|split; [done|]; unfold stage; cbn [fst snd c_state set_ssecurity set_link]; rewrite Hst; split; [done|by intros ? [= <-]]].
    specialize (Hc eq_refl).
    unfold security_done, mbind, SE_bind, c_change, c_get, mret, SE_ret. cbn [fst snd c_ssecurity set_ssecurity set_state].
    match goal with |- context [queryConnection (getUserName s') ?w'] =>
      assert (Hkeep : keeps (queryConnection (getUserName s')) w'); [apply queryConnection_keeps|] end.
    + split; cbn [fst snd]; try done; [by apply arrivals_lawful|intros k; by rewrite arrivals_held|left; by apply arrivals_harmless].
    + done.
    + unfold stage. cbn. exists log'. split; [done|]. exists s'. split; [done|]. exists (l, (log', v')). by rewrite Hr.
    + unfold keeps, st_ends in Hkeep. by destruct (queryConnection _ _) as [[u|e] w'].
  - assert (forallb arrival log' = true) as Hlog' by (by apply asked_log in Hw; cbn in Hw; rewrite Hw).
    apply (asked_history moves enabled) in Hw. assert (fresh (set_link l c, (log', v'))) as Hf' by (eapply fresh_history; done).
    assert (Base (set_link l c, (log', v'))) as Hb' by (by apply fresh_Base).
    destruct e; try exact Hb'. unfold delayed_failure, mbind, SE_bind, c_change. cbn [fst snd].
    split; [by apply (Base_change (fun c => set_failure (Some what) (set_state RFBSTATE_SECURITY_FAILURE c)))|]. exact Hf'.
Qed.

(** The steps of the handshake before: they touch the streams and the state. *)
Definition starts {A} (m : M A) : Prop := forall w, Base w -> fresh w ->
  st_ends m (fun _ w' => Base w' /\ fresh w') (fun _ w' => Base w' /\ fresh w') w.

Lemma starts_ret {A} (a : A) : starts (mret a).
Proof. intros w Hb Hf. done. Qed.
Lemma starts_throw {A} e : starts (A := A) (st_throw e).
Proof. intros w Hb Hf. done. Qed.
Lemma starts_bind {A B} (m : M A) (f : A -> M B) : starts m -> (forall a, starts (f a)) -> starts (m ≫= f).
Proof. intros Hm Hf w Hb Hw. eapply ends_seq; [by apply Hm|]. intros a w' [??]. by apply Hf. Qed.
Lemma starts_get : starts c_get.
Proof. intros w Hb Hf. done. Qed.
Lemma starts_change f : (forall c, c_reverse (f c) = c_reverse c /\ c_rights (f c) = c_rights c /\ c_keys (f c) = c_keys c /\
  c_link (f c) = c_link c) -> starts (c_change f).
Proof.
  intros Hf [c o] Hb Hw. destruct (Hf c) as (?&E&E'&E''). split; [by apply Base_change|].
  eapply fresh_history; [exact Hw|cbn; by rewrite E''|by destruct Hw|done..].
Qed.
(** A computation on the link that only uses up input. *)
Definition reads_only {A} (m : SE (link * (acts * V)) A) : Prop := forall s, (m s).2.2 = s.2 /\ uses s.1 (m s).2.1.
Lemma starts_on_link {A} (m : SE (link * (acts * V)) A) : reads_only m -> starts (on_link m).
Proof.
  intros Hm [c o] Hb Hw. unfold st_ends, on_link. destruct (Hm (c_link c, o)) as [Ho Hu]. cbn [fst snd] in *.
  destruct (m (c_link c, o)) as [[x|e] [l o']]; cbn in Ho, Hu; subst o'; (split; [by apply (Base_change (set_link l))|]);
    (eapply fresh_history; [exact Hw|by apply history_uses|by destruct Hw|done..]).
Qed.
Lemma reads_only_write (f : link -> link) : (forall l, l_in (f l) = l_in l) -> reads_only (l_change f).
Proof. intros Hf s. split; [done|]. exists []. cbn. by rewrite Hf. Qed.
Lemma reads_only_hasData n : reads_only (is_hasData n).
Proof.
  intros s. unfold is_hasData, mbind, SE_bind, l_get. destruct (n <=? _); [|destruct (l_eof s.1)]; (split; [done|by exists []]).
Qed.
Lemma reads_only_readBytes n : reads_only (is_readBytes n).
Proof.
  intros s. unfold is_readBytes, mbind, SE_bind, l_get. destruct (_ <? _); (split; [done|]); [by exists []|].
  exists (ztake n (l_in s.1)). cbn. by rewrite ztake_zdrop.
Qed.
Lemma reads_only_readU8 : reads_only is_readU8.
Proof.
  intros s. unfold is_readU8. pose proof (reads_only_readBytes 1 s) as H. unfold mbind, SE_bind. by destruct (is_readBytes 1 s) as [[]?].
Qed.
Lemma reads_only_skip : reads_only is_skip_all.
Proof. intros s. split; [done|]. exists (l_in s.1). cbn. by rewrite app_nil_r. Qed.

Lemma starts_failConnection {A} e message : starts (failConnection (A := A) e message).
Proof.
  unfold failConnection. apply starts_bind; [apply starts_get|]. intros c.
  apply starts_bind; [|intros _; apply starts_bind; [by apply starts_change|intros _; apply starts_throw]].
  case_match; [|apply starts_ret].
  apply starts_bind; [case_match; by apply starts_on_link, reads_only_write|]. intros _.
  do 2 (apply starts_bind; [by apply starts_on_link, reads_only_write|intros _]). by apply starts_on_link, reads_only_write.
Qed.

Lemma on_link_reads {A} (m : SE (link * (acts * V)) A) w : reads_only m -> Inv w ->
  st_ends (on_link m) (fun _ w' => Inv w' /\ c_state w'.1 = c_state w.1) (fun _ => Base) w.
Proof. intros Hm Hw. apply on_link_keeps; [apply Hm|intros _ s; apply Hm|done]. Qed.

(** A step of [starts], and what comes after it. *)
Lemma starts_keeps {A B} (m : M A) (f : A -> M B) w : starts m -> Base w -> fresh w ->
  (forall a w, Base w -> fresh w -> keeps (f a) w) -> keeps (m ≫= f) w.
Proof.
  intros Hm Hb Hw Hf. eapply ends_seq; [eapply ends_conseq_throw; [by apply Hm|by intros ?? []]|].
  intros a w' [??]. by apply Hf.
Qed.
Lemma starts_throws {A} (m : M A) w : starts m -> Base w -> fresh w -> (forall w, exists e w', m w = (Throw e, w')) -> keeps m w.
Proof.
  intros Hm Hb Hw Ht. specialize (Hm w Hb Hw). unfold keeps, st_ends in *. destruct (Ht w) as (e & w' & E). rewrite E in *. by destruct Hm.
Qed.

Lemma failConnection_throws {A} e message w : exists e' w', failConnection (A := A) e message w = (Throw e', w').
Proof.
  unfold failConnection, mbind, SE_bind, c_get. destruct (bool_decide _); [|by do 2 eexists].
  destruct (_ && _); by do 2 eexists.
Qed.

Lemma early_Inv (f : sconn X -> sconn X) c o st : Base (c, o) -> fresh (c, o) ->
  c_reverse (f c) = c_reverse c -> c_rights (f c) = c_rights c -> c_keys (f c) = c_keys c -> uses (c_link c) (c_link (f c)) ->
  c_state (f c) = st -> early st -> st <> RFBSTATE_SECURITY -> Inv (f c, o).
Proof.
  intros Hb Hw E1 E2 E3 Hu E4 Hst Hne. split; [by apply Base_change|].
  assert (fresh (f c, o)) as Hf by (eapply fresh_history; [exact Hw|by apply history_uses|by destruct Hw|done..]).
  unfold stage. cbn [fst snd]. rewrite E4. by destruct st.
Qed.

(** The choice of the security object. *)
Lemma chosen_keeps t s c o : Base (c, o) -> fresh (c, o) -> t ∈ GetEnabledSecTypes enabled ->
  GetSSecurity (V := acts * V) enabled t = Ok s -> c_state c = RFBSTATE_SECURITY -> Inv (set_ssecurity (Some s) c, o).
Proof.
  intros Hb Hf Ht Hs Hst. split; [by apply (Base_change (set_ssecurity (Some s)))|]. unfold stage. cbn [fst snd c_state set_ssecurity].
  rewrite Hst. split; [done|]. intros s' [= <-]. by eapply GetSSecurity_inv.
Qed.

Lemma version_keeps w : Inv w -> c_state w.1 = RFBSTATE_PROTOCOL_VERSION -> keeps (processVersionMsg enabled defaultMinorVersion) w.
Proof.
  intros Hw Hst. unfold processVersionMsg.
  eapply ends_seq; [apply on_link_reads; [apply reads_only_hasData|done]|]. intros ok w1 [H1 Hst1].
  rewrite Hst in Hst1. destruct ok; cbn [negb]; [|done].
  assert (fresh w1) as Hf by (apply early_fresh; [done|by rewrite Hst1]). destruct H1 as [Hb _].
  apply starts_keeps; [apply starts_on_link, reads_only_readBytes|done..|]. clear -HS. intros verStr w Hb Hf.
  destruct (scan_version verStr) as [[major minor]|].
  2: { destruct w. by apply (Base_change (set_state RFBSTATE_INVALID)). }
  apply starts_keeps; [by apply starts_change|done..|]. clear -HS. intros _ w Hb Hf.
  apply starts_keeps; [|done..|]. { case_match; [apply starts_failConnection|apply starts_ret]. }
  clear -HS. intros _ w Hb Hf. apply starts_keeps; [by apply starts_change|done..|]. clear -HS. intros _ w Hb Hf. cbv zeta.
  case_match.
  - destruct (List.find _ _) as [t|] eqn:Ht; [|apply starts_throws; [apply starts_failConnection|done..|apply failConnection_throws]].
    apply List.find_some in Ht as [Ht _]. apply list_elem_of_In in Ht.
    apply starts_keeps; [by apply starts_on_link, reads_only_write|done..|]. clear -HS Ht. intros _ w Hb Hf.
    apply starts_keeps; [|done..|]. { case_match; [by apply starts_on_link, reads_only_write|apply starts_ret]. }
    clear -HS Ht. intros _ [c o] Hb Hf. apply ends_bind. unfold st_ends at 1, c_change. cbn [fst snd].
    assert (Base (set_state RFBSTATE_SECURITY c, o)) as Hb' by (by apply (Base_change (set_state RFBSTATE_SECURITY))).
    case_match; [|done]. by eapply (chosen_keeps _ _ (set_state RFBSTATE_SECURITY c)).
  - case_match; [apply starts_throws; [apply starts_failConnection|done..|apply failConnection_throws]|].
    do 3 (apply starts_keeps; [by apply starts_on_link, reads_only_write|done..|]; clear -HS; intros _ w Hb Hf).
    destruct w as [c o]. eapply (early_Inv (set_state RFBSTATE_SECURITY_TYPE)); try done. by exists [].
Qed.

Lemma security_type_keeps w : Inv w -> c_state w.1 = RFBSTATE_SECURITY_TYPE -> keeps (processSecurityTypeMsg enabled) w.
Proof.
  intros Hw Hst. unfold processSecurityTypeMsg.
  eapply ends_seq; [apply on_link_reads; [apply reads_only_hasData|done]|]. intros ok w1 [H1 Hst1].
  rewrite Hst in Hst1. destruct ok; cbn [negb]; [|done].
  assert (fresh w1) as Hf by (apply early_fresh; [done|by rewrite Hst1]). destruct H1 as [Hb _].
  apply starts_keeps; [apply starts_on_link, reads_only_readU8|done..|]. clear -HS. intros t w Hb Hf.
  apply ends_seq with (R := fun _ => Inv); [|done]. unfold processSecurityType.
  destruct (bool_decide _) eqn:Ht; cbn [negb]; [|done]. apply bool_decide_eq_true in Ht.
  destruct w as [c o]. apply ends_bind. unfold st_ends at 1, c_change. cbn [fst snd].
  assert (Base (set_state RFBSTATE_SECURITY c, o)) as Hb' by (by apply (Base_change (set_state RFBSTATE_SECURITY))).
  case_match.
  - by eapply (chosen_keeps _ _ (set_state RFBSTATE_SECURITY c)).
  - apply starts_throws; [apply starts_failConnection|done..|apply failConnection_throws].
Qed.

Lemma failure_keeps w : Inv w -> c_state w.1 = RFBSTATE_SECURITY_FAILURE -> keeps processSecurityFailure w.
Proof.
  intros Hw Hst. unfold processSecurityFailure.
  eapply ends_seq; [apply on_link_reads; [apply reads_only_hasData|done]|]. intros ok w1 [H1 Hst1].
  destruct ok; cbn [negb]; [|done]. eapply ends_seq; [apply on_link_reads; [apply reads_only_skip|done]|]. by intros _ w2 [??].
Qed.

(** *** Events *)

Lemma processMsg_keeps w : Inv w -> keeps (processMsg enabled defaultMinorVersion maxCutText inflate) w.
Proof.
  intros Hw. unfold processMsg. apply ends_bind. unfold st_ends at 1, c_get. pose proof Hw as [Hb _].
  destruct (c_state w.1) eqn:Hst; try done.
  - by apply version_keeps.
  - by apply security_type_keeps.
  - by apply security_keeps.
  - by apply failure_keeps.
  - by apply processInitMsg_keeps.
  - destruct (Inv_good w _ Hw Hst) as (log0 & Hg & Hby); [by right; right|].
    pose proof (stays_readMsg log0 reverse (c_rights w.1) RFBSTATE_NORMAL (c_ssecurity w.1) ltac:(done) maxCutText inflate _ _ Hg) as Hr.
    unfold keeps, st_ends in *. destruct (readMsg maxCutText inflate w) as [[b|e] w']; [destruct Hr as [_ Hr]|];
      destruct (good_Inv _ _ _ _ _ Hr Hby) as [??]; done.
Qed.

Lemma message_loop_keeps fuel w : Inv w -> keeps (message_loop enabled defaultMinorVersion maxCutText inflate fuel) w.
Proof.
  revert w. induction fuel as [|fuel IH]; intros w Hw; cbn [message_loop]; [by destruct Hw|].
  eapply ends_seq; [by apply processMsg_keeps|]. intros more w' Hw'. destruct more; [by apply IH|done].
Qed.

Abbreviation always m := (forall w, Inv w -> st_ends m (fun _ : unit => Inv) ended w).

Lemma read_Inv : always (processSocketReadEvent enabled defaultMinorVersion maxCutText inflate).
Proof.
  intros w Hw. unfold processSocketReadEvent. apply ends_bind. unfold st_ends at 1, c_get. case_bool_decide.
  - destruct w as [c o]. apply (Inv_elsewhere (set_link (set_in [] (c_link c))) c o); [done|intros _; exists (l_in (c_link c)); by rewrite app_nil_r|done].
  - apply or_close_Inv. apply ends_seq with (R := fun _ => Inv); [by apply message_loop_keeps|]. intros _ w' Hw'.
    eapply ends_conseq; [by apply (on_link_reads os_flush); [apply reads_only_write|]|]. by intros ?? [].
Qed.

Lemma failure_timer_Inv : always handleAuthFailureTimeout.
Proof.
  intros w Hw. unfold handleAuthFailureTimeout. apply ends_bind. unfold st_ends at 1, c_get. destruct (c_failure w.1) as [m|]; [|done].
  apply ends_bind. destruct w as [c o]. unfold st_ends at 1, c_change. cbn [fst snd]. pose proof Hw as [Hb _].
  case_match; [by apply close_Inv, (Base_change (set_failure None))|].
  assert (forall l, st_ends (close m) (fun _ => Inv) (fun _ => Inv) (set_link l (set_failure None c), o)) as Hc.
  { intros l. by apply close_Inv, (Base_change (fun c => set_link l (set_failure None c)) c o). }
  apply ends_seq with (R := fun _ w' => exists l, w' = (set_link l (set_failure None c), o)); [by eexists|]. intros _ w1 [l1 ->].
  apply ends_seq with (R := fun _ w' => exists l, w' = (set_link l (set_failure None c), o)); [case_match; by eexists|]. intros _ w2 [l2 ->].
  apply ends_seq with (R := fun _ w' => exists l, w' = (set_link l (set_failure None c), o)); [by eexists|]. intros _ w3 [l3 ->].
  apply Hc.
Qed.

Lemma login_timer_Inv : always login_timeout.
Proof.
  intros w Hw. unfold login_timeout. apply ends_bind. unfold st_ends at 1, c_get. case_match; [|done].
  apply ends_bind. destruct w as [c o]. unfold st_ends at 1, c_change. cbn [fst snd]. apply close_Inv.
  destruct Hw as [Hb _]. by apply (Base_change (set_login false)).
Qed.

Lemma when_normal_Inv (m : M unit) :
  (forall log0 rights ss, stays log0 reverse rights RFBSTATE_NORMAL ss (fun _ => True) m) -> always (when_normal m).
Proof.
  intros Hm w Hw. unfold when_normal. apply ends_bind. unfold st_ends at 1, c_get. case_bool_decide as Hst; [|done].
  apply or_close_Inv, stays_keeps; [done|by right; right|]. intros log0. rewrite Hst. apply Hm.
Qed.

Lemma event_Inv (m : M unit) : event m -> always m.
Proof.
  assert (late : state_number RFBSTATE_QUERYING <= state_number RFBSTATE_NORMAL) by done.
  destruct 1 as [| | | | |available|data|f Hf Hu]; intros w Hw.
  - by apply read_Inv.
  - by apply failure_timer_Inv.
  - by apply login_timer_Inv.
  - by apply or_close_Inv, desktopReady_keeps.
  - apply when_normal_Inv; [|done]. intros. by apply stays_requestClipboard.
  - apply when_normal_Inv; [|done]. intros. by apply stays_announceClipboard.
  - apply when_normal_Inv; [|done]. intros. by apply stays_sendClipboardData.
  - destruct w as [c o]. apply Inv_elsewhere; [done|intros _; exists []; by rewrite Hu|done].
Qed.

Lemma ends_state {A} (m : M A) w : st_ends m (fun _ => Inv) ended w -> returned (m w).1 -> Inv (m w).2.
Proof. unfold st_ends. destruct (m w) as [[a|e] w']; [done|]. intros [_ H] He. by apply H. Qed.

Lemma arrive_Inv bs c log v : Inv (c, (log, v)) ->
  Inv (set_link (set_in (l_in (c_link c) ++ bs) (c_link c)) c, (ActArrived bs :: log, v)).
Proof.
  intros [Hb Hs]. set (c' := set_link _ c).
  assert (Base (c', (log, v))) as Hb' by by apply (Base_change (set_link _)).
  split; [by apply (Base_log _ _ _ v)|].
  assert (history (c_link c, (log, v)) (c_link c', (ActArrived bs :: log, v))) as Hh by apply rtc_once, moment_arrived.
  destruct (decide (early (c_state c))) as [He|He].
  2: { apply (stage_log _ _ _ v); [|done]. by apply (stage_elsewhere (set_link _)). }
  assert (fresh (c, (log, v))) as Hf by by apply early_fresh.
  assert (fresh (c', (ActArrived bs :: log, v))) as Hf'.
  { eapply fresh_history; [exact Hf|exact Hh| |done..]. by destruct Hf. }
  unfold stage in *. cbn [fst snd c_state set_link] in *. unfold c'. cbn [c_state set_link].
  destruct (c_state c); try done. destruct Hs as [_ Hi]. split; [done|]. intros s Es.
  by eapply (security_later enabled history beginning _ _ Hh), Hi.
Qed.

Lemma moves_Inv c log v v' : moves v v' -> Inv (c, (log, v)) -> Inv (c, (log, v')).
Proof.
  intros Hm [[Hr Hl Hh Hk Hg] Hs]. split; [by split|].
  assert (history (c_link c, (log, v)) (c_link c, (log, v'))) as Hn by by apply rtc_once, moment_moves.
  unfold stage in *. cbn [fst snd] in *. destruct (c_state c); try exact Hs; try (eapply fresh_history; [exact Hs|done|by destruct Hs|done..]).
  destruct Hs as [Hf Hi]. split; [eapply fresh_history; [exact Hf|done|by destruct Hf|done..]|]. intros s Es.
  by eapply (security_later enabled history beginning _ _ Hn), Hi.
Qed.

Lemma approve_returns accept reason w : returned (approveConnectionOrClose accept reason w).1.
Proof.
  unfold approveConnectionOrClose, or_close, approveConnection, mbind, SE_bind, c_get. cbn [fst snd].
  case_bool_decide; cbn [negb]; [|done]. cbv zeta.
  repeat match goal with |- context [if ?b then _ else _] => destruct b end; done.
Qed.

Lemma step_Inv w w' : Inv w -> step w w' -> Inv w'.
Proof.
  intros Hw Hs. revert Hw. destruct Hs as [bs c log v|c o|w0 Hst|w0 m Hm Hr|w0 w1 Hm|c log v accept reason|c log v v' Hm]; intros Hw.
  - by apply arrive_Inv.
  - apply (Inv_elsewhere (set_link _) c o); [done|intros _; by exists []|done].
  - apply ends_state; [|done]. apply or_close_Inv. destruct w0 as [c o]. cbn in Hst.
    assert (fresh (c, o)) as Hf by (apply early_fresh; [done|]; unfold early; cbn; by rewrite Hst). destruct Hw as [Hb _].
    apply (early_Inv (fun c => set_state RFBSTATE_PROTOCOL_VERSION (set_link _ c)) c o RFBSTATE_PROTOCOL_VERSION); try done. by exists [].
  - by apply ends_state; [apply event_Inv|].
  - pose proof (processMsg_keeps w0 Hw) as Hk. unfold keeps, st_ends in Hk. by rewrite Hm in Hk.
  - destruct Hw as [Hb Hs]. apply ends_state; [|apply approve_returns]. apply or_close_Inv, approve_keeps.
    + by apply (Base_log _ _ _ v).
    + cbn [fst snd]. intros Hst. split; [|by intros ->]. apply (stage_log _ _ _ v); [done|]. unfold early. rewrite Hst. cbn. lia.
  - by apply (moves_Inv _ _ v).
Qed.

Definition start : world := (VNCSConnectionST defaultMinorVersion reverse ar, ([], v0)).

Lemma start_Inv : Inv start.
Proof. assert (fresh start) by by split. split; [by apply fresh_Base|done]. Qed.

Lemma reachable_Inv w : rtc step start w -> Inv w.
Proof. intros H. assert (Inv start) as Hs by apply start_Inv. induction H; [done|]. by eauto using step_Inv. Qed.
End access.

(** ** The destructor *)

Section destructor.
Context {V X : Type} `{HO : Owner V}.

Definition releases (ks : list (Z * Z)) : acts := rev (map (fun kv : Z * Z => ActKey kv.2 kv.1 false) ks).

Lemma release_keys_log ks (c : sconn X) log (v : V) : exists keys v',
  release_keys ks (c, (log, v)) = (Ok tt, (set_keys keys c, (releases ks ++ log, v'))).
Proof.
  revert c log v. induction ks as [|[i k] ks IH]; intros c log v; cbn [release_keys]; [by exists (c_keys c), v; destruct c|].
  unfold mbind, SE_bind, c_change, owner_do. cbn [fst snd o_keyEvent watched].
  destruct (IH (set_keys (delete i (c_keys c)) c) (ActKey k i false :: log) (o_keyEvent k i false v)) as (keys & v' & ->).
  exists keys, v'. unfold releases. cbn [map rev fst snd]. by rewrite <- app_assoc.
Qed.

Lemma held_releases ks log : held (releases ks ++ log) = held log ∖ list_to_set ks.*2.
Proof.
  revert log. induction ks as [|[i k] ks IH]; intros log; [cbn; set_solver|].
  unfold releases in *. cbn [map rev]. rewrite <- app_assoc. cbn [app]. rewrite IH. cbn. set_solver.
Qed.

Lemma lawful_releases reverse rights ks log : lawful reverse rights log ->
  (ks <> [] -> has_rights rights AccessKeyEvents = true /\ approved log = true) -> lawful reverse rights (releases ks ++ log).
Proof.
  revert log. induction ks as [|[i k] ks IH]; intros log Hl Hk; [done|]. destruct (Hk ltac:(done)) as [Hr Ha].
  unfold releases in *. cbn [map rev]. rewrite <- app_assoc. cbn [app]. apply IH; [cbn; auto|]. intros _. by split.
Qed.
End destructor.

(** ** Theorems *)

Section theorems.
Context {V X : Type} `{HS : ServerSecEnv V X} `{HO : Owner V} (moves : V -> V -> Prop) (v0 : V).
Context (enabled : list Z) (defaultMinorVersion maxCutText : Z) (inflate : list Z -> zseg) (deflate : list Z -> list Z)
  (reverse : bool) (ar : Z).

(** What a client does at the server. *)
Definition is_input (a : act) : bool :=
  match a with ActKey _ _ _ | ActPointer | ActClipboard | ActResize => true | _ => false end.

(** Every type that is enabled asks for the password, directly. *)
Definition password_only : Prop := forall t ks,
  t ∈ GetEnabledSecTypes enabled \/ t ∈ GetEnabledExtSecTypes enabled -> asks t = Some ks -> ks = [KVncAuth].

(** C15: whatever a client sends, in whatever pieces, and whatever the timers,
    the user and the other connections do meanwhile: the server does nothing for
    it before the query has been answered with yes, and then only what the
    connection's rights permit; and as soon as it has done anything but hear
    bytes and ask, a security object of a type the server has enabled had
    checked what its type demands, on bytes the client had sent by then, and the
    rights are those of the socket and of that object. *)
Theorem access_is_earned c log v :
  rtc (step (HS := HS) (HO := HO) moves enabled defaultMinorVersion maxCutText inflate deflate)
    (start v0 defaultMinorVersion reverse ar) (c, (log, v)) ->
  lawful reverse (c_rights c) log /\
  (forallb harmless log = true \/
   exists now s, now.2.1 `suffix_of` log /\
     security_checked (V := acts * V) enabled (history moves enabled) (beginning v0) now s /\
     c_rights c = Z.land ar (getAccessRights s)).
Proof.
  intros H. destruct (reachable_Inv _ _ _ _ _ _ _ _ _ _ H) as [[_ Hl _ _ [Hg|Hg]] _]; [by auto|]. split; [done|].
  right. destruct Hg as (log0 & s & Hs & now & <- & ? & ?). by exists now, s.
Qed.

Lemma lawful_permitted rev rights log a : lawful rev rights log -> a ∈ log -> permitted rev rights a.
Proof.
  induction log as [|b log IH]; [intros _ H; by apply not_elem_of_nil in H|].
  intros (Hl & Hp & _) [->|Hin]%list.elem_of_cons; [done|by apply IH].
Qed.

(** An input is beyond watching. *)
Lemma input_rights rev a b c : is_input a = true -> permitted rev (Z.land b c) a -> c <> AccessView.
Proof.
  intros Ha Hp ->. destruct a; try done; cbn in Hp; rewrite has_rights_land in Hp; by apply andb_true_iff in Hp as [_ Hp].
Qed.

Lemma password_only_no_ext : password_only -> ~ ext_asked enabled.
Proof. intros H (t & ks & Ht & Ha & Hin). rewrite (H t ks Ht Ha) in Hin. by apply list_elem_of_singleton in Hin. Qed.

Lemma password_only_checked now s : password_only -> security_checked (V := acts * V) enabled (history moves enabled) (beginning v0) now s ->
  exists a r, vncauth_checked (V := acts * V) (history moves enabled) (beginning v0) now a /\
    getAccessRights s = Z.land r (va_rights a) /\ (r = AccessFull \/ r = va_rights a).
Proof.
  intros Hp Hs.
  assert (exists m t, (t ∈ GetEnabledSecTypes enabled \/ t ∈ GetEnabledExtSecTypes enabled) /\ is_for t m /\
    method_checked (V := acts * V) (history moves enabled) (beginning v0) now m /\ getAccessRights s = method_getAccessRights m)
    as (m & t & Ht & Hfor & Hm & ->).
  { destruct s as [m|s]; cbn in Hs; [destruct Hs as [(t & ? & ?) ?]; exists m, t; auto|].
    destruct Hs as (m & t & E & ? & ? & ?). exists m, t. cbn. rewrite E. auto. }
  specialize (Hp t _ Ht Hfor). destruct m as [t' [|a| |]|t' st [|a| |] [b|]]; try done; cbn in *.
  - exists a, (va_rights a). split; [done|]. split; [by rewrite Z.land_diag|by right].
  - exists a, AccessFull. destruct Hm. auto.
Qed.

(** C16: a server that only lets in who knows the password: before a client has
    touched its keyboard, pointer, clipboard or size, the bytes it has sent
    contain the answer that the full password gives to a challenge from the
    source of random data. *)
Theorem input_needs_password c log v a : password_only ->
  rtc (step (HS := HS) (HO := HO) moves enabled defaultMinorVersion maxCutText inflate deflate)
    (start v0 defaultMinorVersion reverse ar) (c, (log, v)) ->
  a ∈ log -> is_input a = true ->
  exists s1 s2 challenge before after,
    history (HS := HS) moves enabled (beginning v0) s1 /\ s1.2.1 `suffix_of` log /\
    history moves enabled (beginning v0) s2 /\ s2.2.1 `suffix_of` log /\
    (random_data vncAuthChallengeSize s1.2.2).1 = Some challenge /\
    let passwd := (getVncAuthPasswd s2.2.2).1 in
    passwd <> [] /\ arrivals log = before ++ vnc_response word passwd challenge ++ after.
Proof.
  intros Hp Hreach Ha Hin.
  destruct (reachable_Inv _ _ _ _ _ _ _ _ _ _ Hreach) as [[_ Hl _ _ [Hg|Hg]] _]; cbn [fst snd] in *.
  { rewrite forallb_forall in Hg. specialize (Hg a). rewrite <- list_elem_of_In in Hg. specialize (Hg Ha). by destruct a. }
  destruct Hg as (log0 & s & Hs & now & <- & Hc & Hr).
  destruct (password_only_checked _ _ Hp Hc) as (va & r & (Hsent & Hread & s2 & Hp2 & Hpw) & Hrights & Hfull).
  assert (va_rights va <> AccessView) as Hview.
  { eapply (input_rights reverse a (Z.land ar r)); [done|]. rewrite <- Z.land_assoc, <- Hrights, <- Hr. by eapply lawful_permitted. }
  destruct Hsent as ([l1 [log1 v1]] & [Hh1 Hh1'] & Hrand). destruct s2 as [l2 [log2 v2]]. destruct Hp2 as [Hh2 Hh2'].
  destruct Hread as (s3 & [Hh3 Hh3'] & rest & Hrest).
  assert (l_in s3.1 `suffix_of` arrivals s3.2.1) as [before Hb].
  { eapply history_input; [by apply password_only_no_ext|exact Hh3|done]. }
  assert (exists after, arrivals log = arrivals s3.2.1 ++ after) as [after Hafter].
  { apply history_log in Hh3'. assert (s3.2.1 `suffix_of` log) as [k ->] by by etrans.
    clear. induction k as [|[] k IH]; cbn; try done; [exists []; by rewrite app_nil_r|]. destruct IH as [after ->].
    eexists. by rewrite <- app_assoc. }
  exists (l1, (log1, v1)), (l2, (log2, v2)), (va_challenge va), before, (rest ++ after).
  apply history_log in Hh1', Hh2'. cbn [fst snd] in *.
  assert ((random_data vncAuthChallengeSize v1).1 = Some (va_challenge va)) as Hrand'.
  { cbn in Hrand. by destruct (random_data vncAuthChallengeSize v1). }
  do 2 (split; [done|]; split; [by etrans|]). split; [done|]. cbv zeta.
  change (getVncAuthPasswd (log2, v2)) with (getVncAuthPasswd v2) in Hpw. destruct (getVncAuthPasswd v2) as [passwd ro]. cbn [fst].
  destruct Hpw as [Hne [[Hresp _]|(_ & _ & Hw)]]; [|done]. split; [done|].
  change (@word (acts * V) X watched_env) with (@word V X HS) in Hresp. by rewrite Hafter, Hb, Hrest, Hresp, <- !app_assoc.
Qed.

(** C17: the server never is left with a key down: what is down at the server is
    known to the connection at all times, and when the connection is destroyed,
    whatever its state, every such key is released, for a client that was
    permitted to press it. *)
Theorem keys_are_released c log v :
  rtc (step (HS := HS) (HO := HO) moves enabled defaultMinorVersion maxCutText inflate deflate)
    (start v0 defaultMinorVersion reverse ar) (c, (log, v)) ->
  (forall k, k ∈ held log -> exists i, c_keys c !! i = Some k) /\
  exists c' log' v', destroy (c, (log, v)) = (Ok tt, (c', (log', v'))) /\ held log' = ∅ /\ lawful reverse (c_rights c) log'.
Proof.
  intros Hreach. destruct (reachable_Inv _ _ _ _ _ _ _ _ _ _ Hreach) as [[_ Hl Hh Hk _] _]. cbn [fst snd] in *. split; [done|].
  unfold destroy, mbind, SE_bind, c_get. cbn [fst snd].
  destruct (release_keys_log (keys_in_order (c_keys c)) c log v) as (keys & v' & ->).
  do 3 eexists. split; [done|]. split.
  - rewrite held_releases. apply set_eq. intros k. rewrite elem_of_difference, elem_of_empty. split; [|done].
    intros [Hin Hout]. apply Hout. destruct (Hh k Hin) as [i Hi]. rewrite elem_of_list_to_set. apply list_elem_of_fmap.
    exists (i, k). split; [done|]. unfold keys_in_order. rewrite merge_sort_Permutation. by apply elem_of_map_to_list.
  - apply lawful_releases; [done|]. intros Hne. apply Hk. intros E. apply Hne. unfold keys_in_order. by rewrite E, map_to_list_empty.
Qed.
End theorems.

(** ** A run *)

Section sample.
Abbreviation world := (sconn unit * (acts * unit))%type.
Abbreviation sample_step := (step (HS := sample_env) (HO := sample_owner) (fun _ _ => False) [secTypeVncAuth] 8 1000 stored (fun z => z)).
Abbreviation sample_start := (start (V := unit) (X := unit) tt 8 false AccessFull).
#[local] Existing Instance sample_env.
#[local] Existing Instance sample_owner.

(** Bytes arrive and are processed. *)
Definition sample_event (w : world) (bs : list Z) : res unit * world :=
  let '(c, (log, v)) := w in
  processSocketReadEvent (V := acts * unit) [secTypeVncAuth] 8 1000 stored
    (set_link (set_in (l_in (c_link c) ++ bs) (c_link c)) c, (ActArrived bs :: log, v)).
Definition sample_receive (w : world) (bs : list Z) : world := (sample_event w bs).2.
Definition sample_run (bss : list (list Z)) : world := fold_left sample_receive bss (init (V := acts * unit) 8 sample_start).2.
(** All of them are processed without a hitch. *)
Fixpoint sample_goes (w : world) (bss : list (list Z)) : bool :=
  match bss with
  | [] => true
  | bs :: bss => match (sample_event w bs).1 with Ok _ => sample_goes (sample_receive w bs) bss | Throw _ => false end
  end.

Lemma sample_run_steps bss : sample_goes (init (V := acts * unit) 8 sample_start).2 bss = true ->
  rtc sample_step sample_start (sample_run bss).
Proof.
  unfold sample_run. intros H. eapply rtc_l; [by apply step_init|]. revert H. generalize (init (V := acts * unit) 8 sample_start).2.
  induction bss as [|bs bss IH]; intros w Hg; cbn [fold_left sample_goes] in *; [done|].
  destruct (sample_event w bs).1 as [u|e] eqn:He; [|done]. etrans; [|by apply IH].
  destruct w as [c [log v]]. eapply rtc_l; [apply step_arrive|]. apply rtc_once.
  unfold sample_receive. cbn [sample_event] in *. apply step_event; [apply event_read|]. by rewrite He.
Qed.

Definition sample_session : world := sample_run [sample_version; [secTypeVncAuth]; sample_response; [1]; sample_key].

Example sample_ready : c_state sample_session.1 = RFBSTATE_NORMAL /\ existsb is_input sample_session.2.1 = true.
Proof. vm_compute. split; reflexivity. Qed.

Lemma existsb_elem {A} (f : A -> bool) l : existsb f l = true -> exists a, a ∈ l /\ f a = true.
Proof. intros H. apply existsb_exists in H as (a & Ha & Hi). exists a. by rewrite list_elem_of_In. Qed.

Lemma sample_input : exists a, a ∈ sample_session.2.1 /\ is_input a = true.
Proof. exact (existsb_elem _ _ (proj2 sample_ready)). Qed.

(** A session is its parts. *)
Lemma sample_parts (w : world) : rtc sample_step sample_start w -> rtc sample_step sample_start (w.1, (w.2.1, w.2.2)).
Proof. by destruct w as [c [log v]]. Qed.

Lemma sample_session_reached : rtc sample_step sample_start (sample_session.1, (sample_session.2.1, sample_session.2.2)).
Proof.
  apply sample_parts, sample_run_steps. vm_compute. reflexivity.
Qed.

Lemma sample_password_only : password_only (V := unit) (X := unit) [secTypeVncAuth].
Proof.
  intros t ks [Ht|Ht] Ha; (assert (t = secTypeVncAuth) as -> by (vm_compute in Ht; apply list_elem_of_singleton in Ht; exact Ht));
    by injection Ha as <-.
Qed.

Lemma access_is_earned_witness : lawful false (c_rights sample_session.1) sample_session.2.1 /\
  (forallb harmless sample_session.2.1 = true \/
   exists now s, now.2.1 `suffix_of` sample_session.2.1 /\
     security_checked (V := acts * unit) [secTypeVncAuth] (history (V := unit) (X := unit) (fun _ _ => False) [secTypeVncAuth]) (beginning tt) now s /\
     c_rights sample_session.1 = Z.land AccessFull (getAccessRights s)).
Proof.
  apply (access_is_earned (fun _ _ => False) tt [secTypeVncAuth] 8 1000 stored (fun z => z) false AccessFull
    sample_session.1 sample_session.2.1 sample_session.2.2). exact sample_session_reached.
Defined.

Lemma input_needs_password_witness : exists s1 s2 challenge before after,
  history (V := unit) (X := unit) (fun _ _ => False) [secTypeVncAuth] (beginning tt) s1 /\ s1.2.1 `suffix_of` sample_session.2.1 /\
  history (V := unit) (X := unit) (fun _ _ => False) [secTypeVncAuth] (beginning tt) s2 /\ s2.2.1 `suffix_of` sample_session.2.1 /\
  (random_data vncAuthChallengeSize s1.2.2).1 = Some challenge /\
  let passwd := (getVncAuthPasswd s2.2.2).1 in
  passwd <> [] /\ arrivals sample_session.2.1 = before ++ vnc_response word passwd challenge ++ after.
Proof.
  destruct sample_input as (a & Ha & Hi).
  apply (input_needs_password (fun _ _ => False) tt [secTypeVncAuth] 8 1000 stored (fun z => z) false AccessFull
    sample_session.1 sample_session.2.1 sample_session.2.2 a); [exact sample_password_only| |exact Ha|exact Hi].
  exact sample_session_reached.
Defined.

Lemma keys_are_released_witness :
  (forall k, k ∈ held sample_session.2.1 -> exists i, c_keys sample_session.1 !! i = Some k) /\
  exists c' log' v', destroy (sample_session.1, (sample_session.2.1, sample_session.2.2)) = (Ok tt, (c', (log', v'))) /\
    held log' = ∅ /\ lawful false (c_rights sample_session.1) log'.
Proof.
  apply (keys_are_released (fun _ _ => False) tt [secTypeVncAuth] 8 1000 stored (fun z => z) false AccessFull).
  exact sample_session_reached.
Defined.
End sample.
