(* ===== verification/ServerLoop.v ===== *)
(** * The message loop of a connection ends, and failures are answered late

    [processSocketReadEvent] runs [processMsg] until it asks for more: [loops] is
    that loop without fuel, and the fuel the definition has is always enough.
    A failed authentication: nothing is said until the timer, whatever the
    client sends, and then the result, the reason and the end. *)
From stdpp Require Import base gmap list numbers strings option sorting.
From S2P Require Import Prelude InStream OutStream Strings PixelFmt Geometry Screens Params Clipboard ClientMsgs ServerWriter D3des Security Link SSecurity SConnection.
#[local] Open Scope Z_scope.

(** ** What a computation leaves as it was *)

Section calm.
Context {V X : Type} (R : sconn X -> sconn X -> Prop) `{Hpre : !PreOrder R}.
Context (Hlink : forall c l, l_in l = l_in (c_link c) -> R c (set_link l c)).
Abbreviation M := (SE (sconn X * V)).

Definition calm {A} (m : M A) : Prop := forall w, R w.1 (m w).2.1.

Lemma calm_ret {A} (a : A) : calm (mret a).
Proof. by intros w. Qed.
Lemma calm_throw {A} e : calm (A := A) (st_throw e).
Proof. by intros w. Qed.
Lemma calm_bind {A B} (m : M A) (f : A -> M B) : calm m -> (forall a, calm (f a)) -> calm (m ≫= f).
Proof.
  intros Hm Hf w. specialize (Hm w). unfold mbind, SE_bind. destruct (m w) as [[a|e] w']; [|done].
  cbn in Hm. specialize (Hf a w'). by etrans.
Qed.
Lemma calm_get : calm c_get.
Proof. by intros w. Qed.
Lemma calm_outside : calm outside.
Proof. by intros w. Qed.
Lemma calm_change f : (forall c, R c (f c)) -> calm (c_change f).
Proof. intros Hf w. apply Hf. Qed.
Lemma calm_do f : calm (owner_do f).
Proof. by intros w. Qed.
Lemma calm_ask {A} (f : V -> A * V) : calm (owner_ask f).
Proof. intros w. unfold owner_ask. by destruct (f w.2). Qed.
Lemma calm_try {A} (f : V -> res A * V) : calm (owner_try f).
Proof. intros w. unfold owner_try. by destruct (f w.2). Qed.
Lemma calm_on_link {A} (m : SE (link * V) A) : (forall s, l_in (m s).2.1 = l_in s.1) -> calm (on_link m).
Proof.
  intros Hm w. unfold on_link. specialize (Hm (c_link w.1, w.2)). destruct (m _) as [r [l v]]. by apply Hlink.
Qed.
Lemma calm_or_close (m : M unit) : calm m -> (forall reason, calm (close (X := X) (V := V) reason)) -> calm (or_close m).
Proof.
  intros Hm Hc w. specialize (Hm w). unfold or_close. destruct (m w) as [[[]|e] w']; [done|].
  cbn in Hm. specialize (Hc (what e) w'). destruct e; first [done|by etrans].
Qed.
End calm.

(** Goes through a computation. *)
Ltac calm_step := match goal with
  | |- calm _ (mret _) => apply calm_ret; apply _
  | |- calm _ (st_throw _) => apply calm_throw; apply _
  | |- calm _ (_ ≫= _) => apply calm_bind; [apply _| |intros ?]
  | |- calm _ c_get => apply calm_get; apply _
  | |- calm _ outside => apply calm_outside; apply _
  | |- calm _ (c_change _) => apply calm_change; by intros []
  | |- calm _ (change_clip _) => apply calm_change; by intros []
  | |- calm _ (owner_do _) => apply calm_do; apply _
  | |- calm _ (owner_ask _) => apply calm_ask; apply _
  | |- calm _ (owner_try _) => apply calm_try; apply _
  | |- calm _ (on_link _) => apply calm_on_link; [by intros []|by intros []]
  | |- calm _ (if _ then _ else _) => case_match
  | |- calm _ (match ?x with _ => _ end) => destruct x
  | |- calm _ (let _ := _ in _) => cbv zeta
  end.

(** *** The unread input *)

Definition same_in {X} (c c' : sconn X) : Prop := l_in (c_link c') = l_in (c_link c).
#[local] Instance same_in_pre {X} : PreOrder (@same_in X).
Proof. split; [done|]. unfold same_in. intros ???. by etrans. Qed.

(** And the state, and where the reader is in its message. *)
Definition same {X} (c c' : sconn X) : Prop :=
  l_in (c_link c') = l_in (c_link c) /\ c_state c' = c_state c /\ option_map rw_reader (c_rw c') = option_map rw_reader (c_rw c).
#[local] Instance same_pre {X} : PreOrder (@same X).
Proof. split; [done|]. unfold same. intros c1 c2 c3 (->&->&->) (->&->&->). done. Qed.

Section handlers.
Context {V X : Type} `{HS : ServerSecEnv V X} `{HO : Owner V}.
Context (enabled : list Z) (defaultMinorVersion maxCutText : Z) (inflate : list Z -> zseg) (deflate : list Z -> list Z).
Abbreviation M := (SE (sconn X * V)).

Lemma calm_close reason : calm same_in (close (X := X) (V := V) reason).
Proof. unfold close, cleanup. repeat calm_step. Qed.

Lemma calm_desktopReady : calm same_in (desktopReady (V := V) (X := X)).
Proof. unfold desktopReady. repeat calm_step. Qed.

Lemma calm_clientInit shared : calm same_in (clientInit (V := V) (X := X) shared).
Proof.
  unfold clientInit, clientReady, accessCheck. repeat calm_step; first [apply calm_close|apply calm_desktopReady].
Qed.

Lemma calm_queryConnection user : calm same_in (queryConnection (V := V) (X := X) user).
Proof.
  unfold queryConnection, accessCheck. repeat calm_step.
  1,2: apply calm_or_close; [apply _| |apply calm_close]; unfold approveConnection; repeat calm_step.
Qed.

(** A call of the writer leaves the reader alone. *)
Lemma calm_write w : calm same (write (V := V) (X := X) w).
Proof.
  intros [c v]. unfold write, mbind, SE_bind, c_get. cbn [fst snd]. destruct (c_rw c) as [r|] eqn:Hr; [|done].
  destruct (w _ _) as [[wr bs]|e]; [|done]. unfold c_change, on_link. cbn. unfold same. cbn. by rewrite Hr.
Qed.

Lemma calm_handle ev : calm same (handle (V := V) (X := X) ev).
Proof.
  destruct ev; cbn [handle];
    unfold keyEvent, pointerEvent, setDesktopSize, clientCutText, handleClipboardCaps, handleClipboardRequest, handleClipboardPeek,
      handleClipboardNotify, handleClipboardProvide, picture, accessCheck, sync_locks, fake_lock, press_or_release;
    repeat first [calm_step|apply calm_write].
Qed.

Lemma calm_handle_all evs : calm same (handle_all (V := V) (X := X) evs).
Proof. induction evs as [|ev evs IH]; cbn [handle_all]; repeat calm_step; [apply calm_handle|done]. Qed.
End handlers.

(** ** Readers *)

Section readers.

(** Where no more data will come, a reader that returns has done what it does
    elsewhere. *)
Lemma arun_at_end {E A} (p : prog E A) s r : arun (at_end p) s = Ok r -> arun p s = Ok r.
Proof.
  revert s r. induction p as [a|e|n k IH|k IH|k IH|k IH|n k IH|ev k IH]; intros [d rp c] r; cbn [at_end arun]; try done.
  - destruct (n <=? len d); [apply IH|done].
  - destruct rp; [done|apply IH].
  - destruct rp; [apply IH|done].
  - destruct rp; [apply IH|done].
  - destruct (c <? n); [done|]. destruct (len d <? n); [done|apply IH].
  - destruct (arun (at_end k) _) as [[x evs]|e] eqn:Hk; [|done]. by rewrite (IH _ _ Hk).
Qed.

Lemma outcome_at_end {E A} (eof : bool) (p : prog E A) d r :
  outcome (if eof then at_end p else p) d = Ok r -> outcome p d = Ok r.
Proof.
  destruct eof; [|done]. unfold outcome. destruct (arun (at_end p) (fresh d)) as [[[a [d' rp c]] evs]|e] eqn:Hp; [|done].
  by rewrite (arun_at_end _ _ _ Hp).
Qed.

Lemma readClientInit_takes (eof : bool) d ok d' evs : outcome (if eof then at_end ClientMsgs.readClientInit else ClientMsgs.readClientInit) d = Ok (ok, d', evs) ->
  d' = drop 1 d /\ (ok = true -> d <> []).
Proof.
  intros H. apply outcome_at_end in H. revert H. destruct d as [|b d]; [by intros [= <- <- <-]|].
  unfold outcome, fresh, ClientMsgs.readClientInit. prog_simpl. rewrite arun_has_enough by llia.
  rewrite (arun_take_app _ 1 _ [b] d) by llia. cbn. by intros [= <- <- <-].
Qed.

Lemma readMsg_takes maxCutText inflate (eof : bool) r d r' d' evs :
  bytes d ->
  outcome (if eof then at_end (ClientMsgs.readMsg maxCutText inflate r) else ClientMsgs.readMsg maxCutText inflate r) d = Ok ((true, r'), d', evs) ->
  bytes d' /\ (length d' <= length d)%nat /\ (mu r' + length d' < mu r + length d)%nat.
Proof.
  intros Hb H. apply outcome_at_end in H.
  destruct (shape_outcome (P := hanging) _ _ _ _ (readMsg_shape maxCutText inflate (hang_hanging inflate) r) d (good_bytes d Hb))
    as [(l' & used & rest & ev & _ & Hmu & -> & Hd)|[(l' & used & rest & ev & _ & -> & Hd & _)|Hd]].
  - specialize (Hd [] ltac:(constructor)). rewrite !app_nil_r in Hd. rewrite Hd in H. injection H as -> -> ->.
    apply bytes_app in Hb as [_ Hb]. rewrite length_app in *. split; [done|lia].
  - by rewrite Hd in H.
  - destruct (Hd [] ltac:(constructor)) as (e & _ & Hd'). rewrite app_nil_r in Hd'. by rewrite Hd' in H.
Qed.

(** A reader is caught in data it has read, and at the end of the data in the
    same as elsewhere. *)
Lemma arun_at_end_throws {E A} (p : prog E A) s e : arun (at_end p) s = Throw e -> e = end_of_stream \/ arun p s = Throw e.
Proof.
  revert s. induction p as [a|e0|n k IH|k IH|k IH|k IH|n k IH|ev k IH]; intros [d rp c]; cbn [at_end arun]; try by auto.
  - destruct (n <=? len d); [apply IH|]. intros [= <-]. by left.
  - destruct rp; [by auto|apply IH].
  - destruct rp; [apply IH|by auto].
  - destruct rp; [apply IH|by auto].
  - destruct (c <? n); [by auto|]. destruct (len d <? n); [by auto|apply IH].
  - destruct (arun (at_end k) _) as [[x evs]|e'] eqn:Hk; [done|]. intros [= <-].
    destruct (IH _ Hk) as [He|H]; [subst; by left|right]. by rewrite H.
Qed.

Lemma readMsg_caught maxCutText inflate (eof : bool) r d z : bytes d ->
  outcome (if eof then at_end (ClientMsgs.readMsg maxCutText inflate r) else ClientMsgs.readMsg maxCutText inflate r) d = Throw (endless z) ->
  (exists before after, d = before ++ z ++ after) /\ stops inflate z.
Proof.
  intros Hb H. assert (outcome (ClientMsgs.readMsg maxCutText inflate r) d = Throw (endless z)) as Ho.
  { destruct eof; [|exact H]. unfold outcome in *.
    destruct (arun (at_end _) (fresh d)) as [[[a [d' [rp|] c]] evs]|e] eqn:Hp; try done. injection H as ->.
    by destruct (arun_at_end_throws _ _ _ Hp) as [| ->]. }
  destruct (shape_outcome (P := watched d (stops inflate)) _ _ _ _ (readMsg_shape maxCutText inflate (hang_watched inflate d) r)
    d (good_watched d _ Hb)) as [(l' & used & rest & ev & _ & _ & -> & Hd)|[(l' & used & rest & ev & _ & -> & Hd & _)|Hd]].
  - specialize (Hd [] ltac:(constructor)). rewrite !app_nil_r in Hd. by rewrite Hd in Ho.
  - by rewrite Hd in Ho.
  - destruct (Hd [] ltac:(constructor)) as (e & He & Hd'). rewrite app_nil_r, Ho in Hd'. injection Hd' as <-.
    destruct He as [He|(z1 & Heq & Hin & Hs)]; [done|]. by injection Heq as <-.
Qed.
End readers.

(** ** The loop *)

Section loop.
Context {V X : Type} `{HS : ServerSecEnv V X} `{HO : Owner V}.
Context (enabled : list Z) (defaultMinorVersion maxCutText : Z) (inflate : list Z -> zseg).
Abbreviation world := (sconn X * V)%type.
Abbreviation processMsg := (processMsg enabled defaultMinorVersion maxCutText inflate).
Abbreviation message_loop := (message_loop enabled defaultMinorVersion maxCutText inflate).

(** A message the reader does not come back from. *)
Definition caught (w : world) (z : list Z) : Prop :=
  c_state w.1 = RFBSTATE_NORMAL /\ exists r, c_rw w.1 = Some r /\
  (is_run (ClientMsgs.readMsg maxCutText inflate (SReader (rw_reader r).1 (rw_reader r).2 (c_client w.1))) (c_link w.1, w.2)).1 =
    Throw (endless z).

(** [while (processMsg());], without fuel: how it ends, if it does. *)
Inductive loops : world -> res unit * world -> Prop :=
| loops_stop w w' : processMsg w = (Ok false, w') -> loops w (Ok tt, w')
| loops_throw w e w' : processMsg w = (Throw e, w') -> (forall z, ~ caught w z) -> loops w (Throw e, w')
| loops_more w w' r : processMsg w = (Ok true, w') -> loops w' r -> loops w r.

(** One round of it. *)
Definition round (w w' : world) : Prop := processMsg w = (Ok true, w').

(** The methods of the libraries give no more than they were given: what they
    decrypt is shorter than what came. *)
Definition ext_shrinks : Prop := forall x (s : link * V), bytes (l_in s.1) ->
  bytes (l_in (ext_processMsg x s).2.1) /\ (length (l_in (ext_processMsg x s).2.1) <= length (l_in s.1))%nat.
Context (Hext : ext_shrinks).

(** What brings the loop nearer to its end. *)
Definition phase_left (c : sconn X) : nat :=
  match c_state c with
  | RFBSTATE_SECURITY => 1
  | RFBSTATE_NORMAL => match c_rw c with Some r => match (rw_reader r).1 with MSGSTATE_IDLE => 0 | MSGSTATE_MESSAGE => 1 end | None => 0 end
  | _ => 0
  end.
Definition left_to_do (c : sconn X) : nat := 2 * length (l_in (c_link c)) + phase_left c.

Definition shrinks (l l' : link) : Prop := bytes (l_in l) -> bytes (l_in l') /\ (length (l_in l') <= length (l_in l))%nat.
Lemma shrinks_refl l : shrinks l l.
Proof. by intros ?. Qed.
Lemma shrinks_trans l1 l2 l3 : shrinks l1 l2 -> shrinks l2 l3 -> shrinks l1 l3.
Proof. intros H1 H2 Hb. destruct (H1 Hb) as [Hb2 ?]. destruct (H2 Hb2). split; [done|lia]. Qed.

(** Computations on the link that only take. *)
Definition takes {A} (m : SE (link * V) A) : Prop := forall s, shrinks s.1 (m s).2.1.
Lemma takes_ret {A} (a : A) : takes (mret a).
Proof. intros s. apply shrinks_refl. Qed.
Lemma takes_throw {A} e : takes (A := A) (st_throw e).
Proof. intros s. apply shrinks_refl. Qed.
Lemma takes_bind {A B} (m : SE (link * V) A) (f : A -> SE (link * V) B) : takes m -> (forall a, takes (f a)) -> takes (m ≫= f).
Proof.
  intros Hm Hf s. specialize (Hm s). unfold mbind, SE_bind. destruct (m s) as [[a|e] s']; [|done].
  eapply shrinks_trans; [exact Hm|apply Hf].
Qed.
Lemma takes_change f : (forall l, l_in (f l) = l_in l) -> takes (l_change f).
Proof. intros Hf s. unfold shrinks. cbn. by rewrite Hf. Qed.
Lemma takes_hasData n : takes (is_hasData n).
Proof. intros s. unfold is_hasData, mbind, SE_bind, l_get. destruct (n <=? _); [|destruct (l_eof s.1)]; apply shrinks_refl. Qed.
Lemma takes_readBytes n : takes (is_readBytes n).
Proof.
  intros s. unfold is_readBytes, mbind, SE_bind, l_get. destruct (_ <? _); [apply shrinks_refl|]. cbn. intros Hb.
  split; [by apply bytes_zdrop|]. cbn. unfold zdrop. rewrite length_drop. lia.
Qed.
Lemma takes_ask {A} (f : V -> A * V) : takes (l_rest_op f).
Proof. intros s. unfold l_rest_op. destruct (f s.2). apply shrinks_refl. Qed.

Ltac takes_step := match goal with
  | |- takes (mret _) => apply takes_ret
  | |- takes (st_throw _) => apply takes_throw
  | |- takes (_ ≫= _) => apply takes_bind; [|intros ?]
  | |- takes (is_hasData _) => apply takes_hasData
  | |- takes (is_readBytes _) => apply takes_readBytes
  | |- takes (l_change _) => by apply takes_change
  | |- takes (os_writeBytes _) => by apply takes_change
  | |- takes (os_writeU8 _) => by apply takes_change
  | |- takes (os_writeU32 _) => by apply takes_change
  | |- takes os_flush => by apply takes_change
  | |- takes (l_rest_op _) => apply takes_ask
  | |- takes l_rest => intros ?; apply shrinks_refl
  | |- takes is_readU8 => unfold is_readU8
  | |- takes is_readU32 => unfold is_readU32
  | |- takes (if _ then _ else _) => case_match
  | |- takes (match ?x with _ => _ end) => destruct x
  | |- takes (let _ := _ in _) => cbv zeta
  end.

Lemma takes_basic b : takes (basic_processMsg b).
Proof.
  destruct b as [|a|p|x]; cbn [basic_processMsg].
  - apply takes_ret.
  - unfold vncauth_processMsg. repeat takes_step.
  - unfold plain_processMsg, plain_texts, validate. repeat takes_step.
  - takes_step; [intros s; exact (Hext x s)|takes_step].
Qed.
Lemma takes_method m : takes (method_processMsg m).
Proof. destruct m; cbn [method_processMsg]; unfold stack_part1; repeat first [apply takes_basic|takes_step]. Qed.
Lemma takes_choice s : takes (vencrypt_choice enabled s).
Proof. unfold vencrypt_choice. repeat first [apply takes_method|takes_step]. Qed.
Lemma takes_chosen s : takes (vencrypt_chosen enabled s).
Proof. unfold vencrypt_chosen. repeat first [apply takes_choice|apply takes_method|takes_step]. Qed.
Lemma takes_types s : takes (vencrypt_types enabled s).
Proof. unfold vencrypt_types. repeat first [apply takes_chosen|takes_step]. Qed.
Lemma takes_minor s : takes (vencrypt_minor enabled s).
Proof. unfold vencrypt_minor. repeat first [apply takes_types|takes_step]. Qed.
Lemma takes_major s : takes (vencrypt_major enabled s).
Proof. unfold vencrypt_major. repeat first [apply takes_minor|takes_step]. Qed.
Lemma takes_processMsg s : takes (SSecurity.processMsg enabled s).
Proof.
  destruct s as [m|s]; cbn [SSecurity.processMsg]; [|unfold vencrypt_processMsg];
    repeat first [apply takes_method|apply takes_major|takes_step].
Qed.

(** *** Each message brings the end nearer *)

(** The end of a computation that may have closed the connection. *)
Definition nearer (n : nat) (w : world) : Prop := bytes (l_in (c_link w.1)) /\ (left_to_do w.1 < n)%nat.

Lemma bind_true {A B} (m : SE world A) (f : A -> SE world B) w b w' : (m ≫= f) w = (Ok b, w') ->
  exists a w1, m w = (Ok a, w1) /\ f a w1 = (Ok b, w').
Proof. unfold mbind, SE_bind. destruct (m w) as [[a|e] w1]; [eauto|done]. Qed.

Lemma on_link_true {A} (m : SE (link * V) A) (w : world) a w1 : on_link m w = (Ok a, w1) ->
  exists l v, m (c_link w.1, w.2) = (Ok a, (l, v)) /\ w1 = (set_link l w.1, v).
Proof. unfold on_link. destruct (m _) as [r [l v]]. intros [= -> <-]. eauto. Qed.

Lemma hasData_true n (s s' : link * V) : is_hasData n s = (Ok true, s') -> s' = s /\ n <= len (l_in s.1).
Proof.
  unfold is_hasData, mbind, SE_bind, l_get. destruct (Z.leb_spec n (len (l_in s.1))); [by intros [= <-]|].
  by destruct (l_eof s.1).
Qed.

(** What a step of the handshake does to the input and the state. *)
Definition input_of (w : world) : list Z := l_in (c_link w.1).

Lemma calm_input {A} (m : SE world A) w r w' : calm same_in m -> m w = (r, w') -> input_of w' = input_of w.
Proof. intros Hm E. specialize (Hm w). rewrite E in Hm. exact Hm. Qed.

(** A step that has taken a byte at least. *)
Lemma nearer_taken w k c' : bytes (input_of w) -> 1 <= k -> 1 <= len (input_of w) ->
  l_in (c_link c') = zdrop k (input_of w) -> forall v, nearer (left_to_do w.1) (c', v).
Proof.
  intros Hb Hk Hl E v. unfold nearer, left_to_do. cbn [fst]. rewrite E. split; [by apply bytes_zdrop|].
  assert (phase_left c' <= 1)%nat by (unfold phase_left; repeat case_match; lia).
  assert (length (zdrop k (input_of w)) < length (input_of w))%nat; [|unfold input_of in *; lia].
  unfold zdrop. rewrite length_drop. unfold len in Hl. lia.
Qed.

Lemma takes_first n (f : list Z -> SE world bool) w w' :
  (forall bs, calm same_in (f bs)) -> 1 <= n -> bytes (input_of w) ->
  (ok ← on_link (is_hasData n); if negb ok then mret false else bs ← on_link (is_readBytes n); f bs) w = (Ok true, w') ->
  nearer (left_to_do w.1) w'.
Proof.
  intros Hf Hn Hb H. apply bind_true in H as (ok & w1 & H1 & H). apply on_link_true in H1 as (l & v & H1 & ->).
  destruct ok; [|done]. cbn [negb] in H. apply hasData_true in H1 as [[= -> ->] Hl]. cbn in Hl.
  apply bind_true in H as (bs & w2 & H2 & H). apply on_link_true in H2 as (l2 & v2 & H2 & ->).
  unfold is_readBytes, mbind, SE_bind, l_get in H2. cbn in H2. destruct (_ <? _); [done|]. cbn in H2. injection H2 as <- <- <-.
  destruct w' as [c' v']. eapply (nearer_taken w n); [done..|unfold input_of; lia|].
  apply (calm_input _ _ _ _ (Hf _)) in H. done.
Qed.

Lemma calm_fail {A} e message : calm same_in (failConnection (A := A) (V := V) (X := X) e message).
Proof. unfold failConnection. repeat calm_step. Qed.

Lemma version_nearer w w' : bytes (input_of w) -> processVersionMsg enabled defaultMinorVersion w = (Ok true, w') ->
  nearer (left_to_do w.1) w'.
Proof.
  intros Hb H. eapply (takes_first 12); [|done..|exact H]. intros verStr. cbv beta.
  destruct (scan_version verStr) as [[major minor]|]; repeat first [apply calm_fail|calm_step].
Qed.

Lemma security_type_nearer w w' : bytes (input_of w) -> processSecurityTypeMsg enabled w = (Ok true, w') ->
  nearer (left_to_do w.1) w'.
Proof.
  intros Hb H. eapply (takes_first 1 (fun bs => processSecurityType enabled (znth 0 bs 0);; mret true)); [|done..|].
  - intros bs. unfold processSecurityType. repeat first [apply calm_fail|calm_step].
  - rewrite <- H. unfold processSecurityTypeMsg, is_readU8, mbind, SE_bind, on_link. cbn [fst snd].
    destruct (is_hasData 1 _) as [[[]|] [l v]]; try done. cbn [negb fst snd].
    destruct (is_readBytes 1 _) as [[bs|] [l2 v2]]; done.
Qed.

Lemma failure_nearer w w' : bytes (input_of w) -> processSecurityFailure (V := V) (X := X) w = (Ok true, w') ->
  c_state w.1 = RFBSTATE_SECURITY_FAILURE -> nearer (left_to_do w.1) w'.
Proof.
  intros Hb H Hst. apply bind_true in H as (ok & w1 & H1 & H). apply on_link_true in H1 as (l & v & H1 & ->).
  destruct ok; [|done]. apply hasData_true in H1 as [[= -> ->] Hl]. cbn in Hl.
  injection H as <-. destruct w as [c v]. eapply (nearer_taken (c, v) (len (l_in (c_link c)))); [done|done|done|].
  cbn. unfold input_of. cbn. by rewrite zdrop_all.
Qed.

Lemma init_nearer w w' : bytes (input_of w) -> processInitMsg (V := V) (X := X) w = (Ok true, w') -> nearer (left_to_do w.1) w'.
Proof.
  intros Hb H. apply bind_true in H as ([ok evs] & w1 & H1 & H). apply on_link_true in H1 as (l & v & H1 & ->).
  cbn [fst snd] in H. destruct ok; [|done]. cbn [negb] in H. destruct w as [c v0].
  unfold is_run, mbind, SE_bind, l_get in H1. cbn [fst snd] in H1.
  destruct (outcome _ _) as [[[ok' d'] evs']|e] eqn:Ho; [|done]. cbn in H1. injection H1 as -> -> <- <-.
  apply readClientInit_takes in Ho as [-> Hne]. specialize (Hne eq_refl). destruct w' as [c' v'].
  eapply (nearer_taken (c, v0) 1); [done|done| |].
  - unfold input_of. cbn. destruct (l_in (c_link c)); [done|llia].
  - etrans; [refine (calm_input _ _ _ _ _ H)|done]. repeat first [apply calm_clientInit|calm_step].
Qed.

Lemma security_nearer w w' : bytes (input_of w) -> processSecurityMsg enabled w = (Ok true, w') ->
  c_state w.1 = RFBSTATE_SECURITY -> nearer (left_to_do w.1) w'.
Proof.
  intros Hb H Hst. destruct w as [c v]. cbn in Hst, Hb.
  assert (Hrun : shrinks (c_link c) (c_link (run_security enabled (c, v)).2.1)).
  { unfold run_security, mbind, SE_bind, c_get, on_link, c_change. cbn [fst snd]. destruct (c_ssecurity c) as [s|]; [|apply shrinks_refl].
    pose proof (takes_processMsg s (c_link c, v)) as Ht. cbn [fst snd] in *.
    by destruct (SSecurity.processMsg enabled s (c_link c, v)) as [[[b s']|e] [l v']]. }
  specialize (Hrun Hb) as [Hb1 Hl1]. unfold processSecurityMsg in H.
  destruct (run_security enabled (c, v)) as [[[]|e] [c1 v1]]; cbn [fst snd] in *; [|done|].
  - assert (input_of w' = l_in (c_link c1)) as Hin.
    { etrans; [refine (calm_input _ _ _ _ _ H)|done]. unfold security_done. repeat first [apply calm_queryConnection|calm_step]. }
    assert (c_state w'.1 = RFBSTATE_INITIALISATION) as Hst'.
    { unfold security_done in H. apply bind_true in H as (? & w2 & _ & H). apply bind_true in H as (c3 & w3 & _ & H).
      destruct (c_ssecurity c3); [|done]. apply bind_true in H as (? & w4 & _ & H). apply bind_true in H as (? & w5 & _ & H).
      unfold mbind, SE_bind, c_get in H. cbn in H. injection H as H <-. by apply bool_decide_eq_true in H. }
    unfold nearer, left_to_do, phase_left. unfold input_of in Hin. rewrite Hin, Hst', Hst. split; [done|]. cbn. lia.
  - destruct e; try done. injection H as <-. unfold nearer, left_to_do, phase_left. cbn. rewrite Hst. split; [done|]. lia.
Qed.

Lemma normal_nearer w w' : bytes (input_of w) -> readMsg maxCutText inflate w = (Ok true, w') ->
  c_state w.1 = RFBSTATE_NORMAL -> nearer (left_to_do w.1) w'.
Proof.
  intros Hb H Hst. destruct w as [c v]. unfold input_of in *. cbn [fst snd] in *. unfold readMsg in H.
  apply bind_true in H as (c0 & w1 & H1 & H). injection H1 as <- <-. cbn [fst snd] in H. destruct (c_rw c) as [r|] eqn:Hrw; [|done].
  destruct (rw_reader r) as [st t] eqn:Hr. apply bind_true in H as ([[ok r'] evs] & w2 & H2 & H).
  apply on_link_true in H2 as (l & v2 & H2 & ->). unfold is_run, mbind, SE_bind, l_get in H2. cbn [fst snd] in H2.
  destruct (outcome _ _) as [[[[ok' r''] d'] evs']|e] eqn:Ho; [|done]. cbn in H2. injection H2 as -> -> -> <- <-.
  apply bind_true in H as ([] & w3 & H3 & H). injection H3 as <-.
  apply bind_true in H as ([] & w4 & H4 & H). injection H as -> ->.
  pose proof (calm_handle_all evs (set_client (sr_client r') (set_rw (Some (RW (sr_state r', sr_currentMsgType r') (rw_writer r)))
    (set_link (set_in d' (c_link c)) c)), v)) as Hc. cbn [fst snd] in *. rewrite H4 in Hc. cbn [fst snd] in Hc.
  destruct Hc as (E1 & E2 & E3). apply readMsg_takes in Ho as (Hb' & Hle & Hmu); [|done].
  unfold nearer, left_to_do, phase_left. rewrite E1, E2. cbn [c_link c_state set_client set_rw set_link l_in set_in].
  rewrite Hst, Hrw, Hr. cbn in E3. destruct (c_rw w'.1) as [r2|]; [|done]. injection E3 as ->. cbn [fst].
  split; [done|]. unfold mu in Hmu. cbn [sr_state] in Hmu. lia.
Qed.

Lemma processMsg_nearer w w' : bytes (input_of w) -> processMsg w = (Ok true, w') -> nearer (left_to_do w.1) w'.
Proof.
  intros Hb H. unfold SConnection.processMsg in H. apply bind_true in H as (c & w1 & H1 & H). injection H1 as <- <-.
  destruct (c_state w.1) eqn:Hst; try done.
  - by apply version_nearer.
  - by apply security_type_nearer.
  - by apply security_nearer.
  - by apply failure_nearer.
  - by apply init_nearer.
  - by apply normal_nearer.
Qed.

(** *** Where it does not *)

Lemma is_run_throws {E A} (p : prog E A) (s : link * V) e : (is_run p s).1 = Throw e ->
  is_run p s = (Throw e, s) /\ outcome (if l_eof s.1 then at_end p else p) (l_in s.1) = Throw e.
Proof.
  unfold is_run, mbind, SE_bind, l_get, l_change. destruct s as [l v]. cbn [fst snd].
  destruct (outcome _ _) as [[[a d] evs]|e']; [done|]. by intros [= ->].
Qed.

Lemma caught_throws w z : caught w z -> processMsg w = (Throw (endless z), w).
Proof.
  intros (Hst & r & Hr & Ho). destruct w as [c v]. cbn [fst snd] in *. apply is_run_throws in Ho as [Ho _].
  unfold SConnection.processMsg, mbind, SE_bind, c_get. cbn [fst snd]. rewrite Hst. unfold readMsg, mbind, SE_bind, c_get.
  cbn [fst snd]. rewrite Hr. destruct (rw_reader r) as [st t]. cbn [fst snd] in Ho. unfold on_link. cbn [fst snd].
  rewrite Ho. by destruct c.
Qed.

Lemma caught_data w z : caught w z -> bytes (input_of w) ->
  (exists before after, input_of w = before ++ z ++ after) /\ stops inflate z.
Proof. intros (_ & r & _ & Ho) Hb. apply is_run_throws in Ho as [_ Ho]. by eapply readMsg_caught. Qed.

Lemma caught_or_not w : (exists z, caught w z) \/ (forall z, ~ caught w z).
Proof.
  unfold caught. destruct (c_state w.1) eqn:Hst; try (right; intros z [? _]; done).
  destruct (c_rw w.1) as [r|]; [|right; intros z (_ & r & ? & _); done].
  destruct (is_run (ClientMsgs.readMsg maxCutText inflate (SReader (rw_reader r).1 (rw_reader r).2 (c_client w.1))) (c_link w.1, w.2)).1
    as [x|e] eqn:Ho; [right; intros z (_ & r' & [= <-] & H); by rewrite Ho in H|].
  destruct e as [| | | | | | | | |z]; [..|left; exists z; split; [done|]; by exists r].
  all: right; intros z (_ & r' & [= <-] & H); by rewrite Ho in H.
Qed.

(** The loop ends as the one with fuel does, or is caught. *)
Lemma loop_computes fuel w : bytes (input_of w) -> (left_to_do w.1 < fuel)%nat ->
  loops w (message_loop fuel w) \/
  exists z w', rtc round w w' /\ caught w' z /\ bytes (input_of w') /\ message_loop fuel w = (Throw (endless z), w').
Proof.
  revert w. induction fuel as [|fuel IH]; intros w Hb Hf; [lia|]. cbn [SConnection.message_loop].
  unfold mbind, SE_bind. destruct (caught_or_not w) as [[z Hz]|Hz].
  { right. exists z, w. rewrite (caught_throws w z Hz). done. }
  destruct (processMsg w) as [[[]|e] w'] eqn:Hp.
  - destruct (processMsg_nearer w w' Hb Hp) as [Hb' Hlt].
    destruct (IH w' Hb' ltac:(lia)) as [H|(z & w2 & Hr & H)].
    + left. by eapply loops_more.
    + right. exists z, w2. split; [by eapply rtc_l|done].
  - left. by apply loops_stop.
  - left. by apply loops_throw.
Qed.

Lemma caught_never w w' z r : rtc round w w' -> caught w' z -> ~ loops w r.
Proof.
  intros Hr Hz. revert r. induction Hr as [w|w w1 w2 H _ IH]; intros r Hl.
  - pose proof (caught_throws w z Hz) as Hp. destruct Hl as [? ? H|? ? ? _ H|? ? ? H]; [by rewrite Hp in H|by eapply H|by rewrite Hp in H].
  - unfold round in H. destruct Hl as [? ? H'|? ? ? H' _|? ? ? H' Hl]; rewrite H in H'; simplify_eq. by eapply IH.
Qed.

Lemma loops_functional w r1 r2 : loops w r1 -> loops w r2 -> r1 = r2.
Proof.
  intros H. revert r2. induction H as [w w' H|w e w' H|w w' r H _ IH]; intros r2 H2; inversion H2; subst; rewrite H in *; simplify_eq; auto.
Qed.
End loop.

(** ** Theorems *)

Section theorems.
Context {V X : Type} `{HS : ServerSecEnv V X} `{HO : Owner V}.
Context (enabled : list Z) (defaultMinorVersion maxCutText : Z) (inflate : list Z -> zseg).

(** C18: on whatever bytes a client sends, in every state of the connection, the
    loop over [processMsg] ends, and the fuel the model gives it is enough: the
    result is that of the loop without fuel.  It does not end only where it comes
    to a message for a connection that is through the handshake, in which the
    reader is caught: data with a segment that is compressed data with an end
    marker, on which [ZlibInStream] decompresses for ever.  (What the libraries
    decrypt must not be longer than what came.) *)
Theorem message_loop_ends (c : sconn X) (v : V) : ext_shrinks (HS := HS) ->
  bytes (l_in (c_link c)) ->
  (forall r, loops enabled defaultMinorVersion maxCutText inflate (c, v) r <->
    r = message_loop enabled defaultMinorVersion maxCutText inflate (loop_fuel c) (c, v)) \/
  (exists z w, rtc (round enabled defaultMinorVersion maxCutText inflate) (c, v) w /\ caught maxCutText inflate w z /\
    stops inflate z /\ (exists before after, l_in (c_link w.1) = before ++ z ++ after) /\
    message_loop enabled defaultMinorVersion maxCutText inflate (loop_fuel c) (c, v) = (Throw (endless z), w) /\
    forall r, ~ loops enabled defaultMinorVersion maxCutText inflate (c, v) r).
Proof.
  intros Hext Hb.
  destruct (loop_computes enabled defaultMinorVersion maxCutText inflate Hext (loop_fuel c) (c, v) Hb) as [H|(z & w & Hr & Hz & Hb' & Hm)].
  - unfold left_to_do, loop_fuel, phase_left. cbn [fst]. repeat case_match; lia.
  - left. intros r. split; [intros H'; by eapply loops_functional|by intros ->].
  - right. destruct (caught_data _ _ _ _ Hz Hb') as [Hin Hs]. exists z, w. do 5 (split; [done|]).
    intros r. by eapply caught_never.
Qed.

(** The input dropped. *)
Definition deaf (c : sconn X) : sconn X := set_link (set_in [] (c_link c)) c.

Lemma failure_loop fuel (c : sconn X) (v : V) : c_state c = RFBSTATE_SECURITY_FAILURE -> l_eof (c_link c) = false -> (2 <= fuel)%nat ->
  message_loop enabled defaultMinorVersion maxCutText inflate fuel (c, v) = (Ok tt, (deaf c, v)).
Proof.
  intros Hst Heof Hf. destruct fuel as [|fuel]; [lia|]. cbn [message_loop]. unfold mbind at 1, SE_bind at 1.
  assert (forall c : sconn X, c_state c = RFBSTATE_SECURITY_FAILURE -> l_eof (c_link c) = false ->
    processMsg enabled defaultMinorVersion maxCutText inflate (c, v) =
    if bool_decide (l_in (c_link c) = []) then (Ok false, (c, v)) else (Ok true, (deaf c, v))) as Hstep.
  { clear. intros c Hst Heof. unfold processMsg, mbind, SE_bind, c_get. cbn [fst snd]. rewrite Hst.
    unfold processSecurityFailure, is_hasData, mbind, SE_bind, l_get, on_link. cbn [fst snd].
    destruct (l_in (c_link c)) as [|b d] eqn:Hin.
    - rewrite Heof. destruct c as [[]]. cbn in *. by subst.
    - rewrite (proj2 (Z.leb_le _ _)) by llia. case_bool_decide; [done|]. by destruct c as [[]]. }
  rewrite Hstep by done. case_bool_decide as Hin.
  - unfold deaf. destruct c as [[]]. cbn in *. by subst.
  - destruct fuel as [|fuel]; [lia|]. cbn [message_loop]. unfold mbind at 1, SE_bind at 1. rewrite Hstep by done.
    by case_bool_decide.
Qed.

(** C19: a client that fails its authentication is told nothing, whatever it
    sends, until the timer: its data is dropped and nothing is written; then it
    gets the failure, and a client of 3.8 or later the reason, and the connection
    closes with that reason; what it sends after that is dropped, too. *)
Theorem failure_is_answered_late (c c1 : sconn X) (v v1 : V) (m more : list Z) :
  c_state c = RFBSTATE_SECURITY -> run_security enabled (c, v) = (Throw (auth_error m), (c1, v1)) -> l_eof (c_link c1) = false ->
  let event := processSocketReadEvent enabled defaultMinorVersion maxCutText inflate in
  let arrived (l : link) := set_in (l_in l ++ more) l in
  exists c2, event (c, v) = (Ok tt, (c2, v1)) /\ c_state c2 = RFBSTATE_SECURITY_FAILURE /\
    l_in (c_link c2) = [] /\ l_sent (c_link c2) = written_to (c_link c1) /\ l_unsent (c_link c2) = [] /\
    event (set_link (arrived (c_link c2)) c2, v1) = (Ok tt, (c2, v1)) /\
    exists c3, handleAuthFailureTimeout (c2, v1) = (Ok tt, (c3, v1)) /\ c_state c3 = RFBSTATE_CLOSING /\
      c_closed c3 = Some (default m (c_closed c1)) /\ c_rights c3 = c_rights c1 /\
      l_sent (c_link c3) = l_sent (c_link c2) ++ writeU32 secResultFailed ++
        (if before_version (c_version c1) 3 8 then [] else writeU32 (len m) ++ m) /\
      l_unsent (c_link c3) = [] /\
      event (set_link (arrived (c_link c3)) c3, v1) = (Ok tt, (c3, v1)).
Proof.
  intros Hst Hrun Heof event arrived.
  assert (Hdeaf : forall (c : sconn X) v, c_state c = RFBSTATE_SECURITY_FAILURE -> l_eof (c_link c) = false -> event (c, v) =
    (Ok tt, (set_link (Link [] false (l_mark (c_link c)) (written_to (c_link c)) []) c, v))).
  { clear. intros c v Hst Heof. unfold event, processSocketReadEvent, mbind, SE_bind, c_get. cbn [fst snd]. rewrite Hst.
    change (bool_decide (RFBSTATE_SECURITY_FAILURE = RFBSTATE_CLOSING)) with false. cbv iota.
    unfold or_close, mbind, SE_bind. rewrite failure_loop by (try done; unfold loop_fuel; lia). cbn. by rewrite Heof. }
  set (c2 := set_link (Link [] false (l_mark (c_link c1)) (written_to (c_link c1)) [])
    (set_failure (Some m) (set_state RFBSTATE_SECURITY_FAILURE c1))).
  assert (event (c, v) = (Ok tt, (c2, v1))) as Hev.
  { unfold event, processSocketReadEvent, mbind, SE_bind, c_get. cbn [fst snd]. rewrite Hst.
    change (bool_decide (RFBSTATE_SECURITY = RFBSTATE_CLOSING)) with false. cbv iota. unfold or_close, mbind, SE_bind.
    assert (loop_fuel c = S (2 * length (l_in (c_link c)) + 7)) as -> by (unfold loop_fuel; lia). cbn [message_loop].
    unfold mbind at 1, SE_bind at 1. unfold processMsg at 1, mbind at 1, SE_bind at 1, c_get. cbn [fst snd]. rewrite Hst.
    unfold processSecurityMsg. rewrite Hrun. unfold delayed_failure, mbind, SE_bind, c_change, mret, SE_ret. cbn [fst snd].
    rewrite failure_loop by (try done; lia). unfold c2, deaf, on_link. cbn. by rewrite Heof. }
  exists c2. split; [exact Hev|]. do 4 (split; [done|]). split.
  { rewrite Hdeaf by done. unfold c2, written_to. cbn. by rewrite app_nil_r. }
  exists (set_closed m (set_rw None (set_ssecurity None (set_state RFBSTATE_CLOSING (set_link (Link [] false (l_mark (c_link c1))
    (written_to (c_link c1) ++ writeU32 secResultFailed ++
      (if before_version (c_version c1) 3 8 then [] else writeU32 (len m) ++ m)) []) (set_failure None c2)))))).
  split; [|do 5 (split; [done|]); done].
  unfold handleAuthFailureTimeout, mbind, SE_bind, c_get, c_change, on_link. subst c2.
  case_bool_decide as Hb; [clear Hb|by destruct Hb]. cbn [fst snd c_failure c_version set_failure set_link set_state negb].
  destruct (before_version (c_version c1) 3 8); cbn [negb]; unfold os_writeU32, os_writeBytes, os_flush, l_change, mret, SE_ret, mbind, SE_bind;
    cbn [fst snd c_link set_link set_failure set_state l_in l_eof l_mark l_sent l_unsent]; rewrite close_does;
    cbn [c_link set_link set_failure set_state l_in l_eof l_mark l_sent l_unsent]; by rewrite ?app_nil_r, ?app_nil_l, <- ?app_assoc.
Qed.
End theorems.

(** ** A run *)

Section sample.
#[local] Existing Instance sample_env.
#[local] Existing Instance sample_owner.

(** A client that has sent its version and its choice. *)
Definition sample_chosen : sconn unit :=
  set_link (Link (sample_version ++ [secTypeVncAuth]) false None [] []) (set_state RFBSTATE_PROTOCOL_VERSION (VNCSConnectionST 8 false AccessFull)).

(** A client in the middle of its session that sends compressed data with an
    end in it. *)
Definition sample_stopped : sconn unit :=
  set_rw (Some (RW (MSGSTATE_IDLE, 0) init_writer))
    (set_link (Link [6; 0; 0; 0; 0xff; 0xff; 0xff; 0xf8; 0x10; 0; 0; 1; 1; 1; 0; 9] false None [] [])
      (set_state RFBSTATE_NORMAL (VNCSConnectionST 8 false AccessFull))).

Lemma message_loop_ends_witness :
  (exists r, loops (V := unit) [secTypeVncAuth] 8 1000 stored (sample_chosen, tt) r /\
    c_state r.2.1 = RFBSTATE_SECURITY /\ l_unsent (c_link r.2.1) = [] /\ len (written_to (c_link r.2.1)) = 18) /\
  caught (V := unit) 1000 ended (sample_stopped, tt) [1; 1; 0; 9] /\
  forall r, ~ loops (V := unit) [secTypeVncAuth] 8 1000 ended (sample_stopped, tt) r.
Proof.
  assert (ext_shrinks (HS := sample_env)) as Hext by (intros x s Hb; split; [done|cbn; lia]).
  assert (caught (V := unit) 1000 ended (sample_stopped, tt) [1; 1; 0; 9]) as Hc.
  { split; [done|]. eexists. split; [reflexivity|]. vm_compute. reflexivity. }
  split; [|split; [exact Hc|]].
  - exists (message_loop (V := unit) [secTypeVncAuth] 8 1000 stored (loop_fuel sample_chosen) (sample_chosen, tt)).
    split; [|by vm_compute].
    destruct (message_loop_ends [secTypeVncAuth] 8 1000 stored sample_chosen tt) as [H|(z & w & _ & _ & [b Hz] & _)];
      [exact Hext|by apply bytes_decide|by apply H|done].
  - destruct (message_loop_ends [secTypeVncAuth] 8 1000 ended sample_stopped tt) as [H|(z & w & _ & _ & _ & _ & _ & H)];
      [exact Hext|by apply bytes_decide| |exact H].
    intros r. exact (caught_never [secTypeVncAuth] 8 1000 ended _ _ _ r (rtc_refl _ _) Hc).
Defined.

(** A client with a wrong answer. *)
Definition sample_wrong : sconn unit :=
  set_ssecurity (Some (Direct (Single secTypeVncAuth (SVncAuth (VncAuth true sample_challenge [] AccessNone)))))
    (set_link (Link (replicate 16 0 ++ [7]) false None [] []) (set_state RFBSTATE_SECURITY (VNCSConnectionST 8 false AccessFull))).

Lemma failure_is_answered_late_witness : let event := processSocketReadEvent (V := unit) [secTypeVncAuth] 8 1000 stored in
  exists c2 c3, event (sample_wrong, tt) = (Ok tt, (c2, tt)) /\ c_state c2 = RFBSTATE_SECURITY_FAILURE /\ l_in (c_link c2) = [] /\
    handleAuthFailureTimeout (c2, tt) = (Ok tt, (c3, tt)) /\ c_state c3 = RFBSTATE_CLOSING /\
    l_sent (c_link c3) = [0; 0; 0; 1; 0; 0; 0; 21] ++ text "Authentication failed".
Proof.
  destruct (run_security (V := unit) [secTypeVncAuth] (sample_wrong, tt)) as [r [c1 []]] eqn:Hrun.
  assert (r = Throw (auth_error auth_failed) /\ l_eof (c_link c1) = false /\ written_to (c_link c1) = [] /\
    before_version (c_version c1) 3 8 = false) as (-> & Heof & Hw & Hv) by (vm_compute in Hrun; by injection Hrun as <- <-).
  destruct (failure_is_answered_late [secTypeVncAuth] 8 1000 stored sample_wrong c1 tt tt auth_failed [1; 2; 3] eq_refl Hrun Heof)
    as (c2 & Hev & Hst & Hin & Hs & _ & _ & c3 & Ht & Hst3 & _ & _ & Hs3 & _).
  exists c2, c3. do 5 (split; [assumption|]). rewrite Hs3, Hs, Hw, Hv. reflexivity.
Defined.
End sample.
