(* ===== verification/CConnection.v ===== *)
(** * A connection of the client ([common/rfb/CConnection.cxx])

    The client's end of a connection up to the point where the session begins:
    the version, the choice of a security type, its security object, the result,
    the reason for a failure, the server's first message, and the client's first
    request: the pixel format and the encodings it wants, and the picture.  The
    user and the cryptography of the libraries are outside ([ClientSecEnv]); what
    the viewer sets when the session begins, and the messages after that
    ([ServerMsgs] and [Decoders] read them), are an interface here ([Viewer]);
    that the viewer gives the connection a framebuffer of the server's size,
    which [serverInit] asserts, is left out. *)
From stdpp Require Import base gmap list numbers strings option.
From S2P Require Import Prelude InStream OutStream Strings PixelFmt Geometry Screens Params Clipboard ClientMsgs ServerMsgs Decoders D3des Security Link SSecurity CSecurity.
#[local] Open Scope Z_scope.

(** What the subclass sets: [setPF], [setPreferredEncoding], [setCompressLevel],
    [setQualityLevel], [setJpegAllowed]. *)
Inductive setting :=
| SetPF (pf : PixelFormat)
| SetPreferredEncoding (encoding : Z)
| SetCompressLevel (level : Z)
| SetQualityLevel (level : Z)
| SetJpegAllowed (allowed : bool).

(** What the viewer wants: the members it sets as it is made, and the ones
    above. *)
Record wishes := Wishes {
  w_localCursor : bool;
  w_cursorPosition : bool;
  w_desktopResize : bool;
  w_ledState : bool;
  w_audio : bool;
  w_preferredEncoding : Z;
  w_compressLevel : Z;
  w_qualityLevel : Z;
  w_jpegAllowed : bool
}.

(** What has been asked of the server, and what is to be asked yet. *)
Record asking := Asking {
  pendingPFChange : bool;
  pendingPF : PixelFormat;
  nextPF : PixelFormat;
  formatChange : bool;
  encodingChange : bool;
  pendingUpdate : bool;
  continuousUpdates : bool;
  forceNonincremental : bool
}.

(** What comes after the handshake: what [initDone] sets, or the exception it
    throws, and the messages of the session. *)
Class Viewer (V : Type) := {
  v_initDone : ServerParams -> V -> res (list setting) * V;
  v_readMsg : ServerParams -> SE (link * V) (bool * ServerParams)
}.

Inductive kstate :=
| K_UNINITIALISED | K_PROTOCOL_VERSION | K_SECURITY_TYPES | K_SECURITY | K_SECURITY_RESULT | K_SECURITY_REASON
| K_INITIALISATION | K_NORMAL | K_CLOSING | K_INVALID.

#[export] Instance kstate_eq_dec : EqDecision kstate.
Proof. solve_decision. Defined.

Record cconn (X : Type) := CConn {
  k_link : link;
  k_state : kstate;
  k_csecurity : option (csecurity X);
  k_shared : bool;
  k_server : ServerParams;
  k_wishes : wishes;
  k_asking : asking
}.
Arguments CConn {X} _ _ _ _ _ _ _.
Arguments k_link {X} _.
Arguments k_state {X} _.
Arguments k_csecurity {X} _.
Arguments k_shared {X} _.
Arguments k_server {X} _.
Arguments k_wishes {X} _.
Arguments k_asking {X} _.

Section connection.
Context {V X : Type} `{HC : ClientSecEnv V X} `{HV : Viewer V}.
Context (enabled : list Z) (h264 : bool).
Abbreviation M := (SE (cconn X * V)).
Implicit Types c : cconn X.

Definition kset_link (l : link) c : cconn X :=
  CConn l (k_state c) (k_csecurity c) (k_shared c) (k_server c) (k_wishes c) (k_asking c).
Definition kset_state (s : kstate) c : cconn X :=
  CConn (k_link c) s (k_csecurity c) (k_shared c) (k_server c) (k_wishes c) (k_asking c).
Definition kset_csecurity (s : option (csecurity X)) c : cconn X :=
  CConn (k_link c) (k_state c) s (k_shared c) (k_server c) (k_wishes c) (k_asking c).
Definition kset_server (p : ServerParams) c : cconn X :=
  CConn (k_link c) (k_state c) (k_csecurity c) (k_shared c) p (k_wishes c) (k_asking c).
Definition kset_wishes (w : wishes) c : cconn X :=
  CConn (k_link c) (k_state c) (k_csecurity c) (k_shared c) (k_server c) w (k_asking c).
Definition kset_asking (a : asking) c : cconn X :=
  CConn (k_link c) (k_state c) (k_csecurity c) (k_shared c) (k_server c) (k_wishes c) a.

Definition k_get : M (cconn X) := fun s => (Ok s.1, s).
Definition k_change (f : cconn X -> cconn X) : M unit := fun s => (Ok tt, (f s.1, s.2)).
Definition k_on_link {A} (m : SE (link * V) A) : M A := fun s =>
  let '(r, (l, v)) := m (k_link s.1, s.2) in (r, (kset_link l s.1, v)).

Definition init_asking : asking := Asking false default_pf default_pf false false false false true.

(** One of the calls above, on a connection with the pixel format [pf]:
    [formatChange] or [encodingChange] is set when something changes. *)
Definition set_encodingChange (a : asking) : asking :=
  Asking (pendingPFChange a) (pendingPF a) (nextPF a) (formatChange a) true (pendingUpdate a) (continuousUpdates a)
    (forceNonincremental a).
Definition configure (pf : PixelFormat) (s : setting) (x : wishes * asking) : wishes * asking :=
  let '(w, a) := x in
  match s with
  | SetPF next =>
      if pf_eqb pf next && negb (formatChange a) then (w, a)
      else (w, Asking (pendingPFChange a) (pendingPF a) next true (encodingChange a) (pendingUpdate a)
                 (continuousUpdates a) (forceNonincremental a))
  | SetPreferredEncoding e =>
      if w_preferredEncoding w =? e then (w, a)
      else (Wishes (w_localCursor w) (w_cursorPosition w) (w_desktopResize w) (w_ledState w) (w_audio w) e
              (w_compressLevel w) (w_qualityLevel w) (w_jpegAllowed w), set_encodingChange a)
  | SetCompressLevel l =>
      if w_compressLevel w =? l then (w, a)
      else (Wishes (w_localCursor w) (w_cursorPosition w) (w_desktopResize w) (w_ledState w) (w_audio w)
              (w_preferredEncoding w) l (w_qualityLevel w) (w_jpegAllowed w), set_encodingChange a)
  | SetQualityLevel l =>
      if w_qualityLevel w =? l then (w, a)
      else (Wishes (w_localCursor w) (w_cursorPosition w) (w_desktopResize w) (w_ledState w) (w_audio w)
              (w_preferredEncoding w) (w_compressLevel w) l (w_jpegAllowed w), set_encodingChange a)
  | SetJpegAllowed b =>
      if Bool.eqb (w_jpegAllowed w) b then (w, a)
      else (Wishes (w_localCursor w) (w_cursorPosition w) (w_desktopResize w) (w_ledState w) (w_audio w)
              (w_preferredEncoding w) (w_compressLevel w) (w_qualityLevel w) b, set_encodingChange a)
  end.
Definition configure_all (pf : PixelFormat) (l : list setting) (x : wishes * asking) : wishes * asking :=
  fold_left (fun x s => configure pf s x) l x.
Definition k_configure (l : list setting) c : cconn X :=
  let x := configure_all (pf_ (sp (k_server c))) l (k_wishes c, k_asking c) in kset_wishes x.1 (kset_asking x.2 c).

Definition new_cconn (shared : bool) (w : wishes) : cconn X :=
  CConn empty_link K_UNINITIALISED None shared init_server w init_asking.

Definition server_setVersion (major minor : Z) (p : ServerParams) : ServerParams :=
  MkServer (sp p) major minor (supportsQEMUKeyEvent p) (supportsQEMUAudio p) (supportsSetDesktopSize p)
    (supportsFence p) (supportsContinuousUpdates p) (supportsExtendedMouseButtons p).
Definition setVersion (major minor : Z) c : cconn X := kset_server (server_setVersion major minor (k_server c)) c.
Definition set_common (cm : Common) (p : ServerParams) : ServerParams :=
  MkServer cm (sp_majorVersion p) (sp_minorVersion p) (supportsQEMUKeyEvent p) (supportsQEMUAudio p) (supportsSetDesktopSize p)
    (supportsFence p) (supportsContinuousUpdates p) (supportsExtendedMouseButtons p).
Definition k_version c : Z * Z := (sp_majorVersion (k_server c), sp_minorVersion (k_server c)).
Definition k_before c (major minor : Z) : bool := beforeVersion (k_version c).1 (k_version c).2 major minor.

(** [CConnection::initialiseProtocol] *)
Definition k_initialiseProtocol : M unit := k_change (kset_state K_PROTOCOL_VERSION).

(** The version the client asks for. *)
Definition agreed_version (major minor : Z) : Z * Z :=
  if beforeVersion major minor 3 7 then (3, 3)
  else if afterVersion major minor 3 8 then (3, 8)
  else (major, minor).

Definition k_processVersionMsg : M bool :=
  ok ← k_on_link (is_hasData 12);
  if negb ok then mret false else
  verStr ← k_on_link (is_readBytes 12);
  match scan_version verStr with
  | None =>
      k_change (kset_state K_INVALID);;
      st_throw (protocol_error "Reading version failed, not an RFB server?")
  | Some (major, minor) =>
      k_change (setVersion major minor);;
      if beforeVersion major minor 3 3 then
        k_change (kset_state K_INVALID);;
        st_throw (protocol_error "Server gave unsupported RFB protocol version %d.%d")
      else
        let v := agreed_version major minor in
        k_change (setVersion v.1 v.2);;
        k_on_link (os_writeBytes (version_line v.1 v.2));;
        k_on_link os_flush;;
        k_change (kset_state K_SECURITY_TYPES);;
        mret true
  end.

(** The type is known, or there is none in common. *)
Definition k_chosen (secType : Z) : M bool :=
  if secType =? secTypeInvalid then
    k_change (kset_state K_INVALID);;
    st_throw (protocol_error "No matching security types")
  else
    k_change (kset_state K_SECURITY);;
    match GetCSecurity enabled secType with
    | Throw e => st_throw e
    | Ok s => k_change (kset_csecurity (Some s));; mret true
    end.

Definition k_processSecurityTypesMsg : M bool :=
  let secTypes := GetEnabledSecTypes enabled in
  c ← k_get;
  if ((k_version c).1 =? 3) && ((k_version c).2 =? 3) then
    ok ← k_on_link (is_hasData 4);
    if negb ok then mret false else
    secType ← k_on_link is_readU32;
    if secType =? secTypeInvalid then k_change (kset_state K_SECURITY_REASON);; mret true
    else if (secType =? secTypeNone) || (secType =? secTypeVncAuth) then
      k_chosen (if bool_decide (secType ∈ secTypes) then secType else secTypeInvalid)
    else st_throw (protocol_error "Unknown 3.3 security type")
  else
    ok ← k_on_link (is_hasData 1);
    if negb ok then mret false else
    k_on_link is_setRestorePoint;;
    nServerSecTypes ← k_on_link is_readU8;
    ok ← k_on_link (is_hasDataOrRestore nServerSecTypes);
    if negb ok then mret false else
    k_on_link is_clearRestorePoint;;
    if nServerSecTypes =? 0 then k_change (kset_state K_SECURITY_REASON);; mret true else
    serverSecTypes ← k_on_link (is_readBytes nServerSecTypes);
    let secType := first_common serverSecTypes secTypes in
    (if negb (secType =? secTypeInvalid) then k_on_link (os_writeU8 secType);; k_on_link os_flush else mret tt);;
    k_chosen secType.

Definition k_processSecurityMsg : M bool :=
  c ← k_get;
  match k_csecurity c with
  | None => st_throw (logic_error "null")
  | Some s =>
      r ← k_on_link (cprocessMsg enabled s);
      k_change (kset_csecurity (Some r.2));;
      if negb r.1 then mret false else
      k_change (kset_state K_SECURITY_RESULT);;
      mret true
  end.

Definition securityCompleted : M unit :=
  c ← k_get;
  k_change (kset_state K_INITIALISATION);;
  k_on_link (os_writeBytes (writeClientInit (k_shared c)));;
  k_on_link os_flush.

Definition k_security_result (result : Z) : M bool :=
  if result =? secResultOK then securityCompleted;; mret true
  else if (result =? secResultFailed) || (result =? secResultTooMany) then
    c ← k_get;
    if k_before c 3 8 then
      k_change (kset_state K_INVALID);;
      st_throw (auth_error auth_failed)
    else
      k_change (kset_state K_SECURITY_REASON);;
      mret true
  else st_throw (protocol_error "Unknown security result from server").

Definition k_processSecurityResultMsg : M bool :=
  c ← k_get;
  let type := match k_csecurity c with Some s => cgetType s | None => secTypeInvalid end in
  if k_before c 3 8 && (type =? secTypeNone) then k_security_result secResultOK
  else
    ok ← k_on_link (is_hasData 4);
    if negb ok then mret false else
    result ← k_on_link is_readU32;
    k_security_result result.

(** A reason that is not UTF-8 is taken for Latin-1. *)
Definition reason_text (reason : list Z) : list Z :=
  if default false (isValidUTF8 (reason ++ [0]) npos) then until0 reason
  else default [] (latin1ToUTF8 (reason ++ [0]) npos).

Definition k_processSecurityReasonMsg : M bool :=
  ok ← k_on_link (is_hasData 4);
  if negb ok then mret false else
  k_on_link is_setRestorePoint;;
  len ← k_on_link is_readU32;
  ok ← k_on_link (is_hasDataOrRestore len);
  if negb ok then mret false else
  k_on_link is_clearRestorePoint;;
  reason ← k_on_link (is_readBytes len);
  k_change (kset_state K_INVALID);;
  st_throw (auth_error (reason_text reason)).

(** *** The request for an update *)

(** A message of the writer, which flushes the stream. *)
Definition k_write (bs : list Z) : M unit := k_on_link (os_writeBytes bs);; k_on_link os_flush.
Definition k_write_res (r : res (list Z)) : M unit :=
  match r with Ok bs => k_write bs | Throw e => st_throw e end.

Definition encodingMax : Z := 255.

(** [CConnection::updateEncodings], the list it makes. *)
Definition encodings_wanted (w : wishes) : list Z :=
  (if w_localCursor w
   then [pseudoEncodingCursorWithAlpha; pseudoEncodingVMwareCursor; pseudoEncodingCursor; pseudoEncodingXCursor] else []) ++
  (if w_cursorPosition w then [pseudoEncodingVMwareCursorPosition] else []) ++
  (if w_desktopResize w then [pseudoEncodingDesktopSize; pseudoEncodingExtendedDesktopSize] else []) ++
  (if w_ledState w then [pseudoEncodingLEDState; pseudoEncodingVMwareLEDState] else []) ++
  (if w_audio w then [pseudoEncodingQEMUAudio] else []) ++
  [pseudoEncodingDesktopName; pseudoEncodingLastRect; pseudoEncodingExtendedClipboard; pseudoEncodingContinuousUpdates;
   pseudoEncodingFence; pseudoEncodingQEMUKeyEvent; pseudoEncodingExtendedMouseButtons] ++
  (if supported h264 (w_preferredEncoding w) && (w_jpegAllowed w || negb (w_preferredEncoding w =? encodingJPEG))
   then [w_preferredEncoding w] else []) ++
  [encodingCopyRect] ++
  List.filter (fun i => negb (i =? w_preferredEncoding w) && supported h264 i && negb (negb (w_jpegAllowed w) && (i =? encodingJPEG)))
    (rev (seqZ 0 (encodingMax + 1))) ++
  (if (0 <=? w_compressLevel w) && (w_compressLevel w <=? 9) then [pseudoEncodingCompressLevel0 + w_compressLevel w] else []) ++
  (if w_jpegAllowed w && ((0 <=? w_qualityLevel w) && (w_qualityLevel w <=? 9))
   then [pseudoEncodingQualityLevel0 + w_qualityLevel w] else []).

(** The three parts of [CConnection::requestNewUpdate]: the format, the
    encodings, and the picture. *)
Definition ask_format : M unit :=
  c ← k_get;
  let a := k_asking c in
  let whole := (width_ (sp (k_server c)), height_ (sp (k_server c))) in
  if formatChange a && negb (pendingPFChange a) then
    k_change (fun c => kset_asking (Asking true (nextPF a) (nextPF a) (formatChange a) (encodingChange a) (pendingUpdate a)
      (continuousUpdates a) (forceNonincremental a)) c);;
    (if continuousUpdates a then k_write_res (writeEnableContinuousUpdates (k_server c) false 0 0 0 0) else mret tt);;
    k_write (writeSetPixelFormat (nextPF a));;
    (if continuousUpdates a then k_write_res (writeEnableContinuousUpdates (k_server c) true 0 0 whole.1 whole.2) else mret tt);;
    k_change (fun c => let a := k_asking c in
      kset_asking (Asking (pendingPFChange a) (pendingPF a) (nextPF a) false (encodingChange a) (pendingUpdate a)
        (continuousUpdates a) (forceNonincremental a)) c)
  else mret tt.
Definition ask_encodings : M unit :=
  c ← k_get;
  if encodingChange (k_asking c) then
    k_write (writeSetEncodings (encodings_wanted (k_wishes c)));;
    k_change (fun c => let a := k_asking c in
      kset_asking (Asking (pendingPFChange a) (pendingPF a) (nextPF a) (formatChange a) false (pendingUpdate a)
        (continuousUpdates a) (forceNonincremental a)) c)
  else mret tt.
Definition ask_picture : M unit :=
  c ← k_get;
  let a := k_asking c in
  let p := sp (k_server c) in
  (if forceNonincremental a || negb (continuousUpdates a) then
     k_change (fun c => kset_asking (Asking (pendingPFChange a) (pendingPF a) (nextPF a) (formatChange a) (encodingChange a) true
       (continuousUpdates a) (forceNonincremental a)) c);;
     k_write (writeFramebufferUpdateRequest (rect 0 0 (width_ p) (height_ p)) (negb (forceNonincremental a)))
   else mret tt);;
  k_change (fun c => let a := k_asking c in
    kset_asking (Asking (pendingPFChange a) (pendingPF a) (nextPF a) (formatChange a) (encodingChange a) (pendingUpdate a)
      (continuousUpdates a) false) c).
Definition requestNewUpdate : M unit := ask_format;; ask_encodings;; ask_picture.

(** [server.setPF(pf)] *)
Definition k_setPF (pf : PixelFormat) : M unit :=
  c ← k_get;
  let '(cm, error) := setPF pf (sp (k_server c)) in
  k_change (fun c => kset_server (set_common cm (k_server c)) c);;
  match error with Some e => st_throw e | None => mret tt end.

(** The first request has to help out with the format. *)
Definition k_first_request : M unit :=
  k_change (fun c => kset_asking (set_encodingChange (k_asking c)) c);;
  requestNewUpdate;;
  c ← k_get;
  let a := k_asking c in
  if pendingPFChange a then
    k_setPF (pendingPF a);;
    k_change (fun c => let a := k_asking c in
      kset_asking (Asking false (pendingPF a) (nextPF a) (formatChange a) (encodingChange a) (pendingUpdate a)
        (continuousUpdates a) (forceNonincremental a)) c)
  else mret tt.

(** [initDone()]. *)
Definition k_initDone : M unit := fun s =>
  match v_initDone (k_server s.1) s.2 with
  | (Ok settings, v) => (Ok tt, (k_configure settings s.1, v))
  | (Throw e, v) => (Throw e, (s.1, v))
  end.

(** [CConnection::serverInit] *)
Definition k_serverInit (width height : Z) (pf : PixelFormat) (name : list Z) : M unit :=
  c ← k_get;
  match setDimensions1 width height (sp (k_server c)) with
  | Throw e => st_throw e
  | Ok cm =>
      k_change (fun c => kset_server (set_common cm (k_server c)) c);;
      k_setPF pf;;
      k_change (fun c => kset_server (set_common (setName name (sp (k_server c))) (k_server c)) c);;
      k_change (kset_state K_NORMAL);;
      k_initDone;;
      k_first_request
  end.

Definition k_processInitMsg : M bool :=
  r ← k_on_link (is_run ServerMsgs.readServerInit);
  if negb r.1 then mret false else
  match r.2 with ServerMsgs.serverInit width height pf name :: _ => k_serverInit width height pf name | _ => mret tt end;;
  mret true.

(** [reader_->readMsg()] *)
Definition k_readMsg : M bool :=
  c ← k_get;
  r ← k_on_link (v_readMsg (k_server c));
  k_change (kset_server r.2);;
  mret r.1.

Definition k_processMsg : M bool :=
  c ← k_get;
  match k_state c with
  | K_PROTOCOL_VERSION => k_processVersionMsg
  | K_SECURITY_TYPES => k_processSecurityTypesMsg
  | K_SECURITY => k_processSecurityMsg
  | K_SECURITY_RESULT => k_processSecurityResultMsg
  | K_SECURITY_REASON => k_processSecurityReasonMsg
  | K_INITIALISATION => k_processInitMsg
  | K_NORMAL => k_readMsg
  | K_CLOSING => st_throw (logic_error "CConnection::processMsg: Called while closing")
  | K_UNINITIALISED => st_throw (logic_error "CConnection::processMsg: Not initialised yet?")
  | K_INVALID => st_throw (logic_error "CConnection::processMsg: Invalid state")
  end.

(** [CConnection::close], as far as the connection goes. *)
Definition k_close : M unit := k_change (fun c => kset_csecurity None (kset_state K_CLOSING c)).
End connection.
