(* ===== verification/Handshake.v ===== *)
(** * Client and server agree

    The two connections with the bytes between them: a network that delivers
    what is on its way in pieces of any size ([step]).  From the server's first
    line on, whatever the pieces, the two come to the same moment: in the session
    on both sides, with the client's first request on its way, or refused with
    the reason the server gives, or waiting for the server's user, or, without a
    common security type, given up. *)
From stdpp Require Import base gmap list numbers strings option sorting.
From S2P Require Import Prelude InStream OutStream Strings PixelFmt Geometry Screens Params Clipboard ClientMsgs ClientDelivery ServerMsgs Decoders ServerReader ServerWriter D3des Security Link SSecurity CSecurity SConnection CConnection.
#[local] Open Scope Z_scope.

Section net.
Context {VS XS VC XC : Type} `{HS : ServerSecEnv VS XS} `{HO : Owner VS} `{HC : ClientSecEnv VC XC} `{HV : Viewer VC}.
Context (s_enabled k_enabled : list Z) (h264 : bool) (maxCutText : Z) (inflate : list Z -> zseg).
Abbreviation server := (sconn XS * VS)%type.
Abbreviation client := (cconn XC * VC)%type.

(** ** The ends *)

(** What is sent leaves the stream. *)
Definition s_collect (s : server) : server * list Z :=
  let l := c_link s.1 in ((set_link (Link (l_in l) (l_eof l) (l_mark l) [] (l_unsent l)) s.1, s.2), l_sent l).
Definition k_collect (k : client) : client * list Z :=
  let l := k_link k.1 in ((kset_link (Link (l_in l) (l_eof l) (l_mark l) [] (l_unsent l)) k.1, k.2), l_sent l).

Definition s_arrive (bs : list Z) (s : server) : server := (set_link (set_in (l_in (c_link s.1) ++ bs) (c_link s.1)) s.1, s.2).
Definition k_arrive (bs : list Z) (k : client) : client := (kset_link (set_in (l_in (k_link k.1) ++ bs) (k_link k.1)) k.1, k.2).

Definition s_run (s : server) : server * list Z :=
  s_collect (processSocketReadEvent s_enabled 8 maxCutText inflate s).2.

(** [while (processMsg());], and what has been written is sent. *)
Fixpoint k_loop (fuel : nat) : SE client unit :=
  match fuel with
  | O => st_throw (logic_error "no end")
  | S fuel => more ← k_processMsg k_enabled h264; if (more : bool) then k_loop fuel else k_on_link os_flush
  end.
Definition k_run (k : client) : client * option exn * list Z :=
  let '(r, k') := k_loop (2 * length (l_in (k_link k.1)) + 8) k in
  let '(k'', out) := k_collect k' in
  (k'', match r with Ok _ => None | Throw e => Some e end, out).

(** ** The network *)

(** An exception ends the client. *)
Record net := Net { n_client : client; n_error : option exn; n_server : server; n_up : list Z; n_down : list Z }.

Inductive step : net -> net -> Prop :=
| step_up k e s bs rest down s' out : bs <> [] -> s_run (s_arrive bs s) = (s', out) ->
    step (Net k e s (bs ++ rest) down) (Net k e s' rest (down ++ out))
| step_down k s bs rest up k' e' out : bs <> [] -> k_run (k_arrive bs k) = (k', e', out) ->
    step (Net k None s up (bs ++ rest)) (Net k' e' s (up ++ out) rest)
| step_timer k e s up down s' out : c_failure s.1 <> None -> s_collect (handleAuthFailureTimeout s).2 = (s', out) ->
    step (Net k e s up down) (Net k e s' up (down ++ out)).

(** ** Turns *)

(** [s] waits for [W], and pieces of it change nothing that could be seen. *)
Definition s_accepts (s : server) (W : list Z) (s' : server) (out : list Z) : Prop :=
  W <> [] /\ s_run s = (s, []) /\ c_failure s.1 = None /\
  (forall p q, W = p ++ q -> q <> [] -> exists sp, s_run (s_arrive p s) = (sp, []) /\ c_failure sp.1 = None /\
     forall bs q', bs <> [] -> q = bs ++ q' -> s_run (s_arrive bs sp) = s_run (s_arrive (p ++ bs) s)) /\
  s_run (s_arrive W s) = (s', out).
Definition k_accepts (k : client) (W : list Z) (k' : client) (e : option exn) (out : list Z) : Prop :=
  W <> [] /\ k_run k = (k, None, []) /\
  (forall p q, W = p ++ q -> q <> [] -> exists kp, k_run (k_arrive p k) = (kp, None, []) /\
     forall bs q', bs <> [] -> q = bs ++ q' -> k_run (k_arrive bs kp) = k_run (k_arrive (p ++ bs) k)) /\
  k_run (k_arrive W k) = (k', e, out).

(** Where the two take turns, up to some moment; the number bounds the steps. *)
Inductive leads : nat -> net -> net -> Prop :=
| leads_end k e s W : c_failure s.1 = None -> leads 0 (Net k e s W []) (Net k e s W [])
| leads_up n k s W s' out N : s_accepts s W s' out -> leads n (Net k None s' [] out) N -> leads (length W + n) (Net k None s W []) N
| leads_down n k s W k' e out N : c_failure s.1 = None -> k_accepts k W k' e out -> leads n (Net k' e s out []) N ->
    leads (length W + n) (Net k None s [] W) N
| leads_timer n k s s' out N : c_failure s.1 <> None -> s_collect (handleAuthFailureTimeout s).2 = (s', out) ->
    leads n (Net k None s' [] out) N -> leads (S n) (Net k None s [] []) N.

Definition after_up (s : server) (p q : list Z) (sp : server) : Prop :=
  s_run (s_arrive p s) = (sp, []) /\ c_failure sp.1 = None /\
  (forall bs q', bs <> [] -> q = bs ++ q' -> s_run (s_arrive bs sp) = s_run (s_arrive (p ++ bs) s)).
Definition after_down (k : client) (p q : list Z) (kp : client) : Prop :=
  k_run (k_arrive p k) = (kp, None, []) /\
  (forall bs q', bs <> [] -> q = bs ++ q' -> k_run (k_arrive bs kp) = k_run (k_arrive (p ++ bs) k)).

(** The end, before the timer, or in the middle of a turn. *)
Inductive on_way (N : net) : nat -> net -> Prop :=
| way_end : on_way N 0 N
| way_timer n k s s' out : c_failure s.1 <> None -> s_collect (handleAuthFailureTimeout s).2 = (s', out) ->
    leads n (Net k None s' [] out) N -> on_way N (S n) (Net k None s [] [])
| way_up n k s s' out p q sp : s_accepts s (p ++ q) s' out -> leads n (Net k None s' [] out) N -> q <> [] ->
    after_up s p q sp -> on_way N (length q + n) (Net k None sp q [])
| way_down n k s k' e out p q kp : c_failure s.1 = None -> k_accepts k (p ++ q) k' e out -> leads n (Net k' e s out []) N -> q <> [] ->
    after_down k p q kp -> on_way N (length q + n) (Net kp None s [] q).

Lemma s_arrive_nil s : s_arrive [] s = s.
Proof. destruct s as [c v]. unfold s_arrive. cbn [fst snd]. rewrite app_nil_r. by destruct c as [[]]. Qed.
Lemma k_arrive_nil k : k_arrive [] k = k.
Proof. destruct k as [c v]. unfold k_arrive. cbn [fst snd]. rewrite app_nil_r. by destruct c as [[]]. Qed.

(** A turn before its first byte is one in its middle. *)
Lemma leads_way n N1 N : leads n N1 N -> on_way N n N1.
Proof.
  destruct 1 as [k e s W Hf|n k s W s' out N Ha Hl|n k s W k' e out N Hf Ha Hl|n k s s' out N Hf Ht Hl].
  - apply way_end.
  - pose proof Ha as (Hne & Hid & Hf & _). eapply (way_up N n k s s' out [] W s); [done..|]. unfold after_up. by rewrite s_arrive_nil.
  - pose proof Ha as (Hne & Hid & _). eapply (way_down N n k s k' e out [] W k); [done..|]. unfold after_down. by rewrite k_arrive_nil.
  - by eapply way_timer.
Qed.

(** Every step gets nearer to the end, until it is there. *)
Lemma way_step N n N1 N2 : on_way N n N1 -> step N1 N2 -> N1 = N \/ exists n', (n' < n)%nat /\ on_way N n' N2.
Proof.
  destruct 1 as [|n k s s' out Hf Ht Hl|n k s s' out p q sp Ha Hl Hq (Hr & Hf & Hbs)|n k s k' e out p q kp Hf Ha Hl Hq (Hr & Hbs)];
    intros Hs; [by left|right..].
  - inversion Hs; subst; [by destruct bs|by destruct bs|]. rewrite Ht in *. simplify_eq. exists n. split; [lia|by apply leads_way].
  - inversion Hs as [? ? ? bs rest ? s1 out1 Hne Hrun|? ? bs ? ? ? ? ? Hne|]; subst; [|by destruct bs|done].
    rewrite (Hbs bs rest Hne eq_refl) in Hrun. pose proof Ha as (_ & _ & _ & Hpart & Hfull).
    assert (0 < length bs)%nat by (destruct bs; [done|cbn; lia]).
    destruct (decide (rest = [])) as [->|Hrest].
    + rewrite app_nil_r in *. rewrite Hfull in Hrun. simplify_eq. exists n. split; [lia|by apply leads_way].
    + destruct (Hpart (p ++ bs) rest) as (sp' & Hr' & Hf' & Hbs'); [by rewrite <- app_assoc|done|].
      rewrite Hr' in Hrun. simplify_eq. rewrite app_nil_l. exists (length rest + n)%nat. split; [rewrite length_app; lia|].
      eapply (way_up N n k s s' out (p ++ bs) rest); [by rewrite <- app_assoc|done..].
  - inversion Hs as [? ? ? bs ? ? ? ? Hne|? ? bs rest ? k1 e1 out1 Hne Hrun|]; subst; [by destruct bs| |done].
    rewrite (Hbs bs rest Hne eq_refl) in Hrun. pose proof Ha as (_ & _ & Hpart & Hfull).
    assert (0 < length bs)%nat by (destruct bs; [done|cbn; lia]).
    destruct (decide (rest = [])) as [->|Hrest].
    + rewrite app_nil_r in *. rewrite Hfull in Hrun. simplify_eq. exists n. split; [lia|by apply leads_way].
    + destruct (Hpart (p ++ bs) rest) as (kp' & Hr' & Hbs'); [by rewrite <- app_assoc|done|].
      rewrite Hr' in Hrun. simplify_eq. rewrite app_nil_l. exists (length rest + n)%nat. split; [rewrite length_app; lia|].
      eapply (way_down N n k s k' e out (p ++ bs) rest); [done|by rewrite <- app_assoc|done..].
Qed.

(** Until the end there is a step. *)
Lemma way_goes N n N1 : on_way N n N1 -> N1 = N \/ exists N2, step N1 N2.
Proof.
  destruct 1 as [|n k s s' out Hf Ht Hl|n k s s' out p q sp Ha Hl Hq (Hr & Hf & Hbs)|n k s k' e out p q kp Hf Ha Hl Hq (Hr & Hbs)];
    [by left|right..].
  - eexists. by eapply step_timer.
  - pose proof (step_up k None sp q [] [] _ _ Hq (surjective_pairing _)) as H. rewrite app_nil_r in H. by eexists.
  - destruct (k_run (k_arrive q kp)) as [[k1 e1] out1] eqn:Hrun.
    pose proof (step_down kp s q [] [] _ _ _ Hq Hrun) as H. rewrite app_nil_r in H. by eexists.
Qed.

Lemma leads_to_end n N1 N : leads n N1 N -> exists k e s W, N = Net k e s W [] /\ c_failure s.1 = None.
Proof.
  induction 1 as [k e s W Hf|n k s W s' out N Ha Hl IH|n k s W k' e out N Hf Ha Hl IH|n k s s' out N Hf Ht Hl IH]; [by exists k, e, s, W|exact IH..].
Qed.

(** Whatever the pieces, the moment is the same, and it is reached: an execution
    is before it or goes through it. *)
Lemma leads_inevitable n N0 N : leads n N0 N ->
  rtc step N0 N /\
  (forall m N1, nsteps step m N0 N1 ->
     ((m <= n)%nat /\ rtc step N1 N /\ (N1 = N \/ exists N2, step N1 N2)) \/ rtc step N N1) /\
  (n_up N = [] -> forall N2, ~ step N N2).
Proof.
  intros Hl. destruct (leads_to_end _ _ _ Hl) as (k & e & s & W & HN & Hf). apply leads_way in Hl.
  assert (forall n N1, on_way N n N1 -> rtc step N1 N) as Hto.
  { intros n0. induction (lt_wf n0) as [n0 _ IH]. intros N1 Hw. destruct (way_goes _ _ _ Hw) as [->|[N2 Hs]]; [done|].
    destruct (way_step _ _ _ _ Hw Hs) as [->|(n2 & Hn2 & Hw2)]; [done|]. eapply rtc_l; [exact Hs|]. by apply (IH n2). }
  split; [by eapply Hto|]. split.
  - assert (forall m N1, nsteps step m N0 N1 -> (exists n', (m + n' <= n)%nat /\ on_way N n' N1) \/ rtc step N N1) as Hway.
    { intros m N1 Hs. revert n Hl. induction Hs as [N0|m N0 N2 N1 H Hs IH]; intros n Hw; [left; exists n; by split; [lia|]|].
      destruct (way_step _ _ _ _ Hw H) as [->|(n2 & Hn2 & Hw2)]; [right; eapply rtc_l; [exact H|]; by eapply rtc_nsteps_2|].
      destruct (IH _ Hw2) as [(n' & Hn' & Hw')|?]; [|by right]. left. exists n'. by split; [lia|]. }
    intros m N1 Hs. destruct (Hway _ _ Hs) as [(n' & Hn & Hw)|?]; [left|by right].
    split; [lia|]. split; [by eapply Hto|by apply (way_goes _ _ _ Hw)].
  - subst N. cbn [n_up]. intros -> N2 H. inversion H; subst; [by destruct bs|by destruct bs|done].
Qed.
End net.

(** ** The server's turns *)

Section server.
Context {VS XS : Type} `{HS : ServerSecEnv VS XS} `{HO : Owner VS}.
Context (enabled : list Z) (maxCutText : Z) (inflate : list Z -> zseg) (reverse : bool) (ar : Z).
Abbreviation server := (sconn XS * VS)%type.
Abbreviation processMsg := (SConnection.processMsg enabled 8 maxCutText inflate).
Abbreviation message_loop := (SConnection.message_loop enabled 8 maxCutText inflate).
Abbreviation run := (s_run enabled maxCutText inflate).
Abbreviation accepts := (s_accepts enabled maxCutText inflate).

(** A number of messages that are there, and then the end of the loop. *)
Inductive s_goes : nat -> server -> server -> Prop :=
| s_goes_stop w w' : processMsg w = (Ok false, w') -> s_goes 0 w w'
| s_goes_more n w w1 w' : processMsg w = (Ok true, w1) -> s_goes n w1 w' -> s_goes (S n) w w'.

Lemma s_goes_loop n w w' fuel : s_goes n w w' -> (n < fuel)%nat -> message_loop fuel w = (Ok tt, w').
Proof.
  intros H. revert fuel. induction H as [w w' H|n w w1 w' H _ IH]; intros [|fuel] Hf; try lia; cbn [SConnection.message_loop];
    (eapply run_bind; [exact H|]); [done|]. apply IH. lia.
Qed.

Definition s_flushed (s : server) : server * list Z :=
  let l := c_link s.1 in ((set_link (Link (l_in l) (l_eof l) (l_mark l) [] []) s.1, s.2), l_sent l ++ l_unsent l).

Lemma s_run_goes n s s' : c_state s.1 <> RFBSTATE_CLOSING -> s_goes n s s' -> (n < 8)%nat -> run s = s_flushed s'.
Proof.
  intros Hst Hg Hn. unfold s_run, processSocketReadEvent, mbind, SE_bind, c_get. rewrite bool_decide_false by done.
  unfold or_close, mbind, SE_bind. rewrite (s_goes_loop n s s') by (try done; unfold loop_fuel; lia). done.
Qed.

(** A turn whose bytes are taken all at once. *)
Lemma s_accepts_whole s W s1 s' out n : c_link s.1 = Link [] false None [] [] -> c_state s.1 <> RFBSTATE_CLOSING -> c_failure s.1 = None ->
  W <> [] ->
  (forall d q, W = d ++ q -> q <> [] -> processMsg (s_arrive d s) = (Ok false, s_arrive d s)) ->
  s_goes n (s_arrive W s) s1 -> (n < 8)%nat -> s_flushed s1 = (s', out) -> accepts s W s' out.
Proof.
  destruct s as [c v]. cbn [fst snd]. intros Hl Hst Hf HW Hshort Hg Hn Hfull.
  assert (forall d q, W = d ++ q -> q <> [] -> run (s_arrive d (c, v)) = (s_arrive d (c, v), [])) as Hidle.
  { intros d q Hd Hq. rewrite (s_run_goes 0 _ (s_arrive d (c, v))); [|done|by eapply s_goes_stop, Hshort|lia].
    unfold s_flushed, s_arrive. cbn [fst snd c_link set_link]. by rewrite Hl. }
  split; [done|]. split; [rewrite <- (s_arrive_nil (c, v)) at 1; rewrite (Hidle [] W) by done; by rewrite s_arrive_nil|].
  split; [done|]. split; [|by rewrite (s_run_goes n _ s1)]. intros p q -> Hq. exists (s_arrive p (c, v)). split; [by eapply Hidle|].
  split; [done|]. intros bs q' _ _. unfold s_arrive. cbn [fst snd c_link set_link]. by rewrite Hl.
Qed.

(** *** The streams of a connection *)

Section streams.
Context (st : cstate) (vn : Z * Z) (ss : option (ssecurity XS)) (rights : Z) (fail : option (list Z)) (rw : option rw) (cl : ClientParams)
  (cb : clip) (ks : gmap Z Z) (pt : Point) (rev login : bool) (cd : option (list Z)) (snt uns : list Z) (v : VS).
Abbreviation conn d s u := (SConn (Link d false None s u) st vn ss rights fail rw cl cb ks pt rev login cd, v).

Lemma on_hasData n d : on_link (is_hasData n) (conn d snt uns) = (Ok (n <=? len d), conn d snt uns).
Proof. unfold on_link, is_hasData, mbind, SE_bind, l_get. cbn [fst snd c_link l_in l_eof]. by destruct (n <=? len d). Qed.
Lemma on_readBytes n d : n <= len d -> on_link (is_readBytes n) (conn d snt uns) = (Ok (ztake n d), conn (zdrop n d) snt uns).
Proof.
  intros H. unfold on_link, is_readBytes, mbind, SE_bind, l_get. cbn [fst snd c_link l_in].
  by rewrite (proj2 (Z.ltb_ge _ _)) by done.
Qed.
Lemma on_readU8 d : 1 <= len d -> on_link is_readU8 (conn d snt uns) = (Ok (znth 0 (ztake 1 d) 0), conn (zdrop 1 d) snt uns).
Proof.
  intros H. unfold on_link, is_readU8, is_readBytes, mbind, SE_bind, l_get. cbn [fst snd c_link l_in].
  by rewrite (proj2 (Z.ltb_ge _ _)) by done.
Qed.
Lemma on_writeBytes bs d : on_link (os_writeBytes bs) (conn d snt uns) = (Ok tt, conn d snt (uns ++ bs)).
Proof. done. Qed.
Lemma on_writeU8 z d : on_link (os_writeU8 z) (conn d snt uns) = (Ok tt, conn d snt (uns ++ writeU8 z)).
Proof. done. Qed.
Lemma on_writeU32 z d : on_link (os_writeU32 z) (conn d snt uns) = (Ok tt, conn d snt (uns ++ writeU32 z)).
Proof. done. Qed.
Lemma on_flush d : on_link os_flush (conn d snt uns) = (Ok tt, conn d (snt ++ uns) []).
Proof. done. Qed.
End streams.

Create HintDb conn discriminated.
#[local] Hint Resolve on_hasData on_readBytes on_readU8 on_writeBytes on_writeU8 on_writeU32 on_flush : conn.

(** One call of a handler on a state that is given field by field. *)
Ltac conn_norm :=
  cbv beta iota delta [fst snd c_link c_state c_version c_ssecurity c_rights c_failure c_rw c_client c_clip c_keys c_pointer c_reverse c_login c_closed
       set_link set_state set_version set_ssecurity setAccessRights set_failure set_rw set_client set_login set_closed
       l_in l_eof l_mark l_sent l_unsent set_in set_mark negb].
Ltac conn_step := eapply run_bind; [solve [apply on_hasData|apply on_readBytes; done|apply on_readU8; done|reflexivity]|conn_norm].

(** In the handshake. *)
Definition srv (st : cstate) (ss : option (ssecurity XS)) (rights : Z) (fail : option (list Z)) (rw : option rw) (login : bool)
    (cd : option (list Z)) (l : link) : sconn XS :=
  SConn l st (3, 8) ss rights fail rw init_client (Clip false false false []) ∅ (MkPoint 0 0) reverse login cd.
Definition input (d : list Z) : link := Link d false None [] [].
Definition output (o : list Z) : link := Link [] false None o [].

Definition offer : list Z := writeU8 (u8 (len (GetEnabledSecTypes enabled))) ++ concat (map writeU8 (GetEnabledSecTypes enabled)).

Lemma short_of {A} (W d q : list A) n : W = d ++ q -> q <> [] -> len W = n -> (n <=? len d) = false.
Proof. intros -> Hq <-. apply Z.leb_gt. destruct q; [done|llia]. Qed.

Lemma run_version v : 0 < len (GetEnabledSecTypes enabled) ->
  processMsg (srv RFBSTATE_PROTOCOL_VERSION None ar None None true None (input (version_line 3 8)), v) =
  (Ok true, (srv RFBSTATE_SECURITY_TYPE None ar None None true None (output offer), v)).
Proof.
  intros Hn. unfold SConnection.processMsg, srv, input. conn_step. unfold processVersionMsg. conn_step.
  change (12 <=? len (version_line 3 8)) with true. cbv iota. conn_norm. cbv iota.
  conn_step. change (scan_version (ztake 12 (version_line 3 8))) with (Some (3, 8)). cbv beta iota.
  conn_step. conn_step. conn_step. change (official 8 =? 3) with false. cbv iota.
  destruct (Z.eqb_spec (len (GetEnabledSecTypes enabled)) 0); [lia|]. by repeat conn_step.
Qed.

(** The type a client chooses. *)
Lemma run_type v t s : t ∈ GetEnabledSecTypes enabled -> 0 <= t < 256 -> GetSSecurity enabled t = Ok s ->
  processMsg (srv RFBSTATE_SECURITY_TYPE None ar None None true None (input (writeU8 t)), v) =
  (Ok true, (srv RFBSTATE_SECURITY (Some s) ar None None true None (input []), v)).
Proof.
  intros Ht Hr Hs. unfold SConnection.processMsg, srv, input. conn_step. unfold processSecurityTypeMsg. conn_step.
  rewrite (proj2 (Z.leb_le 1 (len (writeU8 t)))) by llia. conn_norm. eapply run_bind; [apply on_readU8; llia|conn_norm].
  rewrite zdrop_all by llia.
  replace (znth 0 (ztake 1 (writeU8 t)) 0) with t by (by rewrite ztake_eq, znth_writeU8, u8_id by llia).
  unfold processSecurityType. rewrite bool_decide_true by done. conn_norm.
  eapply run_bind; [|reflexivity]. conn_step. rewrite Hs. reflexivity.
Qed.


(** *** The verdict *)

Definition failure (m : list Z) : list Z := writeU32 secResultFailed ++ writeU32 (len m) ++ m.
Definition granted (s : ssecurity XS) : Z := Z.land ar (getAccessRights s).
Definition no_query (rights : Z) : bool :=
  has_rights rights (if reverse then Z.land AccessNoQuery (Z.lnot AccessNoQuery) else AccessNoQuery).
Definition new_rw : rw := RW (ClientMsgs.MSGSTATE_IDLE, 0) init_writer.
Definition rejected (reason : option (list Z)) : list Z := default (text "Connection rejected") reason.

(** What a server does that has finished with the security object. *)
Definition decided (s : ssecurity XS) (d : decision) (v : VS) : res bool * server :=
  match d with
  | Approve => (Ok true, (srv RFBSTATE_INITIALISATION (Some s) (granted s) None (Some new_rw) false None (output (writeU32 secResultOK)), v))
  | Reject reason =>
      (Ok false, (srv RFBSTATE_CLOSING None (granted s) None None true (Some (rejected reason)) (output (failure (rejected reason))), v))
  | AskUser => (Ok false, (srv RFBSTATE_QUERYING (Some s) (granted s) None None true None (input []), v))
  end.

Lemma run_security_done s v d v' : o_queryConnection (getUserName s) (no_query (granted s)) v = (d, v') ->
  security_done (srv RFBSTATE_SECURITY (Some s) ar None None true None (input []), v) = decided s d v'.
Proof.
  intros Hq. unfold security_done, srv, input. conn_step. conn_step. conn_step. unfold queryConnection.
  set (w := {| c_link := _ |}).
  assert (or_close (approveConnection true None) (w, v') =
    (Ok tt, (srv RFBSTATE_INITIALISATION (Some s) (granted s) None (Some new_rw) false None (output (writeU32 secResultOK)), v'))) as Hyes.
  { apply or_close_ok. unfold approveConnection, w. conn_step. rewrite bool_decide_true by done. conn_norm.
    change (before_version (3, 8) 3 8) with false. cbn [negb orb].
    eapply run_bind; [conn_step; reflexivity|]. conn_norm. repeat conn_step. reflexivity. }
  assert (forall reason, or_close (approveConnection false reason) (w, v') =
    (Ok tt, (srv RFBSTATE_CLOSING None (granted s) None None true (Some (rejected reason)) (output (failure (rejected reason))), v'))) as Hno.
  { intros reason. erewrite or_close_throw.
    2: { unfold approveConnection, w. conn_step. rewrite bool_decide_true by done. conn_norm.
      change (before_version (3, 8) 3 8) with false. cbn [negb orb].
      eapply run_bind; [eapply run_bind; [repeat conn_step; reflexivity|]; conn_norm; reflexivity|]. conn_norm. conn_step. reflexivity. }
    2: exact I.
    rewrite close_does. unfold srv, output, failure, rejected, what, set_closed. conn_norm. by rewrite !app_nil_r, !app_nil_l, <- !app_assoc. }
  assert (queryConnection (getUserName s) (w, v) = (Ok tt, (decided s d v').2)) as Hquery.
  { unfold queryConnection. eapply run_bind; [unfold accessCheck, w; conn_step; reflexivity|]. eapply run_bind.
    { unfold owner_ask. conn_norm. fold (granted s). unfold no_query in Hq. rewrite Hq. reflexivity. }
    destruct d; [exact Hyes|apply Hno|reflexivity]. }
  eapply run_bind; [exact Hquery|]. by destruct d.
Qed.

(** *** Without authentication *)

Definition no_auth : ssecurity XS := Direct (Single secTypeNone SNone).

Lemma run_none v : processMsg (srv RFBSTATE_SECURITY (Some no_auth) ar None None true None (input []), v) =
  security_done (srv RFBSTATE_SECURITY (Some no_auth) ar None None true None (input []), v).
Proof. reflexivity. Qed.

(** *** The challenge *)

Definition vnc_auth (a : vncauth) : ssecurity XS := Direct (Single secTypeVncAuth (SVncAuth a)).
Definition asked_for (challenge : list Z) : vncauth := VncAuth true challenge [] AccessNone.

(** A call of the security object. *)
Lemma run_object a a' more l v l' v' : vncauth_processMsg (X := XS) a (l, v) = (Ok (more, a'), (l', v')) ->
  run_security enabled (srv RFBSTATE_SECURITY (Some (vnc_auth a)) ar None None true None l, v) =
  (Ok more, (srv RFBSTATE_SECURITY (Some (vnc_auth a')) ar None None true None l', v')).
Proof.
  intros H. unfold run_security. eapply run_bind; [reflexivity|]. cbn [fst snd c_ssecurity srv].
  apply (run_bind _ _ _ (more, vnc_auth a') (srv RFBSTATE_SECURITY (Some (vnc_auth a)) ar None None true None l', v')); [|reflexivity].
  unfold on_link. cbn [fst snd c_link srv vnc_auth SSecurity.processMsg method_processMsg basic_processMsg]. unfold mbind, SE_bind.
  rewrite H. reflexivity.
Qed.
Lemma run_object_throws a e l v l' v' : vncauth_processMsg (X := XS) a (l, v) = (Throw e, (l', v')) ->
  run_security enabled (srv RFBSTATE_SECURITY (Some (vnc_auth a)) ar None None true None l, v) =
  (Throw e, (srv RFBSTATE_SECURITY (Some (vnc_auth a)) ar None None true None l', v')).
Proof.
  intros H. unfold run_security. eapply run_bind; [reflexivity|]. cbn [fst snd c_ssecurity srv]. apply run_throw.
  unfold on_link. cbn [fst snd c_link srv vnc_auth SSecurity.processMsg method_processMsg basic_processMsg]. unfold mbind, SE_bind.
  rewrite H. reflexivity.
Qed.

Lemma in_security s l v : processMsg (srv RFBSTATE_SECURITY s ar None None true None l, v) =
  processSecurityMsg enabled (srv RFBSTATE_SECURITY s ar None None true None l, v).
Proof. reflexivity. Qed.

Lemma run_challenge v challenge v' : random_data vncAuthChallengeSize v = (Some challenge, v') ->
  processMsg (srv RFBSTATE_SECURITY (Some (vnc_auth new_vncauth)) ar None None true None (input []), v) =
  (Ok false, (srv RFBSTATE_SECURITY (Some (vnc_auth (asked_for challenge))) ar None None true None (output challenge), v')).
Proof.
  intros Hr. rewrite in_security. unfold processSecurityMsg. rewrite (run_object _ (asked_for challenge) false _ _ (output challenge) v'); [reflexivity|].
  unfold vncauth_processMsg. cbn [va_sent new_vncauth negb]. unfold mbind, SE_bind, l_rest_op. cbn [fst snd]. rewrite Hr. reflexivity.
Qed.

Lemma run_response_short v challenge d : len d < 16 ->
  processMsg (srv RFBSTATE_SECURITY (Some (vnc_auth (asked_for challenge))) ar None None true None (input d), v) =
  (Ok false, (srv RFBSTATE_SECURITY (Some (vnc_auth (asked_for challenge))) ar None None true None (input d), v)).
Proof.
  intros Hd. rewrite in_security. unfold processSecurityMsg. rewrite (run_object _ (asked_for challenge) false _ _ (input d) v); [reflexivity|].
  unfold vncauth_processMsg. cbn [va_sent asked_for negb]. unfold mbind, SE_bind, is_hasData, l_get, input, vncAuthChallengeSize. cbn [fst snd l_in l_eof].
  unfold mbind, SE_bind. cbn [fst snd l_in l_eof]. by rewrite (proj2 (Z.leb_gt _ _)) by done.
Qed.

(** What the server makes of an answer; the read-only password is the second. *)
Definition answered (challenge response : list Z) (rights : Z) : vncauth := VncAuth true challenge response rights.
Definition judged (passwds : list Z * list Z) (challenge response : list Z) : option Z :=
  let a := answered challenge response AccessNone in
  if verifyResponse passwds.1 a then Some AccessDefault
  else if negb (len passwds.2 =? 0) && verifyResponse passwds.2 a then Some AccessView
  else None.

Lemma object_response v challenge response : len response = 16 -> len (getVncAuthPasswd v).1 <> 0 ->
  vncauth_processMsg (X := XS) (asked_for challenge) (input response, v) =
  match judged (getVncAuthPasswd v) challenge response with
  | Some rights => (Ok (true, answered challenge response rights), (input [], v))
  | None => (Throw (auth_error auth_failed), (input [], v))
  end.
Proof.
  intros Hl Hp. unfold vncauth_processMsg. cbn [va_sent asked_for negb]. eapply run_bind.
  { unfold is_hasData, mbind, SE_bind, l_get, input. cbn [fst snd l_in l_eof]. unfold vncAuthChallengeSize.
    rewrite (proj2 (Z.leb_le _ _)) by lia. reflexivity. }
  cbn [negb]. eapply run_bind.
  { unfold is_readBytes, mbind, SE_bind, l_get, input. cbn [fst snd l_in l_eof]. unfold vncAuthChallengeSize.
    rewrite (proj2 (Z.ltb_ge _ _)) by lia. reflexivity. }
  cbn [set_in fst snd l_in l_eof l_mark l_sent l_unsent]. unfold vncAuthChallengeSize. rewrite zdrop_all, ztake_eq by lia.
  eapply run_bind; [reflexivity|]. unfold judged, answered, asked_for. cbn [fst snd va_challenge va_rights va_sent].
  destruct (getVncAuthPasswd v) as [passwd passwdReadOnly]. cbn [fst snd] in *. destruct (Z.eqb_spec (len passwd) 0); [done|].
  destruct (verifyResponse passwd _); [done|]. by destruct (_ && _).
Qed.

(** A right answer. *)
Lemma run_response v challenge response rights : len response = 16 -> len (getVncAuthPasswd v).1 <> 0 ->
  judged (getVncAuthPasswd v) challenge response = Some rights ->
  processMsg (srv RFBSTATE_SECURITY (Some (vnc_auth (asked_for challenge))) ar None None true None (input response), v) =
  security_done (srv RFBSTATE_SECURITY (Some (vnc_auth (answered challenge response rights))) ar None None true None (input []), v).
Proof.
  intros Hl Hp Hj. rewrite in_security. unfold processSecurityMsg. rewrite (run_object _ (answered challenge response rights) true _ _ (input []) v); [reflexivity|].
  rewrite object_response by done. by rewrite Hj.
Qed.

(** A wrong one. *)
Lemma run_wrong v challenge response : len response = 16 -> len (getVncAuthPasswd v).1 <> 0 ->
  judged (getVncAuthPasswd v) challenge response = None ->
  processMsg (srv RFBSTATE_SECURITY (Some (vnc_auth (asked_for challenge))) ar None None true None (input response), v) =
  (Ok true, (srv RFBSTATE_SECURITY_FAILURE (Some (vnc_auth (asked_for challenge))) ar (Some auth_failed) None true None (input []), v)).
Proof.
  intros Hl Hp Hj. rewrite in_security. unfold processSecurityMsg. rewrite (run_object_throws _ (auth_error auth_failed) _ _ (input []) v); [reflexivity|].
  rewrite object_response by done. by rewrite Hj.
Qed.
Lemma run_failed s v : processMsg (srv RFBSTATE_SECURITY_FAILURE s ar (Some auth_failed) None true None (input []), v) =
  (Ok false, (srv RFBSTATE_SECURITY_FAILURE s ar (Some auth_failed) None true None (input []), v)).
Proof. reflexivity. Qed.

Lemma run_failure_timer s (v : VS) : handleAuthFailureTimeout (srv RFBSTATE_SECURITY_FAILURE s ar (Some auth_failed) None true None (input []), v) =
  (Ok tt, (srv RFBSTATE_CLOSING None ar None None true (Some auth_failed) (output (failure auth_failed)), v)).
Proof. reflexivity. Qed.


(** *** The client's message *)

Definition ready_client (d : desktop_info) : ClientParams :=
  let c := cp init_client in
  MkClient (MkCommon (d_width d) (d_height d) (d_layout d) (d_pf d) (d_name d) (cursor_ c) (d_led d) (clipFlags c) (clipSizes c))
    (cp_majorVersion init_client) (cp_minorVersion init_client) (cp_levels init_client) (encodings_ init_client) (cursorPos_ init_client).
Definition server_init (d : desktop_info) : list Z := writeServerInit (d_width d) (d_height d) (d_pf d) (d_name d).

(** What [setDimensions] and [setPF] demand of the desktop. *)
Definition fit (d : desktop_info) : bool :=
  Screens.validate (d_layout d) (d_width d) (d_height d) && ((bpp (d_pf d) =? 8) || (bpp (d_pf d) =? 16) || (bpp (d_pf d) =? 32)).

Definition normal (s : option (ssecurity XS)) (rights : Z) (d : desktop_info) (l : link) : sconn XS :=
  SConn l RFBSTATE_NORMAL (3, 8) s rights None (Some new_rw) (ready_client d) (Clip false false false []) ∅ (MkPoint 0 0) reverse false None.

Lemma desktop_ready s rights v : fit (o_desktop v) = true ->
  desktopReady (srv RFBSTATE_CLIENT_READY s rights None (Some new_rw) false None (input []), v) =
  (Ok tt, (normal s rights (o_desktop v) (output (server_init (o_desktop v))), v)).
Proof.
  intros [Hv Hb]%andb_prop. unfold desktopReady, srv, input. conn_step. rewrite bool_decide_true by done. conn_norm. conn_step.
  unfold setDimensions. cbn [d_width d_height d_layout]. rewrite Hv. cbn [negb]. cbv iota. unfold setPF.
  replace (negb (bpp (d_pf (o_desktop v)) =? 8) && negb (bpp (d_pf (o_desktop v)) =? 16) && negb (bpp (d_pf (o_desktop v)) =? 32)) with false
    by (by destruct (_ =? 8), (_ =? 16), (_ =? 32)).
  cbv iota beta. conn_step. conn_step. conn_step. conn_step. reflexivity.
Qed.

(** The flags a client is admitted with. *)
Definition exclusive (rights : Z) : bool :=
  has_rights rights (if reverse then Z.land AccessNonShared (Z.lnot AccessNoQuery) else AccessNonShared).
Definition shared_of (shared : bool) (rights : Z) (v : VS) : bool :=
  let shared := if o_alwaysShared v || reverse then true else shared in
  let shared := if negb (exclusive rights) then true else shared in
  if o_neverShared v then false else shared.

Lemma run_client_init s rights v v' (shared : bool) :
  o_clientReady (shared_of shared rights v) (exclusive rights) v = (None, v') -> o_desktopReady v' = true -> fit (o_desktop v') = true ->
  processMsg (srv RFBSTATE_INITIALISATION s rights None (Some new_rw) false None (input (writeU8 (b2z shared))), v) =
  (Ok true, (normal s rights (o_desktop v') (output (server_init (o_desktop v'))), v')).
Proof.
  intros Hready Hd Hfit. unfold SConnection.processMsg. eapply run_bind; [reflexivity|]. cbn [fst snd c_state srv]. unfold processInitMsg.
  apply (run_bind _ _ _ (true, [ClientMsgs.clientInit shared]) (srv RFBSTATE_INITIALISATION s rights None (Some new_rw) false None (input []), v)).
  { unfold on_link, is_run, mbind, SE_bind, l_get, srv, input. conn_norm.
    replace (outcome ClientMsgs.readClientInit (writeU8 (b2z shared))) with (Ok (A := bool * list Z * list sevent) (true, [], [ClientMsgs.clientInit shared])).
    { reflexivity. }
    rewrite <- (app_nil_r (writeU8 (b2z shared))). unfold outcome, ClientMsgs.readClientInit, fresh. read_fields. by rewrite z2b_u8. }
  cbn [fst snd negb].
  apply (run_bind _ _ _ tt (normal s rights (o_desktop v') (output (server_init (o_desktop v'))), v')); [|reflexivity].
  unfold clientInit. eapply run_bind; [reflexivity|]. unfold clientReady. eapply run_bind; [reflexivity|]. eapply run_bind; [reflexivity|].
  eapply run_bind; [unfold accessCheck; eapply run_bind; reflexivity|]. cbv beta zeta.
  apply (run_bind _ _ _ None (srv RFBSTATE_CLIENT_READY s rights None (Some new_rw) false None (input []), v')).
  { unfold owner_ask, srv. conn_norm. unfold shared_of, exclusive, negb in Hready. by rewrite Hready. }
  eapply run_bind; [reflexivity|]. eapply run_bind; [reflexivity|]. cbn [fst snd]. rewrite Hd. by apply desktop_ready.
Qed.

Lemma run_normal s rights d o v : processMsg (normal s rights d (output o), v) = (Ok false, (normal s rights d (output o), v)).
Proof. reflexivity. Qed.



(** *** The turns *)

Lemma s_arrive_srv d st ss rights fail rw login cd (v : VS) :
  s_arrive d (srv st ss rights fail rw login cd (input []), v) = (srv st ss rights fail rw login cd (input d), v).
Proof. done. Qed.

Definition after (s : ssecurity XS) (d : decision) (v : VS) : server :=
  match d with
  | Approve => (srv RFBSTATE_INITIALISATION (Some s) (granted s) None (Some new_rw) false None (input []), v)
  | Reject reason => (srv RFBSTATE_CLOSING None (granted s) None None true (Some (rejected reason)) (input []), v)
  | AskUser => (srv RFBSTATE_QUERYING (Some s) (granted s) None None true None (input []), v)
  end.
Definition told (d : decision) : list Z :=
  match d with Approve => writeU32 secResultOK | Reject reason => failure (rejected reason) | AskUser => [] end.

Lemma flushed_output st ss rights fail rw login cd o (v : VS) :
  s_flushed (srv st ss rights fail rw login cd (output o), v) = ((srv st ss rights fail rw login cd (input []), v), o).
Proof. unfold s_flushed. cbn. by rewrite app_nil_r. Qed.

Lemma decided_goes s d v w : processMsg w = decided s d v -> exists n s1, s_goes n w s1 /\ (n < 2)%nat /\ s_flushed s1 = (after s d v, told d).
Proof.
  intros Hp. destruct d as [|reason|]; cbn [decided] in Hp; unfold after, told.
  - eexists 1%nat, _. split; [eapply s_goes_more; [exact Hp|]; apply s_goes_stop; reflexivity|]. split; [lia|apply flushed_output].
  - eexists 0%nat, _. split; [apply s_goes_stop; exact Hp|]. split; [lia|apply flushed_output].
  - eexists 0%nat, _. split; [apply s_goes_stop; exact Hp|]. split; [lia|]. reflexivity.
Qed.

Lemma idle_version d q v : version_line 3 8 = d ++ q -> q <> [] ->
  processMsg (srv RFBSTATE_PROTOCOL_VERSION None ar None None true None (input d), v) =
  (Ok false, (srv RFBSTATE_PROTOCOL_VERSION None ar None None true None (input d), v)).
Proof.
  intros Hd Hq. unfold SConnection.processMsg, srv, input. conn_step. unfold processVersionMsg. conn_step.
  by rewrite (short_of _ _ _ 12 Hd Hq).
Qed.

Lemma server_version v : 0 < len (GetEnabledSecTypes enabled) ->
  accepts (srv RFBSTATE_PROTOCOL_VERSION None ar None None true None (input []), v) (version_line 3 8)
    (srv RFBSTATE_SECURITY_TYPE None ar None None true None (input []), v) offer.
Proof.
  intros Hn. eapply (s_accepts_whole _ _ _ _ _ 1); try done.
  - intros d q Hd Hq. rewrite s_arrive_srv. by eapply idle_version.
  - rewrite s_arrive_srv. eapply s_goes_more; [by apply run_version|]. apply s_goes_stop. reflexivity.
  - lia.
  - apply flushed_output.
Qed.

Lemma writeU8_split z (d q : list Z) : writeU8 z = d ++ q -> q <> [] -> d = [].
Proof.
  intros H Hq. apply len_zero_nil. apply (f_equal (fun l => len l)) in H. destruct q; [done|]. pose proof (len_nonneg d).
  rewrite len_writeU8 in H. llia.
Qed.

Lemma server_none v d v' : secTypeNone ∈ GetEnabledSecTypes enabled ->
  o_queryConnection (getUserName no_auth) (no_query (granted no_auth)) v = (d, v') ->
  accepts (srv RFBSTATE_SECURITY_TYPE None ar None None true None (input []), v) (writeU8 secTypeNone) (after no_auth d v') (told d).
Proof.
  intros Ht Hq. pose proof (run_none v) as Hr. rewrite (run_security_done _ _ _ _ Hq) in Hr.
  destruct (decided_goes _ _ _ _ Hr) as (n & s1 & Hg & Hn & Hf). apply (s_accepts_whole _ _ s1 _ _ (S n)); try done.
  - intros e q He Hne. apply writeU8_split in He as ->; [|done]. reflexivity.
  - rewrite s_arrive_srv. eapply s_goes_more; [|exact Hg]. apply run_type; [done|done|].
    unfold GetSSecurity. destruct (IsSupported enabled secTypeNone) eqn:Hs; [done|].
    apply enabled_below in Ht as [Ht|]; [|done]. by rewrite (proj2 (IsSupported_spec _ _) (or_introl Ht)) in Hs.
  - lia.
Qed.

Lemma server_vnc v challenge v' : secTypeVncAuth ∈ GetEnabledSecTypes enabled ->
  random_data vncAuthChallengeSize v = (Some challenge, v') ->
  accepts (srv RFBSTATE_SECURITY_TYPE None ar None None true None (input []), v) (writeU8 secTypeVncAuth)
    (srv RFBSTATE_SECURITY (Some (vnc_auth (asked_for challenge))) ar None None true None (input []), v') challenge.
Proof.
  intros Ht Hq. eapply (s_accepts_whole _ _ _ _ _ 1); try done.
  - intros e q He Hne. apply writeU8_split in He as ->; [|done]. reflexivity.
  - rewrite s_arrive_srv. eapply s_goes_more; [|apply s_goes_stop; by apply run_challenge]. apply run_type; [done|done|].
    unfold GetSSecurity. destruct (IsSupported enabled secTypeVncAuth) eqn:Hs; [done|].
    apply enabled_below in Ht as [Ht|]; [|done]. by rewrite (proj2 (IsSupported_spec _ _) (or_introl Ht)) in Hs.
  - lia.
  - apply flushed_output.
Qed.

Section answer.
Context (v : VS) (challenge response : list Z).
Hypothesis Hl : len response = 16.
Hypothesis Hpasswd : len (getVncAuthPasswd v).1 <> 0.

Lemma response_there : response <> [].
Proof. intros ->. done. Qed.
Lemma idle_response d q : response = d ++ q -> q <> [] ->
  processMsg (s_arrive d (srv RFBSTATE_SECURITY (Some (vnc_auth (asked_for challenge))) ar None None true None (input []), v)) =
  (Ok false, s_arrive d (srv RFBSTATE_SECURITY (Some (vnc_auth (asked_for challenge))) ar None None true None (input []), v)).
Proof.
  intros Hd Hq. rewrite s_arrive_srv. apply run_response_short. rewrite Hd in Hl. destruct q; [done|llia].
Qed.

Lemma server_answer rights d v' : judged (getVncAuthPasswd v) challenge response = Some rights ->
  let s := vnc_auth (answered challenge response rights) in
  o_queryConnection (getUserName s) (no_query (granted s)) v = (d, v') ->
  accepts (srv RFBSTATE_SECURITY (Some (vnc_auth (asked_for challenge))) ar None None true None (input []), v) response
    (after s d v') (told d).
Proof.
  intros Hj s Hq. subst s. pose proof (run_response v challenge response rights Hl Hpasswd Hj) as Hr. rewrite (run_security_done _ _ _ _ Hq) in Hr.
  destruct (decided_goes _ _ _ _ Hr) as (n & s1 & Hg & Hn & Hf). apply (s_accepts_whole _ _ s1 _ _ n); try done.
  - exact response_there.
  - exact idle_response.
  - lia.
Qed.

Lemma server_wrong : judged (getVncAuthPasswd v) challenge response = None ->
  accepts (srv RFBSTATE_SECURITY (Some (vnc_auth (asked_for challenge))) ar None None true None (input []), v) response
    (srv RFBSTATE_SECURITY_FAILURE (Some (vnc_auth (asked_for challenge))) ar (Some auth_failed) None true None (input []), v) [].
Proof.
  intros Hj. eapply (s_accepts_whole _ _ _ _ _ 1); try done.
  - exact response_there.
  - exact idle_response.
  - rewrite s_arrive_srv. eapply s_goes_more; [by apply run_wrong|]. apply s_goes_stop, run_failed.
  - lia.
  - reflexivity.
Qed.
End answer.

Lemma server_client_init s rights v v' (shared : bool) :
  o_clientReady (shared_of shared rights v) (exclusive rights) v = (None, v') -> o_desktopReady v' = true -> fit (o_desktop v') = true ->
  accepts (srv RFBSTATE_INITIALISATION s rights None (Some new_rw) false None (input []), v) (writeU8 (b2z shared))
    (normal s rights (o_desktop v') (input []), v') (server_init (o_desktop v')).
Proof.
  intros Hr Hd Hf. eapply (s_accepts_whole _ _ _ _ _ 1); try done.
  - intros e q He Hne. apply writeU8_split in He as ->; [|done]. reflexivity.
  - rewrite s_arrive_srv. eapply s_goes_more; [by apply run_client_init|]. apply s_goes_stop, run_normal.
  - lia.
  - unfold s_flushed. cbn. by rewrite app_nil_r.
Qed.
End server.

(** ** The client's turns *)

Section client.
Context {VC XC : Type} `{HC : ClientSecEnv VC XC} `{HV : Viewer VC}.
Context (enabled : list Z) (h264 shared : bool) (wi : wishes) (ask : asking).
Abbreviation client := (cconn XC * VC)%type.
Abbreviation processMsg := (k_processMsg enabled h264).
Abbreviation run := (k_run enabled h264).
Abbreviation accepts := (k_accepts enabled h264).

Inductive k_goes : nat -> client -> option exn -> client -> Prop :=
| k_goes_stop w w' : processMsg w = (Ok false, w') -> k_goes 0 w None w'
| k_goes_throw w e w' : processMsg w = (Throw e, w') -> k_goes 0 w (Some e) w'
| k_goes_more n w w1 e w' : processMsg w = (Ok true, w1) -> k_goes n w1 e w' -> k_goes (S n) w e w'.

(** What becomes of the streams at the end of a loop. *)
Definition k_finish (e : option exn) (k : client) : client * option exn * list Z :=
  let k' := match e with None => (k_on_link os_flush k).2 | Some _ => k end in
  let '(k'', out) := k_collect k' in (k'', e, out).

Lemma k_goes_loop n w e w' fuel : k_goes n w e w' -> (n < fuel)%nat ->
  k_loop enabled h264 fuel w = match e with None => k_on_link os_flush w' | Some e => (Throw e, w') end.
Proof.
  intros H. revert fuel. induction H as [w w' H|w e w' H|n w w1 e w' H _ IH]; intros [|fuel] Hf; try lia; cbn [k_loop].
  - by eapply run_bind.
  - by apply run_throw.
  - eapply run_bind; [exact H|]. apply IH. lia.
Qed.

Lemma k_run_goes n k e k' : k_goes n k e k' -> (n < 8)%nat -> run k = k_finish e k'.
Proof.
  intros Hg Hn. unfold k_run. rewrite (k_goes_loop n k e k') by (done || lia). unfold k_finish.
  by destruct e.
Qed.

Lemma k_arrive_arrive p q (k : client) : k_arrive q (k_arrive p k) = k_arrive (p ++ q) k.
Proof. destruct k as [c v]. unfold k_arrive. cbn. by rewrite app_assoc. Qed.

Lemma idle_finish d (k : client) : k_link k.1 = Link [] false None [] [] -> k_finish None (k_arrive d k) = (k_arrive d k, None, []).
Proof. destruct k as [c v]. cbn [fst]. intros Hl. unfold k_finish, k_arrive, k_on_link, k_collect. cbn. by rewrite Hl. Qed.

(** A turn whose bytes are taken all at once. *)
Lemma k_accepts_whole k W e k1 k' out n : k_link k.1 = Link [] false None [] [] -> W <> [] ->
  (forall d q, W = d ++ q -> q <> [] -> processMsg (k_arrive d k) = (Ok false, k_arrive d k)) ->
  k_goes n (k_arrive W k) e k1 -> (n < 8)%nat -> k_finish e k1 = (k', e, out) -> accepts k W k' e out.
Proof.
  intros Hl HW Hshort Hg Hn Hfull.
  assert (forall d q, W = d ++ q -> q <> [] -> run (k_arrive d k) = (k_arrive d k, None, [])) as Hidle.
  { intros d q Hd Hq. rewrite (k_run_goes 0 _ None (k_arrive d k)); [by apply idle_finish|by eapply k_goes_stop, Hshort|lia]. }
  split; [done|]. split; [rewrite <- (k_arrive_nil k) at 1; rewrite (Hidle [] W) by done; by rewrite k_arrive_nil|].
  split; [|by rewrite (k_run_goes n _ e k1)]. intros p q -> Hq. exists (k_arrive p k). split; [by eapply Hidle|].
  intros bs q' _ _. by rewrite k_arrive_arrive.
Qed.

(** A turn of two messages, the first of which writes nothing. *)
Lemma k_accepts_twice k W1 W2 k1 e k2 k' out n : k_link k.1 = Link [] false None [] [] -> k_link k1.1 = Link [] false None [] [] ->
  W1 <> [] -> W2 <> [] ->
  (forall d q, W1 = d ++ q -> q <> [] -> processMsg (k_arrive d k) = (Ok false, k_arrive d k)) ->
  (forall d, processMsg (k_arrive (W1 ++ d) k) = (Ok true, k_arrive d k1)) ->
  (forall d q, W2 = d ++ q -> q <> [] -> processMsg (k_arrive d k1) = (Ok false, k_arrive d k1)) ->
  k_goes n (k_arrive W2 k1) e k2 -> (n < 7)%nat -> k_finish e k2 = (k', e, out) -> accepts k (W1 ++ W2) k' e out.
Proof.
  intros Hl Hl1 HW1 HW2 Hshort1 Hstep Hshort2 Hg Hn Hfull.
  assert (forall d q, W1 = d ++ q -> q <> [] -> run (k_arrive d k) = (k_arrive d k, None, [])) as Hidle.
  { intros d q Hd Hq. rewrite (k_run_goes 0 _ None (k_arrive d k)); [by apply idle_finish|by eapply k_goes_stop, Hshort1|lia]. }
  assert (forall d q, W2 = d ++ q -> run (k_arrive (W1 ++ d) k) = run (k_arrive d k1)) as Hthrough.
  { intros d q Hd. destruct (decide (q = [])) as [->|Hq].
    - rewrite app_nil_r in Hd. subst d. rewrite (k_run_goes n (k_arrive W2 k1) e k2) by (done || lia).
      rewrite (k_run_goes (S n) (k_arrive (W1 ++ W2) k) e k2); [done|eapply k_goes_more; [apply Hstep|exact Hg]|lia].
    - rewrite (k_run_goes 0 (k_arrive d k1) None (k_arrive d k1)) by (lia || by eapply k_goes_stop, Hshort2).
      rewrite (k_run_goes 1 (k_arrive (W1 ++ d) k) None (k_arrive d k1)); [done| |lia]. eapply k_goes_more; [apply Hstep|]. by eapply k_goes_stop, Hshort2. }
  split; [by destruct W1|]. split; [rewrite <- (k_arrive_nil k) at 1; rewrite (Hidle [] W1) by done; by rewrite k_arrive_nil|].
  split; [|rewrite (Hthrough W2 []) by (by rewrite app_nil_r); by rewrite (k_run_goes n _ e k2) by (done || lia)].
  intros p q Hpq Hq. symmetry in Hpq. apply app_eq_inv in Hpq as [(p2 & -> & ->)|(q1 & -> & ->)].
  - exists (k_arrive p2 k1). split.
    + rewrite (Hthrough p2 q) by done.
      rewrite (k_run_goes 0 _ None (k_arrive p2 k1)); [by apply idle_finish|by eapply k_goes_stop, Hshort2|lia].
    + intros bs q' _ ->. rewrite k_arrive_arrive, <- app_assoc. symmetry. apply (Hthrough _ q'). by rewrite app_assoc.
  - destruct (decide (q1 = [])) as [->|Hq1].
    + exists k1. rewrite app_nil_r in *. cbn [app] in *. split.
      * rewrite <- (app_nil_r p). rewrite (Hthrough [] W2) by done.
        rewrite (k_run_goes 0 _ None (k_arrive [] k1)); [|by eapply k_goes_stop, Hshort2|lia]. rewrite idle_finish by done. by rewrite k_arrive_nil.
      * intros bs q' _ HW. symmetry. by apply (Hthrough _ q').
    + exists (k_arrive p k). split; [by eapply Hidle|]. intros bs q' _ _. by rewrite k_arrive_arrive.
Qed.

(** *** The streams of a connection *)

Section streams.
Context (st : kstate) (cs : option (csecurity XC)) (sh : bool) (p : ServerParams) (w : wishes) (a : asking)
  (mk : option (list Z)) (snt uns : list Z) (v : VC).
Abbreviation conn d m := (CConn (Link d false m snt uns) st cs sh p w a, v).

Lemma k_hasData n d : k_on_link (is_hasData n) (conn d mk) = (Ok (n <=? len d), conn d mk).
Proof. unfold k_on_link, is_hasData, mbind, SE_bind, l_get. cbn [fst snd k_link l_in l_eof]. by destruct (n <=? len d). Qed.
Lemma k_readBytes n d : n <= len d -> k_on_link (is_readBytes n) (conn d mk) = (Ok (ztake n d), conn (zdrop n d) mk).
Proof.
  intros H. unfold k_on_link, is_readBytes, mbind, SE_bind, l_get. cbn [fst snd k_link l_in].
  by rewrite (proj2 (Z.ltb_ge _ _)) by done.
Qed.
Lemma k_readU8 x d : k_on_link is_readU8 (conn (x :: d) mk) = (Ok x, conn d mk).
Proof.
  unfold k_on_link, is_readU8, is_readBytes, mbind, SE_bind, l_get. cbn [fst snd k_link l_in].
  rewrite (proj2 (Z.ltb_ge _ _)) by llia. done.
Qed.
Lemma k_readU32 z d : k_on_link is_readU32 (conn (writeU32 z ++ d) mk) = (Ok (u32 z), conn d mk).
Proof.
  unfold k_on_link, is_readU32, is_readBytes, mbind, SE_bind, l_get. cbn [fst snd k_link l_in].
  rewrite (proj2 (Z.ltb_ge _ _)) by llia. unfold l_change, set_in. cbn [fst snd l_in l_eof l_mark l_sent l_unsent].
  rewrite ztake_app, zdrop_app by llia. unfold mret, SE_ret. by rewrite be32_write.
Qed.
Lemma k_hasDataOrRestore_short n d r : len d < n -> k_on_link (is_hasDataOrRestore n) (conn d (Some r)) = (Ok false, conn r None).
Proof.
  intros H. unfold k_on_link, is_hasDataOrRestore, is_hasData, is_gotoRestorePoint, mbind, SE_bind, l_get. cbn [fst snd k_link l_in l_eof].
  rewrite (proj2 (Z.leb_gt _ _)) by done. done.
Qed.
Lemma k_hasDataOrRestore_there n d r : n <= len d ->
  k_on_link (is_hasDataOrRestore n) (conn d (Some r)) = (Ok true, conn d (Some r)).
Proof.
  intros H. unfold k_on_link, is_hasDataOrRestore, is_hasData, mbind, SE_bind, l_get. cbn [fst snd k_link l_in l_eof].
  rewrite (proj2 (Z.leb_le _ _)) by done. done.
Qed.
End streams.

(** A call of a handler on a state that is given field by field. *)
Ltac k_norm :=
  cbv beta iota delta [fst snd k_link k_state k_csecurity CConnection.k_shared k_server kset_link kset_state kset_csecurity kset_server
       k_wishes k_asking kset_wishes kset_asking l_in l_eof l_mark l_sent l_unsent set_in set_mark negb].
Ltac k_step := eapply run_bind; [solve [apply k_hasData|apply k_readU8|apply k_readU32|apply k_readBytes; done|reflexivity]|k_norm].

Definition knt (st : kstate) (cs : option (csecurity XC)) (p : ServerParams) (l : link) : cconn XC := CConn l st cs shared p wi ask.
Definition talks38 : ServerParams := server_setVersion 3 8 init_server.

Lemma idle_kversion d q v : version_line 3 8 = d ++ q -> q <> [] ->
  processMsg (knt K_PROTOCOL_VERSION None init_server (input d), v) = (Ok false, (knt K_PROTOCOL_VERSION None init_server (input d), v)).
Proof.
  intros Hd Hq. unfold k_processMsg, knt, input. k_step. unfold k_processVersionMsg. k_step.
  by rewrite (short_of _ _ _ 12 Hd Hq).
Qed.

Lemma krun_version v :
  processMsg (knt K_PROTOCOL_VERSION None init_server (input (version_line 3 8)), v) =
  (Ok true, (knt K_SECURITY_TYPES None talks38 (output (version_line 3 8)), v)).
Proof.
  unfold k_processMsg, knt, input. k_step. unfold k_processVersionMsg. k_step. change (12 <=? len (version_line 3 8)) with true. k_norm.
  k_step. change (scan_version (ztake 12 (version_line 3 8))) with (Some (3, 8)). cbv beta iota.
  k_step. change (beforeVersion 3 8 3 3) with false. cbv iota. change (agreed_version 3 8) with (3, 8). cbv zeta.
  repeat k_step. reflexivity.
Qed.

(** *** The types *)

Definition offered (types : list Z) : list Z := writeU8 (u8 (len types)) ++ concat (map writeU8 types).

Lemma concat_writeU8 types : Forall (fun t => 0 <= t < 256) types -> concat (map writeU8 types) = types.
Proof.
  induction 1 as [|t ts Ht _ IH]; [done|]. cbn [map concat]. rewrite IH, writeU8_eq, u8_id by done. done.
Qed.

Lemma idle_types types d q v : 0 < len types < 256 -> Forall (fun t => 0 <= t < 256) types -> offered types = d ++ q -> q <> [] ->
  processMsg (knt K_SECURITY_TYPES None talks38 (input d), v) = (Ok false, (knt K_SECURITY_TYPES None talks38 (input d), v)).
Proof.
  intros Hn Ht Hd Hq. unfold offered in Hd. rewrite concat_writeU8, (u8_id (len types)), writeU8_eq, u8_id in Hd by (done || lia).
  unfold k_processMsg, knt, input. k_step. unfold k_processSecurityTypesMsg. k_step. change ((k_version _).1 =? 3) with true.
  change ((k_version _).2 =? 3) with false. cbn [andb]. cbv iota. k_step.
  destruct d as [|x d]; [done|]. cbn [app] in Hd. injection Hd as <- Hd.
  rewrite (proj2 (Z.leb_le 1 _)) by llia. cbv iota. k_step. k_step.
  eapply run_bind; [apply k_hasDataOrRestore_short; rewrite Hd; destruct q; [done|llia]|]. reflexivity.
Qed.

Lemma krun_types types v r : 0 < len types < 256 -> Forall (fun t => 0 <= t < 256) types ->
  let t := first_common types (GetEnabledSecTypes enabled) in
  k_chosen enabled t (knt K_SECURITY_TYPES None talks38 (output (if t =? secTypeInvalid then [] else writeU8 t)), v) = r ->
  processMsg (knt K_SECURITY_TYPES None talks38 (input (offered types)), v) = r.
Proof.
  intros Hn Ht t Hr. unfold offered. rewrite concat_writeU8, (u8_id (len types)), writeU8_eq, u8_id by (done || lia). cbn [app].
  unfold k_processMsg, knt, input. k_step. unfold k_processSecurityTypesMsg. k_step. change ((k_version _).1 =? 3) with true.
  change ((k_version _).2 =? 3) with false. cbn [andb]. cbv iota. k_step.
  rewrite (proj2 (Z.leb_le 1 _)) by llia. cbv iota. k_step. k_step.
  eapply run_bind; [apply k_hasDataOrRestore_there; lia|]. cbn [negb]. k_step. destruct (Z.eqb_spec (len types) 0); [lia|].
  eapply run_bind; [apply k_readBytes; lia|]. rewrite ztake_all, zdrop_all by lia. fold t.
  eapply run_bind; [|exact Hr]. by destruct (t =? secTypeInvalid).
Qed.

Definition c_none : csecurity XC := CDirect (CSingle secTypeNone CNone).
Definition c_vnc : csecurity XC := CDirect (CSingle secTypeVncAuth CVncAuth).

Lemma first_common_in theirs ours : first_common theirs ours <> secTypeInvalid ->
  first_common theirs ours ∈ theirs /\ first_common theirs ours ∈ ours.
Proof.
  unfold first_common. destruct (List.find _ theirs) as [t|] eqn:Hf; [|done]. intros _.
  apply List.find_some in Hf as [Hin Hd]. split; [by apply list_elem_of_In|by apply bool_decide_eq_true in Hd].
Qed.

Lemma chosen_object t s : t ∈ GetEnabledSecTypes enabled -> t = secTypeNone /\ s = c_none \/ t = secTypeVncAuth /\ s = c_vnc ->
  GetCSecurity enabled t = Ok s.
Proof.
  intros Ht Hs. unfold GetCSecurity. destruct (IsSupported enabled t) eqn:He.
  - by destruct Hs as [[-> ->]|[-> ->]].
  - apply enabled_below in Ht as [Ht|Ht]; [by rewrite (proj2 (IsSupported_spec _ _) (or_introl Ht)) in He|].
    by rewrite (proj2 (IsSupported_spec _ _) (or_intror Ht)) in He.
Qed.

Lemma krun_chosen t s o v : GetCSecurity enabled t = Ok s -> t <> secTypeInvalid ->
  k_chosen enabled t (knt K_SECURITY_TYPES None talks38 (output o), v) = (Ok true, (knt K_SECURITY (Some s) talks38 (output o), v)).
Proof.
  intros Hs Ht. unfold k_chosen, knt. destruct (Z.eqb_spec t secTypeInvalid); [done|]. k_step. rewrite Hs. by repeat k_step.
Qed.

Lemma krun_challenge challenge v up v' : len challenge = 16 -> getUserPasswd false false v = (Ok up, v') ->
  processMsg (knt K_SECURITY (Some c_vnc) talks38 (input challenge), v) =
  (Ok true, (knt K_SECURITY_RESULT (Some c_vnc) talks38 (output (vnc_response cword up.2 challenge)), v')).
Proof.
  intros Hl Hp. unfold k_processMsg. eapply run_bind; [reflexivity|]. cbn [fst snd k_state knt]. unfold k_processSecurityMsg.
  eapply run_bind; [reflexivity|]. cbn [fst snd k_csecurity knt].
  apply (run_bind _ _ _ (true, c_vnc) (knt K_SECURITY (Some c_vnc) talks38 (output (vnc_response cword up.2 challenge)), v')); [|reflexivity].
  unfold k_on_link. cbn [fst snd k_link knt].
  assert (cprocessMsg enabled c_vnc (input challenge, v) = (Ok (true, c_vnc), (output (vnc_response cword up.2 challenge), v'))) as ->; [|done].
  unfold cprocessMsg, c_vnc. apply (run_bind _ _ _ (true, CSingle secTypeVncAuth CVncAuth) (output (vnc_response cword up.2 challenge), v')); [|done].
  unfold cmethod_processMsg. apply (run_bind _ _ _ (true, CVncAuth) (output (vnc_response cword up.2 challenge), v')); [|done].
  unfold cbasic_processMsg. apply (run_bind _ _ _ true (output (vnc_response cword up.2 challenge), v')); [|done].
  unfold cvncauth_processMsg, vncAuthChallengeSize. eapply run_bind.
  { unfold is_hasData, mbind, SE_bind, l_get, input. cbn [fst snd l_in l_eof]. rewrite (proj2 (Z.leb_le _ _)) by lia. reflexivity. }
  cbn [negb]. eapply run_bind.
  { unfold is_readBytes, mbind, SE_bind, l_get, input. cbn [fst snd l_in]. rewrite (proj2 (Z.ltb_ge _ _)) by lia. reflexivity. }
  cbn [set_in fst snd l_in l_eof l_mark l_sent l_unsent]. rewrite zdrop_all, ztake_eq by lia.
  eapply run_bind; [unfold l_rest_throw; cbn [fst snd]; unfold cmethod_isSecure, cbasic_isSecure; rewrite Hp; reflexivity|].
  reflexivity.
Qed.

Lemma idle_challenge challenge d q v : len challenge = 16 -> challenge = d ++ q -> q <> [] ->
  processMsg (knt K_SECURITY (Some c_vnc) talks38 (input d), v) = (Ok false, (knt K_SECURITY (Some c_vnc) talks38 (input d), v)).
Proof.
  intros Hl Hd Hq. unfold k_processMsg. eapply run_bind; [reflexivity|]. cbn [fst snd k_state knt]. unfold k_processSecurityMsg.
  eapply run_bind; [reflexivity|]. cbn [fst snd k_csecurity knt].
  apply (run_bind _ _ _ (false, c_vnc) (knt K_SECURITY (Some c_vnc) talks38 (input d), v)); [|reflexivity].
  unfold k_on_link. cbn [fst snd k_link knt].
  assert (cprocessMsg enabled c_vnc (input d, v) = (Ok (false, c_vnc), (input d, v))) as ->; [|done].
  unfold cprocessMsg, c_vnc. apply (run_bind _ _ _ (false, CSingle secTypeVncAuth CVncAuth) (input d, v)); [|done].
  unfold cmethod_processMsg. apply (run_bind _ _ _ (false, CVncAuth) (input d, v)); [|done].
  unfold cbasic_processMsg. apply (run_bind _ _ _ false (input d, v)); [|done].
  unfold cvncauth_processMsg, vncAuthChallengeSize. eapply run_bind; [|].
  { unfold is_hasData, mbind, SE_bind, l_get, input. cbn [fst snd l_in l_eof]. rewrite (short_of _ _ _ 16 Hd Hq) by done. reflexivity. }
  reflexivity.
Qed.

(** *** The result *)

Section result.
Context (cs : csecurity XC) (v : VC).

Lemma result_needs l : processMsg (knt K_SECURITY_RESULT (Some cs) talks38 l, v) =
  (ok ← k_on_link (is_hasData 4);
   if negb ok then mret false else
   result ← k_on_link is_readU32;
   k_security_result result) (knt K_SECURITY_RESULT (Some cs) talks38 l, v).
Proof. reflexivity. Qed.

Lemma idle_result W d q : len W = 4 -> W = d ++ q -> q <> [] ->
  processMsg (knt K_SECURITY_RESULT (Some cs) talks38 (input d), v) = (Ok false, (knt K_SECURITY_RESULT (Some cs) talks38 (input d), v)).
Proof. intros Hl Hd Hq. rewrite result_needs. unfold knt, input. k_step. by rewrite (short_of _ _ _ 4 Hd Hq). Qed.

Lemma krun_result z d r : 0 <= z < 2 ^ 32 -> k_security_result z (knt K_SECURITY_RESULT (Some cs) talks38 (input d), v) = r ->
  processMsg (knt K_SECURITY_RESULT (Some cs) talks38 (input (writeU32 z ++ d)), v) = r.
Proof.
  intros Hz Hr. rewrite result_needs. unfold knt, input in *. k_step. rewrite (proj2 (Z.leb_le 4 _)) by llia. cbv iota. k_step.
  by rewrite u32_id.
Qed.

Lemma krun_ok : k_security_result secResultOK (knt K_SECURITY_RESULT (Some cs) talks38 (input []), v) =
  (Ok true, (knt K_INITIALISATION (Some cs) talks38 (output (writeClientInit shared)), v)).
Proof. reflexivity. Qed.

Lemma krun_failed d : k_security_result secResultFailed (knt K_SECURITY_RESULT (Some cs) talks38 (input d), v) =
  (Ok true, (knt K_SECURITY_REASON (Some cs) talks38 (input d), v)).
Proof. reflexivity. Qed.

Definition reason_bytes (m : list Z) : list Z := writeU32 (len m) ++ m.

Lemma idle_reason m d q : len m < 2 ^ 32 -> reason_bytes m = d ++ q -> q <> [] ->
  processMsg (knt K_SECURITY_REASON (Some cs) talks38 (input d), v) = (Ok false, (knt K_SECURITY_REASON (Some cs) talks38 (input d), v)).
Proof.
  intros Hm Hd Hq. unfold k_processMsg, knt, input. k_step. unfold k_processSecurityReasonMsg. k_step.
  destruct (Z.leb_spec 4 (len d)) as [H4|H4]; [|done]. cbv iota. unfold reason_bytes in Hd.
  apply app_eq_inv in Hd as [(d2 & Hw & ->)|(d2 & -> & ->)].
  { assert (d2 = []) as -> by (apply len_zero_nil; apply (f_equal len) in Hw; pose proof (len_nonneg d2); llia).
    rewrite app_nil_r in Hw. subst d. rewrite <- (app_nil_r (writeU32 (len m))). k_step. k_step. rewrite u32_id by (pose proof (len_nonneg m); lia).
    eapply run_bind; [apply k_hasDataOrRestore_short; destruct m; [done|llia]|]. reflexivity. }
  k_step. k_step. rewrite u32_id by (pose proof (len_nonneg (d2 ++ q)); lia).
  eapply run_bind; [apply k_hasDataOrRestore_short; destruct q; [done|llia]|]. reflexivity.
Qed.

Lemma krun_reason m : len m < 2 ^ 32 -> processMsg (knt K_SECURITY_REASON (Some cs) talks38 (input (reason_bytes m)), v) =
  (Throw (auth_error (reason_text m)), (knt K_INVALID (Some cs) talks38 (input []), v)).
Proof.
  intros Hm. pose proof (len_nonneg m). unfold k_processMsg, knt, input, reason_bytes. k_step. unfold k_processSecurityReasonMsg. k_step.
  rewrite (proj2 (Z.leb_le 4 _)) by llia. cbv iota. k_step. k_step. rewrite u32_id by lia.
  eapply run_bind; [apply k_hasDataOrRestore_there; lia|]. cbn [negb]. k_step.
  eapply run_bind; [apply k_readBytes; lia|]. rewrite ztake_all, zdrop_all by lia. by k_step.
Qed.
End result.

(** *** The server's message *)

(** What a desktop must be for its message to be read back. *)
Definition presentable (d : desktop_info) : Prop :=
  0 < d_width d < 65536 /\ 0 < d_height d < 65536 /\ pf_wf (d_pf d) /\ isSane (d_pf d) = true /\ trueColour (d_pf d) = true /\
  fit d = true /\ len (d_name d) < 2 ^ 32 /\ (0 ∉ d_name d) /\ bytes (d_name d) /\
  default false (isValidUTF8 (d_name d ++ [0]) npos) = true.

Lemma read_server_init d : presentable d ->
  outcome readServerInit (server_init d) = Ok (true, [], [serverInit (d_width d) (d_height d) (d_pf d) (d_name d)]).
Proof.
  intros (Hw & Hh & Hwf & Hs & Ht & _ & Hn & H0 & Hb & Hu). unfold outcome, readServerInit, server_init, writeServerInit, fresh. pose proof (len_nonneg (d_name d)).
  rewrite <- (app_nil_r (writeBytes (d_name d))). unfold writeBytes. read_fields.
  rewrite (reads_back_pf (d_pf d) Hwf Hs Ht) by lia. read_fields. rewrite (u32_id (len (d_name d))) by lia.
  rewrite arun_has_enough by llia. read_fields. rewrite arun_readBytes by lia.
  rewrite Hu, strchr_split_end by (by rewrite <- list_elem_of_In). rewrite !u16_id by lia. reflexivity.
Qed.

Definition shown (d : desktop_info) : ServerParams :=
  let c := sp talks38 in
  set_common (MkCommon (d_width d) (d_height d) [screen 0 0 0 (d_width d) (d_height d) 0] (d_pf d) (d_name d) (cursor_ c) (ledState_ c)
    (clipFlags c) (clipSizes c)) talks38.

Lemma one_screen w h : 0 < w -> 0 < h -> Screens.validate [screen 0 0 0 w h 0] w h = true.
Proof.
  intros Hw Hh. unfold Screens.validate, validate_loop, screen, setXYWH, rect, is_empty, enclosed_by. cbn [scr_dims scr_id tl br px py].
  replace (num_screens _ >? 255) with false by reflexivity. rewrite !Z.add_0_l, !Z.geb_leb, !(proj2 (Z.leb_gt _ 0)), !(proj2 (Z.leb_le _ _)) by lia.
  cbn [orb andb negb]. by destruct (decide _) as [H|H]; [apply not_elem_of_empty in H|].
Qed.

(** *** The client's first request *)

(** The format the client goes on with, what it sends, and what the server's
    reader makes of that. *)
Definition wire_pf (pf : PixelFormat) : Prop := pf_wf pf /\ isSane pf = true /\ trueColour pf = true.
Definition wire_setting (s : setting) : Prop := match s with SetPF pf => wire_pf pf | _ => True end.
Definition picture (p : ServerParams) : Rect := rect 0 0 (width_ (sp p)) (height_ (sp p)).
Definition next_format (a : asking) (p : ServerParams) : PixelFormat := if formatChange a then nextPF a else pf_ (sp p).
Definition request_bytes (w : wishes) (a : asking) (p : ServerParams) : list Z :=
  (if formatChange a then writeSetPixelFormat (nextPF a) else []) ++
  writeSetEncodings (encodings_wanted h264 w) ++ writeFramebufferUpdateRequest (picture p) false.
Definition request_calls (w : wishes) (a : asking) (p : ServerParams) : list sevent :=
  (if formatChange a then [setPixelFormat (nextPF a)] else []) ++
  [setEncodings_ev (map s32 (encodings_wanted h264 w)); framebufferUpdateRequest (picture p) false].

(** What has been asked so far: nothing. *)
Definition silent (a : asking) : Prop :=
  pendingPFChange a = false /\ continuousUpdates a = false /\ forceNonincremental a = true /\
  (formatChange a = true -> wire_pf (nextPF a)).

Lemma configure_silent pf l x : silent x.2 -> Forall wire_setting l -> silent (configure_all pf l x).2.
Proof.
  intros Hx Hl. revert x Hx. induction Hl as [|s l Hs _ IH]; intros [w a] Hx; [done|]. cbn [configure_all fold_left].
  apply IH. destruct Hx as (H1 & H2 & H3 & H4). destruct s as [next|e|l0|l0|b]; cbn [configure]; case_match; done.
Qed.

Definition asked (a : asking) : asking :=
  Asking false (if formatChange a then nextPF a else pendingPF a) (nextPF a) false false true false false.
Definition with_format (pf : PixelFormat) (p : ServerParams) : ServerParams := set_common (setPF pf (sp p)).1 p.

Abbreviation conn o cs p w a := (CConn (Link [] false None o []) K_NORMAL cs shared p w a : cconn XC).

Lemma written bs o cs p w a (v : VC) : k_write bs (conn o cs p w a, v) = (Ok tt, (conn (o ++ bs) cs p w a, v)).
Proof. reflexivity. Qed.

Lemma format_asked ppf npf fc pu cs p w o (v : VC) :
  ask_format (conn o cs p w (Asking false ppf npf fc true pu false true), v) =
  (Ok tt, (conn (o ++ if fc then writeSetPixelFormat npf else []) cs p w (Asking fc (if fc then npf else ppf) npf false true pu false true), v)).
Proof.
  unfold ask_format. eapply run_bind; [reflexivity|]. destruct fc; [|by rewrite app_nil_r].
  eapply run_bind; [reflexivity|]. eapply run_bind; [reflexivity|]. eapply run_bind; [apply written|]. reflexivity.
Qed.
Lemma encodings_asked pf ppf npf pu cs p w o (v : VC) :
  ask_encodings h264 (conn o cs p w (Asking pf ppf npf false true pu false true), v) =
  (Ok tt, (conn (o ++ writeSetEncodings (encodings_wanted h264 w)) cs p w (Asking pf ppf npf false false pu false true), v)).
Proof. unfold ask_encodings. eapply run_bind; [reflexivity|]. eapply run_bind; [apply written|]. reflexivity. Qed.
Lemma picture_asked pf ppf npf pu cs p w o (v : VC) :
  ask_picture (conn o cs p w (Asking pf ppf npf false false pu false true), v) =
  (Ok tt, (conn (o ++ writeFramebufferUpdateRequest (picture p) false) cs p w (Asking pf ppf npf false false true false false), v)).
Proof.
  unfold ask_picture. eapply run_bind; [reflexivity|].
  eapply run_bind; [eapply run_bind; [reflexivity|apply written]|]. reflexivity.
Qed.

Lemma first_request cs p w a o (v : VC) : silent a ->
  k_first_request h264 (conn o cs p w a, v) =
  (Ok tt, (conn (o ++ request_bytes w a p) cs (with_format (next_format a p) p) w (asked a), v)).
Proof.
  intros (H1 & H2 & H3 & H4). destruct a as [pc ppf npf fc ec pu cu fn]. cbn in H1, H2, H3, H4. subst.
  unfold k_first_request. eapply run_bind; [reflexivity|].
  eapply run_bind.
  { unfold requestNewUpdate. eapply run_bind; [apply format_asked|]. eapply run_bind; [apply encodings_asked|]. apply picture_asked. }
  rewrite <- !app_assoc. unfold request_bytes, next_format, with_format, asked. cbn [formatChange nextPF pendingPF].
  eapply run_bind; [reflexivity|]. cbv zeta. cbn [fst k_asking pendingPFChange pendingPF]. destruct fc.
  - destruct (H4 eq_refl) as (_ & Hsane & _). assert ((negb (bpp npf =? 8) && negb (bpp npf =? 16) && negb (bpp npf =? 32)) = false) as Hbpp
      by (unfold isSane in Hsane; by destruct (negb (bpp npf =? 8) && _ && _)).
    eapply run_bind; [unfold k_setPF; eapply run_bind; [reflexivity|]; unfold setPF; cbn; rewrite Hbpp; reflexivity|]. reflexivity.
  - by destruct p as [[] ? ? ? ? ? ? ? ?].
Qed.

(** The viewer has nothing to say yet. *)
Hypothesis start : forall p v, exists settings v', v_initDone p v = (Ok settings, v') /\ Forall wire_setting settings.
Hypothesis quiet_message : forall p o v, v_readMsg p (output o, v) = (Ok (false, p), (output o, v)).

Lemma init_needs cs l v : processMsg (knt K_INITIALISATION (Some cs) talks38 l, v) =
  (r ← k_on_link (is_run readServerInit);
   if negb r.1 then mret false else
   match r.2 with serverInit width height pf name :: _ => k_serverInit h264 width height pf name | _ => mret tt end;;
   mret true) (knt K_INITIALISATION (Some cs) talks38 l, v).
Proof. reflexivity. Qed.

Lemma idle_init cs v d e q : presentable d -> server_init d = e ++ q -> q <> [] ->
  processMsg (knt K_INITIALISATION (Some cs) talks38 (input e), v) = (Ok false, (knt K_INITIALISATION (Some cs) talks38 (input e), v)).
Proof.
  intros Hd He Hq. rewrite init_needs.
  assert (outcome readServerInit e = Ok (false, e, [])) as Ho.
  { pose proof (read_server_init d Hd) as Hall. rewrite He in Hall.
    assert (bytes e) as Hb.
    { assert (bytes (server_init d)) as Hb; [|rewrite He in Hb; by apply bytes_app in Hb as [Hb _]].
      destruct Hd as (_ & _ & _ & _ & _ & _ & _ & _ & Hn & _). unfold server_init, writeServerInit, writeBytes.
      rewrite !bytes_app. pose proof (bytes_pf_write (d_pf d)). auto 10 with vnc. }
    destruct (guarded_outcome _ _ _ e guarded_readServerInit (good_bytes e Hb)) as [(x & used & rest & evs & _ & _ & H)|[H|H]]; [|done|].
    - rewrite H in Hall. injection Hall as _ Hr _. by destruct rest, q.
    - destruct (H q) as (x & _ & H'). by rewrite H' in Hall. }
  apply (run_bind _ _ _ (false, []) (knt K_INITIALISATION (Some cs) talks38 (input e), v)); [|done].
  unfold k_on_link, is_run, mbind, SE_bind, l_get, knt, input. k_norm. by rewrite Ho.
Qed.

(** The client in its session, its first request on its way. *)
Definition in_session (cs : csecurity XC) (d : desktop_info) (x : wishes * asking) (o : list Z) : cconn XC :=
  CConn (output o) K_NORMAL (Some cs) shared (with_format (next_format x.2 (shown d)) (shown d)) x.1 (asked x.2).

Lemma krun_init cs v d settings v' : silent ask -> presentable d -> v_initDone (shown d) v = (Ok settings, v') -> Forall wire_setting settings ->
  let x := configure_all (d_pf d) settings (wi, ask) in
  processMsg (knt K_INITIALISATION (Some cs) talks38 (input (server_init d)), v) =
  (Ok true, (in_session cs d x (request_bytes x.1 x.2 (shown d)), v')).
Proof.
  intros Hask Hd Hv Hs x. rewrite init_needs.
  apply (run_bind _ _ _ (true, [serverInit (d_width d) (d_height d) (d_pf d) (d_name d)]) (knt K_INITIALISATION (Some cs) talks38 (input []), v)).
  { unfold k_on_link, is_run, mbind, SE_bind, l_get, knt, input. k_norm. by rewrite read_server_init. }
  destruct Hd as (Hw & Hh & _ & Hsane & _ & Hf & _). apply andb_prop in Hf as [_ Hf].
  cbn [fst snd negb]. apply (run_bind _ _ _ tt (in_session cs d x (request_bytes x.1 x.2 (shown d)), v')); [|done].
  unfold k_serverInit, knt. k_step. unfold setDimensions1, setDimensions. rewrite one_screen by lia. cbn [negb]. k_step.
  eapply run_bind.
  { unfold k_setPF. k_step. unfold setPF at 1.
    replace (negb (bpp (d_pf d) =? 8) && negb (bpp (d_pf d) =? 16) && negb (bpp (d_pf d) =? 32)) with false
      by (by destruct (_ =? 8), (_ =? 16), (_ =? 32)).
    cbv iota beta. k_step. reflexivity. }
  k_norm. k_step. k_step.
  eapply run_bind.
  { unfold k_initDone. k_norm.
    match goal with |- context [v_initDone ?p v] => change p with (shown d) end. rewrite Hv. reflexivity. }
  unfold k_configure. k_norm.
  match goal with |- context [configure_all ?p settings (wi, ask)] => change (configure_all p settings (wi, ask)) with x end.
  apply (first_request (Some cs) (shown d) x.1 x.2 [] v'). by apply configure_silent.
Qed.

Lemma krun_normal cs d x o v : processMsg (in_session cs d x o, v) = (Ok false, (in_session cs d x o, v)).
Proof.
  unfold k_processMsg, k_readMsg. eapply run_bind; [reflexivity|]. cbn [fst snd k_state in_session]. eapply run_bind; [reflexivity|].
  apply (run_bind _ _ _ (false, with_format (next_format x.2 (shown d)) (shown d)) (in_session cs d x o, v)); [|done].
  unfold k_on_link. cbn [fst snd k_link in_session k_server]. rewrite quiet_message. reflexivity.
Qed.

(** *** The turns *)

Lemma k_arrive_knt d st cs p (v : VC) : k_arrive d (knt st cs p (input []), v) = (knt st cs p (input d), v).
Proof. done. Qed.

Lemma finish_output e st cs p o (v : VC) : k_finish e (knt st cs p (output o), v) = ((knt st cs p (input []), v), e, o).
Proof. unfold k_finish. destruct e; [done|]. cbn. by rewrite app_nil_r. Qed.

Lemma waits_result cs o v : processMsg (knt K_SECURITY_RESULT (Some cs) talks38 (output o), v) =
  (Ok false, (knt K_SECURITY_RESULT (Some cs) talks38 (output o), v)).
Proof. rewrite result_needs. unfold knt, output. by k_step. Qed.
Lemma waits_init cs o v : processMsg (knt K_INITIALISATION (Some cs) talks38 (output o), v) =
  (Ok false, (knt K_INITIALISATION (Some cs) talks38 (output o), v)).
Proof. reflexivity. Qed.

Lemma client_version v : accepts (knt K_PROTOCOL_VERSION None init_server (input []), v) (version_line 3 8)
  (knt K_SECURITY_TYPES None talks38 (input []), v) None (version_line 3 8).
Proof.
  eapply (k_accepts_whole _ _ None _ _ _ 1); [done|done|..].
  - intros d q Hd Hq. rewrite k_arrive_knt. by eapply idle_kversion.
  - rewrite k_arrive_knt. eapply k_goes_more; [apply krun_version|]. apply k_goes_stop. reflexivity.
  - lia.
  - apply finish_output.
Qed.

Section types.
Context (types : list Z) (v : VC).
Hypothesis Hn : 0 < len types < 256.
Hypothesis Ht : Forall (fun t => 0 <= t < 256) types.
Let t := first_common types (GetEnabledSecTypes enabled).

Lemma types_there : offered types <> [].
Proof. unfold offered. rewrite writeU8_eq. done. Qed.

Lemma client_no_type : t = secTypeInvalid -> accepts (knt K_SECURITY_TYPES None talks38 (input []), v) (offered types)
  (knt K_INVALID None talks38 (input []), v) (Some (protocol_error "No matching security types")) [].
Proof.
  intros H0. eapply (k_accepts_whole _ _ _ _ _ _ 0); [done|apply types_there|..].
  - intros d q Hd Hq. rewrite k_arrive_knt. by eapply idle_types.
  - rewrite k_arrive_knt. apply k_goes_throw. apply krun_types; [done..|]. fold t. rewrite H0. reflexivity.
  - lia.
  - apply (finish_output _ _ _ _ []).
Qed.

Lemma client_type s n e k' o : t <> secTypeInvalid -> GetCSecurity enabled t = Ok s ->
  k_goes n (knt K_SECURITY (Some s) talks38 (output (writeU8 t)), v) e (k', v) -> (n < 7)%nat ->
  k_finish e (k', v) = ((knt (k_state k') (Some s) talks38 (input []), v), e, o) ->
  accepts (knt K_SECURITY_TYPES None talks38 (input []), v) (offered types) (knt (k_state k') (Some s) talks38 (input []), v) e o.
Proof.
  intros H0 Hs Hg Hlt Hf. eapply (k_accepts_whole _ _ _ _ _ _ (S n)); [done|apply types_there|..].
  - intros d q Hd Hq. rewrite k_arrive_knt. by eapply idle_types.
  - rewrite k_arrive_knt. eapply k_goes_more; [|exact Hg]. apply krun_types; [done..|]. fold t. rewrite (proj2 (Z.eqb_neq _ _) H0). by apply krun_chosen.
  - lia.
  - exact Hf.
Qed.

Lemma type_object s : t <> secTypeInvalid -> t = secTypeNone /\ s = c_none \/ t = secTypeVncAuth /\ s = c_vnc -> GetCSecurity enabled t = Ok s.
Proof. intros H0 Hs. apply chosen_object; [|done]. by apply first_common_in in H0 as [_ H0]. Qed.

Lemma client_none : t = secTypeNone -> accepts (knt K_SECURITY_TYPES None talks38 (input []), v) (offered types)
  (knt K_SECURITY_RESULT (Some c_none) talks38 (input []), v) None (writeU8 secTypeNone).
Proof.
  intros H1. assert (t <> secTypeInvalid) as H0 by (by rewrite H1).
  eapply (client_type c_none 1 None (knt K_SECURITY_RESULT (Some c_none) talks38 (output (writeU8 secTypeNone)))); [done|apply type_object; auto|..].
  - rewrite H1. eapply k_goes_more; [reflexivity|]. apply k_goes_stop, waits_result.
  - lia.
  - apply finish_output.
Qed.

Lemma client_vnc : t = secTypeVncAuth -> accepts (knt K_SECURITY_TYPES None talks38 (input []), v) (offered types)
  (knt K_SECURITY (Some c_vnc) talks38 (input []), v) None (writeU8 secTypeVncAuth).
Proof.
  intros H1. assert (t <> secTypeInvalid) as H0 by (by rewrite H1).
  eapply (client_type c_vnc 0 None (knt K_SECURITY (Some c_vnc) talks38 (output (writeU8 secTypeVncAuth)))); [done|apply type_object; auto|..].
  - rewrite H1. apply k_goes_stop. reflexivity.
  - lia.
  - apply finish_output.
Qed.
End types.

Lemma client_challenge challenge v up v' : len challenge = 16 -> getUserPasswd false false v = (Ok up, v') ->
  accepts (knt K_SECURITY (Some c_vnc) talks38 (input []), v) challenge
    (knt K_SECURITY_RESULT (Some c_vnc) talks38 (input []), v') None (vnc_response cword up.2 challenge).
Proof.
  intros Hl Hp. eapply (k_accepts_whole _ _ _ _ _ _ 1); [done|by intros ->|..].
  - intros d q Hd Hq. rewrite k_arrive_knt. by eapply idle_challenge.
  - rewrite k_arrive_knt. eapply k_goes_more; [by apply krun_challenge|]. apply k_goes_stop, waits_result.
  - lia.
  - apply finish_output.
Qed.

Lemma client_ok cs v : accepts (knt K_SECURITY_RESULT (Some cs) talks38 (input []), v) (writeU32 secResultOK)
  (knt K_INITIALISATION (Some cs) talks38 (input []), v) None (writeClientInit shared).
Proof.
  eapply (k_accepts_whole _ _ _ _ _ _ 1); [done|done|..].
  - intros d q Hd Hq. rewrite k_arrive_knt. eapply idle_result; [apply len_writeU32|done..].
  - rewrite k_arrive_knt, <- (app_nil_r (writeU32 _)). eapply k_goes_more; [apply krun_result; [unfold secResultOK; lia|apply krun_ok]|].
    apply k_goes_stop, waits_init.
  - lia.
  - apply finish_output.
Qed.

Lemma client_refused cs m v : len m < 2 ^ 32 -> accepts (knt K_SECURITY_RESULT (Some cs) talks38 (input []), v) (failure m)
  (knt K_INVALID (Some cs) talks38 (input []), v) (Some (auth_error (reason_text m))) [].
Proof.
  intros Hm. unfold failure. change (writeU32 (len m) ++ m) with (reason_bytes m).
  eapply (k_accepts_twice _ _ _ (knt K_SECURITY_REASON (Some cs) talks38 (input []), v) _ _ _ _ 0); [done..| | | | | |].
  - intros d q Hd Hq. rewrite k_arrive_knt. eapply idle_result; [apply len_writeU32|done..].
  - intros d. rewrite !k_arrive_knt. apply krun_result; [unfold secResultFailed; lia|apply krun_failed].
  - intros d q Hd Hq. rewrite k_arrive_knt. by eapply idle_reason.
  - rewrite k_arrive_knt. apply k_goes_throw. by apply krun_reason.
  - lia.
  - apply (finish_output _ _ _ _ []).
Qed.

Lemma client_init cs v d : silent ask -> presentable d -> exists settings v',
  v_initDone (shown d) v = (Ok settings, v') /\ Forall wire_setting settings /\
  let x := configure_all (d_pf d) settings (wi, ask) in
  accepts (knt K_INITIALISATION (Some cs) talks38 (input []), v) (server_init d) (in_session cs d x [], v') None
    (request_bytes x.1 x.2 (shown d)).
Proof.
  intros Hask Hd. destruct (start (shown d) v) as (settings & v' & Hv & Hs). exists settings, v'. do 2 (split; [done|]). intros x.
  eapply (k_accepts_whole _ _ _ _ _ _ 1); [done|done|..].
  - intros e q He Hq. rewrite k_arrive_knt. by eapply idle_init.
  - rewrite k_arrive_knt. eapply k_goes_more; [by apply (krun_init _ _ _ settings v')|]. apply k_goes_stop, krun_normal.
  - lia.
  - unfold k_finish, in_session, output. cbn. by rewrite app_nil_r.
Qed.
End client.

(** The server's reader on the request. *)
Section request.
Context (h264 : bool) (maxCutText : Z) (inflate : list Z -> zseg).

Lemma encodings_few w : len (encodings_wanted h264 w) < 65536.
Proof.
  unfold encodings_wanted. pose proof (List.filter_length_le
    (fun i => negb (i =? w_preferredEncoding w) && supported h264 i && negb (negb (w_jpegAllowed w) && (i =? encodingJPEG)))
    (rev (seqZ 0 (encodingMax + 1)))) as Hf. revert Hf. generalize (List.filter
    (fun i => negb (i =? w_preferredEncoding w) && supported h264 i && negb (negb (w_jpegAllowed w) && (i =? encodingJPEG)))
    (rev (seqZ 0 (encodingMax + 1)))). intros l Hf. change (length (rev _)) with 256%nat in Hf.
  rewrite !len_app. unfold len. repeat case_match; cbn [length]; lia.
Qed.

Lemma request_read w a d t client : silent a -> presentable d ->
  exists t' client', drains (ClientMsgs.readMsg maxCutText inflate) (SReader ClientMsgs.MSGSTATE_IDLE t client) (request_bytes h264 w a (shown d))
    (SReader ClientMsgs.MSGSTATE_IDLE t' client') [] (request_calls h264 w a (shown d)).
Proof.
  intros (_ & _ & _ & Hpf) (Hw & Hh & _).
  assert (forall g rest, outcome (ClientMsgs.readMsg maxCutText inflate (SReader ClientMsgs.MSGSTATE_IDLE g client))
      (writeSetPixelFormat (nextPF a) ++ rest) = Ok (true, SReader ClientMsgs.MSGSTATE_IDLE (u8 msgTypeSetPixelFormat) client, rest, [setPixelFormat (nextPF a)]) \/
      formatChange a = false) as Hformat.
  { intros g rest. destruct (formatChange a); [left|by right]. destruct (Hpf eq_refl) as (? & ? & ?). unfold writeSetPixelFormat.
    eapply delivered_known; [reflexivity|]. rewrite <- app_assoc. by apply rt_SetPixelFormat. }
  assert (forall g, exists t' client', drains (ClientMsgs.readMsg maxCutText inflate) (SReader ClientMsgs.MSGSTATE_IDLE g client)
      (writeSetEncodings (encodings_wanted h264 w) ++ writeFramebufferUpdateRequest (picture (shown d)) false)
      (SReader ClientMsgs.MSGSTATE_IDLE t' client') []
      [setEncodings_ev (map s32 (encodings_wanted h264 w)); framebufferUpdateRequest (picture (shown d)) false]) as Hrest.
  { intros g. eexists _, _. eapply (drain_step _ _ _ _ _ [_] _ _ [_]).
    - unfold writeSetEncodings. rewrite writeU8_eq. cbn [app]. rewrite readMsg_idle, readMsg_message.
      change (ClientMsgs.readBody _ _ _ client) with (readSetEncodings client).
      rewrite <- !app_assoc, rt_SetEncodings by apply encodings_few. reflexivity.
    - rewrite <- (app_nil_r (writeFramebufferUpdateRequest _ _)). eapply (drain_step _ _ _ _ _ [_] _ _ []).
      + unfold writeFramebufferUpdateRequest. eapply delivered_known; [reflexivity|]. rewrite <- !app_assoc. apply rt_FBUR.
        unfold picture, shown, rect_wf, u16_wf, rect, width, height. cbn. lia.
      + by apply drain_stop. }
  unfold request_bytes, request_calls. destruct (formatChange a).
  - destruct (Hrest (u8 msgTypeSetPixelFormat)) as (t' & client' & H). exists t', client'. eapply drain_step; [|exact H].
    by destruct (Hformat t (writeSetEncodings (encodings_wanted h264 w) ++ writeFramebufferUpdateRequest (picture (shown d)) false)).
  - exact (Hrest t).
Qed.
End request.

(** ** The whole handshake *)

Section agreement.
Context {VS XS VC XC : Type} `{HS : ServerSecEnv VS XS} `{HO : Owner VS} `{HC : ClientSecEnv VC XC} `{HV : Viewer VC}.
Context (s_enabled k_enabled : list Z) (h264 : bool) (maxCutText : Z) (inflate : list Z -> zseg) (reverse : bool) (ar : Z).
Context (shared : bool) (w0 : wishes) (before : list setting) (vs : VS) (vk : VC).
Abbreviation net := (Handshake.net (VS := VS) (XS := XS) (VC := VC) (XC := XC)).
Abbreviation step := (Handshake.step s_enabled k_enabled h264 maxCutText inflate).
Abbreviation leads := (Handshake.leads s_enabled k_enabled h264 maxCutText inflate).

(** Both connections have been made, the viewer has set what it wants, and the
    server has greeted. *)
Definition first_net : net :=
  let '(s, line) := s_collect (SConnection.init 8 (VNCSConnectionST 8 reverse ar, vs)).2 in
  Net (k_initialiseProtocol (k_configure before (new_cconn shared w0), vk)).2 None s [] line.

Definition made : wishes * asking := configure_all (pf_ (sp init_server)) before (w0, init_asking).

Definition type_taken : Z := first_common (GetEnabledSecTypes s_enabled) (GetEnabledSecTypes k_enabled).

(** The security object of the server when it has let the client in; what is
    outside then. *)
Definition authentication : option (ssecurity XS) * VS :=
  if type_taken =? secTypeNone then (Some no_auth, vs) else
  match random_data vncAuthChallengeSize vs, getUserPasswd false false vk with
  | (Some challenge, v), (Ok up, _) =>
      let response := vnc_response cword up.2 challenge in
      ((fun rights => vnc_auth (answered challenge response rights)) <$> judged (getVncAuthPasswd v) challenge response, v)
  | (_, v), _ => (None, v)
  end.

(** What is outside does its part. *)
Record usual : Prop := {
  u_types : 0 < len (GetEnabledSecTypes s_enabled) < 256;
  u_valid : Forall (fun t => 0 < t) s_enabled;
  u_taken : type_taken ∈ [secTypeInvalid; secTypeNone; secTypeVncAuth];
  u_random : exists challenge v, random_data vncAuthChallengeSize vs = (Some challenge, v) /\ len challenge = 16 /\
    len (getVncAuthPasswd v).1 <> 0;
  u_user : exists up v, getUserPasswd false false vk = (Ok up, v);
  u_reason : forall name q v reason v', o_queryConnection name q v = (Reject (Some reason), v') -> len reason < 2 ^ 32;
  u_owner : forall sh exclusive v, exists v', o_clientReady sh exclusive v = (None, v') /\ o_desktopReady v' = true /\
    presentable (o_desktop v');
  u_before : Forall wire_setting before;
  u_start : forall p v, exists settings v', v_initDone p v = (Ok settings, v') /\ Forall wire_setting settings;
  u_message : forall p o v, v_readMsg p (output o, v) = (Ok (false, p), (output o, v))
}.

Definition same_picture (c : Common) (d : desktop_info) : Prop :=
  width_ c = d_width d /\ height_ c = d_height d /\ name_ c = d_name d.

(** The session has begun: the client goes on with the format it has asked for,
    and what the server's reader makes of the bytes on their way is its request,
    with nothing left over. *)
Definition begun (d : desktop_info) (N : net) : Prop :=
  exists v settings v', v_initDone (shown d) v = (Ok settings, v') /\ (n_client N).2 = v' /\
    let x := configure_all (d_pf d) settings made in
    pf_ (sp (k_server (n_client N).1)) = next_format x.2 (shown d) /\
    n_up N = request_bytes h264 x.1 x.2 (shown d) /\
    (rw_reader <$> c_rw (n_server N).1) = Some (ClientMsgs.MSGSTATE_IDLE, 0) /\
    exists t cl, drains (ClientMsgs.readMsg maxCutText inflate) (SReader ClientMsgs.MSGSTATE_IDLE 0 (c_client (n_server N).1)) (n_up N)
      (SReader ClientMsgs.MSGSTATE_IDLE t cl) [] (request_calls h264 x.1 x.2 (shown d)).

Definition judgement (o : ssecurity XS) (d : decision) (N : net) : Prop :=
  let k := (n_client N).1 in let s := (n_server N).1 in
  match d with
  | Approve =>
      n_error N = None /\ k_state k = K_NORMAL /\ c_state s = RFBSTATE_NORMAL /\ c_rights s = Z.land ar (getAccessRights o) /\
      same_picture (sp (k_server k)) (o_desktop (n_server N).2) /\ same_picture (cp (c_client s)) (o_desktop (n_server N).2) /\
      pf_ (cp (c_client s)) = d_pf (o_desktop (n_server N).2) /\ begun (o_desktop (n_server N).2) N
  | Reject reason =>
      let message := default (text "Connection rejected") reason in
      n_up N = [] /\ n_error N = Some (auth_error (reason_text message)) /\ k_state k = K_INVALID /\
      c_state s = RFBSTATE_CLOSING /\ c_closed s = Some message
  | AskUser => n_up N = [] /\ n_error N = None /\ k_state k = K_SECURITY_RESULT /\ c_state s = RFBSTATE_QUERYING
  end.

Definition concluded (N : net) : Prop :=
  let k := (n_client N).1 in let s := (n_server N).1 in
  n_down N = [] /\
  if type_taken =? secTypeInvalid then
    n_up N = [] /\ n_error N = Some (protocol_error "No matching security types") /\ k_state k = K_INVALID /\ c_state s = RFBSTATE_SECURITY_TYPE
  else
    match authentication with
    | (None, _) =>
        n_up N = [] /\ n_error N = Some (auth_error auth_failed) /\ k_state k = K_INVALID /\ c_state s = RFBSTATE_CLOSING /\
        c_closed s = Some auth_failed
    | (Some o, v) => judgement o (o_queryConnection (getUserName o) (no_query reverse (Z.land ar (getAccessRights o))) v).1 N
    end.

Hypothesis U : usual.

Lemma offered_bytes : Forall (fun t => 0 <= t < 256) (GetEnabledSecTypes s_enabled).
Proof.
  pose proof (u_valid U) as H. unfold GetEnabledSecTypes. apply Forall_app. split.
  - destruct (existsb _ _); [|done]. by repeat constructor.
  - apply Forall_forall. intros t [Ht Hin]%list_elem_of_filter. rewrite Forall_forall in H. specialize (H t Hin). cbn beta in *. lia.
Qed.

Lemma silent_made : silent made.2.
Proof. apply (configure_silent (pf_ (sp init_server)) before (w0, init_asking)); [done|apply (u_before U)]. Qed.

(** From the verdict on. *)
Lemma leads_verdict cs (v : VC) o d (w : VS) : (forall reason, d = Reject (Some reason) -> len reason < 2 ^ 32) ->
  exists n N, leads n (Net (knt shared made.1 made.2 K_SECURITY_RESULT (Some cs) talks38 (input []), v) None (after reverse ar o d w) [] (told d)) N /\
    n_down N = [] /\ judgement o d N.
Proof.
  intros Hr. destruct d as [|reason|].
  - destruct (u_owner U (shared_of reverse shared (granted ar o) w) (exclusive reverse (granted ar o)) w) as (w' & Hc & Hd & Hp).
    assert (fit (o_desktop w') = true) as Hf by apply Hp.
    destruct (client_init k_enabled h264 shared made.1 made.2 (u_start U) (u_message U) cs v (o_desktop w') silent_made Hp)
      as (settings & v' & Hv & Hs & Ha). rewrite <- surjective_pairing in Ha.
    eexists _, _. split; [|].
    { eapply leads_down; [done|apply client_ok|]. eapply leads_up; [by apply server_client_init|].
      eapply leads_down; [done|exact Ha|]. by apply leads_end. }
    do 8 (split; [done|]). exists v, settings, v'. do 5 (split; [done|]).
    apply (request_read h264 maxCutText inflate); [|apply Hp].
    apply (configure_silent (d_pf (o_desktop w')) settings made); [apply silent_made|done].
  - eexists _, _. split; [|].
    { eapply leads_down; [done|apply client_refused|by apply leads_end].
      unfold rejected. destruct reason as [r|]; [by apply (Hr r)|done]. }
    repeat split.
  - eexists _, _. split; [by apply leads_end|]. repeat split.
Qed.

Lemma leads_concluded : exists n N, leads n first_net N /\ concluded N.
Proof.
  pose proof (u_taken U) as Ht. pose proof (u_types U) as Hn. pose proof offered_bytes as Hb.
  assert (exists n N, leads n (Net (knt shared made.1 made.2 K_SECURITY_TYPES None talks38 (input []), vk) None
    (srv reverse RFBSTATE_SECURITY_TYPE None ar None None true None (input []), vs) [] (offered (GetEnabledSecTypes s_enabled))) N /\ concluded N)
    as (n & N & Hl & HN).
  2: { eexists _, N. split; [|exact HN]. eapply leads_down; [done|apply client_version|].
       eapply leads_up; [apply server_version; lia|]. exact Hl. }
  unfold concluded. repeat (apply list.elem_of_cons in Ht as [Ht|Ht]); [| | |by apply not_elem_of_nil in Ht].
  - rewrite Ht. eexists _, _. split; [eapply leads_down; [done|by apply client_no_type|by apply leads_end]|]. done.
  - assert (secTypeNone ∈ GetEnabledSecTypes s_enabled) as Hin.
    { rewrite <- Ht. apply first_common_in. fold type_taken. by rewrite Ht. }
    unfold authentication. rewrite Ht. change (secTypeNone =? secTypeInvalid) with false. change (secTypeNone =? secTypeNone) with true. cbv iota.
    destruct (o_queryConnection (getUserName no_auth) (no_query reverse (Z.land ar (getAccessRights no_auth))) vs) as [d w] eqn:Hq.
    destruct (leads_verdict c_none vk no_auth d w) as (n & N & Hl & Hd & HN).
    { intros reason ->. by eapply (u_reason U). }
    eexists _, N. split; [|done]. eapply leads_down; [done|by apply client_none|]. eapply leads_up; [by apply server_none|]. exact Hl.
  - assert (secTypeVncAuth ∈ GetEnabledSecTypes s_enabled) as Hin.
    { rewrite <- Ht. apply first_common_in. fold type_taken. by rewrite Ht. }
    destruct (u_random U) as (challenge & v & Hr & Hl16 & Hpw). destruct (u_user U) as (up & v' & Hup).
    unfold authentication. rewrite Ht, Hr, Hup. change (secTypeVncAuth =? secTypeInvalid) with false. change (secTypeVncAuth =? secTypeNone) with false. cbv iota beta zeta.
    assert (len (vnc_response cword up.2 challenge) = 16) as Hres.
    { unfold vnc_response. rewrite len_app, !(proj1 (transform_block _ _ _)). done. }
    pose proof (client_challenge k_enabled h264 shared made.1 made.2 challenge vk up v' Hl16 Hup) as Hanswer.
    revert Hres Hanswer. generalize (vnc_response cword up.2 challenge). intros response Hres Hanswer.
    assert (forall n N, leads n (Net (knt shared made.1 made.2 K_SECURITY_RESULT (Some c_vnc) talks38 (input []), v') None
      (srv reverse RFBSTATE_SECURITY (Some (vnc_auth (asked_for challenge))) ar None None true None (input []), v) response []) N ->
      exists n, leads n (Net (knt shared made.1 made.2 K_SECURITY_TYPES None talks38 (input []), vk) None
        (srv reverse RFBSTATE_SECURITY_TYPE None ar None None true None (input []), vs) [] (offered (GetEnabledSecTypes s_enabled))) N) as Hto.
    { intros n N Hl. eexists. eapply leads_down; [done|by apply client_vnc|]. eapply leads_up; [by apply server_vnc|].
      eapply leads_down; [done|exact Hanswer|]. exact Hl. }
    destruct (judged (getVncAuthPasswd v) challenge response) as [rights|] eqn:Hj; cbn [fmap option_fmap option_map].
    + set (o := vnc_auth (answered challenge response rights)).
      destruct (o_queryConnection (getUserName o) (no_query reverse (Z.land ar (getAccessRights o))) v) as [d w] eqn:Hq.
      destruct (leads_verdict c_vnc v' o d w) as (n & N & Hl & Hd & HN).
      { intros reason ->. by eapply (u_reason U). }
      destruct (Hto (length response + n)%nat N) as (m & Hm); [|by exists m, N].
      eapply leads_up; [exact (server_answer s_enabled maxCutText inflate reverse ar v challenge response Hres Hpw rights d w Hj Hq)|exact Hl].
    + assert (exists n N, leads n (Net (knt shared made.1 made.2 K_SECURITY_RESULT (Some c_vnc) talks38 (input []), v') None
        (srv reverse RFBSTATE_SECURITY (Some (vnc_auth (asked_for challenge))) ar None None true None (input []), v) response []) N /\
        n_down N = [] /\ n_up N = [] /\ n_error N = Some (auth_error auth_failed) /\ k_state (n_client N).1 = K_INVALID /\
        c_state (n_server N).1 = RFBSTATE_CLOSING /\ c_closed (n_server N).1 = Some auth_failed) as (n & N & Hl & HN).
      { eexists _, _. split; [eapply leads_up; [exact (server_wrong s_enabled maxCutText inflate reverse ar v challenge response Hres Hpw Hj)|];
          eapply leads_timer; [done|reflexivity|]; eapply leads_down; [done|by apply (client_refused _ _ _ _ _ _ auth_failed)|by apply leads_end]|].
        split_and!; done. }
      destruct (Hto n N Hl) as (m & Hm). by exists m, N.
Qed.

(** C6: a server with security types enabled and a client, each with the
    cryptography and the user outside, both of protocol 3.8, over a network
    that delivers what is on its way in pieces of any size and lets the timer of
    a failure fire when it likes; the types the two agree on are none, [None]
    or [VncAuth] (the other types' exchanges are not followed here).  There is
    one moment [N], within a bounded number of steps from the start, that
    every execution is on its way to or has gone through, and it is the one the
    two sides' configuration, passwords and the owner's decision give:
    - no common type, a failed authentication or a rejection, which the client
      is told with its reason while the server closes;
    - an owner who asks the user first ([AskUser]): the client waits for the
      result, the server for the answer;
    - a session whose rights are those of the authentication and in which both
      sides have the same size and name, the server has the client in its
      own pixel format, and the client's first request, for the format and
      the encodings the viewer has set and for the whole picture, is on its way;
      the client goes on with the format it asks for, and the server's reader
      makes of the bytes that very request.
    Except in the session nothing is on its way, and there are no more steps. *)
Theorem handshake_concludes : exists N n, concluded N /\ rtc step first_net N /\
  (forall m N1, nsteps step m first_net N1 ->
     ((m <= n)%nat /\ rtc step N1 N /\ (N1 = N \/ exists N2, step N1 N2)) \/ rtc step N N1) /\
  (n_up N = [] -> forall N2, ~ step N N2).
Proof.
  destruct leads_concluded as (n & N & Hl & HN). exists N, n. split; [done|]. by apply (leads_inevitable _ _ _ _ _ n).
Qed.
End agreement.

(** The full password is let in, and the platforms of the two sides may have
    words of different width. *)
Lemma response_width w password challenge : 32 <= w -> vnc_response w password challenge = vnc_response 32 password challenge.
Proof. intros Hw. unfold vnc_response. by rewrite !(transform_width w Hw). Qed.

Lemma right_password {VS XS} `{HS : ServerSecEnv VS XS} w passwds challenge : 32 <= w -> 32 <= word ->
  judged passwds challenge (vnc_response w passwds.1 challenge) = Some AccessDefault.
Proof.
  intros Hw Hv. unfold judged, verifyResponse, answered. cbn [va_response va_challenge].
  rewrite (response_width w), (response_width word) by done. by rewrite bool_decide_true by done.
Qed.

(** The right password: the end is the owner's decision. *)
Section let_in.
Context {VS XS VC XC : Type} `{HS : ServerSecEnv VS XS} `{HO : Owner VS} `{HC : ClientSecEnv VC XC} `{HV : Viewer VC}.

Lemma password_lets_in s_enabled k_enabled h264 maxCutText inflate reverse ar w0 before (vs v : VS) (vk v' : VC) challenge up (N : Handshake.net (VS := VS) (XS := XS) (VC := VC) (XC := XC)) :
  type_taken s_enabled k_enabled = secTypeVncAuth -> random_data vncAuthChallengeSize vs = (Some challenge, v) ->
  getUserPasswd false false vk = (Ok up, v') -> up.2 = (getVncAuthPasswd v).1 -> 32 <= cword -> 32 <= word ->
  concluded s_enabled k_enabled h264 maxCutText inflate reverse ar w0 before vs vk N ->
  exists o, getAccessRights o = AccessDefault /\
    judgement h264 maxCutText inflate ar w0 before o (o_queryConnection (getUserName o) (no_query reverse (Z.land ar (getAccessRights o))) v).1 N.
Proof.
  intros Ht Hr Hu Hp Hc Hs (_ & HN). pose proof (right_password cword (getVncAuthPasswd v) challenge Hc Hs) as Hj.
  unfold authentication in HN. rewrite Ht, Hr, Hu in HN. rewrite <- Hp in Hj.
  revert Hj HN. cbv zeta. generalize (vnc_response cword up.2 challenge). intros response Hj. rewrite Hj. intros HN.
  exists (vnc_auth (answered challenge response AccessDefault)). split; [done|exact HN].
Qed.
End let_in.

(** ** Two ends that know the same password *)

Section sample.
#[local] Existing Instance sample_env.
#[local] Existing Instance sample_owner.

Definition sample_user : ClientSecEnv unit unit := {|
  cword := 32;
  getUserPasswd _ _ v := (Ok ([], text "secret"), v);
  cext_new _ := tt;
  cext_processMsg x s := (Ok (false, x), s);
  cext_isSecure _ := false
|}.
(** A viewer that wants another format than the server's, and another
    compression than it is made with. *)
Definition sample_format : PixelFormat := MkPF 16 16 true false 31 63 31 11 5 0.
Definition sample_viewer : Viewer unit := {|
  v_initDone p s := (Ok [SetPF sample_format; SetCompressLevel 6], s);
  v_readMsg p s := (Ok (false, p), s)
|}.
Definition sample_wishes : wishes := Wishes true true true true false 7 2 (-1) true.
#[local] Existing Instance sample_user.
#[local] Existing Instance sample_viewer.

Lemma sample_usual : usual [secTypeVncAuth] [secTypeNone; secTypeVncAuth] [SetQualityLevel 8] tt tt.
Proof.
  split.
  - by vm_compute.
  - by repeat constructor.
  - by apply (bool_decide_unpack _).
  - exists sample_challenge, tt. split; [done|]. split; [done|]. by vm_compute.
  - by eexists _, _.
  - by intros name q v reason v' [=].
  - intros sh exclusive v. exists v. split; [done|]. split; [done|]. unfold presentable. split_and!; try done.
    + by apply (bool_decide_unpack _).
    + apply bytes_decide. done.
  - by repeat constructor.
  - intros p v. eexists _, _. split; [done|]. 
    constructor; [|by repeat constructor]. split; [|done]. unfold pf_wf. cbn. lia.
  - done.
Qed.

Lemma handshake_concludes_witness :
  exists N, rtc (step [secTypeVncAuth] [secTypeNone; secTypeVncAuth] true 1000 stored)
      (first_net false AccessFull true sample_wishes [SetQualityLevel 8] tt tt) N /\
    n_error N = None /\ k_state (n_client N).1 = K_NORMAL /\ c_state (n_server N).1 = RFBSTATE_NORMAL /\
    c_rights (n_server N).1 = AccessDefault /\ width_ (sp (k_server (n_client N).1)) = 64 /\
    pf_ (sp (k_server (n_client N).1)) = sample_format /\ 60 < len (n_up N).
Proof.
  destruct (handshake_concludes [secTypeVncAuth] [secTypeNone; secTypeVncAuth] true 1000 stored false AccessFull true sample_wishes
    [SetQualityLevel 8] tt tt sample_usual) as (N & n & HN & Hto & _).
  exists N. split; [exact Hto|].
  destruct (password_lets_in [secTypeVncAuth] [secTypeNone; secTypeVncAuth] true 1000 stored false AccessFull sample_wishes [SetQualityLevel 8]
    tt tt tt tt sample_challenge ([], text "secret") N) as (o & Ho & HJ);
    [by vm_compute|done|done|by vm_compute|done|done|exact HN|].
  cbn [o_queryConnection sample_owner fst] in HJ. unfold judgement in HJ.
  destruct HJ as (He & Hk & Hc & Hr & (Hw & _) & _ & _ & v & settings & v' & Hv & _ & Hpf & Hup & _).
  injection Hv as <- <-. cbv zeta in Hpf, Hup.
  split; [exact He|]. split; [exact Hk|]. split; [exact Hc|]. split; [|split; [exact Hw|split]].
  - rewrite Hr, Ho. by vm_compute.
  - rewrite Hpf. by vm_compute.
  - rewrite Hup. by vm_compute.
Defined.

End sample.
