(* ===== verification/Palette.v ===== *)
(** * The colours of a rectangle ([rfb/Palette.h])

    A table of up to 256 colours with the number of their pixels, the most
    common first: nodes in the order the colours came ([list]), chained for a
    hash table, and [entry], which is sorted.  The fields of a node are arrays
    of their own here.  [Palette_refines] shows that the three together are the
    sorted list of the colours and their counts. *)
From stdpp Require Import base sets list numbers strings option sorting.
From S2P Require Import Prelude.
#[local] Open Scope Z_scope.

Record palette := MkPalette {
  numColours : nat;
  node_next : list (option nat);
  node_idx : list nat;
  node_colour : list Z;
  hash : list (option nat);
  entry : list (nat * Z)
}.

Definition pal_size (p : palette) : Z := Z.of_nat (numColours p).

Definition pal_clear (p : palette) : palette :=
  MkPalette 0 (node_next p) (node_idx p) (node_colour p) (replicate 256 None) (entry p).
(** What the arrays hold before is not read. *)
Definition new_palette : palette :=
  pal_clear (MkPalette 0 (replicate 256 None) (replicate 256 0%nat) (replicate 256 0) [] (replicate 256 (0%nat, 0))).

(** [unsigned char] arithmetic *)
Definition genHash (colour : Z) : nat :=
  Z.to_nat (foldl (fun hash_key i => u8 (Z.lxor (Z.shiftl hash_key 5 + hash_key) (Z.shiftr colour i))) 5 [0; 8; 16; 24]).

Definition colour_of (p : palette) (k : nat) : Z := default 0 (node_colour p !! k).
Definition nth_entry (p : palette) (i : nat) : nat * Z := default (0%nat, 0) (entry p !! i).

(** The node of a colour, or none and the last one of its chain. *)
Fixpoint walk (fuel : nat) (p : palette) (colour : Z) (pnode prev_pnode : option nat) : option nat * option nat :=
  match fuel, pnode with
  | S fuel, Some k =>
      if colour_of p k =? colour then (Some k, prev_pnode)
      else walk fuel p colour (default None (node_next p !! k)) (Some k)
  | _, _ => (None, prev_pnode)
  end.
Definition pal_find (p : palette) (colour : Z) : option nat * option nat :=
  walk 257 p colour (default None (hash p !! genHash colour)) None.

Definition set_entry (idx : nat) (e : nat * Z) (p : palette) : palette :=
  MkPalette (numColours p) (node_next p) (<[e.1 := idx]> (node_idx p)) (node_colour p) (hash p) (<[idx := e]> (entry p)).

(** Entries with fewer pixels move up by one; the place that is left. *)
Fixpoint move_entries (idx : nat) (numPixels : Z) (p : palette) : nat * palette :=
  match idx with
  | O => (O, p)
  | S i =>
      if (nth_entry p i).2 >=? numPixels then (idx, p)
      else move_entries i numPixels (set_entry idx (nth_entry p i) p)
  end.

Definition pal_insert (colour numPixels : Z) (p : palette) : bool * palette :=
  match pal_find p colour with
  | (Some k, _) =>
      let idx := default 0%nat (node_idx p !! k) in
      let numPixels := (nth_entry p idx).2 + numPixels in
      let '(idx, p) := move_entries idx numPixels p in
      (true, set_entry idx (k, numPixels) p)
  | (None, prev_pnode) =>
      if (numColours p =? 256)%nat then (false, p) else
      let k := numColours p in
      let nexts := <[k := None]> (node_next p) in
      let p := MkPalette k
        (match prev_pnode with Some prev => <[prev := Some k]> nexts | None => nexts end)
        (<[k := 0%nat]> (node_idx p)) (<[k := colour]> (node_colour p))
        (match prev_pnode with Some _ => hash p | None => <[genHash colour := Some k]> (hash p) end)
        (entry p) in
      let '(idx, p) := move_entries k numPixels p in
      let p := set_entry idx (k, numPixels) p in
      (true, MkPalette (S (numColours p)) (node_next p) (node_idx p) (node_colour p) (hash p) (entry p))
  end.

(** A colour that is not there fails an assertion; the answer is 0 without. *)
Definition pal_lookup (p : palette) (colour : Z) : Z :=
  match (pal_find p colour).1 with Some k => Z.of_nat (default 0%nat (node_idx p !! k)) | None => 0 end.

Definition getColour (p : palette) (index : Z) : Z := colour_of p (nth_entry p (Z.to_nat index)).1.
Definition getCount (p : palette) (index : Z) : Z := (nth_entry p (Z.to_nat index)).2.

(** ** The sorted list of the colours *)

Definition entries (p : palette) : list (nat * Z) := take (numColours p) (entry p).
Definition counts (p : palette) : list (Z * Z) := map (fun e => (colour_of p e.1, e.2)) (entries p).

Fixpoint insert_desc (x : Z * Z) (l : list (Z * Z)) : list (Z * Z) :=
  match l with
  | [] => [x]
  | y :: l => if x.2 <=? y.2 then y :: insert_desc x l else x :: y :: l
  end.
Definition count_in (colour : Z) (l : list (Z * Z)) : Z :=
  foldr (fun y n => if y.1 =? colour then y.2 + n else n) 0 l.
Definition add_pixels (colour numPixels : Z) (l : list (Z * Z)) : list (Z * Z) :=
  insert_desc (colour, count_in colour l + numPixels) (filter (fun y => y.1 <> colour) l).

Definition desc (l : list (Z * Z)) : Prop := StronglySorted (fun a b => b.2 <= a.2) l.

(** ** The invariant *)

(** The chain from a node, in order. *)
Fixpoint chain (next : list (option nat)) (start : option nat) (ks : list nat) : Prop :=
  match ks with
  | [] => start = None
  | k :: ks => start = Some k /\ exists n, next !! k = Some n /\ chain next n ks
  end.

Record palette_ok (p : palette) : Prop := {
  ok_size : (numColours p <= 256)%nat;
  ok_arrays : length (node_next p) = 256%nat /\ length (node_idx p) = 256%nat /\ length (node_colour p) = 256%nat /\
    length (hash p) = 256%nat /\ length (entry p) = 256%nat;
  ok_nodes : (entries p).*1 ≡ₚ seq 0 (numColours p);
  ok_idx : forall i k n, entries p !! i = Some (k, n) -> node_idx p !! k = Some i;
  ok_colours : NoDup (map (colour_of p) (seq 0 (numColours p)));
  ok_sorted : desc (counts p);
  ok_chains : forall h, (h < 256)%nat -> exists ks, chain (node_next p) (default None (hash p !! h)) ks /\ NoDup ks /\
    forall k, k ∈ ks <-> (k < numColours p)%nat /\ genHash (colour_of p k) = h
}.

(** ** Chains *)

Lemma chain_next_insert next start ks k x : k ∉ ks -> chain next start ks -> chain (<[k := x]> next) start ks.
Proof.
  revert start. induction ks as [|k' ks IH]; intros start Hk; cbn [chain]; [done|].
  apply not_elem_of_cons in Hk as [Hne Hk]. intros (-> & n & Hn & Hc). split; [done|]. exists n.
  rewrite list_lookup_insert_ne by done. split; [done|]. by apply IH.
Qed.

Lemma chain_app next start ks1 k ks2 : chain next start (ks1 ++ k :: ks2) ->
  chain next (Some k) (k :: ks2).
Proof.
  revert start. induction ks1 as [|k' ks1 IH]; intros start; cbn [app chain].
  - intros (-> & H). by split.
  - intros (_ & n & _ & Hc). by eapply IH.
Qed.

(** A new node behind the last one. *)
Lemma chain_snoc next start ks prev k : chain next start (ks ++ [prev]) -> NoDup (ks ++ [prev]) -> next !! k = Some None ->
  k ∉ ks ++ [prev] -> chain (<[prev := Some k]> next) start (ks ++ [prev; k]).
Proof.
  revert start. induction ks as [|k' ks IH]; intros start; cbn [app chain].
  - intros (-> & n & Hn & _) _ Hk Hne. split; [done|]. exists (Some k).
    split; [apply list_lookup_insert_eq; by eapply lookup_lt_Some|]. split; [done|]. exists None.
    rewrite list_lookup_insert_ne; [done|]. intros ->. apply Hne. by left.
  - intros (-> & n & Hn & Hc) [Hnew Hnd]%NoDup_cons Hk [Hne1 Hne]%not_elem_of_cons. split; [done|]. exists n.
    split; [rewrite list_lookup_insert_ne; [done|]|by apply IH]. intros ->. apply Hnew, elem_of_app. by right; left.
Qed.

(** What [walk] finds on a chain. *)
Lemma walk_chain p colour fuel : forall ks start prev, chain (node_next p) start ks -> (length ks < fuel)%nat ->
  walk fuel p colour start prev =
    match list_find (fun k => colour_of p k = colour) ks with
    | Some (i, k) => (Some k, match i with O => prev | S i => ks !! i end)
    | None => (None, match last ks with Some k => Some k | None => prev end)
    end.
Proof.
  induction fuel as [|fuel IH]; intros ks start prev Hc Hf; [lia|]. destruct ks as [|k ks]; cbn [chain] in Hc.
  - by rewrite Hc.
  - destruct Hc as (-> & n & Hn & Hc). cbn [walk list_find length] in *. destruct (Z.eqb_spec (colour_of p k) colour) as [He|He].
    + by rewrite decide_True by done.
    + rewrite decide_False, Hn by done. cbn [default]. rewrite (IH ks) by (done || lia).
      destruct (list_find _ ks) as [[[|i] k']|] eqn:Hl; cbn; [done..|]. destruct ks as [|k' ks]; [done|].
      change (last (k :: k' :: ks)) with (last (k' :: ks)). destruct (last (k' :: ks)) eqn:Hlast; [done|by apply last_None in Hlast].
Qed.

(** ** Moving entries *)

Definition same_shape (p q : palette) : Prop :=
  numColours q = numColours p /\ node_next q = node_next p /\ node_colour q = node_colour p /\ hash q = hash p /\
  length (node_idx q) = length (node_idx p) /\ length (entry q) = length (entry p).

Lemma set_entry_shape i e p : same_shape p (set_entry i e p).
Proof. repeat split; apply length_insert. Qed.
Lemma same_shape_trans p q r : same_shape p q -> same_shape q r -> same_shape p r.
Proof. unfold same_shape. intuition congruence. Qed.

Lemma move_entries_spec numPixels l : forall p x r, entry p = l ++ x :: r -> NoDup l.*1 ->
  (forall k, k ∈ l.*1 -> (k < length (node_idx p))%nat) ->
  exists l1 l2 x' q, move_entries (length l) numPixels p = (length l1, q) /\ same_shape p q /\ l = l1 ++ l2 /\
    entry q = l1 ++ x' :: l2 ++ r /\ Forall (fun e => e.2 < numPixels) l2 /\
    (forall e, last l1 = Some e -> numPixels <= e.2) /\
    (forall i k n, l2 !! i = Some (k, n) -> node_idx q !! k = Some (S (length l1 + i))) /\
    (forall k, k ∉ l2.*1 -> node_idx q !! k = node_idx p !! k).
Proof.
  induction l as [|y l IH] using rev_ind; intros p x r He Hnd Hk.
  - exists [], [], x, p. repeat split; done.
  - rewrite length_app, Nat.add_comm. cbn [length Nat.add move_entries].
    assert (nth_entry p (length l) = y) as Hy.
    { unfold nth_entry. rewrite He, <- app_assoc, lookup_app_r, Nat.sub_diag by lia. done. }
    rewrite Hy. destruct (y.2 >=? numPixels) eqn:Hn; bool_decide_hyps.
    { exists (l ++ [y]), [], x, p. rewrite length_app, Nat.add_comm, app_nil_r. split_and!; try done.
      intros e. by rewrite last_snoc; intros [= <-]. }
    rewrite fmap_app in Hnd. apply NoDup_app in Hnd as (Hnd & Hdis & _).
    assert (y.1 < length (node_idx p))%nat as Hyk by (apply Hk; rewrite fmap_app; set_solver).
    destruct (IH (set_entry (S (length l)) y p) y (y :: r)) as (l1 & l2 & x' & q & Hm & Hs & Hl & Hq & Hlt & Hlast & Hidx & Hsame).
    + cbn [set_entry entry]. rewrite He, <- app_assoc, insert_app_r_alt by lia. by replace (S (length l) - length l)%nat with 1%nat by lia.
    + done.
    + intros k Hin. cbn [set_entry node_idx]. rewrite length_insert. apply Hk. rewrite fmap_app. set_solver.
    + exists l1, (l2 ++ [y]), x', q. split; [exact Hm|]. split; [by eapply same_shape_trans; [apply set_entry_shape|]|].
      split; [by rewrite Hl, app_assoc|]. split; [by rewrite Hq, <- app_assoc|]. split; [apply Forall_app; split; [done|by repeat constructor]|].
      split; [done|]. assert (y.1 ∉ l2.*1) as Hyn. { intros Hin. apply (Hdis y.1); [rewrite Hl, fmap_app|]; set_solver. }
      split.
      * intros i k n [Hi|[Hi [Hz ->]%list_lookup_singleton_Some]]%lookup_app_Some; [by eapply Hidx|].
        rewrite (Hsame k Hyn). cbn [set_entry node_idx]. rewrite list_lookup_insert_eq by done. f_equal. rewrite Hl, length_app. lia.
      * intros k Hin. rewrite fmap_app in Hin. rewrite Hsame by set_solver. cbn [set_entry node_idx].
        apply list_lookup_insert_ne. set_solver.
Qed.

(** An entry takes its place. *)
Lemma place_spec k numPixels p l x r : entry p = l ++ x :: r -> NoDup l.*1 -> k ∉ l.*1 ->
  (forall k, k ∈ l.*1 -> (k < length (node_idx p))%nat) -> (k < length (node_idx p))%nat ->
  exists l1 l2 q0 q, move_entries (length l) numPixels p = (length l1, q0) /\ q = set_entry (length l1) (k, numPixels) q0 /\
    same_shape p q /\ l = l1 ++ l2 /\ entry q = l1 ++ (k, numPixels) :: l2 ++ r /\ Forall (fun e => e.2 < numPixels) l2 /\
    (forall e, last l1 = Some e -> numPixels <= e.2) /\ node_idx q !! k = Some (length l1) /\
    (forall i k' n, l2 !! i = Some (k', n) -> node_idx q !! k' = Some (S (length l1 + i))) /\
    (forall k', k' <> k -> k' ∉ l2.*1 -> node_idx q !! k' = node_idx p !! k').
Proof.
  intros He Hnd Hk Hlt Hkl. destruct (move_entries_spec numPixels l p x r He Hnd Hlt) as (l1 & l2 & x' & q & Hm & Hs & Hl & Hq & Hlow & Hlast & Hidx & Hsame).
  exists l1, l2, q, (set_entry (length l1) (k, numPixels) q). split; [done|]. split; [done|].
  split; [by eapply same_shape_trans; [|apply set_entry_shape]|]. split; [done|]. cbn [set_entry entry node_idx fst].
  destruct Hs as (_ & _ & _ & _ & Hli & _).
  split; [rewrite Hq, insert_app_r_alt, Nat.sub_diag by done; done|]. split; [done|]. split; [done|].
  split; [apply list_lookup_insert_eq; lia|]. rewrite Hl, fmap_app in Hk. split.
  - intros i k' n Hi. rewrite list_lookup_insert_ne; [by eapply Hidx|]. intros <-.
    apply Hk, elem_of_app. right. apply (list_elem_of_fmap_2' _ _ (k, n)); [by eapply list_elem_of_lookup_2|done].
  - intros k' Hne Hin. rewrite list_lookup_insert_ne by done. by apply Hsame.
Qed.

(** ** Sorted lists of counts *)

Lemma insert_desc_place c n l1 r : Forall (fun y => n <= y.2) l1 -> Forall (fun y => y.2 < n) r ->
  insert_desc (c, n) (l1 ++ r) = l1 ++ (c, n) :: r.
Proof.
  intros H1 Hr. induction H1 as [|y l1 Hy _ IH]; cbn [app insert_desc snd].
  - destruct Hr as [|y r Hy Hr]; [done|]. cbn [insert_desc snd]. by rewrite (proj2 (Z.leb_gt _ _)) by lia.
  - rewrite (proj2 (Z.leb_le _ _)) by done. by rewrite IH.
Qed.

Lemma insert_desc_perm x l : insert_desc x l ≡ₚ x :: l.
Proof. induction l as [|y l IH]; cbn; [done|]. case_test; [|done]. rewrite IH. apply Permutation_swap. Qed.

Lemma insert_desc_sorted x l : desc l -> desc (insert_desc x l).
Proof.
  induction 1 as [|y l Hl IH Hy]; cbn; [by repeat constructor|]. case_test.
  - constructor; [done|]. rewrite insert_desc_perm. by constructor.
  - constructor; [by constructor|]. constructor; [lia|]. eapply Forall_impl; [exact Hy|]. cbn. intros; lia.
Qed.

Lemma desc_prefix (l1 l2 : list (Z * Z)) n : desc (l1 ++ l2) -> (forall y, last l1 = Some y -> n <= y.2) -> Forall (fun y => n <= y.2) l1.
Proof.
  induction l1 as [|y l1 IH]; [done|]. intros [Hs Hy]%StronglySorted_inv Hl. destruct l1 as [|z l1].
  - repeat constructor. by apply Hl.
  - assert (Forall (fun y => n <= y.2) (z :: l1)) as HF by (apply IH; [done|exact Hl]). constructor; [|done].
    apply Forall_cons_1 in HF as [Hz _]. apply Forall_cons_1 in Hy as [Hzy _]. cbn in *. lia.
Qed.

Lemma count_in_absent colour l : colour ∉ l.*1 -> count_in colour l = 0.
Proof.
  induction l as [|y l IH]; [done|]. intros [Hne Hin]%not_elem_of_cons. cbn. rewrite (proj2 (Z.eqb_neq _ _)) by done. by apply IH.
Qed.
Lemma filter_absent colour (l : list (Z * Z)) : colour ∉ l.*1 -> filter (fun y => y.1 <> colour) l = l.
Proof.
  induction l as [|y l IH]; [done|]. intros [Hne Hin]%not_elem_of_cons. rewrite filter_cons_True by done. by rewrite IH.
Qed.

(** The pixels of a colour that is there. *)
Lemma add_pixels_there colour c n l1 l2 r : NoDup (l1 ++ l2 ++ (colour, c) :: r).*1 -> desc (l1 ++ l2 ++ (colour, c) :: r) ->
  0 < n -> Forall (fun y => y.2 < c + n) l2 -> (forall y, last l1 = Some y -> c + n <= y.2) ->
  add_pixels colour n (l1 ++ l2 ++ (colour, c) :: r) = l1 ++ (colour, c + n) :: l2 ++ r.
Proof.
  intros Hnd Hs Hn Hl2 Hlast. unfold add_pixels. pose proof Hnd as Hnd'. rewrite app_assoc, fmap_app in Hnd.
  apply NoDup_app in Hnd as (_ & Hdis & [Hr _]%NoDup_cons). fold ((r).*1) in Hr.
  assert (colour ∉ (l1 ++ l2).*1) as Hl by (intros H; apply (Hdis colour H); by left).
  rewrite app_assoc, filter_app, filter_cons_False, (filter_absent _ r), (filter_absent _ (l1 ++ l2)) by (done || tauto).
  assert (count_in colour ((l1 ++ l2) ++ (colour, c) :: r) = c) as ->.
  { clear -Hl Hr. induction (l1 ++ l2) as [|y l IH]; cbn.
    - rewrite Z.eqb_refl. fold (count_in colour r). by rewrite count_in_absent, Z.add_0_r by done.
    - apply not_elem_of_cons in Hl as [Hne Hin]. rewrite (proj2 (Z.eqb_neq _ _)) by done. by apply IH. }
  rewrite <- app_assoc. apply insert_desc_place; [by eapply desc_prefix|]. apply Forall_app. split; [done|].
  rewrite app_assoc in Hs. assert (desc ((colour, c) :: r)) as [_ Hc]%StronglySorted_inv.
  { clear -Hs. induction (l1 ++ l2) as [|y l IH]; [done|]. by apply StronglySorted_inv in Hs as [Hs _]; apply IH. }
  eapply Forall_impl; [exact Hc|]. cbn. intros; lia.
Qed.

Lemma add_pixels_new colour n l1 l2 : colour ∉ (l1 ++ l2).*1 -> desc (l1 ++ l2) ->
  Forall (fun y => y.2 < n) l2 -> (forall y, last l1 = Some y -> n <= y.2) ->
  add_pixels colour n (l1 ++ l2) = l1 ++ (colour, n) :: l2.
Proof.
  intros Hc Hs Hl2 Hlast. unfold add_pixels. rewrite count_in_absent, filter_absent by done.
  apply insert_desc_place; [by eapply desc_prefix|done].
Qed.

Lemma add_pixels_sorted colour n l : desc l -> desc (add_pixels colour n l).
Proof.
  intros Hs. apply insert_desc_sorted. induction Hs as [|y l Hl IH Hy]; [constructor|]. destruct (decide (y.1 <> colour)).
  - rewrite filter_cons_True by done. constructor; [done|]. apply Forall_forall. intros z [_ Hz]%list_elem_of_filter.
    by apply (proj1 (Forall_forall _ _) Hy).
  - by rewrite filter_cons_False.
Qed.

(** ** A palette that is well formed *)

Section ok.
Context (p : palette) (H : palette_ok p).

Lemma entries_length : length (entries p) = numColours p.
Proof. unfold entries. rewrite length_take. pose proof (ok_arrays p H). pose proof (ok_size p H). lia. Qed.

Lemma entries_split : entry p = entries p ++ drop (numColours p) (entry p).
Proof. symmetry. apply take_drop. Qed.

Lemma entry_node k : k ∈ (entries p).*1 <-> (k < numColours p)%nat.
Proof. rewrite (ok_nodes p H), elem_of_seq. lia. Qed.

Lemma nodes_NoDup : NoDup (entries p).*1.
Proof. rewrite (ok_nodes p H). apply NoDup_seq. Qed.

Lemma colour_of_inj k k' : (k < numColours p)%nat -> (k' < numColours p)%nat -> colour_of p k = colour_of p k' -> k = k'.
Proof.
  intros Hk Hk' He. eapply (NoDup_lookup _ k k' (colour_of p k) (ok_colours p H)); rewrite list_lookup_fmap, lookup_seq_lt by done; [done|].
  cbn. by rewrite He.
Qed.

Lemma counts_colours : (counts p).*1 = map (colour_of p) (entries p).*1.
Proof. unfold counts. by rewrite <- !list_fmap_compose. Qed.

Lemma counts_NoDup : NoDup (counts p).*1.
Proof. rewrite counts_colours, (ok_nodes p H). apply (ok_colours p H). Qed.

Lemma counts_colour c : c ∈ (counts p).*1 <-> exists k, (k < numColours p)%nat /\ colour_of p k = c.
Proof.
  rewrite counts_colours. rewrite list_elem_of_fmap. split; intros (k & H1 & H2); exists k.
  - by rewrite entry_node in H2.
  - by rewrite entry_node.
Qed.

Lemma genHash_range c : (genHash c < 256)%nat.
Proof.
  unfold genHash. cbn [foldl]. match goal with |- context [u8 ?z] => pose proof (u8_range z) end. lia.
Qed.

(** A bound on the length of a chain. *)
Lemma chain_length ks : NoDup ks -> (forall k, k ∈ ks -> (k < numColours p)%nat) -> (length ks <= numColours p)%nat.
Proof.
  intros Hnd Hk. rewrite <- (length_seq (numColours p) 0). apply submseteq_length, NoDup_submseteq; [done|].
  intros k Hin. rewrite elem_of_seq. specialize (Hk k Hin). lia.
Qed.

(** The hash table finds a colour, or the end of its chain. *)
Lemma find_spec c : exists ks, chain (node_next p) (default None (hash p !! genHash c)) ks /\ NoDup ks /\
  (forall k, k ∈ ks <-> (k < numColours p)%nat /\ genHash (colour_of p k) = genHash c) /\
  ((exists k prev, pal_find p c = (Some k, prev) /\ (k < numColours p)%nat /\ colour_of p k = c) \/
   (pal_find p c = (None, last ks) /\ forall k, (k < numColours p)%nat -> colour_of p k <> c)).
Proof.
  destruct (ok_chains p H (genHash c) (genHash_range c)) as (ks & Hc & Hnd & Hks). exists ks. split; [done|]. split; [done|]. split; [done|].
  assert (length ks <= numColours p)%nat as Hl by (apply chain_length; [done|]; intros k Hk; by apply Hks).
  pose proof (ok_size p H). unfold pal_find. rewrite (walk_chain p c 257 ks) by (done || lia).
  destruct (list_find _ ks) as [[i k]|] eqn:Hf.
  - left. apply list_find_Some in Hf as (Hi & He & _). eexists k, _. split; [done|].
    split; [by apply Hks, (list_elem_of_lookup_2 _ i)|done].
  - right. split; [by destruct (last ks)|]. intros k Hk He. apply list_find_None in Hf. rewrite Forall_forall in Hf.
    apply (Hf k); [|done]. apply Hks. by rewrite He.
Qed.

Lemma find_colour k : (k < numColours p)%nat -> exists prev, pal_find p (colour_of p k) = (Some k, prev).
Proof.
  intros Hk. destruct (find_spec (colour_of p k)) as (ks & _ & _ & _ & [(k' & prev & Hf & Hk' & He)|[_ Hn]]).
  - exists prev. rewrite Hf. repeat f_equal. by apply colour_of_inj.
  - by destruct (Hn k Hk).
Qed.

(** The entry a node points to. *)
Lemma entry_of k : (k < numColours p)%nat -> exists l n r, entries p = l ++ (k, n) :: r /\ node_idx p !! k = Some (length l).
Proof.
  intros Hk%entry_node. apply list_elem_of_fmap in Hk as ([k' n] & -> & Hin). apply list_elem_of_split in Hin as (l & r & Hl).
  exists l, n, r. split; [done|]. apply (ok_idx p H _ _ n). rewrite Hl. by apply list_lookup_middle.
Qed.

Lemma lookup_counts c : c ∈ (counts p).*1 ->
  exists i n, pal_lookup p c = Z.of_nat i /\ counts p !! i = Some (c, n) /\ getColour p (pal_lookup p c) = c.
Proof.
  intros (k & Hk & <-)%counts_colour. destruct (find_colour k Hk) as (prev & Hf). destruct (entry_of k Hk) as (l & n & r & Hl & Hi).
  exists (length l), n. unfold pal_lookup. rewrite Hf. cbn [fst]. rewrite Hi. cbn [default]. split; [done|]. split.
  - unfold counts. rewrite list_lookup_fmap, Hl, list_lookup_middle by done. done.
  - unfold getColour, nth_entry. rewrite Nat2Z.id, entries_split, Hl, <- app_assoc.
    cbn [app]. rewrite list_lookup_middle by done. done.
Qed.

Lemma getColour_counts i c n : counts p !! i = Some (c, n) -> getColour p (Z.of_nat i) = c /\ getCount p (Z.of_nat i) = n.
Proof.
  unfold counts. rewrite list_lookup_fmap. intros Hi. destruct (entries p !! i) as [[k m]|] eqn:He; [|done]. cbn in Hi. simplify_eq.
  unfold getColour, getCount, nth_entry. rewrite Nat2Z.id, entries_split, lookup_app_l by (by eapply lookup_lt_Some).
  by rewrite He.
Qed.
End ok.

(** ** [insert] *)

(** What [insert] leaves, when the node [k] has taken its place. *)
Lemma placed_ok p q N k num l1 l2 r rest : same_shape p q -> (N <= 256)%nat ->
  length (node_next p) = 256%nat /\ length (node_idx p) = 256%nat /\ length (node_colour p) = 256%nat /\ length (hash p) = 256%nat /\ length (entry p) = 256%nat ->
  entry q = l1 ++ (k, num) :: l2 ++ r ++ rest -> length (l1 ++ l2 ++ r) = Nat.pred N -> (0 < N)%nat ->
  k :: (l1 ++ l2 ++ r).*1 ≡ₚ seq 0 N ->
  (forall i k' n, (l1 ++ l2) !! i = Some (k', n) -> node_idx p !! k' = Some i) ->
  (forall i k' n, r !! i = Some (k', n) -> node_idx p !! k' = Some (S (length (l1 ++ l2) + i))) ->
  node_idx q !! k = Some (length l1) ->
  (forall i k' n, l2 !! i = Some (k', n) -> node_idx q !! k' = Some (S (length l1 + i))) ->
  (forall k', k' <> k -> k' ∉ l2.*1 -> node_idx q !! k' = node_idx p !! k') ->
  NoDup (map (colour_of p) (seq 0 N)) ->
  desc (map (fun e => (colour_of p e.1, e.2)) (l1 ++ (k, num) :: l2 ++ r)) ->
  (forall h, (h < 256)%nat -> exists ks, chain (node_next p) (default None (hash p !! h)) ks /\ NoDup ks /\
    forall k, k ∈ ks <-> (k < N)%nat /\ genHash (colour_of p k) = h) ->
  let q' := MkPalette N (node_next q) (node_idx q) (node_colour q) (hash q) (entry q) in
  palette_ok q' /\ counts q' = map (fun e => (colour_of p e.1, e.2)) (l1 ++ (k, num) :: l2 ++ r).
Proof.
  intros (_ & Hnx & Hcol & Hh & Hli & Hle) HN Harr Hq Hlen HN0 Hperm Hil Hir Hk Hl2 Hsame Hnd Hdesc Hch q'.
  assert (entries q' = l1 ++ (k, num) :: l2 ++ r) as He.
  { unfold entries, q'. cbn [entry numColours]. rewrite Hq. rewrite !length_app in Hlen.
    replace (l1 ++ (k, num) :: l2 ++ r ++ rest) with ((l1 ++ (k, num) :: l2 ++ r) ++ rest) by (by rewrite <- app_assoc; cbn; rewrite <- app_assoc).
    apply take_app_length'. rewrite length_app. cbn. rewrite length_app. lia. }
  assert (forall k', colour_of q' k' = colour_of p k') as Hc by (intros; unfold colour_of, q'; cbn; by rewrite Hcol).
  assert (counts q' = map (fun e => (colour_of p e.1, e.2)) (l1 ++ (k, num) :: l2 ++ r)) as Hcounts.
  { unfold counts. rewrite He. apply map_ext. intros e. by rewrite Hc. }
  split; [|done].
  assert (NoDup (k :: (l1 ++ l2 ++ r).*1)) as Hnodes by (rewrite Hperm; apply NoDup_seq).
  apply NoDup_cons in Hnodes as [Hknew Hnodes]. rewrite !fmap_app in Hknew, Hnodes.
  apply NoDup_app in Hnodes as (_ & Hd1 & (_ & Hd2 & _)%NoDup_app).
  split; [done|unfold q'; cbn; rewrite Hnx, Hcol, Hh, Hli, Hle; done| | | |by rewrite Hcounts|].
  - change (numColours q') with N. rewrite He, <- Hperm. rewrite !fmap_app, fmap_cons, !fmap_app. cbn [fst]. symmetry. apply Permutation_middle.
  - intros i k' n Hi. rewrite He in Hi. unfold q'. cbn [node_idx].
    apply lookup_app_Some in Hi as [Hi|[Hge Hi]].
    + assert (k' ∈ l1.*1) as Hin by (apply (list_elem_of_fmap_2' _ _ (k', n)); [by eapply list_elem_of_lookup_2|done]).
      rewrite Hsame; [|set_solver..]. apply (Hil i k' n). by apply lookup_app_l_Some.
    + destruct (i - length l1)%nat as [|j] eqn:Hj; cbn in Hi; [simplify_eq; rewrite Hk; f_equal; lia|].
      apply lookup_app_Some in Hi as [Hi|[Hge2 Hi]]; [rewrite (Hl2 j k' n Hi); f_equal; lia|].
      assert (k' ∈ r.*1) as Hin by (apply (list_elem_of_fmap_2' _ _ (k', n)); [by eapply list_elem_of_lookup_2|done]).
      rewrite Hsame; [|set_solver..]. rewrite (Hir _ k' n Hi), length_app. f_equal. lia.
  - cbn [numColours q']. erewrite map_ext; [exact Hnd|done].
  - intros h Hlt. destruct (Hch h Hlt) as (ks & Hks & Hndk & Hin). exists ks.
    change (node_next q') with (node_next q). change (hash q') with (hash q). change (numColours q') with N.
    rewrite Hnx, Hh. split; [done|]. split; [done|]. intros k'. rewrite Hin. by rewrite Hc.
Qed.

Lemma colours_of_map p l : (map (fun e : nat * Z => (colour_of p e.1, e.2)) l).*1 = map (colour_of p) l.*1.
Proof. by rewrite <- !list_fmap_compose. Qed.

Lemma last_map_counts p (l : list (nat * Z)) n : (forall e, last l = Some e -> n <= e.2) ->
  forall y, last (map (fun e => (colour_of p e.1, e.2)) l) = Some y -> n <= y.2.
Proof. intros H y. rewrite fmap_last. destruct (last l) as [e|] eqn:Hl; [|done]. cbn. intros [= <-]. by apply (H e). Qed.

(** A colour that is there. *)
Lemma insert_there p k prev n : palette_ok p -> 0 < n -> (k < numColours p)%nat -> pal_find p (colour_of p k) = (Some k, prev) ->
  let r := pal_insert (colour_of p k) n p in
  r.1 = true /\ palette_ok r.2 /\ counts r.2 = add_pixels (colour_of p k) n (counts p).
Proof.
  intros H Hn Hk Hf r. unfold r, pal_insert. rewrite Hf. destruct (entry_of p H k Hk) as (l & c & r0 & Hl & Hi). rewrite Hi. cbn [default id].
  pose proof (nodes_NoDup p H) as Hnd. rewrite Hl, fmap_app, fmap_cons in Hnd. cbn [fst] in Hnd.
  pose proof Hnd as Hnd0. apply NoDup_app in Hnd as (Hndl & Hdis & [Hkr _]%NoDup_cons).
  assert (k ∉ l.*1) as Hkl by (intros Hin; apply (Hdis k Hin); by left).
  assert (nth_entry p (length l) = (k, c)) as Hent.
  { unfold nth_entry. rewrite (entries_split p), Hl, <- app_assoc. cbn [app]. by rewrite list_lookup_middle. }
  rewrite Hent. cbn [snd]. pose proof (ok_size p H). pose proof (ok_arrays p H) as Harr.
  assert (forall k', k' ∈ (entries p).*1 -> (k' < length (node_idx p))%nat) as Hbound.
  { intros k' Hin%(entry_node p H). destruct Harr as (_ & -> & _). lia. }
  destruct (place_spec k (c + n) p l (k, c) (r0 ++ drop (numColours p) (entry p))) as (l1 & l2 & q0 & q & -> & Hq & Hs & Hl12 & He & Hlow & Hlast & Hik & Hi2 & Hsame).
  { by rewrite (entries_split p), Hl, <- app_assoc at 1. }
  { done. } { done. } { intros k' Hin. apply Hbound. rewrite Hl, fmap_app. set_solver. } { apply Hbound. rewrite Hl, fmap_app. set_solver. }
  cbn [fst snd]. rewrite <- Hq. split; [done|].
  assert (counts p = map (fun e => (colour_of p e.1, e.2)) l1 ++ map (fun e => (colour_of p e.1, e.2)) l2 ++ (colour_of p k, c) :: map (fun e => (colour_of p e.1, e.2)) r0) as Hcounts.
  { unfold counts. by rewrite Hl, Hl12, !map_app, <- app_assoc. }
  assert (add_pixels (colour_of p k) n (counts p) = map (fun e => (colour_of p e.1, e.2)) (l1 ++ (k, c + n) :: l2 ++ r0)) as Hadd.
  { rewrite Hcounts, map_app. cbn [map fst snd]. rewrite map_app. apply add_pixels_there; [| |done| |].
    - rewrite <- Hcounts. by apply counts_NoDup.
    - rewrite <- Hcounts. by apply ok_sorted.
    - apply Forall_map. exact Hlow.
    - by apply last_map_counts. }
  destruct (placed_ok p q (numColours p) k (c + n) l1 l2 r0 (drop (numColours p) (entry p))) as [Hok Hcq]; try done.
  - pose proof (entries_length p H) as Hlen. rewrite Hl, Hl12 in Hlen. rewrite !length_app in *. cbn in Hlen. lia.
  - lia.
  - rewrite <- (ok_nodes p H), Hl, Hl12. rewrite !fmap_app, fmap_cons. cbn [fst]. by rewrite <- Permutation_middle, app_assoc.
  - intros i k' m Hm. rewrite <- Hl12 in Hm. apply (ok_idx p H i k' m). rewrite Hl. by apply lookup_app_l_Some.
  - intros i k' m Hm. apply (ok_idx p H _ k' m). rewrite Hl, <- Hl12, lookup_app_r by lia.
    by replace (S (length l + i) - length l)%nat with (S i) by lia.
  - by apply ok_colours.
  - rewrite <- Hadd. by apply add_pixels_sorted, ok_sorted.
  - by apply ok_chains.
  - destruct Hs as (HNq & _). assert (MkPalette (numColours p) (node_next q) (node_idx q) (node_colour q) (hash q) (entry q) = q) as Heq.
    { rewrite <- HNq. by destruct q. }
    rewrite Heq in Hok, Hcq. split; [done|]. by rewrite Hadd.
Qed.

(** *** A new colour *)

Section new.
Context (p : palette) (H : palette_ok p) (colour : Z) (ks : list nat).
Context (Hsize : (numColours p < 256)%nat).
Context (Hks : chain (node_next p) (default None (hash p !! genHash colour)) ks) (Hnd : NoDup ks).
Context (Hin : forall k, k ∈ ks <-> (k < numColours p)%nat /\ genHash (colour_of p k) = genHash colour).
Context (Hnew : forall k, (k < numColours p)%nat -> colour_of p k <> colour).
#[local] Abbreviation k := (numColours p).
#[local] Abbreviation p1 := (MkPalette k
  (match last ks with Some prev => <[prev := Some k]> (<[k := None]> (node_next p)) | None => <[k := None]> (node_next p) end)
  (<[k := 0%nat]> (node_idx p)) (<[k := colour]> (node_colour p))
  (match last ks with Some _ => hash p | None => <[genHash colour := Some k]> (hash p) end)
  (entry p)).

Lemma new_colour_of k' : (k' < k)%nat -> colour_of p1 k' = colour_of p k'.
Proof. intros Hk. unfold colour_of. cbn. by rewrite list_lookup_insert_ne by lia. Qed.
Lemma new_colour : colour_of p1 k = colour.
Proof. unfold colour_of. cbn. rewrite list_lookup_insert_eq; [done|]. pose proof (ok_arrays p H). lia. Qed.

Lemma new_colours : map (colour_of p1) (seq 0 (S k)) = map (colour_of p) (seq 0 k) ++ [colour].
Proof.
  rewrite seq_S, map_app. cbn [map]. rewrite Nat.add_0_l, new_colour. f_equal. apply map_ext_in. intros k' Hk%in_seq. apply new_colour_of. lia.
Qed.

Lemma new_chains h : (h < 256)%nat -> exists ks', chain (node_next p1) (default None (hash p1 !! h)) ks' /\ NoDup ks' /\
  forall k', k' ∈ ks' <-> (k' < S k)%nat /\ genHash (colour_of p1 k') = h.
Proof.
  intros Hh. destruct (ok_arrays p H) as (Hln & _ & _ & Hlh & _). cbn [node_next hash].
  assert (forall l : list nat, (forall k', k' ∈ l -> (k' < k)%nat) -> k ∉ l) as Hfresh by (intros l Hl Hk; specialize (Hl _ Hk); lia).
  destruct (decide (h = genHash colour)) as [->|Hne].
  - exists (ks ++ [k]). assert (k ∉ ks) as Hk by (apply Hfresh; intros k' Hk'; by apply Hin).
    split; [|split; [apply NoDup_app; split; [done|]; split; [|apply NoDup_singleton]; intros x Hx ->%list_elem_of_singleton; done|]].
    + destruct (last ks) as [prev|] eqn:Hlast.
      * apply last_Some in Hlast as [ks0 ->]. rewrite <- app_assoc. apply chain_snoc; [|done| |done].
        -- by apply chain_next_insert.
        -- apply list_lookup_insert_eq. lia.
      * apply last_None in Hlast as ->. cbn. rewrite list_lookup_insert_eq by lia. split; [done|]. exists None.
        by rewrite list_lookup_insert_eq by lia.
    + intros k'. rewrite elem_of_app, list_elem_of_singleton, Hin. split.
      * intros [[Hk' Hg]| ->]; [rewrite new_colour_of by done; split; [lia|done]|rewrite new_colour; split; [lia|done]].
      * intros [Hk' Hg]. destruct (decide (k' = k)) as [->|]; [by right|left]. rewrite new_colour_of in Hg by lia. split; [lia|done].
  - destruct (ok_chains p H h Hh) as (ks' & Hc & Hnd' & Hin'). exists ks'.
    assert (k ∉ ks') as Hk by (apply Hfresh; intros k' Hk'; by apply Hin').
    split; [|split; [done|]].
    + assert (default None ((match last ks with Some _ => hash p | None => <[genHash colour := Some k]> (hash p) end) !! h) = default None (hash p !! h)) as ->.
      { destruct (last ks); [done|]. by rewrite list_lookup_insert_ne by congruence. }
      destruct (last ks) as [prev|] eqn:Hlast; [|by apply chain_next_insert].
      apply chain_next_insert; [|by apply chain_next_insert].
      apply last_Some in Hlast as [ks0 ->]. intros [_ Hg]%Hin'. apply Hne. rewrite <- Hg. apply Hin, elem_of_app. right. by left.
    + intros k'. rewrite Hin'. split.
      * intros [Hk' Hg]. rewrite new_colour_of by done. split; [lia|done].
      * intros [Hk' Hg]. destruct (decide (k' = k)) as [->|]; [by rewrite new_colour in Hg|]. rewrite new_colour_of in Hg by lia. split; [lia|done].
Qed.

Lemma insert_new n : 0 < n -> pal_find p colour = (None, last ks) ->
  let r := pal_insert colour n p in
  r.1 = true /\ palette_ok r.2 /\ counts r.2 = add_pixels colour n (counts p).
Proof.
  intros Hn Hf r. unfold r, pal_insert. rewrite Hf, (proj2 (Nat.eqb_neq _ _)) by lia. cbv zeta.
  destruct (ok_arrays p H) as (Hln & Hli & Hlc & Hlh & Hle).
  destruct (lookup_lt_is_Some_2 (entry p) k) as [x Hx]; [lia|].
  assert (entry p1 = entries p ++ x :: drop (S k) (entry p)) as Hent.
  { cbn [entry]. rewrite (entries_split p) at 1. f_equal. by apply drop_S. }
  pose proof (entries_length p H) as Hlen. pose proof (nodes_NoDup p H) as Hnodes.
  assert (k ∉ (entries p).*1) as Hk by (rewrite entry_node by done; lia).
  destruct (place_spec k n p1 (entries p) x (drop (S k) (entry p)) Hent) as (l1 & l2 & q0 & q & Hm & Hq & Hs & Hl12 & He & Hlow & Hlast & Hik & Hi2 & Hsame);
    [done|done|intros k' Hk'%(entry_node p H); cbn; rewrite length_insert; lia|cbn; rewrite length_insert; lia|].
  rewrite Hlen in Hm. rewrite Hm. cbn [fst snd]. split; [done|].
  assert (map (fun e => (colour_of p1 e.1, e.2)) (entries p) = counts p) as Hold.
  { unfold counts. apply map_ext_in. intros [k' m] Hin'. cbn [fst snd]. rewrite new_colour_of; [done|]. apply (entry_node p H).
    apply (list_elem_of_fmap_2' _ _ (k', m)); [|done]. by apply list_elem_of_In. }
  assert (map (fun e => (colour_of p1 e.1, e.2)) (l1 ++ (k, n) :: l2 ++ []) = add_pixels colour n (counts p)) as Hadd.
  { rewrite app_nil_r, <- Hold, Hl12, !map_app. cbn [map fst snd]. rewrite new_colour. symmetry. apply add_pixels_new.
    - rewrite <- map_app, <- Hl12, Hold, counts_colour by done. intros (k' & Hk' & Hc). by apply (Hnew k').
    - rewrite <- map_app, <- Hl12, Hold. by apply ok_sorted.
    - by apply Forall_map.
    - by apply last_map_counts. }
  destruct Hs as (HNq & Hs).
  replace (numColours (set_entry (length l1) (k, n) q0)) with k by (rewrite <- Hq; by rewrite HNq).
  rewrite <- Hq.
  destruct (placed_ok p1 q (S k) k n l1 l2 [] (drop (S k) (entry p))) as [Hok Hcq]; try done.
  - cbn. rewrite !length_insert. destruct (last ks); rewrite ?length_insert; done.
  - rewrite app_nil_r, <- Hl12. lia.
  - lia.
  - rewrite app_nil_r, <- Hl12, (ok_nodes p H), seq_S. cbn. apply Permutation_cons_append.
  - intros i k' m Hm'. rewrite <- Hl12 in Hm'. cbn [node_idx]. rewrite list_lookup_insert_ne; [by eapply (ok_idx p H)|].
    intros <-. apply Hk, (list_elem_of_fmap_2' _ _ (k, m)); [by eapply list_elem_of_lookup_2|done].
  - rewrite new_colours. apply NoDup_app. split; [by apply ok_colours|]. split; [|apply NoDup_singleton].
    intros c (k' & He' & Hk')%list_elem_of_fmap Hc%list_elem_of_singleton. apply elem_of_seq in Hk'. apply (Hnew k'); [lia|congruence].
  - rewrite Hadd. by apply add_pixels_sorted, ok_sorted.
  - apply new_chains.
  - split; [exact Hok|]. by rewrite <- Hadd.
Qed.
End new.

Lemma cleared_ok p : length (node_next p) = 256%nat -> length (node_idx p) = 256%nat -> length (node_colour p) = 256%nat ->
  length (entry p) = 256%nat -> palette_ok (pal_clear p).
Proof.
  intros. split; try done.
  - cbn. lia.
  - constructor.
  - constructor.
  - intros h Hh. exists []. split; [|split; [constructor|]].
    + change (hash (pal_clear p)) with (replicate 256 (@None nat)). by rewrite lookup_replicate_2.
    + intros k. split; [intros ?%not_elem_of_nil; done|cbn; lia].
Qed.
Lemma new_palette_ok : palette_ok new_palette.
Proof. by apply cleared_ok. Qed.
Lemma pal_clear_ok p : palette_ok p -> palette_ok (pal_clear p) /\ counts (pal_clear p) = [].
Proof. intros H. destruct (ok_arrays p H) as (? & ? & ? & ? & ?). split; [by apply cleared_ok|done]. Qed.

Lemma size_counts p : palette_ok p -> pal_size p = len (counts p).
Proof. intros H. unfold pal_size, len, counts. by rewrite length_map, entries_length. Qed.

Lemma insert_spec p colour n : palette_ok p -> 0 < n ->
  let r := pal_insert colour n p in
  palette_ok r.2 /\
  if decide (colour ∈ (counts p).*1 \/ len (counts p) < 256)
  then r.1 = true /\ counts r.2 = add_pixels colour n (counts p)
  else r = (false, p).
Proof.
  intros H Hn r. pose proof (size_counts p H) as Hs.
  destruct (find_spec p H colour) as (ks & Hc & Hnd & Hin & [(k & prev & Hf & Hk & <-)|[Hf Hno]]).
  - destruct (insert_there p k prev n H Hn Hk Hf) as (H1 & H2 & H3). split; [done|]. rewrite decide_True; [done|].
      left. apply counts_colour; [done|]. by exists k.
  - destruct (decide (numColours p = 256)%nat) as [Hfull|Hfull].
    + unfold r, pal_insert. rewrite Hf, Hfull, Nat.eqb_refl. split; [done|]. rewrite decide_False; [done|]. intros [Hin'|Hlt].
      * apply counts_colour in Hin' as (k & Hk & He); [|done]. by apply (Hno k).
      * rewrite <- Hs in Hlt. unfold pal_size in Hlt. lia.
    + pose proof (ok_size p H). destruct (insert_new p H colour ks ltac:(lia) Hc Hnd Hin Hno n Hn Hf) as (H1 & H2 & H3). split; [done|].
        rewrite decide_True; [done|]. right. rewrite <- Hs. unfold pal_size. lia.
Qed.

(** ** A palette that has been filled *)

Lemma count_in_perm c l l' : l ≡ₚ l' -> count_in c l = count_in c l'.
Proof. induction 1 as [|y l l' _ IH|y z l|l l' l'' _ IH1 _ IH2]; cbn; [done| | |congruence]; repeat case_test; fold (count_in c l) in *; try fold (count_in c l') in *; lia. Qed.
Lemma count_in_filter c c' l : count_in c (filter (fun y => y.1 <> c') l) = if c =? c' then 0 else count_in c l.
Proof.
  induction l as [|y l IH]; [by destruct (c =? c')|]. destruct (decide (y.1 <> c')) as [Hne|He].
  - rewrite filter_cons_True by done. cbn. fold (count_in c (filter (fun y => y.1 <> c') l)) (count_in c l). rewrite IH.
    destruct (Z.eqb_spec y.1 c), (Z.eqb_spec c c'); congruence.
  - rewrite filter_cons_False, IH by done. cbn. fold (count_in c l). destruct (Z.eqb_spec y.1 c), (Z.eqb_spec c c'); try done. exfalso. apply He. congruence.
Qed.
Lemma add_pixels_count c c' n l : count_in c (add_pixels c' n l) = count_in c l + if c =? c' then n else 0.
Proof.
  unfold add_pixels. rewrite (count_in_perm _ _ _ (insert_desc_perm _ _)). cbn. fold (count_in c (filter (fun y => y.1 <> c') l)).
  rewrite count_in_filter, (Z.eqb_sym c' c). destruct (Z.eqb_spec c c') as [->|]; lia.
Qed.
Lemma add_pixels_in c c' n l : c ∈ (add_pixels c' n l).*1 <-> c = c' \/ c ∈ l.*1.
Proof.
  unfold add_pixels. rewrite (insert_desc_perm _ _). cbn [fmap list_fmap fst]. rewrite list.elem_of_cons. split.
  - intros [?|(y & -> & [_ Hy]%list_elem_of_filter)%list_elem_of_fmap]; [by left|right]. by apply list_elem_of_fmap_2.
  - intros [?|(y & -> & Hy)%list_elem_of_fmap]; [by left|]. destruct (decide (y.1 = c')); [by left|right].
    apply list_elem_of_fmap_2, list_elem_of_filter. by split.
Qed.
Lemma count_in_entry c n l : NoDup l.*1 -> (c, n) ∈ l -> count_in c l = n.
Proof.
  induction l as [|y l IH]; [by intros _ ?%not_elem_of_nil|]. intros [Hy Hnd]%NoDup_cons [<-|Hin]%list.elem_of_cons; cbn; fold (count_in c l).
  - rewrite Z.eqb_refl, count_in_absent by done. lia.
  - rewrite (proj2 (Z.eqb_neq _ _)); [by apply IH|]. intros He. apply Hy. rewrite He. by apply (list_elem_of_fmap_2' fst _ (c, n)).
Qed.
Lemma count_in_app c l k : count_in c (l ++ k) = count_in c l + count_in c k.
Proof. induction l as [|y l IH]; [done|]. cbn. fold (count_in c (l ++ k)) (count_in c l). rewrite IH. case_test; lia. Qed.

(** The palette of the insertions [ins], in their order. *)
Definition filled (ins : list (Z * Z)) (p : palette) : Prop :=
  palette_ok p /\ forall c, count_in c (counts p) = count_in c ins /\ (c ∈ (counts p).*1 <-> c ∈ ins.*1).

Lemma filled_new : filled [] new_palette.
Proof. split; [apply new_palette_ok|done]. Qed.

Lemma filled_insert ins p c n : filled ins p -> 0 < n -> pal_size p < 256 ->
  (pal_insert c n p).1 = true /\ filled (ins ++ [(c, n)]) (pal_insert c n p).2 /\ pal_size (pal_insert c n p).2 <= pal_size p + 1.
Proof.
  intros [Hok Hins] Hn Hs. destruct (insert_spec p c n Hok Hn) as [Hok' Hr]. rewrite (size_counts p Hok) in Hs |- *.
  rewrite decide_True in Hr by by right. destruct Hr as [Ht Hc]. split; [done|]. split; [split; [done|]|].
  - intros c'. rewrite Hc, add_pixels_count, count_in_app, add_pixels_in, fmap_app, elem_of_app, (proj1 (Hins c')), (proj2 (Hins c')). cbn.
    rewrite (Z.eqb_sym c c'). split; [case_test; lia|]. rewrite list_elem_of_singleton. tauto.
  - rewrite size_counts, Hc by done. unfold add_pixels, len. rewrite (Permutation_length (insert_desc_perm _ _)). cbn [length].
    pose proof (length_filter (fun y : Z * Z => y.1 <> c) (counts p)). lia.
Qed.

(** C23: the palette with its nodes, hash chains and sorted entries is the list
    of its colours with the number of their pixels, in descending order.  With
    fewer than 256 colours, or one that is there, [insert] adds the pixels and
    the list stays sorted; when it is full a new colour is refused and nothing
    changes.  [lookup] of a colour that is there is its place in the list, where
    [getColour] and [getCount] find it again. *)
Theorem Palette_refines (p : palette) (colour n : Z) : palette_ok p -> 0 < n ->
  let r := pal_insert colour n p in
  palette_ok r.2 /\ pal_size p = len (counts p) /\
  (if decide (colour ∈ (counts p).*1 \/ len (counts p) < 256)
   then r.1 = true /\ counts r.2 = add_pixels colour n (counts p)
   else r = (false, p)) /\
  (forall c, c ∈ (counts p).*1 -> exists i m, pal_lookup p c = Z.of_nat i /\ counts p !! i = Some (c, m)) /\
  (forall i c m, counts p !! i = Some (c, m) -> getColour p (Z.of_nat i) = c /\ getCount p (Z.of_nat i) = m).
Proof.
  intros H Hn r. destruct (insert_spec p colour n H Hn) as [Hok Hr].
  split; [done|]. split; [by apply size_counts|]. split; [done|]. split; [|by apply getColour_counts].
  intros c Hin. destruct (lookup_counts p H c Hin) as (i & m & H1 & H2 & _). by exists i, m.
Qed.

Lemma Palette_refines_witness :
  counts (pal_insert 7 2 (pal_insert 9 1 (pal_insert 7 1 (pal_insert 9 1 new_palette).2).2).2).2 = [(7, 3); (9, 2)].
Proof.
  pose proof new_palette_ok as H0.
  pose proof (Palette_refines new_palette 9 1 H0 eq_refl) as (H1 & _ & [_ C1] & _).
  pose proof (Palette_refines _ 7 1 H1 eq_refl) as (H2 & _ & C2 & _). rewrite C1 in C2. destruct C2 as [_ C2].
  pose proof (Palette_refines _ 9 1 H2 eq_refl) as (H3 & _ & C3 & _). rewrite C2 in C3. destruct C3 as [_ C3].
  pose proof (Palette_refines _ 7 2 H3 eq_refl) as (_ & _ & C4 & _). rewrite C3 in C4. destruct C4 as [_ C4].
  exact C4.
Defined.
