(* ===== verification/Pixels.v ===== *)
(** * Pixel buffers ([rfb/PixelBuffer.cxx])

    A buffer of pixels in one format, row by row with a stride, with the calls
    that read and write rectangles of it.  A pixel is the unsigned integer its
    bytes are in memory; formats are converted elsewhere, so this is the half of
    [PixelBuffer] whose pixels are in the buffer's own format.  Outside of the
    buffer the calls throw; a [memcpy] of ranges that overlap is undefined
    ([None]).  The order in which [copyRect] takes the rows is what makes it
    right when source and destination overlap. *)
From stdpp Require Import base sets list numbers strings option.
From S2P Require Import Prelude Geometry.
#[local] Open Scope Z_scope.

(** ** Memory *)

(** Rows written one below the other. *)
Fixpoint put_rows (rows : list (list Z)) (dest stride : Z) (data : list Z) : list Z :=
  match rows with
  | [] => data
  | row :: rows => put_rows rows (dest + stride) stride (copy_to dest row data)
  end.

Definition memmove (dst src n : Z) (data : list Z) : option (list Z) := Some (copy_to dst (slice src (src + n) data) data).
Definition memcpy (dst src n : Z) (data : list Z) : option (list Z) :=
  if (src + n <=? dst) || (dst + n <=? src) then memmove dst src n data else None.

(** ** The buffer *)

Record pixbuf := MkPB { pb_width : Z; pb_height : Z; pb_stride : Z; pb_data : list Z }.

Definition getRect (pb : pixbuf) : Rect := rect 0 0 (pb_width pb) (pb_height pb).
Definition set_data (data : list Z) (pb : pixbuf) : pixbuf := MkPB (pb_width pb) (pb_height pb) (pb_stride pb) data.

Definition maxPixelBufferWidth : Z := 16384.
Definition maxPixelBufferHeight : Z := 16384.
Definition maxPixelBufferStride : Z := 16384.

Definition setBuffer (w h stride : Z) (data : option (list Z)) : res pixbuf :=
  if (w <? 0) || (w >? maxPixelBufferWidth) then Throw (out_of_range "Invalid PixelBuffer width of %d pixels requested")
  else if (h <? 0) || (h >? maxPixelBufferHeight) then Throw (out_of_range "Invalid PixelBuffer height of %d pixels requested")
  else if (stride <? 0) || (stride >? maxPixelBufferStride) || (stride <? w) then Throw (invalid_argument "Invalid PixelBuffer stride of %d pixels requested")
  else if negb (w =? 0) && negb (h =? 0) && negb (bool_decide (is_Some data)) then Throw (logic_error "PixelBuffer requested without a valid memory area")
  else Ok (MkPB w h stride (default [] data)).

(** The place of a rectangle in the data. *)
Definition pb_offset (pb : pixbuf) (r : Rect) : Z := px (tl r) + py (tl r) * pb_stride pb.
Definition getBuffer (pb : pixbuf) (r : Rect) : res Z :=
  if negb (enclosed_by r (getRect pb)) then Throw (out_of_range "Pixel buffer request exceeds framebuffer")
  else Ok (pb_offset pb r).

Definition rows_of (data : list Z) (off stride w h : Z) : list (list Z) :=
  map (fun i => slice (off + i * stride) (off + i * stride + w) data) (seqZ 0 h).

(** [getImage(imageBuf, r)], without gaps between the rows. *)
Definition getImage (pb : pixbuf) (r : Rect) : res (list Z) :=
  if negb (enclosed_by r (getRect pb)) then Throw (out_of_range "Source rect exceeds framebuffer") else
  data ← getBuffer pb r;
  mret (concat (rows_of (pb_data pb) data (pb_stride pb) (width r) (height r))).

(** (The first row is filled, the others are copies of it.) *)
Definition fillRect (r : Rect) (pix : Z) (pb : pixbuf) : res pixbuf :=
  if negb (enclosed_by r (getRect pb)) then Throw (out_of_range "Destination rect exceeds framebuffer")
  else if height r =? 0 then Ok pb else
  buf ← getBuffer pb r;
  mret (set_data (put_rows (replicate (Z.to_nat (height r)) (replicate (Z.to_nat (width r)) pix)) buf (pb_stride pb) (pb_data pb)) pb).

Definition imageRect (r : Rect) (pixels : list Z) (srcStride : Z) (pb : pixbuf) : res pixbuf :=
  if negb (enclosed_by r (getRect pb)) then Throw (out_of_range "Destination rect exceeds framebuffer") else
  dest ← getBuffer pb r;
  let srcStride := if srcStride =? 0 then width r else srcStride in
  mret (set_data (put_rows (rows_of pixels 0 srcStride (width r) (height r)) dest (pb_stride pb) (pb_data pb)) pb).

(** The rows [ks] in turn. *)
Fixpoint copy_rows (copy : Z -> Z -> Z -> list Z -> option (list Z)) (dst src w stride : Z) (ks : list Z) (data : list Z) : option (list Z) :=
  match ks with
  | [] => Some data
  | i :: ks =>
      match copy (dst + i * stride) (src + i * stride) w data with
      | Some data => copy_rows copy dst src w stride ks data
      | None => None
      end
  end.

Definition copyRect (drect : Rect) (move_by_delta : Point) (pb : pixbuf) : res (option pixbuf) :=
  if negb (enclosed_by drect (getRect pb)) then Throw (out_of_range "Destination rect exceeds framebuffer") else
  let srect := translate drect (pt_negate move_by_delta) in
  if negb (enclosed_by srect (getRect pb)) then Throw (out_of_range "Source rect exceeds framebuffer") else
  srcData ← getBuffer pb srect;
  dstData ← getBuffer pb drect;
  let rows := seqZ 0 (height drect) in
  let copied :=
    if py move_by_delta =? 0 then copy_rows memmove dstData srcData (width drect) (pb_stride pb) rows (pb_data pb)
    else if py move_by_delta <? 0 then copy_rows memcpy dstData srcData (width drect) (pb_stride pb) rows (pb_data pb)
    else copy_rows memcpy dstData srcData (width drect) (pb_stride pb) (reverse rows) (pb_data pb) in
  mret ((fun data => set_data data pb) <$> copied).

(** ** Pixels by their coordinates *)

Definition pixel_at (stride : Z) (data : list Z) (x y : Z) : Z := znth 0 data (x + y * stride).
Definition pb_at (pb : pixbuf) (x y : Z) : Z := pixel_at (pb_stride pb) (pb_data pb) x y.

Definition pb_wf (pb : pixbuf) : Prop :=
  0 <= pb_width pb <= pb_stride pb /\ 0 <= pb_height pb /\ len (pb_data pb) = pb_stride pb * pb_height pb.

(** A row of [w] pixels at [(x0, y0)]. *)
Lemma row_range stride x0 y0 w x y : 0 <= x0 -> x0 + w <= stride -> 0 <= x < stride ->
  (x0 + y0 * stride <=? x + y * stride) && (x + y * stride <? x0 + y0 * stride + w) = (y =? y0) && ((x0 <=? x) && (x <? x0 + w)).
Proof.
  intros H0 Hw Hx. destruct (Z.eqb_spec y y0) as [->|Hne]; cbn [andb].
  - destruct (Z.leb_spec x0 x); cbn [andb].
    + rewrite (proj2 (Z.leb_le _ _)) by lia. destruct (Z.ltb_spec x (x0 + w)); [apply Z.ltb_lt|apply Z.ltb_ge]; lia.
    + by rewrite (proj2 (Z.leb_gt _ _)) by lia.
  - apply andb_false_iff. destruct (Z.lt_trichotomy y y0) as [?|[?|?]]; [left; apply Z.leb_gt; nia|lia|right; apply Z.ltb_ge; nia].
Qed.

Lemma pixel_copy_to stride data row x0 y0 x y : 0 <= x0 -> 0 <= y0 -> x0 + len row <= stride -> x0 + y0 * stride + len row <= len data ->
  0 <= x < stride -> 0 <= y ->
  pixel_at stride (copy_to (x0 + y0 * stride) row data) x y =
    if (y =? y0) && ((x0 <=? x) && (x <? x0 + len row)) then znth 0 row (x - x0) else pixel_at stride data x y.
Proof.
  intros Hx0 Hy0 Hw Hl Hx Hy. unfold pixel_at. rewrite znth_copy_to by nia. rewrite row_range by done.
  destruct (Z.eqb_spec y y0) as [->|]; cbn [andb]; [|done]. case_test; [|done]. f_equal. lia.
Qed.

Lemma put_rows_at w stride x0 : 0 <= x0 -> 0 <= w -> x0 + w <= stride -> forall rows y0 data, 0 <= y0 -> Forall (fun row => len row = w) rows ->
  (0 < len rows -> x0 + (y0 + len rows - 1) * stride + w <= len data) ->
  len (put_rows rows (x0 + y0 * stride) stride data) = len data /\
  forall x y, 0 <= x < stride -> 0 <= y ->
    pixel_at stride (put_rows rows (x0 + y0 * stride) stride data) x y =
      if ((y0 <=? y) && (y <? y0 + len rows)) && ((x0 <=? x) && (x <? x0 + w)) then znth 0 (znth [] rows (y - y0)) (x - x0)
      else pixel_at stride data x y.
Proof.
  intros Hx0 Hw Hws. induction rows as [|row rows IH]; intros y0 data Hy0 Hr Hl; cbn [put_rows].
  - split; [done|]. intros x y Hx Hy. rewrite len_nil. destruct (Z.leb_spec y0 y); cbn [andb]; [|done].
    by rewrite (proj2 (Z.ltb_ge y (y0 + 0))) by lia.
  - apply Forall_cons_1 in Hr as [Hrow Hr]. rewrite len_cons in Hl |- *. pose proof (len_nonneg rows).
    assert (x0 + y0 * stride + len row <= len data) as Hfit by nia.
    destruct (IH (y0 + 1) (copy_to (x0 + y0 * stride) row data)) as [IHl IHat]; [lia|done|rewrite len_copy_to by nia; lia|].
    replace (x0 + (y0 + 1) * stride) with (x0 + y0 * stride + stride) in IHl, IHat by lia.
    rewrite IHl, len_copy_to by nia. split; [done|]. intros x y Hx Hy. rewrite IHat, pixel_copy_to by (done || nia). rewrite Hrow.
    destruct ((x0 <=? x) && (x <? x0 + w)); rewrite ?andb_true_r, ?andb_false_r; [|done].
    destruct (Z.eqb_spec y y0) as [->|Hne].
    + rewrite (proj2 (Z.leb_gt (y0 + 1) y0)), (proj2 (Z.leb_le y0 y0)), (proj2 (Z.ltb_lt y0 (y0 + _))) by lia. cbn [andb].
      by rewrite Z.sub_diag.
    + destruct (Z.leb_spec (y0 + 1) y), (Z.leb_spec y0 y); cbn [andb]; try lia.
      replace (y0 + (1 + len rows)) with (y0 + 1 + len rows) by lia. case_test; [|done].
      replace (y - y0) with (Z.succ (y - (y0 + 1))) by lia. unfold znth. rewrite Z2Nat.inj_succ by lia. done.
Qed.

(** ** The calls *)

Lemma len_rows_of data off stride w h : 0 <= h -> len (rows_of data off stride w h) = h.
Proof. intros. unfold rows_of. rewrite len_map. unfold len. rewrite length_seqZ. lia. Qed.
Lemma rows_of_len data off stride w h : 0 <= off -> 0 <= w <= stride -> (0 < h -> off + (h - 1) * stride + w <= len data) ->
  Forall (fun row => len row = w) (rows_of data off stride w h).
Proof.
  intros Ho Hw Hl. apply Forall_map, Forall_forall. intros i Hi%list_elem_of_In%elem_of_seqZ. rewrite len_slice by nia. lia.
Qed.

Section calls.
Context (pb : pixbuf) (W : pb_wf pb).

Lemma enclosed_fits r : enclosed_by r (getRect pb) = true ->
  0 <= px (tl r) /\ 0 <= py (tl r) /\ px (br r) <= pb_width pb /\ py (br r) <= pb_height pb.
Proof. unfold enclosed_by, getRect, rect. cbn. intros H. bool_decide_hyps. lia. Qed.

Lemma contains_at r x y : contains r (MkPoint x y) =
  ((py (tl r) <=? y) && (y <? py (tl r) + height r)) && ((px (tl r) <=? x) && (x <? px (tl r) + width r)).
Proof.
  apply eq_iff_eq_true. rewrite contains_spec. unfold width, height. rewrite !andb_true_iff, !Z.leb_le, !Z.ltb_lt. lia.
Qed.

(** A rectangle of rows has been written. *)
Lemma put_rect r rows : enclosed_by r (getRect pb) = true -> 0 <= width r -> len rows = Z.max 0 (height r) -> Forall (fun row => len row = width r) rows ->
  let pb' := set_data (put_rows rows (pb_offset pb r) (pb_stride pb) (pb_data pb)) pb in
  pb_wf pb' /\ getRect pb' = getRect pb /\ forall x y, 0 <= x < pb_width pb -> 0 <= y < pb_height pb ->
    pb_at pb' x y = if contains r (MkPoint x y) then znth 0 (znth [] rows (y - py (tl r))) (x - px (tl r)) else pb_at pb x y.
Proof.
  intros He%enclosed_fits Hwr Hn Hr pb'. destruct W as (Hw & Hh & Hl). unfold width, height in *.
  destruct (put_rows_at (width r) (pb_stride pb) (px (tl r)) ltac:(lia) ltac:(done) ltac:(unfold width; lia) rows (py (tl r)) (pb_data pb) ltac:(lia) Hr) as [Hlen Hat].
  { unfold width. intros. nia. }
  fold (pb_offset pb r) in Hlen, Hat. split; [|split; [done|]].
  - unfold pb_wf, pb'. cbn. rewrite Hlen. lia.
  - intros x y Hx Hy. unfold pb_at, pb'. cbn [set_data pb_stride pb_data]. rewrite Hat by lia. rewrite contains_at, Hn. unfold height.
    destruct (Z.leb_spec (py (tl r)) y); cbn [andb]; [|done].
    replace (y <? py (tl r) + Z.max 0 (py (br r) - py (tl r))) with (y <? py (tl r) + (py (br r) - py (tl r))); [done|].
    apply eq_iff_eq_true. rewrite !Z.ltb_lt. lia.
Qed.

Lemma fillRect_ok r pix : enclosed_by r (getRect pb) = true -> 0 <= width r -> 0 <= height r -> exists pb',
  fillRect r pix pb = Ok pb' /\ pb_wf pb' /\ getRect pb' = getRect pb /\ forall x y, 0 <= x < pb_width pb -> 0 <= y < pb_height pb ->
    pb_at pb' x y = if contains r (MkPoint x y) then pix else pb_at pb x y.
Proof.
  intros He Hw Hh. unfold fillRect, getBuffer. rewrite He. cbn [negb]. destruct (Z.eqb_spec (height r) 0) as [H0|H0].
  - exists pb. split; [done|]. split; [done|]. split; [done|]. intros x y _ _. rewrite contains_at, H0, Z.add_0_r.
    destruct (Z.leb_spec (py (tl r)) y); cbn [andb]; [|done]. by rewrite (proj2 (Z.ltb_ge y _)) by lia.
  - destruct (put_rect r (replicate (Z.to_nat (height r)) (replicate (Z.to_nat (width r)) pix)) He Hw) as (Hwf & Hr & Hat).
    { rewrite len_replicate. lia. } { apply Forall_replicate. rewrite len_replicate. lia. }
    eexists. split; [reflexivity|]. split; [done|]. split; [done|]. intros x y Hx Hy. rewrite Hat by done. rewrite contains_at. case_test; [|done].
    bool_decide_hyps. rewrite (znth_replicate []) by lia. apply znth_replicate. lia.
Qed.

(** [pixels] row by row, [stride] apart. *)
Lemma imageRect_ok r pixels stride : enclosed_by r (getRect pb) = true -> 0 <= width r <= stride -> 0 <= height r ->
  (0 < height r -> (height r - 1) * stride + width r <= len pixels) -> exists pb',
  imageRect r pixels stride pb = Ok pb' /\ pb_wf pb' /\ getRect pb' = getRect pb /\ forall x y, 0 <= x < pb_width pb -> 0 <= y < pb_height pb ->
    pb_at pb' x y = if contains r (MkPoint x y) then pixel_at stride pixels (x - px (tl r)) (y - py (tl r)) else pb_at pb x y.
Proof.
  intros He Hw Hh Hl. unfold imageRect, getBuffer. rewrite He. cbn [negb].
  replace (if stride =? 0 then width r else stride) with stride by (case_test; lia).
  destruct (put_rect r (rows_of pixels 0 stride (width r) (height r)) He) as (Hwf & Hr & Hat).
  { lia. } { rewrite len_rows_of by done. lia. } { apply rows_of_len; lia. }
  eexists. split; [reflexivity|]. split; [done|]. split; [done|]. intros x y Hx Hy. rewrite Hat by done. rewrite contains_at. case_test; [|done].
  bool_decide_hyps. unfold rows_of. rewrite znth_map_seqZ, znth_slice by nia. unfold pixel_at. f_equal. lia.
Qed.

Lemma concat_rows_at rows w i j : Forall (fun row : list Z => len row = w) rows -> 0 <= j < w -> 0 <= i < len rows ->
  znth 0 (concat rows) (j + i * w) = znth 0 (znth [] rows i) j.
Proof.
  intros Hr Hj. revert i. induction Hr as [|row rows Hrow _ IH]; intros i; [unfold len; cbn; lia|]. rewrite len_cons. intros Hi. cbn [concat].
  rewrite znth_app by nia. rewrite Hrow. destruct (decide (i = 0)) as [->|].
  - rewrite (proj2 (Z.ltb_lt _ _)) by lia. f_equal. lia.
  - rewrite (proj2 (Z.ltb_ge _ _)) by nia. replace (j + i * w - w) with (j + (i - 1) * w) by lia. rewrite IH by lia.
    replace i with (Z.succ (i - 1)) at 2 by lia. unfold znth at 4. by rewrite Z2Nat.inj_succ by lia.
Qed.

Lemma getImage_ok r : enclosed_by r (getRect pb) = true -> 0 <= width r -> 0 <= height r -> exists image,
  getImage pb r = Ok image /\ len image = width r * height r /\ forall x y, 0 <= x < width r -> 0 <= y < height r ->
    pixel_at (width r) image x y = pb_at pb (px (tl r) + x) (py (tl r) + y).
Proof.
  intros He Hw Hh. unfold getImage, getBuffer. rewrite He. cbn [negb]. pose proof (enclosed_fits r He). destruct W as (HW & HH & Hl).
  eexists. split; [reflexivity|].
  assert (Forall (fun row => len row = width r) (rows_of (pb_data pb) (pb_offset pb r) (pb_stride pb) (width r) (height r))) as Hrows.
  { apply rows_of_len; unfold pb_offset, width, height in *; nia. }
  split.
  - rewrite <- (len_rows_of (pb_data pb) (pb_offset pb r) (pb_stride pb) (width r) (height r)) at 2 by done.
    clear -Hrows. induction Hrows as [|row rows Hr _ IH]; [unfold len; cbn; lia|]. cbn [concat]. rewrite len_app, len_cons, IH. lia.
  - intros x y Hx Hy. unfold pixel_at. rewrite concat_rows_at by (try done; rewrite len_rows_of; lia).
    unfold rows_of. rewrite znth_map_seqZ, znth_slice by (unfold pb_offset; nia). unfold pb_at, pixel_at, pb_offset. f_equal. lia.
Qed.
End calls.

(** ** [copyRect] *)

Section copy.
Context (stride w : Z) (x0 dx dy : Z) (y0 : Z).
Context (Hw : 0 <= w) (Hx0 : 0 <= x0 /\ x0 + w <= stride) (Hdx : 0 <= x0 - dx /\ x0 - dx + w <= stride).

(** Rows in an order in which none is read that has been written. *)
Lemma copy_rows_at copy ks : forall data,
  NoDup ks -> (forall ks1 k ks2 k', ks = ks1 ++ k :: ks2 -> k' ∈ ks2 -> k' - dy <> k) ->
  (forall k, k ∈ ks -> 0 <= y0 + k /\ 0 <= y0 + k - dy /\ x0 + (y0 + k) * stride + w <= len data /\ x0 - dx + (y0 + k - dy) * stride + w <= len data) ->
  (forall k data, copy (x0 + y0 * stride + k * stride) (x0 - dx + (y0 - dy) * stride + k * stride) w data =
    memmove (x0 + y0 * stride + k * stride) (x0 - dx + (y0 - dy) * stride + k * stride) w data) ->
  exists data', copy_rows copy (x0 + y0 * stride) (x0 - dx + (y0 - dy) * stride) w stride ks data = Some data' /\ len data' = len data /\
    forall x y, 0 <= x < stride -> 0 <= y ->
      pixel_at stride data' x y = if bool_decide (y - y0 ∈ ks) && ((x0 <=? x) && (x <? x0 + w)) then pixel_at stride data (x - dx) (y - dy)
        else pixel_at stride data x y.
Proof.
  induction ks as [|k ks IH]; intros data Hnd Hord Hks Hcopy; cbn [copy_rows]; [by exists data|].
  apply list.NoDup_cons in Hnd as [Hk Hnd]. rewrite Hcopy. unfold memmove. destruct (Hks k ltac:(by left)) as (H1 & H2 & H3 & H4).
  replace (x0 + y0 * stride + k * stride) with (x0 + (y0 + k) * stride) by lia.
  replace (x0 - dx + (y0 - dy) * stride + k * stride) with (x0 - dx + (y0 + k - dy) * stride) by lia.
  set (src := x0 - dx + (y0 + k - dy) * stride). assert (0 <= src) as Hsrc by (unfold src; nia).
  assert (len (slice src (src + w) data) = w) as Hrow by (rewrite len_slice by lia; lia).
  destruct (IH (copy_to (x0 + (y0 + k) * stride) (slice src (src + w) data) data)) as (data' & Hd & Hl & Hat).
  { done. }
  { intros ks1 k1 ks2 k' ->. by apply (Hord (k :: ks1)). }
  { intros k' Hk'. rewrite len_copy_to by nia. apply Hks. by right. }
  { done. }
  rewrite len_copy_to in Hl by nia. exists data'. split; [done|]. split; [done|]. intros x y Hx Hy. rewrite Hat by done.
  assert (forall x' y', 0 <= x' < stride -> 0 <= y' -> pixel_at stride (copy_to (x0 + (y0 + k) * stride) (slice src (src + w) data) data) x' y' =
    if (y' =? y0 + k) && ((x0 <=? x') && (x' <? x0 + w)) then pixel_at stride data (x' - dx) (y' - dy) else pixel_at stride data x' y') as Hone.
  { intros x' y' Hx' Hy'. rewrite pixel_copy_to by lia. rewrite Hrow. case_test; [|done]. bool_decide_hyps.
    rewrite znth_slice by lia. unfold pixel_at, src. f_equal. nia. }
  destruct (bool_decide (y - y0 ∈ ks)) eqn:Hin; cbn [andb].
  - apply bool_decide_eq_true in Hin. rewrite (bool_decide_true (y - y0 ∈ k :: ks)) by by right. cbn [andb].
    assert (0 <= y - dy) as Hyd by (destruct (Hks (y - y0)) as (_ & ? & _); [by right|]; lia).
    assert (y - dy <> y0 + k) as Hne by (pose proof (Hord [] k ks (y - y0) eq_refl Hin); lia).
    destruct ((x0 <=? x) && (x <? x0 + w)) eqn:Hxr.
    + bool_decide_hyps. rewrite Hone by lia. rewrite (proj2 (Z.eqb_neq _ _)) by done. done.
    + rewrite Hone by done. rewrite Hxr, andb_false_r. done.
  - apply bool_decide_eq_false in Hin. rewrite Hone by done. destruct (Z.eqb_spec y (y0 + k)) as [->|Hne].
    + rewrite bool_decide_true; [done|]. apply list.elem_of_cons. left. lia.
    + rewrite bool_decide_false; [done|]. intros [?|?]%list.elem_of_cons; [lia|done].
Qed.
End copy.

Lemma elem_of_split_seqZ ks1 k ks2 n k' : seqZ 0 n = ks1 ++ k :: ks2 -> k' ∈ ks2 -> k < k'.
Proof.
  intros He Hin. apply list_elem_of_lookup in Hin as [i Hi].
  assert (seqZ 0 n !! length ks1 = Some k) as Hk by (rewrite He; by apply list_lookup_middle).
  assert (seqZ 0 n !! (length ks1 + S i)%nat = Some k') as Hk' by (rewrite He, lookup_app_r by lia; by replace (length ks1 + S i - length ks1)%nat with (S i) by lia).
  apply lookup_seqZ in Hk as [-> _]. apply lookup_seqZ in Hk' as [-> _]. lia.
Qed.

(** C27: copying a rectangle gives every pixel of the destination what was at its
    source before the copy, also where the two overlap, and leaves the others;
    [memcpy] is never called with ranges that overlap. *)
Theorem copyRect_moves (pb : pixbuf) (r : Rect) (delta : Point) :
  pb_wf pb -> rect_wf r -> enclosed_by r (getRect pb) = true -> enclosed_by (translate r (pt_negate delta)) (getRect pb) = true ->
  exists pb', copyRect r delta pb = Ok (Some pb') /\ pb_wf pb' /\ getRect pb' = getRect pb /\
    forall x y, 0 <= x < pb_width pb -> 0 <= y < pb_height pb ->
      pb_at pb' x y = if contains r (MkPoint x y) then pb_at pb (x - px delta) (y - py delta) else pb_at pb x y.
Proof.
  intros W Hr He Hs. unfold copyRect, getBuffer. rewrite He, Hs. cbn [negb]. unfold mbind, res_bind, mret, res_ret.
  pose proof (enclosed_fits pb r He) as (Hl & Ht & Hrt & Hb). pose proof (enclosed_fits pb _ Hs) as (Hl' & Ht' & Hr' & Hb').
  destruct W as (Hw & Hh & Hlen). destruct Hr as (_ & _ & Hrw & Hrh). unfold u16_wf, width, height in Hrw, Hrh.
  cbn [translate pt_translate pt_negate tl br px py] in Hl', Ht', Hr', Hb'.
  set (data := pb_data pb) in *. set (st := pb_stride pb) in *.
  replace (pb_offset pb (translate r (pt_negate delta))) with (px (tl r) - px delta + (py (tl r) - py delta) * st)
    by (unfold pb_offset; cbn [translate pt_translate pt_negate tl br px py]; fold st; lia).
  change (pb_offset pb r) with (px (tl r) + py (tl r) * st).
  assert (forall copy ks, NoDup ks -> (forall k, k ∈ ks <-> 0 <= k < height r) ->
    (forall ks1 k ks2 k', ks = ks1 ++ k :: ks2 -> k' ∈ ks2 -> k' - py delta <> k) ->
    (forall k data, copy (px (tl r) + py (tl r) * st + k * st) (px (tl r) - px delta + (py (tl r) - py delta) * st + k * st) (width r) data =
       memmove (px (tl r) + py (tl r) * st + k * st) (px (tl r) - px delta + (py (tl r) - py delta) * st + k * st) (width r) data) ->
    exists data', copy_rows copy (px (tl r) + py (tl r) * st) (px (tl r) - px delta + (py (tl r) - py delta) * st) (width r) st ks data = Some data' /\
      len data' = len data /\ forall x y, 0 <= x < st -> 0 <= y ->
        pixel_at st data' x y = if contains r (MkPoint x y) then pixel_at st data (x - px delta) (y - py delta) else pixel_at st data x y) as Hrows.
  { intros copy ks Hnd Hks Hord Hcopy. unfold width, height in *.
    destruct (copy_rows_at st (width r) (px (tl r)) (px delta) (py delta) (py (tl r)) ltac:(unfold width; lia) ltac:(unfold width; lia)
      ltac:(unfold width; lia) copy ks data Hnd Hord) as (data' & Hd & Hl2 & Hat).
    - intros k Hk%Hks. unfold width. nia.
    - exact Hcopy.
    - exists data'. split; [done|]. split; [done|]. intros x y Hx Hy. rewrite Hat by done. rewrite contains_at.
      replace (bool_decide (y - py (tl r) ∈ ks)) with ((py (tl r) <=? y) && (y <? py (tl r) + height r)); [done|].
      apply eq_iff_eq_true. rewrite bool_decide_eq_true, Hks, andb_true_iff, Z.leb_le, Z.ltb_lt. unfold height. lia. }
  assert (forall k, k ∈ seqZ 0 (height r) <-> 0 <= k < height r) as Hseq by (intros k; rewrite elem_of_seqZ; lia).
  assert (py delta <> 0 -> forall k data, memcpy (px (tl r) + py (tl r) * st + k * st) (px (tl r) - px delta + (py (tl r) - py delta) * st + k * st) (width r) data =
       memmove (px (tl r) + py (tl r) * st + k * st) (px (tl r) - px delta + (py (tl r) - py delta) * st + k * st) (width r) data) as Hcpy.
  { intros Hd k d. unfold memcpy, width in *. destruct (Z.leb_spec (px (tl r) - px delta + (py (tl r) - py delta) * st + k * st + (px (br r) - px (tl r))) (px (tl r) + py (tl r) * st + k * st)); [done|].
    cbn [orb]. rewrite (proj2 (Z.leb_le _ _)); [done|]. nia. }
  enough (exists data', (if py delta =? 0 then copy_rows memmove (px (tl r) + py (tl r) * st) (px (tl r) - px delta + (py (tl r) - py delta) * st) (width r) st (seqZ 0 (height r)) data
    else if py delta <? 0 then copy_rows memcpy (px (tl r) + py (tl r) * st) (px (tl r) - px delta + (py (tl r) - py delta) * st) (width r) st (seqZ 0 (height r)) data
    else copy_rows memcpy (px (tl r) + py (tl r) * st) (px (tl r) - px delta + (py (tl r) - py delta) * st) (width r) st (reverse (seqZ 0 (height r))) data) = Some data' /\
      len data' = len data /\ forall x y, 0 <= x < st -> 0 <= y ->
        pixel_at st data' x y = if contains r (MkPoint x y) then pixel_at st data (x - px delta) (y - py delta) else pixel_at st data x y) as (data' & -> & Hl2 & Hat).
  { exists (set_data data' pb). split; [done|]. split; [unfold pb_wf; cbn; rewrite Hl2; fold st; lia|]. split; [done|].
    intros x y Hx Hy. apply Hat; lia. }
  destruct (Z.eqb_spec (py delta) 0) as [H0|H0]; [|destruct (Z.ltb_spec (py delta) 0)].
  - apply Hrows; [apply NoDup_seqZ|done| |done]. intros ks1 k ks2 k' Hks Hin. pose proof (elem_of_split_seqZ _ _ _ _ _ Hks Hin). lia.
  - apply Hrows; [apply NoDup_seqZ|done| |by apply Hcpy]. intros ks1 k ks2 k' Hks Hin. pose proof (elem_of_split_seqZ _ _ _ _ _ Hks Hin). lia.
  - apply Hrows; [rewrite reverse_Permutation; apply NoDup_seqZ|intros k; by rewrite elem_of_reverse| |by apply Hcpy].
    intros ks1 k ks2 k' Hks Hin. apply (f_equal reverse) in Hks. rewrite reverse_involutive, reverse_app, reverse_cons, <- app_assoc in Hks.
    apply elem_of_reverse in Hin. apply list_elem_of_split in Hin as (l1 & l2 & Hl12). rewrite Hl12, <- app_assoc in Hks. cbn [app] in Hks.
    assert (k' < k); [|lia]. eapply elem_of_split_seqZ; [exact Hks|]. set_solver.
Qed.

Definition sample_image : pixbuf := MkPB 4 3 4 [1; 2; 3; 4; 5; 6; 7; 8; 9; 10; 11; 12].
Lemma copyRect_moves_witness : exists pb',
  copyRect (rect 1 1 4 3) (MkPoint 1 1) sample_image = Ok (Some pb') /\ pb_at pb' 2 2 = pb_at sample_image 1 1 /\ pb_data pb' = [1; 2; 3; 4; 5; 1; 2; 3; 9; 5; 6; 7].
Proof.
  destruct (copyRect_moves sample_image (rect 1 1 4 3) (MkPoint 1 1)) as (pb' & He & _ & _ & Hat).
  - unfold pb_wf. cbn. unfold len. cbn. lia.
  - unfold pb_wf. split_and!; by vm_compute.
  - reflexivity.
  - reflexivity.
  - exists pb'. split; [exact He|]. split; [exact (Hat 2 2 ltac:(cbn; lia) ltac:(cbn; lia))|].
    vm_compute in He. injection He as <-. reflexivity.
Defined.
