(* ===== verification/RRE.v ===== *)
(** * Subrectangles and RRE ([rfb/RREEncoder.cxx], [rfb/RREDecoder.cxx], [rfb/RawEncoder.cxx], [rfb/RawDecoder.cxx])

    RRE and Hextile describe an image by a background and rectangles of one
    colour on it.  Their encoders scan a copy of the image and paint what they
    have sent with the background ([scan]); RRE takes the larger of a rectangle
    that was grown to the right first and one that was grown downwards first.
    The decoders paint.  Pixels are in the format of the connection, which is
    that of the decoder's pixel buffer here, on a little-endian machine. *)
From stdpp Require Import base sets numbers strings option list sorting.
From S2P Require Import Prelude InStream OutStream Geometry Pixels Palette.
#[local] Open Scope Z_scope.

(** ** Pixels in streams *)

(** [writeOpaque8], [writeOpaque16], [writeOpaque32], with [size] bytes. *)
Fixpoint opaque (size : nat) (p : Z) : list Z :=
  match size with
  | O => []
  | S size => u8 p :: opaque size (Z.shiftr p 8)
  end.
Definition from_opaque (bs : list Z) : Z := foldr (fun b p => b + 256 * p) 0 bs.

(** Reading a [MemInStream] in the build that checks ([RFB_INSTREAM_CHECK]);
    [S] is what else is changed. *)
Definition mem_read {S} (n : Z) : SE (list Z * S) (list Z) := fun '(bs, s) =>
  if len bs <? n then (Throw end_of_stream, (bs, s)) else (Ok (ztake n bs), (zdrop n bs, s)).
Definition mem_readU8 {S} : SE (list Z * S) Z := bs ← mem_read 1; mret (znth 0 bs 0).
Definition mem_readU16 {S} : SE (list Z * S) Z := bs ← mem_read 2; mret (be16 bs).
Definition mem_readU32 {S} : SE (list Z * S) Z := bs ← mem_read 4; mret (be32 bs).
Definition mem_readPixel {S} (size : nat) : SE (list Z * S) Z := bs ← mem_read (Z.of_nat size); mret (from_opaque bs).

Fixpoint mem_readPixels {S} (size n : nat) : SE (list Z * S) (list Z) :=
  match n with
  | O => mret []
  | Datatypes.S n => p ← mem_readPixel size; ps ← mem_readPixels size n; mret (p :: ps)
  end.

(** A call that changes the pixel buffer. *)
Definition on_pb (f : pixbuf -> res pixbuf) : SE (list Z * pixbuf) unit := fun '(bs, pb) =>
  match f pb with Ok pb' => (Ok tt, (bs, pb')) | Throw e => (Throw e, (bs, pb)) end.

(** ** Raw *)

Definition raw_writeRect (size : nat) (pb : pixbuf) : list Z :=
  concat (map (fun row => concat (map (opaque size) row)) (rows_of (pb_data pb) 0 (pb_stride pb) (pb_width pb) (pb_height pb))).
Definition raw_writeSolidRect (size : nat) (width height colour : Z) : list Z :=
  concat (replicate (Z.to_nat (width * height)) (opaque size colour)).

(** The bytes are the pixels of the rectangle. *)
Definition raw_decodeRect (size : nat) (r : Rect) : SE (list Z * pixbuf) unit :=
  pixels ← mem_readPixels size (Z.to_nat (area r));
  on_pb (imageRect r pixels 0).

(** ** Subrectangles *)

Record subrect := MkSub { s_pix : Z; s_x : Z; s_y : Z; s_w : Z; s_h : Z }.

(** The first number from [i] on for which [p] does not hold, at most [i + n]. *)
Fixpoint count_while (n : nat) (p : Z -> bool) (i : Z) : Z :=
  match n with
  | O => i
  | S n => if p i then count_while n p (i + 1) else i
  end.

Section scan.
Context (w h bg : Z).
Context (find : list Z -> Z -> Z -> Z -> Z * Z).

(** [sw] equal pixels to the right, and then rows of them: the horizontal
    subrect at [data + d]. *)
Definition row_is (data : list Z) (off n c : Z) : bool := forallb (fun i => znth 0 data (off + i) =? c) (seqZ 0 n).
Definition horiz (data : list Z) (d x y : Z) : Z * Z :=
  let sw := count_while (Z.to_nat (w - x - 1)) (fun i => znth 0 data (d + i) =? znth 0 data d) 1 in
  (sw, count_while (Z.to_nat (h - y - 1)) (fun j => row_is data (d + j * w) sw (znth 0 data d)) 1).

(** [emit] is given every subrect; where it fails the scan stops. *)
Fixpoint scan_row {A} (fuel : nat) (emit : A -> subrect -> option A) (x y : Z) (data : list Z) (a : A) : option (list Z * A) :=
  match fuel with
  | O => Some (data, a)
  | S fuel =>
      if x <? w then
        let d := y * w + x in
        if znth 0 data d =? bg then scan_row fuel emit (x + 1) y data a
        else
          let '(sw, sh) := find data d x y in
          a' ← emit a (MkSub (znth 0 data d) x y sw sh);
          let data := put_rows (replicate (Z.to_nat (sh - 1)) (replicate (Z.to_nat sw) bg)) (d + w) w data in
          scan_row fuel emit (x + sw) y data a'
      else Some (data, a)
  end.

Fixpoint scan_rows {A} (n : nat) (emit : A -> subrect -> option A) (y : Z) (data : list Z) (a : A) : option A :=
  match n with
  | O => Some a
  | S n => '(data, a) ← scan_row (Z.to_nat w) emit 0 y data a; scan_rows n emit (y + 1) data a
  end.
Definition scan {A} (emit : A -> subrect -> option A) (data : list Z) (a : A) : option A := scan_rows (Z.to_nat h) emit 0 data a.
End scan.

(** ** The encoder *)

(** [rreEncode]: a vertical subrect is taken when it is larger. *)
Definition rre_find (w h : Z) (data : list Z) (d x y : Z) : Z * Z :=
  let c := znth 0 data d in
  let '(sw, sh) := horiz w h data d x y in
  let vh := count_while (Z.to_nat (h - y - sh)) (fun j => znth 0 data (d + j * w) =? c) sh in
  if vh =? sh then (sw, sh) else
  let vw := count_while (Z.to_nat (sw - 1)) (fun i => forallb (fun j => znth 0 data (d + i + j * w) =? c) (seqZ 0 vh)) 1 in
  if sw * sh <? vw * vh then (vw, vh) else (sw, sh).

Definition write_subrect (size : nat) (s : subrect) : list Z :=
  opaque size (s_pix s) ++ writeU16 (s_x s) ++ writeU16 (s_y s) ++ writeU16 (s_w s) ++ writeU16 (s_h s).

(** The number of subrects and what [mos] holds. *)
Definition rreEncode (size : nat) (data : list Z) (w h bg : Z) : Z * list Z :=
  default (0, []) (scan w h bg (rre_find w h) (fun '(n, mos) s => Some (n + 1, mos ++ write_subrect size s)) data (0, opaque size bg)).

Definition rre_writeSolidRect (size : nat) (colour : Z) : list Z := writeU32 0 ++ opaque size colour.

(** The background is the most common colour, or without a palette the first
    pixel. *)
Definition rre_writeRect (size : nat) (pb : pixbuf) (p : palette) : res (list Z) :=
  if pal_size p =? 1 then Ok (rre_writeSolidRect size (getColour p 0)) else
  imageBuf ← getImage pb (getRect pb);
  let bg := if pal_size p >? 0 then getColour p 0 else znth 0 imageBuf 0 in
  let '(nSubrects, mos) := rreEncode size imageBuf (pb_width pb) (pb_height pb) bg in
  mret (writeU32 nSubrects ++ mos).

(** ** The decoder *)

Fixpoint rre_subrects (n : nat) (size : nat) (r : Rect) : SE (list Z * pixbuf) unit :=
  match n with
  | O => mret tt
  | S n =>
      pix ← mem_readPixel size;
      x ← mem_readU16;
      y ← mem_readU16;
      w ← mem_readU16;
      h ← mem_readU16;
      if (x + w >? width r) || (y + h >? height r) then st_throw (protocol_error "Invalid RRE coordinates") else
      on_pb (fillRect (rect (px (tl r) + x) (py (tl r) + y) (px (tl r) + x + w) (py (tl r) + y + h)) pix);;
      rre_subrects n size r
  end.

(** [nSubrects] is an [int]. *)
Definition rre_decodeRect (size : nat) (r : Rect) : SE (list Z * pixbuf) unit :=
  nSubrects ← mem_readU32;
  bg ← mem_readPixel size;
  on_pb (fillRect r bg);;
  rre_subrects (Z.to_nat (s32 nSubrects)) size r.

(** ** Pixels that travel *)

Definition pixel_wf (size : nat) (p : Z) : Prop := 0 <= p < 256 ^ Z.of_nat size.

Lemma len_opaque size p : len (opaque size p) = Z.of_nat size.
Proof. revert p. induction size as [|size IH]; intros p; [done|]. cbn [opaque]. rewrite len_cons, IH. lia. Qed.
Lemma from_opaque_opaque size p : pixel_wf size p -> from_opaque (opaque size p) = p.
Proof.
  unfold pixel_wf. revert p. induction size as [|size IH]; intros p Hp; [cbn in *; lia|]. cbn [opaque from_opaque foldr]. fold (from_opaque (opaque size (Z.shiftr p 8))).
  rewrite Nat2Z.inj_succ, Z.pow_succ_r in Hp by lia. rewrite Z.shiftr_div_pow2 by lia. change (2 ^ 8) with 256.
  rewrite IH by (split; [apply Z.div_pos; lia|apply Z.div_lt_upper_bound; lia]). unfold u8. change (2 ^ 8) with 256. pose proof (Z.div_mod p 256). lia.
Qed.

Section reads.
Context {S : Type}.
Implicit Types (s : S) (rest : list Z).

Lemma mem_read_app n bs rest s : n = len bs -> mem_read n (bs ++ rest, s) = (Ok bs, (rest, s)).
Proof.
  intros ->. unfold mem_read. rewrite len_app, (proj2 (Z.ltb_ge _ _)) by (pose proof (len_nonneg rest); lia).
  by rewrite ztake_app, zdrop_app.
Qed.
Lemma mem_readU8_app v rest s : 0 <= v < 256 -> mem_readU8 (writeU8 v ++ rest, s) = (Ok v, (rest, s)).
Proof. intros Hv. eapply run_bind; [by apply mem_read_app|]. by rewrite znth_writeU8, u8_id. Qed.
Lemma mem_readU16_app v rest s : u16_wf v -> mem_readU16 (writeU16 v ++ rest, s) = (Ok v, (rest, s)).
Proof. intros Hv. eapply run_bind; [by apply mem_read_app|]. by rewrite be16_write, u16_id. Qed.
Lemma mem_readU32_app v rest s : 0 <= v < 2 ^ 32 -> mem_readU32 (writeU32 v ++ rest, s) = (Ok v, (rest, s)).
Proof. intros Hv. eapply run_bind; [by apply mem_read_app|]. by rewrite be32_write, u32_id. Qed.
Lemma mem_readPixel_app size p rest s : pixel_wf size p -> mem_readPixel size (opaque size p ++ rest, s) = (Ok p, (rest, s)).
Proof. intros Hp. eapply run_bind; [apply mem_read_app; by rewrite len_opaque|]. by rewrite from_opaque_opaque. Qed.
Lemma mem_readPixels_app size ps rest s : Forall (pixel_wf size) ps ->
  mem_readPixels size (length ps) (concat (map (opaque size) ps) ++ rest, s) = (Ok ps, (rest, s)).
Proof.
  intros H. induction H as [|p ps Hp _ IH]; [done|]. cbn [length map concat mem_readPixels]. rewrite <- app_assoc.
  eapply run_bind; [by apply mem_readPixel_app|]. by eapply run_bind; [exact IH|].
Qed.
End reads.

(** ** Searching *)

Lemma count_while_spec n p : forall i, i <= count_while n p i <= i + Z.of_nat n /\
  (forall j, i <= j < count_while n p i -> p j = true) /\
  (count_while n p i < i + Z.of_nat n -> p (count_while n p i) = false).
Proof.
  induction n as [|n IH]; intros i; cbn [count_while]; [repeat split; intros; lia|]. destruct (p i) eqn:Hp.
  - destruct (IH (i + 1)) as (H1 & H2 & H3). split; [lia|]. split; [|intros; apply H3; lia].
    intros j Hj. destruct (decide (j = i)) as [->|]; [done|]. apply H2. lia.
  - split; [lia|]. split; [intros; lia|done].
Qed.

Lemma forallb_seqZ (p : Z -> bool) m n : forallb p (seqZ m n) = true <-> forall i, m <= i < m + n -> p i = true.
Proof.
  rewrite forallb_forall. split; intros H i Hi.
  - apply H, list_elem_of_In, elem_of_seqZ. lia.
  - apply list_elem_of_In, elem_of_seqZ in Hi. apply H. lia.
Qed.

(** A subrectangle of one colour at [(x, y)]. *)
Definition uniform (w h : Z) (data : list Z) (x y sw sh : Z) : Prop :=
  1 <= sw <= w - x /\ 1 <= sh <= h - y /\
  forall i j, 0 <= i < sw -> 0 <= j < sh -> pixel_at w data (x + i) (y + j) = pixel_at w data x y.
Definition finds (w h : Z) (find : list Z -> Z -> Z -> Z -> Z * Z) : Prop := forall data x y, 0 <= x < w -> 0 <= y < h ->
  uniform w h data x y (find data (y * w + x) x y).1 (find data (y * w + x) x y).2.

Lemma horiz_finds w h : finds w h (horiz w h).
Proof.
  intros data x y Hx Hy. unfold horiz. cbn [fst snd].
  pose proof (count_while_spec (Z.to_nat (w - x - 1)) (fun i => znth 0 data (y * w + x + i) =? znth 0 data (y * w + x)) 1) as (Hsw & Hrow & _).
  set (sw := count_while _ _ 1) in *.
  pose proof (count_while_spec (Z.to_nat (h - y - 1)) (fun j => row_is data (y * w + x + j * w) sw (znth 0 data (y * w + x))) 1) as (Hsh & Hcol & _).
  set (sh := count_while _ _ 1) in *. split; [lia|]. split; [lia|]. intros i j Hi Hj. unfold pixel_at.
  replace (x + i + (y + j) * w) with (y * w + x + j * w + i) by lia. rewrite (Z.add_comm x (y * w)).
  destruct (decide (j = 0)) as [->|].
  - rewrite Z.mul_0_l, Z.add_0_r. destruct (decide (i = 0)) as [->|]; [by rewrite Z.add_0_r|]. apply Z.eqb_eq, Hrow. lia.
  - specialize (Hcol j ltac:(lia)). unfold row_is in Hcol. apply Z.eqb_eq. by apply (proj1 (forallb_seqZ _ _ _) Hcol).
Qed.

Lemma rre_finds w h : finds w h (rre_find w h).
Proof.
  intros data x y Hx Hy. pose proof (horiz_finds w h data x y Hx Hy) as HU. unfold rre_find.
  destruct (horiz w h data (y * w + x) x y) as [sw sh]. cbn [fst snd] in HU. pose proof HU as (Hsw & Hsh & Hu).
  pose proof (count_while_spec (Z.to_nat (h - y - sh)) (fun j => znth 0 data (y * w + x + j * w) =? znth 0 data (y * w + x)) sh) as (Hvh & Hv & _).
  set (vh := count_while _ _ sh) in *. destruct (Z.eqb_spec vh sh) as [|Hne]; [exact HU|].
  pose proof (count_while_spec (Z.to_nat (sw - 1)) (fun i => forallb (fun j => znth 0 data (y * w + x + i + j * w) =? znth 0 data (y * w + x)) (seqZ 0 vh)) 1) as (Hvw & Hc & _).
  set (vw := count_while _ _ 1) in *. case_test; [|exact HU]. cbn [fst snd]. split; [lia|]. split; [lia|]. intros i j Hi Hj. unfold pixel_at.
  rewrite (Z.add_comm x (y * w)). destruct (decide (i = 0)) as [->|].
  - replace (x + 0 + (y + j) * w) with (y * w + x + j * w) by lia. destruct (decide (j < sh)).
    + specialize (Hu 0 j ltac:(lia) ltac:(lia)). unfold pixel_at in Hu. etransitivity; [|etransitivity; [exact Hu|f_equal; lia]]. f_equal; lia.
    + apply Z.eqb_eq, Hv. lia.
  - replace (x + i + (y + j) * w) with (y * w + x + i + j * w) by lia. specialize (Hc i ltac:(lia)). apply Z.eqb_eq.
    by apply (proj1 (forallb_seqZ _ _ _) Hc).
Qed.

(** ** What a scan describes *)

Definition inside (s : subrect) (x y : Z) : bool :=
  ((s_x s <=? x) && (x <? s_x s + s_w s)) && ((s_y s <=? y) && (y <? s_y s + s_h s)).
(** The pixel at [(x, y)] when [subs] are painted on the background. *)
Definition painted (bg : Z) (subs : list subrect) (x y : Z) : Z :=
  foldl (fun p s => if inside s x y then s_pix s else p) bg subs.

Fixpoint emit_all {A} (emit : A -> subrect -> option A) (a : A) (subs : list subrect) : option A :=
  match subs with
  | [] => Some a
  | s :: subs => a' ← emit a s; emit_all emit a' subs
  end.

Lemma painted_snoc bg R s x y : painted bg (R ++ [s]) x y = if inside s x y then s_pix s else painted bg R x y.
Proof. unfold painted. by rewrite foldl_app. Qed.

Lemma emit_all_app {A} (emit : A -> subrect -> option A) a R N : emit_all emit a (R ++ N) = emit_all emit a R ≫= fun a' => emit_all emit a' N.
Proof. revert a. induction R as [|s R IH]; intros a; [done|]. cbn. destruct (emit a s); cbn; [apply IH|done]. Qed.

Lemma pos_row w x y x' y' : 0 <= x < w -> 0 <= x' <= w -> y' * w <= y * w + x < y' * w + x' -> y = y'.
Proof. intros. destruct (Z.lt_trichotomy y y') as [?|[?|?]]; [nia|done|nia]. Qed.
Lemma pos_inj w x y x' y' : 0 <= x < w -> 0 <= x' < w -> y * w + x = y' * w + x' -> y = y' /\ x = x'.
Proof. intros. destruct (Z.lt_trichotomy y y') as [?|[?|?]]; [nia|split; nia|nia]. Qed.

Section described.
Context (w h bg : Z) (find : list Z -> Z -> Z -> Z -> Z * Z) (F : finds w h find) (image : list Z).
#[local] Abbreviation scan_row := (scan_row w bg find).
#[local] Abbreviation scan_rows := (scan_rows w bg find).

Definition in_image (x y : Z) : Prop := 0 <= x < w /\ 0 <= y < h.

(** A subrectangle that was found. *)
Record sub_ok (s : subrect) : Prop := {
  sub_x : 0 <= s_x s /\ 1 <= s_w s /\ s_x s + s_w s <= w;
  sub_y : 0 <= s_y s /\ 1 <= s_h s /\ s_y s + s_h s <= h;
  sub_colour : s_pix s <> bg;
  sub_first : pixel_at w image (s_x s) (s_y s) = s_pix s
}.
Definition sub_pos (s : subrect) : Z := s_y s * w + s_x s.

(** At [(x0, y0)], with [R] found and [data] as it has become: what is in front
    is described, and so is what has been painted over. *)
Record scanned (x0 y0 : Z) (data : list Z) (R : list subrect) : Prop := {
  sc_len : len data = w * h;
  sc_subs : Forall sub_ok R;
  sc_pos : NoDup (map sub_pos R) /\ Forall (fun s => sub_pos s < y0 * w + x0) R;
  sc_front : forall x y, in_image x y -> y * w + x < y0 * w + x0 -> painted bg R x y = pixel_at w image x y;
  sc_back : forall x y, in_image x y -> y0 * w + x0 <= y * w + x ->
    if decide (pixel_at w data x y = bg) then painted bg R x y = pixel_at w image x y else pixel_at w data x y = pixel_at w image x y
}.

(** A background pixel is passed. *)
Lemma scanned_skip x0 y0 data R : scanned x0 y0 data R -> in_image x0 y0 -> pixel_at w data x0 y0 = bg -> scanned (x0 + 1) y0 data R.
Proof.
  intros H Hin Hbg. split.
  - by apply H.
  - by apply H.
  - destruct (sc_pos _ _ _ _ H) as [Hnd Hp]. split; [done|]. eapply Forall_impl; [exact Hp|]. cbn. intros; lia.
  - intros x y Hxy Hlt. destruct (decide (y * w + x = y0 * w + x0)) as [He|]; [|apply (sc_front _ _ _ _ H); [done|lia]].
    pose proof (sc_back _ _ _ _ H x y Hxy ltac:(lia)) as Hb. unfold in_image in *. destruct (pos_inj w x y x0 y0) as [-> ->]; [lia..|]. by rewrite decide_True in Hb.
  - intros x y Hxy Hge. apply (sc_back _ _ _ _ H); [done|lia].
Qed.

(** A subrectangle is taken, and the rows below its first painted over. *)
Lemma scanned_take x0 y0 data R sw sh : scanned x0 y0 data R -> in_image x0 y0 -> pixel_at w data x0 y0 <> bg -> uniform w h data x0 y0 sw sh ->
  scanned (x0 + sw) y0 (put_rows (replicate (Z.to_nat (sh - 1)) (replicate (Z.to_nat sw) bg)) (y0 * w + x0 + w) w data)
    (R ++ [MkSub (pixel_at w data x0 y0) x0 y0 sw sh]).
Proof.
  intros H Hin Hbg (Hsw & Hsh & Hu). set (s := MkSub _ _ _ _ _). unfold in_image in Hin.
  assert (pixel_at w image x0 y0 = pixel_at w data x0 y0) as Hfirst.
  { pose proof (sc_back _ _ _ _ H x0 y0 Hin ltac:(lia)) as Hb. by rewrite decide_False in Hb. }
  assert (forall x y, in_image x y -> inside s x y = true -> pixel_at w image x y = pixel_at w data x0 y0) as Hsame.
  { intros x y Hxy Hi. unfold inside, s in Hi. cbn in Hi. bool_decide_hyps. pose proof (Hu (x - x0) (y - y0) ltac:(lia) ltac:(lia)) as Hd.
    replace (x0 + (x - x0)) with x in Hd by lia. replace (y0 + (y - y0)) with y in Hd by lia.
    pose proof (sc_back _ _ _ _ H x y Hxy ltac:(unfold in_image in Hxy; nia)) as Hb. rewrite decide_False in Hb by congruence. congruence. }
  destruct (put_rows_at sw w x0 ltac:(lia) ltac:(lia) ltac:(lia) (replicate (Z.to_nat (sh - 1)) (replicate (Z.to_nat sw) bg)) (y0 + 1) data ltac:(lia)) as [Hlen Hat].
  { apply Forall_replicate. rewrite len_replicate. lia. }
  { rewrite len_replicate, (sc_len _ _ _ _ H). intros. nia. }
  rewrite len_replicate in Hat. replace (x0 + (y0 + 1) * w) with (y0 * w + x0 + w) in Hlen, Hat by lia.
  split.
  - rewrite Hlen. by apply H.
  - apply Forall_app. split; [by apply H|]. constructor; [|constructor]. split; unfold s; cbn; try lia; done.
  - destruct (sc_pos _ _ _ _ H) as [Hnd Hp]. rewrite map_app. split.
    + apply NoDup_app. split; [done|]. split; [|apply NoDup_singleton]. intros z Hz Hs.
      apply list_elem_of_singleton in Hs. apply list_elem_of_fmap in Hz as (t & Ht & Htin). pose proof (proj1 (Forall_forall _ _) Hp t) as Hlt.
      specialize (Hlt Htin). assert (sub_pos s = y0 * w + x0) by done. cbn in Hlt. lia.
    + apply Forall_app. split; [eapply Forall_impl; [exact Hp|]; cbn; intros; lia|]. constructor; [|constructor]. unfold sub_pos, s. cbn. lia.
  - intros x y Hxy Hlt. rewrite painted_snoc. destruct (inside s x y) eqn:Hi.
    + unfold s. cbn. by rewrite (Hsame x y).
    + apply (sc_front _ _ _ _ H); [done|]. destruct (Z.lt_ge_cases (y * w + x) (y0 * w + x0)); [done|]. exfalso.
      unfold in_image in Hxy. assert (y = y0) as -> by (apply (pos_row w x y (x0 + sw) y0); lia). unfold inside, s in Hi. cbn in Hi.
      rewrite !(proj2 (Z.leb_le _ _)), !(proj2 (Z.ltb_lt _ _)) in Hi by lia. done.
  - intros x y Hxy Hge. unfold in_image in Hxy. rewrite Hat by lia. rewrite painted_snoc.
    assert (inside s x y = ((y0 + 1 <=? y) && (y <? y0 + 1 + Z.of_nat (Z.to_nat (sh - 1)))) && ((x0 <=? x) && (x <? x0 + sw))) as Hi.
    { unfold inside, s. cbn. apply eq_iff_eq_true. rewrite !andb_true_iff, !Z.leb_le, !Z.ltb_lt. split; [|lia].
      intros [[? ?] [? ?]]. assert (y <> y0) by (intros ->; lia). lia. }
    rewrite <- Hi. destruct (inside s x y) eqn:Hs.
    + symmetry in Hi. bool_decide_hyps. rewrite (znth_replicate []), znth_replicate by lia. rewrite decide_True by done.
      unfold s. cbn. by rewrite (Hsame x y).
    + apply (sc_back _ _ _ _ H); [done|lia].
Qed.

Lemma scan_row_ok fuel : forall x y data R, scanned x y data R -> 0 <= x <= w -> 0 <= y < h -> w - x <= Z.of_nat fuel ->
  exists N data', scanned w y data' (R ++ N) /\
    forall A (emit : A -> subrect -> option A) a, scan_row fuel emit x y data a = emit_all emit a N ≫= fun a' => Some (data', a').
Proof.
  assert (forall fuel x y data R, x = w -> scanned x y data R -> exists N data', scanned w y data' (R ++ N) /\
    forall A (emit : A -> subrect -> option A) a, scan_row fuel emit x y data a = emit_all emit a N ≫= fun a' => Some (data', a')) as Hend.
  { intros n x y data R -> H. exists [], data. rewrite app_nil_r. split; [done|]. intros A emit a. destruct n; cbn [RRE.scan_row]; [done|].
    by rewrite Z.ltb_irrefl. }
  induction fuel as [|fuel IH]; intros x y data R H Hx Hy Hf; [apply Hend; [lia|done]|].
  destruct (decide (x = w)) as [|Hne]; [by apply Hend|]. assert (in_image x y) as Hin by (unfold in_image; lia).
  assert (znth 0 data (y * w + x) = pixel_at w data x y) as Hpix by (unfold pixel_at; f_equal; lia).
  destruct (decide (pixel_at w data x y = bg)) as [Hbg|Hbg].
  - destruct (IH (x + 1) y data R) as (N & data' & HN & Hs); [by apply scanned_skip|lia..|]. exists N, data'. split; [done|]. intros A emit a.
    cbn [RRE.scan_row]. rewrite (proj2 (Z.ltb_lt _ _)) by lia. cbv zeta. rewrite Hpix, Hbg, Z.eqb_refl. apply Hs.
  - pose proof (F data x y ltac:(lia) ltac:(lia)) as HU. destruct (find data (y * w + x) x y) as [sw sh] eqn:Hfind. cbn [fst snd] in HU.
    pose proof (scanned_take x y data R sw sh H Hin Hbg HU) as Ht. destruct HU as (Hsw & _).
    destruct (IH _ _ _ _ Ht) as (N & data' & HN & Hs); [lia..|]. rewrite <- app_assoc in HN. eexists (_ :: N), data'. split; [exact HN|].
    intros A emit a. cbn [RRE.scan_row]. rewrite (proj2 (Z.ltb_lt _ _)) by lia. cbv zeta. rewrite Hpix, (proj2 (Z.eqb_neq _ _)), Hfind by done.
    cbn [emit_all app]. destruct (emit a _) as [a'|]; [|done]. cbn. apply Hs.
Qed.

Lemma scanned_next y data R : scanned w y data R -> scanned 0 (y + 1) data R.
Proof.
  intros H. split; try apply H.
  - destruct (sc_pos _ _ _ _ H) as [Hnd Hp]. split; [done|]. eapply Forall_impl; [exact Hp|]. cbn. intros; lia.
  - intros x' y' Hin Hlt. apply (sc_front _ _ _ _ H); [done|lia].
  - intros x' y' Hin Hge. apply (sc_back _ _ _ _ H); [done|lia].
Qed.

Lemma scan_rows_ok n : forall y data R, scanned 0 y data R -> 0 <= w -> 0 <= y -> y + Z.of_nat n = h ->
  exists N data', scanned 0 h data' (R ++ N) /\
    forall A (emit : A -> subrect -> option A) a, scan_rows n emit y data a = emit_all emit a N.
Proof.
  induction n as [|n IH]; intros y data R H Hw Hy Hn.
  - exists [], data. rewrite app_nil_r. replace h with y by lia. by split.
  - destruct (scan_row_ok (Z.to_nat w) 0 y data R H) as (N1 & data1 & H1 & Hs1); [lia..|].
    destruct (IH (y + 1) data1 (R ++ N1)) as (N2 & data2 & H2 & Hs2); [by apply scanned_next|lia..|].
    exists (N1 ++ N2), data2. rewrite app_assoc. split; [done|]. intros A emit a. cbn [RRE.scan_rows]. rewrite Hs1, emit_all_app.
    destruct (emit_all emit a N1) as [a'|]; [|done]. cbn. apply Hs2.
Qed.

(** The subrectangles describe the image. *)
Record describes (R : list subrect) : Prop := {
  de_subs : Forall sub_ok R;
  de_pos : NoDup (map sub_pos R);
  de_image : forall x y, in_image x y -> painted bg R x y = pixel_at w image x y
}.

Lemma scan_describes : 0 <= w -> 0 <= h -> len image = w * h ->
  exists R, describes R /\ forall A (emit : A -> subrect -> option A) a, scan w h bg find emit image a = emit_all emit a R.
Proof.
  intros Hw Hh Hl. destruct (scan_rows_ok (Z.to_nat h) 0 image []) as (R & data & H & Hs); [|lia..|].
  - split; [done|constructor|split; constructor| |].
    + unfold in_image. intros; nia.
    + intros x y _ _. by case_decide.
  - exists R. split; [|exact Hs]. split; [apply H|apply H|]. intros x y Hin. apply (sc_front _ _ _ _ H); [done|]. unfold in_image in Hin. nia.
Qed.

Lemma sub_pos_range s : sub_ok s -> 0 <= sub_pos s < w * h.
Proof. intros [Hx Hy _ _]. unfold sub_pos. nia. Qed.

Lemma describes_length R x y : describes R -> in_image x y -> pixel_at w image x y = bg -> len R < w * h.
Proof.
  intros [Hs Hp _] Hin Hbg. unfold in_image in Hin.
  assert (NoDup ((y * w + x) :: map sub_pos R)) as Hnd.
  { apply NoDup_cons. split; [|done]. intros (s & Hpos & Hsin)%list_elem_of_fmap. rewrite Forall_forall in Hs. destruct (Hs s Hsin) as [Hsx Hsy Hc Hf].
    unfold sub_pos in Hpos. destruct (pos_inj w x y (s_x s) (s_y s)) as [-> ->]; [lia..|]. congruence. }
  apply (NoDup_submseteq _ (seqZ 0 (w * h))) in Hnd.
  - apply submseteq_length in Hnd. rewrite length_seqZ in Hnd. cbn in Hnd. rewrite length_map in Hnd. unfold len. lia.
  - intros p [->|Hin']%list.elem_of_cons; apply elem_of_seqZ; [nia|]. apply list_elem_of_fmap in Hin' as (s & -> & Hsin).
    rewrite Forall_forall in Hs. pose proof (sub_pos_range s (Hs s Hsin)). lia.
Qed.

Lemma describes_length_le R : describes R -> 0 <= w * h -> len R <= w * h.
Proof.
  intros [Hs Hp _] Hwh. apply (NoDup_submseteq _ (seqZ 0 (w * h))) in Hp.
  - apply submseteq_length in Hp. rewrite length_seqZ, length_map in Hp. unfold len. lia.
  - intros p (s & -> & Hsin)%list_elem_of_fmap. rewrite Forall_forall in Hs. pose proof (sub_pos_range s (Hs s Hsin)). apply elem_of_seqZ. lia.
Qed.
End described.

(** ** Round trip *)

(** The palette of a rectangle: none, or its colours. *)
Definition palette_of (p : palette) (src : pixbuf) : Prop :=
  palette_ok p /\
  (counts p = [] \/ forall c, c ∈ (counts p).*1 <-> exists x y, in_image (pb_width src) (pb_height src) x y /\ pb_at src x y = c).

(** A source whose pixels have [size] bytes, and which is not empty. *)
Definition source (size : nat) (src : pixbuf) : Prop :=
  pb_wf src /\ 0 < pb_width src < 65536 /\ 0 < pb_height src < 65536 /\ pb_width src * pb_height src < 2 ^ 31 /\
  forall x y, in_image (pb_width src) (pb_height src) x y -> pixel_wf size (pb_at src x y).

(** A rectangle of the size of a source, inside a buffer. *)
Definition target (r : Rect) (src pb : pixbuf) : Prop :=
  pb_wf pb /\ enclosed_by r (getRect pb) = true /\ width r = pb_width src /\ height r = pb_height src.

(** The source has been drawn into the rectangle. *)
Definition drawn (r : Rect) (src pb pb' : pixbuf) : Prop :=
  pb_wf pb' /\ getRect pb' = getRect pb /\ forall x y, 0 <= x < pb_width pb -> 0 <= y < pb_height pb ->
    pb_at pb' x y = if contains r (MkPoint x y) then pb_at src (x - px (tl r)) (y - py (tl r)) else pb_at pb x y.

Lemma palette_first size src p : source size src -> palette_of p src -> 0 < pal_size p ->
  exists x y, in_image (pb_width src) (pb_height src) x y /\ pb_at src x y = getColour p 0.
Proof.
  intros _ [Hok Hp] Hs. assert (pal_size p = len (counts p)) as Hl by by apply size_counts.
  destruct (counts p) as [|[c n] l] eqn:Hc; [rewrite Hl in Hs; done|].
  destruct (getColour_counts p 0 c n) as [Hg _]; [by rewrite Hc|]. change (Z.of_nat 0) with 0 in Hg. rewrite Hg.
  destruct Hp as [?|Hp]; [done|]. apply Hp. by left.
Qed.
Lemma palette_single size src p : source size src -> palette_of p src -> pal_size p = 1 ->
  forall x y, in_image (pb_width src) (pb_height src) x y -> pb_at src x y = getColour p 0.
Proof.
  intros _ [Hok Hp] Hs x y Hin. assert (pal_size p = len (counts p)) as Hl by by apply size_counts.
  destruct (counts p) as [|[c n] [|]] eqn:Hc; [rewrite Hl in Hs; done| |rewrite Hl in Hs; unfold len in Hs; cbn in Hs; lia].
  destruct (getColour_counts p 0 c n) as [Hg _]; [by rewrite Hc|]. change (Z.of_nat 0) with 0 in Hg. rewrite Hg.
  destruct Hp as [?|Hp]; [done|]. assert (pb_at src x y ∈ [(c, n)].*1) as Hin' by (apply Hp; by exists x, y).
  by apply list_elem_of_singleton in Hin'.
Qed.

Section roundtrip.
Context (size : nat) (r : Rect).

(** A subrectangle that fits the rectangle and the wire. *)
Definition sub_fits (s : subrect) : Prop :=
  pixel_wf size (s_pix s) /\ u16_wf (s_x s) /\ u16_wf (s_y s) /\ u16_wf (s_w s) /\ u16_wf (s_h s) /\
  s_x s + s_w s <= width r /\ s_y s + s_h s <= height r.

Lemma on_pb_ok f bs pb pb' : f pb = Ok pb' -> on_pb f (bs, pb) = (Ok tt, (bs, pb')).
Proof. intros H. unfold on_pb. by rewrite H. Qed.

Lemma rre_subrects_ok R rest : Forall sub_fits R -> forall pb, pb_wf pb -> enclosed_by r (getRect pb) = true ->
  exists pb', rre_subrects (length R) size r (concat (map (write_subrect size) R) ++ rest, pb) = (Ok tt, (rest, pb')) /\
    pb_wf pb' /\ getRect pb' = getRect pb /\ forall x y, 0 <= x < pb_width pb -> 0 <= y < pb_height pb ->
      pb_at pb' x y = foldl (fun p s => if inside s (x - px (tl r)) (y - py (tl r)) then s_pix s else p) (pb_at pb x y) R.
Proof.
  induction 1 as [|s R (Hpix & Hx & Hy & Hw & Hh & Hxw & Hyh) _ IH]; intros pb W He; [by exists pb|].
  pose proof (enclosed_fits pb r He) as (Hl & Ht & Hr & Hb). unfold u16_wf, width, height in *.
  set (rs := rect (px (tl r) + s_x s) (py (tl r) + s_y s) (px (tl r) + s_x s + s_w s) (py (tl r) + s_y s + s_h s)).
  assert (enclosed_by rs (getRect pb) = true) as Hers.
  { unfold enclosed_by, getRect, rs, rect. cbn. rewrite !andb_true_iff, !Z.geb_le, !Z.leb_le. lia. }
  destruct (fillRect_ok pb W rs (s_pix s) Hers) as (pb1 & Hf & W1 & Hr1 & Hat1); [unfold width, rs; cbn; lia|unfold height, rs; cbn; lia|].
  destruct (IH pb1 W1) as (pb' & Hrun & W' & Hr' & Hat); [by rewrite Hr1|]. exists pb'.
  split; [|split; [done|split; [by rewrite Hr'|]]].
  - cbn [length map concat rre_subrects]. unfold write_subrect. rewrite <- !app_assoc.
    eapply run_bind; [by apply mem_readPixel_app|]. eapply run_bind; [by apply mem_readU16_app|]. eapply run_bind; [by apply mem_readU16_app|].
    eapply run_bind; [by apply mem_readU16_app|]. eapply run_bind; [by apply mem_readU16_app|].
    rewrite Z.gtb_ltb, (proj2 (Z.ltb_ge _ _)) by (unfold width; lia). rewrite Z.gtb_ltb, (proj2 (Z.ltb_ge _ _)) by (unfold height; lia).
    cbn [orb]. eapply run_bind; [by apply on_pb_ok|]. exact Hrun.
  - intros x y Hxx Hyy. assert (pb_width pb1 = pb_width pb /\ pb_height pb1 = pb_height pb) as [Hw1 Hh1] by (by injection Hr1).
    rewrite Hat by lia. cbn [foldl]. f_equal. rewrite Hat1 by done. rewrite contains_at. unfold rs, width, height, inside. cbn.
    rewrite andb_comm. apply (f_equal (fun b : bool => if b then s_pix s else pb_at pb x y)). apply eq_iff_eq_true.
    rewrite !andb_true_iff, !Z.leb_le, !Z.ltb_lt. lia.
Qed.
End roundtrip.

Lemma rre_emitted size R : forall n mos, emit_all (fun '(n, mos) s => Some (n + 1, mos ++ write_subrect size s)) (n, mos) R =
  Some (n + len R, mos ++ concat (map (write_subrect size) R)).
Proof.
  induction R as [|s R IH]; intros n mos; cbn [emit_all map concat].
  - by rewrite len_nil, Z.add_0_r, app_nil_r.
  - cbn. rewrite IH, len_cons, <- app_assoc. do 2 f_equal. lia.
Qed.

Lemma full_rect src : pb_wf src -> enclosed_by (getRect src) (getRect src) = true.
Proof. intros W. unfold enclosed_by. rewrite !andb_true_iff, !Z.geb_le, !Z.leb_le. lia. Qed.

(** The whole source as a list of pixels. *)
Lemma source_image src : pb_wf src -> exists image, getImage src (getRect src) = Ok image /\ len image = pb_width src * pb_height src /\
  forall x y, in_image (pb_width src) (pb_height src) x y -> pixel_at (pb_width src) image x y = pb_at src x y.
Proof.
  intros W. assert (width (getRect src) = pb_width src /\ height (getRect src) = pb_height src) as [Hw Hh] by (unfold width, height; cbn; lia).
  destruct (getImage_ok src W (getRect src)) as (image & Hi & Hl & Hat); [by apply full_rect|destruct W; lia|destruct W; lia|].
  rewrite Hw, Hh in *. exists image. split; [done|]. split; [done|]. intros x y [Hx Hy]. by apply Hat.
Qed.

(** A background and subrectangles make the picture. *)
Lemma rre_drawn size r src pb image bg R : source size src -> target r src pb -> pixel_wf size bg ->
  (forall x y, in_image (pb_width src) (pb_height src) x y -> pixel_at (pb_width src) image x y = pb_at src x y) ->
  describes (pb_width src) (pb_height src) bg image R -> len R < 2 ^ 31 -> exists pb',
  rre_decodeRect size r (writeU32 (len R) ++ opaque size bg ++ concat (map (write_subrect size) R), pb) = (Ok tt, ([], pb')) /\ drawn r src pb pb'.
Proof.
  intros (Ws & Hw & Hh & _ & Hpix) (W & He & Hrw & Hrh) Hbg Himg HR Hn. unfold rre_decodeRect.
  destruct (fillRect_ok pb W r bg He) as (pb1 & Hf & W1 & Hr1 & Hat1); [lia..|].
  destruct (rre_subrects_ok size r R []) with (pb := pb1) as (pb' & Hrun & W' & Hr' & Hat).
  { apply Forall_forall. intros s Hs. pose proof (proj1 (Forall_forall _ _) (de_subs _ _ _ _ _ HR) s Hs) as [Hsx Hsy Hc Hfirst].
    assert (in_image (pb_width src) (pb_height src) (s_x s) (s_y s)) as Hin by (unfold in_image; lia).
    unfold sub_fits, u16_wf. rewrite Hrw, Hrh. split; [|lia]. rewrite <- Hfirst, Himg by done. by apply Hpix. }
  { done. } { by rewrite Hr1. }
  rewrite app_nil_r in Hrun. pose proof (len_nonneg R). exists pb'. split.
  - eapply run_bind; [apply mem_readU32_app; lia|]. eapply run_bind; [by apply mem_readPixel_app|]. eapply run_bind; [by apply on_pb_ok|].
    rewrite s32_id by lia. unfold len. rewrite Nat2Z.id. exact Hrun.
  - split; [done|]. split; [by rewrite Hr'|]. intros x y Hx Hy.
    assert (pb_width pb1 = pb_width pb /\ pb_height pb1 = pb_height pb) as [Hw1 Hh1] by (by injection Hr1).
    rewrite Hat, Hat1 by lia. destruct (contains r (MkPoint x y)) eqn:Hc.
    + rewrite contains_at in Hc. bool_decide_hyps. assert (in_image (pb_width src) (pb_height src) (x - px (tl r)) (y - py (tl r))) as Hin by (unfold in_image; lia).
      rewrite <- Himg by done. by apply (de_image _ _ _ _ _ HR).
    + assert (forall s, s ∈ R -> inside s (x - px (tl r)) (y - py (tl r)) = false) as Hout.
      { intros s Hs. destruct (inside s _ _) eqn:Hi; [|done]. pose proof (proj1 (Forall_forall _ _) (de_subs _ _ _ _ _ HR) s Hs) as [Hsx Hsy _ _].
        unfold inside in Hi. bool_decide_hyps. apply not_true_iff_false in Hc. exfalso. apply Hc.
        rewrite contains_at, !andb_true_iff, !Z.leb_le, !Z.ltb_lt. lia. }
      clear -Hout. induction R as [|s R IH]; [done|]. cbn [foldl]. rewrite Hout by by left. apply IH. intros s' Hs'. apply Hout. by right.
Qed.

(** C24: what RRE sends of a rectangle, whatever its palette, decodes to the
    pixels of the rectangle, and nothing else of the client's buffer changes. *)
Theorem rre_roundtrip (size : nat) (src pb : pixbuf) (r : Rect) (p : palette) :
  source size src -> palette_of p src -> target r src pb ->
  exists bs pb', rre_writeRect size src p = Ok bs /\ rre_decodeRect size r (bs, pb) = (Ok tt, ([], pb')) /\ drawn r src pb pb'.
Proof.
  intros HS HP HT. pose proof HS as (Ws & Hw & Hh & Hwh & Hpix). unfold rre_writeRect.
  assert (0 < pb_width src * pb_height src) as Hpos by nia.
  destruct (source_image src Ws) as (image & Himg & Hl & Hat). destruct (Z.eqb_spec (pal_size p) 1) as [H1|H1].
  - pose proof (palette_single size src p HS HP H1) as Hall. assert (pixel_wf size (getColour p 0)) as Hc.
    { rewrite <- (Hall 0 0) by (unfold in_image; lia). apply Hpix. unfold in_image. lia. }
    destruct (rre_drawn size r src pb image (getColour p 0) [] HS HT Hc Hat) as (pb' & Hrun & Hd).
    + split; [constructor|constructor|]. intros x y Hin. rewrite Hat by done. by rewrite Hall.
    + done.
    + eexists _, pb'. split; [reflexivity|]. unfold rre_writeSolidRect. cbn [map concat] in Hrun. rewrite app_nil_r in Hrun. by split.
  - rewrite Himg. cbn [mbind res_bind]. set (bg := if pal_size p >? 0 then _ else _).
    assert (pixel_wf size bg) as Hbg.
    { unfold bg. case_test.
      - destruct (palette_first size src p HS HP) as (x & y & Hin & <-); [lia|]. by apply Hpix.
      - specialize (Hat 0 0 ltac:(unfold in_image; lia)). unfold pixel_at in Hat. change (0 + 0 * pb_width src) with 0 in Hat.
        rewrite Hat. apply Hpix. unfold in_image. lia. }
    destruct (scan_describes (pb_width src) (pb_height src) bg (rre_find (pb_width src) (pb_height src)) (rre_finds _ _) image) as (R & HR & Hscan); [lia..|].
    unfold rreEncode. rewrite Hscan, rre_emitted. cbn [default]. rewrite Z.add_0_l.
    pose proof (describes_length_le _ _ _ _ R HR ltac:(lia)) as Hlen.
    destruct (rre_drawn size r src pb image bg R HS HT Hbg Hat HR) as (pb' & Hrun & Hd); [lia|].
    eexists _, pb'. split; [reflexivity|]. by split.
Qed.

(** A background, a rectangle and a line across it. *)
Definition sample_src : pixbuf := MkPB 4 3 4 [7; 7; 7; 7; 7; 9; 9; 7; 5; 9; 9; 5].
Definition sample_pb : pixbuf := MkPB 6 5 6 (replicate 30 1).
Definition sample_palette : palette := Eval vm_compute in foldl (fun p c => (pal_insert c 1 p).2) new_palette (pb_data sample_src).

Lemma foldl_insert_ok l : forall p, palette_ok p -> palette_ok (foldl (fun p c => (pal_insert c 1 p).2) p l).
Proof. induction l as [|c l IH]; intros p H; [done|]. cbn [foldl]. apply IH. by destruct (insert_spec p c 1 H eq_refl). Qed.

Lemma sample_source : source 1 sample_src.
Proof.
  split; [unfold pb_wf; split_and!; by vm_compute|]. split; [done|]. split; [done|]. split; [done|]. intros x y [Hx Hy].
  cbn in Hx, Hy. unfold pixel_wf. assert (x = 0 \/ x = 1 \/ x = 2 \/ x = 3) as Hxs by lia. assert (y = 0 \/ y = 1 \/ y = 2) as Hys by lia.
  destruct Hxs as [->|[->|[->| ->]]], Hys as [->|[->| ->]]; by vm_compute.
Qed.

Lemma sample_palette_of : palette_of sample_palette sample_src.
Proof.
  split; [exact (foldl_insert_ok (pb_data sample_src) new_palette new_palette_ok)|]. right.
  assert ((counts sample_palette).*1 = [7; 9; 5]) as -> by by vm_compute. intros c. split.
  - intros [->|[->|[->|[]%not_elem_of_nil]%list.elem_of_cons]%list.elem_of_cons]%list.elem_of_cons.
    + exists 0, 0. unfold in_image. cbn. split; [lia|done].
    + exists 1, 1. unfold in_image. cbn. split; [lia|done].
    + exists 0, 2. unfold in_image. cbn. split; [lia|done].
  - intros (x & y & [Hx Hy] & <-). cbn in Hx, Hy.
    assert (x = 0 \/ x = 1 \/ x = 2 \/ x = 3) as Hxs by lia. assert (y = 0 \/ y = 1 \/ y = 2) as Hys by lia.
    destruct Hxs as [->|[->|[->| ->]]], Hys as [->|[->| ->]]; vm_compute; set_solver.
Qed.

Lemma sample_target : target (rect 1 1 5 4) sample_src sample_pb.
Proof. split; [unfold pb_wf; split_and!; by vm_compute|]. by split_and!. Qed.

Lemma rre_roundtrip_witness : exists bs pb', rre_writeRect 1 sample_src sample_palette = Ok bs /\
  rre_decodeRect 1 (rect 1 1 5 4) (bs, sample_pb) = (Ok tt, ([], pb')) /\ pb_at pb' 1 3 = 5 /\ pb_at pb' 0 0 = 1 /\ len bs = 32.
Proof.
  destruct (rre_roundtrip 1 sample_src sample_pb (rect 1 1 5 4) sample_palette sample_source sample_palette_of sample_target) as (bs & pb' & He & Hd & _ & _ & Hat).
  exists bs, pb'. split; [exact He|]. split; [exact Hd|]. split; [exact (Hat 1 3 ltac:(cbn; lia) ltac:(cbn; lia))|].
  split; [exact (Hat 0 0 ltac:(cbn; lia) ltac:(cbn; lia))|]. vm_compute in He. injection He as <-. reflexivity.
Defined.

(** What holds of the pixels holds of the list. *)
Lemma image_forall (P : Z -> Prop) w h image : 0 < w -> len image = w * h ->
  (forall x y, in_image w h x y -> P (pixel_at w image x y)) -> Forall P image.
Proof.
  intros Hw Hl H. apply Forall_lookup. intros i p Hi. pose proof (lookup_lt_Some _ _ _ Hi) as Hlt.
  pose proof (Z.div_mod (Z.of_nat i) w ltac:(lia)) as Hd. pose proof (Z.mod_pos_bound (Z.of_nat i) w Hw) as Hm.
  set (x := Z.of_nat i mod w) in *. set (y := Z.of_nat i / w) in *. unfold len in Hl.
  assert (in_image w h x y) as Hin by (unfold in_image; nia). specialize (H x y Hin). unfold pixel_at in H.
  replace (x + y * w) with (Z.of_nat i) in H by lia. by rewrite znth_lookup, Nat2Z.id, Hi in H by lia.
Qed.

(** Raw sends the pixels as they are. *)
Lemma concat_opaque size (rows : list (list Z)) :
  concat (map (fun row => concat (map (opaque size) row)) rows) = concat (map (opaque size) (concat rows)).
Proof. induction rows as [|row rows IH]; [done|]. cbn [map concat]. by rewrite map_app, concat_app, IH. Qed.

Lemma raw_roundtrip (size : nat) (src pb : pixbuf) (r : Rect) : source size src -> target r src pb ->
  exists pb', raw_decodeRect size r (raw_writeRect size src, pb) = (Ok tt, ([], pb')) /\ drawn r src pb pb'.
Proof.
  intros (Ws & Hw & Hh & _ & Hpix) (W & He & Hrw & Hrh).
  destruct (source_image src Ws) as (image & Himg & Hl & Hat).
  assert (raw_writeRect size src = concat (map (opaque size) image)) as ->.
  { unfold getImage, getBuffer in Himg. rewrite full_rect in Himg by done. cbn in Himg. injection Himg as <-.
    unfold raw_writeRect. rewrite concat_opaque. unfold pb_offset, width, height. cbn. by rewrite !Z.sub_0_r. }
  assert (length image = Z.to_nat (area r)) as Hlen.
  { unfold area. rewrite (proj2 (is_empty_false r)) by (unfold width, height in *; lia). unfold len, width, height in *. nia. }
  destruct (imageRect_ok pb W r image (width r) He) as (pb' & Hi & W' & Hr' & Hat'); [lia|lia|intros; nia|].
  exists pb'. split.
  - unfold raw_decodeRect. rewrite <- Hlen. eapply run_bind.
    + rewrite <- (app_nil_r (concat _)). apply mem_readPixels_app. eapply image_forall; [|exact Hl|]; [lia|].
      intros x y Hin. rewrite Hat by done. by apply Hpix.
    + apply on_pb_ok. unfold imageRect in *. rewrite He in *. cbn [negb mbind res_bind getBuffer] in *.
      by rewrite (proj2 (Z.eqb_neq (width r) 0)) in Hi by lia.
  - split; [done|]. split; [done|]. intros x y Hx Hy. rewrite Hat' by done. rewrite contains_at. case_test; [|done].
    bool_decide_hyps. rewrite Hrw. apply Hat. unfold in_image. lia.
Qed.
