(* ===== verification/Tiles.v ===== *)
(** * Encodings made of tiles

    Hextile and ZRLE cut a rectangle into tiles, row by row, and encode them one
    after the other with some state in between ([rfb/HextileEncoder.cxx],
    [rfb/HextileDecoder.cxx], [rfb/ZRLEEncoder.cxx], [rfb/ZRLEDecoder.cxx]).
    [tiled_roundtrip] reduces their round trips to that of a tile. *)
From stdpp Require Import base sets numbers strings option list sorting.
From S2P Require Import Prelude Geometry Pixels RRE.
#[local] Open Scope Z_scope.

(** [for (z = a; z < b; z += k)] *)
Definition steps (k a b : Z) : list Z := map (fun i => a + k * i) (seqZ 0 ((b - a + k - 1) / k)).

(** The two loops over a rectangle. *)
Definition cut (kx ky : Z) (r : Rect) : list Rect :=
  concat (map (fun y => map (fun x => rect x y (Z.min (px (br r)) (x + kx)) (Z.min (py (br r)) (y + ky)))
                          (steps kx (px (tl r)) (px (br r))))
            (steps ky (py (tl r)) (py (br r)))).
Definition tiles (k : Z) : Rect -> list Rect := cut k k.

Lemma steps_spec k a b z : 0 < k -> z ∈ steps k a b <-> exists i, z = a + k * i /\ 0 <= i /\ z < b.
Proof.
  intros Hk. unfold steps. rewrite list_elem_of_fmap. split.
  - intros (i & -> & Hi%elem_of_seqZ). exists i. split; [done|]. split; [lia|].
    assert (k * (i + 1) <= b - a + k - 1); [|lia]. pose proof (Z.mul_div_le (b - a + k - 1) k Hk). nia.
  - intros (i & -> & Hi & Hz). exists i. split; [done|]. apply elem_of_seqZ. split; [done|].
    assert (i + 1 <= (b - a + k - 1) / k); [|lia]. apply Z.div_le_lower_bound; lia.
Qed.

Lemma steps_cover k a b z : 0 < k -> a <= z < b -> exists s, s ∈ steps k a b /\ s <= z < s + k.
Proof.
  intros Hk Hz. exists (a + k * ((z - a) / k)). pose proof (Z.mul_div_le (z - a) k Hk). pose proof (Z.mul_succ_div_gt (z - a) k Hk).
  split; [|lia]. apply steps_spec; [done|]. exists ((z - a) / k). split; [done|]. split; [apply Z.div_pos; lia|lia].
Qed.

Lemma steps_shift k a b d : steps k (a + d) (b + d) = map (fun z => z + d) (steps k a b).
Proof.
  unfold steps. rewrite map_map. replace (b + d - (a + d) + k - 1) with (b - a + k - 1) by lia. apply map_ext. intros; lia.
Qed.

Lemma len_steps k a b : 0 < k -> a <= b -> len (steps k a b) = (b - a + k - 1) / k.
Proof. intros Hk Hab. unfold steps. rewrite len_map. unfold len. rewrite length_seqZ. apply Z2Nat.id, Z.div_pos; lia. Qed.

Section cut.
Context (kx ky : Z) (Hkx : 0 < kx) (Hky : 0 < ky).

Lemma cut_form r t : t ∈ cut kx ky r -> exists x y,
  t = rect x y (Z.min (px (br r)) (x + kx)) (Z.min (py (br r)) (y + ky)) /\ px (tl r) <= x < px (br r) /\ py (tl r) <= y < py (br r).
Proof.
  unfold cut. intros Hin. apply list_elem_of_In, in_concat in Hin as (l & Hl & Hin).
  apply in_map_iff in Hl as (y & <- & Hy). apply in_map_iff in Hin as (x & <- & Hx).
  apply list_elem_of_In, steps_spec in Hx as (i & Hx & Hi & Hxb); [|done]. apply list_elem_of_In, steps_spec in Hy as (j & Hy & Hj & Hyb); [|done].
  exists x, y. split; [done|nia].
Qed.
Lemma cut_spec r t : t ∈ cut kx ky r ->
  px (tl r) <= px (tl t) /\ py (tl r) <= py (tl t) /\ px (br t) <= px (br r) /\ py (br t) <= py (br r) /\
  0 < width t <= kx /\ 0 < height t <= ky.
Proof. intros (x & y & -> & Hx & Hy)%cut_form. unfold width, height. cbn. lia. Qed.

Lemma cut_cover r x y : contains r (MkPoint x y) = true -> exists t, t ∈ cut kx ky r /\ contains t (MkPoint x y) = true.
Proof.
  intros (Hx & Hy)%contains_spec. destruct (steps_cover kx (px (tl r)) (px (br r)) x Hkx ltac:(lia)) as (sx & Hsx & Hxs).
  destruct (steps_cover ky (py (tl r)) (py (br r)) y Hky ltac:(lia)) as (sy & Hsy & Hys).
  exists (rect sx sy (Z.min (px (br r)) (sx + kx)) (Z.min (py (br r)) (sy + ky))). split.
  - apply list_elem_of_In, in_concat. eexists. split; [apply in_map_iff; exists sy; split; [reflexivity|by apply list_elem_of_In]|].
    apply in_map_iff. exists sx. split; [done|by apply list_elem_of_In].
  - apply contains_spec. cbn. lia.
Qed.

Lemma len_cut r : 0 <= width r -> 0 <= height r -> len (cut kx ky r) = (width r + (kx - 1)) / kx * ((height r + (ky - 1)) / ky).
Proof.
  intros Hw Hh. unfold width, height in *. unfold cut.
  assert (forall ys, len (concat (map (fun y => map (fun x => rect x y (Z.min (px (br r)) (x + kx)) (Z.min (py (br r)) (y + ky))) (steps kx (px (tl r)) (px (br r)))) ys)) =
    len (steps kx (px (tl r)) (px (br r))) * len ys) as Hys.
  { induction ys as [|y ys IH]; [unfold len; cbn; lia|]. cbn [map concat]. rewrite len_app, len_map, IH, len_cons. lia. }
  rewrite Hys, !len_steps by lia. f_equal; f_equal; lia.
Qed.
End cut.

Section tiles.
Context (k : Z) (Hk : 0 < k).
Lemma tiles_spec r t : t ∈ tiles k r ->
  px (tl r) <= px (tl t) /\ py (tl r) <= py (tl t) /\ px (br t) <= px (br r) /\ py (br t) <= py (br r) /\
  0 < width t <= k /\ 0 < height t <= k.
Proof. by apply cut_spec. Qed.
Lemma tiles_cover r x y : contains r (MkPoint x y) = true -> exists t, t ∈ tiles k r /\ contains t (MkPoint x y) = true.
Proof. by apply cut_cover. Qed.
Lemma len_tiles r : 0 <= width r -> 0 <= height r -> len (tiles k r) = (width r + (k - 1)) / k * ((height r + (k - 1)) / k).
Proof. by apply len_cut. Qed.

(** The tiles of a rectangle are those of one at the origin, moved. *)
Lemma tiles_translate r d : tiles k (translate r d) = map (fun t => translate t d) (tiles k r).
Proof.
  unfold tiles, cut. cbn [translate tl br pt_translate px py]. rewrite !steps_shift, map_map, concat_map, map_map. f_equal. apply map_ext. intros y.
  rewrite !map_map. apply map_ext. intros x. unfold translate, rect, pt_translate. cbn. repeat f_equal; lia.
Qed.

(** ** A codec of tiles *)

Section codec.
Context {E D : Type} (enc : E -> Z -> Z -> list Z -> E * list Z) (dec : D -> Rect -> SE (list Z * pixbuf) D).

(** What the encoder writes. *)
Fixpoint encode_tiles (src : pixbuf) (ts : list Rect) (e : E) : res (E * list Z) :=
  match ts with
  | [] => Ok (e, [])
  | t :: ts =>
      image ← getImage src t;
      let '(e, bs) := enc e (width t) (height t) image in
      '(e, bs') ← encode_tiles src ts e;
      mret (e, bs ++ bs')
  end.

Fixpoint decode_tiles (ts : list Rect) (d : D) : SE (list Z * pixbuf) D :=
  match ts with
  | [] => mret d
  | t :: ts => d ← dec d t; decode_tiles ts d
  end.

(** What makes the two fit: states that are related stay so, and the tile is
    drawn. *)
Definition tile_drawn (t : Rect) (image : list Z) (pb pb' : pixbuf) : Prop :=
  pb_wf pb' /\ getRect pb' = getRect pb /\ forall x y, 0 <= x < pb_width pb -> 0 <= y < pb_height pb ->
    pb_at pb' x y = if contains t (MkPoint x y) then pixel_at (width t) image (x - px (tl t)) (y - py (tl t)) else pb_at pb x y.

Context (size : nat) (rel : E -> D -> Prop) (P : Z -> Prop).
Context (dec_enc : forall e d t pb image rest, rel e d -> pb_wf pb -> enclosed_by t (getRect pb) = true ->
  0 < width t <= k -> 0 < height t <= k -> len image = width t * height t -> Forall P image ->
  let '(e', bs) := enc e (width t) (height t) image in
  exists d' pb', dec d t (bs ++ rest, pb) = (Ok d', (rest, pb')) /\ rel e' d' /\ tile_drawn t image pb pb').

Lemma enclosed_trans t r R : enclosed_by r R = true ->
  px (tl r) <= px (tl t) -> py (tl r) <= py (tl t) -> px (br t) <= px (br r) -> py (br t) <= py (br r) -> enclosed_by t R = true.
Proof. unfold enclosed_by. intros H. bool_decide_hyps. intros. rewrite !andb_true_iff, !Z.geb_le, !Z.leb_le. lia. Qed.

Lemma some_contains ts p : existsb (fun t => contains t p) ts = true <-> exists t, t ∈ ts /\ contains t p = true.
Proof. rewrite existsb_exists. split; intros (t & Ht & Hc); exists t; (split; [by apply list_elem_of_In|done]). Qed.

Lemma encode_tiles_ok src ts : pb_wf src -> (forall t, t ∈ ts -> enclosed_by t (getRect src) = true /\ 0 <= width t /\ 0 <= height t) ->
  forall e, exists e' bs, encode_tiles src ts e = Ok (e', bs).
Proof.
  intros W. induction ts as [|t ts IH]; intros Hts e; [by eexists _, _|]. destruct (Hts t ltac:(by left)) as (Ht & Hw & Hh).
  destruct (getImage_ok src W t Ht Hw Hh) as (image & Hi & _). cbn [encode_tiles]. rewrite Hi. cbn [mbind res_bind].
  destruct (enc e (width t) (height t) image) as [e1 bs1]. destruct (IH ltac:(intros; apply Hts; by right) e1) as (e' & bs & ->).
  by eexists _, _.
Qed.

(** Any tiles inside the source. *)
Lemma tiles_drawn src o ts : source size src -> (forall x y, in_image (pb_width src) (pb_height src) x y -> P (pb_at src x y)) ->
  (forall t, t ∈ ts -> enclosed_by t (getRect src) = true /\ 0 < width t <= k /\ 0 < height t <= k) ->
  forall e e' bs, encode_tiles src ts e = Ok (e', bs) -> forall d rest pb, rel e d -> pb_wf pb ->
    (forall t, t ∈ ts -> enclosed_by (translate t o) (getRect pb) = true) ->
    exists d' pb', decode_tiles (map (fun t => translate t o) ts) d (bs ++ rest, pb) = (Ok d', (rest, pb')) /\ rel e' d' /\
      pb_wf pb' /\ getRect pb' = getRect pb /\ forall x y, 0 <= x < pb_width pb -> 0 <= y < pb_height pb ->
        pb_at pb' x y = if existsb (fun t => contains (translate t o) (MkPoint x y)) ts then pb_at src (x - px o) (y - py o) else pb_at pb x y.
Proof.
  intros HS Hpix. pose proof HS as (Ws & _). induction ts as [|t ts IH]; intros Hts e e' bs Henc d rest pb Hrel W Hin.
  - injection Henc as <- <-. exists d, pb. by split_and!.
  - destruct (Hts t ltac:(by left)) as (Het & Hwt & Hht). pose proof (enclosed_fits src t Het) as Hfit.
    destruct (getImage_ok src Ws t Het) as (image & Himg & Hl & Hat); [lia..|]. cbn [encode_tiles] in Henc. rewrite Himg in Henc. cbn [mbind res_bind] in Henc.
    assert (width (translate t o) = width t /\ height (translate t o) = height t) as [Hwo Hho] by (unfold width, height; cbn; lia).
    assert (Forall P image) as Hwf.
    { eapply (image_forall _ (width t) (height t)); [lia|done|]. intros x y [Hx Hy]. rewrite Hat by done. apply Hpix.
      unfold in_image, width, height in *. lia. }
    destruct (enc e (width t) (height t) image) as [e1 bs1] eqn:He1. destruct (encode_tiles src ts e1) as [[e2 bs2]|] eqn:He2; [|done].
    cbn in Henc. injection Henc as <- <-.
    pose proof (dec_enc e d (translate t o) pb image (bs2 ++ rest) Hrel W (Hin t ltac:(by left))) as Hde. rewrite Hwo, Hho, He1 in Hde.
    destruct (Hde Hwt Hht Hl Hwf) as (d1 & pb1 & Hd1 & Hrel1 & W1 & Hr1 & Hat1).
    destruct (IH ltac:(intros; apply Hts; by right) e1 e2 bs2 He2 d1 rest pb1 Hrel1 W1) as (d2 & pb2 & Hd2 & Hrel2 & W2 & Hr2 & Hat2).
    { intros t' Ht'. rewrite Hr1. apply Hin. by right. }
    exists d2, pb2. split; [cbn [map decode_tiles]; rewrite <- app_assoc; by eapply run_bind|]. split; [done|]. split; [done|].
    split; [by rewrite Hr2|]. intros x y Hx Hy.
    assert (pb_width pb1 = pb_width pb /\ pb_height pb1 = pb_height pb) as [Hw1 Hh1] by (by injection Hr1).
    rewrite Hat2 by lia. cbn [existsb]. destruct (existsb _ ts); [by rewrite orb_true_r|]. rewrite orb_false_r. rewrite Hat1 by done.
    destruct (contains (translate t o) (MkPoint x y)) eqn:Hc; [|done]. apply contains_spec in Hc. cbn in Hc.
    rewrite Hwo. change (px (tl (translate t o))) with (px (tl t) + px o). change (py (tl (translate t o))) with (py (tl t) + py o).
    rewrite Hat by (unfold width, height; lia). f_equal; lia.
Qed.

(** A rectangle cut into tiles. *)
Lemma tiled_roundtrip src pb r e d rest : source size src -> (forall x y, in_image (pb_width src) (pb_height src) x y -> P (pb_at src x y)) ->
  target r src pb -> rel e d ->
  exists e' bs d' pb', encode_tiles src (tiles k (getRect src)) e = Ok (e', bs) /\
    decode_tiles (tiles k r) d (bs ++ rest, pb) = (Ok d', (rest, pb')) /\ rel e' d' /\ drawn r src pb pb'.
Proof.
  intros HS Hpix (W & He & Hw & Hh) Hrel. pose proof HS as (Ws & Hws & Hhs & _). pose proof (full_rect src Ws) as Hfull.
  assert (r = translate (getRect src) (tl r)) as Hr.
  { destruct r as [[x0 y0] [x1 y1]]. unfold width, height in *. unfold translate, getRect, rect, pt_translate. cbn in *. repeat f_equal; lia. }
  assert (forall t, t ∈ tiles k (getRect src) -> enclosed_by t (getRect src) = true /\ 0 < width t <= k /\ 0 < height t <= k) as Hts.
  { intros t Ht. destruct (tiles_spec (getRect src) t Ht) as (H1 & H2 & H3 & H4 & H5 & H6). split; [by eapply enclosed_trans|done]. }
  destruct (encode_tiles_ok src (tiles k (getRect src)) Ws) with (e := e) as (e' & bs & Henc).
  { intros t Ht. destruct (Hts t Ht) as (H1 & H2 & H3). split; [done|lia]. }
  destruct (tiles_drawn src (tl r) (tiles k (getRect src)) HS Hpix Hts e e' bs Henc d rest pb Hrel W) as (d' & pb' & Hdec & Hrel' & W' & Hr' & Hat).
  { intros t Ht. destruct (tiles_spec (getRect src) t Ht) as (H1 & H2 & H3 & H4 & _). cbn in H1, H2, H3, H4.
    apply (enclosed_trans _ r); [done|..]; cbn; unfold width, height in *; lia. }
  exists e', bs, d', pb'. split; [done|]. rewrite <- tiles_translate, <- Hr in Hdec. split; [done|]. split; [done|]. split; [done|]. split; [done|].
  intros x y Hx Hy. rewrite Hat by done. replace (existsb _ _) with (contains r (MkPoint x y)); [done|]. symmetry.
  destruct (contains r (MkPoint x y)) eqn:Hc.
  - destruct (tiles_cover r x y Hc) as (t & Ht & Hct). rewrite Hr, tiles_translate in Ht. apply list_elem_of_fmap in Ht as (t0 & -> & Ht0).
    apply existsb_exists. exists t0. split; [by apply list_elem_of_In|done].
  - apply not_true_iff_false. intros (t & Ht%list_elem_of_In & Hct)%existsb_exists. apply not_true_iff_false in Hc. apply Hc.
    destruct (tiles_spec (getRect src) t Ht) as (H1 & H2 & H3 & H4 & _). apply contains_spec in Hct. apply contains_spec. cbn in *. unfold width, height in *. lia.
Qed.
End codec.
End tiles.

(** Drawing a tile with a buffer whose front is the picture. *)
Lemma draw_tile (t : Rect) (pb : pixbuf) (buf image rest : list Z) : pb_wf pb -> enclosed_by t (getRect pb) = true -> 0 < width t -> 0 < height t ->
  width t * height t <= len buf -> (forall x y, in_image (width t) (height t) x y -> pixel_at (width t) buf x y = pixel_at (width t) image x y) ->
  exists pb', on_pb (imageRect t buf 0) (rest, pb) = (Ok tt, (rest, pb')) /\ tile_drawn t image pb pb'.
Proof.
  intros W He Hw Hh Hb Hat. destruct (imageRect_ok pb W t buf (width t) He) as (pb' & Hi & W' & Hr & Hd); [lia|lia|nia|].
  exists pb'. split.
  - apply on_pb_ok. unfold imageRect in *. rewrite He in *. cbn [negb mbind res_bind getBuffer] in *.
    by rewrite (proj2 (Z.eqb_neq (width t) 0)) in Hi by lia.
  - split; [done|]. split; [done|]. intros x y Hx Hy. rewrite Hd by done. rewrite contains_at. case_test; [|done].
    bool_decide_hyps. apply Hat. unfold in_image. lia.
Qed.

(** The pixels of a picture and its list. *)
Lemma image_elem w h image p : 0 < w -> len image = w * h -> p ∈ image -> exists x y, in_image w h x y /\ pixel_at w image x y = p.
Proof.
  intros Hw Hl Hin. apply list_elem_of_lookup in Hin as [i Hi]. pose proof (lookup_lt_Some _ _ _ Hi) as Hlt.
  pose proof (Z.div_mod (Z.of_nat i) w ltac:(lia)) as Hd. pose proof (Z.mod_pos_bound (Z.of_nat i) w Hw) as Hm. unfold len in Hl.
  exists (Z.of_nat i mod w), (Z.of_nat i / w). split; [unfold in_image; nia|]. unfold pixel_at.
  replace (Z.of_nat i mod w + Z.of_nat i / w * w) with (Z.of_nat i) by lia. by rewrite znth_lookup, Nat2Z.id, Hi by lia.
Qed.
Lemma pixel_elem w h image x y : 0 < w -> len image = w * h -> in_image w h x y -> pixel_at w image x y ∈ image.
Proof.
  intros Hw Hl [Hx Hy]. unfold pixel_at. rewrite znth_lookup by nia. destruct (lookup_lt_is_Some_2 image (Z.to_nat (x + y * w))) as [p Hp]; [unfold len in Hl; nia|].
  rewrite Hp. cbn. by eapply list_elem_of_lookup_2.
Qed.
