(* ===== verification/Hextile.v ===== *)
(** * Hextile ([rfb/HextileEncoder.cxx], [rfb/HextileDecoder.cxx])

    Tiles of 16 by 16 pixels, each a background and subrectangles or its raw
    pixels, with the background and the foreground kept from tile to tile.  Of
    the two encoders one scans a copy of the tile ([hextileEncode]), the other
    collects the subrectangles of all colours and leaves out those of the most
    common one ([HextileTile], [hextileEncodeBetter]). *)
From stdpp Require Import base sets numbers strings option list sorting.
From S2P Require Import Prelude InStream OutStream Strings PixelFmt Geometry Screens Params Clipboard ServerMsgs Decoders Pixels Palette RRE Tiles.
#[local] Open Scope Z_scope.

(** The two bytes of a subrectangle's place. *)
Definition coords (x y sw sh : Z) : list Z :=
  [u8 (Z.lor (Z.shiftl x 4) y); u8 (Z.lor (Z.shiftl (sw - 1) 4) (sh - 1))].

(** [oldBg] and [oldFg], where they are valid. *)
Definition hex_state : Type := option Z * option Z.

(** The last lines of the loop over the tiles, in both encoders. *)
Definition write_tile (size : nat) (tileType bg fg : Z) (encoded : list Z) : list Z :=
  writeU8 tileType ++
  (if has_flag tileType hextileBgSpecified then opaque size bg else []) ++
  (if has_flag tileType hextileFgSpecified then opaque size fg else []) ++
  (if has_flag tileType hextileAnySubrects then encoded else []).
Definition write_raw_tile (size : nat) (image : list Z) : list Z := writeU8 hextileRaw ++ concat (map (opaque size) image).

(** The background is sent when it is not the one of the tile before; a
    foreground likewise. *)
Definition specify (flag : Z) (old : option Z) (p tileType : Z) : Z :=
  if bool_decide (old = Some p) then tileType else Z.lor tileType flag.

(** ** [hextileEncode] *)

Fixpoint count_pixels (l : list Z) (pix1 pix2 count1 count2 : Z) : Z * Z * Z :=
  match l with
  | [] => (count1, count2, hextileAnySubrects)
  | p :: l =>
      if p =? pix1 then count_pixels l pix1 pix2 (count1 + 1) count2
      else if p =? pix2 then count_pixels l pix1 pix2 count1 (count2 + 1)
      else (count1, count2, Z.lor hextileAnySubrects hextileSubrectsColoured)
  end.

Definition testTileType (data : list Z) (w h : Z) : Z * Z * Z :=
  let pix1 := znth 0 data 0 in
  let i := count_while (Z.to_nat (w * h - 1)) (fun i => znth 0 data i =? pix1) 1 in
  if i =? w * h then (0, pix1, 0) else
  let pix2 := znth 0 data i in
  let '(count1, count2, tileType) := count_pixels (zdrop (i + 1) data) pix1 pix2 i 1 in
  if count1 >=? count2 then (tileType, pix1, pix2) else (tileType, pix2, pix1).

(** No more than the raw pixels would take; the number of subrects is a byte. *)
Definition hextileEncodeTile (size : nat) (data : list Z) (w h tileType bg : Z) : option (list Z) :=
  let full := w * h * Z.of_nat size in
  let emit '(n, encoded) s :=
    encoded ← (if has_flag tileType hextileSubrectsColoured then
                 if 1 + len encoded + Z.of_nat size >? full then None else Some (encoded ++ opaque size (s_pix s))
               else Some encoded);
    if 1 + len encoded + 2 >? full then None
    else Some (u8 (n + 1), encoded ++ coords (s_x s) (s_y s) (s_w s) (s_h s)) in
  '(n, encoded) ← scan w h bg (horiz w h) emit data (0, []);
  Some (n :: encoded).

(** A tile of [hextileEncode]. *)
Definition hextileEncode (size : nat) (st : hex_state) (w h : Z) (image : list Z) : hex_state * list Z :=
  let '(oldBg, oldFg) := st in
  let '(tileType, bg, fg) := testTileType image w h in
  let tileType := specify hextileBgSpecified oldBg bg tileType in
  if has_flag tileType hextileAnySubrects then
    let '(tileType, oldFg) :=
      if has_flag tileType hextileSubrectsColoured then (tileType, None)
      else (specify hextileFgSpecified oldFg fg tileType, Some fg) in
    match hextileEncodeTile size image w h tileType bg with
    | None => ((None, None), write_raw_tile size image)
    | Some encoded => ((Some bg, oldFg), write_tile size tileType bg fg encoded)
    end
  else ((Some bg, oldFg), write_tile size tileType bg fg []).

(** ** [HextileTile] *)

(** What [analyze] finds: [m_colors] and [m_coords] as one list. *)
Record hextile_tile := MkTile {
  m_flags : Z;
  m_size : Z;
  m_background : Z;
  m_foreground : Z;
  m_subs : list (Z * list Z)
}.

(** The body of the loops over the tile, from [(x, y)] to the end of the row;
    none when there are too many colours.  [m_processed] has 16 pixels in a
    row. *)
Fixpoint analyze_row (fuel : nat) (size : nat) (w h : Z) (tile : list Z) (x y : Z) (processed : list Z) (subs : list (Z * list Z)) (pal : palette) :
    option (list Z * list (Z * list Z) * palette) :=
  match fuel with
  | O => Some (processed, subs, pal)
  | S fuel =>
      if x <? w then
        if z2b (znth 0 processed (y * 16 + x)) then analyze_row fuel size w h tile (x + 1) y processed subs pal
        else
          let color := znth 0 tile (y * w + x) in
          let '(sw, sh) := horiz w h tile (y * w + x) x y in
          let subs := subs ++ [(color, coords x (Z.land y 0x0F) sw (Z.land (sh - 1) 0x0F + 1))] in
          let '(ok, pal) := pal_insert color 1 pal in
          if negb ok || (pal_size pal >? 48 + 2 * Z.of_nat size * 8) then None else
          let processed := put_rows (replicate (Z.to_nat (sh - 1)) (replicate (Z.to_nat sw) 1)) ((y + 1) * 16 + x) 16 processed in
          analyze_row fuel size w h tile (x + sw) y processed subs pal
      else Some (processed, subs, pal)
  end.
Fixpoint analyze_rows (n : nat) (size : nat) (w h : Z) (tile : list Z) (y : Z) (processed : list Z) (subs : list (Z * list Z)) (pal : palette) :
    option (list (Z * list Z) * palette) :=
  match n with
  | O => Some (subs, pal)
  | S n =>
      '(processed, subs, pal) ← analyze_row (Z.to_nat w) size w h tile 0 y processed subs pal;
      analyze_rows n size w h tile (y + 1) processed subs pal
  end.

Definition analyze (size : nat) (tile : list Z) (w h : Z) : hextile_tile :=
  let color := znth 0 tile 0 in
  let i := count_while (Z.to_nat (w * h - 1)) (fun i => znth 0 tile i =? color) 1 in
  if i =? w * h then MkTile 0 0 color 0 [] else
  let y := i / w in
  let '(subs, pal) :=
    if y >? 0 then ([(color, coords 0 0 w (Z.land (y - 1) 0x0F + 1))], (pal_insert color 1 new_palette).2) else ([], new_palette) in
  match analyze_rows (Z.to_nat (h - y)) size w h tile y (replicate 256 0) subs pal with
  | None => MkTile hextileRaw 0 0 0 []
  | Some (subs, pal) =>
      let numSubrects := len subs - getCount pal 0 in
      if pal_size pal =? 2
      then MkTile hextileAnySubrects (1 + 2 * numSubrects) (getColour pal 0) (getColour pal 1) subs
      else MkTile (Z.lor hextileAnySubrects hextileSubrectsColoured) (1 + (2 + Z.of_nat size) * numSubrects) (getColour pal 0) 0 subs
  end.

(** [encode(dst)] *)
Definition tile_encode (size : nat) (t : hextile_tile) : list Z :=
  let subs := filter (fun s => s.1 <> m_background t) (m_subs t) in
  u8 (len subs) ::
  concat (map (fun s => (if has_flag (m_flags t) hextileSubrectsColoured then opaque size s.1 else []) ++ s.2) subs).

(** A tile of [hextileEncodeBetter]. *)
Definition hextileEncodeBetter (size : nat) (st : hex_state) (w h : Z) (image : list Z) : hex_state * list Z :=
  let '(oldBg, oldFg) := st in
  let tile := analyze size image w h in
  let tileType := m_flags tile in
  let encodedLen := m_size tile in
  if has_flag tileType hextileRaw || (encodedLen >=? w * h * Z.of_nat size) then ((None, None), write_raw_tile size image) else
  let bg := m_background tile in
  let tileType := specify hextileBgSpecified oldBg bg tileType in
  if has_flag tileType hextileAnySubrects then
    let '(tileType, fg, oldFg) :=
      if has_flag tileType hextileSubrectsColoured then (tileType, 0, None)
      else (specify hextileFgSpecified oldFg (m_foreground tile) tileType, m_foreground tile, Some (m_foreground tile)) in
    ((Some bg, oldFg), write_tile size tileType bg fg (tile_encode size tile))
  else ((Some bg, oldFg), write_tile size tileType bg 0 []).

(** ** The encoder *)

Definition hextile_writeRect (improvedHextile : bool) (size : nat) (pb : pixbuf) : res (list Z) :=
  '(_, bs) ← encode_tiles (if improvedHextile then hextileEncodeBetter size else hextileEncode size) pb (tiles 16 (getRect pb)) (None, None);
  mret bs.

Definition hextile_writeSolidRect (size : nat) (width height colour : Z) : list Z :=
  let tiles := (width + 15) / 16 * ((height + 15) / 16) in
  writeU8 hextileBgSpecified ++ opaque size colour ++ concat (replicate (Z.to_nat (tiles - 1)) (writeU8 0)).

(** ** The decoder *)

(** [bg], [fg] and [buf] of [hextileDecode]. *)
Record hex_dec := MkDec { d_bg : Z; d_fg : Z; d_buf : list Z }.
Definition new_hex_dec : hex_dec := MkDec 0 0 (replicate 256 0).

(** The subrectangles of a tile, painted in [buf]. *)
Fixpoint hex_subrects (n : nat) (size : nat) (tileType w : Z) (fg : Z) (buf : list Z) : SE (list Z * pixbuf) (Z * list Z) :=
  match n with
  | O => mret (fg, buf)
  | S n =>
      fg ← (if has_flag tileType hextileSubrectsColoured then mem_readPixel size else mret fg);
      xy ← mem_readU8;
      wh ← mem_readU8;
      let x := Z.land (Z.shiftr xy 4) 15 in
      let y := Z.land xy 15 in
      let sw := Z.land (Z.shiftr wh 4) 15 + 1 in
      let sh := Z.land wh 15 + 1 in
      if (x + sw >? 16) || (y + sh >? 16) then st_throw (protocol_error "Invalid Hextile coordinates") else
      hex_subrects n size tileType w fg (put_rows (replicate (Z.to_nat sh) (replicate (Z.to_nat sw) fg)) (y * w + x) w buf)
  end.

(** A tile of [hextileDecode]. *)
Definition hex_decode_tile (size : nat) (d : hex_dec) (t : Rect) : SE (list Z * pixbuf) hex_dec :=
  tileType ← mem_readU8;
  if has_flag tileType hextileRaw then
    pixels ← mem_readPixels size (Z.to_nat (area t));
    let buf := copy_to 0 pixels (d_buf d) in
    on_pb (imageRect t buf 0);;
    mret (MkDec (d_bg d) (d_fg d) buf)
  else
    bg ← (if has_flag tileType hextileBgSpecified then mem_readPixel size else mret (d_bg d));
    let buf := copy_to 0 (replicate (Z.to_nat (area t)) bg) (d_buf d) in
    fg ← (if has_flag tileType hextileFgSpecified then mem_readPixel size else mret (d_fg d));
    '(fg, buf) ← (if has_flag tileType hextileAnySubrects then
                    nSubrects ← mem_readU8;
                    hex_subrects (Z.to_nat nSubrects) size tileType (width t) fg buf
                  else mret (fg, buf));
    on_pb (imageRect t buf 0);;
    mret (MkDec bg fg buf).

Definition hextile_decodeRect (size : nat) (r : Rect) : SE (list Z * pixbuf) unit :=
  decode_tiles (hex_decode_tile size) (tiles 16 r) new_hex_dec;;
  mret tt.

(** ** The decoder of a tile *)

Lemma coords_eq x y sw sh : 0 <= x < 16 -> 0 <= y < 16 -> 1 <= sw <= 16 -> 1 <= sh <= 16 ->
  coords x y sw sh = writeU8 (16 * x + y) ++ writeU8 (16 * (sw - 1) + (sh - 1)).
Proof.
  intros. unfold coords. rewrite !lor_shiftl_add by (cbn; lia). rewrite !writeU8_eq. change (2 ^ 4) with 16. cbn [app].
  by rewrite (Z.mul_comm x), (Z.mul_comm (sw - 1)).
Qed.
Lemma nibbles a b : 0 <= a < 16 -> 0 <= b < 16 -> Z.land (Z.shiftr (16 * a + b) 4) 15 = a /\ Z.land (16 * a + b) 15 = b.
Proof.
  intros. change 15 with (Z.ones 4). rewrite !land_mask, shiftr_div by lia. change (2 ^ 4) with 16. zlia.
Qed.
Lemma len_coords x y sw sh : len (coords x y sw sh) = 2.
Proof. done. Qed.

Lemma run_same {S A B} (m1 m2 : SE S A) (f : A -> SE S B) s1 s2 : m1 s1 = m2 s2 -> (m1 ≫= f) s1 = (m2 ≫= f) s2.
Proof. intros H. unfold mbind, SE_bind. by rewrite H. Qed.

(** The bytes of a subrectangle. *)
Definition sub_bytes (size : nat) (coloured : bool) (s : subrect) : list Z :=
  (if coloured then opaque size (s_pix s) else []) ++ coords (s_x s) (s_y s) (s_w s) (s_h s).
Definition subs_bytes (size : nat) (coloured : bool) (R : list subrect) : list Z := writeU8 (len R) ++ concat (map (sub_bytes size coloured) R).

(** In a tile. *)
Definition sub_in (w h : Z) (s : subrect) : Prop :=
  0 <= s_x s /\ 1 <= s_w s /\ s_x s + s_w s <= w /\ 0 <= s_y s /\ 1 <= s_h s /\ s_y s + s_h s <= h.

Section decoder.
Context (size : nat) (w h : Z) (Hw : 0 < w <= 16) (Hh : 0 < h <= 16).

Lemma hex_subrects_ok tileType R : forall fg buf rest pb, len buf = 256 ->
  Forall (fun s => sub_in w h s /\ pixel_wf size (s_pix s) /\ (has_flag tileType hextileSubrectsColoured = false -> s_pix s = fg)) R ->
  exists fg' buf', hex_subrects (length R) size tileType w fg buf
      (concat (map (sub_bytes size (has_flag tileType hextileSubrectsColoured)) R) ++ rest, pb) = (Ok (fg', buf'), (rest, pb)) /\
    len buf' = 256 /\ (has_flag tileType hextileSubrectsColoured = false -> fg' = fg) /\
    forall x y, in_image w h x y -> pixel_at w buf' x y = foldl (fun p s => if inside s x y then s_pix s else p) (pixel_at w buf x y) R.
Proof.
  induction R as [|s R IH]; intros fg buf rest pb Hbuf HR; [by exists fg, buf|].
  apply Forall_cons in HR as [((Hx & Hsw & Hxw & Hy & Hsh & Hyh) & Hp & Hfg) HR]. cbn [map concat length hex_subrects].
  set (c := has_flag tileType hextileSubrectsColoured) in *.
  set (buf1 := put_rows (replicate (Z.to_nat (s_h s)) (replicate (Z.to_nat (s_w s)) (s_pix s))) (s_y s * w + s_x s) w buf).
  destruct (put_rows_at (s_w s) w (s_x s) Hx ltac:(lia) Hxw (replicate (Z.to_nat (s_h s)) (replicate (Z.to_nat (s_w s)) (s_pix s))) (s_y s) buf Hy) as [Hlen Hat].
  { apply Forall_replicate. rewrite len_replicate. lia. }
  { rewrite len_replicate. intros. nia. }
  rewrite len_replicate in Hat. replace (s_x s + s_y s * w) with (s_y s * w + s_x s) in Hlen, Hat by lia. fold buf1 in Hlen, Hat.
  destruct (IH (s_pix s) buf1 rest pb ltac:(lia)) as (fg' & buf' & Hrun & Hl' & Hfg' & Hat').
  { eapply Forall_impl; [exact HR|]. cbn. intros s' (H1 & H2 & H3). split; [done|]. split; [done|]. intros Hc. rewrite H3, Hfg by done. done. }
  exists fg', buf'. split; [|split; [done|split; [intros Hc; rewrite Hfg', Hfg by done; done|]]].
  - rewrite <- app_assoc. unfold sub_bytes at 1. fold c. rewrite coords_eq by lia. rewrite <- !app_assoc.
    eapply (run_bind _ _ _ (s_pix s) (writeU8 (16 * s_x s + s_y s) ++ writeU8 (16 * (s_w s - 1) + (s_h s - 1)) ++ concat (map (sub_bytes size c) R) ++ rest, pb)).
    { destruct c; [by apply mem_readPixel_app|]. rewrite Hfg by done. done. }
    eapply run_bind; [apply mem_readU8_app; lia|]. eapply run_bind; [apply mem_readU8_app; lia|]. cbv zeta.
    destruct (nibbles (s_x s) (s_y s)) as [-> ->]; [lia..|]. destruct (nibbles (s_w s - 1) (s_h s - 1)) as [-> ->]; [lia..|].
    rewrite !Z.sub_add. rewrite Z.gtb_ltb, (proj2 (Z.ltb_ge _ _)) by lia. rewrite Z.gtb_ltb, (proj2 (Z.ltb_ge _ _)) by lia. exact Hrun.
  - intros x y Hxy. rewrite Hat' by done. cbn [foldl]. f_equal. unfold in_image in Hxy. rewrite Hat by lia.
    unfold inside. rewrite Z2Nat.id by lia. rewrite andb_comm. case_test; [|done]. bool_decide_hyps.
    rewrite (znth_replicate []), znth_replicate by lia. done.
Qed.

Lemma pixels_front (image buf : list Z) x y : len image = w * h -> len buf = 256 -> in_image w h x y ->
  pixel_at w (copy_to 0 image buf) x y = pixel_at w image x y.
Proof.
  intros Hi Hb [Hx Hy]. unfold pixel_at. rewrite znth_copy_to by nia. rewrite (proj2 (Z.leb_le _ _)), (proj2 (Z.ltb_lt _ _)) by nia.
  cbn [andb]. f_equal. lia.
Qed.

Context (t : Rect) (pb : pixbuf) (W : pb_wf pb) (He : enclosed_by t (getRect pb) = true) (Htw : width t = w) (Hth : height t = h).

Lemma area_tile : area t = w * h.
Proof. unfold area. rewrite (proj2 (is_empty_false t)) by (unfold width, height in *; lia). by unfold width, height in *; subst. Qed.

Lemma decode_raw_tile d (image rest : list Z) : len (d_buf d) = 256 -> len image = w * h -> Forall (pixel_wf size) image ->
  exists buf' pb', hex_decode_tile size d t (write_raw_tile size image ++ rest, pb) = (Ok (MkDec (d_bg d) (d_fg d) buf'), (rest, pb')) /\
    len buf' = 256 /\ tile_drawn t image pb pb'.
Proof.
  intros Hb Hl Hpix. assert (len (copy_to 0 image (d_buf d)) = 256) as Hlc by (rewrite len_copy_to by nia; done).
  destruct (draw_tile t pb (copy_to 0 image (d_buf d)) image rest W He) as (pb' & Hdraw & Htd); [lia|lia|rewrite Hlc; nia|rewrite Htw, Hth|].
  { intros x y Hxy. by apply pixels_front. }
  exists (copy_to 0 image (d_buf d)), pb'. split; [|by split]. unfold hex_decode_tile, write_raw_tile. rewrite <- app_assoc.
  eapply run_bind; [by apply mem_readU8_app|]. change (has_flag hextileRaw hextileRaw) with true. cbv iota.
  eapply run_bind. { replace (Z.to_nat (area t)) with (length image) by (rewrite area_tile; unfold len in Hl; lia). by apply mem_readPixels_app. }
  cbv zeta. eapply run_bind; [exact Hdraw|]. done.
Qed.

(** A tile of a background and subrectangles. *)
Lemma decode_sub_tile d (image rest : list Z) tileType bg fg R : len (d_buf d) = 256 -> 0 <= tileType < 256 ->
  has_flag tileType hextileRaw = false -> pixel_wf size bg ->
  (has_flag tileType hextileBgSpecified = false -> d_bg d = bg) ->
  (if has_flag tileType hextileAnySubrects then
     len R < 256 /\ Forall (fun s => sub_in w h s /\ pixel_wf size (s_pix s) /\ (has_flag tileType hextileSubrectsColoured = false -> s_pix s = fg)) R /\
     (if has_flag tileType hextileFgSpecified then pixel_wf size fg else has_flag tileType hextileSubrectsColoured = false -> d_fg d = fg)
   else R = [] /\ has_flag tileType hextileFgSpecified = false) ->
  (forall x y, in_image w h x y -> painted bg R x y = pixel_at w image x y) ->
  exists fg' buf' pb', hex_decode_tile size d t
      (write_tile size tileType bg fg (subs_bytes size (has_flag tileType hextileSubrectsColoured) R) ++ rest, pb) = (Ok (MkDec bg fg' buf'), (rest, pb')) /\
    len buf' = 256 /\ tile_drawn t image pb pb' /\
    (if has_flag tileType hextileAnySubrects then has_flag tileType hextileSubrectsColoured = false -> fg' = fg else fg' = d_fg d).
Proof.
  intros Hb HT Hraw Hbgwf Hbg HR Himg.
  set (buf0 := copy_to 0 (replicate (Z.to_nat (area t)) bg) (d_buf d)).
  assert (len buf0 = 256) as Hb0 by (unfold buf0; rewrite len_copy_to; [done|done|rewrite len_replicate, area_tile; nia]).
  assert (forall x y, in_image w h x y -> pixel_at w buf0 x y = bg) as Hat0.
  { intros x y Hxy. unfold buf0. rewrite pixels_front; [|rewrite len_replicate, area_tile; nia|done|done].
    unfold in_image in Hxy. unfold pixel_at. apply znth_replicate. rewrite area_tile. nia. }
  assert (exists fg1, (fg ← (if has_flag tileType hextileFgSpecified then mem_readPixel size else mret (d_fg d));
      '(fg, buf) ← (if has_flag tileType hextileAnySubrects then
                    nSubrects ← mem_readU8; hex_subrects (Z.to_nat nSubrects) size tileType (width t) fg buf0
                  else mret (fg, buf0));
      on_pb (imageRect t buf 0);; mret (MkDec bg fg buf))
      ((if has_flag tileType hextileFgSpecified then opaque size fg else []) ++
       (if has_flag tileType hextileAnySubrects then subs_bytes size (has_flag tileType hextileSubrectsColoured) R else []) ++ rest, pb) =
    ('(fg, buf) ← (if has_flag tileType hextileAnySubrects then
                    hex_subrects (length R) size tileType (width t) fg1 buf0
                  else mret (fg1, buf0));
      on_pb (imageRect t buf 0);; mret (MkDec bg fg buf))
      ((if has_flag tileType hextileAnySubrects then concat (map (sub_bytes size (has_flag tileType hextileSubrectsColoured)) R) else []) ++ rest, pb) /\
    (if has_flag tileType hextileAnySubrects then has_flag tileType hextileSubrectsColoured = false -> fg1 = fg else fg1 = d_fg d)) as (fg1 & Hsteps & Hfg1).
  { destruct (has_flag tileType hextileAnySubrects).
    - destruct HR as (HRl & _ & Hf). pose proof (len_nonneg R).
      assert (forall fg1, (nSubrects ← mem_readU8; hex_subrects (Z.to_nat nSubrects) size tileType (width t) fg1 buf0)
        (subs_bytes size (has_flag tileType hextileSubrectsColoured) R ++ rest, pb) =
        hex_subrects (length R) size tileType (width t) fg1 buf0 (concat (map (sub_bytes size (has_flag tileType hextileSubrectsColoured)) R) ++ rest, pb)) as Hn.
      { intros fg1. unfold subs_bytes. rewrite <- app_assoc. eapply run_bind; [apply mem_readU8_app; lia|]. unfold len. by rewrite Nat2Z.id. }
      destruct (has_flag tileType hextileFgSpecified).
      + exists fg. split; [|done]. eapply run_bind; [by apply mem_readPixel_app|]. apply run_same, Hn.
      + exists (d_fg d). split; [|done]. eapply run_bind; [done|]. apply run_same, Hn.
    - destruct HR as (_ & ->). exists (d_fg d). by split. }
  unfold hex_decode_tile, write_tile. rewrite <- !app_assoc.
  assert (exists fg' buf', (if has_flag tileType hextileAnySubrects then hex_subrects (length R) size tileType (width t) fg1 buf0 else mret (fg1, buf0))
      ((if has_flag tileType hextileAnySubrects then concat (map (sub_bytes size (has_flag tileType hextileSubrectsColoured)) R) else []) ++ rest, pb) =
      (Ok (fg', buf'), (rest, pb)) /\ len buf' = 256 /\ (forall x y, in_image w h x y -> pixel_at w buf' x y = pixel_at w image x y) /\
      (if has_flag tileType hextileAnySubrects then has_flag tileType hextileSubrectsColoured = false -> fg' = fg else fg' = d_fg d))
    as (fg' & buf' & Hsub & Hb' & Hat' & Hfg').
  { destruct (has_flag tileType hextileAnySubrects).
    - destruct HR as (_ & HR & _). destruct (hex_subrects_ok tileType R fg1 buf0 rest pb Hb0) as (fg' & buf' & Hrun & Hl & Hf & Hat).
      { eapply Forall_impl; [exact HR|]. cbn. intros s (H1 & H2 & H3). split; [done|]. split; [done|]. intros Hc. rewrite H3, Hfg1 by done. done. }
      exists fg', buf'. rewrite Htw. split; [done|]. split; [done|]. split; [|intros Hc; rewrite Hf, Hfg1 by done; done].
      intros x y Hxy. rewrite Hat, Hat0 by done. by apply Himg.
    - destruct HR as [-> _]. exists fg1, buf0. split; [done|]. split; [done|]. split; [|done]. intros x y Hxy. rewrite Hat0 by done. by apply Himg. }
  destruct (draw_tile t pb buf' image rest W He) as (pb' & Hdraw & Htd); [lia|lia|rewrite Hb'; nia|by rewrite Htw, Hth|].
  exists fg', buf', pb'. split; [|by split_and!].
  eapply run_bind; [by apply mem_readU8_app|]. rewrite Hraw.
  eapply (run_bind _ _ _ bg). { destruct (has_flag tileType hextileBgSpecified); [by apply mem_readPixel_app|]. by rewrite Hbg. }
  cbv zeta. fold buf0. rewrite Hsteps. eapply run_bind; [exact Hsub|]. cbv beta iota. eapply run_bind; [exact Hdraw|]. done.
Qed.
End decoder.

(** ** Tiles of either encoder *)

(** What the encoder remembers is what the decoder has. *)
Definition hex_rel (st : hex_state) (d : hex_dec) : Prop :=
  len (d_buf d) = 256 /\ (forall b, st.1 = Some b -> d_bg d = b) /\ (forall f, st.2 = Some f -> d_fg d = f).

(** [tileType] after the foreground, and the foreground remembered. *)
Definition with_fg (kind fg : Z) (oldFg : option Z) (tileType : Z) : Z :=
  if kind =? hextileAnySubrects then specify hextileFgSpecified oldFg fg tileType else tileType.
Definition fg_after (kind fg : Z) (oldFg : option Z) : option Z :=
  if kind =? 0 then oldFg else if kind =? hextileAnySubrects then Some fg else None.

Definition mixed : Z := Z.lor hextileAnySubrects hextileSubrectsColoured.

Lemma type_flags kind bg fg oldBg oldFg : kind = 0 \/ kind = hextileAnySubrects \/ kind = mixed ->
  let T := with_fg kind fg oldFg (specify hextileBgSpecified oldBg bg kind) in
  0 <= T < 256 /\ has_flag T hextileRaw = false /\ has_flag T hextileBgSpecified = negb (bool_decide (oldBg = Some bg)) /\
  has_flag T hextileFgSpecified = (kind =? hextileAnySubrects) && negb (bool_decide (oldFg = Some fg)) /\
  has_flag T hextileAnySubrects = negb (kind =? 0) /\ has_flag T hextileSubrectsColoured = (kind =? mixed).
Proof.
  intros [->|[->| ->]]; unfold with_fg, specify; destruct (bool_decide (oldBg = Some bg)), (bool_decide (oldFg = Some fg)); by vm_compute.
Qed.

Section tile.
Context (size : nat) (t : Rect) (pb : pixbuf) (W : pb_wf pb) (He : enclosed_by t (getRect pb) = true).
Context (Hw : 0 < width t <= 16) (Hh : 0 < height t <= 16).

Lemma raw_tile_ok st d image rest : hex_rel st d -> len image = width t * height t -> Forall (pixel_wf size) image ->
  exists d' pb', hex_decode_tile size d t (write_raw_tile size image ++ rest, pb) = (Ok d', (rest, pb')) /\ hex_rel (None, None) d' /\
    tile_drawn t image pb pb'.
Proof.
  intros (Hb & _ & _) Hl Hp. destruct (decode_raw_tile size _ _ Hw Hh t pb W He eq_refl eq_refl d image rest Hb Hl Hp) as (buf' & pb' & Hd & Hb' & Htd).
  eexists _, pb'. split; [exact Hd|]. split; [|done]. split; [done|]. by split.
Qed.

Lemma sub_tile_ok oldBg oldFg d kind bg fg R image rest : hex_rel (oldBg, oldFg) d -> kind = 0 \/ kind = hextileAnySubrects \/ kind = mixed ->
  pixel_wf size bg -> (kind = hextileAnySubrects -> pixel_wf size fg) ->
  (if kind =? 0 then R = [] else len R < 256 /\
     Forall (fun s => sub_in (width t) (height t) s /\ pixel_wf size (s_pix s) /\ (kind = hextileAnySubrects -> s_pix s = fg)) R) ->
  (forall x y, in_image (width t) (height t) x y -> painted bg R x y = pixel_at (width t) image x y) ->
  exists d' pb', hex_decode_tile size d t
      (write_tile size (with_fg kind fg oldFg (specify hextileBgSpecified oldBg bg kind)) bg fg (subs_bytes size (kind =? mixed) R) ++ rest, pb) = (Ok d', (rest, pb')) /\
    hex_rel (Some bg, fg_after kind fg oldFg) d' /\ tile_drawn t image pb pb'.
Proof.
  intros (Hb & Hbgs & Hfgs) Hk Hbg Hfg HR Himg. cbn [fst snd] in Hbgs, Hfgs.
  destruct (type_flags kind bg fg oldBg oldFg Hk) as (HT & Hraw & Fb & Ff & Fa & Fc). set (T := with_fg _ _ _ _) in *.
  destruct (decode_sub_tile size _ _ Hw Hh t pb W He eq_refl eq_refl d image rest T bg fg R Hb HT Hraw Hbg) as (fg' & buf' & pb' & Hd & Hb' & Htd & Hfg').
  - rewrite Fb. intros Hold. apply negb_false_iff, bool_decide_eq_true in Hold. by apply Hbgs.
  - rewrite Fa, Ff, Fc. destruct (Z.eqb_spec kind 0) as [->|Hk0]; cbn [negb]; [done|]. destruct HR as [HRl HR]. split; [done|]. split.
    + eapply Forall_impl; [exact HR|]. cbn. intros s (H1 & H2 & H3). split; [done|]. split; [done|]. intros Hc. apply H3.
      destruct Hk as [?|[?| ->]]; [done|done|]. by rewrite Z.eqb_refl in Hc.
    + destruct Hk as [?|[->| ->]]; [done| |by rewrite Z.eqb_refl]. rewrite Z.eqb_refl. cbn [andb].
      destruct (bool_decide (oldFg = Some fg)) eqn:Hold; cbn [negb]; [|by apply Hfg]. intros _. apply bool_decide_eq_true in Hold. by apply Hfgs.
  - exact Himg.
  - rewrite Fc in Hd. eexists _, pb'. split; [exact Hd|]. split; [|done]. split; [done|]. cbn [d_bg d_fg fst snd]. split; [by intros b [= ->]|].
    rewrite Fa, Fc in Hfg'. unfold fg_after. intros f. destruct (Z.eqb_spec kind 0) as [->|Hk0]; [intros ->; rewrite Hfg'; by apply Hfgs|].
    cbn [negb] in Hfg'. destruct (Z.eqb_spec kind hextileAnySubrects) as [->|]; [|done]. intros [= <-]. by apply Hfg'.
Qed.
End tile.

(** ** [hextileEncode] *)

Lemma count_pixels_type l pix1 pix2 : forall c1 c2, let r := count_pixels l pix1 pix2 c1 c2 in
  (r.2 = hextileAnySubrects /\ Forall (fun p => p = pix1 \/ p = pix2) l) \/ r.2 = mixed.
Proof.
  induction l as [|p l IH]; intros c1 c2; [by left|]. cbn [count_pixels]. destruct (Z.eqb_spec p pix1) as [->|H1].
  - destruct (IH (c1 + 1) c2) as [[Ht Hl]|Ht]; [left|by right]. split; [done|]. constructor; [by left|done].
  - destruct (Z.eqb_spec p pix2) as [->|H2]; [|by right]. destruct (IH c1 (c2 + 1)) as [[Ht Hl]|Ht]; [left|by right]. split; [done|]. constructor; [by right|done].
Qed.

Lemma testTileType_spec image w h : 0 < w * h -> len image = w * h ->
  let '(tileType, bg, fg) := testTileType image w h in
  bg ∈ image /\ ((tileType = 0 /\ Forall (fun p => p = bg) image) \/
    (tileType = hextileAnySubrects /\ fg ∈ image /\ Forall (fun p => p = bg \/ p = fg) image) \/ tileType = mixed).
Proof.
  intros Hp Hl. unfold testTileType. cbv zeta.
  destruct (count_while_spec (Z.to_nat (w * h - 1)) (fun i => znth 0 image i =? znth 0 image 0) 1) as (Hi & Hbefore & _).
  set (i := count_while _ _ 1) in *. set (pix1 := znth 0 image 0) in *.
  assert (forall j p, image !! j = Some p -> p = znth 0 image (Z.of_nat j)) as Hz.
  { intros j p Hj. rewrite znth_lookup, Nat2Z.id by lia. by rewrite Hj. }
  assert (forall j, 0 <= j < w * h -> znth 0 image j ∈ image) as Hin.
  { intros j Hj. rewrite znth_lookup by lia. destruct (lookup_lt_is_Some_2 image (Z.to_nat j)) as [p Hpj]; [unfold len in Hl; lia|].
    rewrite Hpj. by eapply list_elem_of_lookup_2. }
  assert (forall j p, image !! j = Some p -> Z.of_nat j < i -> p = pix1) as Hfront.
  { intros j p Hj Hlt. rewrite (Hz _ _ Hj). destruct (decide (j = 0)%nat) as [->|]; [done|]. apply Z.eqb_eq, Hbefore. lia. }
  destruct (Z.eqb_spec i (w * h)) as [Hend|Hend].
  - split; [by apply Hin|]. left. split; [done|]. apply Forall_lookup. intros j p Hj. apply (Hfront j p Hj).
    pose proof (lookup_lt_Some _ _ _ Hj). unfold len in Hl. lia.
  - pose proof (count_pixels_type (zdrop (i + 1) image) pix1 (znth 0 image i) i 1) as Hc.
    destruct (count_pixels _ _ _ _ _) as [[c1 c2] T]. cbn [snd] in Hc.
    assert (T = hextileAnySubrects -> Forall (fun p => p = pix1 \/ p = znth 0 image i) image) as Hall.
    { intros ->. destruct Hc as [[_ Hc]|?]; [|done]. apply Forall_lookup. intros j p Hj. destruct (Z.lt_trichotomy (Z.of_nat j) i) as [?|[He|?]].
      - left. by eapply Hfront.
      - right. by rewrite <- He, <- (Hz _ _ Hj).
      - apply (proj1 (Forall_forall _ _) Hc). apply list_elem_of_lookup. exists (j - Z.to_nat (i + 1))%nat. unfold zdrop. rewrite lookup_drop.
        by replace (Z.to_nat (i + 1) + (j - Z.to_nat (i + 1)))%nat with j by lia. }
    case_test.
    + split; [by apply Hin|]. right. destruct Hc as [[-> _]| ->]; [left|by right]. split; [done|]. split; [apply Hin; lia|by apply Hall].
    + split; [apply Hin; lia|]. right. destruct Hc as [[-> _]| ->]; [left|by right]. split; [done|]. split; [by apply Hin|].
      eapply Forall_impl; [by apply Hall|]. cbn. tauto.
Qed.

Lemma hextile_emitted size full (coloured : bool) R : forall n e n' e',
  emit_all (fun '(n, encoded) s =>
    encoded ← (if coloured then if 1 + len encoded + Z.of_nat size >? full then None else Some (encoded ++ opaque size (s_pix s)) else Some encoded);
    if 1 + len encoded + 2 >? full then None else Some (u8 (n + 1), encoded ++ coords (s_x s) (s_y s) (s_w s) (s_h s))) (n, e) R = Some (n', e') ->
  0 <= n -> n + len R < 256 -> n' = n + len R /\ e' = e ++ concat (map (sub_bytes size coloured) R).
Proof.
  induction R as [|s R IH]; intros n e n' e'; cbn [emit_all map concat].
  - intros [= <- <-] _ _. split; [unfold len; cbn; lia|by rewrite app_nil_r].
  - cbn [mbind option_bind]. intros H Hn Hl. rewrite len_cons in Hl. pose proof (len_nonneg R).
    destruct (if coloured then _ else _) as [e1|] eqn:He1; [|done]. cbn in H.
    destruct (1 + len e1 + 2 >? full); [done|]. cbn in H. rewrite u8_id in H by lia. apply IH in H as (-> & ->); [|lia..].
    assert (e1 = e ++ if coloured then opaque size (s_pix s) else []) as ->.
    { destruct coloured; [|by simplify_eq; rewrite app_nil_r]. destruct (1 + len e + Z.of_nat size >? full); [done|by simplify_eq]. }
    rewrite len_cons. split; [lia|]. unfold sub_bytes at 2. by rewrite <- !app_assoc.
Qed.

Lemma hextileEncodeTile_ok size image w h tileType bg encoded : 0 < w <= 16 -> 0 < h <= 16 -> len image = w * h -> bg ∈ image ->
  hextileEncodeTile size image w h tileType bg = Some encoded ->
  exists R, describes w h bg image R /\ len R < 256 /\ encoded = subs_bytes size (has_flag tileType hextileSubrectsColoured) R.
Proof.
  intros Hw Hh Hl Hbg. unfold hextileEncodeTile. cbv zeta.
  destruct (scan_describes w h bg (horiz w h) (horiz_finds w h) image) as (R & HR & Hscan); [lia..|]. rewrite Hscan.
  destruct (image_elem w h image bg) as (x & y & Hxy & Hat); [lia|done..|]. pose proof (describes_length _ _ _ _ R x y HR Hxy Hat) as HRl.
  assert (len R < 256) as HR256 by nia. intros H. exists R. split; [done|]. split; [done|].
  destruct (emit_all _ _ R) as [[n' e']|] eqn:He; [|done]. cbn in H. injection H as <-.
  apply hextile_emitted in He as [-> ->]; [|lia..]. unfold subs_bytes. by rewrite writeU8_eq, u8_id by (pose proof (len_nonneg R); lia).
Qed.

(** A scanned subrectangle in a tile. *)
Lemma described_subs w h bg image R size (Q : subrect -> Prop) : describes w h bg image R -> 0 < w -> 0 <= h -> len image = w * h -> Forall (pixel_wf size) image ->
  (forall s, s ∈ R -> s_pix s ∈ image -> s_pix s <> bg -> Q s) ->
  Forall (fun s => sub_in w h s /\ pixel_wf size (s_pix s) /\ Q s) R.
Proof.
  intros HR Hw Hh Hl Hp HQ. apply Forall_forall. intros s Hs. pose proof (proj1 (Forall_forall _ _) (de_subs _ _ _ _ _ HR) s Hs) as [Hx Hy Hc Hf].
  assert (s_pix s ∈ image) as Hin by (rewrite <- Hf; apply (pixel_elem w h); [done|done|unfold in_image; lia]).
  split; [unfold sub_in; lia|]. split; [by apply (proj1 (Forall_forall _ _) Hp)|by apply HQ].
Qed.

Lemma hextileEncode_tile size st d t pb image rest : hex_rel st d -> pb_wf pb -> enclosed_by t (getRect pb) = true ->
  0 < width t <= 16 -> 0 < height t <= 16 -> len image = width t * height t -> Forall (pixel_wf size) image ->
  let '(st', bs) := hextileEncode size st (width t) (height t) image in
  exists d' pb', hex_decode_tile size d t (bs ++ rest, pb) = (Ok d', (rest, pb')) /\ hex_rel st' d' /\ tile_drawn t image pb pb'.
Proof.
  intros Hrel W He Hw Hh Hl Hp. destruct st as [oldBg oldFg]. unfold hextileEncode.
  pose proof (testTileType_spec image (width t) (height t) ltac:(nia) Hl) as HT.
  destruct (testTileType image (width t) (height t)) as [[kind bg] fg]. destruct HT as [Hbg HT].
  assert (pixel_wf size bg) as Hbgwf by by apply (proj1 (Forall_forall _ _) Hp).
  assert (kind = 0 \/ kind = hextileAnySubrects \/ kind = mixed) as Hkind by tauto.
  assert (has_flag (specify hextileBgSpecified oldBg bg kind) hextileAnySubrects = negb (kind =? 0) /\
    has_flag (specify hextileBgSpecified oldBg bg kind) hextileSubrectsColoured = (kind =? mixed)) as [-> ->].
  { destruct Hkind as [->|[->| ->]]; unfold specify; destruct (bool_decide _); by vm_compute. }
  destruct (Z.eqb_spec kind 0) as [->|Hk]; cbn [negb].
  - destruct HT as [[_ Hall]|[[? _]|?]]; [|done..].
    pose proof (sub_tile_ok size t pb W He Hw Hh oldBg oldFg d 0 bg fg [] image rest Hrel Hkind Hbgwf) as Hs. unfold with_fg, fg_after in Hs. cbn [Z.eqb] in Hs.
    assert (write_tile size (specify hextileBgSpecified oldBg bg 0) bg fg [] = write_tile size (specify hextileBgSpecified oldBg bg 0) bg fg (subs_bytes size false [])) as ->.
    { unfold write_tile. replace (has_flag (specify hextileBgSpecified oldBg bg 0) hextileAnySubrects) with false; [done|].
      unfold specify. by destruct (bool_decide _). }
    apply Hs; [done|done|]. intros x y Hxy. cbn. symmetry. apply (proj1 (Forall_forall _ _) Hall). by apply (pixel_elem (width t) (height t)); [lia|..].
  - destruct (type_flags kind bg fg oldBg oldFg Hkind) as (_ & _ & _ & _ & _ & Fc).
    assert ((if kind =? mixed then (specify hextileBgSpecified oldBg bg kind, None)
      else (specify hextileFgSpecified oldFg fg (specify hextileBgSpecified oldBg bg kind), Some fg)) =
      (with_fg kind fg oldFg (specify hextileBgSpecified oldBg bg kind), fg_after kind fg oldFg)) as ->.
    { unfold with_fg, fg_after. destruct Hkind as [->|[->| ->]]; done. }
    set (T := with_fg kind fg oldFg (specify hextileBgSpecified oldBg bg kind)) in *.
    cbv beta iota. destruct (hextileEncodeTile size image (width t) (height t) T bg) as [encoded|] eqn:Henc; [|by eapply raw_tile_ok].
    apply hextileEncodeTile_ok in Henc as (R & HR & HRl & ->); [|done..]. rewrite Fc.
    apply (sub_tile_ok size t pb W He Hw Hh oldBg oldFg d kind bg fg R image rest Hrel Hkind Hbgwf).
    + intros ->. destruct HT as [[? _]|[(_ & Hfg & _)|?]]; [done| |done]. by apply (proj1 (Forall_forall _ _) Hp).
    + rewrite (proj2 (Z.eqb_neq _ _)) by done. split; [done|]. eapply described_subs; [done|lia|lia|done|done|].
      intros s Hs Hin Hne ->. destruct HT as [[? _]|[(_ & _ & Hall)|?]]; [done| |done].
      by destruct (proj1 (Forall_forall _ _) Hall _ Hin).
    + by apply de_image.
Qed.

(** ** [HextileTile] *)

Lemma first_inside w h s : sub_in w h s -> inside s (s_x s) (s_y s) = true.
Proof. intros (? & ? & ? & ? & ? & ?). unfold inside. rewrite !andb_true_iff, !Z.leb_le, !Z.ltb_lt. lia. Qed.

Section analysis.
Context (size : nat) (Hsize : (size <= 4)%nat) (w h : Z) (Hw : 0 < w <= 16) (Hh : 0 < h <= 16) (tile : list Z) (Hl : len tile = w * h).

(** A subrectangle of one colour of the tile. *)
Definition sub_covers (s : subrect) : Prop :=
  sub_in w h s /\ forall x y, in_image w h x y -> inside s x y = true -> pixel_at w tile x y = s_pix s.
Definition covered (R : list subrect) (x y : Z) : Prop := exists s, s ∈ R /\ inside s x y = true.

Definition sub_entry (s : subrect) : Z * list Z := (s_pix s, coords (s_x s) (s_y s) (s_w s) (s_h s)).
Definition sub_count (s : subrect) : Z * Z := (s_pix s, 1).

Record analyzed (x0 y0 : Z) (processed : list Z) (R : list subrect) (pal : palette) : Prop := {
  an_len : len processed = 256;
  an_subs : Forall sub_covers R;
  an_pos : NoDup (map (sub_pos w) R) /\ Forall (fun s => sub_pos w s < y0 * w + x0) R;
  an_front : forall x y, in_image w h x y -> y * w + x < y0 * w + x0 -> covered R x y;
  an_back : forall x y, in_image w h x y -> z2b (pixel_at 16 processed x y) = true -> covered R x y;
  an_pal : filled (map sub_count R) pal /\ pal_size pal <= 112
}.

Lemma covered_app R N x y : covered R x y -> covered (R ++ N) x y.
Proof. intros (s & Hs & Hi). exists s. split; [|done]. apply elem_of_app. by left. Qed.

Lemma analyze_skip x0 y0 processed R pal : analyzed x0 y0 processed R pal -> in_image w h x0 y0 -> z2b (pixel_at 16 processed x0 y0) = true ->
  analyzed (x0 + 1) y0 processed R pal.
Proof.
  intros H Hin Hp. split; try apply H.
  - destruct (an_pos _ _ _ _ _ H) as [Hnd Hpos]. split; [done|]. eapply Forall_impl; [exact Hpos|]. cbn. intros; lia.
  - intros x y Hxy Hlt. destruct (decide (y * w + x = y0 * w + x0)); [|apply (an_front _ _ _ _ _ H); [done|lia]].
    unfold in_image in *. destruct (pos_inj w x y x0 y0) as [-> ->]; [lia..|]. by apply (an_back _ _ _ _ _ H).
Qed.

Lemma analyze_take x0 y0 processed R pal sw sh : analyzed x0 y0 processed R pal -> in_image w h x0 y0 -> uniform w h tile x0 y0 sw sh ->
  let s := MkSub (pixel_at w tile x0 y0) x0 y0 sw sh in
  (pal_insert (s_pix s) 1 pal).1 = true /\
  (pal_size (pal_insert (s_pix s) 1 pal).2 <= 112 ->
   analyzed (x0 + sw) y0 (put_rows (replicate (Z.to_nat (sh - 1)) (replicate (Z.to_nat sw) 1)) ((y0 + 1) * 16 + x0) 16 processed)
     (R ++ [s]) (pal_insert (s_pix s) 1 pal).2).
Proof.
  intros H Hin (Hsw & Hsh & Hu) s. unfold in_image in Hin. destruct (an_pal _ _ _ _ _ H) as [Hf Hps].
  destruct (filled_insert _ pal (s_pix s) 1 Hf ltac:(lia) ltac:(lia)) as (Hok & Hf' & _). split; [done|]. intros Hsz.
  destruct (put_rows_at sw 16 x0 ltac:(lia) ltac:(lia) ltac:(lia) (replicate (Z.to_nat (sh - 1)) (replicate (Z.to_nat sw) 1)) (y0 + 1) processed ltac:(lia)) as [Hlen Hat].
  { apply Forall_replicate. rewrite len_replicate. lia. }
  { rewrite len_replicate, (an_len _ _ _ _ _ H). intros. nia. }
  rewrite len_replicate in Hat. replace (x0 + (y0 + 1) * 16) with ((y0 + 1) * 16 + x0) in Hlen, Hat by lia.
  assert (forall x y, in_image w h x y -> (inside s x y = true <-> x0 <= x < x0 + sw /\ y0 <= y < y0 + sh)) as Hins.
  { intros x y _. unfold inside, s. cbn. rewrite !andb_true_iff, !Z.leb_le, !Z.ltb_lt. lia. }
  split.
  - rewrite Hlen. by apply H.
  - apply Forall_app. split; [by apply H|]. constructor; [|constructor]. split; [unfold sub_in, s; cbn; lia|].
    intros x y Hxy Hi%Hins; [|done]. unfold s. cbn. pose proof (Hu (x - x0) (y - y0) ltac:(lia) ltac:(lia)) as Hd.
    by replace (x0 + (x - x0)) with x in Hd by lia; replace (y0 + (y - y0)) with y in Hd by lia.
  - destruct (an_pos _ _ _ _ _ H) as [Hnd Hpos]. rewrite map_app. split.
    + apply NoDup_app. split; [done|]. split; [|apply NoDup_singleton]. intros z Hz Hs.
      apply list_elem_of_singleton in Hs. apply list_elem_of_fmap in Hz as (t & Ht & Htin). pose proof (proj1 (Forall_forall _ _) Hpos t Htin) as Hlt.
      assert (sub_pos w s = y0 * w + x0) by done. cbn in Hlt. lia.
    + apply Forall_app. split; [eapply Forall_impl; [exact Hpos|]; cbn; intros; lia|]. constructor; [|constructor]. unfold sub_pos, s. cbn. lia.
  - intros x y Hxy Hlt. destruct (Z.lt_ge_cases (y * w + x) (y0 * w + x0)); [by apply covered_app, (an_front _ _ _ _ _ H)|].
    exists s. split; [apply elem_of_app; right; by left|]. apply Hins; [done|]. unfold in_image in Hxy.
    assert (y = y0) as -> by (apply (pos_row w x y (x0 + sw) y0); lia). lia.
  - intros x y Hxy Hp. pose proof Hxy as [Hx Hy]. rewrite Hat in Hp by lia. destruct (((y0 + 1 <=? y) && _) && _) eqn:Hr in Hp.
    + exists s. split; [apply elem_of_app; right; by left|]. apply Hins; [done|]. bool_decide_hyps. lia.
    + by apply covered_app, (an_back _ _ _ _ _ H).
  - rewrite map_app. by split.
Qed.

Lemma analyze_row_ok fuel : forall x y processed R pal, analyzed x y processed R pal -> 0 <= x <= w -> 0 <= y < h -> w - x <= Z.of_nat fuel ->
  match analyze_row fuel size w h tile x y processed (map sub_entry R) pal with
  | Some (processed', subs, pal') => exists R', subs = map sub_entry R' /\ analyzed w y processed' R' pal'
  | None => True
  end.
Proof.
  assert (forall fuel x y processed R pal, x = w -> analyzed x y processed R pal ->
    match analyze_row fuel size w h tile x y processed (map sub_entry R) pal with
    | Some (processed', subs, pal') => exists R', subs = map sub_entry R' /\ analyzed w y processed' R' pal'
    | None => True
    end) as Hend.
  { intros n x y processed R pal -> H. destruct n; cbn [analyze_row]; [|rewrite Z.ltb_irrefl]; by exists R. }
  induction fuel as [|fuel IH]; intros x y processed R pal H Hx Hy Hf; [apply Hend; [lia|done]|].
  destruct (decide (x = w)) as [|Hne]; [by apply Hend|]. assert (in_image w h x y) as Hin by (unfold in_image; lia).
  cbn [analyze_row]. rewrite (proj2 (Z.ltb_lt _ _)) by lia.
  replace (znth 0 processed (y * 16 + x)) with (pixel_at 16 processed x y) by (unfold pixel_at; f_equal; lia).
  destruct (z2b (pixel_at 16 processed x y)) eqn:Hp; [apply IH; [by apply analyze_skip|lia..]|]. cbv zeta.
  replace (znth 0 tile (y * w + x)) with (pixel_at w tile x y) by (unfold pixel_at; f_equal; lia).
  pose proof (horiz_finds w h tile x y ltac:(lia) ltac:(lia)) as HU. destruct (horiz w h tile (y * w + x) x y) as [sw sh]. cbn [fst snd] in HU.
  destruct (analyze_take x y processed R pal sw sh H Hin HU) as [Hok Hnext]. cbn [s_pix] in Hok, Hnext.
  destruct (pal_insert (pixel_at w tile x y) 1 pal) as [ok pal']. cbn [fst snd] in Hok, Hnext. subst ok. cbn [negb orb].
  destruct (pal_size pal' >? 48 + 2 * Z.of_nat size * 8) eqn:Hs; bool_decide_hyps; [done|]. destruct HU as (Hsw & Hsh & _).
  replace (map sub_entry R ++ [(pixel_at w tile x y, coords x (Z.land y 15) sw (Z.land (sh - 1) 15 + 1))]) with
    (map sub_entry (R ++ [MkSub (pixel_at w tile x y) x y sw sh])).
  - apply IH; [apply Hnext|..]; lia.
  - rewrite map_app. cbn. unfold sub_entry. cbn. change 15 with (Z.ones 4). rewrite !land_mask by lia. change (2 ^ 4) with 16.
    rewrite !Z.mod_small by lia. by rewrite Z.sub_add.
Qed.

Lemma analyzed_next y processed R pal : analyzed w y processed R pal -> analyzed 0 (y + 1) processed R pal.
Proof.
  intros H. split; try apply H.
  - destruct (an_pos _ _ _ _ _ H) as [Hnd Hpos]. split; [done|]. eapply Forall_impl; [exact Hpos|]. cbn. intros; lia.
  - intros x' y' Hin Hlt. apply (an_front _ _ _ _ _ H); [done|lia].
Qed.

Lemma analyze_rows_ok n : forall y processed R pal, analyzed 0 y processed R pal -> 0 <= y -> y + Z.of_nat n = h ->
  match analyze_rows n size w h tile y processed (map sub_entry R) pal with
  | Some (subs, pal') => exists R' processed', subs = map sub_entry R' /\ analyzed 0 h processed' R' pal'
  | None => True
  end.
Proof.
  induction n as [|n IH]; intros y processed R pal H Hy Hn; cbn [analyze_rows].
  - exists R, processed. split; [done|]. by replace h with y by lia.
  - pose proof (analyze_row_ok (Z.to_nat w) 0 y processed R pal H ltac:(lia) ltac:(lia) ltac:(lia)) as Hr.
    destruct (analyze_row _ _ _ _ _ _ _ _ _ _) as [[[processed1 subs1] pal1]|]; [|done]. destruct Hr as (R1 & -> & H1). cbn.
    apply IH; [by apply analyzed_next|lia..].
Qed.
End analysis.

(** Subrectangles that agree on a pixel paint it, or leave the background. *)
Lemma painted_agree bg R c x y : (forall s, s ∈ R -> inside s x y = true -> s_pix s = c) -> c = bg \/ covered R x y -> painted bg R x y = c.
Proof.
  revert bg. induction R as [|s R IH]; intros bg H Hc.
  - destruct Hc as [->|(s & []%not_elem_of_nil & _)]. done.
  - cbn. apply IH; [intros; apply H; [by right|done]|]. destruct (inside s x y) eqn:Hi.
    + left. symmetry. apply H; [by left|done].
    + destruct Hc as [->|(s' & [->|Hs']%list.elem_of_cons & Hi')]; [by left|congruence|right; by exists s'].
Qed.

Lemma filter_entries bg R : filter (fun e : Z * list Z => e.1 <> bg) (map sub_entry R) = map sub_entry (filter (fun s => s_pix s <> bg) R).
Proof.
  induction R as [|s R IH]; [done|]. cbn [map]. destruct (decide (s_pix s <> bg)) as [Hne|He].
  - rewrite !filter_cons_True by done. cbn. by rewrite IH.
  - rewrite !filter_cons_False by done. done.
Qed.
Lemma count_entries bg R : count_in bg (map sub_count R) + len (filter (fun s => s_pix s <> bg) R) = len R.
Proof.
  induction R as [|s R IH]; [done|].
  change (count_in bg (map sub_count (s :: R))) with (if s_pix s =? bg then 1 + count_in bg (map sub_count R) else count_in bg (map sub_count R)). rewrite len_cons. destruct (decide (s_pix s <> bg)) as [Hne|He].
  - rewrite filter_cons_True, len_cons, (proj2 (Z.eqb_neq _ _)) by done. lia.
  - rewrite filter_cons_False by done. rewrite (proj2 (Z.eqb_eq _ _)); [lia|]. by destruct (decide (s_pix s = bg)).
Qed.
Lemma sub_pixels c R : c ∈ (map sub_count R).*1 <-> exists s, s ∈ R /\ s_pix s = c.
Proof.
  rewrite list_elem_of_fmap. split.
  - intros (e & -> & (s & -> & Hs)%list_elem_of_fmap). by exists s.
  - intros (s & Hs & <-). exists (sub_count s). split; [done|]. apply list_elem_of_fmap. by exists s.
Qed.

Section analyze.
Context (size : nat) (Hsize : (size <= 4)%nat) (w h : Z) (Hw : 0 < w <= 16) (Hh : 0 < h <= 16) (tile : list Z) (Hl : len tile = w * h).

(** What the analysis of a tile with several colours gives. *)
Record analysis (m : hextile_tile) (R : list subrect) : Prop := {
  as_subs : m_subs m = map sub_entry R;
  as_bound : len R <= 256;
  as_bg : m_background m ∈ tile;
  as_kind : m_flags m = hextileAnySubrects \/ m_flags m = mixed;
  as_painted : forall x y, in_image w h x y -> painted (m_background m) (filter (fun s => s_pix s <> m_background m) R) x y = pixel_at w tile x y;
  as_count : len (filter (fun s => s_pix s <> m_background m) R) < 256;
  as_size : m_size m = 1 + (2 + if has_flag (m_flags m) hextileSubrectsColoured then Z.of_nat size else 0) * len (filter (fun s => s_pix s <> m_background m) R);
  as_in : Forall (fun s => sub_in w h s /\ s_pix s ∈ tile) R;
  as_fg : m_flags m = hextileAnySubrects -> m_foreground m ∈ tile /\ Forall (fun s => s_pix s <> m_background m -> s_pix s = m_foreground m) R
}.

Lemma analyzed_all processed R pal : analyzed w h tile 0 h processed R pal ->
  exists c0 n0 l, counts pal = (c0, n0) :: l /\ c0 ∈ tile /\ n0 + len (filter (fun s => s_pix s <> c0) R) = len R /\ len R <= 256 /\
    len (filter (fun s => s_pix s <> c0) R) < 256 /\
    (forall x y, in_image w h x y -> painted c0 (filter (fun s => s_pix s <> c0) R) x y = pixel_at w tile x y) /\
    Forall (fun s => sub_in w h s /\ s_pix s ∈ tile) R /\ (forall c, c ∈ (counts pal).*1 <-> exists s, s ∈ R /\ s_pix s = c).
Proof.
  intros H. destruct (an_pal _ _ _ _ _ _ _ _ H) as [[Hok Hins] _]. pose proof (an_subs _ _ _ _ _ _ _ _ H) as Hsubs. rewrite Forall_forall in Hsubs.
  assert (forall x y, in_image w h x y -> covered R x y) as Hcov.
  { intros x y Hxy. apply (an_front _ _ _ _ _ _ _ _ H); [done|]. unfold in_image in Hxy. nia. }
  assert (forall s, s ∈ R -> s_pix s ∈ tile) as Hpix.
  { intros s Hs. destruct (Hsubs s Hs) as [Hin Hc]. pose proof Hin as (? & ? & ? & ? & ? & ?).
    assert (in_image w h (s_x s) (s_y s)) as Hxy by (unfold in_image; lia). rewrite <- (Hc (s_x s) (s_y s) Hxy (first_inside w h s Hin)). apply (pixel_elem w h); [lia|done|done]. }
  assert (forall c, c ∈ (counts pal).*1 <-> exists s, s ∈ R /\ s_pix s = c) as Hcol by (intros c; by rewrite (proj2 (Hins c)), sub_pixels).
  destruct (Hcov 0 0 ltac:(unfold in_image; lia)) as (s00 & Hs00 & _).
  destruct (counts pal) as [|[c0 n0] l] eqn:Hcounts.
  { assert (s_pix s00 ∈ ([] : list (Z * Z)).*1) as []%not_elem_of_nil. apply Hcol. by exists s00. }
  assert (exists s0, s0 ∈ R /\ s_pix s0 = c0) as (s0 & Hs0 & Hc0) by (apply Hcol; by left).
  assert (n0 = count_in c0 (map sub_count R)) as Hn0.
  { rewrite <- (proj1 (Hins c0)). symmetry. apply count_in_entry; [rewrite <- Hcounts; by apply counts_NoDup|by left]. }
  assert (len R <= w * h) as HRl.
  { destruct (an_pos _ _ _ _ _ _ _ _ H) as [Hnd _]. apply (NoDup_submseteq _ (seqZ 0 (w * h))) in Hnd.
    - apply submseteq_length in Hnd. rewrite length_seqZ, length_map in Hnd. unfold len. lia.
    - intros p (s & -> & Hs)%list_elem_of_fmap. destruct (Hsubs s Hs) as [(? & ? & ? & ? & ? & ?) _]. apply elem_of_seqZ. unfold sub_pos. nia. }
  exists c0, n0, l. split; [done|]. split; [rewrite <- Hc0; by apply Hpix|]. split; [rewrite Hn0; apply count_entries|]. split; [nia|].
  split.
  { assert (0 < count_in c0 (map sub_count R)); [|pose proof (count_entries c0 R); nia].
    apply list_elem_of_split in Hs0 as (R1 & R2 & ->). rewrite map_app, count_in_app. cbn. fold (count_in c0 (map sub_count R2)). rewrite (proj2 (Z.eqb_eq _ _) Hc0).
    assert (forall Q, 0 <= count_in c0 (map sub_count Q)) as Hpos by (intros Q; induction Q as [|q Q IH]; [done|]; cbn; fold (count_in c0 (map sub_count Q)); case_test; lia).
    pose proof (Hpos R1). pose proof (Hpos R2). lia. }
  split; [|split; [apply Forall_forall; intros s Hs; split; [by apply Hsubs|by apply Hpix]|done]].
  intros x y Hxy. apply painted_agree.
  - intros s [_ Hs]%list_elem_of_filter Hi. symmetry. by apply Hsubs.
  - destruct (Hcov x y Hxy) as (s & Hs & Hi). destruct (Hsubs s Hs) as [_ Hc]. rewrite (Hc x y Hxy Hi). destruct (decide (s_pix s = c0)) as [|Hne]; [by left|right].
    exists s. split; [|done]. by apply list_elem_of_filter.
Qed.

Lemma analyze_spec : let m := analyze size tile w h in
  (m_flags m = 0 /\ m_background m ∈ tile /\ Forall (fun p => p = m_background m) tile) \/ m_flags m = hextileRaw \/
  exists R, analysis m R.
Proof.
  unfold analyze. cbv zeta. destruct (count_while_spec (Z.to_nat (w * h - 1)) (fun i => znth 0 tile i =? znth 0 tile 0) 1) as (Hi & Hbefore & _).
  set (i := count_while _ _ 1) in *. set (color := znth 0 tile 0) in *.
  assert (forall x y, in_image w h x y -> x + y * w < i -> pixel_at w tile x y = color) as Hfront.
  { intros x y [Hx Hy] Hlt. unfold pixel_at. destruct (decide (x + y * w = 0)) as [->|]; [done|]. apply Z.eqb_eq, Hbefore. nia. }
  assert (color ∈ tile) as Hcol. { replace color with (pixel_at w tile 0 0) by done. apply (pixel_elem w h); [lia|done|unfold in_image; lia]. }
  destruct (Z.eqb_spec i (w * h)) as [Hend|Hend].
  { left. split; [done|]. split; [done|]. eapply image_forall; [|exact Hl|]; [lia|]. intros x y Hxy. apply Hfront; [done|]. unfold in_image in Hxy. nia. }
  right. set (y := i / w). assert (0 <= y < h /\ y * w <= i) as [Hy Hyi].
  { unfold y. pose proof (Z.mul_div_le i w ltac:(lia)). split; [|lia]. split; [apply Z.div_pos; lia|apply Z.div_lt_upper_bound; nia]. }
  assert (exists R0 pal0, (if y >? 0 then ([(color, coords 0 0 w (Z.land (y - 1) 15 + 1))], (pal_insert color 1 new_palette).2) else ([], new_palette)) = (map sub_entry R0, pal0) /\
    analyzed w h tile 0 y (replicate 256 0) R0 pal0) as (R0 & pal0 & -> & H0).
  { case_test.
    - exists [MkSub color 0 0 w y], (pal_insert color 1 new_palette).2. split.
      { cbn. unfold sub_entry. cbn. change 15 with (Z.ones 4). rewrite land_mask, Z.mod_small by (change (2 ^ 4) with 16; lia). by rewrite Z.sub_add. }
      destruct (filled_insert [] new_palette color 1 filled_new eq_refl eq_refl) as (_ & Hf & Hs). split; [done|..].
      + constructor; [|constructor]. split; [unfold sub_in; cbn; lia|]. intros x' y' Hxy Hin. cbn. apply Hfront; [done|].
        unfold inside in Hin. cbn in Hin. bool_decide_hyps. unfold in_image in Hxy. nia.
      + split; [apply NoDup_singleton|]. constructor; [|constructor]. unfold sub_pos. cbn. nia.
      + intros x' y' Hxy Hlt. eexists. split; [by left|]. unfold inside, in_image in *. cbn. rewrite !andb_true_iff, !Z.leb_le, !Z.ltb_lt. nia.
      + intros x' y' [Hx Hy'] Hp. exfalso. revert Hp. unfold pixel_at. by rewrite znth_replicate by lia.
      + split; [exact Hf|]. change (pal_size new_palette) with 0 in Hs. lia.
    - exists [], new_palette. split; [done|]. split; [done|constructor|split; constructor|unfold in_image; intros; nia| |split; [apply filled_new|done]].
      intros x' y' [Hx Hy'] Hp. exfalso. revert Hp. unfold pixel_at. by rewrite znth_replicate by lia. }
  pose proof (analyze_rows_ok size Hsize w h Hw Hh tile (Z.to_nat (h - y)) y _ R0 pal0 H0 ltac:(lia) ltac:(lia)) as Hr.
  destruct (analyze_rows _ _ _ _ _ _ _ _ _) as [[subs pal]|]; [|by left]. right. destruct Hr as (R & processed & -> & HA).
  destruct (analyzed_all _ _ _ HA) as (c0 & n0 & l & Hc & Hc0 & Hn0 & HRl & HRc & Hpaint & Hin & Hcols).
  destruct (an_pal _ _ _ _ _ _ _ _ HA) as [[Hok _] _]. pose proof (size_counts pal Hok) as Hs. rewrite Hc in Hs.
  destruct (getColour_counts pal 0 c0 n0) as [Hg Hn]; [by rewrite Hc|]. change (Z.of_nat 0) with 0 in Hg, Hn. rewrite Hg, Hn.
  assert (len (map sub_entry R) - n0 = len (filter (fun s => s_pix s <> c0) R)) as Hnum by (rewrite len_map; lia). rewrite Hnum.
  exists R. destruct (Z.eqb_spec (pal_size pal) 2) as [H2|H2].
  - destruct l as [|[c1 n1] [|]]; [rewrite Hs in H2; done| |rewrite Hs in H2; unfold len in H2; cbn in H2; lia].
    destruct (getColour_counts pal 1 c1 n1) as [Hg1 _]; [by rewrite Hc|]. change (Z.of_nat 1) with 1 in Hg1. rewrite Hg1.
    split; cbn [m_subs m_background m_flags m_size m_foreground]; try done.
    + by left.
    + intros _. rewrite Hc in Hcols. split.
      * destruct (proj1 (Hcols c1)) as (s & Hs1 & <-); [right; by left|]. by apply (proj1 (Forall_forall _ _) Hin).
      * apply Forall_forall. intros s Hs1 Hne. assert (s_pix s ∈ [(c0, n0); (c1, n1)].*1) as Hm by (apply Hcols; by exists s).
        apply list.elem_of_cons in Hm as [?|Hm]; [done|]. by apply list_elem_of_singleton in Hm.
  - split; cbn [m_subs m_background m_flags m_size m_foreground]; try done. by right.
Qed.

(** The number of bytes that [encode] writes is [m_size], as it asserts. *)
Lemma tile_encode_ok m R : analysis m R ->
  tile_encode size m = subs_bytes size (m_flags m =? mixed) (filter (fun s => s_pix s <> m_background m) R) /\ len (tile_encode size m) = m_size m.
Proof.
  intros H. assert (has_flag (m_flags m) hextileSubrectsColoured = (m_flags m =? mixed)) as Hc by (by destruct (as_kind _ _ H) as [->| ->]).
  assert (tile_encode size m = subs_bytes size (m_flags m =? mixed) (filter (fun s => s_pix s <> m_background m) R)) as He.
  { unfold tile_encode, subs_bytes. rewrite (as_subs _ _ H), filter_entries, len_map, writeU8_eq, map_map, Hc. done. }
  split; [done|]. rewrite He, (as_size _ _ H), Hc. unfold subs_bytes. rewrite len_app, len_writeU8. f_equal.
  rewrite (len_concat_map _ (2 + if m_flags m =? mixed then Z.of_nat size else 0)); [lia|].
  intros s. unfold sub_bytes. rewrite len_app, len_coords. destruct (m_flags m =? mixed); [rewrite len_opaque; lia|done].
Qed.
End analyze.

Lemma hextileEncodeBetter_tile size st d t pb image rest : (size <= 4)%nat -> hex_rel st d -> pb_wf pb -> enclosed_by t (getRect pb) = true ->
  0 < width t <= 16 -> 0 < height t <= 16 -> len image = width t * height t -> Forall (pixel_wf size) image ->
  let '(st', bs) := hextileEncodeBetter size st (width t) (height t) image in
  exists d' pb', hex_decode_tile size d t (bs ++ rest, pb) = (Ok d', (rest, pb')) /\ hex_rel st' d' /\ tile_drawn t image pb pb'.
Proof.
  intros Hsize Hrel W He Hw Hh Hl Hp. destruct st as [oldBg oldFg]. unfold hextileEncodeBetter. rewrite Forall_forall in Hp.
  pose proof (analyze_spec size Hsize (width t) (height t) Hw Hh image Hl) as HA. cbv zeta in HA |- *. set (m := analyze size image (width t) (height t)) in *.
  destruct (has_flag (m_flags m) hextileRaw || (m_size m >=? width t * height t * Z.of_nat size)) eqn:Hraw.
  { eapply raw_tile_ok; try done. by apply Forall_forall. }
  apply orb_false_iff in Hraw as [Hraw _].
  assert (exists kind, m_flags m = kind /\ (kind = 0 \/ kind = hextileAnySubrects \/ kind = mixed)) as (kind & Hm & Hkind).
  { exists (m_flags m). split; [done|]. destruct HA as [(-> & _)|[Hr|(R & H)]]; [by left|by rewrite Hr in Hraw|right; by apply (as_kind _ _ _ _ _ _ H)]. }
  rewrite Hm.
  assert (has_flag (specify hextileBgSpecified oldBg (m_background m) kind) hextileAnySubrects = negb (kind =? 0) /\
    has_flag (specify hextileBgSpecified oldBg (m_background m) kind) hextileSubrectsColoured = (kind =? mixed)) as [-> ->].
  { destruct Hkind as [->|[->| ->]]; unfold specify; destruct (bool_decide _); by vm_compute. }
  destruct HA as [(Hk & Hbg & Hall)|[Hr|(R & H)]]; [|by rewrite Hr in Hraw|].
  - rewrite Hk in Hm. subst kind. cbn [Z.eqb negb].
    pose proof (sub_tile_ok size t pb W He Hw Hh oldBg oldFg d 0 (m_background m) 0 [] image rest Hrel Hkind (Hp _ Hbg)) as Hs. unfold with_fg, fg_after in Hs. cbn [Z.eqb] in Hs.
    assert (write_tile size (specify hextileBgSpecified oldBg (m_background m) 0) (m_background m) 0 [] =
      write_tile size (specify hextileBgSpecified oldBg (m_background m) 0) (m_background m) 0 (subs_bytes size false [])) as ->.
    { unfold write_tile. replace (has_flag (specify hextileBgSpecified oldBg (m_background m) 0) hextileAnySubrects) with false; [done|].
      unfold specify. by destruct (bool_decide _). }
    apply Hs; [done|done|]. intros x y Hxy. cbn. symmetry. apply (proj1 (Forall_forall _ _) Hall). by apply (pixel_elem (width t) (height t)); [lia|..].
  - pose proof (as_kind _ _ _ _ _ _ H) as Hk. rewrite Hm in Hk. destruct (Z.eqb_spec kind 0) as [->|_]; [by destruct Hk|]. cbn [negb].
    rewrite (proj1 (tile_encode_ok size Hsize (width t) (height t) image m R H)), Hm. set (fg := if kind =? mixed then 0 else m_foreground m).
    assert ((if kind =? mixed then (specify hextileBgSpecified oldBg (m_background m) kind, 0, None)
      else (specify hextileFgSpecified oldFg (m_foreground m) (specify hextileBgSpecified oldBg (m_background m) kind), m_foreground m, Some (m_foreground m))) =
      (with_fg kind fg oldFg (specify hextileBgSpecified oldBg (m_background m) kind), fg, fg_after kind fg oldFg)) as ->.
    { unfold with_fg, fg_after, fg. destruct Hk as [->| ->]; done. }
    cbv beta iota. apply (sub_tile_ok size t pb W He Hw Hh oldBg oldFg d kind (m_background m) fg _ image rest Hrel Hkind).
    + apply Hp, (as_bg _ _ _ _ _ _ H).
    + intros ->. apply Hp. by apply (as_fg _ _ _ _ _ _ H).
    + rewrite (proj2 (Z.eqb_neq kind 0)) by (by destruct Hk as [->| ->]). split; [apply (as_count _ _ _ _ _ _ H)|].
      apply Forall_forall. intros s [Hne Hs]%list_elem_of_filter. pose proof (proj1 (Forall_forall _ _) (as_in _ _ _ _ _ _ H) s Hs) as [Hin Hpix].
      split; [done|]. split; [by apply Hp|]. intros ->. destruct (as_fg _ _ _ _ _ _ H Hm) as [_ Hf]. by apply (proj1 (Forall_forall _ _) Hf).
    + apply (as_painted _ _ _ _ _ _ H).
Qed.

(** C21: what either Hextile encoder sends of a rectangle decodes to the pixels of
    the rectangle, and nothing else of the client's buffer changes. *)
Theorem hextile_roundtrip (improvedHextile : bool) (size : nat) (src pb : pixbuf) (r : Rect) :
  (size <= 4)%nat -> source size src -> target r src pb ->
  exists bs pb', hextile_writeRect improvedHextile size src = Ok bs /\ hextile_decodeRect size r (bs, pb) = (Ok tt, ([], pb')) /\ drawn r src pb pb'.
Proof.
  intros Hsize HS HT. assert (hex_rel (None, None) new_hex_dec) as Hrel by (split; [done|]; by split).
  destruct (tiled_roundtrip 16 eq_refl (if improvedHextile then hextileEncodeBetter size else hextileEncode size) (hex_decode_tile size) size hex_rel (pixel_wf size)) with
    (src := src) (pb := pb) (r := r) (e := (None, None) : hex_state) (d := new_hex_dec) (rest := @nil Z) as (e' & bs & d' & pb' & Henc & Hdec & _ & Hd); try done.
  - intros e d t pb0 image rest H1 H2 H3 H4 H5 H6 H7. destruct improvedHextile; [by apply hextileEncodeBetter_tile|by apply hextileEncode_tile].
  - by destruct HS as (_ & _ & _ & _ & Hpix).
  - exists bs, pb'. unfold hextile_writeRect. rewrite Henc. split; [done|]. split; [|done]. unfold hextile_decodeRect.
    rewrite app_nil_r in Hdec. by eapply run_bind.
Qed.

Lemma hextile_roundtrip_witness : exists bs pb', hextile_writeRect true 1 sample_src = Ok bs /\
  hextile_decodeRect 1 (rect 1 1 5 4) (bs, sample_pb) = (Ok tt, ([], pb')) /\ pb_at pb' 1 3 = 5 /\ pb_at pb' 0 0 = 1.
Proof.
  destruct (hextile_roundtrip true 1 sample_src sample_pb (rect 1 1 5 4) ltac:(lia) sample_source sample_target) as (bs & pb' & He & Hd & _ & _ & Hat).
  exists bs, pb'. split; [exact He|]. split; [exact Hd|]. split; [exact (Hat 1 3 ltac:(cbn; lia) ltac:(cbn; lia))|].
  exact (Hat 0 0 ltac:(cbn; lia) ltac:(cbn; lia)).
Defined.
