(* ===== verification/ZRLE.v ===== *)
(** * ZRLE ([rfb/ZRLEEncoder.cxx], [rfb/ZRLEDecoder.cxx])

    Tiles of 64 by 64 pixels: raw, one colour, packed indices into a palette, or
    runs of them.  A pixel takes three bytes where the format leaves one of four
    unused; the two sides decide this each in its own way ([writePixels],
    [isLowCPixel]).  What is modelled is the data given to zlib and taken from
    it. *)
From stdpp Require Import base sets numbers strings option list sorting.
From S2P Require Import Prelude InStream OutStream PixelFmt Geometry Pixels Palette RRE Tiles.
#[local] Open Scope Z_scope.

(** [sizeof(T)] *)
Definition pf_size (pf : PixelFormat) : nat := Z.to_nat (bpp pf / 8).
Definition maxPixel (pf : PixelFormat) : Z := pixelFromRGB16 pf 65535 65535 65535.

(** ** The encoder *)

Definition writePixels (pf : PixelFormat) (pixels : list Z) : list Z :=
  let pixBuf := bufferFromPixel pf (maxPixel pf) in
  if negb (bpp pf =? 32) || (negb (znth 0 pixBuf 0 =? 0) && negb (znth 0 pixBuf 3 =? 0))
  then concat (map (opaque (pf_size pf)) pixels)
  else if znth 0 pixBuf 0 =? 0 then concat (map (fun p => ztake 3 (zdrop 1 (opaque 4 p))) pixels)
  else concat (map (fun p => ztake 3 (opaque 4 p)) pixels).

Definition palette_colours (p : palette) : list Z := map (getColour p) (seqZ 0 (pal_size p)).
Definition writePalette (pf : PixelFormat) (p : palette) : list Z := writePixels pf (palette_colours p).

Definition writeRawTile (pf : PixelFormat) (image : list Z) : list Z := writeU8 0 ++ writePixels pf image.

(** [bitsPerPackedPixel[palette.size()-1]] *)
Definition bitsPerPackedPixel (size : Z) : Z := znth 0 [0; 1; 2; 2; 4; 4; 4; 4; 4; 4; 4; 4; 4; 4; 4; 4] (size - 1).

(** The indices of a row, packed; [byte] is not cleared when it has been
    written. *)
Fixpoint pack (bppp : Z) (indices : list Z) (byte nbits : Z) : list Z :=
  match indices with
  | [] => if nbits >? 0 then writeU8 (u8 (Z.shiftl byte (8 - nbits))) else []
  | index :: indices =>
      let byte := u8 (Z.lor (Z.shiftl byte bppp) index) in
      let nbits := nbits + bppp in
      if nbits >=? 8 then writeU8 byte ++ pack bppp indices byte 0 else pack bppp indices byte nbits
  end.

(** A tile, row by row. *)
Definition image_rows (image : list Z) (width height : Z) : list (list Z) := rows_of image 0 width width height.
Definition writePaletteTile (pf : PixelFormat) (p : palette) (width height : Z) (image : list Z) : list Z :=
  writeU8 (pal_size p) ++ writePalette pf p ++
  concat (map (fun row => pack (bitsPerPackedPixel (pal_size p)) (map (pal_lookup p) row) 0 0) (image_rows image width height)).

(** [while (runLength > 255)] and the byte behind it. *)
Fixpoint write_length (fuel : nat) (runLength : Z) : list Z :=
  match fuel with
  | O => []
  | S fuel => if runLength >? 255 then writeU8 255 ++ write_length fuel (runLength - 255) else writeU8 (runLength - 1)
  end.
Definition write_run (p : palette) (colour runLength : Z) : list Z :=
  if runLength =? 1 then writeU8 (pal_lookup p colour)
  else writeU8 (Z.lor (pal_lookup p colour) 0x80) ++ write_length (S (Z.to_nat (runLength / 255))) runLength.
Fixpoint write_runs (p : palette) (pixels : list Z) (prevColour runLength : Z) : list Z :=
  match pixels with
  | [] => write_run p prevColour runLength
  | c :: pixels =>
      if prevColour =? c then write_runs p pixels prevColour (runLength + 1)
      else write_run p prevColour runLength ++ write_runs p pixels c 1
  end.
Definition writePaletteRLETile (pf : PixelFormat) (p : palette) (image : list Z) : list Z :=
  writeU8 (Z.lor (pal_size p) 0x80) ++ writePalette pf p ++ write_runs p image (znth 0 image 0) 0.

(** A tile of [writeRect]; with one colour it is one of [writeSolidRect]. *)
Definition zrle_encode_tile (pf : PixelFormat) (p : palette) (_ : unit) (w h : Z) (image : list Z) : unit * list Z :=
  (tt, if pal_size p =? 0 then writeRawTile pf image
       else if pal_size p =? 1 then writeU8 1 ++ writePixels pf [getColour p 0]
       else if pal_size p <=? 16 then writePaletteTile pf p w h image
       else writePaletteRLETile pf p image).

Definition zrle_writeSolidRect (pf : PixelFormat) (width height colour : Z) : list Z :=
  concat (replicate (Z.to_nat ((width + 63) / 64 * ((height + 63) / 64))) (writeU8 1 ++ writePixels pf [colour])).

(** The data that is compressed. *)
Definition zrle_writeRect (pf : PixelFormat) (pb : pixbuf) (p : palette) : res (list Z) :=
  if pal_size p =? 1 then Ok (zrle_writeSolidRect pf (pb_width pb) (pb_height pb) (getColour p 0)) else
  '(_, bs) ← encode_tiles (zrle_encode_tile pf p) pb (tiles 64 (getRect pb)) tt;
  mret bs.

(** ** The decoder *)

Definition zlibHasData {S} (n : Z) : SE (list Z * S) unit := fun '(bs, s) =>
  if len bs <? n then (Throw (protocol_error "Failed to decode ZRLE rectangle"), (bs, s)) else (Ok tt, (bs, s)).

(** The three bytes of a pixel are its low or its high ones in memory. *)
Definition isLowCPixel (pf : PixelFormat) : bool :=
  (bpp pf =? 32) && (depth pf <=? 24) &&
  (((maxPixel pf <? Z.shiftl 1 24) && negb (bigEndian pf)) || ((Z.land (maxPixel pf) 0xff =? 0) && bigEndian pf)).
Definition isHighCPixel (pf : PixelFormat) : bool :=
  (bpp pf =? 32) && (depth pf <=? 24) &&
  (((maxPixel pf <? Z.shiftl 1 24) && bigEndian pf) || ((Z.land (maxPixel pf) 0xff =? 0) && negb (bigEndian pf))).

Definition cpixel_size (pf : PixelFormat) : Z :=
  if isLowCPixel pf || isHighCPixel pf then 3 else Z.of_nat (pf_size pf).
Definition readOpaque24A {S} : SE (list Z * S) Z := bs ← mem_read 3; mret (from_opaque bs).
Definition readOpaque24B {S} : SE (list Z * S) Z := bs ← mem_read 3; mret (from_opaque (0 :: bs)).
Definition readCPixel {S} (pf : PixelFormat) : SE (list Z * S) Z :=
  if isLowCPixel pf then readOpaque24A else if isHighCPixel pf then readOpaque24B else mem_readPixel (pf_size pf).
Fixpoint readCPixels {S} (pf : PixelFormat) (n : nat) : SE (list Z * S) (list Z) :=
  match n with
  | O => mret []
  | Datatypes.S n => p ← readCPixel pf; ps ← readCPixels pf n; mret (p :: ps)
  end.

(** A row of packed pixels. *)
Fixpoint unpack {S} (n : nat) (bppp : Z) (palette : list Z) (byte nbits : Z) : SE (list Z * S) (list Z) :=
  match n with
  | O => mret []
  | Datatypes.S n =>
      '(byte, nbits) ← (if nbits =? 0 then zlibHasData 1;; byte ← mem_readU8; mret (byte, 8) else mret (byte, nbits));
      let nbits := nbits - bppp in
      let index := Z.land (Z.land (Z.shiftr byte nbits) (Z.shiftl 1 bppp - 1)) 127 in
      ps ← unpack n bppp palette byte nbits;
      mret (znth 0 palette index :: ps)
  end.
Fixpoint unpack_rows {S} (rows : nat) (width bppp : Z) (palette : list Z) : SE (list Z * S) (list Z) :=
  match rows with
  | O => mret []
  | Datatypes.S rows => ps ← unpack (Z.to_nat width) bppp palette 0 0; qs ← unpack_rows rows width bppp palette; mret (ps ++ qs)
  end.

(** [do { b = readU8(); len += b; } while (b == 255)], for the bytes there
    are. *)
Fixpoint read_length {S} (fuel : nat) (length : Z) : SE (list Z * S) Z :=
  match fuel with
  | O => st_throw (logic_error "out of fuel")
  | Datatypes.S fuel =>
      zlibHasData 1;;
      b ← mem_readU8;
      if b =? 255 then read_length fuel (length + b) else mret (length + b)
  end.
Definition read_len {S} (left : Z) : SE (list Z * S) Z :=
  s ← st_get;
  length ← read_length (Datatypes.S (List.length s.1)) 1;
  if left <? length then st_throw (protocol_error "Failed to decode ZRLE rectangle") else mret length.

(** The runs of a tile with [left] pixels to come. *)
Fixpoint plain_runs {S} (fuel : nat) (pf : PixelFormat) (left : Z) : SE (list Z * S) (list Z) :=
  match fuel with
  | O => mret []
  | Datatypes.S fuel =>
      if left <=? 0 then mret [] else
      zlibHasData (cpixel_size pf);;
      pix ← readCPixel pf;
      length ← read_len left;
      ps ← plain_runs fuel pf (left - length);
      mret (replicate (Z.to_nat length) pix ++ ps)
  end.
Fixpoint palette_runs {S} (fuel : nat) (palette : list Z) (left : Z) : SE (list Z * S) (list Z) :=
  match fuel with
  | O => mret []
  | Datatypes.S fuel =>
      if left <=? 0 then mret [] else
      zlibHasData 1;;
      index ← mem_readU8;
      length ← (if z2b (Z.land index 128) then read_len left else mret 1);
      ps ← palette_runs fuel palette (left - length);
      mret (replicate (Z.to_nat length) (znth 0 palette (Z.land index 127)) ++ ps)
  end.

(** A tile of [zrleDecode]. *)
Definition zrle_decode_tile (pf : PixelFormat) (_ : unit) (t : Rect) : SE (list Z * pixbuf) unit :=
  zlibHasData 1;;
  mode ← mem_readU8;
  let rle := z2b (Z.land mode 128) in
  let palSize := Z.land mode 127 in
  zlibHasData (cpixel_size pf * palSize);;
  palette ← readCPixels pf (Z.to_nat palSize);
  if palSize =? 1 then on_pb (fillRect t (znth 0 palette 0)) else
  pixels ← (if negb rle then
              if palSize =? 0 then zlibHasData (cpixel_size pf * area t);; readCPixels pf (Z.to_nat (area t))
              else unpack_rows (Z.to_nat (height t)) (width t) (if palSize >? 16 then 8 else if palSize >? 4 then 4 else if palSize >? 2 then 2 else 1) palette
            else if palSize =? 0 then plain_runs (Z.to_nat (area t)) pf (area t)
            else palette_runs (Z.to_nat (area t)) palette (area t));
  on_pb (imageRect t pixels 0).

Definition zrle_decodeRect (pf : PixelFormat) (r : Rect) : SE (list Z * pixbuf) unit :=
  decode_tiles (zrle_decode_tile pf) (tiles 64 r) tt.

(** ** Pixels of three bytes *)

(** The bytes of the pixel with all channels at their maximum. *)
Definition max_byte (pf : PixelFormat) (i : Z) : Z := znth 0 (bufferFromPixel pf (maxPixel pf)) i.

(** The two sides agree: no byte of a pixel is unused, or one of them, at a depth
    of at most 24. *)
Definition cpixel_format (pf : PixelFormat) : Prop :=
  (bpp pf = 8 \/ bpp pf = 16 \/ bpp pf = 32) /\
  (bpp pf = 32 -> (max_byte pf 0 = 0 \/ max_byte pf 3 = 0) -> depth pf <= 24 /\ (max_byte pf 0 <> 0 \/ max_byte pf 3 <> 0)).
(** A pixel with nothing in the byte its format does not use. *)
Definition clean (pf : PixelFormat) (p : Z) : Prop :=
  pixel_wf (pf_size pf) p /\ (bpp pf = 32 -> (max_byte pf 0 = 0 -> p mod 256 = 0) /\ (max_byte pf 3 = 0 -> p < 2 ^ 24)).

Definition cpixel (pf : PixelFormat) (p : Z) : list Z :=
  if isLowCPixel pf then ztake 3 (opaque 4 p) else if isHighCPixel pf then ztake 3 (zdrop 1 (opaque 4 p)) else opaque (pf_size pf) p.

Lemma maxPixel_range pf : 0 <= maxPixel pf < 2 ^ 32.
Proof.
  unfold maxPixel, pixelFromRGB16, pixelFromRGB. repeat match goal with |- context [u32 ?z] => pose proof (u32_range z); generalize dependent (u32 z); intros end.
  assert (forall a, 0 <= a < 2 ^ 32 -> Z.log2 a < 32) as Hlog.
  { intros a Ha. destruct (decide (0 < a)); [apply Z.log2_lt_pow2; lia|]. by replace a with 0 by lia. }
  assert (forall a b, 0 <= a < 2 ^ 32 -> 0 <= b < 2 ^ 32 -> 0 <= Z.lor a b < 2 ^ 32) as Hlor.
  { intros a b Ha Hb. assert (0 <= Z.lor a b) as Hab by (apply Z.lor_nonneg; lia). split; [done|]. destruct (decide (Z.lor a b = 0)) as [->|]; [done|].
    apply Z.log2_lt_pow2; [lia|]. rewrite Z.log2_lor by lia. apply Z.max_lub_lt; by apply Hlog. }
  apply Hlor; [apply Hlor; lia|lia].
Qed.

Lemma max_bytes pf : bpp pf = 32 ->
  (max_byte pf 0 = 0 <-> if bigEndian pf then maxPixel pf < 2 ^ 24 else maxPixel pf mod 256 = 0) /\
  (max_byte pf 3 = 0 <-> if bigEndian pf then maxPixel pf mod 256 = 0 else maxPixel pf < 2 ^ 24).
Proof.
  intros Hb. pose proof (maxPixel_range pf) as Hm. unfold max_byte, bufferFromPixel. rewrite Hb. change (32 =? 32) with true. change (32 >=? 16) with true.
  assert (Z.land (Z.shiftr (maxPixel pf) 24) 255 = 0 <-> maxPixel pf < 2 ^ 24) as H24.
  { rewrite land_255, shiftr_div by lia. zlia. }
  assert (Z.land (Z.shiftr (maxPixel pf) 0) 255 = 0 <-> maxPixel pf mod 256 = 0) as H0 by (rewrite land_255, Z.shiftr_0_r; done).
  destruct (bigEndian pf); cbn; by split.
Qed.

Lemma cpixel_flags pf : cpixel_format pf -> bpp pf = 32 ->
  isLowCPixel pf = (max_byte pf 3 =? 0) /\ isHighCPixel pf = (max_byte pf 0 =? 0).
Proof.
  intros [_ Hf] Hb. destruct (max_bytes pf Hb) as [H0 H3]. specialize (Hf Hb).
  assert ((max_byte pf 0 =? 0) = if bigEndian pf then maxPixel pf <? Z.shiftl 1 24 else Z.land (maxPixel pf) 255 =? 0) as E0.
  { rewrite land_255. apply eq_iff_eq_true. rewrite Z.eqb_eq, H0. change (Z.shiftl 1 24) with (2 ^ 24). destruct (bigEndian pf); [by rewrite Z.ltb_lt|by rewrite Z.eqb_eq]. }
  assert ((max_byte pf 3 =? 0) = if bigEndian pf then Z.land (maxPixel pf) 255 =? 0 else maxPixel pf <? Z.shiftl 1 24) as E3.
  { rewrite land_255. apply eq_iff_eq_true. rewrite Z.eqb_eq, H3. change (Z.shiftl 1 24) with (2 ^ 24). destruct (bigEndian pf); [by rewrite Z.eqb_eq|by rewrite Z.ltb_lt]. }
  unfold isLowCPixel, isHighCPixel. rewrite Hb, Z.eqb_refl. cbn [andb].
  destruct (Z.eqb_spec (max_byte pf 0) 0) as [Z0|Z0], (Z.eqb_spec (max_byte pf 3) 0) as [Z3|Z3].
  - exfalso. destruct Hf as [_ [?|?]]; [by left|done|done].
  - destruct Hf as [Hd _]; [by left|]. rewrite (proj2 (Z.leb_le _ _) Hd). destruct (bigEndian pf); rewrite <- E0, <- E3; done.
  - destruct Hf as [Hd _]; [by right|]. rewrite (proj2 (Z.leb_le _ _) Hd). destruct (bigEndian pf); rewrite <- E0, <- E3; done.
  - destruct (bigEndian pf); rewrite <- E0, <- E3; by destruct (depth pf <=? 24).
Qed.

Lemma writePixels_eq pf ps : cpixel_format pf -> writePixels pf ps = concat (map (cpixel pf) ps).
Proof.
  intros Hf. unfold writePixels. fold (max_byte pf 0) (max_byte pf 3). destruct (Z.eqb_spec (bpp pf) 32) as [Hb|Hb]; cbn [negb orb].
  - destruct (cpixel_flags pf Hf Hb) as [Hlow Hhigh]. destruct Hf as [_ Hf]. specialize (Hf Hb). unfold cpixel. rewrite Hlow, Hhigh.
    destruct (Z.eqb_spec (max_byte pf 0) 0) as [Z0|Z0], (Z.eqb_spec (max_byte pf 3) 0) as [Z3|Z3]; cbn [negb andb]; try done.
    exfalso. destruct Hf as [_ [?|?]]; [by left|done|done].
  - f_equal. apply map_ext. intros p. unfold cpixel, isLowCPixel, isHighCPixel. by rewrite (proj2 (Z.eqb_neq _ _) Hb).
Qed.

Section cpixels.
Context (pf : PixelFormat) (F : cpixel_format pf).

Lemma len_cpixel p : len (cpixel pf p) = cpixel_size pf.
Proof. unfold cpixel, cpixel_size. destruct (isLowCPixel pf); [done|]. destruct (isHighCPixel pf); [done|]. apply len_opaque. Qed.

Lemma cpixel_size_pos : 0 < cpixel_size pf.
Proof.
  unfold cpixel_size. case_test; [lia|]. unfold pf_size. destruct F as [[->|[->| ->]] _]; done.
Qed.

Lemma readCPixel_ok {S} p rest (s : S) : clean pf p -> readCPixel pf (cpixel pf p ++ rest, s) = (Ok p, (rest, s)).
Proof.
  intros [Hp Hc]. unfold readCPixel, cpixel. destruct (isLowCPixel pf) eqn:Hlow; [|destruct (isHighCPixel pf) eqn:Hhigh; [|by apply mem_readPixel_app]].
  - assert (bpp pf = 32) as Hb by (unfold isLowCPixel in Hlow; bool_decide_hyps; done). destruct (cpixel_flags pf F Hb) as [Hl _].
    rewrite Hlow in Hl. symmetry in Hl. bool_decide_hyps. destruct (Hc Hb) as [_ Hlt]. specialize (Hlt ltac:(done)).
    eapply run_bind; [by apply mem_read_app|]. unfold pixel_wf, pf_size in Hp. rewrite Hb in Hp. change (256 ^ _) with (2 ^ 32) in Hp.
    change (ztake 3 (opaque 4 p)) with (opaque 3 p). rewrite from_opaque_opaque; [done|]. unfold pixel_wf. change (256 ^ Z.of_nat 3) with (2 ^ 24). lia.
  - assert (bpp pf = 32) as Hb by (unfold isHighCPixel in Hhigh; bool_decide_hyps; done). destruct (cpixel_flags pf F Hb) as [_ Hh].
    rewrite Hhigh in Hh. symmetry in Hh. bool_decide_hyps. destruct (Hc Hb) as [Hz _]. specialize (Hz ltac:(done)).
    eapply run_bind; [by apply mem_read_app|]. unfold pixel_wf, pf_size in Hp. rewrite Hb in Hp. change (256 ^ _) with (2 ^ 32) in Hp.
    assert (0 :: ztake 3 (zdrop 1 (opaque 4 p)) = opaque 4 p) as ->.
    { assert (u8 p = 0) as Hu by (unfold u8; by change (2 ^ 8) with 256). transitivity (u8 p :: ztake 3 (zdrop 1 (opaque 4 p))); [by rewrite Hu|done]. }
    by rewrite from_opaque_opaque.
Qed.

Lemma readCPixels_ok {S} ps rest (s : S) : Forall (clean pf) ps -> readCPixels pf (length ps) (writePixels pf ps ++ rest, s) = (Ok ps, (rest, s)).
Proof.
  intros H. rewrite writePixels_eq by done. induction H as [|p ps Hp _ IH]; [done|]. cbn [length map concat readCPixels]. rewrite <- app_assoc.
  eapply run_bind; [by apply readCPixel_ok|]. by eapply run_bind; [exact IH|].
Qed.

Lemma len_writePixels ps : len (writePixels pf ps) = cpixel_size pf * len ps.
Proof. rewrite writePixels_eq by done. rewrite (len_concat_map _ (cpixel_size pf)); [lia|]. apply len_cpixel. Qed.
End cpixels.

(** ** Packed pixels *)

Lemma zlibHasData_ok {S} n bs (s : S) : n <= len bs -> zlibHasData n (bs, s) = (Ok tt, (bs, s)).
Proof. intros H. unfold zlibHasData. by rewrite (proj2 (Z.ltb_ge _ _)). Qed.

(** One byte that is there. *)
Lemma next_byte {S A} v rest (s : S) (f : Z -> SE (list Z * S) A) : 0 <= v < 256 ->
  (zlibHasData 1;; b ← mem_readU8; f b) (writeU8 v ++ rest, s) = f v (rest, s).
Proof.
  intros Hv. pose proof (len_nonneg rest). eapply run_bind; [apply zlibHasData_ok; rewrite len_app, len_writeU8; lia|]. by eapply run_bind; [by apply mem_readU8_app|].
Qed.

Section packed.
Context {S : Type} (bppp : Z) (Hb : bppp = 1 \/ bppp = 2 \/ bppp = 4) (palette : list Z).

(** The index in a byte of which [nbits] bits have been read. *)
Lemma packed_index byte n i : 0 <= n -> n + bppp <= 8 -> 0 <= i < 2 ^ bppp -> 0 <= byte < 256 ->
  (byte / 2 ^ (8 - (n + bppp))) mod 2 ^ bppp = i ->
  Z.land (Z.land (Z.shiftr byte (8 - n - bppp)) (Z.shiftl 1 bppp - 1)) 127 = i.
Proof.
  intros Hn Hn8 Hi Hbyte He. replace (Z.shiftl 1 bppp - 1) with (Z.ones bppp) by (rewrite Z.ones_equiv, Z.shiftl_1_l; lia).
  rewrite Z.land_ones, shiftr_div by lia.
  replace (8 - n - bppp) with (8 - (n + bppp)) by lia. rewrite He. change 127 with (Z.ones 7). rewrite Z.land_ones by lia. apply Z.mod_small.
  destruct Hb as [->|[->| ->]]; cbn in *; lia.
Qed.

(** With [n] bits of the byte in [acc]. *)
Lemma pack_unpack l : Forall (fun i => 0 <= i < 2 ^ bppp) l -> forall acc n, 0 <= acc < 256 -> 0 <= n -> n + bppp <= 8 -> n mod bppp = 0 ->
  exists byte bs, (l = [] /\ n = 0 /\ pack bppp l acc n = [] /\ bs = [] \/
      (l <> [] \/ 0 < n) /\ pack bppp l acc n = byte :: bs /\ 0 <= byte < 256 /\ byte / 2 ^ (8 - n) = acc mod 2 ^ n) /\
    forall rest (s : S), unpack (length l) bppp palette byte (8 - n) (bs ++ rest, s) = (Ok (map (znth 0 palette) l), (rest, s)).
Proof.
  induction 1 as [|i l Hi Hl IH]; intros acc n Hacc Hn Hn8 Hmod.
  - cbn [pack]. destruct (decide (n = 0)) as [->|Hn0].
    + exists 0, []. split; [left; by split_and!|done].
    + eexists _, []. split; [right; split; [right; lia|]|done]. rewrite Z.gtb_ltb, (proj2 (Z.ltb_lt _ _)) by lia. rewrite writeU8_eq. split; [done|].
      unfold u8. rewrite Z.mod_mod by done. split; [apply Z.mod_pos_bound; done|]. rewrite Z.shiftl_mul_pow2 by lia.
      replace (2 ^ 8) with (2 ^ n * 2 ^ (8 - n)) by (rewrite <- Z.pow_add_r by lia; f_equal; lia).
      rewrite Z.mul_mod_distr_r by (apply Z.pow_nonzero; lia). apply Z.div_mul. apply Z.pow_nonzero; lia.
  - cbn [pack]. set (acc' := u8 (Z.lor (Z.shiftl acc bppp) i)).
    assert (acc' = (acc * 2 ^ bppp + i) mod 256) as Hacc'.
    { unfold acc', u8. change (2 ^ 8) with 256. by rewrite lor_shiftl_add by lia. }
    assert (0 <= acc' < 256) as Hr by (rewrite Hacc'; by apply Z.mod_pos_bound).
    assert (0 < bppp) as Hbp by lia. assert (0 < 2 ^ bppp) as Hp by (apply Z.pow_pos_nonneg; lia).
    assert (0 < 2 ^ n) as Hpn by (apply Z.pow_pos_nonneg; lia).
    assert (acc' mod 2 ^ (n + bppp) = acc mod 2 ^ n * 2 ^ bppp + i) as Hlow.
    { rewrite Hacc'. replace 256 with (2 ^ (n + bppp) * 2 ^ (8 - (n + bppp))) by (rewrite <- Z.pow_add_r by lia; by replace (n + bppp + (8 - (n + bppp))) with 8 by lia).
      rewrite Z.mod_mod_divide by (by exists (2 ^ (8 - (n + bppp))); rewrite Z.mul_comm).
      rewrite Z.pow_add_r by lia. symmetry. apply (Z.mod_unique _ _ (acc / 2 ^ n)); [left; pose proof (Z.mod_pos_bound acc (2 ^ n)); nia|].
      pose proof (Z.div_mod acc (2 ^ n)). nia. }
    (* what reading the index of a byte whose front is [acc'] gives *)
    assert (forall byte bs rest (s : S), 0 <= byte < 256 -> byte / 2 ^ (8 - (n + bppp)) = acc' mod 2 ^ (n + bppp) ->
      unpack (length l) bppp palette byte (8 - (n + bppp)) (bs ++ rest, s) = (Ok (map (znth 0 palette) l), (rest, s)) ->
      unpack (length (i :: l)) bppp palette byte (8 - n) (bs ++ rest, s) = (Ok (map (znth 0 palette) (i :: l)), (rest, s))) as Hstep.
    { intros byte bs rest s Hby Hfront Hun. cbn [length unpack]. rewrite (proj2 (Z.eqb_neq (8 - n) 0)) by lia.
      eapply (run_bind _ _ _ (byte, 8 - n)); [done|]. cbv beta iota zeta. rewrite (packed_index byte n i); [|done|done|done|done|].
      - replace (8 - n - bppp) with (8 - (n + bppp)) by lia. by eapply run_bind; [exact Hun|].
      - rewrite Hfront, Hlow. rewrite Z.add_comm, Z_mod_plus_full. by apply Z.mod_small. }
    assert (forall byte, byte / 2 ^ (8 - (n + bppp)) = acc' mod 2 ^ (n + bppp) -> byte / 2 ^ (8 - n) = acc mod 2 ^ n) as Hfront.
    { intros byte Hb'. replace (8 - n) with (8 - (n + bppp) + bppp) by lia. rewrite Z.pow_add_r, <- Z.div_div by (try apply Z.pow_nonzero; try apply Z.pow_pos_nonneg; lia).
      rewrite Hb', Hlow, Z.add_comm, Z.div_add by lia. by rewrite Z.div_small. }
    destruct (decide (n + bppp = 8)) as [H8|H8].
    + rewrite H8, (proj2 (Z.geb_le 8 8)) by lia. destruct (IH acc' 0 Hr ltac:(lia) ltac:(lia) ltac:(by apply Z.mod_0_l; lia)) as (byte' & bs' & Hshape & Hun).
      exists acc', (pack bppp l acc' 0). rewrite H8 in *. assert (acc' / 2 ^ (8 - 8) = acc' mod 2 ^ 8) as Hself.
      { change (2 ^ (8 - 8)) with 1. change (2 ^ 8) with 256. by rewrite Z.div_1_r, Z.mod_small. }
      split; [right; split; [by left|]; split; [by rewrite writeU8_eq, u8_id|]; split; [done|by apply Hfront]|].
      intros rest s. apply Hstep; [done|done|]. destruct l as [|j l]; [done|]. destruct Hshape as [[? _]|(_ & -> & Hby & _)]; [done|].
      specialize (Hun rest s). cbn [length unpack] in Hun |- *. rewrite (proj2 (Z.eqb_neq (8 - 0) 0)) in Hun by lia. rewrite (proj2 (Z.eqb_eq (8 - 8) 0)) by lia.
      change (byte' :: bs') with ([byte'] ++ bs'). rewrite <- (u8_id byte') at 1 by done. rewrite <- writeU8_eq, <- app_assoc.
      eapply run_bind; [rewrite next_byte by done; reflexivity|]. exact Hun.
    + assert ((n + bppp >=? 8) = false) as -> by (rewrite Z.geb_leb; apply Z.leb_gt; lia).
      assert (n + bppp + bppp <= 8) as Hnext.
      { destruct Hb as [->|[->| ->]]; [lia| |]; zlia. }
      destruct (IH acc' (n + bppp) Hr ltac:(lia) Hnext) as (byte & bs & Hshape & Hun).
      { rewrite Z.add_mod, Hmod, Z.mod_same by lia. by rewrite Z.add_0_l, Z.mod_0_l by lia. }
      destruct Hshape as [(_ & ? & _)|(_ & Hpk & Hby & Hf)]; [lia|]. exists byte, bs.
      split; [right; split; [by left|]; split; [done|]; split; [done|by apply Hfront]|]. intros rest s. by apply Hstep.
Qed.

(** A row. *)
Lemma pack_row l : Forall (fun i => 0 <= i < 2 ^ bppp) l -> forall rest (s : S),
  unpack (length l) bppp palette 0 0 (pack bppp l 0 0 ++ rest, s) = (Ok (map (znth 0 palette) l), (rest, s)).
Proof.
  intros Hl rest s. destruct (pack_unpack l Hl 0 0) as (byte & bs & Hshape & Hun); [lia|lia|lia|apply Z.mod_0_l; lia|].
  destruct l as [|i l]; [done|]. destruct Hshape as [[? _]|(_ & -> & Hby & _)]; [done|]. specialize (Hun rest s). cbn [length unpack] in Hun |- *.
  rewrite (proj2 (Z.eqb_neq (8 - 0) 0)) in Hun by lia. rewrite Z.eqb_refl.
  change (byte :: bs) with ([byte] ++ bs). rewrite <- (u8_id byte) at 1 by done. rewrite <- writeU8_eq, <- app_assoc.
  eapply run_bind; [rewrite next_byte by done; reflexivity|]. exact Hun.
Qed.

Lemma pack_rows (rows : list (list Z)) width : Forall (fun row => len row = width /\ Forall (fun i => 0 <= i < 2 ^ bppp) row) rows -> forall rest (s : S),
  unpack_rows (length rows) width bppp palette (concat (map (fun row => pack bppp row 0 0) rows) ++ rest, s) = (Ok (map (znth 0 palette) (concat rows)), (rest, s)).
Proof.
  induction 1 as [|row rows [Hw Hrow] _ IH]; intros rest s; [done|]. cbn [length unpack_rows map concat]. rewrite <- app_assoc.
  replace (Z.to_nat width) with (length row) by (unfold len in Hw; lia). eapply run_bind; [by apply pack_row|].
  eapply run_bind; [apply IH|]. by rewrite map_app.
Qed.
End packed.

(** ** Runs *)

Lemma read_length_ok {S} f : forall run acc fuel rest (s : S), 1 <= run <= 255 * Z.of_nat f -> (length (write_length f run) <= fuel)%nat ->
  read_length fuel acc (write_length f run ++ rest, s) = (Ok (acc + run - 1), (rest, s)).
Proof.
  induction f as [|f IH]; intros run acc fuel rest s Hrun Hf; [lia|]. cbn [write_length] in *. destruct (run >? 255) eqn:Hr; bool_decide_hyps.
  - rewrite length_app in Hf. change (length (writeU8 255)) with 1%nat in Hf. destruct fuel as [|fuel]; [lia|]. cbn [read_length]. rewrite <- app_assoc, next_byte by done.
    change (255 =? 255) with true. cbv iota. rewrite IH by lia. do 2 f_equal. lia.
  - change (length (writeU8 (run - 1))) with 1%nat in Hf. destruct fuel as [|fuel]; [lia|]. cbn [read_length]. rewrite next_byte by lia.
    rewrite (proj2 (Z.eqb_neq _ _)) by lia. unfold mret, SE_ret. do 2 f_equal. lia.
Qed.

Lemma index_byte i : 0 <= i < 128 -> z2b (Z.land i 128) = false /\ Z.land i 127 = i /\ z2b (Z.land (Z.lor i 128) 128) = true /\ Z.land (Z.lor i 128) 127 = i /\ Z.lor i 128 < 256.
Proof. intros Hi. by_range 128 i Hi. Qed.

(** The runs of a list of pixels. *)
Fixpoint runs (pixels : list Z) (prevColour runLength : Z) : list (Z * Z) :=
  match pixels with
  | [] => [(prevColour, runLength)]
  | c :: pixels =>
      if prevColour =? c then runs pixels prevColour (runLength + 1) else (prevColour, runLength) :: runs pixels c 1
  end.
Definition expand (l : list (Z * Z)) : list Z := concat (map (fun cn => replicate (Z.to_nat cn.2) cn.1) l).
Definition total (l : list (Z * Z)) : Z := foldr (fun cn n => cn.2 + n) 0 l.

Lemma write_runs_eq p l : forall c n, write_runs p l c n = concat (map (fun cn => write_run p cn.1 cn.2) (runs l c n)).
Proof.
  induction l as [|d l IH]; intros c n; cbn [write_runs runs]; [cbn; by rewrite app_nil_r|]. case_test; [apply IH|]. cbn [map concat fst snd]. by rewrite IH.
Qed.
Lemma runs_spec l : forall c n, 1 <= n ->
  expand (runs l c n) = replicate (Z.to_nat n) c ++ l /\ total (runs l c n) = n + len l /\ Forall (fun cn => 1 <= cn.2 /\ (cn.1 = c \/ cn.1 ∈ l)) (runs l c n).
Proof.
  induction l as [|d l IH]; intros c n Hn; cbn [runs].
  - split; [unfold expand; cbn; by rewrite !app_nil_r|]. split; [unfold len; cbn; lia|]. constructor; [|constructor]. split; [done|by left].
  - destruct (Z.eqb_spec c d) as [<-|Hne].
    + destruct (IH c (n + 1) ltac:(lia)) as (H1 & H2 & H3). split; [|split; [rewrite H2, len_cons; lia|]].
      * rewrite H1. replace (Z.to_nat (n + 1)) with (Z.to_nat n + 1)%nat by lia. rewrite replicate_add, <- app_assoc. done.
      * eapply Forall_impl; [exact H3|]. cbn. intros cn [? [?|?]]; (split; [done|]); [by left|right; by right].
    + destruct (IH d 1 ltac:(lia)) as (H1 & H2 & H3). split; [|split; [cbn; fold (total (runs l d 1)); rewrite H2, len_cons; lia|]].
      * unfold expand in *. cbn [map concat fst snd]. rewrite H1. done.
      * constructor; [split; [done|by left]|]. eapply Forall_impl; [exact H3|]. cbn. intros cn [? [->|?]]; (split; [done|]); right; [by left|by right].
Qed.
Lemma runs_length l : forall c n, (length (runs l c n) <= S (length l))%nat.
Proof. induction l as [|d l IH]; intros c n; cbn [runs length]; [done|]. case_test; cbn [length]; [specialize (IH c (n + 1))|specialize (IH d 1)]; lia. Qed.

Section runs.
Context (p : palette) (palette : list Z).
Context (Hlookup : forall c, c ∈ (counts p).*1 -> 0 <= pal_lookup p c < 128 /\ znth 0 palette (pal_lookup p c) = c).

Lemma palette_runs_ok {S} l : Forall (fun cn => 1 <= cn.2 /\ cn.1 ∈ (counts p).*1) l -> forall fuel rest (s : S), (length l < fuel)%nat \/ (length l <= fuel)%nat ->
  palette_runs fuel palette (total l) (concat (map (fun cn => write_run p cn.1 cn.2) l) ++ rest, s) = (Ok (expand l), (rest, s)).
Proof.
  induction 1 as [|[c n] l [Hn Hc] Hl IH]; intros fuel rest s Hf; [by destruct fuel|]. cbn [length fst snd] in *. destruct fuel as [|fuel]; [lia|].
  assert (0 <= total l) as Htot. { clear -Hl. induction Hl as [|cn l [Hcn _] _ IH]; [done|]. cbn. fold (total l). lia. }
  cbn [total foldr fst snd palette_runs map concat]. fold (total l). rewrite (proj2 (Z.leb_gt _ _)) by lia. rewrite <- app_assoc. unfold write_run at 1.
  destruct (Hlookup c Hc) as [Hi Hz]. destruct (index_byte _ Hi) as (H0 & H1 & H2 & H3 & H4).
  destruct (Z.eqb_spec n 1) as [->|Hn1].
  - rewrite next_byte by lia. rewrite H0, H1, Hz. eapply (run_bind _ _ _ 1); [done|]. replace (1 + total l - 1) with (total l) by lia.
    eapply run_bind; [apply IH; lia|]. done.
  - rewrite <- app_assoc, next_byte by (split; [apply Z.lor_nonneg; lia|done]). rewrite H2, H3, Hz.
    eapply (run_bind _ _ _ n).
    { unfold read_len. eapply (run_bind _ _ _ _ _); [reflexivity|]. cbv beta. eapply run_bind; [apply read_length_ok|].
      - pose proof (Z.mul_succ_div_gt n 255 ltac:(lia)). pose proof (Z.div_pos n 255 ltac:(lia) ltac:(lia)). lia.
      - cbn [fst]. rewrite length_app. lia.
      - rewrite (proj2 (Z.ltb_ge _ _)) by lia. unfold mret, SE_ret. do 2 f_equal. lia. }
    replace (n + total l - n) with (total l) by lia. eapply run_bind; [apply IH; lia|]. done.
Qed.
End runs.

(** ** A tile *)

Lemma concat_slices data w n : 0 <= w -> forall k, 0 <= k ->
  concat (map (fun i => slice (i * w) (i * w + w) data) (seqZ k (Z.of_nat n))) = slice (k * w) ((k + Z.of_nat n) * w) data.
Proof.
  intros Hw. induction n as [|n IH]; intros k Hk; [cbn; by rewrite Z.add_0_r, slice_empty|].
  rewrite seqZ_cons by lia. replace (Z.pred (Z.of_nat (S n))) with (Z.of_nat n) by lia. cbn [map concat]. rewrite <- Z.add_1_r, IH by lia.
  replace (k * w + w) with ((k + 1) * w) by lia. rewrite slice_app by nia. f_equal. lia.
Qed.
Lemma image_rows_concat image w h : 0 <= w -> 0 <= h -> len image = w * h -> concat (image_rows image w h) = image.
Proof.
  intros Hw Hh Hl. unfold image_rows, rows_of. replace h with (Z.of_nat (Z.to_nat h)) by lia.
  transitivity (slice (0 * w) ((0 + Z.of_nat (Z.to_nat h)) * w) image); [by apply concat_slices|].
  unfold slice, ztake, zdrop. replace (Z.to_nat (0 * w)) with 0%nat by lia. cbn. apply take_ge. unfold len in Hl. lia.
Qed.

Section tile.
Context (pf : PixelFormat) (F : cpixel_format pf) (p : palette) (Hp : palette_ok p) (Hsmall : pal_size p <= 127).
Context (Hclean : Forall (clean pf) (palette_colours p)).

(** What a pixel of the source satisfies. *)
Definition zrle_pixel (c : Z) : Prop := clean pf c /\ (pal_size p = 0 \/ c ∈ (counts p).*1).

Lemma len_palette : length (palette_colours p) = Z.to_nat (pal_size p).
Proof. unfold palette_colours. by rewrite length_map, length_seqZ. Qed.
Lemma palette_index c : c ∈ (counts p).*1 -> 0 <= pal_lookup p c < pal_size p /\ znth 0 (palette_colours p) (pal_lookup p c) = c.
Proof.
  intros Hc. destruct (lookup_counts p Hp c Hc) as (i & n & Hi & Hn & Hg). apply lookup_lt_Some in Hn. rewrite (size_counts p Hp). unfold len.
  split; [lia|]. unfold palette_colours. rewrite znth_map_seqZ; [done|]. rewrite (size_counts p Hp). unfold len. lia.
Qed.
Lemma indices_back image : Forall (fun c => c ∈ (counts p).*1) image -> map (znth 0 (palette_colours p)) (map (pal_lookup p) image) = image.
Proof. induction 1 as [|c l Hc _ IH]; [done|]. cbn [map]. rewrite IH. by destruct (palette_index c Hc) as [_ ->]. Qed.

(** The width of an index, on both sides. *)
Lemma packed_width : 1 < pal_size p <= 16 -> let bppp := bitsPerPackedPixel (pal_size p) in
  bppp = (if pal_size p >? 16 then 8 else if pal_size p >? 4 then 4 else if pal_size p >? 2 then 2 else 1) /\
  (bppp = 1 \/ bppp = 2 \/ bppp = 4) /\ pal_size p <= 2 ^ bppp.
Proof.
  intros Hn. assert (forall n, 0 <= n < 17 -> n <= 1 \/ bitsPerPackedPixel n = (if n >? 16 then 8 else if n >? 4 then 4 else if n >? 2 then 2 else 1) /\
    (bitsPerPackedPixel n = 1 \/ bitsPerPackedPixel n = 2 \/ bitsPerPackedPixel n = 4) /\ n <= 2 ^ bitsPerPackedPixel n) as H.
  { intros n Hr. by_range 17 n Hr. }
  destruct (H (pal_size p)); [lia|lia|done].
Qed.

Context (t : Rect) (pb : pixbuf) (W : pb_wf pb) (He : enclosed_by t (getRect pb) = true) (Hw : 0 < width t <= 64) (Hh : 0 < height t <= 64).
Context (image : list Z) (Hl : len image = width t * height t) (Hpix : Forall zrle_pixel image).

Lemma tile_area : area t = len image.
Proof. unfold area. rewrite (proj2 (is_empty_false t)) by (unfold width, height in *; lia). by rewrite Hl. Qed.

Lemma draw_image rest : exists pb', on_pb (imageRect t image 0) (rest, pb) = (Ok tt, (rest, pb')) /\ tile_drawn t image pb pb'.
Proof. apply draw_tile; try done; lia. Qed.

Lemma image_clean : Forall (clean pf) image.
Proof. eapply Forall_impl; [exact Hpix|]. by intros c [? _]. Qed.
Lemma image_counts : pal_size p <> 0 -> Forall (fun c => c ∈ (counts p).*1) image.
Proof. intros H0. eapply Forall_impl; [exact Hpix|]. by intros c [_ [?|?]]. Qed.

(** The mode and the palette. *)
Lemma tile_head {A} mode rest (f : Z -> list Z -> SE (list Z * pixbuf) A) : 0 <= mode < 256 -> Z.land mode 127 = pal_size p ->
  (zlibHasData 1;; m ← mem_readU8; zlibHasData (cpixel_size pf * Z.land m 127);; pal ← readCPixels pf (Z.to_nat (Z.land m 127)); f m pal)
    (writeU8 mode ++ writePalette pf p ++ rest, pb) = f mode (palette_colours p) (rest, pb).
Proof.
  intros Hm Hs. rewrite next_byte by done. rewrite Hs. assert (len (palette_colours p) = pal_size p) as Hlen.
  { unfold len. rewrite len_palette. unfold pal_size. lia. }
  eapply run_bind. { apply zlibHasData_ok. rewrite len_app. unfold writePalette. rewrite len_writePixels, Hlen by done. pose proof (len_nonneg rest). lia. }
  eapply run_bind; [rewrite <- len_palette; by apply readCPixels_ok|]. done.
Qed.

Lemma raw_tile rest : pal_size p = 0 -> exists pb', zrle_decode_tile pf tt t (writeRawTile pf image ++ rest, pb) = (Ok tt, (rest, pb')) /\ tile_drawn t image pb pb'.
Proof.
  intros H0. destruct (draw_image rest) as (pb' & Hd & Ht). exists pb'. split; [|done]. unfold writeRawTile, zrle_decode_tile. rewrite <- app_assoc, next_byte by done.
  change (Z.land 0 127) with 0. rewrite Z.mul_0_r. eapply run_bind; [apply zlibHasData_ok, len_nonneg|]. eapply (run_bind _ _ _ []); [done|].
  cbn [Z.eqb negb z2b]. change (z2b (Z.land 0 128)) with false. cbn [negb]. eapply (run_bind _ _ _ image); [|exact Hd].
  rewrite tile_area. eapply run_bind. { apply zlibHasData_ok. rewrite len_app, len_writePixels by done. pose proof (len_nonneg rest). lia. }
  unfold len. rewrite Nat2Z.id. apply readCPixels_ok; [done|apply image_clean].
Qed.

Lemma solid_tile rest : pal_size p = 1 -> exists pb', zrle_decode_tile pf tt t (writeU8 1 ++ writePixels pf [getColour p 0] ++ rest, pb) = (Ok tt, (rest, pb')) /\ tile_drawn t image pb pb'.
Proof.
  intros H1. assert (palette_colours p = [getColour p 0]) as Hpal by (unfold palette_colours; by rewrite H1).
  destruct (fillRect_ok pb W t (getColour p 0) He) as (pb' & Hf & W' & Hr & Hd); [lia|lia|]. exists pb'. split.
  - unfold zrle_decode_tile. rewrite <- Hpal. fold (writePalette pf p). cbv zeta. rewrite (tile_head 1 rest) by done. cbv beta.
    change (Z.land 1 127 =? 1) with true. cbv iota. rewrite Hpal. by apply on_pb_ok.
  - split; [done|]. split; [done|]. intros x y Hx Hy. rewrite Hd by done. destruct (contains t (MkPoint x y)) eqn:Hc; [|done].
    rewrite contains_at in Hc. bool_decide_hyps.
    pose proof (pixel_elem (width t) (height t) image (x - px (tl t)) (y - py (tl t)) ltac:(lia) Hl ltac:(unfold in_image; lia)) as Hin.
    pose proof (proj1 (Forall_forall _ _) (image_counts ltac:(lia)) _ Hin) as Hc'. destruct (palette_index _ Hc') as [Hi Hz].
    rewrite H1, Hpal in *. by replace (pal_lookup p _) with 0 in Hz by lia.
Qed.

Lemma packed_tile rest : 1 < pal_size p <= 16 -> exists pb', zrle_decode_tile pf tt t (writePaletteTile pf p (width t) (height t) image ++ rest, pb) = (Ok tt, (rest, pb')) /\ tile_drawn t image pb pb'.
Proof.
  intros Hs. destruct (draw_image rest) as (pb' & Hd & Ht). exists pb'. split; [|done]. destruct (packed_width Hs) as (Hb & Hbs & Hfit).
  unfold writePaletteTile, zrle_decode_tile. rewrite <- !app_assoc.
  assert (Z.land (pal_size p) 127 = pal_size p /\ z2b (Z.land (pal_size p) 128) = false) as [Hm Hrle] by (split; apply index_byte; lia).
  cbv zeta. rewrite (tile_head (pal_size p)) by lia. cbv beta. rewrite Hrle, Hm. rewrite (proj2 (Z.eqb_neq _ 1)), (proj2 (Z.eqb_neq _ 0)) by lia. cbn [negb].
  eapply (run_bind _ _ _ image); [|exact Hd]. rewrite <- Hb. set (bppp := bitsPerPackedPixel _) in *.
  assert (forall row, row ∈ image_rows image (width t) (height t) -> Forall (fun c => c ∈ (counts p).*1) row) as Hrows.
  { intros row Hrow. apply Forall_forall. intros c Hc. apply (proj1 (Forall_forall _ _) (image_counts ltac:(lia))).
    rewrite <- (image_rows_concat image (width t) (height t)) by lia. apply list_elem_of_In, in_concat. exists row. by split; apply list_elem_of_In. }
  assert (concat (map (fun row => pack bppp (map (pal_lookup p) row) 0 0) (image_rows image (width t) (height t))) =
          concat (map (fun row => pack bppp row 0 0) (map (map (pal_lookup p)) (image_rows image (width t) (height t))))) as -> by by rewrite map_map.
  assert (Z.to_nat (height t) = length (map (map (pal_lookup p)) (image_rows image (width t) (height t)))) as Hn.
  { rewrite length_map. unfold image_rows. pose proof (len_rows_of image 0 (width t) (width t) (height t) ltac:(lia)) as Hlr. unfold len in Hlr. lia. }
  rewrite Hn, (pack_rows bppp Hbs (palette_colours p)).
  - do 2 f_equal. rewrite <- concat_map, image_rows_concat by lia. apply indices_back, image_counts. lia.
  - apply Forall_map, Forall_forall. intros row Hrow. split.
    + rewrite len_map. apply (proj1 (Forall_forall _ _) (rows_of_len image 0 (width t) (width t) (height t) ltac:(lia) ltac:(lia) ltac:(nia)) row Hrow).
    + apply Forall_map. eapply Forall_impl; [exact (Hrows row Hrow)|]. intros c Hc. destruct (palette_index c Hc) as [[? ?] _].
      split; [done|]. eapply Z.lt_le_trans; [|exact Hfit]. done.
Qed.

Lemma rle_tile rest : 1 < pal_size p -> exists pb', zrle_decode_tile pf tt t (writePaletteRLETile pf p image ++ rest, pb) = (Ok tt, (rest, pb')) /\ tile_drawn t image pb pb'.
Proof.
  intros Hs. destruct (draw_image rest) as (pb' & Hd & Ht). exists pb'. split; [|done]. unfold writePaletteRLETile, zrle_decode_tile. rewrite <- !app_assoc.
  destruct (index_byte (pal_size p) ltac:(lia)) as (_ & _ & Hrle & Hm & Hlt).
  cbv zeta. rewrite (tile_head (Z.lor (pal_size p) 128)) by first [done|split; [apply Z.lor_nonneg; lia|done]]. cbv beta. rewrite Hrle, Hm.
  rewrite (proj2 (Z.eqb_neq _ 1)), (proj2 (Z.eqb_neq _ 0)) by lia. cbn [negb]. eapply (run_bind _ _ _ image); [|exact Hd].
  pose proof (image_counts ltac:(lia)) as Hcounts. rewrite tile_area. destruct image as [|c l] eqn:Him; [unfold len in Hl; cbn in Hl; nia|].
  change (znth 0 (c :: l) 0) with c. cbn [write_runs]. rewrite Z.eqb_refl. change (0 + 1) with 1. rewrite write_runs_eq.
  destruct (runs_spec l c 1 ltac:(lia)) as (He1 & Ht1 & Hr1). replace (len (c :: l)) with (total (runs l c 1)) by (rewrite Ht1, len_cons; lia).
  rewrite (palette_runs_ok p (palette_colours p)).
  - by rewrite He1.
  - intros d Hin. destruct (palette_index d Hin). split; [lia|done].
  - eapply Forall_impl; [exact Hr1|]. cbn. intros cn [Hn Hin]. split; [done|]. inversion Hcounts as [|? ? Hc Hl']; subst.
    destruct Hin as [->|Hin]; [done|]. by apply (proj1 (Forall_forall _ _) Hl').
  - right. rewrite Ht1. pose proof (runs_length l c 1). unfold len. lia.
Qed.

Lemma zrle_tile rest : let '(_, bs) := zrle_encode_tile pf p tt (width t) (height t) image in
  exists pb', zrle_decode_tile pf tt t (bs ++ rest, pb) = (Ok tt, (rest, pb')) /\ tile_drawn t image pb pb'.
Proof.
  unfold zrle_encode_tile. assert (0 <= pal_size p) by (unfold pal_size; lia). destruct (Z.eqb_spec (pal_size p) 0); [by apply raw_tile|].
  destruct (Z.eqb_spec (pal_size p) 1); [rewrite <- app_assoc; by apply solid_tile|].
  destruct (Z.leb_spec (pal_size p) 16); [apply packed_tile|apply rle_tile]; lia.
Qed.
End tile.

(** ** Round trip *)

Lemma getColour_in p i : palette_ok p -> 0 <= i < pal_size p -> getColour p i ∈ (counts p).*1.
Proof.
  intros Hp Hi. rewrite (size_counts p Hp) in Hi. destruct (lookup_lt_is_Some_2 (counts p) (Z.to_nat i)) as [[c n] Hc]; [unfold len in Hi; lia|].
  destruct (getColour_counts p (Z.to_nat i) c n Hc) as [Hg _]. rewrite Z2Nat.id in Hg by lia. rewrite Hg. apply list_elem_of_fmap. exists (c, n).
  split; [done|]. by eapply list_elem_of_lookup_2.
Qed.

Lemma writeSolidRect_tiles pf p src : palette_ok p -> pal_size p = 1 -> forall ts, pb_wf src ->
  (forall t, t ∈ ts -> enclosed_by t (getRect src) = true /\ 0 <= width t /\ 0 <= height t) ->
  encode_tiles (zrle_encode_tile pf p) src ts tt = Ok (tt, concat (replicate (length ts) (writeU8 1 ++ writePixels pf [getColour p 0]))).
Proof.
  intros Hp H1 ts W. induction ts as [|t ts IH]; intros Hts; [done|]. destruct (Hts t ltac:(by left)) as (He & Hw & Hh).
  destruct (getImage_ok src W t He Hw Hh) as (image & Hi & _). cbn [encode_tiles length replicate concat]. rewrite Hi. cbn [mbind res_bind].
  unfold zrle_encode_tile at 1. rewrite H1. cbn [Z.eqb]. rewrite IH by (intros; apply Hts; by right). done.
Qed.

(** With one colour the tiles of [writeSolidRect] are those of [writeRect]. *)
Lemma solid_equiv pf p src : palette_ok p -> pal_size p = 1 -> pb_wf src -> 0 < pb_width src -> 0 < pb_height src ->
  encode_tiles (zrle_encode_tile pf p) src (tiles 64 (getRect src)) tt = Ok (tt, zrle_writeSolidRect pf (pb_width src) (pb_height src) (getColour p 0)).
Proof.
  intros Hp H1 W Hw Hh. rewrite writeSolidRect_tiles; [|done|done|done|].
  - unfold zrle_writeSolidRect. do 4 f_equal. pose proof (len_tiles 64 eq_refl (getRect src)) as Hl. unfold width, height in Hl. cbn in Hl. rewrite !Z.sub_0_r in Hl.
    specialize (Hl ltac:(lia) ltac:(lia)). change (64 - 1) with 63 in Hl. rewrite <- Hl. unfold len. by rewrite Nat2Z.id.
  - intros t Ht. destruct (tiles_spec 64 eq_refl (getRect src) t Ht) as (Ha & Hb & Hc & Hd & He & Hf).
    split; [|lia]. eapply enclosed_trans; [by apply full_rect|done..].
Qed.

(** C20: what the ZRLE encoder gives to the compression for a rectangle decodes to
    the pixels of the rectangle, and nothing else of the client's buffer changes,
    in a format whose pixels both sides pack alike. *)
Theorem zrle_roundtrip (pf : PixelFormat) (src pb : pixbuf) (r : Rect) (p : palette) :
  cpixel_format pf -> source (pf_size pf) src -> palette_of p src -> pal_size p <= 127 ->
  (forall x y, in_image (pb_width src) (pb_height src) x y -> clean pf (pb_at src x y)) -> target r src pb ->
  exists bs pb', zrle_writeRect pf src p = Ok bs /\ zrle_decodeRect pf r (bs, pb) = (Ok tt, ([], pb')) /\ drawn r src pb pb'.
Proof.
  intros F HS HP Hsmall Hclean HT. pose proof HP as [Hok Hcols].
  assert (forall x y, in_image (pb_width src) (pb_height src) x y -> zrle_pixel pf p (pb_at src x y)) as Hpix.
  { intros x y Hin. split; [by apply Hclean|]. destruct Hcols as [H0|Hc]; [left; by rewrite size_counts, H0|]. right. apply Hc. by exists x, y. }
  assert (Forall (clean pf) (palette_colours p)) as Hpal.
  { apply Forall_map, Forall_forall. intros i Hi%elem_of_seqZ. pose proof (getColour_in p i Hok ltac:(lia)) as Hin.
    destruct Hcols as [H0|Hc]; [rewrite H0 in Hin; by apply not_elem_of_nil in Hin|]. apply Hc in Hin as (x & y & Hxy & <-). by apply Hclean. }
  destruct (tiled_roundtrip 64 eq_refl (zrle_encode_tile pf p) (zrle_decode_tile pf) (pf_size pf) (fun _ _ => True) (zrle_pixel pf p)) with
    (src := src) (pb := pb) (r := r) (e := tt) (d := tt) (rest := @nil Z) as ([] & bs & [] & pb' & Henc & Hdec & _ & Hd); try done.
  - intros [] [] t pb0 image rest _ W He Hw Hh Hl Hi. pose proof (zrle_tile pf F p Hok Hsmall Hpal t pb0 W He Hw Hh image Hl Hi rest) as Htile.
    destruct (zrle_encode_tile pf p tt (width t) (height t) image) as [[] bs]. destruct Htile as (pb' & Hrun & Hd). by exists tt, pb'.
  - rewrite app_nil_r in Hdec. exists bs, pb'. split; [|by split]. unfold zrle_writeRect. destruct (Z.eqb_spec (pal_size p) 1) as [H1|_]; [|by rewrite Henc].
    destruct HS as (Ws & Hw & Hh & _). rewrite solid_equiv in Henc by (try done; lia). by injection Henc as ->.
Qed.

(** Three colours of a format with a byte unused. *)
Lemma sample_clean x y : in_image (pb_width sample_src) (pb_height sample_src) x y -> clean rgb888 (pb_at sample_src x y).
Proof.
  intros Hin. destruct sample_source as (_ & _ & _ & _ & Hp). specialize (Hp x y Hin). unfold pixel_wf in Hp. change (256 ^ Z.of_nat 1) with 256 in Hp.
  split; [unfold pixel_wf; change (256 ^ Z.of_nat (pf_size rgb888)) with (2 ^ 32); lia|]. intros _. split; [intros H; by vm_compute in H|intros _; lia].
Qed.
Lemma sample_source4 : source 4 sample_src.
Proof.
  destruct sample_source as (H1 & H2 & H3 & H4 & _). split_and!; try done; try lia. intros x y Hin. by destruct (sample_clean x y Hin) as [? _].
Qed.

Lemma zrle_roundtrip_witness : exists bs pb', zrle_writeRect rgb888 sample_src sample_palette = Ok bs /\
  zrle_decodeRect rgb888 (rect 1 1 5 4) (bs, sample_pb) = (Ok tt, ([], pb')) /\ pb_at pb' 1 3 = 5 /\ pb_at pb' 0 0 = 1 /\
  bs = [3; 7; 0; 0; 9; 0; 0; 5; 0; 0; 0; 20; 150].
Proof.
  destruct (zrle_roundtrip rgb888 sample_src sample_pb (rect 1 1 5 4) sample_palette) as (bs & pb' & He & Hd & _ & _ & Hat).
  - split; [right; by right|]. intros _ _. split; [done|]. left. by vm_compute.
  - exact sample_source4.
  - exact sample_palette_of.
  - by vm_compute.
  - exact sample_clean.
  - exact sample_target.
  - exists bs, pb'. split; [exact He|]. split; [exact Hd|]. split; [exact (Hat 1 3 ltac:(cbn; lia) ltac:(cbn; lia))|].
    split; [exact (Hat 0 0 ltac:(cbn; lia) ltac:(cbn; lia))|]. vm_compute in He. injection He as <-. reflexivity.
Defined.

(** In other formats the two sides differ: with the first and the last byte
    unused the encoder sends the bytes behind the first, which the decoder takes
    for the first three; with a depth over 24 it sends three bytes, where the
    decoder wants four. *)
Definition middle_bytes : PixelFormat := MkPF 32 16 true false 31 63 31 19 13 8.
Definition deep_pixels : PixelFormat := MkPF 32 32 true false 255 255 255 16 8 0.
Lemma cpixels_differ : isSane middle_bytes = true /\ isSane deep_pixels = true /\
  (readCPixel middle_bytes (writePixels middle_bytes [0x123400], tt)).1 = Ok 0x001234 /\
  len (writePixels deep_pixels [0x123456]) = 3 /\ cpixel_size deep_pixels = 4.
Proof. by vm_compute. Qed.
