(* ===== verification/Regions.v ===== *)
(** * Regions ([core/Region.cxx])

    A region is pixman's: a list of boxes, in bands from the top to the bottom and
    from the left to the right in a band.  pixman is an interface here, stated by
    which points a region covers; what the class adds is the order in which
    [get_rects] gives the boxes.  The order is what makes it safe to move the
    boxes of a region one after the other. *)
From stdpp Require Import base gmap sets numbers strings option list sorting.
From S2P Require Import Prelude Geometry.
#[local] Open Scope Z_scope.

(** ** pixman *)

Class Pixman (region : Type) := {
  init : region;
  init_rect : Z -> Z -> Z -> Z -> region;
  region_translate : region -> Z -> Z -> region;
  region_intersect : region -> region -> region;
  region_union : region -> region -> region;
  region_subtract : region -> region -> region;
  rectangles : region -> list Rect
}.

(** [a] comes before [b] in the list of boxes. *)
Definition box_before (a b : Rect) : Prop :=
  (py (tl a) = py (tl b) /\ py (br a) = py (br b) /\ px (br a) <= px (tl b)) \/ py (br a) <= py (tl b).
Definition banded (boxes : list Rect) : Prop :=
  Forall (fun b => is_empty b = false) boxes /\ StronglySorted box_before boxes.

(** Coordinates are [int16_t]. *)
Definition int16_rect (x y w h : Z) : Prop := - 2 ^ 15 <= x /\ - 2 ^ 15 <= y /\ 0 <= w /\ 0 <= h /\ x + w < 2 ^ 15 /\ y + h < 2 ^ 15.

Section region.
Context {region : Type} {pixman : Pixman region}.

Definition in_rects (rects : list Rect) (p : Point) : bool := existsb (fun b => contains b p) rects.
Definition covers (r : region) (p : Point) : bool := in_rects (rectangles r) p.

(** What pixman documents. *)
Class PixmanLaws : Prop := {
  rectangles_banded r : banded (rectangles r);
  covers_init p : covers init p = false;
  covers_rect x y w h p : int16_rect x y w h -> covers (init_rect x y w h) p = contains (setXYWH x y w h) p;
  covers_intersect a b p : covers (region_intersect a b) p = covers a p && covers b p;
  covers_union a b p : covers (region_union a b) p = covers a p || covers b p;
  covers_subtract a b p : covers (region_subtract a b) p = covers a p && negb (covers b p)
}.

(** ** [Region] *)

Definition Region_rect (r : Rect) : region := init_rect (px (tl r)) (py (tl r)) (width r) (height r).
Definition numRects (r : region) : Z := len (rectangles r).
Definition region_is_empty (r : region) : bool := numRects r =? 0.

(** The bands of a list of boxes: those that follow each other with the same
    upper edge. *)
Fixpoint bands (boxes : list Rect) : list (list Rect) :=
  match boxes with
  | [] => []
  | b :: boxes =>
      match bands boxes with
      | (c :: band) :: rest =>
          if py (tl b) =? py (tl c) then (b :: c :: band) :: rest else [b] :: (c :: band) :: rest
      | rest => [b] :: rest
      end
  end.
Definition in_order {A} (forwards : bool) (l : list A) : list A := if forwards then l else reverse l.
Definition get_rects (r : region) (left2right topdown : bool) : list Rect :=
  concat (map (in_order left2right) (in_order topdown (bands (rectangles r)))).

(** ** Properties *)

Lemma in_rects_app l k p : in_rects (l ++ k) p = in_rects l p || in_rects k p.
Proof. unfold in_rects. by rewrite existsb_app. Qed.
Lemma in_rects_spec l p : in_rects l p = true <-> exists b, b ∈ l /\ contains b p = true.
Proof. unfold in_rects. rewrite existsb_exists. split; intros (b & Hb & Hc); exists b; (split; [by apply list_elem_of_In|done]). Qed.
Lemma in_rects_perm l k p : l ≡ₚ k -> in_rects l p = in_rects k p.
Proof. intros H. apply eq_true_iff_eq. rewrite !in_rects_spec. by setoid_rewrite H. Qed.

Lemma in_order_perm {A} f (l : list A) : in_order f l ≡ₚ l.
Proof. destruct f; [done|]. apply reverse_Permutation. Qed.

Lemma bands_cons b boxes : bands (b :: boxes) = match bands boxes with
  | (c :: band) :: rest => if py (tl b) =? py (tl c) then (b :: c :: band) :: rest else [b] :: (c :: band) :: rest
  | rest => [b] :: rest end.
Proof. done. Qed.
Lemma bands_concat boxes : concat (bands boxes) = boxes /\ Forall (fun band => band <> []) (bands boxes).
Proof.
  induction boxes as [|b boxes [IH Hne]]; [by split|]. rewrite bands_cons. destruct (bands boxes) as [|[|c band] rest].
  - cbn in *. subst. split; [done|]. by constructor.
  - by inversion Hne.
  - case_test; cbn in *; rewrite IH; (split; [done|]); inversion Hne; subst; by repeat constructor.
Qed.

Lemma concat_map_order {A} f (l : list (list A)) : concat (map (in_order f) l) ≡ₚ concat l.
Proof. induction l as [|x l IH]; [done|]. cbn. by rewrite IH, in_order_perm. Qed.
Lemma get_rects_perm r f g : get_rects r f g ≡ₚ rectangles r.
Proof.
  unfold get_rects. rewrite concat_map_order. destruct (bands_concat (rectangles r)) as [Hc _]. rewrite <- Hc at 2.
  destruct g; [done|]. cbn. generalize (bands (rectangles r)) as l. clear. intros l. induction l as [|x l IH]; [done|].
  rewrite reverse_cons, concat_app. cbn. rewrite app_nil_r, IH. apply Permutation_app_comm.
Qed.
Lemma in_get_rects r f g p : in_rects (get_rects r f g) p = covers r p.
Proof. apply in_rects_perm, get_rects_perm. Qed.
Lemma len_get_rects r f g : len (get_rects r f g) = numRects r.
Proof. unfold numRects, len. by rewrite (get_rects_perm r f g). Qed.

(** ** The order of the boxes *)

Lemma sorted_reverse {A} (R : relation A) l : StronglySorted R l -> StronglySorted (flip R) (reverse l).
Proof.
  induction 1 as [|x l Hl IH Hx]; [constructor|]. rewrite reverse_cons. apply StronglySorted_app_2; [|exact IH|repeat constructor].
  intros a b Ha ->%list_elem_of_singleton. rewrite list.elem_of_reverse in Ha. exact (proj1 (Forall_forall _ _) Hx a Ha).
Qed.
Lemma sorted_in_order {A} (R : relation A) f l : StronglySorted R l -> StronglySorted (fun a b => if f : bool then R a b else R b a) (in_order f l).
Proof. destruct f; [done|]. apply sorted_reverse. Qed.
(** Sorted lists, each before the next. *)
Definition all_before {A} (R : relation A) (l k : list A) : Prop := forall a b, a ∈ l -> b ∈ k -> R a b.
Lemma sorted_concat {A} (R : relation A) ll : Forall (StronglySorted R) ll -> StronglySorted (all_before R) ll -> StronglySorted R (concat ll).
Proof.
  induction ll as [|l ll IH]; intros Hs Ho; [constructor|]. inversion Hs as [|? ? Hl Hll]; inversion Ho as [|? ? Ho1 Ho2]; subst. cbn. apply StronglySorted_app_2; [|done|by apply IH].
  intros a b Ha (k & Hk & Hb)%list_elem_of_In%in_concat. apply list_elem_of_In in Hk, Hb.
  exact (proj1 (Forall_forall _ _) Ho2 k Hk a b Ha Hb).
Qed.

Definition beside (a b : Rect) : Prop := py (tl a) = py (tl b) /\ py (br a) = py (br b) /\ px (br a) <= px (tl b).
Definition above (a b : Rect) : Prop := py (br a) <= py (tl b).

Lemma bands_sorted boxes : banded boxes -> Forall (StronglySorted beside) (bands boxes) /\ StronglySorted (all_before above) (bands boxes) /\
  Forall (fun band => forall a b, a ∈ band -> b ∈ band -> py (tl a) = py (tl b) /\ py (br a) = py (br b)) (bands boxes).
Proof.
  intros [Hne Hs]. induction Hs as [|b boxes Hs IH Hb]; [by repeat constructor|]. inversion Hne as [|? ? Hneb Hne']; subst.
  destruct (IH Hne') as (H1 & H2 & H3). destruct (bands_concat boxes) as [Hc Hnil]. rewrite bands_cons.
  rewrite Forall_forall in Hb, Hne'. apply is_empty_false in Hneb as [_ Hneb].
  destruct (bands boxes) as [|[|c band] rest]; [|by inversion Hnil|].
  { split; [repeat constructor|]. split; [repeat constructor|]. constructor; [|done]. by intros x y ->%list_elem_of_singleton ->%list_elem_of_singleton. }
  assert (forall x, x ∈ c :: band -> x ∈ boxes) as Hin1 by (intros x Hx; rewrite <- Hc; cbn; set_solver).
  assert (forall x k, k ∈ rest -> x ∈ k -> x ∈ boxes /\ above c x) as Hin2.
  { intros x k Hk Hx. split.
    - rewrite <- Hc. cbn. rewrite app_comm_cons. apply list.elem_of_app. right. apply list_elem_of_In, in_concat. exists k. by split; apply list_elem_of_In.
    - inversion H2 as [|? ? _ Hall]; subst. apply (proj1 (Forall_forall _ _) Hall k Hk c x); [by left|done]. }
  inversion H1 as [|? ? Hs1 Hs2]; inversion H2 as [|? ? Ho1 Ho2]; inversion H3 as [|? ? He1 He2]; subst. destruct (Z.eqb_spec (py (tl b)) (py (tl c))) as [Heq|Hneq].
  - assert (forall x, x ∈ c :: band -> beside b x) as Hbeside.
    { intros x Hx. destruct (He1 x c Hx ltac:(by left)) as [Ht _]. destruct (Hb x (Hin1 x Hx)) as [?|?]; [done|lia]. }
    split; [|split].
    + constructor; [|done]. constructor; [done|]. apply Forall_forall, Hbeside.
    + constructor; [done|]. apply Forall_forall. intros k Hk x y Hx Hy. apply list.elem_of_cons in Hx as [->|Hx].
      * destruct (Hin2 y k Hk Hy) as [_ Hab]. destruct (Hbeside c ltac:(by left)) as (_ & Hbc & _). unfold above in *. lia.
      * by apply (proj1 (Forall_forall _ _) Ho2 k Hk x y).
    + constructor; [|done]. assert (forall x, x ∈ b :: c :: band -> py (tl x) = py (tl c) /\ py (br x) = py (br c)) as Hall.
      { intros x [->|Hx]%list.elem_of_cons; [destruct (Hbeside c ltac:(by left)) as (? & ? & _); by split|]. by apply He1; [|left]. }
      intros x y Hx Hy. destruct (Hall x Hx), (Hall y Hy). by split; congruence.
  - assert (above b c) as Hbc by (destruct (Hb c (Hin1 c ltac:(by left))) as [(? & _)|?]; [done|done]).
    split; [constructor; [repeat constructor|done]|]. split.
    + constructor; [done|]. apply Forall_forall. intros k Hk x y ->%list_elem_of_singleton Hy. apply list.elem_of_cons in Hk as [->|Hk].
      * destruct (He1 y c Hy ltac:(by left)) as [Ht _]. unfold above in *. lia.
      * destruct (Hin2 y k Hk Hy) as [_ Hab]. pose proof (Hne' c (Hin1 c ltac:(by left))) as Hcne. apply is_empty_false in Hcne. unfold above in *. lia.
    + constructor; [|done]. by intros x y ->%list_elem_of_singleton ->%list_elem_of_singleton.
Qed.

(** [a] comes before [b] in [get_rects]. *)
Definition step_before (left2right topdown : bool) (a b : Rect) : Prop :=
  (if left2right then beside a b else beside b a) \/ (if topdown then above a b else above b a).

Lemma sorted_impl {A} (R S : relation A) l : (forall a b, R a b -> S a b) -> StronglySorted R l -> StronglySorted S l.
Proof. intros H. induction 1 as [|x l Hl IH Hx]; constructor; [done|]. eapply Forall_impl; [exact Hx|]. intros. by apply H. Qed.

Lemma get_rects_sorted {laws : PixmanLaws} r f g : StronglySorted (step_before f g) (get_rects r f g).
Proof.
  destruct (bands_sorted _ (rectangles_banded r)) as (H1 & H2 & _). unfold get_rects. apply sorted_concat.
  - apply Forall_map, Forall_forall. intros band Hband. rewrite (in_order_perm g) in Hband.
    pose proof (proj1 (Forall_forall _ _) H1 band Hband) as Hs. eapply sorted_impl; [|apply sorted_in_order; exact Hs]. intros a b H. by left.
  - apply (sorted_in_order _ g) in H2. induction H2 as [|l ll Hll IH Hl]; [constructor|]. cbn. constructor; [done|].
    apply Forall_map. eapply Forall_impl; [exact Hl|]. intros k Hk a b Ha Hb. rewrite in_order_perm in Ha. rewrite in_order_perm in Hb. right. by destruct g; apply Hk.
Qed.
(** A region is empty when it covers nothing. *)
Lemma region_not_empty {laws : PixmanLaws} r : region_is_empty r = false <-> exists p, covers r p = true.
Proof.
  unfold region_is_empty, numRects, covers. destruct (rectangles_banded r) as [Hne _]. destruct (rectangles r) as [|b l]; [split; [done|by intros (? & ?)]|].
  rewrite len_cons. pose proof (len_nonneg l). rewrite (proj2 (Z.eqb_neq _ _)) by lia. split; [intros _|done]. inversion Hne as [|? ? Hb _]; subst.
  apply is_empty_false in Hb. exists (tl b). unfold in_rects. cbn.
  assert (contains b (tl b) = true) as -> by (destruct b as [[] []]; apply contains_spec; cbn in *; lia). done.
Qed.
Lemma get_rects_nonempty {laws : PixmanLaws} r f g : Forall (fun b => is_empty b = false) (get_rects r f g).
Proof. rewrite get_rects_perm. apply rectangles_banded. Qed.
End region.
Arguments PixmanLaws region {pixman}.

(** The boxes of a region may be moved by [delta] one after the other, in the
    order that [writeCopyRects] asks for: what is written does not reach into what
    is still to be read. *)
Definition apart (delta : Point) (a b : Rect) : Prop := forall p, contains a p = true -> contains b (pt_translate p delta) = false.
Lemma copy_order {region} {pixman : Pixman region} {laws : PixmanLaws region} (r : region) (delta : Point) :
  StronglySorted (apart delta) (get_rects r (px delta <=? 0) (py delta <=? 0)).
Proof.
  eapply sorted_impl; [|apply get_rects_sorted]. intros a b Hab [x y] Ha. apply contains_spec in Ha. apply not_true_iff_false.
  intros Hb. unfold pt_translate in Hb. cbn [px py] in Hb. apply contains_spec in Hb. unfold step_before, beside, above in Hab.
  destruct (Z.leb_spec (px delta) 0), (Z.leb_spec (py delta) 0); lia.
Qed.

(** ** A region as a set of points *)

Module Points.
Definition set : Type := gset (Z * Z).
Definition unit_box (p : Z * Z) : Rect := rect p.1 p.2 (p.1 + 1) (p.2 + 1).
(** From the top to the bottom, and from the left to the right. *)
Definition row_major (p q : Z * Z) : Prop := p.2 < q.2 \/ p.2 = q.2 /\ p.1 <= q.1.
#[local] Instance row_major_dec p q : Decision (row_major p q).
Proof. unfold row_major. apply _. Defined.
#[local] Instance row_major_total : Total row_major.
Proof. intros [] []. unfold row_major. cbn. lia. Qed.
#[local] Instance row_major_trans : Transitive row_major.
Proof. intros [] [] []. unfold row_major. cbn. lia. Qed.

Definition grid (x y w h : Z) : list (Z * Z) := xi ← seqZ x w; yi ← seqZ y h; [(xi, yi)].

#[export] Instance pixman_points : Pixman set := {
  init := ∅;
  init_rect x y w h := list_to_set (grid x y w h);
  region_translate s dx dy := set_map (fun p => (p.1 + dx, p.2 + dy)) s;
  region_intersect s t := s ∩ t;
  region_union s t := s ∪ t;
  region_subtract s t := s ∖ t;
  rectangles s := map unit_box (merge_sort row_major (elements s))
}.

Lemma contains_unit q x y : contains (unit_box q) (MkPoint x y) = bool_decide (q = (x, y)).
Proof.
  apply eq_true_iff_eq. rewrite contains_spec, bool_decide_eq_true. destruct q as [qx qy]. cbn. split; [intros; f_equal; lia|intros [= -> ->]; lia].
Qed.
Lemma covers_elem (s : set) x y : covers s (MkPoint x y) = bool_decide ((x, y) ∈ s).
Proof.
  apply eq_true_iff_eq. unfold covers. rewrite in_rects_spec, bool_decide_eq_true. split.
  - intros (b & (q & -> & Hq)%list_elem_of_fmap & Hc). rewrite contains_unit in Hc. apply bool_decide_eq_true in Hc as ->.
    rewrite merge_sort_Permutation in Hq. by apply elem_of_elements.
  - intros Hin. exists (unit_box (x, y)). split; [|by rewrite contains_unit, bool_decide_eq_true_2].
    apply list_elem_of_fmap. exists (x, y). split; [done|]. rewrite merge_sort_Permutation. by apply elem_of_elements.
Qed.
Lemma elem_of_grid x y w h p : p ∈ grid x y w h <-> x <= p.1 < x + w /\ y <= p.2 < y + h.
Proof.
  unfold grid. rewrite list_elem_of_bind. setoid_rewrite list_elem_of_bind. setoid_rewrite list_elem_of_singleton. setoid_rewrite elem_of_seqZ. split.
  - intros (a & (b & -> & Hb) & Ha). cbn. lia.
  - intros [Hx Hy]. exists p.1. split; [|done]. exists p.2. split; [by destruct p|done].
Qed.

#[export] Instance points_laws : PixmanLaws set.
Proof.
  split.
  - intros s. split; [apply Forall_map, Forall_forall; intros q _; apply is_empty_false; cbn; lia|].
    assert (StronglySorted row_major (merge_sort row_major (elements s))) as Hs by (apply StronglySorted_merge_sort; apply _).
    assert (NoDup (merge_sort row_major (elements s))) as Hnd by (rewrite merge_sort_Permutation; apply NoDup_elements).
    cbn. induction Hs as [|p l Hl IH Hp]; [constructor|]. apply NoDup_cons in Hnd as [Hnin Hnd]. cbn. constructor; [by apply IH|].
    apply Forall_map. apply Forall_forall. intros q Hq. pose proof (proj1 (Forall_forall _ _) Hp q Hq) as Hpq.
    assert (p <> q) as Hne by (intros ->; done). destruct p as [px0 py0], q as [qx qy]. unfold row_major, box_before in *. cbn in *.
    destruct (decide (px0 = qx)) as [->|]; [|lia]. destruct (decide (py0 = qy)) as [->|]; [done|lia].
  - intros [x y]. rewrite covers_elem. apply bool_decide_eq_false_2. cbn. set_solver.
  - intros x y w h [a b] _. rewrite covers_elem. apply eq_true_iff_eq. rewrite bool_decide_eq_true, contains_spec. cbn.
    rewrite elem_of_list_to_set, elem_of_grid. done.
  - intros s t [x y]. rewrite !covers_elem. apply eq_true_iff_eq. rewrite andb_true_iff, !bool_decide_eq_true. cbn. set_solver.
  - intros s t [x y]. rewrite !covers_elem. apply eq_true_iff_eq. rewrite orb_true_iff, !bool_decide_eq_true. cbn. set_solver.
  - intros s t [x y]. rewrite !covers_elem. apply eq_true_iff_eq. rewrite andb_true_iff, negb_true_iff, !bool_decide_eq_true, bool_decide_eq_false. cbn. set_solver.
Qed.
End Points.
