(* ===== verification/Analysis.v ===== *)
(** * How the server looks at pixels before it encodes them ([rfb/EncodeManager.cxx])

    The division of a rectangle into parts that are not too large, the palette of
    a part, and the search for rectangles of one colour. *)
From stdpp Require Import base sets numbers strings option list sorting.
From S2P Require Import Prelude Geometry Palette Pixels RRE Tiles Regions.
#[local] Open Scope Z_scope.

Definition SubRectMaxArea : Z := 65536.
Definition SubRectMaxWidth : Z := 2048.
Definition SolidSearchBlock : Z := 16.
Definition SolidBlockMinArea : Z := 2048.

(** ** Parts of a rectangle *)

Definition no_split (r : Rect) : bool := (width r * height r <? SubRectMaxArea) && (width r <? SubRectMaxWidth).
Definition sub_width (r : Rect) : Z := if width r <=? SubRectMaxWidth then width r else SubRectMaxWidth.
Definition sub_height (r : Rect) : Z := SubRectMaxArea / sub_width r.

(** The rectangles [writeRects] hands to [writeSubRect]. *)
Definition sub_rects (r : Rect) : list Rect :=
  if no_split r then [r] else cut (sub_width r) (sub_height r) r.

(** What [computeNumRects] adds for a rectangle. *)
Definition num_sub_rects (r : Rect) : Z :=
  if no_split r then 1 else ((width r - 1) / sub_width r + 1) * ((height r - 1) / sub_height r + 1).

(** ** The palette of a part *)

Record RectInfo := MkInfo { rleRuns : Z; info_palette : palette }.

(** The loop over the pixels, with [count] pixels of [colour] behind it that are
    not in the palette yet; the last ones are added at the end. *)
Fixpoint analyse_pixels (pixels : list Z) (colour count runs : Z) (p : palette) (maxColours : Z) : bool * RectInfo :=
  match pixels with
  | [] =>
      let '(ok, p) := pal_insert colour count p in
      (ok && negb (pal_size p >? maxColours), MkInfo runs p)
  | c :: pixels =>
      if negb (c =? colour) then
        let '(ok, p) := pal_insert colour count p in
        if negb ok || (pal_size p >? maxColours) then (false, MkInfo runs p)
        else analyse_pixels pixels c 1 (runs + 1) p maxColours
      else analyse_pixels pixels colour (count + 1) runs p maxColours
  end.

Definition pixels_of (pb : pixbuf) : list Z :=
  concat (rows_of (pb_data pb) 0 (pb_stride pb) (pb_width pb) (pb_height pb)).
Definition analyseRect (pb : pixbuf) (maxColours : Z) : bool * RectInfo :=
  analyse_pixels (pixels_of pb) (znth 0 (pixels_of pb) 0) 0 0 new_palette maxColours.

(** ** Rectangles of one colour *)

Definition checkSolidTile (r : Rect) (colour : Z) (pb : pixbuf) : res bool :=
  buffer ← getBuffer pb r;
  mret (forallb (forallb (fun p => p =? colour)) (rows_of (pb_data pb) buffer (pb_stride pb) (width r) (height r))).

(** [for (dx = ...; dx < limit;)], at most [fuel] blocks. *)
Fixpoint extend_row (fuel : nat) (dx limit dy dh colour : Z) (pb : pixbuf) : res Z :=
  match fuel with
  | O => Ok dx
  | S fuel =>
      if dx <? limit then
        let dw := if dx + SolidSearchBlock >? limit then limit - dx else SolidSearchBlock in
        solid ← checkSolidTile (setXYWH dx dy dw dh) colour pb;
        if (solid : bool) then extend_row fuel (dx + dw) limit dy dh colour pb else mret dx
      else Ok dx
  end.

(** The rows of blocks from [dy] on. *)
Fixpoint extend_rows (fuel : nat) (r : Rect) (dy w_prev w_best h_best colour : Z) (pb : pixbuf) : res (Z * Z) :=
  match fuel with
  | O => Ok (w_best, h_best)
  | S fuel =>
      if dy <? py (br r) then
        let dh := if dy + SolidSearchBlock >? py (br r) then py (br r) - dy else SolidSearchBlock in
        let dw := if SolidSearchBlock >? w_prev then w_prev else SolidSearchBlock in
        solid ← checkSolidTile (setXYWH (px (tl r)) dy dw dh) colour pb;
        if negb solid then mret (w_best, h_best) else
        dx ← extend_row (Z.to_nat w_prev) (px (tl r) + dw) (px (tl r) + w_prev) dy dh colour pb;
        let w_prev := dx - px (tl r) in
        let h := dy + dh - py (tl r) in
        let '(w_best, h_best) := if w_prev * h >? w_best * h_best then (w_prev, h) else (w_best, h_best) in
        extend_rows fuel r (dy + SolidSearchBlock) w_prev w_best h_best colour pb
      else Ok (w_best, h_best)
  end.
Definition extendSolidAreaByBlock (r : Rect) (colour : Z) (pb : pixbuf) : res Rect :=
  '(w_best, h_best) ← extend_rows (Z.to_nat (height r)) r (py (tl r)) (width r) 0 0 colour pb;
  mret (rect (px (tl r)) (py (tl r)) (px (tl r) + w_best) (py (tl r) + h_best)).

(** [for (c = ...; ...; c += step) if (!test(c)) break;] for [n] places. *)
Fixpoint scan_lines (n : nat) (test : Z -> res bool) (step c : Z) : res Z :=
  match n with
  | O => Ok c
  | S n => ok ← test c; if (ok : bool) then scan_lines n test step (c + step) else mret c
  end.
Definition extendSolidAreaByPixel (r sr : Rect) (colour : Z) (pb : pixbuf) : res Rect :=
  let row cy := checkSolidTile (setXYWH (px (tl sr)) cy (width sr) 1) colour pb in
  up ← scan_lines (Z.to_nat (py (tl sr) - py (tl r))) row (-1) (py (tl sr) - 1);
  let top := up + 1 in
  bottom ← scan_lines (Z.to_nat (py (br r) - py (br sr))) row 1 (py (br sr));
  let column cx := checkSolidTile (setXYWH cx top 1 (bottom - top)) colour pb in
  lft ← scan_lines (Z.to_nat (px (tl sr) - px (tl r))) column (-1) (px (tl sr) - 1);
  right ← scan_lines (Z.to_nat (px (br r) - px (br sr))) column 1 (px (br sr));
  mret (rect (lft + 1) top right bottom).

(** Not larger than a part of a rectangle may be. *)
Definition clip_solid (erp : Rect) : Rect :=
  let erp := if width erp >? SubRectMaxWidth
             then rect (px (tl erp)) (py (tl erp)) (px (tl erp) + SubRectMaxWidth) (py (br erp)) else erp in
  if area erp >? SubRectMaxArea
  then rect (px (tl erp)) (py (tl erp)) (px (br erp)) (py (tl erp) + SubRectMaxArea / width erp) else erp.

(** What [findSolidRect] makes of a block of its search. *)
Definition solid_at (r : Rect) (pb : pixbuf) (sr : Rect) : res (option (Rect * Z)) :=
  let '(dx, dy) := (px (tl sr), py (tl sr)) in
  pixel ← getImage pb (rect dx dy (dx + 1) (dy + 1));
  let colour := znth 0 pixel 0 in
  solid ← checkSolidTile sr colour pb;
  if negb solid then mret None else
  erb ← extendSolidAreaByBlock (setXYWH dx dy (px (br r) - dx) (py (br r) - dy)) colour pb;
  if rect_eqb erb r then mret (Some (clip_solid erb, colour))
  else if area erb <? SolidBlockMinArea then mret None
  else erp ← extendSolidAreaByPixel r erb colour pb; mret (Some (clip_solid erp, colour)).
Fixpoint first_solid (r : Rect) (pb : pixbuf) (blocks : list Rect) : res (option (Rect * Z)) :=
  match blocks with
  | [] => Ok None
  | sr :: blocks =>
      found ← solid_at r pb sr;
      match found with Some x => mret (Some x) | None => first_solid r pb blocks end
  end.

(** Where the search goes on: to the left, to the right and below. *)
Definition remaining (r erp : Rect) : list Rect :=
  (if negb (px (tl erp) =? px (tl r)) && (height erp >? SolidSearchBlock)
   then [setXYWH (px (tl r)) (py (tl erp) + SolidSearchBlock) (px (tl erp) - px (tl r)) (height erp - SolidSearchBlock)] else []) ++
  (if negb (px (br erp) =? px (br r))
   then [setXYWH (px (br erp)) (py (tl erp)) (px (br r) - px (br erp)) (height erp)] else []) ++
  (if negb (py (br erp) =? py (br r))
   then [setXYWH (px (tl r)) (py (br erp)) (width r) (py (br r) - py (br erp))] else []).

(** ** The parts cover a rectangle *)

Section parts.
Context (r : Rect) (Hr : is_empty r = false).

Lemma sub_sizes : no_split r = false -> 0 < sub_width r <= SubRectMaxWidth /\ 0 < sub_height r /\ sub_width r * sub_height r <= SubRectMaxArea.
Proof.
  intros _. apply is_empty_false in Hr.
  assert (0 < sub_width r <= SubRectMaxWidth) as Hsw by (unfold sub_width, SubRectMaxWidth, width in *; case_test; lia).
  split; [done|]. unfold sub_height. pose proof (Z.mul_div_le SubRectMaxArea (sub_width r) ltac:(lia)). split; [|done].
  apply Z.div_str_pos. unfold SubRectMaxWidth, SubRectMaxArea in *. lia.
Qed.

Lemma sub_rects_spec t : t ∈ sub_rects r -> is_empty t = false /\ px (tl r) <= px (tl t) /\ py (tl r) <= py (tl t) /\
  px (br t) <= px (br r) /\ py (br t) <= py (br r) /\ width t <= SubRectMaxWidth /\ width t * height t <= SubRectMaxArea.
Proof.
  unfold sub_rects. destruct (no_split r) eqn:Hs.
  - intros ->%list_elem_of_singleton. unfold no_split in Hs. rewrite andb_true_iff, !Z.ltb_lt in Hs. split; [done|]. split_and!; lia.
  - destruct (sub_sizes Hs) as (Hw & Hh & Ha). intros Ht. destruct (cut_spec (sub_width r) (sub_height r) ltac:(lia) ltac:(lia) r t Ht) as (H1 & H2 & H3 & H4 & H5 & H6).
    split; [apply is_empty_false; unfold width, height in *; lia|]. split_and!; try lia. nia.
Qed.

Lemma sub_rects_cover p : in_rects (sub_rects r) p = contains r p.
Proof.
  apply eq_true_iff_eq. rewrite in_rects_spec. destruct p as [x y]. split.
  - intros (t & Ht & Hc). destruct (sub_rects_spec t Ht) as (_ & H1 & H2 & H3 & H4 & _). apply contains_spec in Hc. apply contains_spec. lia.
  - intros Hc. unfold sub_rects. destruct (no_split r) eqn:Hs; [exists r; split; [by left|done]|].
    destruct (sub_sizes Hs) as (Hw & Hh & _). destruct (cut_cover (sub_width r) (sub_height r) ltac:(lia) ltac:(lia) r x y Hc) as (t & Ht & Hct).
    by exists t.
Qed.

(** As many as [computeNumRects] counts. *)
Lemma len_sub_rects : len (sub_rects r) = num_sub_rects r.
Proof.
  unfold sub_rects, num_sub_rects. destruct (no_split r) eqn:Hs; [done|]. destruct (sub_sizes Hs) as (Hw & Hh & _).
  apply is_empty_false in Hr. rewrite len_cut by (unfold width, height; lia).
  assert (forall a k, 0 < k -> (a + (k - 1)) / k = (a - 1) / k + 1) as Hdiv.
  { intros a k Hk. replace (a + (k - 1)) with (a - 1 + 1 * k) by lia. by rewrite Z.div_add by lia. }
  by rewrite !Hdiv by lia.
Qed.
End parts.

(** ** The palette is that of the pixels *)

Definition occurrences (c : Z) (pixels : list Z) : Z := len (filter (fun p => p = c) pixels).

Lemma occurrences_app c l k : occurrences c (l ++ k) = occurrences c l + occurrences c k.
Proof. unfold occurrences. by rewrite filter_app, len_app. Qed.
Lemma occurrences_replicate c d n : occurrences c (replicate n d) = if c =? d then Z.of_nat n else 0.
Proof.
  unfold occurrences. induction n as [|n IH]; [by destruct (c =? d)|]. cbn [replicate]. destruct (Z.eqb_spec c d) as [->|Hne].
  - rewrite filter_cons_True, len_cons by done. lia.
  - by rewrite filter_cons_False by done.
Qed.

(** The insertions [ins] are the pixels [seen]. *)
Definition stands_for (ins : list (Z * Z)) (seen : list Z) : Prop :=
  forall c, count_in c ins = occurrences c seen /\ (c ∈ ins.*1 <-> c ∈ seen).

Lemma stands_for_run ins seen colour n : stands_for ins seen -> (0 < n)%nat -> stands_for (ins ++ [(colour, Z.of_nat n)]) (seen ++ replicate n colour).
Proof.
  intros H Hn c. destruct (H c) as [H1 H2]. rewrite count_in_app, occurrences_app, occurrences_replicate, fmap_app, elem_of_app, list.elem_of_app, H1, H2. cbn.
  rewrite list_elem_of_singleton, (Z.eqb_sym colour c). split; [case_test; lia|]. rewrite elem_of_replicate. split; [intros [?|?]; [by left|right; split; [done|lia]]|].
  intros [?|[? _]]; [by left|by right].
Qed.

Lemma filled_insert_true ins p c n : filled ins p -> 0 < n -> (pal_insert c n p).1 = true -> filled (ins ++ [(c, n)]) (pal_insert c n p).2.
Proof.
  intros [Hok Hins] Hn Ht. destruct (insert_spec p c n Hok Hn) as [Hok' Hr]. split; [done|]. case_decide; [|by rewrite Hr in Ht].
  destruct Hr as [_ Hc]. intros c'. rewrite Hc, add_pixels_count, count_in_app, add_pixels_in, fmap_app, elem_of_app, (proj1 (Hins c')), (proj2 (Hins c')). cbn.
  rewrite (Z.eqb_sym c c'). split; [case_test; lia|]. rewrite list_elem_of_singleton. tauto.
Qed.

Definition too_many (maxColours : Z) (pixels : list Z) : Prop :=
  exists cs, NoDup cs /\ (forall c, c ∈ cs -> c ∈ pixels) /\ Z.min 256 maxColours < len cs.

(** When an insertion makes it give up there are more colours than allowed. *)
Lemma insert_over ins p c n maxColours seen : filled ins p -> stands_for ins seen -> (0 < n)%nat ->
  let r := pal_insert c (Z.of_nat n) p in
  negb r.1 || (pal_size r.2 >? maxColours) = true -> too_many maxColours (seen ++ replicate n c).
Proof.
  intros Hf Hs Hn r Hover. pose proof Hf as [Hok Hins]. destruct (insert_spec p c (Z.of_nat n) Hok ltac:(lia)) as [Hok' Hr]. fold r in Hok', Hr.
  destruct r.1 eqn:Ht; cbn [negb orb] in Hover.
  - destruct (filled_insert_true ins p c (Z.of_nat n) Hf ltac:(lia) Ht) as [_ Hins']. fold r in Hins'. rewrite (size_counts _ Hok') in Hover.
    exists (counts r.2).*1. split; [by apply counts_NoDup|]. split; [|rewrite len_map; lia].
    intros d Hd. apply (Hins' d) in Hd. by apply (stands_for_run ins seen c n Hs Hn).
  - case_decide as Hd; [by destruct Hr as [? _]; congruence|]. exists (c :: (counts p).*1). split; [constructor; [tauto|by apply counts_NoDup]|].
    split; [|rewrite len_cons, len_map; lia]. intros d Hin. apply (stands_for_run ins seen c n Hs Hn). rewrite fmap_app, elem_of_app. cbn.
    apply list.elem_of_cons in Hin as [->|Hin]; [right; by left|left]. by apply (Hins d).
Qed.

Lemma analyse_pixels_spec maxColours pixels : forall colour n runs p ins seen, filled ins p -> stands_for ins seen -> (0 < n)%nat ->
  let '(ok, info) := analyse_pixels pixels colour (Z.of_nat n) runs p maxColours in
  if ok : bool then exists ins', filled ins' (info_palette info) /\ stands_for ins' (seen ++ replicate n colour ++ pixels) /\ pal_size (info_palette info) <= maxColours
  else too_many maxColours (seen ++ replicate n colour ++ pixels).
Proof.
  induction pixels as [|c pixels IH]; intros colour n runs p ins seen Hf Hs Hn; cbn [analyse_pixels].
  - pose proof (insert_over ins p colour n maxColours seen Hf Hs Hn) as Hover. pose proof (filled_insert_true ins p colour (Z.of_nat n) Hf ltac:(lia)) as Hin.
    destruct (pal_insert colour (Z.of_nat n) p) as [ok q]. cbn [fst snd] in *. rewrite app_nil_r. destruct ok; cbn [negb orb andb info_palette] in *; [|by apply Hover].
    destruct (pal_size q >? maxColours) eqn:Hq; cbn [negb]; [by apply Hover|]. bool_decide_hyps.
    exists (ins ++ [(colour, Z.of_nat n)]). split; [by apply Hin|]. split; [by apply stands_for_run|lia].
  - destruct (Z.eqb_spec c colour) as [->|Hne]; cbn [negb].
    + specialize (IH colour (S n) runs p ins seen Hf Hs ltac:(lia)). replace (Z.of_nat (S n)) with (Z.of_nat n + 1) in IH by lia.
      replace (replicate n colour ++ colour :: pixels) with (replicate (S n) colour ++ pixels); [done|].
      rewrite (replicate_S_end n colour), <- app_assoc. done.
    + pose proof (insert_over ins p colour n maxColours seen Hf Hs Hn) as Hover. pose proof (filled_insert_true ins p colour (Z.of_nat n) Hf ltac:(lia)) as Hin.
      destruct (pal_insert colour (Z.of_nat n) p) as [ok q]. cbn [fst snd] in *. destruct (negb ok || (pal_size q >? maxColours)) eqn:Hstop.
      * destruct (Hover eq_refl) as (cs & H1 & H2 & H3). exists cs. split; [done|]. split; [|done]. intros d Hd. rewrite app_assoc, list.elem_of_app. left. by apply H2.
      * destruct ok; [|done]. specialize (IH c 1%nat (runs + 1) q _ _ (Hin eq_refl) (stands_for_run ins seen colour n Hs Hn) ltac:(lia)).
        change (Z.of_nat 1) with 1 in IH. by rewrite <- app_assoc in IH.
Qed.

(** [analyseRect]: the palette is the picture's colours with their counts, or
    there are too many of them. *)
Lemma analyseRect_spec pb maxColours : pixels_of pb <> [] ->
  let '(ok, info) := analyseRect pb maxColours in
  if ok : bool then palette_ok (info_palette info) /\ pal_size (info_palette info) <= maxColours /\
    forall c, (c ∈ (counts (info_palette info)).*1 <-> c ∈ pixels_of pb) /\ count_in c (counts (info_palette info)) = occurrences c (pixels_of pb)
  else too_many maxColours (pixels_of pb).
Proof.
  intros Hne. unfold analyseRect. destruct (pixels_of pb) as [|c pixels]; [done|]. change (znth 0 (c :: pixels) 0) with c.
  cbn [analyse_pixels]. rewrite Z.eqb_refl. cbn [negb].
  pose proof (analyse_pixels_spec maxColours pixels c 1 0 new_palette [] [] filled_new ltac:(done) ltac:(lia)) as H. change (0 + 1) with (Z.of_nat 1).
  destruct (analyse_pixels _ _ _ _ _ _) as [[] info]; [|done]. destruct H as (ins & [Hok Hins] & Hs & Hm). split; [done|]. split; [done|].
  intros d. destruct (Hins d) as [H1 H2], (Hs d) as [H3 H4]. cbn in *. by rewrite H1, H2, H3, H4.
Qed.

(** ** Solid rectangles are of one colour *)

(** What returns, and how. *)
Definition returns {A} (m : res A) (P : A -> Prop) : Prop := exists a, m = Ok a /\ P a.
Lemma returns_bind {A B} (m : res A) (f : A -> res B) (P : A -> Prop) (Q : B -> Prop) :
  returns m P -> (forall a, P a -> returns (f a) Q) -> returns (m ≫= f) Q.
Proof. intros (a & -> & Ha) Hf. by apply Hf. Qed.
Lemma returns_ret {A} (a : A) (P : A -> Prop) : P a -> returns (mret a) P.
Proof. intros H. by exists a. Qed.
Lemma returns_impl {A} (m : res A) (P Q : A -> Prop) : returns m P -> (forall a, P a -> Q a) -> returns m Q.
Proof. intros (a & Hm & Ha) H. exists a. split; [done|by apply H]. Qed.

Section solid.
Context (pb : pixbuf) (W : pb_wf pb).

(** Between these edges all pixels have the colour. *)
Definition all_colour (x1 y1 x2 y2 colour : Z) : Prop := forall x y, x1 <= x < x2 -> y1 <= y < y2 -> pb_at pb x y = colour.

Lemma checkSolidTile_ok x y w h colour : 0 <= x -> 0 <= y -> 0 <= w -> 0 <= h -> x + w <= pb_width pb -> y + h <= pb_height pb ->
  returns (checkSolidTile (setXYWH x y w h) colour pb) (fun solid => solid = true -> all_colour x y (x + w) (y + h) colour).
Proof.
  intros Hx Hy Hw Hh Hxw Hyh. unfold checkSolidTile, getBuffer. assert (enclosed_by (setXYWH x y w h) (getRect pb) = true) as ->.
  { unfold enclosed_by. cbn. rewrite !andb_true_iff, !Z.geb_le, !Z.leb_le. lia. }
  eexists. split; [reflexivity|]. intros Hall x' y' Hx' Hy'.
  assert (height (setXYWH x y w h) = h /\ width (setXYWH x y w h) = w) as [Hht Hwt] by (unfold width, height; cbn; lia).
  rewrite Hht, Hwt, forallb_forall in Hall. unfold pb_at, pixel_at.
  set (row := slice (pb_offset pb (setXYWH x y w h) + (y' - y) * pb_stride pb) (pb_offset pb (setXYWH x y w h) + (y' - y) * pb_stride pb + w) (pb_data pb)).
  assert (In row (rows_of (pb_data pb) (pb_offset pb (setXYWH x y w h)) (pb_stride pb) w h)) as Hrow.
  { apply in_map_iff. exists (y' - y). split; [done|]. apply list_elem_of_In, elem_of_seqZ. lia. }
  apply Hall in Hrow. rewrite forallb_forall in Hrow. destruct W as (Ws & Wh & Wl).
  assert (len row = w) as Hlen. { unfold row. rewrite len_slice; [lia| |]; unfold pb_offset; cbn; nia. }
  assert (znth 0 row (x' - x) = znth 0 (pb_data pb) (x' + y' * pb_stride pb)) as Hz.
  { unfold row. rewrite znth_slice; [|unfold pb_offset; cbn; nia|lia]. f_equal. unfold pb_offset. cbn. lia. }
  rewrite <- Hz. apply Z.eqb_eq, Hrow. unfold znth. apply nth_In. unfold len in Hlen. lia.
Qed.

Lemma all_colour_sub x1 y1 x2 y2 a1 b1 a2 b2 c : all_colour x1 y1 x2 y2 c -> x1 <= a1 -> y1 <= b1 -> a2 <= x2 -> b2 <= y2 -> all_colour a1 b1 a2 b2 c.
Proof. intros H ? ? ? ? x y Hx Hy. apply H; lia. Qed.

Lemma extend_row_ok colour dy dh limit : 0 <= dy -> 0 < dh -> dy + dh <= pb_height pb -> limit <= pb_width pb -> forall fuel dx, 0 <= dx <= limit ->
  returns (extend_row fuel dx limit dy dh colour pb) (fun dx' => dx <= dx' <= limit /\ all_colour dx dy dx' (dy + dh) colour).
Proof.
  intros Hdy Hdh Hh Hlim. assert (forall dx, all_colour dx dy dx (dy + dh) colour) as Hnone by (intros dx x y; lia).
  induction fuel as [|fuel IH]; intros dx Hdx; [apply returns_ret; split; [lia|apply Hnone]|]. cbn [extend_row]. case_test; [|apply returns_ret; split; [lia|apply Hnone]].
  set (dw := if dx + SolidSearchBlock >? limit then _ else _). assert (0 < dw /\ dx + dw <= limit) as [Hdw Hdl] by (unfold dw, SolidSearchBlock; case_test; lia).
  eapply returns_bind; [apply checkSolidTile_ok; lia|]. intros [] Hs; [|apply returns_ret; split; [lia|apply Hnone]].
  eapply returns_impl; [apply IH; lia|]. cbn. intros dx' [H1 H2]. split; [lia|]. intros x y Hx Hy. destruct (decide (x < dx + dw)); [apply Hs; [done|lia..]|apply H2; lia].
Qed.

(** The search of blocks keeps to the rectangle and finds one colour, at least as
    much of it as it began with. *)
Lemma extend_rows_ok colour x1 y1 x2 y2 : 0 <= x1 -> 0 <= y1 -> x1 < x2 <= pb_width pb -> y1 < y2 <= pb_height pb ->
  forall fuel dy w_prev wb hb, y1 <= dy -> 0 < w_prev <= x2 - x1 -> 0 <= wb <= x2 - x1 -> 0 <= hb <= y2 - y1 ->
    all_colour x1 y1 (x1 + w_prev) (Z.min dy y2) colour -> all_colour x1 y1 (x1 + wb) (y1 + hb) colour ->
    returns (extend_rows fuel (rect x1 y1 x2 y2) dy w_prev wb hb colour pb)
      (fun '(wb', hb') => wb * hb <= wb' * hb' /\ 0 <= wb' <= x2 - x1 /\ 0 <= hb' <= y2 - y1 /\ all_colour x1 y1 (x1 + wb') (y1 + hb') colour /\
         ((0 < fuel)%nat -> dy < y2 -> checkSolidTile (setXYWH x1 dy (Z.min SolidSearchBlock w_prev) (Z.min SolidSearchBlock (y2 - dy))) colour pb = Ok true -> 0 < wb' * hb')).
Proof.
  intros Hx1 Hy1 Hx2 Hy2. induction fuel as [|fuel IH]; intros dy w_prev wb hb Hdy Hwp Hwb Hhb Hprev Hbest; [apply returns_ret; split_and!; try done; lia|].
  cbn [extend_rows rect tl br px py]. case_test; [|apply returns_ret; split_and!; try done; lia]. rewrite Z.min_l in Hprev by lia.
  set (dh := if dy + SolidSearchBlock >? y2 then _ else _). assert (0 < dh /\ dy + dh <= y2 /\ Z.min (dy + SolidSearchBlock) y2 = dy + dh /\ Z.min SolidSearchBlock (y2 - dy) = dh) as (Hdh & Hdl & Hmin & Hmin').
  { unfold dh, SolidSearchBlock; case_test; lia. }
  set (dw := if SolidSearchBlock >? w_prev then _ else _). assert (0 < dw <= w_prev /\ Z.min SolidSearchBlock w_prev = dw) as [Hdw Hminw] by (unfold dw, SolidSearchBlock; case_test; lia).
  rewrite Hmin', Hminw. destruct (checkSolidTile_ok x1 dy dw dh colour) as (solid & Hcheck & Hs); [lia..|]. rewrite Hcheck. cbn [mbind res_bind].
  destruct solid; cbn [negb]; [|apply returns_ret; split_and!; try done; lia]. specialize (Hs eq_refl).
  eapply returns_bind; [apply extend_row_ok; lia|]. cbn beta. intros dx [Hdx Hrow].
  assert (all_colour x1 y1 (x1 + (dx - x1)) (dy + dh) colour) as Hnew.
  { intros x y Hx Hy. destruct (decide (y < dy)); [apply Hprev; lia|]. destruct (decide (x < x1 + dw)); [apply Hs; lia|apply Hrow; lia]. }
  set (best := if _ >? _ then _ else _).
  assert (let '(wb', hb') := best in wb * hb <= wb' * hb' /\ 0 < wb' * hb' /\ 0 <= wb' <= x2 - x1 /\ 0 <= hb' <= y2 - y1 /\ all_colour x1 y1 (x1 + wb') (y1 + hb') colour) as Hb.
  { unfold best. case_test; split_and!; try lia; try done; try nia. replace (y1 + (dy + dh - y1)) with (dy + dh) by lia. done. }
  destruct best as [wb' hb']. destruct Hb as (B1 & B0 & B2 & B3 & B4).
  eapply returns_impl; [apply IH; try done; try lia; by rewrite Hmin|]. cbn. intros [wb'' hb''] (C1 & C2 & C3 & C4 & _). split_and!; try done; lia.
Qed.

(** The rectangle [r] with these edges, inside the buffer. *)
Lemma extendSolidAreaByBlock_ok colour x1 y1 x2 y2 : 0 <= x1 -> 0 <= y1 -> x1 < x2 <= pb_width pb -> y1 < y2 <= pb_height pb ->
  checkSolidTile (setXYWH x1 y1 (Z.min SolidSearchBlock (x2 - x1)) (Z.min SolidSearchBlock (y2 - y1))) colour pb = Ok true ->
  returns (extendSolidAreaByBlock (rect x1 y1 x2 y2) colour pb) (fun e => exists x3 y3, e = rect x1 y1 x3 y3 /\
    x1 < x3 <= x2 /\ y1 < y3 <= y2 /\ all_colour x1 y1 x3 y3 colour).
Proof.
  intros Hx1 Hy1 Hx2 Hy2 Hcheck. unfold extendSolidAreaByBlock. cbn [rect tl br px py].
  assert (height (rect x1 y1 x2 y2) = y2 - y1 /\ width (rect x1 y1 x2 y2) = x2 - x1) as [-> ->] by done.
  eapply returns_bind; [apply extend_rows_ok; try lia; intros x y; lia|]. intros [wb hb] (_ & Hw & Hh & Hall & Hpos).
  specialize (Hpos ltac:(lia) ltac:(lia) Hcheck). apply returns_ret. exists (x1 + wb), (y1 + hb). split; [done|]. split_and!; try done; nia.
Qed.

(** Lines before or behind what is of one colour. *)
Lemma scan_lines_ok test (good : Z -> Prop) step n : forall c, (forall k, 0 <= k < Z.of_nat n -> returns (test (c + step * k)) (fun ok => ok = true -> good (c + step * k))) ->
  returns (scan_lines n test step c) (fun e => exists m, e = c + step * m /\ 0 <= m <= Z.of_nat n /\ forall k, 0 <= k < m -> good (c + step * k)).
Proof.
  induction n as [|n IH]; intros c Hc; [apply returns_ret; exists 0; split_and!; lia|]. cbn [scan_lines].
  assert (c + step * 0 = c) as H0 by lia. pose proof (Hc 0 ltac:(lia)) as Hfirst. rewrite H0 in Hfirst.
  eapply returns_bind; [exact Hfirst|]. intros [] Hg; [|apply returns_ret; exists 0; split_and!; lia]. specialize (Hg eq_refl).
  eapply returns_impl.
  - apply IH. intros k Hk. specialize (Hc (k + 1) ltac:(lia)). by replace (c + step * (k + 1)) with (c + step + step * k) in Hc by lia.
  - cbn. intros e (m & -> & Hm & Hall). exists (m + 1). split; [lia|]. split; [lia|]. intros k Hk. destruct (decide (k = 0)) as [->|]; [by rewrite H0|].
    specialize (Hall (k - 1) ltac:(lia)). by replace (c + step * k) with (c + step + step * (k - 1)) by lia.
Qed.

(** The lines that are scanned are of the colour. *)
Ltac scan_colour good :=
  eapply returns_bind; [apply (scan_lines_ok _ good); intros k Hk; eapply returns_impl; [apply checkSolidTile_ok; lia|];
    cbn; intros ok H Ho; eapply all_colour_sub; [by apply H|lia..]|].

Lemma extendSolidAreaByPixel_ok colour x1 y1 x2 y2 a1 b1 a2 b2 : 0 <= x1 -> 0 <= y1 -> x2 <= pb_width pb -> y2 <= pb_height pb ->
  x1 <= a1 -> a1 < a2 -> a2 <= x2 -> y1 <= b1 -> b1 < b2 -> b2 <= y2 -> all_colour a1 b1 a2 b2 colour ->
  returns (extendSolidAreaByPixel (rect x1 y1 x2 y2) (rect a1 b1 a2 b2) colour pb) (fun e => exists x3 y3 x4 y4, e = rect x3 y3 x4 y4 /\
    x1 <= x3 /\ x3 < x4 /\ x4 <= x2 /\ y1 <= y3 /\ y3 < y4 /\ y4 <= y2 /\ all_colour x3 y3 x4 y4 colour).
Proof.
  intros Hx1 Hy1 Hx2 Hy2 Ha1 Ha12 Ha2 Hb1 Hb12 Hb2 Hall. unfold extendSolidAreaByPixel. cbn [rect tl br px py].
  assert (width (rect a1 b1 a2 b2) = a2 - a1) as -> by done.
  scan_colour (fun cy => all_colour a1 cy a2 (cy + 1) colour).
  intros up (m1 & -> & Hm1 & Hup).
  scan_colour (fun cy => all_colour a1 cy a2 (cy + 1) colour).
  intros bottom (m2 & -> & Hm2 & Hdown). set (top := b1 - 1 + -1 * m1 + 1). set (bottom := b2 + 1 * m2).
  assert (all_colour a1 top a2 bottom colour) as Htall.
  { intros x y Hx Hy. destruct (decide (y < b1)); [apply (Hup (b1 - 1 - y)); unfold top in *; lia|].
    destruct (decide (y < b2)); [apply Hall; lia|]. apply (Hdown (y - b2)); unfold bottom in *; lia. }
  assert (y1 <= top /\ top < bottom /\ bottom <= y2) as (Ht & Htb & Hb) by (unfold top, bottom; lia).
  scan_colour (fun cx => all_colour cx top (cx + 1) bottom colour).
  intros lft (m3 & -> & Hm3 & Hleft).
  scan_colour (fun cx => all_colour cx top (cx + 1) bottom colour).
  intros right (m4 & -> & Hm4 & Hright). apply returns_ret. eexists _, _, _, _. split; [reflexivity|]. split_and!; try lia.
  intros x y Hx Hy. destruct (decide (x < a1)); [apply (Hleft (a1 - 1 - x)); lia|].
  destruct (decide (x < a2)); [apply Htall; lia|]. apply (Hright (x - a2)); lia.
Qed.

(** A part of [r] that is of one colour and not too large. *)
Definition solid_part (r e : Rect) (colour : Z) : Prop :=
  px (tl r) <= px (tl e) /\ py (tl r) <= py (tl e) /\ px (br e) <= px (br r) /\ py (br e) <= py (br r) /\
  0 < width e <= SubRectMaxWidth /\ 0 < height e /\ width e * height e <= SubRectMaxArea /\
  all_colour (px (tl e)) (py (tl e)) (px (br e)) (py (br e)) colour.

Lemma clip_solid_ok r e colour : px (tl r) <= px (tl e) -> py (tl r) <= py (tl e) -> px (br e) <= px (br r) -> py (br e) <= py (br r) ->
  0 < width e -> 0 < height e -> all_colour (px (tl e)) (py (tl e)) (px (br e)) (py (br e)) colour -> solid_part r (clip_solid e) colour.
Proof.
  intros H1 H2 H3 H4 Hw Hh Hall. destruct e as [[x1 y1] [x2 y2]]. unfold clip_solid, width, height in *. cbn [tl br px py rect] in *.
  set (e1 := if _ >? SubRectMaxWidth then _ else _). assert (exists x3, e1 = rect x1 y1 x3 y2 /\ x1 < x3 <= x2 /\ x3 - x1 <= SubRectMaxWidth) as (x3 & -> & Hx3 & Hx3w).
  { unfold e1, SubRectMaxWidth. case_test; [exists (x1 + 2048)|exists x2]; (split; [done|lia]). }
  unfold area. rewrite (proj2 (is_empty_false _)) by (cbn; lia). cbn [tl br px py rect]. unfold SubRectMaxWidth in *.
  pose proof (Z.mul_div_le SubRectMaxArea (x3 - x1) ltac:(lia)) as Hm.
  assert (0 < SubRectMaxArea / (x3 - x1)) as Hp by (apply Z.div_str_pos; unfold SubRectMaxArea; lia).
  case_test; unfold solid_part, width, height; cbn [tl br px py rect]; unfold SubRectMaxWidth; split_and!; try nia; (eapply all_colour_sub; [exact Hall|nia..]).
Qed.

Section search.
Context (r : Rect) (He : enclosed_by r (getRect pb) = true).

Lemma inside_buffer : 0 <= px (tl r) /\ 0 <= py (tl r) /\ px (br r) <= pb_width pb /\ py (br r) <= pb_height pb.
Proof. unfold enclosed_by in He. cbn in He. rewrite !andb_true_iff, !Z.geb_le, !Z.leb_le in He. lia. Qed.

Lemma solid_at_ok sr : sr ∈ tiles SolidSearchBlock r -> returns (solid_at r pb sr) (fun found => forall e c, found = Some (e, c) -> solid_part r e c).
Proof.
  intros (x & y & -> & Hx & Hy)%cut_form; [|done..]. pose proof inside_buffer as (Hx0 & Hy0 & Hx2 & Hy2). unfold solid_at. cbn [tl br px py rect].
  destruct r as [[x1 y1] [x2 y2]]. cbn [tl br px py] in *.
  destruct (getImage_ok pb W (rect x y (x + 1) (y + 1))) as (image & Hi & _); [unfold enclosed_by; cbn; rewrite !andb_true_iff, !Z.geb_le, !Z.leb_le; lia|unfold width; cbn; lia|unfold height; cbn; lia|].
  rewrite Hi. cbn [mbind res_bind]. set (colour := znth 0 image 0).
  assert (rect x y (Z.min x2 (x + SolidSearchBlock)) (Z.min y2 (y + SolidSearchBlock)) =
    setXYWH x y (Z.min SolidSearchBlock (x2 - x)) (Z.min SolidSearchBlock (y2 - y))) as Hblock by (unfold setXYWH; f_equal; lia).
  rewrite Hblock. destruct (checkSolidTile_ok x y (Z.min SolidSearchBlock (x2 - x)) (Z.min SolidSearchBlock (y2 - y)) colour) as (solid & Hcheck & _); [unfold SolidSearchBlock; lia..|].
  rewrite Hcheck. cbn [mbind res_bind]. destruct solid; cbn [negb]; [|by apply returns_ret].
  assert (setXYWH x y (x2 - x) (y2 - y) = rect x y x2 y2) as -> by (unfold setXYWH; f_equal; lia).
  eapply returns_bind; [by apply extendSolidAreaByBlock_ok; [lia..|]|]. intros erb (x3 & y3 & -> & Hx3 & Hy3 & Hall). cbn beta.
  case_test; [|case_test].
  - apply returns_ret. intros e c [= <- <-]. apply clip_solid_ok; unfold width, height; cbn; try lia. exact Hall.
  - by apply returns_ret.
  - eapply returns_bind; [apply (extendSolidAreaByPixel_ok colour x1 y1 x2 y2 x y x3 y3); try lia; done|]. intros erp (x4 & y4 & x5 & y5 & -> & ? & ? & ? & ? & ? & ? & Hall').
    apply returns_ret. intros e c [= <- <-]. apply clip_solid_ok; unfold width, height; cbn; try lia. exact Hall'.
Qed.

Lemma first_solid_ok blocks : (forall sr, sr ∈ blocks -> sr ∈ tiles SolidSearchBlock r) ->
  returns (first_solid r pb blocks) (fun found => forall e c, found = Some (e, c) -> solid_part r e c).
Proof.
  induction blocks as [|sr blocks IH]; intros Hin; [by apply returns_ret|]. cbn [first_solid].
  eapply returns_bind; [apply solid_at_ok, Hin; by left|]. intros [x|] Hx; [by apply returns_ret|]. apply IH. intros. apply Hin. by right.
Qed.

(** The search goes on in smaller rectangles inside. *)
Lemma remaining_spec e c s : solid_part r e c -> s ∈ remaining r e ->
  px (tl r) <= px (tl s) /\ py (tl r) <= py (tl s) /\ px (br s) <= px (br r) /\ py (br s) <= py (br r) /\
  0 < width s /\ 0 < height s /\ width s * height s < width r * height r.
Proof.
  destruct r as [[x1 y1] [x2 y2]], e as [[a1 b1] [a2 b2]]. unfold solid_part, remaining, width, height, SolidSearchBlock. cbn [tl br px py].
  intros (H1 & H2 & H3 & H4 & H5 & H6 & _ & _) Hs. rewrite !list.elem_of_app in Hs.
  destruct Hs as [Hs|[Hs|Hs]].
  - destruct (negb (a1 =? x1) && (b2 - b1 >? 16)) eqn:Ht; [|by apply not_elem_of_nil in Hs]. apply list_elem_of_singleton in Hs as ->. bool_decide_hyps. cbn. split_and!; nia.
  - destruct (negb (a2 =? x2)) eqn:Ht; [|by apply not_elem_of_nil in Hs]. apply list_elem_of_singleton in Hs as ->. bool_decide_hyps. cbn. split_and!; nia.
  - destruct (negb (b2 =? y2)) eqn:Ht; [|by apply not_elem_of_nil in Hs]. apply list_elem_of_singleton in Hs as ->. bool_decide_hyps. cbn. split_and!; nia.
Qed.
End search.
End solid.
