(* ===== verification/InputQueue.v ===== *)
(** * The mailbox of user input ([viewer/core/InputQueue.cxx])

    The user interface submits keys and pointer events; the protocol worker
    takes them.  Every public method holds the mailbox's mutex from its first
    to its last line, so that an execution of several threads is a sequence of
    whole operations ([step]).  An operation is a computation that may throw
    ([SE Impl]): the state reached when it throws is kept, as the code keeps it.

    Proved here: the invariant of every reachable state, what the worker
    receives in terms of what was submitted (the coalescing of motion and the
    barriers that discard input), and the only exception with its effect. *)
From stdpp Require Import base list numbers strings option.
From S2P Require Import Prelude.
#[local] Open Scope Z_scope.

Inductive InputResult : Type :=
| Accepted | Coalesced | StaleGeneration | NotConnected | ViewOnly | Unfocused | Overflow | Invalid.

#[export] Instance InputResult_eq_dec : EqDecision InputResult.
Proof. solve_decision. Defined.

Record InputStatus := MkStatus {
  generation : Z;
  overflows : Z;
  routingRevision : Z;
  queued : Z;
  connected : bool;
  focused : bool;
  viewOnly : bool;
  releasePending : bool;
  emulateMiddle : bool
}.

Definition init_status : InputStatus := MkStatus 1 0 1 0 false true false false false.

Inductive Kind : Type := Key | Pointer | ReleaseAll.
#[export] Instance Kind_eq_dec : EqDecision Kind.
Proof. solve_decision. Defined.

Record Command := MkCommand {
  kind : Kind;
  keyId : Z; keySym : Z; keyCode : Z;
  cx : Z; cy : Z;
  cbuttons : Z;
  down : bool; transition : bool; cemulateMiddle : bool;
  crevision : Z
}.

Definition empty_command : Command := MkCommand ReleaseAll 0 0 0 0 0 0 false false false 0.
Definition key_command (id symbol code : Z) (dn : bool) : Command :=
  MkCommand Key id symbol code 0 0 0 dn false false 0.
Definition pointer_command (x y buttons : Z) (tr : bool) : Command :=
  MkCommand Pointer 0 0 0 x y buttons false tr false 0.
(** The two fields [take] fills in. *)
Definition stamp (revision : Z) (emulate : bool) (c : Command) : Command :=
  MkCommand (kind c) (keyId c) (keySym c) (keyCode c) (cx c) (cy c) (cbuttons c)
    (down c) (transition c) emulate revision.

#[export] Instance Command_eq_dec : EqDecision Command.
Proof. solve_decision. Defined.

(** [InputQueue::Impl]; [status.queued] is only filled in by [status()]. *)
Record Impl := MkImpl { capacity : Z; status : InputStatus; buttons : Z; queue : list Command }.

Definition set_status (f : InputStatus -> InputStatus) (s : Impl) : Impl :=
  MkImpl (capacity s) (f (status s)) (buttons s) (queue s).
Definition set_buttons (b : Z) (s : Impl) : Impl := MkImpl (capacity s) (status s) b (queue s).
Definition set_queue (q : list Command) (s : Impl) : Impl := MkImpl (capacity s) (status s) (buttons s) q.

Definition set_generation (g : Z) (t : InputStatus) : InputStatus :=
  MkStatus g (overflows t) (routingRevision t) (queued t) (connected t) (focused t) (viewOnly t)
    (releasePending t) (emulateMiddle t).
Definition add_overflow (t : InputStatus) : InputStatus :=
  MkStatus (generation t) (u64 (overflows t + 1)) (routingRevision t) (queued t) (connected t) (focused t)
    (viewOnly t) (releasePending t) (emulateMiddle t).
Definition next_revision (t : InputStatus) : InputStatus :=
  MkStatus (generation t) (overflows t) (u64 (routingRevision t + 1)) (queued t) (connected t) (focused t)
    (viewOnly t) (releasePending t) (emulateMiddle t).
Definition set_connected (b : bool) (t : InputStatus) : InputStatus :=
  MkStatus (generation t) (overflows t) (routingRevision t) (queued t) b (focused t) (viewOnly t)
    (releasePending t) (emulateMiddle t).
Definition set_focused (b : bool) (t : InputStatus) : InputStatus :=
  MkStatus (generation t) (overflows t) (routingRevision t) (queued t) (connected t) b (viewOnly t)
    (releasePending t) (emulateMiddle t).
Definition set_viewOnly (b : bool) (t : InputStatus) : InputStatus :=
  MkStatus (generation t) (overflows t) (routingRevision t) (queued t) (connected t) (focused t) b
    (releasePending t) (emulateMiddle t).
Definition set_releasePending (b : bool) (t : InputStatus) : InputStatus :=
  MkStatus (generation t) (overflows t) (routingRevision t) (queued t) (connected t) (focused t) (viewOnly t)
    b (emulateMiddle t).
Definition set_emulateMiddle (b : bool) (t : InputStatus) : InputStatus :=
  MkStatus (generation t) (overflows t) (routingRevision t) (queued t) (connected t) (focused t) (viewOnly t)
    (releasePending t) b.

#[local] Abbreviation Q := (SE Impl).
Definition status_change (f : InputStatus -> InputStatus) : Q unit := st_change (set_status f).

(** ** The operations *)

Definition uint64_max : Z := 2 ^ 64 - 1.

Definition check (gen : Z) (s : Impl) : InputResult :=
  let t := status s in
  if negb (gen =? generation t) then StaleGeneration
  else if negb (connected t) then NotConnected
  else if viewOnly t then ViewOnly
  else if negb (focused t) then Unfocused
  else Accepted.

Definition release : Q unit :=
  st_change (fun s => set_status (fun t => set_releasePending (connected t) t) (set_buttons 0 (set_queue [] s))).

Definition reroute : Q unit :=
  s ← st_get;
  if routingRevision (status s) =? uint64_max then st_throw (overflow_error "Input routing revision exhausted")
  else status_change next_revision.

Definition policy (view emulate : bool) : Q unit :=
  s ← st_get;
  let middleChanged := negb (Bool.eqb (emulateMiddle (status s)) emulate) in
  (if negb (Bool.eqb (viewOnly (status s)) view) || middleChanged then reroute else mret tt);;
  status_change (set_viewOnly view);;
  status_change (set_emulateMiddle emulate);;
  if view || middleChanged then release else mret tt.

Definition overflow : Q unit :=
  reroute;; release;; status_change (set_focused false);; status_change add_overflow.

(** [mem] is whether the queue's storage can grow ([push_back] throws
    [std::bad_alloc] otherwise). *)
Definition push (mem : bool) (command : Command) : Q InputResult :=
  s ← st_get;
  if len (queue s) =? capacity s then overflow;; mret Overflow
  else if mem then st_change (set_queue (queue s ++ [command]));; mret Accepted
  else overflow;; mret Overflow.

Definition key (mem : bool) (gen id symbol code : Z) (dn : bool) : Q InputResult :=
  s ← st_get;
  let result := check gen s in
  if negb (bool_decide (result = Accepted)) then mret result
  else if dn && (symbol =? 0) && (code =? 0) then mret Invalid
  else push mem (key_command id symbol code dn).

(** The last element of [deque], [queue.back()]. *)
Definition last_motion (q : list Command) : bool :=
  match list.last q with
  | Some c => bool_decide (kind c = Pointer) && negb (transition c)
  | None => false
  end.

(** [queue.back() = command]. *)
Definition replace_last (q : list Command) (c : Command) : list Command := removelast q ++ [c].

Definition pointer (mem : bool) (gen x y btns : Z) : Q InputResult :=
  s ← st_get;
  let result := check gen s in
  if negb (bool_decide (result = Accepted)) then mret result
  else if z2b (Z.land btns (Z.lnot 0x1ff)) then mret Invalid
  else
    let command := pointer_command x y btns (negb (btns =? buttons s)) in
    if negb (transition command) && last_motion (queue s)
    then st_change (set_queue (replace_last (queue s) command));; mret Coalesced
    else
      result ← push mem command;
      (if bool_decide (result = Accepted) then st_change (set_buttons btns) else mret tt);;
      mret result.

Definition setFocused (gen : Z) (f : bool) : Q InputResult :=
  s ← st_get;
  if negb (gen =? generation (status s)) then mret StaleGeneration
  else
    (if negb (Bool.eqb (focused (status s)) f) then reroute else mret tt);;
    status_change (set_focused f);;
    (if negb f then release else mret tt);;
    mret Accepted.

Definition releaseAll (gen : Z) : Q InputResult :=
  s ← st_get;
  if negb (gen =? generation (status s)) then mret StaleGeneration
  else if negb (connected (status s)) then mret NotConnected
  else reroute;; release;; mret Accepted.

Definition setViewOnly (enabled : bool) : Q unit :=
  s ← st_get; policy enabled (emulateMiddle (status s)).

Definition setPolicy (view emulate : bool) : Q unit := policy view emulate.

Definition get_status (s : Impl) : InputStatus :=
  let t := status s in
  MkStatus (generation t) (overflows t) (routingRevision t) (len (queue s)) (connected t) (focused t)
    (viewOnly t) (releasePending t) (emulateMiddle t).

Definition begin_attempt (gen : Z) : Q unit :=
  st_change (set_queue []);; st_change (set_buttons 0);;
  status_change (set_generation gen);;
  status_change (fun t => set_connected false (set_releasePending false t)).

Definition note_connected : Q unit := status_change (set_connected true).

Definition end_attempt (gen : Z) : Q unit := begin_attempt gen.

Definition take_command : Q (option Command) :=
  s ← st_get;
  let stamped c := stamp (routingRevision (status s)) (emulateMiddle (status s)) c in
  if negb (connected (status s)) then mret None
  else if releasePending (status s) then
    status_change (set_releasePending false);; mret (Some (stamped empty_command))
  else match queue s with
       | [] => mret None
       | c :: rest => st_change (set_queue rest);; mret (Some (stamped c))
       end.

(** The constructor: the capacity is between 1 and 65536. *)
Definition new_queue (cap : Z) : res Impl :=
  if (cap =? 0) || (cap >? 65536) then Throw (invalid_argument "Invalid input queue capacity")
  else Ok (MkImpl cap init_status 0 []).

(** ** Any sequence of calls *)

Inductive op : Type :=
| OKey (mem : bool) (gen id symbol code : Z) (dn : bool)
| OPointer (mem : bool) (gen x y btns : Z)
| OSetFocused (gen : Z) (f : bool)
| OReleaseAll (gen : Z)
| OSetViewOnly (b : bool)
| OSetPolicy (view emulate : bool)
| OBegin (gen : Z)
| OConnected
| OEnd (gen : Z)
| OTake
| OOverflow.

Inductive output : Type :=
| Done
| Result (r : InputResult)
| Taken (c : option Command).

Definition step (o : op) : Q output :=
  match o with
  | OKey mem gen id symbol code dn => Result <$> key mem gen id symbol code dn
  | OPointer mem gen x y btns => Result <$> pointer mem gen x y btns
  | OSetFocused gen f => Result <$> setFocused gen f
  | OReleaseAll gen => Result <$> releaseAll gen
  | OSetViewOnly b => setViewOnly b;; mret Done
  | OSetPolicy view emulate => setPolicy view emulate;; mret Done
  | OBegin gen => begin_attempt gen;; mret Done
  | OConnected => note_connected;; mret Done
  | OEnd gen => end_attempt gen;; mret Done
  | OTake => Taken <$> take_command
  | OOverflow => overflow;; mret Done
  end.

(** ** The invariant *)

(** The mailbox takes input only while it is connected, focused and not view
    only. *)
Definition open (t : InputStatus) : bool := connected t && focused t && negb (viewOnly t).

Definition submitted (c : Command) : Prop :=
  match kind c with
  | Key => down c = true -> keySym c <> 0 \/ keyCode c <> 0
  | Pointer => 0 <= cbuttons c < 512
  | ReleaseAll => False
  end.

Record wf (s : Impl) : Prop := {
  wf_capacity : 1 <= capacity s <= 65536;
  wf_bound : len (queue s) <= capacity s;
  wf_revision : 1 <= routingRevision (status s) <= uint64_max;
  wf_closed : open (status s) = false -> queue s = [] /\ buttons s = 0;
  wf_barrier : releasePending (status s) = true -> connected (status s) = true;
  wf_commands : Forall submitted (queue s)
}.

(** The states a mailbox can get into, by calls that return or throw. *)
Inductive reachable : Impl -> Prop :=
| reachable_new cap s : 0 <= cap -> new_queue cap = Ok s -> reachable s
| reachable_step o s : reachable s -> reachable (snd (step o s)).

(** ** What was submitted and not delivered *)

Definition motion (c : Command) : bool := bool_decide (kind c = Pointer) && negb (transition c).

(** Of consecutive motions only the last one. *)
Fixpoint coalesce (l : list Command) : list Command :=
  match l with
  | a :: ((b :: _) as rest) => if motion a && motion b then coalesce rest else a :: coalesce rest
  | _ => l
  end.

(** The first element of [coalesce l], with what follows it in [l]. *)
Fixpoint next (l : list Command) : option (Command * list Command) :=
  match l with
  | [] => None
  | a :: rest =>
      match rest with
      | b :: _ => if motion a && motion b then next rest else Some (a, rest)
      | [] => Some (a, [])
      end
  end.

Definition current (base : Z) (l : list Command) : Z :=
  fold_left (fun b c => if bool_decide (kind c = Pointer) then cbuttons c else b) l base.

(** A record of the calls: [items] has every command accepted since input was
    last discarded and not delivered, [base] the buttons held before them, and
    [worker] the buttons of the last pointer command delivered. *)
Record history := History { items : list Command; base : Z; worker : Z }.

Definition delivered (c : Command) (h : history) : history :=
  match kind c with
  | ReleaseAll => History (items h) (base h) 0
  | Pointer => History (from_option snd [] (next (items h))) (cbuttons c) (cbuttons c)
  | Key => History (from_option snd [] (next (items h))) (base h) (worker h)
  end.

(** A call as seen from outside, with the routing revision before and after:
    a new revision discards the input. *)
Definition observe (o : op) (out : res output) (before after : Z) (h : history) : history :=
  match o with
  | OBegin _ | OEnd _ => History [] 0 0
  | _ =>
    if negb (before =? after) then History [] 0 (worker h)
    else match o, out with
    | OKey _ _ id symbol code dn, Ok (Result Accepted) =>
        History (items h ++ [key_command id symbol code dn]) (base h) (worker h)
    | OPointer _ _ x y btns, Ok (Result (Accepted | Coalesced)) =>
        History (items h ++ [pointer_command x y btns (negb (btns =? current (base h) (items h)))])
          (base h) (worker h)
    | OTake, Ok (Taken (Some c)) => delivered c h
    | _, _ => h
    end
  end.

Inductive recorded : Impl -> history -> Prop :=
| recorded_new cap s : 0 <= cap -> new_queue cap = Ok s -> recorded s (History [] 0 0)
| recorded_step o s h : recorded s h ->
    recorded (snd (step o s))
      (observe o (fst (step o s)) (routingRevision (status s)) (routingRevision (status (snd (step o s)))) h).

(** Each pointer command says whether its buttons differ from those before. *)
Fixpoint consistent (b : Z) (l : list Command) : Prop :=
  match l with
  | [] => True
  | c :: l =>
      match kind c with
      | Pointer => transition c = negb (cbuttons c =? b) /\ consistent (cbuttons c) l
      | _ => consistent b l
      end
  end.

(** A state and a record of the calls that led to it. *)
Record tracks (s : Impl) (h : history) : Prop := {
  tr_queue : queue s = coalesce (items h);
  tr_buttons : buttons s = current (base h) (items h);
  tr_flags : consistent (base h) (items h);
  tr_worker : releasePending (status s) = false -> worker h = base h;
  tr_barrier : releasePending (status s) = true -> base h = 0;
  tr_offline : connected (status s) = false -> worker h = 0
}.

(** ** Lemmas *)

Lemma buttons_9bit b : z2b (Z.land b (Z.lnot 0x1ff)) = false -> 0 <= b < 512.
Proof.
  unfold z2b. intros H%negb_false_iff%Z.eqb_eq.
  assert (Z.land b (Z.lnot 0x1ff) = b - b mod 512) as E.
  { change 511 with (Z.ones 9). rewrite <- Z.ldiff_land, Z.ldiff_ones_r, Z.shiftl_mul_pow2, Z.shiftr_div_pow2 by lia.
    pose proof (Z.div_mod b (2 ^ 9)). change (2 ^ 9) with 512 in *. lia. }
  rewrite E in H. pose proof (Z.mod_pos_bound b 512). lia.
Qed.

Lemma replace_last_len q c : last_motion q = true -> len (replace_last q c) = len q.
Proof.
  unfold last_motion, replace_last. destruct (list.last q) eqn:E; [|done]. intros _.
  apply last_Some in E as [q' ->]. rewrite removelast_last. by rewrite !len_app.
Qed.

Lemma replace_last_submitted q c :
  Forall submitted q -> submitted c -> Forall submitted (replace_last q c).
Proof.
  intros Hq Hc. apply Forall_app. split; [|by constructor].
  destruct q as [|c' q _] using rev_ind; [by constructor|]. rewrite removelast_last. by apply Forall_app in Hq as [? _].
Qed.

Lemma replace_last_not_nil q : last_motion q = true -> q <> [].
Proof. by destruct q. Qed.

Lemma check_open gen s : bool_decide (check gen s = Accepted) = true -> open (status s) = true.
Proof.
  rewrite bool_decide_eq_true. unfold check, open.
  by destruct (gen =? _), (connected _), (viewOnly _), (focused _).
Qed.

(** Case analysis of an operation on a state given by its fields. *)
#[local] Arguments replace_last _ _ : simpl never.

Ltac run_queue :=
  unfold key, pointer, setFocused, releaseAll, setViewOnly, setPolicy, policy, push, overflow, reroute, release,
    end_attempt, begin_attempt, note_connected, take_command, status_change, st_change, st_get, st_throw,
    mbind, SE_bind, mret, SE_ret, fmap, SE_fmap, open, set_status, set_queue, set_buttons in *;
  cbn in *;
  repeat (first [case_test | match goal with
    | H : negb (bool_decide (check _ _ = Accepted)) = false |- _ => apply negb_false_iff in H
    | H : bool_decide (check _ _ = Accepted) = true |- _ => apply check_open in H; unfold open in H; cbn in H
    | |- context [match ?q with [] => _ | _ :: _ => _ end] => destruct q eqn:?
    end]; cbn in *).

Lemma submitted_key id symbol code dn :
  dn && (symbol =? 0) && (code =? 0) = false -> submitted (key_command id symbol code dn).
Proof. unfold submitted. cbn. intros H ->. cbn in H. apply andb_false_iff in H as [H|H]; bool_decide_hyps; auto. Qed.

Lemma submitted_pointer x y btns tr :
  z2b (Z.land btns (Z.lnot 0x1ff)) = false -> submitted (pointer_command x y btns tr).
Proof. apply buttons_9bit. Qed.

Ltac case_bools := repeat match goal with b : bool |- _ => destruct b; cbn in *; try done end.
Ltac wf_case :=
  split; cbn; unfold open; cbn;
  rewrite ?replace_last_len, ?len_app, ?len_cons, ?len_nil, ?u64_id by (done || unfold uint64_max in *; lia);
  first [ done | lia | by auto | unfold uint64_max in *; lia
        | by apply replace_last_submitted; auto using submitted_pointer
        | apply Forall_app; split; [by auto|constructor; [by auto using submitted_key, submitted_pointer|by constructor]]
        | by intros; case_bools; auto; congruence
        | idtac ].

Lemma step_wf o s : wf s -> wf (snd (step o s)).
Proof.
  destruct s as [cap [g ov rev qd cn fc vo rp em] btns q].
  intros [Hc Hb Hr Hcl Hba Hcm]; cbn in *. unfold open in Hcl; cbn in Hcl.
  destruct o; cbn [step]; run_queue.
  all: try match goal with E : _ = _ :: _ |- _ => rewrite E in * end.
  all: try match goal with H : Forall submitted (_ :: _) |- _ => inversion_clear H; rewrite len_cons in Hb end.
  all: wf_case.
  intros Ho. by destruct (Hcl Ho).
Qed.

(** *** Coalescing *)

Lemma coalesce_next l :
  coalesce l = match next l with None => [] | Some (a, r) => a :: coalesce r end.
Proof.
  induction l as [|a l IH]; [done|]. destruct l as [|b l]; [done|].
  cbn [coalesce next] in *. destruct (motion a && motion b); [done|]. done.
Qed.

Lemma next_spec l a r : next l = Some (a, r) ->
  exists skipped, l = skipped ++ a :: r /\ Forall (fun c => motion c = true) skipped /\
    (skipped <> [] -> motion a = true) /\
    (motion a = true -> forall b r', r = b :: r' -> motion b = false).
Proof.
  induction l as [|x l IH]; [done|]. destruct l as [|b l]; cbn [next].
  - intros [= <- <-]. exists []. by repeat split.
  - destruct (motion x && motion b) eqn:E.
    + apply andb_true_iff in E as [Ex Eb]. intros H. destruct (IH H) as (sk & E & Hsk & Ha & Hr).
      exists (x :: sk). rewrite E. repeat split; [by constructor| |done].
      intros _. destruct sk; [|by apply Ha]. cbn in E. injection E as <- _. done.
    + intros [= <- <-]. exists []. repeat split; [done|done|].
      intros Hx c r' [= <- <-]. by rewrite Hx in E.
Qed.

Lemma coalesce_cons2 a b l :
  coalesce (a :: b :: l) = if motion a && motion b then coalesce (b :: l) else a :: coalesce (b :: l).
Proof. done. Qed.

Lemma coalesce_nil l : coalesce l = [] -> l = [].
Proof.
  induction l as [|a l IH]; [done|]. destruct l as [|b l]; [done|].
  cbn [coalesce] in *. destruct (_ && _); [intros H; by apply IH in H|done].
Qed.

Lemma coalesce_snoc l c :
  coalesce (l ++ [c]) =
  if motion c && last_motion l then replace_last (coalesce l) c else coalesce l ++ [c].
Proof.
  induction l as [|a l IH]; [by destruct (motion c)|]. destruct l as [|b l].
  - cbn. unfold last_motion. cbn. rewrite andb_comm.
    change (bool_decide (kind a = Pointer) && negb (transition a)) with (motion a).
    by destruct (motion c && motion a).
  - change (last_motion (a :: b :: l)) with (last_motion (b :: l)).
    change ((a :: b :: l) ++ [c]) with (a :: b :: (l ++ [c])).
    rewrite !coalesce_cons2.
    change (b :: (l ++ [c])) with ((b :: l) ++ [c]). rewrite IH.
    destruct (motion a && motion b); [done|]. destruct (motion c && last_motion (b :: l)); [|done].
    unfold replace_last. destruct (coalesce (b :: l)) as [|x k] eqn:E; [by apply coalesce_nil in E|done].
Qed.

Lemma coalesce_last l : last_motion (coalesce l) = last_motion l.
Proof.
  induction l as [|a l IH]; [done|]. destruct l as [|b l]; [done|].
  change (last_motion (a :: b :: l)) with (last_motion (b :: l)). rewrite <- IH.
  rewrite coalesce_cons2. destruct (_ && _); [done|].
  destruct (coalesce (b :: l)) eqn:E; [by apply coalesce_nil in E|done].
Qed.

#[local] Arguments current _ _ : simpl never.

(** *** Buttons along a list of commands *)

Lemma current_app b l k : current b (l ++ k) = current (current b l) k.
Proof. apply fold_left_app. Qed.

Lemma current_cons b c l :
  current b (c :: l) = current (if bool_decide (kind c = Pointer) then cbuttons c else b) l.
Proof. done. Qed.

Lemma consistent_app b l k : consistent b (l ++ k) <-> consistent b l /\ consistent (current b l) k.
Proof.
  revert b. induction l as [|c l IH]; intros b; cbn; [tauto|].
  rewrite current_cons. destruct (kind c) eqn:E; rewrite IH; cbn; tauto.
Qed.

Lemma consistent_motion b c : motion c = true -> consistent b [c] -> current b [c] = b.
Proof.
  unfold motion, current. cbn.
  intros [H1%bool_decide_eq_true H2%negb_true_iff]%andb_true_iff. rewrite H1, H2. cbn.
  intros [H3 _]. symmetry in H3. by apply negb_false_iff, Z.eqb_eq in H3.
Qed.

Lemma consistent_next b l a r : consistent b l -> next l = Some (a, r) ->
  consistent b [a] /\ consistent (current b [a]) r /\ current b l = current (current b [a]) r.
Proof.
  intros Hl Hn. destruct (next_spec _ _ _ Hn) as (sk & -> & Hsk & _ & _). clear Hn.
  induction Hsk as [|m sk Hm _ IH]; cbn [app] in *.
  - change (a :: r) with ([a] ++ r) in *. rewrite consistent_app in Hl. rewrite current_app. tauto.
  - change (m :: sk ++ a :: r) with ([m] ++ (sk ++ a :: r)) in *.
    rewrite consistent_app in Hl. rewrite current_app. destruct Hl as [H1 H2].
    rewrite (consistent_motion b m) in * by done. tauto.
Qed.

(** *** The simulation *)

Lemma tracks_closed s h : wf s -> tracks s h -> open (status s) = false -> items h = [] /\ base h = 0.
Proof.
  intros Hw Ht Ho. destruct (wf_closed _ Hw Ho) as [Hq Hb].
  rewrite (tr_queue _ _ Ht) in Hq. apply coalesce_nil in Hq.
  rewrite (tr_buttons _ _ Ht), Hq in Hb. done.
Qed.

Lemma tracks_push s h c b : tracks s h -> motion c && last_motion (queue s) = false ->
  consistent (buttons s) [c] -> b = current (buttons s) [c] ->
  tracks (set_buttons b (set_queue (queue s ++ [c]) s)) (History (items h ++ [c]) (base h) (worker h)).
Proof.
  intros [Hq Hb Hf Hwk Hp Hoff] Hm Hc ->. split; cbn; [| | |done|done|done].
  - rewrite coalesce_snoc, <- coalesce_last, <- Hq, Hm. done.
  - by rewrite current_app, <- Hb.
  - rewrite consistent_app, <- Hb. done.
Qed.

Lemma tracks_replace s h c : tracks s h -> motion c && last_motion (queue s) = true ->
  consistent (buttons s) [c] ->
  tracks (set_queue (replace_last (queue s) c) s) (History (items h ++ [c]) (base h) (worker h)).
Proof.
  intros [Hq Hb Hf Hwk Hp Hoff] Hm Hc. split; cbn; [| | |done|done|done].
  - rewrite coalesce_snoc, <- coalesce_last, <- Hq, Hm. done.
  - rewrite current_app, <- Hb, consistent_motion; [done| |done]. by apply andb_true_iff in Hm as [? _].
  - rewrite consistent_app, <- Hb. done.
Qed.

Lemma tracks_clear s h s' : tracks s h -> queue s' = [] -> buttons s' = 0 ->
  connected (status s') = connected (status s) ->
  releasePending (status s') = connected (status s) ->
  tracks s' (History [] 0 (worker h)).
Proof.
  intros [_ _ _ _ _ Hoff] Hq Hb Hc Hr. split; cbn; [done|done|done| | |]; rewrite ?Hr, ?Hc; auto.
Qed.

Lemma tracks_same s h s' : tracks s h -> queue s' = queue s -> buttons s' = buttons s ->
  releasePending (status s') = releasePending (status s) ->
  (connected (status s') = false -> connected (status s) = false) -> tracks s' h.
Proof.
  intros [Hq Hb Hf Hwk Hp Hoff] E1 E2 E3 E4. split; rewrite ?E1, ?E2, ?E3; auto.
Qed.

Lemma tracks_take s h c q : tracks s h -> queue s = c :: q -> kind c <> ReleaseAll ->
  connected (status s) = true -> releasePending (status s) = false ->
  tracks (set_queue q s) (delivered c h).
Proof.
  intros [Hq Hb Hf Hwk Hp Hoff] Hc Hk Hcn Hr. rewrite Hq, coalesce_next in Hc.
  destruct (next (items h)) as [[a r]|] eqn:En; [|done]. injection Hc as -> <-.
  destruct (consistent_next _ _ _ _ Hf En) as (_ & Hr' & Hcur).
  unfold delivered. rewrite En. rewrite !current_cons in *.
  destruct (kind c); [| |done]; (split; cbn; [done| |done|intros; try done; auto|congruence|congruence]).
  - by rewrite Hb.
  - by rewrite Hb.
Qed.


(** A closed mailbox has nothing to discard. *)
Lemma tracks_again s h s' : tracks s h -> wf s -> open (status s) = false ->
  queue s' = [] -> buttons s' = 0 -> connected (status s') = connected (status s) ->
  (releasePending (status s') = connected (status s) \/
   releasePending (status s') = releasePending (status s)) -> tracks s' h.
Proof.
  intros Ht Hw Ho Hq Hb Hc Hr. destruct (tracks_closed _ _ Hw Ht Ho) as [Hi Hbs].
  destruct Ht as [_ _ _ Hwk _ Hoff], h as [its bs wk]; cbn in *; subst its bs.
  split; cbn; [done|done|done| |done|by rewrite Hc].
  destruct Hr as [->| ->]; auto.
Qed.

Lemma tracks_reopen s h s' : tracks s h -> wf s -> open (status s) = false ->
  queue s' = queue s -> buttons s' = buttons s -> connected (status s') = connected (status s) ->
  releasePending (status s') = releasePending (status s) -> tracks s' (History [] 0 (worker h)).
Proof.
  intros Ht Hw Ho Hq Hb Hc Hr. destruct (tracks_closed _ _ Hw Ht Ho) as [Hi Hbs].
  replace (History [] 0 (worker h)) with h by (destruct h; cbn in *; by subst).
  apply (tracks_same s); [done..|by rewrite Hc].
Qed.

Lemma tracks_released s h s' : tracks s h -> releasePending (status s) = true ->
  queue s' = queue s -> buttons s' = buttons s ->
  tracks s' (History (items h) (base h) 0).
Proof.
  intros [Hq Hb Hf Hwk Hp Hoff] Hr E1 E2. split; rewrite ?E1, ?E2; cbn; auto. intros. by rewrite Hp.
Qed.

Lemma delivered_stamp rev em c h : delivered (stamp rev em c) h = delivered c h.
Proof. done. Qed.

Lemma new_queue_wf cap s : 0 <= cap -> new_queue cap = Ok s -> wf s.
Proof.
  unfold new_queue. intros H0. case_test; [done|]. intros [= <-].
  split; cbn; [lia|rewrite len_nil; lia|by unfold uint64_max|done|done|by constructor].
Qed.

Lemma tracks_step o s h : wf s -> tracks s h ->
  tracks (snd (step o s))
    (observe o (fst (step o s)) (routingRevision (status s)) (routingRevision (status (snd (step o s)))) h).
Proof.
  intros Hw Ht. pose proof (wf_revision _ Hw) as Hr.
  pose proof (wf_commands _ Hw) as Hcm.
  destruct s as [cap [g ov rev qd cn fc vo rp em] btns q]. cbn in Hr, Hcm.
  destruct o; cbn [step].
  1,2: unfold key, pointer, mbind, SE_bind, st_get, fmap, SE_fmap; destruct (check gen _) eqn:Ec; cbn;
    try (rewrite Z.eqb_refl; exact Ht);
    try (exfalso; revert Ec; unfold check; repeat case_test; done); apply (bool_decide_eq_true_2 _), check_open in Ec; unfold open in Ec; cbn in Ec.
  all: run_queue; rewrite ?Z.eqb_refl; cbn; try exact Ht; try (exfalso; lia).
  all: try match goal with H : context [u64 _] |- _ => exfalso; rewrite u64_id in H; unfold uint64_max in *; lia end.
  all: try match goal with H : bool_decide (Accepted = Accepted) = false |- _ => by rewrite bool_decide_eq_false in H end.
  all: try (apply (tracks_clear _ _ _ Ht); reflexivity).
  all: try (apply (tracks_push _ _ _ _ Ht); [|cbn; auto..]; done).
  all: try (apply (tracks_same _ _ _ Ht); cbn; auto; done).
  all: try (apply (tracks_again _ _ _ Ht Hw); unfold open; cbn; subst; case_bools; auto; done).
  all: try (apply (tracks_reopen _ _ _ Ht Hw); unfold open; cbn; case_bools; auto; done).
  all: try (rewrite <- (tr_buttons _ _ Ht); cbn).
  - apply (tracks_replace _ _ _ Ht); cbn; [|auto]. subst. by rewrite Z.eqb_refl.
  - apply (tracks_push _ _ _ _ Ht); [|cbn; auto|done].
    change (motion (pointer_command x y btns0 ?t)) with (negb t). by destruct (btns0 =? btns).
  - by split.
  - by split.
  - apply (tracks_released _ _ _ Ht); done.
  - rewrite delivered_stamp. apply (tracks_take _ _ _ _ Ht); [done| |done|done].
    inversion_clear Hcm as [|? ? Hk]. unfold submitted in Hk. by destruct (kind c).
Qed.

Lemma recorded_wf s h : recorded s h -> wf s /\ tracks s h.
Proof.
  induction 1 as [cap s H0 Hn|o s h _ [Hw Ht]].
  - split; [by eapply new_queue_wf|]. unfold new_queue in Hn. destruct (_ || _); [done|]. injection Hn as <-. by split.
  - split; [by apply step_wf|by apply tracks_step].
Qed.

(** *** For the worker *)

(** What a take gives, and what it leaves. *)
Lemma take_cases s : wf s ->
  match take_command s with
  | (Ok None, s') => s' = s /\ queue s = [] /\ releasePending (status s) = false
  | (Ok (Some c), s') =>
      releasePending (status s') = false /\
      if releasePending (status s) then kind c = ReleaseAll /\ queue s' = queue s
      else exists a, queue s = a :: queue s'
  | (Throw _, _) => False
  end.
Proof.
  intros Hw. unfold take_command, status_change, mbind, SE_bind, st_get, st_change, mret, SE_ret.
  destruct (connected (status s)) eqn:Ec; cbn [negb].
  - destruct (releasePending (status s)) eqn:Er; [done|]. destruct (queue s) as [|c q] eqn:Eq; [done|].
    split; [exact Er|]. by exists c.
  - destruct (wf_closed _ Hw) as [Hq _]; [unfold open; by rewrite Ec|]. split; [done|]. split; [done|].
    destruct (releasePending (status s)) eqn:Er; [|done]. apply (wf_barrier _ Hw) in Er. congruence.
Qed.

Lemma step_capacity o s : capacity (snd (step o s)) = capacity s.
Proof.
  destruct s as [cap [g ov rev qd cn fc vo rp em] btns q].
  destruct o; cbn [step]; run_queue; done.
Qed.

(** ** Properties *)

(** C36: Whatever is called on a mailbox, in any order, it holds no more
    commands than its capacity, and only well formed ones; it holds input only
    while it is connected, focused and not view only; a release is pending only
    while it is connected; the routing revision never wraps around. *)
Theorem InputQueue_invariant s : reachable s -> wf s.
Proof.
  induction 1 as [cap s H0 Hn|o s _ Hw]; [by eapply new_queue_wf|by apply step_wf].
Qed.

Theorem InputQueue_invariant_witness :
  reachable (snd (step (OKey true 1 7 97 0 true) (snd (step OConnected (MkImpl 2 init_status 0 []))))) /\
  wf (snd (step (OKey true 1 7 97 0 true) (snd (step OConnected (MkImpl 2 init_status 0 []))))).
Proof.
  split; [|apply InputQueue_invariant];
    do 2 apply reachable_step; by apply (reachable_new 2); [lia|].
Defined.

(** C22: The mailbox holds what was submitted since input was last discarded and
    not yet taken, with each run of motions reduced to its last.  What is taken
    is the pending release first; otherwise it is the next submitted command
    that is not a motion before another motion, stamped with the routing
    revision and policy it was submitted under, and a pointer command is marked
    as a button transition exactly when its buttons differ from those the
    worker received last. *)
Theorem InputQueue_delivery s h :
  recorded s h ->
  queue s = coalesce (items h) /\
  forall s' c, step OTake s = (Ok (Taken (Some c)), s') ->
    if releasePending (status s) then kind c = ReleaseAll
    else exists skipped a rest,
      items h = skipped ++ a :: rest /\ Forall (fun m => motion m = true) skipped /\
      (skipped <> [] -> motion a = true) /\
      (motion a = true -> forall b r, rest = b :: r -> motion b = false) /\
      c = stamp (routingRevision (status s)) (emulateMiddle (status s)) a /\
      (kind a = Pointer -> transition a = negb (cbuttons a =? worker h)).
Proof.
  intros H. destruct (recorded_wf _ _ H) as [_ Ht]. split; [apply Ht|]. intros s' c Hc.
  cbn [step] in Hc. unfold take_command, fmap, SE_fmap, mbind, SE_bind, st_get in Hc.
  destruct (connected (status s)) eqn:Ecn; [|done]. cbn in Hc.
  destruct (releasePending (status s)) eqn:Er; [by injection Hc as <- _|].
  rewrite (tr_queue _ _ Ht), coalesce_next in Hc.
  destruct (next (items h)) as [[a r]|] eqn:En; [|done]. injection Hc as <- _.
  destruct (next_spec _ _ _ En) as (sk & E & Hsk & Ha & Hr). exists sk, a, r.
  repeat split; [done..|]. intros Hk.
  destruct (consistent_next _ _ _ _ (tr_flags _ _ Ht) En) as [Hf _]. cbn in Hf. rewrite Hk in Hf.
  rewrite (tr_worker _ _ Ht Er). apply Hf.
Qed.

(** Two motions and a press: the first motion is dropped. *)
Definition busy : Impl :=
  snd (step (OPointer true 1 9 8 1) (snd (step (OPointer true 1 5 6 0) (snd (step (OPointer true 1 3 4 0)
    (snd (step OConnected (MkImpl 8 init_status 0 [])))))))).
Definition busy_history : history :=
  History [pointer_command 3 4 0 false; pointer_command 5 6 0 false; pointer_command 9 8 1 true] 0 0.

Lemma busy_recorded : recorded busy busy_history.
Proof.
  exact (recorded_step (OPointer true 1 9 8 1) _ _ (recorded_step (OPointer true 1 5 6 0) _ _
    (recorded_step (OPointer true 1 3 4 0) _ _ (recorded_step OConnected _ _ (recorded_new 8 _ (Zle_0_pos 8) eq_refl))))).
Qed.

Theorem InputQueue_delivery_witness :
  queue busy = [pointer_command 5 6 0 false; pointer_command 9 8 1 true] /\
  queue busy = coalesce (items busy_history).
Proof. split; [reflexivity|]. exact (proj1 (InputQueue_delivery _ _ busy_recorded)). Defined.

(** The one exception a call can end with is the exhausted routing revision,
    only when the revision is the largest 64-bit number, and it leaves the
    mailbox as it was. *)
Theorem InputQueue_error o s e s' :
  step o s = (Throw e, s') ->
  e = overflow_error "Input routing revision exhausted" /\ s' = s /\
  routingRevision (status s) = uint64_max.
Proof.
  destruct s as [cap [g ov rev qd cn fc vo rp em] btns q].
  destruct o; cbn [step]; run_queue; intros [= <- <-]; subst; auto.
Qed.

Definition exhausted : Impl := MkImpl 1 (MkStatus 1 0 uint64_max 0 true true false false false) 0 [].

Theorem InputQueue_error_witness :
  step OOverflow exhausted = (Throw (overflow_error "Input routing revision exhausted"), exhausted) /\
  exhausted = exhausted /\ routingRevision (status exhausted) = uint64_max.
Proof.
  split; [reflexivity|].
  apply (InputQueue_error OOverflow exhausted (overflow_error "Input routing revision exhausted") exhausted eq_refl).
Defined.
