(* ===== verification/MiddleButton.v ===== *)
(** * Emulation of a middle button ([viewer/core/MiddleButtonEmulator.cxx])

    A finite state machine turns the left and the right button, pressed within
    50 ms, into the middle one.  A button event is the set of buttons that are
    down now; it and the expiry of the timer give a batch of at most three
    events to send.  The batch's array of three with its count is the list of
    the events written so far; [state] is an index of [stateTab], and the
    entries of the table stand where the source has them.

    Proved here: the indices and the array stay in bounds and the buttons sent
    are a function of the state; and, for any sequence of events, what the
    server sees of the left, middle and right button in terms of what the user
    did with the two. *)
From stdpp Require Import base list numbers strings option.
From S2P Require Import Prelude Geometry.
#[local] Open Scope Z_scope.

(** Rows: the state; then the event (no button, left, right, both, timeout);
    then two actions and the new state. *)
Definition stateTab : list (list (Z * Z * Z)) :=
  [ [(0, 0, 0); (0, 0, 1); (0, 0, 2); (2, 0, 3); (0, 0, -1)];          (* 0 ground *)
    [(1, -1, 0); (0, 0, 1); (1, -1, 2); (2, 0, 3); (1, 0, 4)];         (* 1 delayed left *)
    [(3, -3, 0); (3, -3, 1); (0, 0, 2); (2, 0, 3); (3, 0, 5)];         (* 2 delayed right *)
    [(-2, 0, 0); (0, 0, 7); (0, 0, 6); (0, 0, 3); (0, 0, -1)];         (* 3 pressed middle *)
    [(-1, 0, 0); (0, 0, 4); (-1, 0, 2); (3, 0, 10); (0, 0, -1)];       (* 4 pressed left *)
    [(-3, 0, 0); (-3, 0, 1); (0, 0, 5); (1, 0, 10); (0, 0, -1)];       (* 5 pressed right *)
    [(-2, 0, 0); (-2, 0, 1); (0, 0, 6); (1, 0, 8); (0, 0, -1)];        (* 6 released left *)
    [(-2, 0, 0); (0, 0, 7); (-2, 0, 2); (3, 0, 9); (0, 0, -1)];        (* 7 released right *)
    [(-2, -1, 0); (-2, 0, 4); (-1, 0, 6); (0, 0, 8); (0, 0, -1)];      (* 8 repressed left *)
    [(-2, -3, 0); (-3, 0, 7); (-2, 0, 5); (0, 0, 9); (0, 0, -1)];      (* 9 repressed right *)
    [(-1, -3, 0); (-3, 0, 4); (-1, 0, 5); (0, 0, 10); (0, 0, -1)] ].   (* 10 pressed both *)

Record Event := MkEvent { position : Point; ebuttons : Z }.

Record MiddleButtonEmulator := MkMiddle {
  state : Z;
  emulated : Z;
  lastButtons : Z;
  original : Point;
  lastPosition : Point
}.

Definition init_middle : MiddleButtonEmulator := MkMiddle 0 0 0 (MkPoint 0 0) (MkPoint 0 0).

(** What a call sends, and whether its timer changed. *)
Record Batch := MkBatch { events : list Event; timerChanged : bool }.

Definition pending (m : MiddleButtonEmulator) : bool := (state m =? 1) || (state m =? 2).
Definition reset (m : MiddleButtonEmulator) : MiddleButtonEmulator := init_middle.

(** [(buttons & ~0x5) | emulated], in 16 bits. *)
Definition mask (m : MiddleButtonEmulator) (buttons : Z) : Z :=
  u16 (Z.lor (Z.land buttons (Z.lnot 0x5)) (emulated m)).

Definition set_emulated (e : Z) (m : MiddleButtonEmulator) : MiddleButtonEmulator :=
  MkMiddle (state m) e (lastButtons m) (original m) (lastPosition m).

(** [stateTab[state][event]]; [None] where an index is out of range. *)
Definition transition (st event : Z) : option (Z * Z * Z) :=
  if (st <? 0) || (event <? 0) then None else
  match stateTab !! Z.to_nat st with
  | None => None
  | Some row => row !! Z.to_nat event
  end.

Definition action (evs : list Event) (m : MiddleButtonEmulator) (pos : Point) (buttons value : Z)
  : list Event * MiddleButtonEmulator :=
  let m := set_emulated (if value <? 0
    then Z.land (emulated m) (Z.lnot (Z.shiftl 1 (- value - 1)))
    else Z.lor (emulated m) (Z.shiftl 1 (value - 1))) m in
  (evs ++ [MkEvent pos (mask m buttons)], m).

(** One of the two actions of a transition: nothing where it is 0. *)
Definition act (pos : Point) (buttons value : Z) (em : list Event * MiddleButtonEmulator)
  : list Event * MiddleButtonEmulator :=
  let '(evs, m) := em in if value =? 0 then (evs, m) else action evs m pos buttons value.

(** The event index: bit 0 for the left, bit 1 for the right button. *)
Definition button_event (buttons : Z) : Z := Z.lor (Z.land buttons 1) (Z.shiftr (Z.land buttons 4) 1).

Definition pointer (m : MiddleButtonEmulator) (pos : Point) (buttons : Z) : option (Batch * MiddleButtonEmulator) :=
  let m := MkMiddle (state m) (emulated m) buttons (original m) pos in
  '(a1, a2, st) ← transition (state m) (button_event buttons);
  let where_ value := if pending m && (value >? 0) then original m else pos in
  let '(evs, m) := act (where_ a2) buttons a2 (act (where_ a1) buttons a1 ([], m)) in
  let evs := if (a1 =? 0) && (a2 =? 0) && negb (pending m) then evs ++ [MkEvent pos (mask m buttons)] else evs in
  let changed := negb (state m =? st) in
  let m := MkMiddle st (emulated m) (lastButtons m) (original m) (lastPosition m) in
  let m := if changed && pending m
           then MkMiddle (state m) (emulated m) (lastButtons m) pos (lastPosition m) else m in
  Some (MkBatch evs changed, m).

Definition expire (m : MiddleButtonEmulator) : option (Batch * MiddleButtonEmulator) :=
  if negb (pending m) then Some (MkBatch [] false, m) else
  '(a1, a2, st) ← transition (state m) 4;
  let '(evs, m) := act (original m) (lastButtons m) a2 (act (original m) (lastButtons m) a1 ([], m)) in
  let evs := if negb (pt_eqb (original m) (lastPosition m))
             then evs ++ [MkEvent (lastPosition m) (mask m (lastButtons m))] else evs in
  Some (MkBatch evs true, MkMiddle st (emulated m) (lastButtons m) (original m) (lastPosition m)).

(** ** What the server sees *)

(** Calls on an emulator, by the state it is left in. *)
Inductive reachable : MiddleButtonEmulator -> Prop :=
| reachable_init : reachable init_middle
| reachable_pointer m pos buttons b m' :
    reachable m -> 0 <= buttons < 512 -> pointer m pos buttons = Some (b, m') -> reachable m'
| reachable_expire m b m' : reachable m -> expire m = Some (b, m') -> reachable m'
| reachable_reset m : reachable m -> reachable (reset m).

(** The left (1) and right (4) button of the user in each state, and the
    buttons the server has been sent. *)
Definition user_of (st : Z) : Z := znth 0 [0; 1; 4; 5; 1; 4; 4; 1; 5; 5; 5] st.
Definition sent_of (st : Z) : Z := znth 0 [0; 0; 0; 2; 1; 4; 2; 2; 3; 6; 5] st.

(** While the middle button is emulated: the buttons the user has held ever
    since it went down. *)
Definition anchor_of (st : Z) : Z := znth 0 [0; 0; 0; 5; 0; 0; 4; 1; 4; 1; 0] st.
Definition anchor (m : MiddleButtonEmulator) : Z := anchor_of (state m).
Definition middle (m : MiddleButtonEmulator) : bool := Z.testbit (emulated m) 1.

Record wf (m : MiddleButtonEmulator) : Prop := {
  wf_state : 0 <= state m <= 10;
  wf_emulated : emulated m = sent_of (state m);
  wf_user : Z.land (lastButtons m) 5 = user_of (state m)
}.

(** Each mask differs from the one before in one of the three buttons at most. *)
Fixpoint single_steps (e : Z) (es : list Z) : bool :=
  match es with
  | [] => true
  | e' :: es => existsb (fun t => e' =? Z.lxor e t) [0; 1; 2; 4] && single_steps e' es
  end.

(** The user's buttons, with [e] for the left, middle and right one. *)
Definition seen (buttons e : Z) : Z := u16 (Z.lor (Z.land buttons (Z.lnot 0x5)) e).

(** A batch that takes the server from the emulated buttons [e] to [e'], the
    other buttons as the user holds them. *)
Definition sends (buttons e e' : Z) (evs : list Event) : Prop :=
  exists es, map ebuttons evs = map (seen buttons) es /\
    single_steps e es = true /\ List.last es e = e'.

(** ** Lemmas *)

Lemma land_bit b k : 0 <= k -> Z.land b (2 ^ k) = if Z.testbit b k then 2 ^ k else 0.
Proof.
  intros Hk. apply Z.bits_inj'. intros i Hi. rewrite Z.land_spec, Z.pow2_bits_eqb by done.
  destruct (Z.eqb_spec k i) as [<-|Hne].
  - destruct (Z.testbit b k); [by rewrite Z.pow2_bits_true|by rewrite Z.bits_0].
  - rewrite andb_false_r. destruct (Z.testbit b k); [by rewrite Z.pow2_bits_false|by rewrite Z.bits_0].
Qed.

Lemma button_event_bits b :
  button_event b = b2z (Z.testbit b 0) + 2 * b2z (Z.testbit b 2) /\
  Z.land b 5 = b2z (Z.testbit b 0) + 4 * b2z (Z.testbit b 2).
Proof.
  unfold button_event. change 5 with (Z.lor (2 ^ 0) (2 ^ 2)). change 1 with (2 ^ 0) at 1. change 4 with (2 ^ 2) at 1.
  rewrite Z.land_lor_distr_r, !land_bit by lia. by destruct (Z.testbit b 0), (Z.testbit b 2).
Qed.

(** A statement about every state of the machine, on each of the eleven. *)
Lemma eleven (P : Z -> Prop) : Forall P [0; 1; 2; 3; 4; 5; 6; 7; 8; 9; 10] -> forall st, 0 <= st <= 10 -> P st.
Proof.
  intros H st Hst. rewrite List.Forall_forall in H. apply H. cbn. lia.
Qed.

Record pointer_ok (m : MiddleButtonEmulator) (pos : Point) (buttons : Z) (b : Batch) (m' : MiddleButtonEmulator) : Prop := {
  po_wf : wf m';
  po_last : lastButtons m' = buttons /\ lastPosition m' = pos;
  po_count : (length (events b) <= 3)%nat;
  po_sends : sends buttons (emulated m) (emulated m') (events b);
  po_sent : pending m' = false -> events b <> [];
  po_timer : timerChanged b = false -> state m' = state m;
  po_original : timerChanged b = true -> pending m' = true -> original m' = pos;
  po_middle : middle m' = if middle m then negb (Z.land buttons (anchor m) =? 0) else (Z.land buttons 5 =? 5) && (emulated m =? 0);
  po_anchor : middle m' = true -> anchor m' = if middle m then Z.land buttons (anchor m) else 5;
  po_emulated : emulated m' = if middle m' then 2 + Z.ldiff (Z.land buttons 5) (anchor m')
                              else if pending m' then 0 else Z.land buttons 5;
  po_pending : pending m' = negb (middle m') && (negb (Z.land buttons 5 =? 0) && negb (Z.land buttons 5 =? 5)) &&
                 (Z.land buttons (Z.land (emulated m) 5) =? 0);
  po_chord : emulated m = 0 -> Z.land buttons 5 = 5 ->
             events b = [MkEvent (if pending m then original m else pos) (seen buttons 2)];
  po_click : pending m = true -> Z.land buttons 5 <> 5 -> Z.land buttons 5 <> Z.land (lastButtons m) 5 ->
             events b = [MkEvent (original m) (seen buttons (Z.land (lastButtons m) 5)); MkEvent pos (seen buttons 0)]
}.

(** The emulated buttons along a batch are read off its events. *)
Ltac find_path :=
  unfold sends; first [exists []; repeat split; fail | eexists [_]; repeat split; fail | eexists [_; _]; repeat split; fail
    | eexists [_; _; _]; repeat split; fail].

Lemma pointer_step m pos buttons : wf m ->
  exists b m', pointer m pos buttons = Some (b, m') /\ pointer_ok m pos buttons b m'.
Proof.
  destruct m as [st e lb o l]. intros [Hst He Hu]. cbn in He, Hu; subst e. cbn in Hst.
  destruct (button_event_bits buttons) as [Hev H5].
  pose proof (land_bit buttons 0 ltac:(lia)) as H1. pose proof (land_bit buttons 2 ltac:(lia)) as H4.
  change (2 ^ 0) with 1 in H1. change (2 ^ 2) with 4 in H4. pose proof (Z.land_0_r buttons) as H0.
  revert st Hst Hu. apply (eleven (fun st => _ = user_of st -> exists b m', _)).
  unfold pointer. cbn [state]. rewrite Hev.
  repeat apply Forall_cons; try apply Forall_nil; intros Hu.
  all: destruct (Z.testbit buttons 0), (Z.testbit buttons 2).
  all: eexists _, _; split; [cbv -[mask]; reflexivity|].
  all: split; [split; [cbn; lia|done|exact H5]|done|cbn; lia|find_path|done|done|done|..];
    cbn [lastButtons original] in *; rewrite ?H5, ?Hu; try done; auto;
    cbv -[Z.land] ; rewrite ?H5, ?H4, ?H1, ?H0; try done.
  all: try (match goal with |- context [Z.land _ (Z.land ?x ?y)] => let e := eval vm_compute in (Z.land x y) in change (Z.land x y) with e end;
    rewrite ?H5, ?H4, ?H1, ?H0; done).
Qed.

Record expire_ok (m : MiddleButtonEmulator) (b : Batch) (m' : MiddleButtonEmulator) : Prop := {
  eo_wf : wf m';
  eo_count : (length (events b) <= 3)%nat;
  eo_sends : sends (lastButtons m) (emulated m) (emulated m') (events b);
  eo_done : pending m' = false;
  eo_direct : pending m = true -> emulated m' = Z.land (lastButtons m) 5;
  eo_idle : pending m = false -> events b = [] /\ m' = m
}.

Lemma expire_step m : wf m -> exists b m', expire m = Some (b, m') /\ expire_ok m b m'.
Proof.
  destruct m as [st e lb o l]. intros [Hst He Hu]. cbn in He, Hu; subst e. cbn in Hst.
  revert st Hst Hu. apply (eleven (fun st => _ = user_of st -> exists b m', _)).
  unfold expire. cbn [original lastPosition lastButtons state pending].
  destruct (pt_eqb o l) eqn:Eo.
  all: repeat apply Forall_cons; try apply Forall_nil; intros Hu.
  all: eexists _, _; split; [cbv -[mask pt_eqb]; rewrite ?Eo; reflexivity|].
  all: split; [split; [cbn; lia|done|exact Hu]|cbn; lia|find_path|done|cbn [lastButtons]; rewrite Hu; done|done].
Qed.

Lemma init_wf : wf init_middle.
Proof. split; cbn; [lia|done|done]. Qed.

Lemma reachable_wf m : reachable m -> wf m.
Proof.
  induction 1 as [|m pos buttons b m' _ Hw Hb Hp|m b m' _ Hw Hp|m _ _]; [apply init_wf| | |apply init_wf].
  - destruct (pointer_step m pos buttons Hw) as (b' & m'' & E & Hok). rewrite E in Hp. injection Hp as <- <-. apply Hok.
  - destruct (expire_step m Hw) as (b' & m'' & E & Hok). rewrite E in Hp. injection Hp as <- <-. apply Hok.
Qed.

(** ** Properties *)

(** In every state the emulator can get into, both calls find a transition
    (no index leaves the table, [-1] is never entered), and write at most three
    events, which is the length of a batch's array. *)
Theorem MiddleButton_in_bounds m :
  reachable m ->
  0 <= state m <= 10 /\
  (forall pos buttons, exists b m', pointer m pos buttons = Some (b, m') /\ (length (events b) <= 3)%nat) /\
  (exists b m', expire m = Some (b, m') /\ (length (events b) <= 3)%nat).
Proof.
  intros Hm. pose proof (reachable_wf _ Hm) as Hw. split; [apply Hw|]. split.
  - intros pos buttons. destruct (pointer_step m pos buttons Hw) as (b & m' & E & Hok). exists b, m'. split; [done|apply Hok].
  - destruct (expire_step m Hw) as (b & m' & E & Hok). exists b, m'. split; [done|apply Hok].
Qed.

Theorem MiddleButton_in_bounds_witness : 0 <= state init_middle <= 10.
Proof. exact (proj1 (MiddleButton_in_bounds init_middle reachable_init)). Defined.

(** C28: What the server sees.  The events of a button change press or release
    one emulated button at a time and leave every other button as the user holds
    it; unless a press is being delayed afterwards, something is sent.
    - The middle button is down just when both buttons went down while the
      server had been sent neither (the first of them, if any, still
      delayed), and as long after that as the user has held on to one of the two
      without a break ([anchor]).
    - While it is down, the server has besides it the button that was let go and
      pressed again; while it is up, what the user holds, except that a single
      button the server did not have is delayed.
    - A chord is sent as a press of the middle button alone, where the
      delayed press was; a delayed press that ends before its time without a
      chord is sent as a click where it was; and when its timer expires, the
      server has what the user holds. *)
Theorem MiddleButton_emulates m pos buttons b m' :
  reachable m -> pointer m pos buttons = Some (b, m') ->
  let user := Z.land buttons 5 in
  sends buttons (emulated m) (emulated m') (events b) /\
  (pending m' = false -> events b <> []) /\
  (middle m' = true <-> if middle m then Z.land buttons (anchor m) <> 0 else user = 5 /\ emulated m = 0) /\
  (middle m' = true -> anchor m' = if middle m then Z.land buttons (anchor m) else 5) /\
  emulated m' = (if middle m' then 2 + Z.ldiff user (anchor m') else if pending m' then 0 else user) /\
  (pending m' = true <-> middle m' = false /\ user <> 0 /\ user <> 5 /\ Z.land buttons (Z.land (emulated m) 5) = 0) /\
  (emulated m = 0 -> user = 5 -> events b = [MkEvent (if pending m then original m else pos) (seen buttons 2)]) /\
  (pending m = true -> user <> 5 -> user <> Z.land (lastButtons m) 5 ->
    events b = [MkEvent (original m) (seen buttons (Z.land (lastButtons m) 5)); MkEvent pos (seen buttons 0)]) /\
  forall b2 m2, expire m' = Some (b2, m2) -> pending m' = true ->
    sends buttons (emulated m') (emulated m2) (events b2) /\ pending m2 = false /\ emulated m2 = user.
Proof.
  intros Hm Hp. destruct (pointer_step m pos buttons (reachable_wf _ Hm)) as (b' & m'' & E & Hok).
  rewrite E in Hp. injection Hp as <- <-. intros user.
  destruct Hok as [Hw [Hlb _] _ Hs Hsent _ _ Hmid Hanchor Hem Hpen Hchord Hclick].
  split; [done|]. split; [done|]. split.
  { rewrite Hmid. fold user. destruct (middle m); rewrite ?negb_true_iff, ?andb_true_iff, ?Z.eqb_eq, ?Z.eqb_neq; done. }
  split; [done|]. split; [done|]. split.
  { rewrite Hpen. fold user. rewrite !andb_true_iff, !negb_true_iff, !Z.eqb_eq, !Z.eqb_neq. tauto. }
  split; [done|]. split; [done|]. intros b2 m2 He Hpend.
  destruct (expire_step _ Hw) as (b3 & m3 & E3 & Hok3). rewrite E3 in He. injection He as <- <-.
  pose proof (eo_sends _ _ _ Hok3) as Hs3. pose proof (eo_direct _ _ _ Hok3 Hpend) as Hd3. rewrite Hlb in *.
  split; [done|]. split; [apply Hok3|done].
Qed.

(** Both buttons within the delay: the middle button alone is sent. *)
Theorem MiddleButton_emulates_witness :
  let m1 := MkMiddle 1 0 1 (MkPoint 3 4) (MkPoint 3 4) in
  let m2 := MkMiddle 3 2 5 (MkPoint 3 4) (MkPoint 5 4) in
  reachable m1 /\
  pointer m1 (MkPoint 5 4) 5 = Some (MkBatch [MkEvent (MkPoint 3 4) 2] true, m2) /\
  sends 5 (emulated m1) (emulated m2) [MkEvent (MkPoint 3 4) 2].
Proof.
  intros m1 m2. assert (reachable m1) as Hm.
  { apply (reachable_pointer init_middle (MkPoint 3 4) 1 (MkBatch [MkEvent (MkPoint 3 4) 0] true)); [apply reachable_init|lia|reflexivity]. }
  split; [exact Hm|]. split; [reflexivity|].
  exact (proj1 (MiddleButton_emulates m1 (MkPoint 5 4) 5 _ m2 Hm eq_refl)).
Defined.

(** While a press is delayed, a click of another button (here the wheel) is not
    sent at all when it is over before the timer expires. *)
Lemma delayed_wheel_lost : exists m2 m3 m4 b4,
  let p := MkPoint 3 4 in
  pointer (MkMiddle 1 0 1 p p) p 9 = Some (MkBatch [] false, m2) /\
  pointer m2 p 1 = Some (MkBatch [] false, m3) /\
  expire m3 = Some (b4, m4) /\ map ebuttons (events b4) = [1].
Proof. eexists _, _, _, _. cbv zeta. do 3 (split; [vm_compute; reflexivity|]). vm_compute. reflexivity. Qed.
