(* ===== verification/Shortcuts.v ===== *)
(** * Shortcut keys of the viewer ([viewer/core/ShortcutState.cxx])

    The viewer's own shortcuts are a set of modifiers held together and another
    key.  [ShortcutState] follows the keys that are down and says of each press
    and release whether it belongs to the server ([KeyNormal]), fires or ends a
    shortcut ([KeyShortcut]), is swallowed ([KeyIgnore]) or lets go of modifiers
    that were held for nothing ([KeyUnarm]).  The fixed array with its count is
    the list of the keys held, in the array's order; [unsigned] and [int] values
    are integers, none of which is computed with.

    Proved here: the machine over the array, with its linear searches and its
    removal by moving the last key, computes what a machine over a finite map of
    the keys held computes; and every press and release of a shortcut key is
    reported to the same side. *)
From stdpp Require Import base gmap list numbers strings option.
From S2P Require Import Prelude.
#[local] Open Scope Z_scope.

Definition XK_Shift_L : Z := 0xffe1.
Definition XK_Shift_R : Z := 0xffe2.
Definition XK_Control_L : Z := 0xffe3.
Definition XK_Control_R : Z := 0xffe4.
Definition XK_Alt_L : Z := 0xffe9.
Definition XK_Alt_R : Z := 0xffea.
Definition XK_Super_L : Z := 0xffeb.
Definition XK_Super_R : Z := 0xffec.
Definition XK_Hyper_L : Z := 0xffed.
Definition XK_Hyper_R : Z := 0xffee.

Inductive KeyAction : Type := KeyNormal | KeyUnarm | KeyShortcut | KeyIgnore.
#[export] Instance KeyAction_eq_dec : EqDecision KeyAction.
Proof. solve_decision. Defined.

Inductive State : Type := Idle | Arming | Armed | Rearming | Firing | Wedged.
#[export] Instance State_eq_dec : EqDecision State.
Proof. solve_decision. Defined.

Record Key := MkKey { code : Z; symbol : Z; fired : bool }.

Record ShortcutState := MkShortcut { modifierMask : Z; state : State; keys : list Key }.

Definition capacity : nat := 1024.

Definition init_shortcut : ShortcutState := MkShortcut 0 Idle [].

(** Control = 1, Shift = 2, Alt = 4, Super = 8. *)
Definition keySymToModifier (keySym : Z) : Z :=
  if (keySym =? XK_Control_L) || (keySym =? XK_Control_R) then 1
  else if (keySym =? XK_Shift_L) || (keySym =? XK_Shift_R) then 2
  else if (keySym =? XK_Alt_L) || (keySym =? XK_Alt_R) then 4
  else if (keySym =? XK_Super_L) || (keySym =? XK_Super_R)
       || (keySym =? XK_Hyper_L) || (keySym =? XK_Hyper_R) then 8
  else 0.

Definition reset (s : ShortcutState) : ShortcutState := MkShortcut (modifierMask s) Idle [].

(** Throws before it changes anything. *)
Definition setModifiers (mask : Z) (s : ShortcutState) : res ShortcutState :=
  if z2b (Z.land mask (Z.lnot 15)) then Throw (invalid_argument "Invalid shortcut modifier mask")
  else Ok (reset (MkShortcut mask (state s) (keys s))).

(** [while (index < count && keys[index].code != keyCode) ++index;] *)
Fixpoint key_index (keyCode : Z) (l : list Key) : nat :=
  match l with
  | [] => O
  | k :: l => if code k =? keyCode then O else S (key_index keyCode l)
  end.

Definition pressed_mask (l : list Key) : Z :=
  fold_left (fun m k => Z.lor m (keySymToModifier (symbol k))) l 0.

(** [modifier && ((modifier & modifierMask) == modifier)] *)
Definition is_trigger (mask modifier : Z) : bool :=
  z2b modifier && (Z.land modifier mask =? modifier).

Definition set_symbol (sym : Z) (k : Key) : Key := MkKey (code k) sym (fired k).
Definition set_fired (k : Key) : Key := MkKey (code k) (symbol k) true.

(** The [switch] of a press: the action, the new state, and whether the key is
    marked as fired. *)
Definition press_switch (mask pressed modifier : Z) (st : State) : KeyAction * State * bool :=
  match st with
  | Idle | Arming | Rearming =>
      let st := if pressed =? mask then Armed else st in
      let st := if is_trigger mask modifier
                then (if bool_decide (st = Idle) then Arming else st)
                else Wedged in
      (KeyNormal, st, false)
  | Armed =>
      if is_trigger mask modifier then (KeyNormal, st, false)
      else if z2b modifier then (KeyNormal, Wedged, false)
      else (KeyShortcut, Firing, true)
  | Firing =>
      if z2b modifier then (KeyIgnore, st, false) else (KeyShortcut, st, true)
  | Wedged => (KeyNormal, st, false)
  end.

Definition handleKeyPress (keyCode keySym : Z) (s : ShortcutState) : res (KeyAction * ShortcutState) :=
  let index := key_index keyCode (keys s) in
  ks ← (if (index =? length (keys s))%nat
        then if (length (keys s) =? capacity)%nat then Throw (length_error "Shortcut key capacity exceeded")
             else Ok (keys s ++ [MkKey keyCode keySym false])
        else Ok (alter (set_symbol keySym) index (keys s)));
  if modifierMask s =? 0 then Ok (KeyNormal, MkShortcut (modifierMask s) (state s) ks)
  else
    let modifier := keySymToModifier keySym in
    let '(action, st, fires) := press_switch (modifierMask s) (pressed_mask ks) modifier (state s) in
    Ok (action, MkShortcut (modifierMask s) st (if fires : bool then alter set_fired index ks else ks)).

(** [keys[index] = keys[--count]; keys[count] = {};] *)
Definition remove_key (index : nat) (l : list Key) : list Key :=
  match list.last l with
  | Some k => <[index := k]> (take (length l - 1) l)
  | None => l
  end.

(** The [switch] of a release, with the keys that are left. *)
Definition release_switch (mask pressed : Z) (none : bool) (firedKey : bool) (st : State) : KeyAction * State :=
  match st with
  | Arming => (KeyNormal, st)
  | Armed =>
      if none then (KeyUnarm, st)
      else if pressed =? mask then (KeyNormal, st)
      else (KeyNormal, Rearming)
  | Rearming => (if none then KeyUnarm else KeyNormal, st)
  | Firing => (if firedKey then KeyShortcut else KeyIgnore, st)
  | _ => (KeyNormal, st)
  end.

Definition handleKeyRelease (keyCode : Z) (s : ShortcutState) : KeyAction * ShortcutState :=
  let index := key_index keyCode (keys s) in
  let firedKey := match keys s !! index with Some k => fired k | None => false end in
  let ks := if (index <? length (keys s))%nat then remove_key index (keys s) else keys s in
  let none := (length ks =? 0)%nat in
  let '(action, st) := release_switch (modifierMask s) (pressed_mask ks) none firedKey (state s) in
  (action, MkShortcut (modifierMask s) (if none then Idle else st) ks).

(** ** The machine over a map *)

#[local] Abbreviation held := (gmap Z (Z * bool)).

Definition held_mask (h : held) : Z := map_fold (fun _ v m => Z.lor m (keySymToModifier v.1)) 0 h.

Record spec := Spec { sp_mask : Z; sp_state : State; sp_held : held }.

Definition spec_press (keyCode keySym : Z) (s : spec) : res (KeyAction * spec) :=
  let h := sp_held s in
  if bool_decide (h !! keyCode = None) && (size h =? capacity)%nat
  then Throw (length_error "Shortcut key capacity exceeded")
  else
    let was := match h !! keyCode with Some v => v.2 | None => false end in
    let h1 := <[keyCode := (keySym, was)]> h in
    if sp_mask s =? 0 then Ok (KeyNormal, Spec (sp_mask s) (sp_state s) h1)
    else
      let '(action, st, fires) :=
        press_switch (sp_mask s) (held_mask h1) (keySymToModifier keySym) (sp_state s) in
      Ok (action, Spec (sp_mask s) st (if fires : bool then <[keyCode := (keySym, true)]> h else h1)).

Definition spec_release (keyCode : Z) (s : spec) : KeyAction * spec :=
  let firedKey := match sp_held s !! keyCode with Some v => v.2 | None => false end in
  let h := delete keyCode (sp_held s) in
  let none := bool_decide (h = ∅) in
  let '(action, st) := release_switch (sp_mask s) (held_mask h) none firedKey (sp_state s) in
  (action, Spec (sp_mask s) (if none then Idle else st) h).

Definition entry (k : Key) : Z * (Z * bool) := (code k, (symbol k, fired k)).
Definition held_of (l : list Key) : held := list_to_map (entry <$> l).
Definition abstract (s : ShortcutState) : spec := Spec (modifierMask s) (state s) (held_of (keys s)).

(** ** Reachable states *)

Inductive op : Type :=
| OSetModifiers (mask : Z)
| OPress (keyCode keySym : Z)
| ORelease (keyCode : Z)
| OReset.

(** A call that throws changes nothing. *)
Definition step (o : op) (s : ShortcutState) : option KeyAction * ShortcutState :=
  match o with
  | OSetModifiers mask => match setModifiers mask s with Ok s' => (None, s') | Throw _ => (None, s) end
  | OPress c k => match handleKeyPress c k s with Ok (a, s') => (Some a, s') | Throw _ => (None, s) end
  | ORelease c => let '(a, s') := handleKeyRelease c s in (Some a, s')
  | OReset => (None, reset s)
  end.

(** What is seen from outside: the keys whose press was reported as a shortcut
    and that are still down, and whether the modifiers were held, just those
    configured, since the last time no key was down. *)
Record view := View { shortcuts : gset Z; complete : bool }.

Definition observe (o : op) (out : option KeyAction) (s' : ShortcutState) (v : view) : view :=
  match o with
  | OPress c _ =>
      View (if bool_decide (out = Some KeyShortcut) then {[c]} ∪ shortcuts v else shortcuts v)
        (complete v || (bool_decide (out <> None) && (pressed_mask (keys s') =? modifierMask s')))
  | ORelease c => View (shortcuts v ∖ {[c]}) (complete v && negb (length (keys s') =? 0)%nat)
  | OSetModifiers mask => if z2b (Z.land mask (Z.lnot 15)) then v else View ∅ false
  | OReset => View ∅ false
  end.

Inductive seen : ShortcutState -> view -> Prop :=
| seen_init : seen init_shortcut (View ∅ false)
| seen_step o s v : seen s v -> seen (snd (step o s)) (observe o (fst (step o s)) (snd (step o s)) v).

(** ** Lemmas: the array and the map *)

#[local] Arguments held_of _ : simpl never.

Lemma held_of_cons k l : held_of (k :: l) = <[code k := (symbol k, fired k)]> (held_of l).
Proof. done. Qed.

Lemma key_index_le c l : (key_index c l <= length l)%nat.
Proof. induction l as [|k l IH]; cbn; [lia|]. destruct (_ =? _); lia. Qed.

Lemma key_index_lookup c l :
  match l !! key_index c l with
  | Some k => code k = c /\ (key_index c l < length l)%nat
  | None => (c ∉ (code <$> l)) /\ key_index c l = length l
  end.
Proof.
  induction l as [|k l IH]; cbn.
  - split; [by apply not_elem_of_nil|done].
  - destruct (Z.eqb_spec (code k) c) as [<-|Hne]; cbn; [split; [done|lia]|].
    destruct (l !! _); destruct IH as [H1 H2]; (split; [|lia]); [done|].
    by rewrite not_elem_of_cons.
Qed.

Lemma held_lookup c l :
  held_of l !! c = (fun k => (symbol k, fired k)) <$> (l !! key_index c l).
Proof.
  induction l as [|k l IH]; [exact (lookup_empty c)|]. rewrite held_of_cons. cbn [key_index].
  destruct (Z.eqb_spec (code k) c) as [<-|Hne]; [by rewrite lookup_insert_eq|].
  by rewrite lookup_insert_ne.
Qed.

Lemma held_alter f c l : (forall k, code (f k) = code k) -> forall k, l !! key_index c l = Some k ->
  held_of (alter f (key_index c l) l) = <[c := (symbol (f k), fired (f k))]> (held_of l).
Proof.
  intros Hf. induction l as [|k l IH]; [done|]. cbn [key_index].
  destruct (Z.eqb_spec (code k) c) as [<-|Hne]; intros k' Hk.
  - injection Hk as <-. change (alter f 0%nat (k :: l)) with (f k :: l).
    rewrite !held_of_cons, Hf. by rewrite insert_insert_eq.
  - change (alter f (S ?i) (k :: l)) with (k :: alter f i l).
    rewrite !held_of_cons, (IH _ Hk). by rewrite insert_insert_ne.
Qed.

Lemma code_alter f i (l : list Key) : (forall k, code (f k) = code k) -> code <$> alter f i l = code <$> l.
Proof. intros Hf. apply list_eq. intros j. rewrite !list_lookup_fmap.
  destruct (decide (i = j)) as [<-|]; [rewrite list_lookup_alter_eq|by rewrite list_lookup_alter_ne].
  destruct (l !! i); cbn; [by rewrite Hf|done].
Qed.

Lemma entry_codes l : (entry <$> l).*1 = code <$> l.
Proof. rewrite <- list_fmap_compose. done. Qed.

Lemma held_snoc k l : code k ∉ (code <$> l) ->
  held_of (l ++ [k]) = <[code k := (symbol k, fired k)]> (held_of l).
Proof. intros H. unfold held_of. rewrite fmap_app. apply list_to_map_snoc. by rewrite entry_codes. Qed.

Lemma held_permutation l k : NoDup (code <$> l) -> l ≡ₚ k -> held_of l = held_of k.
Proof. intros Hn Hp. apply list_to_map_proper; [by rewrite entry_codes|by rewrite Hp]. Qed.

Lemma remove_permutation i l k : l !! i = Some k -> l ≡ₚ k :: remove_key i l.
Proof.
  intros Hk. unfold remove_key. destruct l as [|x l _] using rev_ind; [done|].
  rewrite last_snoc, length_app, Nat.add_sub, take_app_length.
  destruct (decide (i = length l)) as [->|Hne].
  - rewrite list_lookup_middle in Hk by done. injection Hk as <-.
    rewrite list_insert_ge by done. by rewrite Permutation_app_comm.
  - assert (i < length l)%nat as Hi.
    { apply lookup_lt_Some in Hk. rewrite length_app in Hk. cbn in Hk. lia. }
    rewrite lookup_app_l in Hk by done. rewrite Permutation_app_comm. cbn.
    rewrite insert_take_drop by done. rewrite <- (take_drop_middle l i k) at 1 by done.
    rewrite !Permutation_middle. rewrite <- !Permutation_middle. apply perm_swap.
Qed.

Lemma held_remove c l k : NoDup (code <$> l) -> l !! key_index c l = Some k ->
  held_of (remove_key (key_index c l) l) = delete c (held_of l) /\
  NoDup (code <$> remove_key (key_index c l) l).
Proof.
  intros Hn Hk. pose proof (key_index_lookup c l) as Hi. rewrite Hk in Hi. destruct Hi as [<- _].
  pose proof (remove_permutation _ _ _ Hk) as Hp.
  rewrite (held_permutation _ _ Hn Hp). rewrite Hp in Hn. cbn in Hn. apply list.NoDup_cons in Hn as [H1 H2].
  split; [|done]. rewrite held_of_cons, delete_insert_eq, delete_id; [done|].
  apply not_elem_of_list_to_map_1. by rewrite entry_codes.
Qed.

Lemma held_size l : NoDup (code <$> l) -> size (held_of l) = length l.
Proof. intros Hn. unfold held_of. rewrite map_size_list_to_map; rewrite ?entry_codes; [by rewrite length_fmap|done]. Qed.

Lemma held_empty l : held_of l = ∅ <-> l = [].
Proof. split; [|by intros ->]. destruct l; [done|]. rewrite held_of_cons. intros H. by apply insert_non_empty in H. Qed.

Lemma lor_fold l m : fold_left (fun m k => Z.lor m (keySymToModifier (symbol k))) l m = Z.lor m (pressed_mask l).
Proof.
  unfold pressed_mask. revert m. induction l as [|k l IH]; intros m; cbn; [by rewrite Z.lor_0_r|].
  rewrite IH, (IH (Z.lor 0 _)). by rewrite Z.lor_0_l, Z.lor_assoc.
Qed.

Lemma pressed_cons k l : pressed_mask (k :: l) = Z.lor (keySymToModifier (symbol k)) (pressed_mask l).
Proof. unfold pressed_mask at 1. cbn. apply lor_fold. Qed.

Lemma held_mask_of l : NoDup (code <$> l) -> held_mask (held_of l) = pressed_mask l.
Proof.
  induction l as [|k l IH]; [done|]. intros [Hk Hn]%list.NoDup_cons.
  rewrite held_of_cons, pressed_cons. unfold held_mask. rewrite map_fold_insert_L.
  - fold (held_mask (held_of l)). rewrite IH by done. by rewrite Z.lor_comm.
  - intros. rewrite <- !Z.lor_assoc. f_equal. apply Z.lor_comm.
  - apply not_elem_of_list_to_map_1. by rewrite entry_codes.
Qed.

(** ** The simulation *)

Definition wf (s : ShortcutState) : Prop :=
  NoDup (code <$> keys s) /\ (length (keys s) <= capacity)%nat.

(** What a press leaves in the array, before anything is marked. *)
Lemma press_array c sym l : NoDup (code <$> l) ->
  let ks := if (key_index c l =? length l)%nat then l ++ [MkKey c sym false]
            else alter (set_symbol sym) (key_index c l) l in
  let was := match held_of l !! c with Some v => v.2 | None => false end in
  NoDup (code <$> ks) /\ held_of ks = <[c := (sym, was)]> (held_of l) /\
  ks !! key_index c l = Some (MkKey c sym was) /\ key_index c ks = key_index c l.
Proof.
  intros Hn. cbv zeta. rewrite held_lookup. pose proof (key_index_lookup c l) as Hi.
  destruct (l !! key_index c l) as [k|] eqn:Ek; destruct Hi as [H1 H2]; cbn [fmap option_fmap option_map].
  - replace (key_index c l =? length l)%nat with false by (symmetry; apply Nat.eqb_neq; lia).
    assert ((code <$> alter (set_symbol sym) (key_index c l) l) = code <$> l) as Hc by exact (code_alter (set_symbol sym) _ l (fun _ => eq_refl)).
    rewrite Hc. split; [done|]. split; [by apply (held_alter (set_symbol sym))|].
    rewrite list_lookup_alter_eq, Ek. subst c. split; [done|].
    clear -Hc. revert Hc. generalize (alter (set_symbol sym) (key_index (code k) l) l). generalize (code k).
    intros c. induction l as [|x l IH]; intros [|y l']; try done. cbn. intros [= -> Hl]. by rewrite (IH l').
  - rewrite H2, Nat.eqb_refl. split; [|split; [by apply held_snoc|split]].
    + rewrite fmap_app. apply list.NoDup_app. split; [done|]. split; [|by repeat constructor; set_solver].
      intros x Hx ->%list_elem_of_singleton. done.
    + by rewrite lookup_app_r, Nat.sub_diag by done.
    + rewrite <- H2. clear -H1. induction l as [|x l IH]; cbn; [by rewrite Z.eqb_refl|].
      rewrite fmap_cons, not_elem_of_cons in H1. destruct (Z.eqb_spec (code x) c); [tauto|]. by rewrite (IH (proj2 H1)).
Qed.

Lemma length_press c sym (l : list Key) :
  length (if (key_index c l =? length l)%nat then l ++ [MkKey c sym false]
          else alter (set_symbol sym) (key_index c l) l) =
  if (key_index c l =? length l)%nat then S (length l) else length l.
Proof. case_test; [rewrite length_app; cbn; lia|apply length_alter]. Qed.

Lemma held_none c l : bool_decide (held_of l !! c = None) = (key_index c l =? length l)%nat.
Proof.
  rewrite held_lookup. pose proof (key_index_lookup c l) as Hi.
  destruct (l !! key_index c l) as [k|]; destruct Hi as [H1 H2]; cbn.
  - symmetry. apply Nat.eqb_neq. lia.
  - by rewrite H2, Nat.eqb_refl.
Qed.

Lemma press_refines c sym s : wf s ->
  match handleKeyPress c sym s with
  | Ok (a, s') => spec_press c sym (abstract s) = Ok (a, abstract s') /\ wf s'
  | Throw e => spec_press c sym (abstract s) = Throw e
  end.
Proof.
  intros [Hn Hl]. destruct s as [mask st l]. cbn [keys] in *.
  unfold handleKeyPress, spec_press, abstract. cbn [keys modifierMask state sp_mask sp_state sp_held].
  destruct (press_array c sym l Hn) as (Hks & Hh & Hat & Hix). pose proof (length_press c sym l) as Hlen.
  rewrite held_none, held_size by done.
  destruct (key_index c l =? length l)%nat eqn:Ei; cbn [andb mbind res_bind].
  1: destruct (length l =? capacity)%nat eqn:Ec; [done|]; cbn [mbind res_bind].
  all: cbv zeta in Hh; revert Hks Hh Hat Hix Hlen.
  all: match goal with |- context [held_of ?ks = _] => generalize ks end; intros ks Hks Hh Hat Hix Hlen.
  all: assert (length ks <= capacity)%nat as Hcap by (rewrite ?Nat.eqb_neq in *; lia).
  all: rewrite <- Hh, held_mask_of by done; destruct (mask =? 0); [by repeat split|].
  all: destruct (press_switch _ _ _ _) as [[a st'] []]; [|by repeat split].
  all: split; [|split; cbn [keys]; [by rewrite code_alter|by rewrite length_alter]].
  all: cbn [keys modifierMask state]; rewrite <- Hix in *; rewrite (held_alter set_fired c ks ltac:(done) _ Hat), Hh, insert_insert_eq; done.
Qed.

Lemma release_refines c s : wf s ->
  let '(a, s') := handleKeyRelease c s in
  spec_release c (abstract s) = (a, abstract s') /\ wf s'.
Proof.
  intros [Hn Hl]. destruct s as [mask st l]. cbn [keys] in *.
  unfold handleKeyRelease, spec_release, abstract. cbn [keys modifierMask state sp_mask sp_state sp_held].
  rewrite held_lookup. pose proof (key_index_lookup c l) as Hi.
  set (ks := if (key_index c l <? length l)%nat then remove_key (key_index c l) l else l).
  assert (held_of ks = delete c (held_of l) /\ NoDup (code <$> ks) /\ (length ks <= length l)%nat) as (Hd & Hks & Hlen).
  { unfold ks. destruct (l !! key_index c l) as [k|] eqn:Ek; destruct Hi as [H1 H2].
    - replace (key_index c l <? length l)%nat with true by (symmetry; by apply Nat.ltb_lt).
      destruct (held_remove c l k Hn Ek) as [Hr1 Hr2]. split; [done|]. split; [done|].
      pose proof (Permutation_length (remove_permutation _ _ _ Ek)) as Hp. cbn in Hp. lia.
    - rewrite H2, Nat.ltb_irrefl. split; [|done]. rewrite delete_id; [done|].
      apply not_elem_of_list_to_map_1. by rewrite entry_codes. }
  rewrite <- Hd, held_mask_of by done.
  replace (bool_decide (held_of ks = ∅)) with (length ks =? 0)%nat.
  2: { destruct (decide (ks = [])) as [->|Hne]; [done|]. rewrite bool_decide_eq_false_2 by (by rewrite held_empty).
       by destruct ks. }
  replace (match (fun k => (symbol k, fired k)) <$> l !! key_index c l with Some v => v.2 | None => false end)
    with (match l !! key_index c l with Some k => fired k | None => false end) by by destruct (l !! _).
  destruct (release_switch _ _ _ _ _) as [a st']. split; [done|]. split; cbn [keys]; [done|lia].
Qed.

(** ** What the states mean *)

Definition collecting (st : State) : bool := bool_decide (st = Arming \/ st = Armed \/ st = Rearming).
Definition completed (st : State) : bool := bool_decide (st = Armed \/ st = Rearming \/ st = Firing).

Record inv (sp : spec) (v : view) : Prop := {
  inv_shortcuts c : c ∈ shortcuts v <-> exists sym, sp_held sp !! c = Some (sym, true);
  inv_firing c : c ∈ shortcuts v -> sp_state sp = Firing;
  inv_complete : completed (sp_state sp) = true -> complete v = true;
  inv_off : sp_mask sp = 0 -> sp_state sp = Idle;
  inv_idle : sp_mask sp <> 0 -> (sp_state sp = Idle <-> sp_held sp = ∅);
  inv_triggers c sym f : collecting (sp_state sp) = true -> sp_held sp !! c = Some (sym, f) ->
    is_trigger (sp_mask sp) (keySymToModifier sym) = true
}.

Lemma inv_empty mask : inv (Spec mask Idle ∅) (View ∅ false).
Proof. split; cbn; try done. intros c. rewrite lookup_empty. set_solver. Qed.

Lemma some_true (x : Z) b : (exists y, Some (x, b) = Some (y, true)) <-> b = true.
Proof. split; [by intros [y [= _ ->]]|intros ->; by exists x]. Qed.

(** The outcomes of the [switch] of a press. *)
Lemma press_switch_cases mask pressed modifier st a st' fires :
  press_switch mask pressed modifier st = (a, st', fires) ->
  (fires = bool_decide (a = KeyShortcut)) /\
  (fires = true -> st' = Firing /\ z2b modifier = false /\ completed st = true) /\
  (fires = false -> st = Firing -> st' = Firing) /\ (st <> Firing -> fires = false -> st' <> Firing) /\
  (completed st' = true -> completed st = true \/ pressed = mask) /\
  st' <> Idle /\
  (collecting st' = true -> is_trigger mask modifier = true /\ (st = Idle \/ collecting st = true)).
Proof.
  unfold press_switch. destruct st; repeat case_test; intros [= <- <- <-]; subst; try done;
    (split; [done|]); (split; [by auto|]); (split; [done|]); (split; [done|]); (split; [by auto|]); (split; [done|]); auto; done.
Qed.

Lemma spec_press_inv c sym sp v a sp' : inv sp v -> spec_press c sym sp = Ok (a, sp') ->
  inv sp' (View (if bool_decide (a = KeyShortcut) then {[c]} ∪ shortcuts v else shortcuts v)
             (complete v || (held_mask (sp_held sp') =? sp_mask sp'))).
Proof.
  intros [Hs Hf Hc Hoff Hidle Htr]. destruct sp as [mask st h]. unfold spec_press. cbn in *.
  destruct (_ && _); [done|].
  set (was := match h !! c with Some v => v.2 | None => false end).
  assert (Hwas : was = true <-> c ∈ shortcuts v).
  { rewrite Hs. unfold was. destruct (h !! c) as [[y b]|]; [by rewrite some_true|]. split; [done|by intros [? ?]]. }
  destruct (mask =? 0) eqn:Em.
  - apply Z.eqb_eq in Em. intros [= <- <-]. split; cbn; try done.
    + intros k. rewrite Hs. destruct (decide (k = c)) as [->|Hne].
      * by rewrite lookup_insert_eq, some_true, <- Hs, Hwas.
      * by rewrite lookup_insert_ne by done.
    + intros H. rewrite (Hoff Em) in H. done.
    + intros k y f H. by rewrite (Hoff Em) in H.
  - apply Z.eqb_neq in Em.
    destruct (press_switch _ _ _ _) as [[a' st'] fires] eqn:Esw.
    destruct (press_switch_cases _ _ _ _ _ _ _ Esw) as (Hfires & Hfire & Hst & Hnf & Hcm & Hni & Hcol).
    intros [= <- <-]. rewrite <- Hfires. split; cbn.
    + intros k. destruct fires; (destruct (decide (k = c)) as [->|Hne];
        [rewrite lookup_insert_eq|rewrite lookup_insert_ne by done]).
      * rewrite some_true. set_solver.
      * rewrite <- Hs. set_solver.
      * by rewrite some_true, Hwas.
      * apply Hs.
    + intros k Hk. destruct fires; [by apply Hfire|]. by apply Hst, (Hf k).
    + intros H. destruct (Hcm H) as [H1|H1]; [by rewrite Hc|].
      destruct fires.
      * by rewrite Hc by (by apply Hfire).
      * rewrite H1, Z.eqb_refl. by rewrite orb_true_r.
    + done.
    + intros _. split; [done|]. intros H. exfalso. destruct fires; by apply insert_non_empty in H.
    + intros k y f H Hk. destruct (Hcol H) as [H1 H2]. destruct fires; [by destruct (Hfire eq_refl) as (-> & _)|].
      destruct (decide (k = c)) as [->|Hne].
      * rewrite lookup_insert_eq in Hk. by injection Hk as <- _.
      * rewrite lookup_insert_ne in Hk by done. destruct H2 as [->|H2]; [|by apply (Htr k y f)].
        destruct (Hidle Em) as [H3 _]. rewrite (H3 eq_refl), lookup_empty in Hk. done.
Qed.

Lemma spec_release_inv c sp v a sp' : inv sp v -> spec_release c sp = (a, sp') ->
  inv sp' (View (shortcuts v ∖ {[c]}) (complete v && negb (bool_decide (sp_held sp' = ∅)))) /\
  (a = KeyShortcut <-> c ∈ shortcuts v) /\
  (a = KeyUnarm -> complete v = true /\ sp_held sp' = ∅ /\ shortcuts v = ∅).
Proof.
  intros [Hs Hf Hc Hoff Hidle Htr]. destruct sp as [mask st h]. unfold spec_release. cbn in *.
  destruct (release_switch _ _ _ _ _) as [a' st'] eqn:Esw. intros [= <- <-]. cbn.
  assert (Hno : delete c h = ∅ -> shortcuts v ∖ {[c]} = ∅).
  { intros H. apply set_eq. intros k. rewrite elem_of_difference, Hs, elem_of_singleton.
    split; [|set_solver]. intros [[y Hk] Hne]. by rewrite <- (lookup_delete_ne h c k), H, lookup_empty in Hk. }
  assert (Hst : (st' = Firing <-> st = Firing) /\ (completed st' = true -> completed st = true) /\
    (collecting st' = true -> collecting st = true) /\ (st' = Idle <-> st = Idle)).
  { revert Esw. unfold release_switch. destruct st; repeat case_test; intros [= <- <-]; naive_solver. }
  destruct Hst as (Hst1 & Hst2 & Hst3 & Hst4). split; [split; cbn|split].
  - intros k. rewrite elem_of_difference, Hs, elem_of_singleton.
    destruct (decide (k = c)) as [->|Hne]; [rewrite lookup_delete_eq|rewrite lookup_delete_ne by done]; naive_solver.
  - intros k Hk. case_test; [|apply Hst1, (Hf k); set_solver].
    rewrite Hno in Hk by (by apply (bool_decide_eq_true_1 _)). set_solver.
  - case_test; [done|]. intros H. rewrite Hc by auto. done.
  - intros H. case_test; [done|]. by apply Hst4, Hoff.
  - intros H. case_test.
    + split; [|done]. by intros _; apply (bool_decide_eq_true_1 _).
    + rewrite Hst4, Hidle by done. split; [intros ->; by rewrite delete_empty|].
      intros Hd. by apply (bool_decide_eq_false_1 _) in Heqb.
  - intros k y f. case_test; [done|]. intros H Hk. apply lookup_delete_Some in Hk as [_ Hk].
    apply (Htr k y f); auto.
  - rewrite Hs. split.
    + intros ->. revert Esw. unfold release_switch. destruct st; repeat case_test; try done.
      destruct (h !! c) as [[y []]|]; [naive_solver|done..].
    + intros [y Hy]. revert Esw. rewrite Hy. cbn. unfold release_switch.
      rewrite (Hf c) by (rewrite Hs; eauto). by intros [= <- _].
  - intros ->. revert Esw. unfold release_switch.
    assert (Hcl : st <> Firing -> shortcuts v = ∅) by (intros H; apply set_eq; set_solver).
    destruct st; repeat case_test; try done; intros _;
      (split; [by apply Hc|split; [by apply (bool_decide_eq_true_1 _)|by apply Hcl]]).
Qed.

Lemma seen_inv s v : seen s v -> wf s /\ inv (abstract s) v.
Proof.
  induction 1 as [|o s v _ [Hw Hi]].
  - split; [|apply inv_empty]. split; [by constructor|cbn; lia].
  - assert (wf (reset s) /\ inv (abstract (reset s)) (View ∅ false)) as Hreset.
    { split; [|apply inv_empty]. split; [by constructor|cbn; lia]. }
    destruct o as [mask|c sym|c|]; cbn [step]; [| | |exact Hreset].
    + unfold setModifiers. cbn [observe]. destruct (z2b _); [done|]. split; [|apply inv_empty].
      split; [by constructor|cbn; lia].
    + pose proof (press_refines c sym s Hw) as Hp. destruct (handleKeyPress c sym s) as [[a s']|e].
      * destruct Hp as [Hp Hw']. split; [done|]. pose proof (spec_press_inv _ _ _ _ _ _ Hi Hp) as Hi'.
        cbn [sp_held sp_mask abstract] in Hi'. rewrite held_mask_of in Hi' by apply Hw'.
        cbn [fst snd observe]. rewrite (bool_decide_eq_true_2 (Some a <> None)) by done. cbn [andb].
        replace (bool_decide (Some a = Some KeyShortcut)) with (bool_decide (a = KeyShortcut)); [done|].
        by apply bool_decide_ext; split; [intros ->|intros [= ->]].
      * split; [done|]. cbn. rewrite orb_false_r. by destruct v.
    + pose proof (release_refines c s Hw) as Hr. destruct (handleKeyRelease c s) as [a s'].
      destruct Hr as [Hr Hw']. split; [done|]. destruct (spec_release_inv _ _ _ _ _ Hi Hr) as [Hi' _].
      cbn [sp_held abstract] in Hi'. cbn [fst snd observe].
      replace (length (keys s') =? 0)%nat with (bool_decide (held_of (keys s') = ∅)); [done|].
      destruct (keys s') as [|k l] eqn:E; [done|]. apply bool_decide_eq_false_2. by rewrite held_empty.
Qed.

(** ** Properties *)

(** C35: The array of keys holds every key once and never more than 1024, and
    over it a press and a release compute exactly what the machine over the map
    of the keys held computes: the same action, the same state, the same keys,
    and the same exception. *)
Theorem Shortcut_array_is_map s v c sym :
  seen s v ->
  NoDup (code <$> keys s) /\ (length (keys s) <= capacity)%nat /\
  match handleKeyPress c sym s with
  | Ok (a, s') => spec_press c sym (abstract s) = Ok (a, abstract s')
  | Throw e => spec_press c sym (abstract s) = Throw e
  end /\
  spec_release c (abstract s) = (fst (handleKeyRelease c s), abstract (snd (handleKeyRelease c s))).
Proof.
  intros H. destruct (seen_inv _ _ H) as [Hw _]. split; [apply Hw|]. split; [apply Hw|].
  pose proof (press_refines c sym s Hw) as Hp. pose proof (release_refines c s Hw) as Hr.
  split; [by destruct (handleKeyPress c sym s) as [[a s']|e]; [destruct Hp|]|].
  destruct (handleKeyRelease c s) as [a s']. apply Hr.
Qed.

Theorem Shortcut_array_is_map_witness :
  seen init_shortcut (View ∅ false) /\ spec_release 7 (abstract init_shortcut) = (KeyNormal, abstract init_shortcut).
Proof.
  split; [apply seen_init|]. apply (Shortcut_array_is_map init_shortcut (View ∅ false) 7 0 seen_init).
Defined.

(** C29: A release ends a shortcut exactly for the keys whose press was reported
    as a shortcut.  A press is reported as a shortcut only for a key that is no
    modifier, and only after exactly the configured modifiers were held since the
    last time no key was down; for the first one, every key held then is one of
    them.  A release of modifiers held for nothing is reported only when they had
    all been held, no key is left and no shortcut was fired. *)
Theorem Shortcut_paired s v c sym :
  seen s v ->
  (fst (handleKeyRelease c s) = KeyShortcut <-> c ∈ shortcuts v) /\
  (fst (handleKeyRelease c s) = KeyUnarm ->
     complete v = true /\ keys (snd (handleKeyRelease c s)) = [] /\ shortcuts v = ∅) /\
  forall s', handleKeyPress c sym s = Ok (KeyShortcut, s') ->
    keySymToModifier sym = 0 /\ modifierMask s <> 0 /\ complete v = true /\
    (state s = Firing \/
     state s = Armed /\ Forall (fun k => is_trigger (modifierMask s) (keySymToModifier (symbol k)) = true) (keys s)).
Proof.
  intros H. destruct (seen_inv _ _ H) as [Hw Hi].
  pose proof (release_refines c s Hw) as Hr. destruct (handleKeyRelease c s) as [a s2]. destruct Hr as [Hr _].
  destruct (spec_release_inv _ _ _ _ _ Hi Hr) as (_ & Hsh & Hun). cbn [fst snd]. split; [done|]. split.
  { intros E. destruct (Hun E) as (H1 & H2 & H3). cbn in H2. by rewrite held_empty in H2. }
  clear Hr Hsh Hun. intros s'. unfold handleKeyPress.
  destruct (if (_ =? _)%nat then _ else _) as [ks|e]; [|done]. cbn [mbind res_bind].
  destruct (Z.eqb_spec (modifierMask s) 0) as [Em|Em]; [done|].
  destruct (press_switch _ _ _ _) as [[a' st'] fires] eqn:Esw. intros [= -> _].
  destruct (press_switch_cases _ _ _ _ _ _ _ Esw) as (Hf & Hfire & _).
  rewrite bool_decide_eq_true_2 in Hf by done. destruct (Hfire Hf) as (_ & Hz & Hcomp).
  split; [by apply negb_false_iff, Z.eqb_eq in Hz|]. split; [done|].
  split; [by apply (inv_complete _ _ Hi)|].
  revert Esw. unfold press_switch. destruct (state s) eqn:Est; repeat case_test; try done; intros _; [|by left].
  right. split; [done|]. apply List.Forall_forall. intros k Hk%list_elem_of_In.
  apply list_elem_of_lookup in Hk as [i Hk].
  assert (held_of (keys s) !! code k = Some (symbol k, fired k)) as Hl.
  { apply elem_of_list_to_map_1; [by rewrite entry_codes; apply Hw|].
    apply (list_elem_of_fmap_2 entry). by eapply list_elem_of_lookup_2. }
  apply (inv_triggers _ _ Hi (code k) (symbol k) (fired k)); cbn; [by rewrite Est|done].
Qed.

(** Control held alone, with Control as the shortcut modifier: [Control-A]. *)
Definition control_held : ShortcutState := MkShortcut 1 Armed [MkKey 37 XK_Control_L false].

Lemma control_seen : seen control_held (View ∅ true).
Proof.
  refine (seen_step (OPress 37 XK_Control_L) (MkShortcut 1 Idle []) (View ∅ false) _).
  exact (seen_step (OSetModifiers 1) _ _ seen_init).
Qed.

Theorem Shortcut_paired_witness :
  handleKeyPress 38 97 control_held =
    Ok (KeyShortcut, MkShortcut 1 Firing [MkKey 37 XK_Control_L false; MkKey 38 97 true]) /\
  keySymToModifier 97 = 0 /\ modifierMask control_held <> 0 /\ complete (View ∅ true) = true.
Proof.
  split; [reflexivity|].
  destruct (proj2 (proj2 (Shortcut_paired control_held (View ∅ true) 38 97 control_seen)) _ eq_refl)
    as (H1 & H2 & H3 & _).
  exact (conj H1 (conj H2 H3)).
Defined.
