(* ===== verification/Scheduler.v ===== *)
(** * The timers of a session ([viewer/core/SessionScheduler.cxx])

    One-shot callbacks with a deadline, run by the session's executor.  Every
    operation is done under the scheduler's mutex; only a callback runs outside
    it, so that an execution is a sequence of whole operations, the callbacks of
    [dispatchDue] in between.  What a callback does is a parameter ([invoke],
    on a world that holds the scheduler, [Host]); it may call the scheduler
    again.  A token is its number: that a token of a destroyed scheduler does
    nothing is left out.  Time points are integers, [size_t] counts are [nat].

    Proved here: dispatching runs the callbacks that are due in the order of
    their deadlines, first come first served among equals; and whatever the
    callbacks do, it ends, within its budget, with the scheduler in order. *)
From stdpp Require Import base list numbers strings option sorting.
From S2P Require Import Prelude.
#[local] Open Scope Z_scope.

Record Task {C : Type} := MkTask { id : Z; deadline : Z; callback : C }.
Arguments Task : clear implicits.
Arguments MkTask {C}.

(** [wakes] counts the calls of the wakeup. *)
Record State {C : Type} := MkState {
  capacity : nat;
  tasks : list (Task C);
  nextId : Z;
  stopped : bool;
  dispatching : bool;
  wakes : nat
}.
Arguments State : clear implicits.
Arguments MkState {C}.

Section operations.
Context {C : Type}.
Implicit Types s : State C.

Definition set_tasks (l : list (Task C)) s : State C :=
  MkState (capacity s) l (nextId s) (stopped s) (dispatching s) (wakes s).
Definition set_dispatching (b : bool) s : State C :=
  MkState (capacity s) (tasks s) (nextId s) (stopped s) b (wakes s).
Definition notify s : State C :=
  MkState (capacity s) (tasks s) (nextId s) (stopped s) (dispatching s) (S (wakes s)).

Definition new_scheduler (cap : nat) : res (State C) :=
  if (cap =? 0)%nat || (4096 <? cap)%nat then Throw (invalid_argument "Invalid timer capacity")
  else Ok (MkState cap [] 0 false false 0).

(** [std::min_element]: the first of the tasks with the least deadline, and its
    place in the list. *)
Fixpoint min_element (best : nat * Task C) (i : nat) (l : list (Task C)) : nat * Task C :=
  match l with
  | [] => best
  | t :: l => min_element (if deadline t <? deadline best.2 then (i, t) else best) (S i) l
  end.

Definition earliest (l : list (Task C)) : option (nat * Task C) :=
  match l with [] => None | t :: l => Some (min_element (O, t) 1 l) end.

(** The token is the number of the task, 0 when it was not accepted. *)
Definition scheduleAt (when_ : Z) (cb : option C) s : res (Z * State C) :=
  match cb with
  | None => Throw (invalid_argument "Empty timer callback")
  | Some cb =>
      if stopped s || (length (tasks s) =? capacity s)%nat || (nextId s =? 2 ^ 64 - 1) then Ok (0, s)
      else
        let id := u64 (nextId s + 1) in
        let s := MkState (capacity s) (tasks s ++ [MkTask id when_ cb]) id (stopped s) (dispatching s) (wakes s) in
        Ok (id, notify s)
  end.

Definition has_id (token : Z) (t : Task C) : bool := id t =? token.

(** [std::find_if] by number, and the list without what it found. *)
Fixpoint find_remove (token : Z) (l : list (Task C)) : option (list (Task C)) :=
  match l with
  | [] => None
  | t :: l => if has_id token t then Some l else (fun k => t :: k) <$> find_remove token l
  end.

Definition cancel (token : Z) s : bool * State C :=
  match find_remove token (tasks s) with
  | None => (false, s)
  | Some l => (true, notify (set_tasks l s))
  end.

Definition token_pending (token : Z) s : bool := existsb (has_id token) (tasks s).

Definition nextDeadline s : option Z := (fun x => deadline x.2) <$> earliest (tasks s).

Definition pending s : nat := length (tasks s).

Definition cancelAll s : State C := notify (set_tasks [] s).

Definition shutdown s : State C :=
  if stopped s then s
  else notify (MkState (capacity s) [] (nextId s) true (dispatching s) (wakes s)).
End operations.

(** A world that holds a scheduler. *)
Class Host (C W : Type) := {
  sched : W -> State C;
  with_sched : State C -> W -> W;
  sched_with s w : sched (with_sched s w) = s
}.

Section dispatch.
Context {C W : Type} `{Host C W} (invoke : C -> W -> res unit * W).

Fixpoint dispatch_loop (now : Z) (budget : nat) (count : Z) (w : W) : res Z * W :=
  match budget with
  | O => (Ok count, w)
  | S budget =>
      match earliest (tasks (sched w)) with
      | None => (Ok count, w)
      | Some (i, t) =>
          if deadline t >? now then (Ok count, w)
          else
            let w := with_sched (set_tasks (delete i (tasks (sched w))) (sched w)) w in
            match invoke (callback t) w with
            | (Ok _, w) => dispatch_loop now budget (count + 1) w
            | (Throw e, w) => (Throw e, w)
            end
      end
  end.

Definition dispatchDue (now : Z) (budget : nat) (w : W) : res Z * W :=
  if (budget =? 0)%nat then (Throw (invalid_argument "Zero timer dispatch budget"), w)
  else if dispatching (sched w) then (Throw (logic_error "Reentrant timer dispatch"), w)
  else
    let '(r, w) := dispatch_loop now budget 0 (with_sched (set_dispatching true (sched w)) w) in
    (r, with_sched (set_dispatching false (sched w)) w).
End dispatch.

(** ** What callbacks and other threads may do *)

Inductive calls {C : Type} (s : State C) : State C -> Prop :=
| calls_none : calls s s
| calls_schedule d cb token s1 s2 : calls s s1 -> scheduleAt d (Some cb) s1 = Ok (token, s2) -> calls s s2
| calls_cancel token s1 : calls s s1 -> calls s (snd (cancel token s1))
| calls_cancelAll s1 : calls s s1 -> calls s (cancelAll s1)
| calls_shutdown s1 : calls s s1 -> calls s (shutdown s1).

(** ** The invariant *)

Record wf {C} (s : State C) : Prop := {
  wf_capacity : (1 <= capacity s <= 4096)%nat;
  wf_bound : (length (tasks s) <= capacity s)%nat;
  wf_ids : StronglySorted Z.lt (id <$> tasks s);
  wf_range : Forall (fun t => 0 < id t <= nextId s) (tasks s);
  wf_next : 0 <= nextId s < 2 ^ 64;
  wf_stopped : stopped s = true -> tasks s = []
}.

(** Later states have the old tasks, or tasks with new numbers. *)
Record extends {C} (s s' : State C) : Prop := {
  ex_next : nextId s <= nextId s';
  ex_stopped : stopped s = true -> stopped s' = true;
  ex_dispatching : dispatching s' = dispatching s;
  ex_tasks t : t ∈ tasks s' -> t ∈ tasks s \/ nextId s < id t
}.

(** ** The order of dispatch *)

Section order.
Context {C : Type}.
Implicit Types l : list (Task C).

(** Behind the tasks with a smaller deadline. *)
Fixpoint insert_task (x : Task C) l : list (Task C) :=
  match l with
  | [] => [x]
  | y :: l => if deadline x <=? deadline y then x :: y :: l else y :: insert_task x l
  end.

(** By deadline; tasks with the same deadline in the order of the list. *)
Fixpoint by_deadline l : list (Task C) :=
  match l with [] => [] | x :: l => insert_task x (by_deadline l) end.

(** The tasks due at [now], in the order they are to run. *)
Definition due (now : Z) l : list (Task C) := filter (fun t => deadline t <= now) (by_deadline l).

(** [l] without the tasks of [ran]. *)
Definition without (ran l : list (Task C)) : list (Task C) :=
  filter (fun t => id t ∉ (id <$> ran)) l.

(** Earlier deadline first, and among equals first come, first served: numbers
    are given in increasing order. *)
Definition before (t u : Task C) : Prop := deadline t < deadline u \/ deadline t = deadline u /\ id t < id u.
End order.

(** What a dispatch is to do, with the scheduler at the beginning of each round
    and the task of the round on record: while the budget lasts and a task is
    due, run the first that is due now, whatever the callbacks before it have
    scheduled or cancelled, up to the first that throws. *)
Section specification.
Context {C W : Type} `{Host C W} (invoke : C -> W -> res unit * W) (now : Z).

Definition taken (t : Task C) (w : W) : W := with_sched (set_tasks (without [t] (tasks (sched w))) (sched w)) w.

Inductive executes : nat -> Z -> W -> list (State C * Task C) -> res Z -> W -> Prop :=
| executes_stop budget count w : budget = O \/ due now (tasks (sched w)) = [] -> executes budget count w [] (Ok count) w
| executes_round budget count w t later w1 log r w' : due now (tasks (sched w)) = t :: later ->
    invoke (callback t) (taken t w) = (Ok tt, w1) -> executes budget (count + 1) w1 log r w' ->
    executes (S budget) count w ((sched w, t) :: log) r w'
| executes_throw budget count w t later e w' : due now (tasks (sched w)) = t :: later ->
    invoke (callback t) (taken t w) = (Throw e, w') -> executes (S budget) count w [(sched w, t)] (Throw e) w'.
End specification.

(** A world of a scheduler and something else. *)
#[export] Instance pair_host {C X} : Host C (State C * X) :=
  {| sched := fst; with_sched s w := (s, w.2); sched_with s w := eq_refl |}.

(** ** Lemmas: the earliest task *)

Section lemmas.
Context {C : Type}.
Implicit Types (l : list (Task C)) (s : State C).

Lemma min_element_spec b i l (pre : list (Task C)) :
  pre !! b.1 = Some b.2 -> i = length pre ->
  (forall j x, pre !! j = Some x -> deadline b.2 <= deadline x /\ ((j < b.1)%nat -> deadline b.2 < deadline x)) ->
  let r := min_element b i l in
  (pre ++ l) !! r.1 = Some r.2 /\
  (forall j x, (pre ++ l) !! j = Some x ->
    deadline r.2 <= deadline x /\ ((j < r.1)%nat -> deadline r.2 < deadline x)).
Proof.
  revert b i pre. induction l as [|t l IH]; intros b i pre Hb -> Hpre; cbn [min_element].
  - by rewrite app_nil_r.
  - rewrite cons_middle, app_assoc. apply IH.
    + destruct (_ <? _); cbn.
      * by rewrite lookup_app_r, Nat.sub_diag by done.
      * rewrite lookup_app_l; [done|]. by eapply lookup_lt_Some.
    + rewrite length_app. cbn. lia.
    + intros j x [Hx|[Hj Hx]]%lookup_app_Some.
      * destruct (Hpre _ _ Hx) as [H1 H2]. case_test; cbn; [split; [lia|]|done]. intros _. lia.
      * apply list_lookup_singleton_Some in Hx as [Hj' <-].
        pose proof (lookup_lt_Some _ _ _ Hb). case_test; cbn; (split; [lia|intros; lia]).
Qed.

Lemma earliest_spec l i t : earliest l = Some (i, t) ->
  l !! i = Some t /\
  forall j x, l !! j = Some x -> deadline t <= deadline x /\ ((j < i)%nat -> deadline t < deadline x).
Proof.
  destruct l as [|x l]; [done|]. cbn. intros [= E].
  pose proof (min_element_spec (O, x) 1 l [x]) as Hm. rewrite E in Hm. cbn in Hm. apply Hm; [done|done|].
  intros [|j] y; [|done]. intros [= <-]. split; [lia|lia].
Qed.

Lemma earliest_none l : earliest l = None -> l = [].
Proof. by destruct l. Qed.

(** *** Removing by place and by number *)

Lemma delete_elem i l (t : Task C) : t ∈ delete i l -> t ∈ l.
Proof.
  intros H. apply list_elem_of_lookup in H as [j Hj]. destruct (decide (j < i)%nat).
  - rewrite list_lookup_delete_lt in Hj by done. by eapply list_elem_of_lookup_2.
  - rewrite list_lookup_delete_ge in Hj by lia. by eapply list_elem_of_lookup_2.
Qed.

Lemma filter_all (P : Task C -> Prop) `{!forall t, Decision (P t)} l : (forall t, t ∈ l -> P t) -> filter P l = l.
Proof.
  induction l as [|t l IH]; [done|]. intros Hl. rewrite filter_cons_True by (apply Hl; left).
  rewrite IH; [done|]. intros x Hx. apply Hl. by right.
Qed.

Lemma sorted_head (x y : Task C) l : Forall (Z.lt (id x)) (id <$> l) -> y ∈ l -> id x < id y.
Proof.
  rewrite List.Forall_forall. intros Hf Hy. by apply Hf, list_elem_of_In, list_elem_of_fmap_2.
Qed.

Lemma sorted_filter (P : Task C -> Prop) `{!forall t, Decision (P t)} l :
  StronglySorted Z.lt (id <$> l) -> StronglySorted Z.lt (id <$> filter P l).
Proof.
  induction l as [|t l IH]; [done|]. rewrite fmap_cons. intros Hss. inversion Hss as [|? ? Hs Hf]; subst.
  rewrite filter_cons. case_decide; [|by apply IH]. rewrite fmap_cons. constructor; [by apply IH|].
  rewrite List.Forall_forall in Hf |- *. intros x Hx. apply Hf.
  apply list_elem_of_In in Hx. apply list_elem_of_In. apply list_elem_of_fmap in Hx as (y & -> & Hy).
  apply list_elem_of_filter in Hy as [_ Hy]. by apply list_elem_of_fmap_2.
Qed.

Lemma delete_filter i l t : StronglySorted Z.lt (id <$> l) -> l !! i = Some t ->
  delete i l = filter (fun x => id x <> id t) l.
Proof.
  revert i. induction l as [|x l IH]; [done|]. intros [|i] Hs Hi; inversion Hs as [|? ? Hs' Hf]; subst.
  - injection Hi as ->. rewrite filter_cons_False by (by intros []). change (delete 0%nat (t :: l)) with l.
    symmetry. apply filter_all. intros y Hy. pose proof (sorted_head _ _ _ Hf Hy). lia.
  - change (delete (S i) (x :: l)) with (x :: delete i l). rewrite (IH i) by done.
    rewrite filter_cons_True; [done|].
    pose proof (sorted_head x t l Hf ltac:(by eapply list_elem_of_lookup_2)). lia.
Qed.

Lemma find_remove_filter token l k : StronglySorted Z.lt (id <$> l) -> find_remove token l = Some k ->
  k = filter (fun x => id x <> token) l.
Proof.
  revert k. induction l as [|x l IH]; [done|]. intros k Hs. cbn [find_remove]. inversion Hs as [|? ? Hs' Hf]; subst.
  unfold has_id. destruct (Z.eqb_spec (id x) token) as [Hx|Hx].
  - intros [= <-]. rewrite filter_cons_False by (by intros []). symmetry. apply filter_all.
    intros y Hy. pose proof (sorted_head _ _ _ Hf Hy). lia.
  - destruct (find_remove token l) as [k'|] eqn:E; [|done]. intros [= <-].
    rewrite filter_cons_True by done. by rewrite (IH k').
Qed.
End lemmas.

(** ** The operations keep the invariant *)

Section invariant.
Context {C : Type}.
Implicit Types (l : list (Task C)) (s : State C).

Lemma new_scheduler_wf cap s : new_scheduler cap = Ok s -> wf s.
Proof.
  unfold new_scheduler. case_test; [done|]. intros [= <-].
  apply Nat.eqb_neq in H. apply Nat.ltb_ge in H0.
  split; cbn; [lia|lia|constructor|by constructor|lia|done].
Qed.

(** Keeping some of the tasks. *)
Lemma filter_wf (P : Task C -> Prop) `{!forall t, Decision (P t)} s :
  wf s -> wf (set_tasks (filter P (tasks s)) s).
Proof.
  intros [Hc Hb Hs Hr Hn Hst]. split; cbn; [done| |by apply sorted_filter| |done|].
  - pose proof (length_filter P (tasks s)). lia.
  - apply Forall_forall. intros t [_ Ht]%list_elem_of_filter. rewrite Forall_forall in Hr. auto.
  - intros Hss. by rewrite Hst.
Qed.

Lemma filter_extends (P : Task C -> Prop) `{!forall t, Decision (P t)} s :
  extends s (set_tasks (filter P (tasks s)) s).
Proof. split; cbn; [lia|done|done|]. intros t [_ Ht]%list_elem_of_filter. by left. Qed.

Lemma extends_refl s : extends s s.
Proof. split; [lia|done|done|auto]. Qed.

Lemma extends_trans s1 s2 s3 : extends s1 s2 -> extends s2 s3 -> extends s1 s3.
Proof.
  intros [A1 A2 A3 A4] [B1 B2 B3 B4]. split; [lia|auto|congruence|].
  intros t [Ht|Ht]%B4; [auto|right; lia].
Qed.

Lemma notify_wf s : wf s -> wf (notify s).
Proof. intros [? ? ? ? ? ?]. by split. Qed.

Lemma notify_extends s s' : extends s s' -> extends s (notify s').
Proof. intros [? ? ? ?]. by split. Qed.

Lemma scheduleAt_wf d cb s token s' : wf s -> scheduleAt d (Some cb) s = Ok (token, s') ->
  wf s' /\ extends s s'.
Proof.
  intros Hw. unfold scheduleAt. destruct (_ || _) eqn:E; [intros [= <- <-]; by split; [|apply extends_refl]|].
  intros [= <- <-]. apply orb_false_iff in E as [[E1 E2]%orb_false_iff E3].
  apply Nat.eqb_neq in E2. apply Z.eqb_neq in E3. destruct Hw as [Hc Hb Hs Hr Hn Hst].
  assert (u64 (nextId s + 1) = nextId s + 1) as Hid by (apply u64_id; lia).
  split; [apply notify_wf|apply notify_extends]; split; cbn; rewrite ?Hid; try done; try lia.
  - rewrite length_app. cbn. lia.
  - rewrite fmap_app. cbn. apply StronglySorted_app_2; [|done|by repeat constructor].
    intros x y Hx ->%list_elem_of_singleton. apply list_elem_of_fmap in Hx as (t & -> & Ht).
    rewrite Forall_forall in Hr. specialize (Hr t Ht). lia.
  - apply Forall_app. split; [|by repeat constructor; cbn; lia].
    eapply Forall_impl; [exact Hr|]. intros t. cbn. lia.
  - intros H. congruence.
  - intros t [Ht|Ht%list_elem_of_singleton]%elem_of_app; [by left|]. right. subst t. cbn. lia.
Qed.

Lemma cancel_wf token s : wf s -> wf (snd (cancel token s)) /\ extends s (snd (cancel token s)).
Proof.
  intros Hw. unfold cancel. destruct (find_remove token (tasks s)) as [l|] eqn:E; [|by split; [|apply extends_refl]].
  cbn. rewrite (find_remove_filter _ _ _ (wf_ids _ Hw) E).
  split; [by apply notify_wf, filter_wf|apply notify_extends, filter_extends].
Qed.

Lemma cancelAll_wf s : wf s -> wf (cancelAll s) /\ extends s (cancelAll s).
Proof.
  intros [Hc Hb Hs Hr Hn Hst]. split; split; cbn; try done; try lia; try by constructor.
  by intros t ?%not_elem_of_nil.
Qed.

Lemma shutdown_wf s : wf s -> wf (shutdown s) /\ extends s (shutdown s).
Proof.
  intros Hw. unfold shutdown. case_test; [by split; [|apply extends_refl]|].
  destruct Hw as [Hc Hb Hs Hr Hn Hst].
  split; split; cbn; try done; try lia; try by constructor.
  by intros t ?%not_elem_of_nil.
Qed.

Lemma calls_wf s s' : wf s -> calls s s' -> wf s' /\ extends s s'.
Proof.
  intros Hw. induction 1 as [|d cb token s1 s2 _ [Hw1 He1] Hs|token s1 _ [Hw1 He1]|s1 _ [Hw1 He1]|s1 _ [Hw1 He1]].
  - by split; [|apply extends_refl].
  - destruct (scheduleAt_wf _ _ _ _ _ Hw1 Hs). split; [done|by eapply extends_trans].
  - destruct (cancel_wf token _ Hw1). split; [done|by eapply extends_trans].
  - destruct (cancelAll_wf _ Hw1). split; [done|by eapply extends_trans].
  - destruct (shutdown_wf _ Hw1). split; [done|by eapply extends_trans].
Qed.

Lemma take_wf i t s : wf s -> earliest (tasks s) = Some (i, t) ->
  wf (set_tasks (delete i (tasks s)) s) /\ extends s (set_tasks (delete i (tasks s)) s).
Proof.
  intros Hw He. destruct (earliest_spec _ _ _ He) as [Hi _].
  rewrite (delete_filter i _ t) by (done || apply Hw). split; [by apply filter_wf|apply filter_extends].
Qed.
End invariant.

(** *** The loop, over callbacks that only call the scheduler *)

Section loop.
Context {C W : Type} `{Host C W} (invoke : C -> W -> res unit * W).
Hypothesis invoke_calls : forall c w, calls (sched w) (sched (snd (invoke c w))).

Lemma dispatch_loop_safe now budget count w : wf (sched w) ->
  let '(r, w') := dispatch_loop invoke now budget count w in
  wf (sched w') /\ extends (sched w) (sched w') /\
  forall n, r = Ok n -> count <= n <= count + Z.of_nat budget /\
    (n = count + Z.of_nat budget \/ forall t, t ∈ tasks (sched w') -> now < deadline t).
Proof.
  revert count w. induction budget as [|budget IH]; intros count w Hw; cbn [dispatch_loop].
  - split; [done|]. split; [apply extends_refl|]. intros n [= <-]. split; [lia|left; lia].
  - destruct (earliest (tasks (sched w))) as [[i t]|] eqn:Ee.
    2: { split; [done|]. split; [apply extends_refl|]. intros n [= <-]. split; [lia|].
         right. rewrite (earliest_none _ Ee). by intros t ?%not_elem_of_nil. }
    case_test.
    { split; [done|]. split; [apply extends_refl|]. intros n [= <-]. split; [lia|]. right.
      intros x [j Hx]%list_elem_of_lookup. destruct (earliest_spec _ _ _ Ee) as [_ Hm]. destruct (Hm _ _ Hx). lia. }
    destruct (take_wf _ _ _ Hw Ee) as [Hw1 He1]. cbv zeta.
    set (w1 := with_sched _ w). assert (sched w1 = set_tasks (delete i (tasks (sched w))) (sched w)) as E1 by apply sched_with.
    rewrite <- E1 in *. pose proof (invoke_calls (callback t) w1) as Hc.
    destruct (calls_wf _ _ Hw1 Hc) as [Hw2 He2].
    destruct (invoke (callback t) w1) as [[u|e] w2]; cbn [snd] in *.
    + specialize (IH (count + 1) w2 Hw2). destruct (dispatch_loop invoke now budget (count + 1) w2) as [r w'].
      destruct IH as (Hw3 & He3 & Hn). split; [done|]. split; [by do 2 (eapply extends_trans; [done|])|].
      intros n Hr. destruct (Hn n Hr) as [H1 H2]. split; [lia|]. destruct H2 as [H2|H2]; [left; lia|by right].
    + split; [done|]. split; [by eapply extends_trans|done].
Qed.
End loop.

(** *** For the clients of the scheduler *)

Section clients.
Context {C : Type}.
Implicit Types (l : list (Task C)) (s : State C).

Lemma find_remove_none token l : find_remove token l = None -> filter (fun x => id x <> token) l = l.
Proof.
  intros H. apply filter_all. induction l as [|x l IH]; [by intros t ?%not_elem_of_nil|].
  cbn [find_remove] in H. unfold has_id in H. destruct (Z.eqb_spec (id x) token); [done|].
  destruct (find_remove token l); [done|]. intros t [->|Ht]%elem_of_cons; auto.
Qed.

Lemma cancel_spec token s : wf s -> exists w,
  snd (cancel token s) =
  MkState (capacity s) (filter (fun x => id x <> token) (tasks s)) (nextId s) (stopped s) (dispatching s) w.
Proof.
  intros Hw. unfold cancel. destruct (find_remove token (tasks s)) as [l|] eqn:E; cbn.
  - rewrite (find_remove_filter _ _ _ (wf_ids _ Hw) E). by eexists.
  - rewrite (find_remove_none _ _ E). exists (wakes s). by destruct s.
Qed.

(** Numbers are not shared: tasks with one number are one task. *)
Lemma same_id_length l x : StronglySorted Z.lt (id <$> l) -> (forall t, t ∈ l -> id t = x) -> (length l <= 1)%nat.
Proof.
  destruct l as [|a [|b l]]; cbn; [lia|lia|]. intros Hs Hx. inversion Hs as [|? ? _ Hf]; subst.
  assert (id a < id b) as Hlt by by inversion Hf.
  rewrite (Hx a), (Hx b) in Hlt; [lia| |]; rewrite !elem_of_cons; auto.
Qed.

(** With room in the queue a task is refused only when the numbers are used up. *)
Lemma scheduleAt_room d cb s token s' : wf s -> stopped s = false -> (length (tasks s) < capacity s)%nat ->
  scheduleAt d (Some cb) s = Ok (token, s') ->
  (token = 0 /\ s' = s /\ nextId s = 2 ^ 64 - 1) \/
  (token = nextId s + 1 /\ token <> 0 /\ tasks s' = tasks s ++ [MkTask token d cb] /\ nextId s' = token /\
   capacity s' = capacity s /\ stopped s' = stopped s /\ dispatching s' = dispatching s).
Proof.
  intros Hw Hst Hr. unfold scheduleAt. rewrite Hst, (proj2 (Nat.eqb_neq _ _)) by lia. cbn [orb].
  pose proof (wf_next _ Hw). case_test; intros [= <- <-]; [by left|right].
  rewrite u64_id by lia. cbn. repeat split; lia.
Qed.
End clients.

(** An invariant of the loop: each round takes the earliest task and runs it. *)
Lemma dispatch_loop_inv {C W} `{Host C W} (invoke : C -> W -> res unit * W) now (I : W -> Prop)
    (E : exn -> W -> Prop) :
  (forall w i t, I w -> earliest (tasks (sched w)) = Some (i, t) ->
    st_ends (invoke (callback t)) (fun _ => I) E (with_sched (set_tasks (delete i (tasks (sched w))) (sched w)) w)) ->
  forall budget count w, I w -> st_ends (dispatch_loop invoke now budget count) (fun _ => I) E w.
Proof.
  intros Hinv. induction budget as [|budget IH]; intros count w Hw; unfold st_ends; cbn [dispatch_loop]; [done|].
  destruct (earliest (tasks (sched w))) as [[i t]|] eqn:Ee; [|done].
  destruct (deadline t >? now); [done|]. specialize (Hinv w i t Hw Ee). unfold st_ends in Hinv.
  destruct (invoke (callback t) _) as [[u|e] w']; [|done]. by apply IH.
Qed.

(** *** Taking the earliest task again and again is sorting *)

Section sorting.
Context {C : Type}.
Implicit Types (l : list (Task C)) (s : State C).

Lemma insert_least (t : Task C) l : (forall y, y ∈ l -> deadline t <= deadline y) -> insert_task t l = t :: l.
Proof.
  destruct l as [|y l]; [done|]. intros Hl. cbn.
  by rewrite (proj2 (Z.leb_le _ _) (Hl y (list_elem_of_here y l))).
Qed.

Lemma insert_task_elem (t x : Task C) l : x ∈ insert_task t l -> x = t \/ x ∈ l.
Proof.
  induction l as [|y l IH]; cbn; [by intros ->%list_elem_of_singleton; left|].
  case_test; rewrite !elem_of_cons; [tauto|]. intros [->|Hx]; [tauto|]. destruct (IH Hx); tauto.
Qed.

Lemma by_deadline_elem (x : Task C) l : x ∈ by_deadline l -> x ∈ l.
Proof.
  induction l as [|y l IH]; [done|]. cbn. rewrite elem_of_cons. intros [->|Hx]%insert_task_elem; auto.
Qed.

Lemma by_deadline_least i (t : Task C) l : l !! i = Some t ->
  (forall j x, l !! j = Some x -> deadline t <= deadline x /\ ((j < i)%nat -> deadline t < deadline x)) ->
  by_deadline l = t :: by_deadline (delete i l).
Proof.
  revert i. induction l as [|x l IH]; [done|]. intros [|i] Hi Hm.
  - injection Hi as ->. apply insert_least. intros y Hy%by_deadline_elem.
    apply list_elem_of_lookup in Hy as [j Hj]. by apply (Hm (S j)).
  - change (delete (S i) (x :: l)) with (x :: delete i l). cbn [by_deadline].
    rewrite (IH i Hi); [|intros j y Hj; destruct (Hm (S j) y Hj) as [H1 H2]; split; [done|intros; apply H2; lia]].
    cbn. destruct (Hm O x eq_refl) as [_ Hx].
    by rewrite (proj2 (Z.leb_gt _ _) (Hx (Nat.lt_0_succ i))).
Qed.

Lemma due_step now l i t : earliest l = Some (i, t) ->
  due now l = if deadline t >? now then [] else t :: due now (delete i l).
Proof.
  intros He. destruct (earliest_spec _ _ _ He) as [Hi Hm]. unfold due.
  rewrite (by_deadline_least i t l Hi Hm). case_test.
  - rewrite filter_cons_False by lia. apply elem_of_nil_inv. intros x [Hd Hx]%list_elem_of_filter.
    apply by_deadline_elem, delete_elem, list_elem_of_lookup in Hx as [j Hj]. destruct (Hm _ _ Hj). lia.
  - by rewrite filter_cons_True by lia.
Qed.

Lemma without_cons (t : Task C) ran l : without (t :: ran) l = without ran (filter (fun x => id x <> id t) l).
Proof.
  unfold without. rewrite list_filter_filter. apply list_filter_iff. intros x.
  rewrite fmap_cons, not_elem_of_cons. tauto.
Qed.

Lemma without_nil l : without [] l = l.
Proof. apply filter_all. intros t _. apply not_elem_of_nil. Qed.

(** The first that is due is before all the others. *)
Lemma due_first now l t later : StronglySorted Z.lt (id <$> l) -> due now l = t :: later ->
  t ∈ l /\ deadline t <= now /\ forall u, u ∈ l -> u = t \/ before t u.
Proof.
  intros Hs Hd. destruct (earliest l) as [[i u]|] eqn:Ee; [|by rewrite (earliest_none _ Ee) in Hd].
  rewrite (due_step _ _ _ _ Ee) in Hd. destruct (deadline u >? now) eqn:Hnow; [done|]. injection Hd as -> _.
  destruct (earliest_spec _ _ _ Ee) as [Hi Hm]. split; [by eapply list_elem_of_lookup_2|]. split; [lia|].
  intros u [j Hj]%list_elem_of_lookup. destruct (Hm j u Hj) as [H1 H2]. unfold before.
  destruct (Nat.lt_trichotomy j i) as [Hlt|[->|Hlt]]; [right; left; by apply H2|left; congruence|right].
  enough (id t < id u) by lia. rewrite <- (take_drop_middle _ _ _ Hi) in Hs.
  rewrite fmap_app, fmap_cons, StronglySorted_app in Hs. destruct Hs as (_ & _ & Hs). inversion Hs as [|? ? _ Hf]; subst.
  apply (sorted_head t u _ Hf). apply (list_elem_of_lookup_2 _ (j - S i)%nat). rewrite lookup_drop. by replace (S i + (j - S i))%nat with j by lia.
Qed.

Lemma due_taken l i t : StronglySorted Z.lt (id <$> l) -> earliest l = Some (i, t) ->
  delete i l = without [t] l.
Proof.
  intros Hs He. destruct (earliest_spec _ _ _ He) as [Hi _].
  by rewrite (delete_filter _ _ _ Hs Hi), without_cons, without_nil.
Qed.
End sorting.

(** *** The loop does what it is to do *)

Section executions.
Context {C W : Type} `{Host C W} (invoke : C -> W -> res unit * W) (now : Z).

Lemma taken_wf t w later : wf (sched w) -> due now (tasks (sched w)) = t :: later ->
  wf (sched (taken t w)) /\ extends (sched w) (sched (taken t w)).
Proof. intros Hw _. unfold taken. rewrite sched_with. split; [by apply filter_wf|apply filter_extends]. Qed.

Section calling.
Hypothesis invoke_calls : forall c w, calls (sched w) (sched (snd (invoke c w))).

Lemma round_wf t w later r w1 : wf (sched w) -> due now (tasks (sched w)) = t :: later -> invoke (callback t) (taken t w) = (r, w1) ->
  wf (sched w1) /\ extends (sched (taken t w)) (sched w1).
Proof.
  intros Hw Hd Hi. destruct (taken_wf t w later Hw Hd) as [Hw1 _].
  pose proof (invoke_calls (callback t) (taken t w)) as Hc. rewrite Hi in Hc. by apply calls_wf.
Qed.

Lemma dispatch_loop_executes budget count w : wf (sched w) ->
  exists log r w', dispatch_loop invoke now budget count w = (r, w') /\ executes invoke now budget count w log r w'.
Proof.
  revert count w. induction budget as [|budget IH]; intros count w Hw; cbn [dispatch_loop].
  { eexists _, _, _. split; [done|]. constructor. by left. }
  destruct (earliest (tasks (sched w))) as [[i t]|] eqn:Ee.
  2: { eexists _, _, _. split; [done|]. constructor. right. by rewrite (earliest_none _ Ee). }
  pose proof (due_step now _ _ _ Ee) as Hd. destruct (deadline t >? now).
  { eexists _, _, _. split; [done|]. constructor. by right. }
  rewrite (due_taken _ _ _ (wf_ids _ Hw) Ee). fold (taken t w). cbv zeta.
  destruct (invoke (callback t) (taken t w)) as [[[]|e] w1] eqn:Hi.
  - destruct (IH (count + 1) w1) as (log & r & w' & -> & Hx); [by eapply round_wf|].
    eexists _, _, _. split; [done|]. by eapply executes_round.
  - eexists _, _, _. split; [done|]. by eapply executes_throw.
Qed.

(** What comes later in the log was there all along, or is new. *)
Lemma executes_known budget count w log r w' : wf (sched w) -> executes invoke now budget count w log r w' ->
  forall s t, (s, t) ∈ log -> t ∈ tasks (sched w) \/ nextId (sched w) < id t.
Proof.
  intros Hw Hx. revert Hw. induction Hx as [|budget count w t later w1 log r w' Hd Hi _ IH|budget count w t later e w' Hd Hi];
    intros Hw s u Hu; [by apply not_elem_of_nil in Hu|apply elem_of_cons in Hu as [[= -> ->]|Hu]|apply list_elem_of_singleton in Hu as [= -> ->]].
  1, 3: left; by apply (due_first now _ _ later); [apply Hw|].
  destruct (taken_wf t w later Hw Hd) as [_ He]. destruct (round_wf t w later _ _ Hw Hd Hi) as [Hw1 He1].
  pose proof (extends_trans _ _ _ He He1) as [Hn _ _ Ht].
  destruct (IH Hw1 s u Hu) as [Hin|Hin]; [by apply Ht|right; lia].
Qed.

Lemma executes_order budget count w log r w' : wf (sched w) -> executes invoke now budget count w log r w' ->
  forall i j s t s' u, (i < j)%nat -> log !! i = Some (s, t) -> log !! j = Some (s', u) -> before t u \/ nextId s < id u.
Proof.
  intros Hw Hx. revert Hw. induction Hx as [|budget count w t later w1 log r w' Hd Hi Hx IH|budget count w t later e w' Hd Hi];
    intros Hw i j s x s' u Hij Hli Hlj; [done| |].
  2: { destruct j as [|j]; [lia|done]. }
  destruct j as [|j]; [lia|]. cbn in Hlj.
  destruct (round_wf t w later _ _ Hw Hd Hi) as [Hw1 He1].
  destruct i as [|i]; [|apply (IH Hw1 i j s x s' u); [lia|exact Hli|exact Hlj]].
  cbn in Hli. injection Hli as <- <-.
  destruct (taken_wf t w later Hw Hd) as [_ He]. apply list_elem_of_lookup_2 in Hlj.
  assert (nextId (sched (taken t w)) = nextId (sched w)) as Hn0 by (unfold taken; by rewrite sched_with).
  destruct He1 as [Hn1 _ _ Ht1]. rewrite Hn0 in *.
  destruct (executes_known _ _ _ _ _ _ Hw1 Hx _ _ Hlj) as [Hin|Hin]; [|right; lia].
  destruct (Ht1 u Hin) as [Hin'|Hin']; [left|by right].
  unfold taken in Hin'. rewrite sched_with in Hin'. cbn in Hin'. apply list_elem_of_filter in Hin' as [Hne Hin'].
  destruct (due_first now _ _ later (wf_ids _ Hw) Hd) as (_ & _ & Hb). destruct (Hb u Hin') as [->|?]; [|done].
  destruct Hne. by left.
Qed.
End calling.

(** Callbacks that leave the queue alone. *)
Lemma executes_aside budget count w log r w' : (forall c w, tasks (sched (invoke c w).2) = tasks (sched w)) ->
  StronglySorted Z.lt (id <$> tasks (sched w)) -> executes invoke now budget count w log r w' ->
  snd <$> log = take (length log) (due now (tasks (sched w))) /\ tasks (sched w') = without (snd <$> log) (tasks (sched w)) /\
  forall n, r = Ok n -> length log = Nat.min budget (length (due now (tasks (sched w)))) /\ n = count + len log.
Proof.
  intros Ha Hs Hx. revert Hs.
  assert (forall t w later, StronglySorted Z.lt (id <$> tasks (sched w)) -> due now (tasks (sched w)) = t :: later ->
    tasks (sched (taken t w)) = filter (fun x => id x <> id t) (tasks (sched w)) /\
    due now (tasks (sched (taken t w))) = later /\ StronglySorted Z.lt (id <$> tasks (sched (taken t w)))) as Htaken.
  { intros t w0 later Hs Hd. unfold taken. rewrite sched_with. cbn [tasks set_tasks].
    destruct (earliest (tasks (sched w0))) as [[i u]|] eqn:Ee; [|by rewrite (earliest_none _ Ee) in Hd].
    rewrite (due_step _ _ _ _ Ee) in Hd. destruct (deadline u >? now); [done|]. injection Hd as -> Hd.
    rewrite <- (due_taken _ _ _ Hs Ee). destruct (earliest_spec _ _ _ Ee) as [Hi _].
    split; [by apply delete_filter|]. split; [done|]. rewrite (delete_filter _ _ _ Hs Hi). by apply sorted_filter. }
  induction Hx as [budget count w Hstop|budget count w t later w1 log r w' Hd Hi _ IH|budget count w t later e w' Hd Hi]; intros Hs.
  - cbn. rewrite take_0, without_nil. do 2 (split; [done|]). intros n [= <-]. unfold len. cbn.
    split; [|lia]. destruct Hstop as [->| ->]; cbn; lia.
  - destruct (Htaken t w later Hs Hd) as (Et & Ed & Hs1). pose proof (Ha (callback t) (taken t w)) as Hq. rewrite Hi in Hq. cbn [snd] in Hq.
    rewrite <- Hq in Et, Ed, Hs1. destruct (IH Hs1) as (IH1 & IH2 & IH3). rewrite fmap_cons, Hd, IH1, Ed. cbn [length].
    rewrite firstn_cons. split; [done|]. split.
    + rewrite IH2, Et, <- without_cons. f_equal. by rewrite IH1, Ed.
    + intros n Hr. destruct (IH3 n Hr) as [H1 H2]. rewrite Ed in H1. rewrite len_cons. split; [cbn; lia|lia].
  - destruct (Htaken t w later Hs Hd) as (Et & _ & _). pose proof (Ha (callback t) (taken t w)) as Hq. rewrite Hi in Hq. cbn [snd] in Hq.
    rewrite Hd. split; [done|]. split; [|done]. rewrite Hq, Et. cbn. by rewrite without_cons, without_nil.
Qed.
End executions.

(** ** Properties *)

(** C26: Dispatching does what it is to do ([executes]): while the budget lasts,
    it runs the first task of those due at that moment, in the order of
    deadlines and, among equals, of scheduling; whatever calls of the
    scheduler the callbacks make, and up to the first that throws, which is
    passed on with the rest still queued.  Of two tasks it runs, the later one
    is also the later in that order, or a callback scheduled it only after the
    earlier one had been taken from the queue.  When the callbacks
    leave the queue alone, the tasks run are those of the queue at the start that
    are due, in that order, as many as the budget allows, and just they are
    gone from it. *)
Theorem dispatchDue_in_order {C W : Type} `{Host C W} (invoke : C -> W -> res unit * W) (now : Z) (budget : nat) (w : W) :
  (forall c w, calls (sched w) (sched (snd (invoke c w)))) ->
  wf (sched w) -> dispatching (sched w) = false -> budget <> O ->
  exists log r w', dispatchDue invoke now budget w = (r, with_sched (set_dispatching false (sched w')) w') /\
    executes invoke now budget 0 (with_sched (set_dispatching true (sched w)) w) log r w' /\
    (forall i j s t s' u, (i < j)%nat -> log !! i = Some (s, t) -> log !! j = Some (s', u) -> before t u \/ nextId s < id u) /\
    ((forall c w, tasks (sched (invoke c w).2) = tasks (sched w)) ->
      snd <$> log = take (length log) (due now (tasks (sched w))) /\
      tasks (sched w') = without (snd <$> log) (tasks (sched w)) /\
      forall n, r = Ok n -> length log = Nat.min budget (length (due now (tasks (sched w)))) /\ n = len log).
Proof.
  intros Hc Hw Hd Hb. unfold dispatchDue. rewrite (proj2 (Nat.eqb_neq _ _) Hb), Hd.
  set (w1 := with_sched (set_dispatching true (sched w)) w).
  assert (sched w1 = set_dispatching true (sched w)) as E1 by apply sched_with.
  assert (wf (sched w1)) as Hw1 by (rewrite E1; destruct Hw; by split).
  destruct (dispatch_loop_executes invoke now Hc budget 0 w1 Hw1) as (log & r & w' & -> & Hx).
  exists log, r, w'. split; [done|]. split; [done|]. split; [by eapply executes_order|].
  intros Ha. pose proof (executes_aside invoke now _ _ _ _ _ _ Ha (wf_ids _ Hw1) Hx) as Hq.
  rewrite E1 in Hq. exact Hq.
Qed.

(** Three timers, two of them with the same deadline. *)
Definition three : State nat := MkState 4 [MkTask 1 9 1%nat; MkTask 2 5 2%nat; MkTask 3 5 3%nat] 3 false false 3.

Lemma three_wf : wf three.
Proof. split; cbn; [lia|lia|by repeat constructor|by repeat constructor; cbn; lia|lia|done]. Qed.

(** The first to run schedules one that is due before all the others, the last
    to run throws. *)
Definition sample_invoke (c : nat) (w : State nat * list nat) : res unit * (State nat * list nat) :=
  let x := w.2 ++ [c] in
  if (c =? 2)%nat then
    match scheduleAt 1 (Some 7%nat) w.1 with Ok (_, s) => (Ok tt, (s, x)) | Throw e => (Throw e, (w.1, x)) end
  else if (c =? 3)%nat then (Throw end_of_stream, (w.1, x)) else (Ok tt, (w.1, x)).

Lemma sample_calls c (w : State nat * list nat) : calls (sched w) (sched (snd (sample_invoke c w))).
Proof.
  unfold sample_invoke. destruct (c =? 2)%nat; [|destruct (c =? 3)%nat; apply calls_none].
  destruct (scheduleAt 1 (Some 7%nat) w.1) as [[token s]|e] eqn:E; [|apply calls_none].
  eapply calls_schedule; [apply calls_none|exact E].
Qed.

Theorem dispatchDue_in_order_witness : exists log r w',
  dispatchDue sample_invoke 20 8 (three, []) = (r, with_sched (set_dispatching false (sched w')) w') /\
  executes sample_invoke 20 8 0 (set_dispatching true three, []) log r w' /\
  r = Throw end_of_stream /\ w'.2 = [2; 7; 3]%nat /\ (id <$> tasks w'.1) = [1].
Proof.
  destruct (dispatchDue_in_order sample_invoke 20 8 (three, []) sample_calls three_wf eq_refl (Nat.neq_succ_0 7))
    as (log & r & w' & Hd & Hx & _).
  exists log, r, w'. split; [exact Hd|]. split; [exact Hx|].
  change (dispatchDue sample_invoke 20 8 (three, [])) with
    (Throw (A := Z) end_of_stream, (MkState 4 [MkTask 1 9 1%nat] 4 false false 4, [2; 7; 3]%nat)) in Hd.
  injection Hd as <- _ Ht _ _ _ Hl. split; [reflexivity|]. split; [exact (eq_sym Hl)|].
  by rewrite <- Ht.
Defined.

(** C34: Whatever the callbacks do to the scheduler by its own operations, and
    whether they throw or not, a dispatch ends and leaves the scheduler in order
    and ready for the next: the queue within its capacity, numbers in increasing
    order and never used twice, nothing queued after a shutdown.  When it returns
    it has run at most the budget, and all of it unless nothing is due. *)
Theorem dispatchDue_ends {C W : Type} `{Host C W} (invoke : C -> W -> res unit * W) (now : Z) (budget : nat) (w : W) :
  (forall c w, calls (sched w) (sched (snd (invoke c w)))) ->
  wf (sched w) -> dispatching (sched w) = false -> budget <> O ->
  let '(r, w') := dispatchDue invoke now budget w in
  wf (sched w') /\ dispatching (sched w') = false /\ nextId (sched w) <= nextId (sched w') /\
  (forall t, t ∈ tasks (sched w') -> t ∈ tasks (sched w) \/ nextId (sched w) < id t) /\
  forall n, r = Ok n ->
    0 <= n <= Z.of_nat budget /\
    (n = Z.of_nat budget \/ forall t, t ∈ tasks (sched w') -> now < deadline t).
Proof.
  intros Hc Hw Hd Hb. unfold dispatchDue. rewrite (proj2 (Nat.eqb_neq _ _) Hb), Hd.
  set (w1 := with_sched (set_dispatching true (sched w)) w).
  assert (sched w1 = set_dispatching true (sched w)) as E1 by apply sched_with.
  assert (wf (sched w1)) as Hw1 by (rewrite E1; destruct Hw; by split).
  pose proof (dispatch_loop_safe invoke Hc now budget 0 w1 Hw1) as Hl.
  destruct (dispatch_loop invoke now budget 0 w1) as [r w2]. destruct Hl as (Hw2 & He2 & Hn).
  rewrite !sched_with. rewrite E1 in He2. destruct He2 as [He1 _ _ He2]. cbn in *.
  split; [destruct Hw2; by split|]. split; [done|]. split; [done|]. split; [done|exact Hn].
Qed.

(** A callback that schedules itself again at once: it runs as often as the
    budget says. *)
Definition again (c : nat) (s : State nat) : res unit * State nat :=
  match scheduleAt 0 (Some c) s with Ok (_, s') => (Ok tt, s') | Throw e => (Throw e, s) end.

#[local] Instance self_host : Host nat (State nat) :=
  {| sched s := s; with_sched s _ := s; sched_with s _ := eq_refl |}.

Lemma again_calls c s : calls s (snd (again c s)).
Proof.
  unfold again. destruct (scheduleAt 0 (Some c) s) as [[token s']|e] eqn:E; [|apply calls_none].
  eapply calls_schedule; [apply calls_none|exact E].
Qed.

Theorem dispatchDue_ends_witness :
  fst (dispatchDue again 7 5 three) = Ok 5 /\
  let '(r, w') := dispatchDue again 7 5 three in
  wf (sched w') /\ dispatching (sched w') = false.
Proof.
  split; [reflexivity|].
  pose proof (dispatchDue_ends again 7 5 three again_calls three_wf eq_refl (Nat.neq_succ_0 4)) as H.
  destruct (dispatchDue again 7 5 three) as [r w']. destruct H as (H1 & H2 & _). exact (conj H1 H2).
Defined.
