(* ===== verification/SessionInput.v ===== *)
(** * Input on its way to the server ([viewer/core/ProtocolSession.cxx])

    The part of a session that takes commands from the mailbox ([InputQueue]),
    runs pointer commands through the emulation of a middle button
    ([MiddleButton]) and the throttling of motion, both with timers of the
    session's scheduler ([Scheduler]), and writes key and pointer events.  The
    worker's calls are [drainInput], [dispatchScheduled], [start], [initDone] and
    [finish]; between them, and where [drainInput] reads the mailbox, other
    threads may call the mailbox.

    The writer is a parameter: [transport] says whether a write throws, given
    what was written before; the calls it accepted are the list [wire].  The
    clock is a field that other steps advance.  [None] for the connection is the
    null pointer: using it is an error of the model ([null]).  Left out are the
    clipboard, the session's events, authentication and the three timers of the
    session that do not concern input (they share the scheduler of capacity 5).

    Proved here: for every interleaving, the session knows of every key and
    button the server holds down, a release reaches the server before anything
    submitted after it, a drain empties the mailbox, and the exceptions that can
    end a session. *)
From stdpp Require Import base list numbers strings option.
From S2P Require Import Prelude Geometry InputQueue MiddleButton Scheduler.
#[local] Open Scope Z_scope.

Record HeldKey := MkHeld { hk_id : Z; hk_symbol : Z; hk_code : Z }.

(** [ProtocolSession::Connection] *)
Record Connection := MkConnection {
  ready : bool;
  held : list HeldKey;
  pointerPosition : Point;
  cn_buttons : Z
}.

Definition new_connection : Connection := MkConnection false [] (MkPoint 0 0) 0.

(** The callbacks, with what they captured. *)
Inductive timer : Type :=
| TPointer (gen revision : Z)
| TMiddle (gen revision : Z).

(** Calls of the writer. *)
Inductive wevent : Type :=
| WPointer (pos : Point) (buttons : Z)
| WKey (symbol code : Z) (down : bool).

Record session := MkSession {
  mailbox : InputQueue.Impl;
  timers : Scheduler.State timer;
  middle : MiddleButton.MiddleButtonEmulator;
  middleRevision : Z;
  pendingPointer : InputQueue.Command;
  lastPointerButtons : Z;
  pointerTimer : Z;
  middleTimer : Z;
  sgeneration : Z;
  connection : option Connection;
  processing : bool;
  clock : Z;
  wire : list wevent
}.

Definition set_mailbox (x : InputQueue.Impl) (s : session) : session :=
  MkSession x (timers s) (middle s) (middleRevision s) (pendingPointer s) (lastPointerButtons s) (pointerTimer s)
    (middleTimer s) (sgeneration s) (connection s) (processing s) (clock s) (wire s).
Definition set_timers (x : Scheduler.State timer) (s : session) : session :=
  MkSession (mailbox s) x (middle s) (middleRevision s) (pendingPointer s) (lastPointerButtons s) (pointerTimer s)
    (middleTimer s) (sgeneration s) (connection s) (processing s) (clock s) (wire s).
Definition set_middle (x : MiddleButton.MiddleButtonEmulator) (s : session) : session :=
  MkSession (mailbox s) (timers s) x (middleRevision s) (pendingPointer s) (lastPointerButtons s) (pointerTimer s)
    (middleTimer s) (sgeneration s) (connection s) (processing s) (clock s) (wire s).
Definition set_middleRevision (x : Z) (s : session) : session :=
  MkSession (mailbox s) (timers s) (middle s) x (pendingPointer s) (lastPointerButtons s) (pointerTimer s)
    (middleTimer s) (sgeneration s) (connection s) (processing s) (clock s) (wire s).
Definition set_pendingPointer (x : InputQueue.Command) (s : session) : session :=
  MkSession (mailbox s) (timers s) (middle s) (middleRevision s) x (lastPointerButtons s) (pointerTimer s)
    (middleTimer s) (sgeneration s) (connection s) (processing s) (clock s) (wire s).
Definition set_lastPointerButtons (x : Z) (s : session) : session :=
  MkSession (mailbox s) (timers s) (middle s) (middleRevision s) (pendingPointer s) x (pointerTimer s)
    (middleTimer s) (sgeneration s) (connection s) (processing s) (clock s) (wire s).
Definition set_pointerTimer (x : Z) (s : session) : session :=
  MkSession (mailbox s) (timers s) (middle s) (middleRevision s) (pendingPointer s) (lastPointerButtons s) x
    (middleTimer s) (sgeneration s) (connection s) (processing s) (clock s) (wire s).
Definition set_middleTimer (x : Z) (s : session) : session :=
  MkSession (mailbox s) (timers s) (middle s) (middleRevision s) (pendingPointer s) (lastPointerButtons s)
    (pointerTimer s) x (sgeneration s) (connection s) (processing s) (clock s) (wire s).
Definition set_sgeneration (x : Z) (s : session) : session :=
  MkSession (mailbox s) (timers s) (middle s) (middleRevision s) (pendingPointer s) (lastPointerButtons s)
    (pointerTimer s) (middleTimer s) x (connection s) (processing s) (clock s) (wire s).
Definition set_connection (x : option Connection) (s : session) : session :=
  MkSession (mailbox s) (timers s) (middle s) (middleRevision s) (pendingPointer s) (lastPointerButtons s)
    (pointerTimer s) (middleTimer s) (sgeneration s) x (processing s) (clock s) (wire s).
Definition set_processing (x : bool) (s : session) : session :=
  MkSession (mailbox s) (timers s) (middle s) (middleRevision s) (pendingPointer s) (lastPointerButtons s)
    (pointerTimer s) (middleTimer s) (sgeneration s) (connection s) x (clock s) (wire s).
Definition set_clock (x : Z) (s : session) : session :=
  MkSession (mailbox s) (timers s) (middle s) (middleRevision s) (pendingPointer s) (lastPointerButtons s)
    (pointerTimer s) (middleTimer s) (sgeneration s) (connection s) (processing s) x (wire s).
Definition set_wire (x : list wevent) (s : session) : session :=
  MkSession (mailbox s) (timers s) (middle s) (middleRevision s) (pendingPointer s) (lastPointerButtons s)
    (pointerTimer s) (middleTimer s) (sgeneration s) (connection s) (processing s) (clock s) x.

(** The errors of the model: code that would use a null pointer, or an index
    outside a table. *)
Definition null : exn := logic_error "null pointer".
Definition outside : exn := logic_error "index outside a table".

#[local] Abbreviation SS := (SE session).

(** A call of the mailbox by the worker. *)
Definition on_mailbox {A} (m : SE InputQueue.Impl A) : SS A := fun s =>
  let '(r, x) := m (mailbox s) in (r, set_mailbox x s).

(** Calls of the mailbox by other threads: what they return or throw is theirs. *)
Definition interrupt (ops : list InputQueue.op) : SS unit :=
  st_change (fun s => set_mailbox (fold_left (fun x o => snd (InputQueue.step o x)) ops (mailbox s)) s).

Definition get_connection : SS Connection :=
  s ← st_get;
  match connection s with Some c => mret c | None => st_throw null end.

Definition put_connection (c : Connection) : SS unit := st_change (set_connection (Some c)).

(** [milliseconds] as nanoseconds of the clock; [TimePoint::max()]. *)
Definition milliseconds (n : Z) : Z := n * 1000000.
Definition time_max : Z := 2 ^ 63 - 1.

Definition deadlineAfter (interval : Z) : SS Z :=
  s ← st_get;
  if clock s >? time_max - interval then st_throw (overflow_error "Session timer deadline overflow")
  else mret (clock s + interval).

Definition schedule (deadline : Z) (t : timer) : SS Z := fun s =>
  match Scheduler.scheduleAt deadline (Some t) (timers s) with
  | Ok (token, x) => (Ok token, set_timers x s)
  | Throw e => (Throw e, s)
  end.

Definition cancel_timer (token : Z) : SS unit :=
  st_change (fun s => set_timers (snd (Scheduler.cancel token (timers s))) s).

Definition resetMiddle : SS unit :=
  s ← st_get;
  cancel_timer (middleTimer s);;
  st_change (set_middleTimer 0);; st_change (set_middle MiddleButton.init_middle);; st_change (set_middleRevision 0).

Definition resetPointer : SS unit :=
  s ← st_get;
  cancel_timer (pointerTimer s);;
  st_change (set_pointerTimer 0);; st_change (set_pendingPointer InputQueue.empty_command);;
  st_change (set_lastPointerButtons 0).

(** Is input of generation [gen] and routing revision [revision] still wanted? *)
Definition current (gen revision : Z) (s : session) : bool :=
  let st := InputQueue.get_status (mailbox s) in
  match connection s with
  | None => false
  | Some c =>
      ready c && (sgeneration s =? gen) && (InputQueue.generation st =? gen)
      && (InputQueue.routingRevision st =? revision)
      && InputQueue.connected st && InputQueue.focused st && negb (InputQueue.viewOnly st)
  end.

Definition find_held (id : Z) (l : list HeldKey) : option HeldKey :=
  List.find (fun k => hk_id k =? id) l.

(** [held.erase(key)]: the first entry of that id. *)
Fixpoint erase_held (id : Z) (l : list HeldKey) : list HeldKey :=
  match l with
  | [] => []
  | k :: l => if hk_id k =? id then l else k :: erase_held id l
  end.

Definition set_held (l : list HeldKey) (c : Connection) : Connection :=
  MkConnection (ready c) l (pointerPosition c) (cn_buttons c).
Definition set_pointer (pos : Point) (b : Z) (c : Connection) : Connection :=
  MkConnection (ready c) (held c) pos b.

Section with_session.
Context (transport : list wevent -> wevent -> option exn).
(** [buffers.heldKeys], [buffers.inputCommands], [timing.pointerEventInterval]. *)
Context (heldKeys inputCommands : nat) (pointerEventInterval : Z).

Definition write (e : wevent) : SS unit :=
  s ← st_get;
  match transport (wire s) e with
  | Some ex => st_throw ex
  | None => st_change (set_wire (wire s ++ [e]))
  end.

(** ** [ProtocolSession::Connection] *)

(** [while (!held.empty())], at most [n] times. *)
Fixpoint release_held (n : nat) : SS unit :=
  match n with
  | O => mret tt
  | S n =>
      c ← get_connection;
      match list.last (held c) with
      | None => mret tt
      | Some key =>
          write (WKey (hk_symbol key) (hk_code key) false);;
          put_connection (set_held (removelast (held c)) c);;
          release_held n
      end
  end.

Definition releaseInput : SS unit :=
  c ← get_connection;
  release_held (length (held c));;
  c ← get_connection;
  if cn_buttons c =? 0 then mret tt
  else
    write (WPointer (pointerPosition c) 0);;
    put_connection (set_pointer (pointerPosition c) 0 c).

Definition conn_sendInput (command : InputQueue.Command) : SS bool :=
  c ← get_connection;
  match InputQueue.kind command with
  | InputQueue.ReleaseAll => releaseInput;; mret true
  | InputQueue.Pointer =>
      let pos := MkPoint (InputQueue.cx command) (InputQueue.cy command) in
      put_connection (set_pointer pos (InputQueue.cbuttons command) c);;
      write (WPointer pos (InputQueue.cbuttons command));; mret true
  | InputQueue.Key =>
      let id := InputQueue.keyId command in
      if InputQueue.down command then
        match find_held id (held c) with
        | None =>
            if (length (held c) =? heldKeys)%nat then mret false
            else
              put_connection (set_held (held c ++ [MkHeld id (InputQueue.keySym command) (InputQueue.keyCode command)]) c);;
              write (WKey (InputQueue.keySym command) (InputQueue.keyCode command) true);; mret true
        | Some key => write (WKey (hk_symbol key) (hk_code key) true);; mret true
        end
      else
        match find_held id (held c) with
        | None => mret true
        | Some key =>
            write (WKey (hk_symbol key) (hk_code key) false);;
            put_connection (set_held (erase_held id (held c)) c);; mret true
        end
  end.

(** ** Throttled motion and delayed buttons *)

Definition flushPointer : SS unit :=
  s ← st_get;
  if pointerTimer s =? 0 then mret tt
  else
    cancel_timer (pointerTimer s);; st_change (set_pointerTimer 0);;
    s ← st_get;
    if negb (current (sgeneration s) (middleRevision s) s) then resetPointer
    else conn_sendInput (pendingPointer s);; mret tt.

Definition sendPointer (command : InputQueue.Command) : SS unit :=
  st_change (set_pendingPointer command);;
  s ← st_get;
  (if (pointerEventInterval =? 0) || negb (InputQueue.cbuttons command =? lastPointerButtons s)
   then conn_sendInput command;; mret tt
   else if pointerTimer s =? 0 then
     d ← deadlineAfter (milliseconds pointerEventInterval);
     token ← schedule d (TPointer (sgeneration s) (middleRevision s));
     st_change (set_pointerTimer token);;
     if token =? 0 then st_throw (runtime_error "Session timer queue full") else mret tt
   else mret tt);;
  st_change (set_lastPointerButtons (InputQueue.cbuttons command)).

Fixpoint sendMiddleBatch (events : list MiddleButton.Event) : SS unit :=
  match events with
  | [] => mret tt
  | e :: events =>
      let pos := MiddleButton.position e in
      sendPointer (InputQueue.pointer_command (px pos) (py pos) (MiddleButton.ebuttons e) false);;
      sendMiddleBatch events
  end.

(** [middle.pointer] and [middle.expire]. *)
Definition on_middle (r : option (MiddleButton.Batch * MiddleButton.MiddleButtonEmulator)) : SS MiddleButton.Batch :=
  match r with
  | None => st_throw outside
  | Some (b, m) => st_change (set_middle m);; mret b
  end.

Definition sendInput (command : InputQueue.Command) : SS bool :=
  s ← st_get;
  (if negb (InputQueue.crevision command =? middleRevision s)
      || bool_decide (InputQueue.kind command = InputQueue.ReleaseAll)
   then resetPointer;; resetMiddle;; st_change (set_middleRevision (InputQueue.crevision command))
   else mret tt);;
  if negb (bool_decide (InputQueue.kind command = InputQueue.Pointer)) then
    (if bool_decide (InputQueue.kind command = InputQueue.Key) then flushPointer else mret tt);;
    conn_sendInput command
  else if negb (InputQueue.cemulateMiddle command) then sendPointer command;; mret true
  else
    s ← st_get;
    batch ← on_middle (MiddleButton.pointer (middle s)
      (MkPoint (InputQueue.cx command) (InputQueue.cy command)) (InputQueue.cbuttons command));
    sendMiddleBatch (MiddleButton.events batch);;
    (if MiddleButton.timerChanged batch then
       s ← st_get;
       cancel_timer (middleTimer s);; st_change (set_middleTimer 0);;
       if MiddleButton.pending (middle s) then
         d ← deadlineAfter (milliseconds 50);
         token ← schedule d (TMiddle (sgeneration s) (middleRevision s));
         st_change (set_middleTimer token);;
         if token =? 0 then st_throw (runtime_error "Session timer queue full") else mret tt
       else mret tt
     else mret tt);;
    mret true.

(** The callbacks. *)
Definition fire (t : timer) : SS unit :=
  match t with
  | TPointer gen revision =>
      st_change (set_pointerTimer 0);;
      s ← st_get;
      if negb (current gen revision s) then resetPointer
      else conn_sendInput (pendingPointer s);; mret tt
  | TMiddle gen revision =>
      st_change (set_middleTimer 0);;
      s ← st_get;
      if negb (current gen revision s && InputQueue.emulateMiddle (InputQueue.get_status (mailbox s)))
      then resetMiddle
      else
        batch ← on_middle (MiddleButton.expire (middle s));
        sendMiddleBatch (MiddleButton.events batch)
  end.

(** ** The worker's calls *)

(** [catch (...) {}] *)
Definition ignore (m : SS unit) : SS unit := fun s => (Ok tt, snd (m s)).

Definition finish : SS unit :=
  s ← st_get;
  if processing s then st_throw (logic_error "Reentrant protocol close")
  else
    resetPointer;; resetMiddle;; st_change (fun s => set_timers (Scheduler.cancelAll (timers s)) s);;
    s ← st_get;
    match connection s with
    | None => mret tt
    | Some c =>
        on_mailbox (InputQueue.end_attempt (sgeneration s + 1));;
        (if ready c then ignore releaseInput else mret tt);;
        st_change (set_connection None);; st_change (set_sgeneration (sgeneration s + 1))
    end.

(** The loop of [drainInput]: at most [n] commands; [intr] are the calls of other
    threads after each command is taken. *)
Fixpoint drain_loop (n : nat) (intr : list (list InputQueue.op)) : SS bool :=
  match n with
  | O => mret true
  | S n =>
      c ← on_mailbox InputQueue.take_command;
      match c with
      | None => mret true
      | Some command =>
          interrupt (List.hd [] intr);;
          okay ← sendInput command;
          if okay : bool then drain_loop n (List.tl intr)
          else
            on_mailbox InputQueue.overflow;;
            resetPointer;; resetMiddle;; releaseInput;; mret false
      end
  end.

(** [processing = true; try { ... } catch (...) { processing = false; finish(true); throw; }] *)
Definition guarded {A} (m : SS A) : SS A :=
  st_catch (st_change (set_processing true);; a ← m; st_change (set_processing false);; mret a)
    (st_change (set_processing false);; finish).

Definition drainInput (intr : list (list InputQueue.op)) : SS bool :=
  s ← st_get;
  if processing s then st_throw (logic_error "Reentrant input processing")
  else match connection s with
       | None => mret true
       | Some c => if ready c then guarded (drain_loop (S inputCommands) intr) else mret true
       end.

#[export] Instance session_host : Scheduler.Host timer session :=
  {| Scheduler.sched := timers; Scheduler.with_sched := set_timers; Scheduler.sched_with s w := eq_refl |}.

Definition dispatchScheduled (budget : nat) : SS Z :=
  s ← st_get;
  if processing s then st_throw (logic_error "Reentrant timer processing")
  else if (budget =? 0)%nat then st_throw (invalid_argument "Zero timer dispatch budget")
  else guarded (Scheduler.dispatchDue fire (clock s) budget).

(** The part of [start] and [initDone] that concerns input: a new connection over
    new streams. *)
Definition start : SS unit :=
  s ← st_get;
  match connection s with
  | Some _ => st_throw (logic_error "Session attempt already active")
  | None =>
      if sgeneration s =? 2 ^ 64 - 1 then st_throw (overflow_error "Session generation exhausted")
      else
        on_mailbox (InputQueue.begin_attempt (sgeneration s));;
        st_change (set_connection (Some new_connection));; st_change (set_wire [])
  end.

Definition initDone : SS unit :=
  c ← get_connection;
  put_connection (MkConnection true (held c) (pointerPosition c) (cn_buttons c));;
  on_mailbox InputQueue.note_connected.
End with_session.

(** ** What the server holds *)

(** The buttons of the last pointer event. *)
Definition server_buttons (w : list wevent) : Z :=
  fold_left (fun b e => match e with WPointer _ x => x | WKey _ _ _ => b end) w 0.

(** Is the last event of key [k] a press? *)
Definition server_key (k : Z * Z) (w : list wevent) : bool :=
  fold_left (fun b e => match e with
    | WKey sym code dn => if bool_decide ((sym, code) = k) then dn else b
    | WPointer _ _ => b end) w false.

Definition key_of (h : HeldKey) : Z * Z := (hk_symbol h, hk_code h).

(** The server holds nothing the session does not know of. *)
Record known (heldKeys : nat) (w : list wevent) (c : Connection) : Prop := {
  kn_buttons : server_buttons w = cn_buttons c;
  kn_keys k : server_key k w = true -> k ∈ (key_of <$> held c);
  kn_bound : (length (held c) <= heldKeys)%nat;
  kn_ids : NoDup (hk_id <$> held c)
}.

Definition token_of (s : session) (t : timer) : Z :=
  match t with TPointer _ _ => pointerTimer s | TMiddle _ _ => middleTimer s end.

(** What holds of a session between the calls of its worker, and after one that
    throws. *)
Record sound (s : session) : Prop := {
  so_mailbox : InputQueue.wf (mailbox s);
  so_timers : Scheduler.wf (timers s);
  so_running : stopped (timers s) = false /\ Scheduler.capacity (timers s) = 5%nat;
  so_tokens t : t ∈ tasks (timers s) -> id t = token_of s (callback t);
  so_middle : MiddleButton.wf (middle s)
}.

Definition ok (heldKeys : nat) (s : session) : Prop :=
  sound s /\ forall c, connection s = Some c -> known heldKeys (wire s) c.

(** What the calls on the way to the server leave alone. *)
Record same (s s' : session) : Prop := {
  sm_mailbox : mailbox s' = mailbox s;
  sm_generation : sgeneration s' = sgeneration s;
  sm_processing : processing s' = processing s;
  sm_clock : clock s' = clock s;
  sm_ready : (ready <$> connection s') = (ready <$> connection s);
  sm_next : nextId (timers s) <= nextId (timers s');
  sm_dispatching : dispatching (timers s') = dispatching (timers s)
}.

#[export] Instance same_preorder : PreOrder same.
Proof.
  split; [by split|]. intros s1 s2 s3 [A1 A2 A3 A4 A5 A6 A7] [B1 B2 B3 B4 B5 B6 B7].
  split; try congruence. lia.
Qed.

(** ** Lemmas: keys and buttons on the wire *)

Lemma server_buttons_app w e :
  server_buttons (w ++ [e]) = match e with WPointer _ x => x | WKey _ _ _ => server_buttons w end.
Proof. unfold server_buttons. rewrite fold_left_app. done. Qed.

Lemma server_key_app k w e :
  server_key k (w ++ [e]) = match e with
    | WKey sym code dn => if bool_decide ((sym, code) = k) then dn else server_key k w
    | WPointer _ _ => server_key k w end.
Proof. unfold server_key. rewrite fold_left_app. done. Qed.

Lemma find_held_spec id l k : find_held id l = Some k -> k ∈ l /\ hk_id k = id.
Proof.
  unfold find_held. intros H. apply List.find_some in H as [H1 H2].
  apply Z.eqb_eq in H2. split; [by apply list_elem_of_In|done].
Qed.

Lemma find_held_none id l : find_held id l = None -> id ∉ (hk_id <$> l).
Proof.
  unfold find_held. intros H Hin. apply list_elem_of_fmap in Hin as (k & -> & Hk).
  apply list_elem_of_In in Hk. pose proof (List.find_none _ _ H k Hk) as Hn. cbn in Hn. by rewrite Z.eqb_refl in Hn.
Qed.

(** Erasing a key keeps the others. *)
Lemma erase_held_elem id l k h : find_held id l = Some k -> h ∈ l -> key_of h <> key_of k -> h ∈ erase_held id l.
Proof.
  unfold find_held. induction l as [|x l IH]; [done|]. cbn. destruct (Z.eqb_spec (hk_id x) id).
  - intros [= ->]. rewrite elem_of_cons. intros [->|Hh] Hne; done.
  - intros Hf. rewrite !elem_of_cons. intros [->|Hh] Hne; [by left|right; by apply IH].
Qed.

Lemma erase_held_sublist id l : sublist (erase_held id l) l.
Proof.
  induction l as [|x l IH]; cbn; [done|]. destruct (_ =? _); [by apply sublist_cons|by apply sublist_skip].
Qed.

Lemma known_pointer n w c pos b : known n w c -> known n (w ++ [WPointer pos b]) (set_pointer pos b c).
Proof.
  intros [Hb Hk Hl Hi]. split; cbn; [by rewrite server_buttons_app| |done|done].
  intros k. rewrite server_key_app. apply Hk.
Qed.

Lemma known_press n w c h : known n w c -> h ∈ held c -> known n (w ++ [WKey (hk_symbol h) (hk_code h) true]) c.
Proof.
  intros [Hb Hk Hl Hi] Hh. split; [by rewrite server_buttons_app| |done|done].
  intros k. rewrite server_key_app. case_bool_decide as E; [|apply Hk].
  intros _. rewrite <- E. by apply (list_elem_of_fmap_2 key_of).
Qed.

Lemma known_add n w c h : known n w c -> find_held (hk_id h) (held c) = None -> length (held c) <> n ->
  known n w (set_held (held c ++ [h]) c).
Proof.
  intros [Hb Hk Hl Hi] Hf Hn. split; cbn; [done| |rewrite length_app; cbn; lia|].
  - intros k H%Hk. rewrite fmap_app. apply elem_of_app. by left.
  - rewrite fmap_app. apply list.NoDup_app. split; [done|]. split; [|by repeat constructor; apply not_elem_of_nil].
    intros x Hx ->%list_elem_of_singleton. by apply find_held_none in Hf.
Qed.

Lemma known_release n w c id h : known n w c -> find_held id (held c) = Some h ->
  known n (w ++ [WKey (hk_symbol h) (hk_code h) false]) (set_held (erase_held id (held c)) c).
Proof.
  intros [Hb Hk Hl Hi] Hf. pose proof (erase_held_sublist id (held c)) as Hs. split; cbn.
  - by rewrite server_buttons_app.
  - intros k. rewrite server_key_app. case_bool_decide as E; [done|]. intros H%Hk.
    apply list_elem_of_fmap in H as (h' & -> & Hh'). apply list_elem_of_fmap_2.
    apply (erase_held_elem _ _ h); [done|done|]. intros E'. apply E. by rewrite E'.
  - pose proof (sublist_length _ _ Hs). lia.
  - apply (sublist_NoDup _ (hk_id <$> held c)); [done|]. by apply fmap_sublist.
Qed.

(** The last key of the list. *)
Lemma known_unwind n w c h l : known n w c -> held c = l ++ [h] ->
  known n (w ++ [WKey (hk_symbol h) (hk_code h) false]) (set_held l c).
Proof.
  intros [Hb Hk Hl Hi] E. rewrite E in *. split; cbn.
  - by rewrite server_buttons_app.
  - intros k. rewrite server_key_app. case_bool_decide as Ek; [done|]. intros H%Hk.
    rewrite fmap_app in H. apply elem_of_app in H as [H|H%list_elem_of_singleton]; [done|]. by subst k.
  - rewrite length_app in Hl. lia.
  - rewrite fmap_app in Hi. by apply list.NoDup_app in Hi as [? _].
Qed.

(** ** The connection's calls *)

Definition put_wire (c : Connection) (w : list wevent) (s : session) : session :=
  set_wire w (set_connection (Some c) s).

Lemma put_wire_same c s : connection s = Some c -> put_wire c (wire s) s = s.
Proof. destruct s. cbn. by intros ->. Qed.

Section conn.
Context (transport : list wevent -> wevent -> option exn).
Context (heldKeys inputCommands : nat) (pointerEventInterval : Z).

Definition thrown (e : exn) : Prop := exists w x, transport w x = Some e.

(** From connection [c] and wire [w], [m] changes only these, and keeps them in
    accord; when a write throws it may leave them apart. *)
Definition conn_ends {A} (R : A -> Connection -> Prop) (m : SE session A) (s : session) (c : Connection)
    (w : list wevent) : Prop :=
  st_ends m
    (fun a s' => exists c' w', s' = put_wire c' w' s /\ ready c' = ready c /\ known heldKeys w' c' /\ R a c')
    (fun e s' => thrown e /\ exists c' w', s' = put_wire c' w' s /\ ready c' = ready c)
    (put_wire c w s).

Lemma conn_ret {A} (R : A -> Connection -> Prop) a s c w : known heldKeys w c -> R a c -> conn_ends R (mret a) s c w.
Proof. intros Hk HR. unfold conn_ends. apply ends_ret. by exists c, w. Qed.

Lemma conn_get {A} R (f : Connection -> SE session A) s c w :
  conn_ends R (f c) s c w -> conn_ends R (c ← get_connection; f c) s c w.
Proof. intros H. exact H. Qed.

Lemma conn_put {A} R (m : SE session A) s c c1 w : ready c1 = ready c ->
  conn_ends R m s c1 w -> conn_ends R (put_connection c1;; m) s c w.
Proof. unfold conn_ends. intros Hr H. apply ends_bind. unfold put_connection. apply ends_change. rewrite Hr in H. exact H. Qed.

Lemma conn_write {A} R (m : SE session A) e s c w :
  (transport w e = None -> conn_ends R m s c (w ++ [e])) -> conn_ends R (write transport e;; m) s c w.
Proof.
  unfold conn_ends. intros H. apply ends_bind. unfold write. apply ends_bind, ends_get. cbn [wire put_wire set_wire].
  destruct (transport w e) as [ex|] eqn:E.
  - apply ends_throw. split; [by exists w, e|]. by exists c, w.
  - apply ends_change. exact (H eq_refl).
Qed.

Lemma conn_seq {A B} (R : A -> Connection -> Prop) (Q : B -> Connection -> Prop) m (f : A -> SE session B) s c w :
  conn_ends R m s c w ->
  (forall a c' w', ready c' = ready c -> known heldKeys w' c' -> R a c' -> conn_ends Q (f a) s c' w') ->
  conn_ends Q (m ≫= f) s c w.
Proof.
  unfold conn_ends. intros Hm Hf. eapply ends_seq; [exact Hm|]. intros a s' (c' & w' & -> & Hr & Hk & HR).
  specialize (Hf a c' w' Hr Hk HR). by rewrite Hr in Hf.
Qed.

Lemma release_held_ok n s c w : known heldKeys w c -> (length (held c) <= n)%nat ->
  conn_ends (fun _ c' => held c' = [] /\ cn_buttons c' = cn_buttons c) (release_held transport n) s c w.
Proof.
  revert c w. induction n as [|n IH]; intros c w Hk Hn; cbn [release_held].
  - apply conn_ret; [done|]. split; [|done]. destruct (held c); [done|cbn in Hn; lia].
  - apply conn_get. destruct (list.last (held c)) as [h|] eqn:El.
    + apply last_Some in El as [l El]. apply conn_write. intros _.
      rewrite El, removelast_last. apply conn_put; [done|].
      apply (IH (set_held l c)); [by apply known_unwind|]. rewrite El, length_app in Hn. cbn in *. lia.
    + apply conn_ret; [done|]. by apply last_None in El.
Qed.

Definition released (c : Connection) : Prop := held c = [] /\ cn_buttons c = 0.

Lemma releaseInput_ok s c w : known heldKeys w c -> conn_ends (fun _ => released) (releaseInput transport) s c w.
Proof.
  intros Hk. unfold releaseInput. apply conn_get. eapply conn_seq; [by apply release_held_ok|].
  intros _ c' w' Hr Hk' [Hh Hb]. apply conn_get. destruct (Z.eqb_spec (cn_buttons c') 0).
  - by apply conn_ret.
  - apply conn_write. intros _. unfold put_connection. unfold conn_ends. apply ends_change.
    exists (set_pointer (pointerPosition c') 0 c'), (w' ++ [WPointer (pointerPosition c') 0]).
    split; [done|]. split; [done|]. split; [by apply known_pointer|by split].
Qed.

Lemma conn_sendInput_ok command s c w : known heldKeys w c ->
  conn_ends (fun b c' => InputQueue.kind command = InputQueue.ReleaseAll -> b = true /\ released c')
    (conn_sendInput transport heldKeys command) s c w.
Proof.
  intros Hk. unfold conn_sendInput. apply conn_get. destruct (InputQueue.kind command) eqn:Ek.
  - destruct (InputQueue.down command).
    + destruct (find_held _ _) as [h|] eqn:Ef.
      * apply conn_write. intros _. apply conn_ret; [|done]. apply find_held_spec in Ef as [Hh _]. by apply known_press.
      * destruct (Nat.eqb_spec (length (held c)) heldKeys); [by apply conn_ret|].
        apply conn_put; [done|]. apply conn_write. intros _. apply conn_ret; [|done].
        set (h := MkHeld _ _ _). apply (known_press _ _ (set_held (held c ++ [h]) c) h); [by apply known_add|].
        cbn. apply elem_of_app. right. by left.
    + destruct (find_held _ _) as [h|] eqn:Ef; [|by apply conn_ret].
      apply conn_write. intros _. apply conn_put; [done|]. apply conn_ret; [|done]. by apply known_release.
  - apply conn_put; [done|]. apply conn_write. intros _. apply conn_ret; [|done]. by apply known_pointer.
  - eapply conn_seq; [by apply releaseInput_ok|]. intros u c' w' Hr Hk' Hrel. by apply conn_ret.
Qed.

(** ** The calls of the session *)

Definition allowed (e : exn) (s : session) : Prop :=
  thrown e \/ e = overflow_error "Session timer deadline overflow" \/
  e = overflow_error "Input routing revision exhausted" \/
  (e = runtime_error "Session timer queue full" /\ nextId (timers s) = 2 ^ 64 - 1).

Definition fails (e : exn) (s : session) : Prop := allowed e s /\ sound s.

Definition keeps {A} (R : A -> session -> Prop) (m : SE session A) (s : session) : Prop :=
  st_ends m (fun a s' => ok heldKeys s' /\ same s s' /\ R a s') (fun e s' => fails e s' /\ same s s') s.

Lemma keeps_ret {A} (R : A -> session -> Prop) a s : ok heldKeys s -> R a s -> keeps R (mret a) s.
Proof. intros Hs HR. apply ends_ret. done. Qed.

Lemma keeps_get {A} R (f : session -> SE session A) s : keeps R (f s) s -> keeps R (s ← st_get; f s) s.
Proof. intros H. exact H. Qed.

Lemma keeps_seq {A B} (R : A -> session -> Prop) (Q : B -> session -> Prop) m (f : A -> SE session B) s :
  keeps R m s -> (forall a s', ok heldKeys s' -> same s s' -> R a s' -> keeps Q (f a) s') -> keeps Q (m ≫= f) s.
Proof.
  unfold keeps. intros Hm Hf. eapply ends_seq; [exact Hm|]. intros a s' (Hs' & Hsame & HR).
  specialize (Hf a s' Hs' Hsame HR). unfold st_ends in *. destruct (f a s') as [[b|e] s2].
  - destruct Hf as (H1 & H2 & H3). split; [done|]. split; [by transitivity s'|done].
  - destruct Hf as (H1 & H2). split; [done|by transitivity s'].
Qed.

Lemma keeps_change {A} R f (m : SE session A) s : ok heldKeys (f s) -> same s (f s) ->
  keeps R m (f s) -> keeps R (st_change f;; m) s.
Proof.
  intros H1 H2 Hm. eapply (keeps_seq (fun _ s' => s' = f s)); [by split|]. by intros _ s' _ _ ->.
Qed.

Lemma keeps_impl {A} (R Q : A -> session -> Prop) m s : keeps R m s -> (forall a s', ok heldKeys s' -> same s s' -> R a s' -> Q a s') ->
  keeps Q m s.
Proof. intros Hm H. eapply ends_conseq; [exact Hm|]. intros a s' (H1 & H2 & H3). auto. Qed.

Lemma sound_wire c w s : sound s -> sound (put_wire c w s).
Proof. intros [? ? ? ? ?]. by split. Qed.

Lemma same_wire c w s c0 : connection s = Some c0 -> ready c = ready c0 -> same s (put_wire c w s).
Proof. intros Hc Hr. split; try done. cbn. rewrite Hc. cbn. by rewrite Hr. Qed.

Lemma keeps_conn {A} (R : A -> Connection -> Prop) (m : SE session A) s c :
  ok heldKeys s -> connection s = Some c -> conn_ends R m s c (wire s) ->
  keeps (fun a s' => exists c' w', s' = put_wire c' w' s /\ R a c') m s.
Proof.
  intros [Hs Hk] Hc H. unfold conn_ends in H. rewrite put_wire_same in H by done.
  unfold keeps, st_ends in *. destruct (m s) as [[a|e] s'].
  - destruct H as (c' & w' & -> & Hr & Hk' & HR). split; [|split].
    + split; [by apply sound_wire|]. by intros ? [= <-].
    + by apply (same_wire _ _ _ c).
    + by exists c', w'.
  - destruct H as (Ht & c' & w' & -> & Hr). split; [|by apply (same_wire _ _ _ c)].
    split; [by left|by apply sound_wire].
Qed.

(** *** Timers *)

(** No task of the kind of [t]. *)
Definition absent (pointer : bool) (s : session) : Prop :=
  forall t, t ∈ tasks (timers s) -> match callback t with TPointer _ _ => pointer = false | TMiddle _ _ => pointer = true end.

(** What a reset changes: timers, and the state of one kind of input. *)
Record quiet (s s' : session) : Prop := {
  qu_same : same s s';
  qu_connection : connection s' = connection s;
  qu_wire : wire s' = wire s;
  qu_tasks t : t ∈ tasks (timers s') -> t ∈ tasks (timers s)
}.

Lemma quiet_ok s s' : ok heldKeys s -> sound s' -> quiet s s' -> ok heldKeys s'.
Proof. intros [_ Hk] Hs [_ Hc Hw _]. split; [done|]. by rewrite Hc, Hw. Qed.

Lemma quiet_trans s1 s2 s3 : quiet s1 s2 -> quiet s2 s3 -> quiet s1 s3.
Proof. intros [A1 A2 A3 A4] [B1 B2 B3 B4]. split; [by transitivity s2|congruence|congruence|auto]. Qed.

(** Cancelling the timer of one kind removes its task. *)
Lemma cancel_timers_ok s token : sound s ->
  let x := snd (Scheduler.cancel token (timers s)) in
  Scheduler.wf x /\ stopped x = false /\ Scheduler.capacity x = 5%nat /\ nextId x = nextId (timers s) /\
  dispatching x = dispatching (timers s) /\ (forall t, t ∈ tasks x <-> t ∈ tasks (timers s) /\ id t <> token).
Proof.
  intros [_ Hw [Hst Hc] _ _]. cbv zeta. destruct (cancel_wf token _ Hw) as [Hw' _].
  destruct (cancel_spec token (timers s) Hw) as [w E]. rewrite E in *. cbn.
  split; [done|]. split; [done|]. split; [done|]. split; [done|]. split; [done|].
  intros t. rewrite list_elem_of_filter. tauto.
Qed.

Lemma resetPointer_ok s : sound s ->
  st_ends resetPointer (fun _ s' => sound s' /\ quiet s s' /\ absent true s' /\ pointerTimer s' = 0 /\
    lastPointerButtons s' = 0 /\ middleTimer s' = middleTimer s /\ middle s' = middle s /\
    middleRevision s' = middleRevision s) (fun _ _ => False) s.
Proof.
  intros Hs. destruct (cancel_timers_ok s (pointerTimer s) Hs) as (Hw & Hst & Hc & Hn & Hdi & Ht).
  destruct Hs as [Hm _ _ Htok Hmid]. unfold resetPointer, cancel_timer.
  do 4 (apply ends_bind; first [apply ends_get|apply ends_change]). apply ends_change.
  set (x := snd (Scheduler.cancel (pointerTimer s) (timers s))) in *.
  assert (Habs : forall t, t ∈ tasks x -> t ∈ tasks (timers s) /\ match callback t with TPointer _ _ => false | TMiddle _ _ => true end = true).
  { intros t [H1 H2]%Ht. split; [done|]. specialize (Htok t H1). destruct (callback t); [done|done]. }
  split; [split|]; cbn.
  - done.
  - done.
  - done.
  - intros t H. destruct (Habs t H) as [H1 H2]. specialize (Htok t H1). by destruct (callback t).
  - done.
  - split; [split; cbn; try done|].
    + split; try done. cbn. lia.
    + intros t H. by apply Habs.
    + split; [|done]. intros t H. destruct (Habs t H) as [_ H2]. by destruct (callback t).
Qed.

Lemma resetMiddle_ok s : sound s ->
  st_ends resetMiddle (fun _ s' => sound s' /\ quiet s s' /\ absent false s' /\ middleTimer s' = 0 /\
    middle s' = MiddleButton.init_middle /\ middleRevision s' = 0 /\
    pointerTimer s' = pointerTimer s /\ lastPointerButtons s' = lastPointerButtons s) (fun _ _ => False) s.
Proof.
  intros Hs. destruct (cancel_timers_ok s (middleTimer s) Hs) as (Hw & Hst & Hc & Hn & Hdi & Ht).
  destruct Hs as [Hm _ _ Htok Hmid]. unfold resetMiddle, cancel_timer.
  do 4 (apply ends_bind; first [apply ends_get|apply ends_change]). apply ends_change.
  set (x := snd (Scheduler.cancel (middleTimer s) (timers s))) in *.
  assert (Habs : forall t, t ∈ tasks x -> t ∈ tasks (timers s) /\ match callback t with TPointer _ _ => true | TMiddle _ _ => false end = true).
  { intros t [H1 H2]%Ht. split; [done|]. specialize (Htok t H1). destruct (callback t); [done|done]. }
  split; [split|]; cbn.
  - done.
  - done.
  - done.
  - intros t H. destruct (Habs t H) as [H1 H2]. specialize (Htok t H1). by destruct (callback t).
  - apply MiddleButton.init_wf.
  - split; [split; cbn; try done|].
    + split; try done. cbn. lia.
    + intros t H. by apply Habs.
    + split; [|done]. intros t H. destruct (Habs t H) as [_ H2]. by destruct (callback t).
Qed.

Definition set_token (t : timer) (token : Z) : session -> session :=
  match t with TPointer _ _ => set_pointerTimer token | TMiddle _ _ => set_middleTimer token end.

Definition same_kind (t u : timer) : bool :=
  match t, u with TPointer _ _, TPointer _ _ | TMiddle _ _, TMiddle _ _ => true | _, _ => false end.

(** Without a token there is no task of that kind, and one task at most. *)
Lemma no_token s t : sound s -> token_of s t = 0 ->
  (forall u, u ∈ tasks (timers s) -> same_kind t (callback u) = false) /\ (length (tasks (timers s)) <= 1)%nat.
Proof.
  intros [_ Hw _ Htok _] H0. pose proof (Scheduler.wf_range _ Hw) as Hr. rewrite List.Forall_forall in Hr.
  assert (Ha : forall u, u ∈ tasks (timers s) -> same_kind t (callback u) = false).
  { intros u Hu. specialize (Htok u Hu). apply list_elem_of_In, Hr in Hu.
    destruct t, (callback u); cbn in *; [lia|done|done|lia]. }
  split; [done|].
  apply (same_id_length _ (match t with TPointer _ _ => middleTimer s | TMiddle _ _ => pointerTimer s end));
    [apply Hw|]. intros u Hu. specialize (Ha u Hu). rewrite (Htok u Hu). by destruct t, (callback u).
Qed.

Lemma add_timer_ok interval t s : ok heldKeys s -> token_of s t = 0 ->
  keeps (fun _ s' => connection s' = connection s)
    (d ← deadlineAfter interval; token ← schedule d t; st_change (set_token t token);;
     if token =? 0 then st_throw (runtime_error "Session timer queue full") else mret tt) s.
Proof.
  intros [Hs Hk] H0. destruct (no_token s t Hs H0) as [Ha Hl].
  apply ends_bind. unfold deadlineAfter. apply ends_bind, ends_get. case_test.
  { apply ends_throw. split; [|done]. split; [|done]. right. by left. }
  apply ends_ret, ends_bind. unfold schedule, st_ends. destruct Hs as [Hm Hw [Hst Hc] Htok Hmid].
  destruct (Scheduler.scheduleAt _ (Some t) (timers s)) as [[token x]|e] eqn:E.
  2: { unfold Scheduler.scheduleAt in E. by destruct (_ || _). }
  destruct (scheduleAt_wf _ _ _ _ _ Hw E) as [Hw' _].
  destruct (scheduleAt_room _ _ _ _ _ Hw Hst ltac:(lia) E) as
    [(-> & -> & Hn)|(-> & Hne & Ht & Hn & Hc' & Hst' & Hdi)]; cbn [Z.eqb].
  - apply ends_bind, ends_change. replace (set_timers (timers s) s) with s by by destruct s.
    apply ends_throw. split; [|by destruct t; split; cbn; try done; lia]. split; [by destruct t; right; right; right|].
    split; destruct t; cbn; try done; intros u Hu; specialize (Ha u Hu); specialize (Htok u Hu);
      destruct (callback u); done.
  - apply ends_bind, ends_change. rewrite (proj2 (Z.eqb_neq _ _) Hne). apply ends_ret.
    assert (sound (set_token t (nextId (timers s) + 1) (set_timers x s))) as Hs'.
    { split; destruct t; cbn; try done; try (split; congruence).
      all: rewrite Ht; intros u [Hu| ->%list_elem_of_singleton]%elem_of_app; [|done];
        specialize (Ha u Hu); specialize (Htok u Hu); by destruct (callback u). }
    split; [split; [done|by destruct t]|]. split; [|by destruct t]. destruct t; split; cbn; try done; lia.
Qed.

Lemma live_same s s' c : connection s = Some c -> same s s' -> exists c', connection s' = Some c'.
Proof. intros Hc [_ _ _ _ Hr _ _]. rewrite Hc in Hr. destruct (connection s'); [by eexists|done]. Qed.

Lemma conn_sendInput_keeps command s c : ok heldKeys s -> connection s = Some c ->
  keeps (fun b s' => exists c' w', s' = put_wire c' w' s /\
           (InputQueue.kind command = InputQueue.ReleaseAll -> b = true /\ released c'))
    (conn_sendInput transport heldKeys command) s.
Proof. intros Hs Hc. apply (keeps_conn _ _ s c Hs Hc), conn_sendInput_ok. by apply Hs. Qed.

(** The connection's call, its result dropped. *)
Lemma conn_sendInput_drop command s c : ok heldKeys s -> connection s = Some c ->
  keeps (fun _ s' => timers s' = timers s /\ middle s' = middle s)
    (conn_sendInput transport heldKeys command;; mret tt) s.
Proof.
  intros Hs Hc. eapply keeps_seq; [by apply (conn_sendInput_keeps _ _ c)|].
  intros b s' Hs' _ (c' & w' & -> & _). by apply keeps_ret.
Qed.

Lemma keeps_sure {A} (Q : A -> session -> Prop) (m : SE session A) s :
  st_ends m Q (fun _ _ => False) s -> (forall a s', Q a s' -> ok heldKeys s' /\ same s s') -> keeps Q m s.
Proof.
  unfold keeps, st_ends. intros Hm H. destruct (m s) as [[a|e] s']; [|done].
  destruct (H a s' Hm). done.
Qed.

Lemma resetPointer_keeps s : ok heldKeys s ->
  keeps (fun _ s' => quiet s s' /\ absent true s' /\ pointerTimer s' = 0 /\ middle s' = middle s /\ middleTimer s' = middleTimer s)
    resetPointer s.
Proof.
  intros Hs. eapply keeps_impl; [apply keeps_sure; [by apply resetPointer_ok, Hs|]|].
  - intros _ s' (H1 & H2 & _). split; [by apply (quiet_ok s)|apply H2].
  - intros _ s' _ _ (H1 & H2 & H3 & H4 & H5 & H6 & H7 & _). done.
Qed.

Lemma resetMiddle_keeps s : ok heldKeys s ->
  keeps (fun _ s' => quiet s s' /\ absent false s' /\ middle s' = MiddleButton.init_middle) resetMiddle s.
Proof.
  intros Hs. eapply keeps_impl; [apply keeps_sure; [by apply resetMiddle_ok, Hs|]|].
  - intros _ s' (H1 & H2 & _). split; [by apply (quiet_ok s)|apply H2].
  - intros _ s' _ _ (H1 & H2 & H3 & H4 & H5 & _). done.
Qed.

(** Cancelling the timer of one kind alone. *)
Lemma cancel_token_keeps {A} t (R : A -> session -> Prop) (m : SE session A) s : ok heldKeys s ->
  (forall s', ok heldKeys s' -> quiet s s' -> token_of s' t = 0 -> middle s' = middle s -> keeps R m s') ->
  keeps R (cancel_timer (token_of s t);; st_change (set_token t 0);; m) s.
Proof.
  intros Hs Hm. pose proof (cancel_timers_ok s (token_of s t) (proj1 Hs)) as (Hw & Hst & Hc & Hn & Hdi & Ht).
  set (x := snd (Scheduler.cancel (token_of s t) (timers s))) in *. set (s1 := set_token t 0 (set_timers x s)).
  assert (quiet s s1) as Hq.
  { unfold s1. destruct t; (split; cbn; try done; [split; cbn; try done; lia|by intros u [H _]%Ht]). }
  assert (ok heldKeys s1) as H1.
  { apply (quiet_ok s); [done| |done]. destruct Hs as [[Hm0 _ _ Htok Hmid] _]. unfold s1.
    split; destruct t; cbn; try done; intros u [H1 H2]%Ht; specialize (Htok u H1); by destruct (callback u). }
  specialize (Hm s1 H1 Hq ltac:(by destruct t) ltac:(by destruct t)). unfold cancel_timer.
  apply ends_bind, ends_change, ends_bind, ends_change. pose proof (qu_same _ _ Hq) as Hsm.
  eapply ends_conseq_throw; [eapply ends_conseq; [exact Hm|]|].
  - intros a s' (A1 & A2 & A3). split; [done|]. split; [by transitivity s1|done].
  - intros e s' (A1 & A2). split; [done|by transitivity s1].
Qed.

(** *** On the way to the server *)

Lemma flushPointer_keeps s : ok heldKeys s -> keeps (fun _ _ => True) (flushPointer transport heldKeys) s.
Proof.
  intros Hs. unfold flushPointer. apply keeps_get. destruct (pointerTimer s =? 0); [by apply keeps_ret|].
  apply (cancel_token_keeps (TPointer 0 0)); [done|]. intros s1 H1 _ _ _. apply keeps_get.
  destruct (connection s1) as [c|] eqn:Ec.
  - destruct (negb _).
    + eapply keeps_impl; [by apply resetPointer_keeps|done].
    + eapply keeps_impl; [by apply (conn_sendInput_drop _ _ c)|done].
  - unfold current. rewrite Ec. cbn [negb]. eapply keeps_impl; [by apply resetPointer_keeps|done].
Qed.

(** Fields that no invariant speaks of. *)
Lemma set_field_ok f s : ok heldKeys s -> (sound s -> sound (f s)) ->
  connection (f s) = connection s -> wire (f s) = wire s -> ok heldKeys (f s).
Proof. intros [H1 H2] Hf Hc Hw. split; [by apply Hf|]. by rewrite Hc, Hw. Qed.

Ltac plain_field := apply set_field_ok; [done|by intros [? ? ? ? ?]; split|done|done].

Lemma sendPointer_keeps command s c : ok heldKeys s -> connection s = Some c ->
  keeps (fun _ _ => True) (sendPointer transport heldKeys pointerEventInterval command) s.
Proof.
  intros Hs Hc. unfold sendPointer. set (s1 := set_pendingPointer command s).
  assert (ok heldKeys s1) as H1 by plain_field.
  apply keeps_change; [done|by split|]. fold s1. apply keeps_get.
  eapply (keeps_seq (fun _ _ => True)).
  - destruct (_ || _).
    + eapply keeps_impl; [by apply (conn_sendInput_drop _ _ c)|done].
    + destruct (Z.eqb_spec (pointerTimer s1) 0) as [E|E]; [|by apply keeps_ret].
      eapply keeps_impl; [|done].
      exact (add_timer_ok (milliseconds pointerEventInterval) (TPointer (sgeneration s1) (middleRevision s1)) s1 H1 E).
  - intros _ s2 H2 _ _. apply ends_change. split; [plain_field|]. split; [by split|done].
Qed.

Lemma sendMiddleBatch_keeps events s c : ok heldKeys s -> connection s = Some c ->
  keeps (fun _ _ => True) (sendMiddleBatch transport heldKeys pointerEventInterval events) s.
Proof.
  revert s c. induction events as [|e events IH]; intros s c Hs Hc; cbn [sendMiddleBatch]; [by apply keeps_ret|].
  eapply keeps_seq; [by apply (sendPointer_keeps _ _ c)|]. intros _ s1 H1 Hsm _.
  destruct (live_same _ _ _ Hc Hsm) as [c1 Hc1]. by apply (IH s1 c1).
Qed.

Lemma on_middle_keeps r b m s : ok heldKeys s -> r = Some (b, m) -> MiddleButton.wf m ->
  keeps (fun x _ => x = b) (on_middle r) s.
Proof.
  intros Hs -> Hm. unfold on_middle. apply ends_bind, ends_change, ends_ret.
  split; [apply set_field_ok; [done|intros [? ? ? ? ?]; by split|done|done]|]. split; [by split|done].
Qed.

(** What a release leaves: nothing held, nothing delayed. *)
Definition clean (s : session) : Prop :=
  tasks (timers s) = [] /\ middle s = MiddleButton.init_middle /\
  (exists c, connection s = Some c /\ released c) /\
  server_buttons (wire s) = 0 /\ forall k, server_key k (wire s) = false.

Lemma released_wire s c : ok heldKeys s -> connection s = Some c -> released c ->
  server_buttons (wire s) = 0 /\ forall k, server_key k (wire s) = false.
Proof.
  intros [_ Hk] Hc [Hh Hb]. destruct (Hk c Hc) as [K1 K2 _ _]. split; [by rewrite K1|].
  intros k. destruct (server_key k (wire s)) eqn:E; [|done]. apply K2 in E. rewrite Hh in E.
  by apply not_elem_of_nil in E.
Qed.

Lemma absent_both s : absent true s -> absent false s -> tasks (timers s) = [].
Proof.
  intros H1 H2. apply elem_of_nil_inv. intros t Ht. specialize (H1 t Ht). specialize (H2 t Ht).
  by destruct (callback t).
Qed.

(** The resets in front of a release or a new route. *)
Lemma reroute_keeps s revision : ok heldKeys s ->
  keeps (fun _ s' => tasks (timers s') = [] /\ middle s' = MiddleButton.init_middle /\ connection s' = connection s)
    (resetPointer;; resetMiddle;; st_change (set_middleRevision revision)) s.
Proof.
  intros Hs. eapply keeps_seq; [by apply resetPointer_keeps|]. intros u s1 H1 _ (Hq1 & Ha1 & _).
  eapply keeps_seq; [by apply resetMiddle_keeps|]. intros u2 s2 H2 _ (Hq2 & Ha2 & Hm2).
  apply ends_change. split; [plain_field|]. split; [by split|]. cbn. split; [|split; [done|]].
  - apply absent_both; [|done]. intros t Ht. apply Ha1. by apply (qu_tasks _ _ Hq2).
  - by rewrite (qu_connection _ _ Hq2), (qu_connection _ _ Hq1).
Qed.

Lemma sendInput_keeps command s c : ok heldKeys s -> connection s = Some c ->
  keeps (fun b s' => InputQueue.kind command = InputQueue.ReleaseAll -> b = true /\ clean s')
    (sendInput transport heldKeys pointerEventInterval command) s.
Proof.
  intros Hs Hc. unfold sendInput. apply keeps_get.
  apply (keeps_seq (fun _ s' => (exists c', connection s' = Some c') /\
    (InputQueue.kind command = InputQueue.ReleaseAll -> tasks (timers s') = [] /\ middle s' = MiddleButton.init_middle))).
  { destruct (_ || _) eqn:E.
    - eapply keeps_impl; [by apply reroute_keeps|]. intros u s' _ _ (H1 & H2 & H3). split; [|done].
      exists c. by rewrite H3.
    - apply keeps_ret; [done|]. split; [by exists c|]. intros Hk. apply orb_false_iff in E as [_ E].
      by rewrite bool_decide_eq_false in E. }
  intros _ s1 H1 _ [[c1 Hc1] Hrel]. destruct (negb _) eqn:Ek.
  - apply (keeps_seq (fun _ s' => (exists c', connection s' = Some c') /\
      (InputQueue.kind command = InputQueue.ReleaseAll -> tasks (timers s') = [] /\ middle s' = MiddleButton.init_middle))).
    { destruct (bool_decide (InputQueue.kind command = InputQueue.Key)) eqn:Hkey.
      2: { apply keeps_ret; [done|]. split; [by exists c1|done]. }
      apply bool_decide_eq_true in Hkey.
      eapply keeps_impl; [by apply flushPointer_keeps|]. intros u s' _ Hsm _.
      split; [by apply (live_same _ _ _ Hc1)|]. by rewrite Hkey. }
    intros _ s2 H2 _ [[c2 Hc2] Hrel2]. eapply keeps_impl; [by apply (conn_sendInput_keeps _ _ c2)|].
    intros b s' Hs' _ (c' & w' & -> & Hb) Hk. destruct (Hb Hk) as [-> Hr]. destruct (Hrel2 Hk) as [H3 H4].
    split; [done|]. split; [done|]. split; [done|]. split; [by exists c'|].
    by apply (released_wire _ c' Hs').
  - apply negb_false_iff, bool_decide_eq_true in Ek.
    apply (keeps_impl (fun _ _ => True)); [|intros b s' _ _ _ Hk; by rewrite Hk in Ek].
    destruct (negb (InputQueue.cemulateMiddle command)).
    { eapply keeps_seq; [by apply (sendPointer_keeps _ _ c1)|]. intros u s2 H2 _ _. by apply keeps_ret. }
    apply keeps_get.
    destruct (MiddleButton.pointer_step (middle s1) (MkPoint (InputQueue.cx command) (InputQueue.cy command))
      (InputQueue.cbuttons command) (so_middle _ (proj1 H1))) as (b & m & E & Hok).
    eapply keeps_seq; [by apply (on_middle_keeps _ b m); [done|exact E|apply Hok]|].
    intros b' s2 H2 Hsm2 ->. destruct (live_same _ _ _ Hc1 Hsm2) as [c2 Hc2].
    eapply keeps_seq; [by apply (sendMiddleBatch_keeps _ _ c2)|]. intros u s3 H3 _ _.
    apply (keeps_seq (fun _ _ => True)); [|by intros; apply keeps_ret].
    destruct (MiddleButton.timerChanged b); [|by apply keeps_ret]. apply keeps_get.
    apply (cancel_token_keeps (TMiddle 0 0)); [done|]. intros s4 H4 _ H0 Hm4.
    destruct (MiddleButton.pending _); [|by apply keeps_ret].
    eapply keeps_impl; [|done].
    exact (add_timer_ok (milliseconds 50) (TMiddle (sgeneration s3) (middleRevision s3)) s4 H4 H0).
Qed.

(** *** The callbacks *)

Lemma fire_keeps t s : ok heldKeys s -> (forall u, u ∈ tasks (timers s) -> same_kind t (callback u) = false) ->
  keeps (fun _ _ => True) (fire transport heldKeys pointerEventInterval t) s.
Proof.
  intros Hs Ha. set (s1 := set_token t 0 s).
  assert (ok heldKeys s1) as H1.
  { destruct Hs as [[? ? ? Htok ?] Hk]. split; [|by destruct t].
    split; destruct t; try done; cbn; intros u Hu; specialize (Ha u Hu); specialize (Htok u Hu);
      by destruct (callback u). }
  assert (same s s1) as Hsm1 by (by destruct t; split).
  destruct t as [gen revision|gen revision]; cbn [fire]; apply (keeps_change _ _ _ s H1 Hsm1);
    apply keeps_get; fold s1.
  1: change (set_pointerTimer 0 s) with s1. 2: change (set_middleTimer 0 s) with s1.
  all: destruct (connection s1) as [c|] eqn:Ec; [|unfold current; rewrite Ec; cbn [negb andb]].
  - destruct (negb _); [eapply keeps_impl; [by apply resetPointer_keeps|done]|].
    eapply keeps_impl; [by apply (conn_sendInput_drop _ _ c)|done].
  - eapply keeps_impl; [by apply resetPointer_keeps|done].
  - destruct (negb _); [eapply keeps_impl; [by apply resetMiddle_keeps|done]|].
    destruct (MiddleButton.expire_step (middle s1) (so_middle _ (proj1 H1))) as (b & m & E & Hok).
    eapply keeps_seq; [by apply (on_middle_keeps _ b m); [done|exact E|apply Hok]|].
    intros b' s2 H2 Hsm ->. destruct (live_same _ _ _ Ec Hsm) as [c2 Hc2]. by apply (sendMiddleBatch_keeps _ _ c2).
  - eapply keeps_impl; [by apply resetMiddle_keeps|done].
Qed.

(** *** Closing *)

Lemma put_wire_sound_next c w s : sound s -> sound (put_wire c w s) /\ nextId (timers (put_wire c w s)) = nextId (timers s).
Proof. intros H. split; [by apply sound_wire|done]. Qed.

(** Releasing, from any state and whether writes throw or not, changes only the
    connection and the wire. *)
Lemma release_held_only n s c : connection s = Some c ->
  exists c' w', snd (release_held transport n s) = put_wire c' w' s.
Proof.
  revert s c. induction n as [|n IH]; intros s c Hc; cbn [release_held].
  { exists c, (wire s). by rewrite put_wire_same. }
  unfold get_connection, write, put_connection, mbind, SE_bind, st_get, st_throw, st_change, mret, SE_ret.
  rewrite Hc. destruct (list.last (held c)) as [h|]; [|exists c, (wire s); by rewrite put_wire_same].
  cbn [wire]. destruct (transport (wire s) (WKey (hk_symbol h) (hk_code h) false)) as [ex|]; [exists c, (wire s); by rewrite put_wire_same|].
  destruct (IH (put_wire (set_held (removelast (held c)) c) (wire s ++ [WKey (hk_symbol h) (hk_code h) false]) s) _ eq_refl)
    as (c' & w' & E).
  exists c', w'. exact E.
Qed.

Lemma releaseInput_only s c : connection s = Some c ->
  exists c' w', snd (releaseInput transport s) = put_wire c' w' s.
Proof.
  intros Hc. destruct (release_held_only (length (held c)) s c Hc) as (c1 & w1 & E).
  unfold releaseInput, get_connection, write, put_connection, mbind, SE_bind, st_get, st_throw, st_change, mret, SE_ret.
  rewrite Hc. destruct (release_held transport (length (held c)) s) as [[u|e] s1]; cbn in E; subst s1; [|by exists c1, w1].
  change (connection (put_wire c1 w1 s)) with (Some c1). cbv beta iota. destruct (cn_buttons c1 =? 0); [by exists c1, w1|].
  change (wire (put_wire c1 w1 s)) with w1.
  destruct (transport w1 (WPointer (pointerPosition c1) 0)) as [ex|]; [by exists c1, w1|].
  by exists (set_pointer (pointerPosition c1) 0 c1), (w1 ++ [WPointer (pointerPosition c1) 0]).
Qed.

Definition closed (s s' : session) : Prop :=
  sound s' /\ connection s' = None /\ processing s' = false /\ nextId (timers s) <= nextId (timers s') /\
  dispatching (timers s') = dispatching (timers s) /\
  InputQueue.capacity (mailbox s') = InputQueue.capacity (mailbox s).

Lemma set_mailbox_sound x s : InputQueue.wf x -> sound s -> sound (set_mailbox x s).
Proof. intros Hx [? ? ? ? ?]. by split. Qed.

Lemma cancelAll_sound s : sound s -> sound (set_timers (Scheduler.cancelAll (timers s)) s).
Proof.
  intros [H1 H2 [H3 H4] H5 H6]. destruct (cancelAll_wf _ H2) as [Hw _].
  split; try done. by intros t ?%not_elem_of_nil.
Qed.

Lemma finish_ok s : sound s -> processing s = false ->
  st_ends (finish transport) (fun _ s' => closed s s') (fun _ _ => False) s.
Proof.
  intros Hs Hp. unfold finish. apply ends_bind, ends_get. rewrite Hp.
  eapply ends_seq; [by apply resetPointer_ok|]. intros _ s1 (H1 & Q1 & _ & _).
  eapply ends_seq; [by apply resetMiddle_ok|]. intros _ s2 (H2 & Q2 & _ & _).
  apply ends_bind, ends_change, ends_bind, ends_get.
  pose proof (cancelAll_sound _ H2) as H3. set (s3 := set_timers _ s2) in *.
  assert (processing s3 = false /\ nextId (timers s) <= nextId (timers s3) /\
    dispatching (timers s3) = dispatching (timers s) /\ mailbox s3 = mailbox s) as (Hp3 & Hn3 & Hd3 & Hm3).
  { pose proof (qu_same _ _ Q1) as [A1 _ A3 _ _ A6 A7]. pose proof (qu_same _ _ Q2) as [B1 _ B3 _ _ B6 B7].
    split; [change (processing s3) with (processing s2); congruence|].
    split; [change (nextId (timers s3)) with (nextId (timers s2)); lia|].
    change (mailbox s3) with (mailbox s2). change (dispatching (timers s3)) with (dispatching (timers s2)).
    split; congruence. }
  destruct (connection s3) as [c|] eqn:Ec; [|apply ends_ret; split; [done|by rewrite Hm3]].
  apply ends_bind. unfold on_mailbox, st_ends at 1.
  destruct (InputQueue.end_attempt (sgeneration s3 + 1) (mailbox s3)) as [[u|e] x] eqn:Ex; [|done].
  assert (InputQueue.capacity x = InputQueue.capacity (mailbox s)) as Hcx.
  { rewrite <- Hm3. change x with (snd (Ok u, x)). rewrite <- Ex.
    exact (InputQueue.step_capacity (InputQueue.OEnd (sgeneration s3 + 1)) (mailbox s3)). }
  assert (InputQueue.wf x) as Hx.
  { change x with (snd (Ok u, x)). rewrite <- Ex.
    pose proof (InputQueue.step_wf (InputQueue.OEnd (sgeneration s3 + 1)) (mailbox s3) (so_mailbox _ H3)) as Hw. exact Hw. }
  pose proof (set_mailbox_sound x s3 Hx H3) as H4. set (s4 := set_mailbox x s3) in *.
  eapply (ends_seq _ _ _ (fun _ s' => exists c' w', s' = put_wire c' w' s4)).
  - destruct (ready c); [|by apply ends_ret; exists c, (wire s4); rewrite put_wire_same].
    unfold ignore, st_ends. by apply (releaseInput_only s4 c).
  - intros _ s5 (c' & w' & ->). apply ends_bind, ends_change, ends_change.
    destruct H4 as [? ? ? ? ?]. by split.
Qed.

(** *** The worker's calls *)

Record steady (s s' : session) : Prop := {
  st_processing : processing s' = processing s;
  st_dispatching : dispatching (timers s') = dispatching (timers s);
  st_capacity : InputQueue.capacity (mailbox s') = InputQueue.capacity (mailbox s)
}.

#[export] Instance steady_preorder : PreOrder steady.
Proof. split; [by split|]. intros s1 s2 s3 [A1 A2 A3] [B1 B2 B3]. split; congruence. Qed.

(** A call that returns leaves the session in order; one that throws, sound. *)
Definition outcome {A} (R : A -> session -> Prop) (m : SE session A) (s : session) : Prop :=
  st_ends m
    (fun a s' => ok heldKeys s' /\ steady s s' /\ (ready <$> connection s') = (ready <$> connection s) /\ R a s')
    (fun e s' => fails e s' /\ steady s s') s.

Lemma keeps_outcome {A} (R : A -> session -> Prop) m s : keeps R m s -> outcome R m s.
Proof.
  intros Hm. eapply ends_conseq_throw; [eapply ends_conseq; [exact Hm|]|].
  - intros a s' (H1 & [Hb _ Hp _ Hr _ Hd] & H3). split; [done|]. split; [split; congruence|done].
  - intros e s' (H1 & [Hb _ Hp _ _ _ Hd]). split; [done|]. split; congruence.
Qed.

Lemma outcome_seq {A B} (R : A -> session -> Prop) (Q : B -> session -> Prop) m (f : A -> SE session B) s :
  outcome R m s ->
  (forall a s', ok heldKeys s' -> (ready <$> connection s') = (ready <$> connection s) -> R a s' -> outcome Q (f a) s') ->
  outcome Q (m ≫= f) s.
Proof.
  intros Hm Hf. eapply ends_seq; [exact Hm|]. intros a s' (H1 & H2 & H3 & H4). specialize (Hf a s' H1 H3 H4).
  unfold outcome, st_ends in *. destruct (f a s') as [[b|e] s2].
  - destruct Hf as (F1 & F2 & F3 & F4). split; [done|]. split; [by transitivity s'|]. split; [congruence|done].
  - destruct Hf as (F1 & F2). split; [done|by transitivity s'].
Qed.

Lemma set_mailbox_ok x s : InputQueue.wf x -> ok heldKeys s -> ok heldKeys (set_mailbox x s).
Proof. intros Hx [H1 H2]. split; [by apply set_mailbox_sound|done]. Qed.

Lemma interrupt_ok ops s : ok heldKeys s -> outcome (fun _ _ => True) (interrupt ops) s.
Proof.
  intros Hs. apply ends_change. assert (InputQueue.wf (mailbox s)) as Hw by apply Hs.
  set (x := fold_left _ ops (mailbox s)).
  assert (InputQueue.wf x /\ InputQueue.capacity x = InputQueue.capacity (mailbox s)) as [Hx Hc].
  { unfold x. clear x. revert Hw. generalize (mailbox s).
    induction ops as [|o ops IH]; intros x Hx; [done|]. cbn.
    destruct (IH _ (InputQueue.step_wf o x Hx)) as [H1 H2]. by rewrite InputQueue.step_capacity in H2. }
  split; [by apply set_mailbox_ok|]. by split.
Qed.

(** Taking never throws. *)
Lemma take_ok s : ok heldKeys s ->
  exists c x, on_mailbox InputQueue.take_command s = (Ok c, set_mailbox x s) /\
    InputQueue.take_command (mailbox s) = (Ok c, x) /\ InputQueue.wf x /\
    InputQueue.capacity x = InputQueue.capacity (mailbox s).
Proof.
  intros Hs. unfold on_mailbox. pose proof (so_mailbox _ (proj1 Hs)) as Hm.
  pose proof (InputQueue.step_wf InputQueue.OTake (mailbox s) Hm) as Hw.
  pose proof (InputQueue.take_cases _ Hm) as Ht.
  pose proof (InputQueue.step_capacity InputQueue.OTake (mailbox s)) as Hc.
  cbn [InputQueue.step] in Hw, Hc. unfold fmap, SE_fmap in Hw, Hc.
  by destruct (InputQueue.take_command (mailbox s)) as [[c|e] x]; [exists c, x|].
Qed.

(** The mailbox's overflow closes it, or throws. *)
Lemma overflow_cases x : InputQueue.wf x ->
  match InputQueue.overflow x with
  | (Ok _, x') => InputQueue.wf x' /\ InputQueue.capacity x' = InputQueue.capacity x /\ InputQueue.queue x' = [] /\ InputQueue.focused (InputQueue.status x') = false
  | (Throw e, x') => e = overflow_error "Input routing revision exhausted" /\ x' = x
  end.
Proof.
  intros Hw. pose proof (InputQueue.step_wf InputQueue.OOverflow x Hw) as Hw'.
  pose proof (InputQueue.step_capacity InputQueue.OOverflow x) as Hc. cbn [InputQueue.step] in Hw', Hc.
  unfold mbind, SE_bind, mret, SE_ret in Hw', Hc. destruct (InputQueue.overflow x) as [[u|e] x'] eqn:E.
  - split; [done|]. split; [done|]. revert E. unfold InputQueue.overflow, InputQueue.reroute, InputQueue.release, InputQueue.status_change,
      mbind, SE_bind, st_get, st_change, st_throw. case_test; [done|]. by intros [= _ <-].
  - revert E. unfold InputQueue.overflow, InputQueue.reroute, InputQueue.release, InputQueue.status_change,
      mbind, SE_bind, st_get, st_change, st_throw. case_test; [|done]. by intros [= <- <-].
Qed.

#[local] Abbreviation Drain := (drain_loop transport heldKeys pointerEventInterval).

Lemma on_mailbox_eq {A} (m : SE InputQueue.Impl A) s r x :
  m (mailbox s) = (r, x) -> on_mailbox m s = (r, set_mailbox x s).
Proof. intros E. unfold on_mailbox. by rewrite E. Qed.

Lemma set_mailbox_same s : set_mailbox (mailbox s) s = s.
Proof. by destruct s. Qed.

Lemma overflow_ok s : ok heldKeys s ->
  outcome (fun _ s' => InputQueue.queue (mailbox s') = [] /\ InputQueue.focused (InputQueue.status (mailbox s')) = false)
    (on_mailbox InputQueue.overflow) s.
Proof.
  intros Hs. pose proof (overflow_cases _ (so_mailbox _ (proj1 Hs))) as Ho. unfold outcome, st_ends.
  destruct (InputQueue.overflow (mailbox s)) as [r x] eqn:E. rewrite (on_mailbox_eq _ _ _ _ E).
  destruct r as [u|e]; destruct Ho as [Hx Hq].
  - destruct Hq as [Hc Hq]. split; [by apply set_mailbox_ok|]. split; [by split|]. done.
  - subst x e. rewrite set_mailbox_same. split; [|done]. split; [right; right; by left|apply Hs].
Qed.

(** The end of a drain whose key did not fit. *)
Lemma refused_ok s c : ok heldKeys s -> connection s = Some c ->
  outcome (fun b s' => b = false /\ InputQueue.queue (mailbox s') = [] /\
      InputQueue.focused (InputQueue.status (mailbox s')) = false /\
      server_buttons (wire s') = 0 /\ forall k, server_key k (wire s') = false)
    (on_mailbox InputQueue.overflow;; resetPointer;; resetMiddle;; releaseInput transport;; mret false) s.
Proof.
  intros Hs Hc. eapply outcome_seq; [by apply overflow_ok|]. intros u s1 H1 Hr1 [Hq Hf].
  assert (exists c1, connection s1 = Some c1) as [c1 Hc1].
  { rewrite Hc in Hr1. destruct (connection s1); [by eexists|done]. }
  apply keeps_outcome. eapply keeps_seq; [by apply resetPointer_keeps|].
  intros u1 s2 H2 Hsm2 (Q2 & _). eapply keeps_seq; [by apply resetMiddle_keeps|].
  intros u2 s3 H3 Hsm3 (Q3 & _).
  assert (connection s3 = Some c1) as Hc3 by (by rewrite (qu_connection _ _ Q3), (qu_connection _ _ Q2)).
  eapply keeps_seq; [apply (keeps_conn (fun _ => released) _ s3 c1 H3 Hc3), releaseInput_ok, H3; done|].
  intros u3 s4 H4 _ (c' & w' & -> & Hr). apply keeps_ret; [done|].
  pose proof (released_wire _ c' H4 eq_refl Hr) as [Hw1 Hw2].
  split; [done|]. change (mailbox (put_wire c' w' s3)) with (mailbox s3).
  rewrite (sm_mailbox _ _ Hsm3), (sm_mailbox _ _ Hsm2). done.
Qed.

Lemma drain_loop_ok n intr s c : ok heldKeys s -> connection s = Some c ->
  outcome (fun _ _ => True) (Drain n intr) s.
Proof.
  revert intr s c. induction n as [|n IH]; intros intr s c Hs Hc; cbn [drain_loop].
  { apply keeps_outcome. by apply keeps_ret. }
  destruct (take_ok s Hs) as (cmd & x & E & _ & Hx & Hcx).
  apply (outcome_seq (fun a s' => True)).
  { unfold outcome, st_ends. rewrite E. split; [by apply set_mailbox_ok|]. by split; [by split|]. }
  intros command s1 H1 Hr1 _. destruct command as [command|]; [|by apply keeps_outcome, keeps_ret].
  eapply outcome_seq; [by apply interrupt_ok|]. intros _ s2 H2 Hr2 _.
  assert (exists c2, connection s2 = Some c2) as [c2 Hc2].
  { rewrite Hr1, Hc in Hr2. destruct (connection s2); [by eexists|done]. }
  eapply outcome_seq; [by apply keeps_outcome, (sendInput_keeps command s2 c2)|].
  intros b s3 H3 Hr3 _.
  assert (exists c3, connection s3 = Some c3) as [c3 Hc3].
  { rewrite Hc2 in Hr3. destruct (connection s3); [by eexists|done]. }
  destruct b; [by apply (IH _ s3 c3)|].
  eapply ends_conseq; [by apply (refused_ok s3 c3)|]. intros b s' (A1 & A2 & A3 & _). done.
Qed.

(** With an exception the session is closed. *)
Lemma guarded_ok {A} (R : A -> session -> Prop) m s : ok heldKeys s -> processing s = false ->
  outcome R m (set_processing true s) ->
  st_ends (guarded transport m)
    (fun a s' => ok heldKeys s' /\ processing s' = false /\ dispatching (timers s') = dispatching (timers s) /\
      InputQueue.capacity (mailbox s') = InputQueue.capacity (mailbox s) /\ exists s2, R a s2 /\ s' = set_processing false s2)
    (fun e s' => allowed e s' /\ sound s' /\ connection s' = None /\ processing s' = false /\
      dispatching (timers s') = dispatching (timers s) /\
      InputQueue.capacity (mailbox s') = InputQueue.capacity (mailbox s)) s.
Proof.
  intros Hs Hp Hm. unfold guarded. apply ends_catch, ends_bind, ends_change.
  apply ends_bind. unfold outcome in Hm.
  eapply ends_conseq_throw; [eapply ends_conseq; [exact Hm|]|].
  - intros a s1 (H1 & [_ Hd Hc] & _ & HR). apply ends_bind, ends_change, ends_ret.
    split; [plain_field|]. split; [done|]. split; [exact Hd|]. split; [exact Hc|by exists s1].
  - intros e s1 [[Ha H1] [_ Hd Hc]]. apply ends_bind, ends_change.
    assert (sound (set_processing false s1)) as H2 by (destruct H1 as [? ? ? ? ?]; by split).
    eapply ends_conseq_throw; [eapply ends_conseq; [by apply finish_ok|]|done].
    intros u s2 (F1 & F2 & F3 & F4 & F5 & F6).
    change (dispatching (timers (set_processing false s1))) with (dispatching (timers s1)) in F5.
    change (mailbox (set_processing false s1)) with (mailbox s1) in F6.
    change (dispatching (timers s1) = dispatching (timers s)) in Hd.
    change (InputQueue.capacity (mailbox s1) = InputQueue.capacity (mailbox s)) in Hc.
    rewrite F5, F6. split; [|done]. change (nextId (timers s1) <= nextId (timers s2)) in F4.
    pose proof (Scheduler.wf_next _ (so_timers _ F1)) as Hn.
    destruct Ha as [Ha|[Ha|[Ha|[Ha Hmax]]]]; [by left|right; by left|right; right; by left|].
    right; right; right. split; [done|lia].
Qed.

(** Taking a task away leaves no task of its kind. *)
Lemma take_task_ok i t s : ok heldKeys s -> Scheduler.earliest (tasks (timers s)) = Some (i, t) ->
  let s1 := set_timers (Scheduler.set_tasks (delete i (tasks (timers s))) (timers s)) s in
  ok heldKeys s1 /\ same s s1 /\ forall u, u ∈ tasks (timers s1) -> same_kind (callback t) (callback u) = false.
Proof.
  intros [[Hm Hw Hr Htok Hmid] Hk] He. cbv zeta. destruct (take_wf _ _ _ Hw He) as [Hw' He'].
  destruct (earliest_spec _ _ _ He) as [Hi _].
  assert (forall u, u ∈ delete i (tasks (timers s)) -> u ∈ tasks (timers s) /\ id u <> id t) as Hd.
  { intros u. rewrite (delete_filter i _ t) by (done || apply Hw). rewrite list_elem_of_filter. tauto. }
  split; [split; [split; cbn; [done|done|done| |done]|done]|split; [split; cbn; try done; lia|]].
  - intros u [Hu _]%Hd. by apply Htok.
  - cbn. intros u [Hu Hne]%Hd. pose proof (Htok u Hu) as H1.
    pose proof (Htok t (list_elem_of_lookup_2 _ _ _ Hi)) as H2. destruct (callback t), (callback u); cbn in *; congruence.
Qed.

Lemma set_dispatching_ok b s : ok heldKeys s -> ok heldKeys (set_timers (Scheduler.set_dispatching b (timers s)) s).
Proof.
  intros [[Hm [? ? ? ? ? ?] Hr Htok Hmid] Hk]. split; [|done]. by split.
Qed.

Lemma dispatch_ok now budget s : ok heldKeys s -> budget <> O -> dispatching (timers s) = false ->
  outcome (fun _ _ => True) (Scheduler.dispatchDue (fire transport heldKeys pointerEventInterval) now budget) s.
Proof.
  intros Hs Hb Hd. unfold Scheduler.dispatchDue, outcome, st_ends.
  cbn [Scheduler.sched Scheduler.with_sched session_host]. rewrite (proj2 (Nat.eqb_neq _ _) Hb), Hd.
  pose proof (set_dispatching_ok true s Hs) as H1. set (s1 := set_timers _ s) in *.
  pose proof (dispatch_loop_inv (fire transport heldKeys pointerEventInterval) now
    (fun x => ok heldKeys x /\ same s1 x) (fun e x => fails e x /\ same s1 x)) as Hl.
  specialize (fun H => Hl H budget 0 s1 (conj H1 (reflexivity s1))). unfold st_ends in Hl.
  destruct (Scheduler.dispatch_loop _ now budget 0 s1) as [r s2].
  assert (match r with Ok _ => ok heldKeys s2 /\ same s1 s2 | Throw e => fails e s2 /\ same s1 s2 end) as Hr.
  { apply Hl. clear. intros w i t [Hw Hsame] He. destruct (take_task_ok i t w Hw He) as (H2 & H3 & H4).
    pose proof (fire_keeps (callback t) _ H2 H4) as Hf. eapply ends_conseq_throw; [eapply ends_conseq; [exact Hf|]|].
    - intros a s' (A1 & A2 & _). split; [done|]. etransitivity; [exact Hsame|]. by etransitivity.
    - intros e s' (A1 & A2). split; [done|]. etransitivity; [exact Hsame|]. by etransitivity. }
  clear Hl. destruct r as [n|e]; destruct Hr as [H2 [S1 S2 S3 S4 S5 S6 S7]];
    assert (steady s (set_timers (Scheduler.set_dispatching false (timers s2)) s2)) as Hst
      by (split; [exact S3|by rewrite Hd|change (InputQueue.capacity (mailbox s2) = InputQueue.capacity (mailbox s)); by rewrite S1]).
  - split; [by apply set_dispatching_ok|]. split; [exact Hst|]. split; [exact S5|done].
  - destruct H2 as [Ha H2]. split; [|exact Hst]. split; [exact Ha|].
    destruct H2 as [? [? ? ? ? ? ?] ? ? ?]. by split.
Qed.

(** *** A drain that is not interrupted *)

(** The commands and the release a mailbox still has to give. *)
Definition backlog (x : InputQueue.Impl) : nat :=
  length (InputQueue.queue x) + (if InputQueue.releasePending (InputQueue.status x) then 1 else 0).

Lemma interrupt_none s : interrupt [] s = (Ok tt, s).
Proof. unfold interrupt, st_change. cbn. by rewrite set_mailbox_same. Qed.

Definition drained (b : bool) (s : session) : Prop :=
  InputQueue.queue (mailbox s) = [] /\
  if b then InputQueue.releasePending (InputQueue.status (mailbox s)) = false
  else InputQueue.focused (InputQueue.status (mailbox s)) = false /\
       server_buttons (wire s) = 0 /\ forall k, server_key k (wire s) = false.

(** Sending leaves the mailbox alone. *)
Lemma sendInput_outcome command s c : ok heldKeys s -> connection s = Some c ->
  outcome (fun b s' => mailbox s' = mailbox s /\ (exists c', connection s' = Some c') /\
      (InputQueue.kind command = InputQueue.ReleaseAll -> b = true /\ clean s'))
    (sendInput transport heldKeys pointerEventInterval command) s.
Proof.
  intros Hs Hc. apply keeps_outcome. eapply keeps_impl; [by apply (sendInput_keeps command s c)|].
  intros b s' _ Hsm H. split; [apply Hsm|]. split; [by apply (live_same s s' c)|done].
Qed.

Lemma drain_loop_drains n s c : ok heldKeys s -> connection s = Some c -> (backlog (mailbox s) <= n)%nat ->
  outcome (fun b s' => drained b s' /\
      (InputQueue.releasePending (InputQueue.status (mailbox s)) = true -> InputQueue.queue (mailbox s) = [] ->
       b = true /\ clean s') /\
      (backlog (mailbox s) = O -> clean s -> b = true /\ clean s'))
    (Drain n []) s.
Proof.
  revert s c. induction n as [|n IH]; intros s c Hs Hc Hn; cbn [drain_loop].
  { apply keeps_outcome, keeps_ret; [done|]. unfold backlog in Hn. unfold drained.
    destruct (InputQueue.queue (mailbox s)); [|cbn in Hn; lia].
    destruct (InputQueue.releasePending _); [cbn in Hn; lia|]. done. }
  destruct (take_ok s Hs) as (cmd & x & E & Et & Hx & Hcx). pose proof (InputQueue.take_cases _ (so_mailbox _ (proj1 Hs))) as Ht.
  rewrite Et in Ht.
  eapply (outcome_seq (fun a s' => a = cmd /\ s' = set_mailbox x s)).
  { unfold outcome, st_ends. rewrite E. split; [by apply set_mailbox_ok|]. by split; [by split|]. }
  intros a s1 H1 _ [-> ->]. destruct cmd as [command|].
  2: { destruct Ht as (-> & Hq & Hr). rewrite set_mailbox_same in *. apply keeps_outcome, keeps_ret; [done|].
       split; [by split|]. split; [congruence|done]. }
  destruct Ht as [Hrx Ht].
  eapply (outcome_seq (fun _ s' => s' = set_mailbox x s)).
  { unfold outcome, st_ends. cbn [List.hd]. rewrite interrupt_none. done. }
  intros u s2 _ _ ->. eapply outcome_seq; [by apply (sendInput_outcome command _ c)|].
  intros b s3 H3 _ (Hm3 & [c3 Hc3] & Hrel). change (mailbox (set_mailbox x s)) with x in Hm3.
  assert (backlog (mailbox s3) <= n)%nat as Hn3.
  { rewrite Hm3. unfold backlog in *. rewrite Hrx.
    destruct (InputQueue.releasePending (InputQueue.status (mailbox s))).
    - destruct Ht as [_ ->]. lia.
    - destruct Ht as [a' Ha']. rewrite Ha' in Hn. cbn in Hn. lia. }
  assert (backlog (mailbox s) <> O) as Hne.
  { unfold backlog. destruct (InputQueue.releasePending (InputQueue.status (mailbox s))); [lia|]. destruct Ht as [a' ->]. cbn. lia. }
  destruct b.
  - eapply ends_conseq; [by apply (IH s3 c3)|]. intros b s' (A1 & A2 & A3 & D1 & D2 & D3).
    split; [done|]. split; [done|]. split; [done|]. split; [done|]. split; [|done].
    intros Hr Hq. rewrite Hr in Ht. destruct Ht as [Hk Hqx]. destruct (Hrel Hk) as [_ Hcl].
    assert (backlog (mailbox s3) = O) as H0 by (unfold backlog; by rewrite Hm3, Hrx, Hqx, Hq).
    by apply D3.
  - eapply ends_conseq; [by apply (refused_ok s3 c3)|]. intros b s' (A1 & A2 & A3 & -> & Q1 & Q2 & Q3).
    split; [done|]. split; [done|]. split; [done|]. split; [by split|]. split; [|done].
    intros Hr Hq. rewrite Hr in Ht. destruct Ht as [Hk _]. by destruct (Hrel Hk).
Qed.

(** ** Every interleaving *)

(** [buffers] and [timing] as the constructor accepts them; the frame publisher's
    generation starts at 1. *)
Definition new_session : res session :=
  box ← InputQueue.new_queue (Z.of_nat inputCommands);
  times ← Scheduler.new_scheduler 5;
  if (heldKeys =? 0)%nat || (1024 <? heldKeys)%nat then Throw (invalid_argument "Invalid held key limit")
  else if (pointerEventInterval <? 0) || (pointerEventInterval >? 2 ^ 31 - 1)
  then Throw (invalid_argument "Invalid session timing policy")
  else Ok (MkSession box times MiddleButton.init_middle 0 InputQueue.empty_command 0 0 0 1 None false 0 []).

(** The calls other threads may make. *)
Definition user (o : InputQueue.op) : bool :=
  match o with
  | InputQueue.OKey _ _ _ _ _ _ | InputQueue.OPointer _ _ _ _ _ | InputQueue.OSetFocused _ _
  | InputQueue.OReleaseAll _ | InputQueue.OSetViewOnly _ | InputQueue.OSetPolicy _ _ => true
  | _ => false
  end.

(** The states of a session, whether the calls return or throw. *)
Inductive session_reachable : session -> Prop :=
| sr_new s : new_session = Ok s -> session_reachable s
| sr_user ops s : session_reachable s -> forallb user ops = true -> session_reachable (snd (interrupt ops s))
| sr_tick d s : session_reachable s -> 0 <= d -> session_reachable (set_clock (clock s + d) s)
| sr_drain intr s : session_reachable s -> forallb (forallb user) intr = true ->
    session_reachable (snd (drainInput transport heldKeys inputCommands pointerEventInterval intr s))
| sr_dispatch budget s : session_reachable s ->
    session_reachable (snd (dispatchScheduled transport heldKeys pointerEventInterval budget s))
| sr_start s : session_reachable s -> session_reachable (snd (start s))
| sr_initDone c s : session_reachable s -> connection s = Some c -> ready c = false ->
    session_reachable (snd (initDone s))
| sr_finish s : session_reachable s -> session_reachable (snd (finish transport s)).

(** What is kept between calls. *)
Definition between (s : session) : Prop :=
  ok heldKeys s /\ processing s = false /\ dispatching (timers s) = false /\
  InputQueue.capacity (mailbox s) = Z.of_nat inputCommands.

Lemma closed_between s s' : between s -> sound s' -> connection s' = None -> processing s' = false ->
  dispatching (timers s') = dispatching (timers s) ->
  InputQueue.capacity (mailbox s') = InputQueue.capacity (mailbox s) -> between s'.
Proof.
  intros (_ & _ & Hd & Hc) Hs Hn Hp Hd' Hc'. split; [|split; [done|split; congruence]].
  split; [done|]. by rewrite Hn.
Qed.

Lemma drainInput_ok intr s : between s ->
  st_ends (drainInput transport heldKeys inputCommands pointerEventInterval intr)
    (fun _ s' => between s') (fun e s' => allowed e s' /\ connection s' = None /\ between s') s.
Proof.
  intros Hb. pose proof Hb as (Hs & Hp & Hd & Hc). unfold drainInput. apply ends_bind, ends_get. rewrite Hp.
  destruct (connection s) as [c|] eqn:Ec; [|by apply ends_ret]. destruct (ready c); [|by apply ends_ret].
  assert (ok heldKeys (set_processing true s)) as H1 by plain_field.
  pose proof (drain_loop_ok (S inputCommands) intr (set_processing true s) c H1 Ec) as Hl.
  eapply ends_conseq_throw; [eapply ends_conseq; [by apply (guarded_ok _ _ s Hs Hp Hl)|]|].
  - intros b s' (A1 & A2 & A3 & A4 & _). split; [done|]. split; [done|]. split; congruence.
  - intros e s' (A1 & A2 & A3 & A4 & A5 & A6). split; [done|]. split; [done|]. by apply (closed_between s).
Qed.

Lemma dispatchScheduled_ok budget s : between s -> budget <> O ->
  st_ends (dispatchScheduled transport heldKeys pointerEventInterval budget)
    (fun _ s' => between s') (fun e s' => allowed e s' /\ connection s' = None /\ between s') s.
Proof.
  intros Hb Hbu. pose proof Hb as (Hs & Hp & Hd & Hc). unfold dispatchScheduled. apply ends_bind, ends_get.
  rewrite Hp, (proj2 (Nat.eqb_neq _ _) Hbu).
  assert (ok heldKeys (set_processing true s)) as H1 by plain_field.
  pose proof (dispatch_ok (clock s) budget (set_processing true s) H1 Hbu Hd) as Hl.
  eapply ends_conseq_throw; [eapply ends_conseq; [by apply (guarded_ok _ _ s Hs Hp Hl)|]|].
  - intros b s' (A1 & A2 & A3 & A4 & _). split; [done|]. split; [done|]. split; congruence.
  - intros e s' (A1 & A2 & A3 & A4 & A5 & A6). split; [done|]. split; [done|]. by apply (closed_between s).
Qed.

Lemma st_ends_snd {A} (m : SE session A) (P : session -> Prop) s :
  st_ends m (fun _ => P) (fun _ => P) s -> P (snd (m s)).
Proof. unfold st_ends. by destruct (m s) as [[a|e] s']. Qed.

Lemma known_new c : held c = [] -> cn_buttons c = 0 -> known heldKeys [] c.
Proof. intros Hh Hb. split; rewrite ?Hh, ?Hb; cbn; [done|done|lia|by constructor]. Qed.

Lemma reachable_between s : session_reachable s -> between s.
Proof.
  induction 1 as [s Hn|ops s _ IH _|d s _ IH _|intr s _ IH _|budget s _ IH|s _ IH|c s _ IH Hc Hr|s _ IH].
  - unfold new_session in Hn. destruct (InputQueue.new_queue _) as [box|] eqn:Eb; [|done].
    cbn [mbind res_bind Scheduler.new_scheduler] in Hn. change (Scheduler.new_scheduler 5) with (Ok (@Scheduler.MkState timer 5 [] 0 false false 0)) in Hn.
    cbn [mbind res_bind] in Hn. destruct (_ || _); [done|]. destruct (_ || _); [done|]. injection Hn as <-.
    pose proof (InputQueue.new_queue_wf _ _ (Nat2Z.is_nonneg _) Eb) as Hw.
    unfold InputQueue.new_queue in Eb. destruct (_ || _); [done|]. injection Eb as <-.
    split; [|done]. split; [|done]. split; cbn; [done| |done|by intros t ?%not_elem_of_nil|apply MiddleButton.init_wf].
    by apply (Scheduler.new_scheduler_wf 5).
  - pose proof IH as (Hs & Hp & Hd & Hc). pose proof (interrupt_ok ops s Hs) as Hi.
    unfold outcome, st_ends in Hi. destruct (interrupt ops s) as [[u|e] s'] eqn:E; [|done].
    destruct Hi as (H1 & [H2 H3 H4] & _). split; [done|]. cbn [snd]. split; [congruence|]. split; congruence.
  - destruct IH as (Hs & Hp & Hd & Hc). split; [plain_field|done].
  - apply st_ends_snd. eapply ends_conseq_throw; [by apply drainInput_ok|]. intros e s' (_ & _ & H). done.
  - destruct (Nat.eq_dec budget O) as [->|Hne].
    + unfold dispatchScheduled, mbind, SE_bind, st_get. pose proof IH as (_ & Hp & _). by rewrite Hp.
    + apply st_ends_snd. eapply ends_conseq_throw; [by apply dispatchScheduled_ok|]. intros e s' (_ & _ & H). done.
  - pose proof IH as (Hs & Hp & Hd & Hc). unfold start, mbind, SE_bind, st_get.
    destruct (connection s); [done|]. destruct (_ =? _); [done|].
    pose proof (InputQueue.step_wf (InputQueue.OBegin (sgeneration s)) _ (so_mailbox _ (proj1 Hs))) as Hw.
    pose proof (InputQueue.step_capacity (InputQueue.OBegin (sgeneration s)) (mailbox s)) as Hcap.
    cbn [InputQueue.step] in Hw, Hcap. unfold mbind, SE_bind, mret, SE_ret in Hw, Hcap.
    destruct (InputQueue.begin_attempt (sgeneration s) (mailbox s)) as [r x] eqn:E.
    rewrite (on_mailbox_eq _ _ _ _ E). destruct r as [u|e]; [|by unfold InputQueue.begin_attempt in E].
    cbn [snd] in *. split; [|split; [done|split; [done|by rewrite <- Hc]]].
    split; [|by intros c [= <-]; apply known_new]. destruct Hs as [[? ? ? ? ?] _]. by split.
  - pose proof IH as (Hs & Hp & Hd & Hcap). unfold initDone, get_connection, put_connection, mbind, SE_bind, st_get, st_change, mret, SE_ret.
    rewrite Hc. set (c1 := MkConnection true _ _ _). set (s1 := set_connection (Some c1) s).
    pose proof (InputQueue.step_wf InputQueue.OConnected (mailbox s) (so_mailbox _ (proj1 Hs))) as Hw.
    pose proof (InputQueue.step_capacity InputQueue.OConnected (mailbox s)) as Hcap'.
    cbn [InputQueue.step] in Hw, Hcap'. unfold mbind, SE_bind, mret, SE_ret in Hw, Hcap'.
    destruct (InputQueue.note_connected (mailbox s)) as [r x] eqn:E.
    rewrite (on_mailbox_eq _ s1 _ _ E). destruct r as [u|e]; [|by unfold InputQueue.note_connected in E].
    cbn [snd] in *. split; [|split; [done|split; [done|by rewrite <- Hcap]]].
    destruct Hs as [[? ? ? ? ?] Hk]. split; [by split|]. intros c2 [= <-].
    destruct (Hk c Hc) as [K1 K2 K3 K4]. by split.
  - pose proof IH as (Hs & Hp & Hd & Hc). apply st_ends_snd.
    eapply ends_conseq_throw; [eapply ends_conseq; [by apply finish_ok; [apply Hs|]|]|done].
    intros u s' (F1 & F2 & F3 & F4 & F5 & F6). by apply (closed_between s).
Qed.

(** A drain of a ready session, not interrupted. *)
Lemma drain_ready s c : between s -> connection s = Some c -> ready c = true ->
  st_ends (drainInput transport heldKeys inputCommands pointerEventInterval []) (fun b s' => drained b s') (fun _ _ => True) s /\
  (InputQueue.releasePending (InputQueue.status (mailbox s)) = true -> InputQueue.queue (mailbox s) = [] ->
   st_ends (drainInput transport heldKeys inputCommands pointerEventInterval []) (fun b s' => b = true /\ clean s') (fun _ _ => True) s).
Proof.
  intros (Hs & Hp & Hd & Hcap) Hc Hr.
  assert (ok heldKeys (set_processing true s)) as H1 by plain_field.
  assert (backlog (mailbox (set_processing true s)) <= S inputCommands)%nat as Hn.
  { pose proof (InputQueue.wf_bound _ (so_mailbox _ (proj1 Hs))) as Hb. rewrite Hcap in Hb. unfold len in Hb.
    change (mailbox (set_processing true s)) with (mailbox s). unfold backlog. destruct (InputQueue.releasePending _); lia. }
  pose proof (drain_loop_drains (S inputCommands) (set_processing true s) c H1 Hc Hn) as Hl.
  pose proof (guarded_ok _ _ s Hs Hp Hl) as Hg.
  assert (forall P : bool -> session -> Prop,
    (forall b s2, drained b s2 /\ (InputQueue.releasePending (InputQueue.status (mailbox s)) = true ->
        InputQueue.queue (mailbox s) = [] -> b = true /\ clean s2) -> P b (set_processing false s2)) ->
    st_ends (drainInput transport heldKeys inputCommands pointerEventInterval []) P (fun _ _ => True) s) as Hall.
  { intros P HP. unfold drainInput. apply ends_bind, ends_get. rewrite Hp, Hc, Hr.
    eapply ends_conseq_throw; [eapply ends_conseq; [exact Hg|]|done].
    intros b s' (_ & _ & _ & _ & s2 & (D1 & D2 & _) & ->). by apply HP. }
  split; [|intros Hrp Hq]; apply Hall; intros b s2 [D1 D2]; [done|].
  destruct (D2 Hrp Hq) as [-> D3]. done.
Qed.

(** The calls that take the keyboard away. *)
Definition barrier (o : InputQueue.op) : bool :=
  match o with
  | InputQueue.OSetFocused _ f => negb f
  | InputQueue.OReleaseAll _ => true
  | InputQueue.OSetViewOnly b | InputQueue.OSetPolicy b _ => b
  | _ => false
  end.

Lemma barrier_pending o x out x' : InputQueue.connected (InputQueue.status x) = true -> barrier o = true ->
  InputQueue.step o x = (Ok out, x') -> out <> InputQueue.Result InputQueue.StaleGeneration ->
  InputQueue.releasePending (InputQueue.status x') = true /\ InputQueue.queue x' = [].
Proof.
  intros Hc Hb. destruct o as [| |gen f|gen|v|v e| | | | |]; try done; cbn in Hb; subst.
  all: destruct x as [cap [g ov rev qd cn fc vo rp em] btns q]; cbn in Hc; subst; cbn [InputQueue.step];
    unfold InputQueue.setFocused, InputQueue.releaseAll, InputQueue.setViewOnly, InputQueue.setPolicy, InputQueue.policy,
      InputQueue.reroute, InputQueue.release, InputQueue.status_change, st_change, st_get, st_throw, mbind, SE_bind,
      mret, SE_ret, fmap, SE_fmap; cbn.
  all: try (destruct f; [done|]). all: repeat (case_test; cbn). all: try done; intros [= <- <-] Hout; done.
Qed.

(** ** Properties *)

(** C14: However the calls of the worker and of other threads interleave, and
    whether writes throw or not: the server holds no key the session does not
    know of, and exactly the buttons it knows of, so that a later release finds
    them; at most the configured number of keys is held, each once; the mailbox,
    the emulator and the timers are in order, and each kind of input has at most
    one timer, whose token the session has. *)
Theorem session_knows_what_is_held s :
  session_reachable s ->
  sound s /\
  forall c, connection s = Some c ->
    server_buttons (wire s) = cn_buttons c /\
    (forall k, server_key k (wire s) = true -> k ∈ (key_of <$> held c)) /\
    (length (held c) <= heldKeys)%nat /\ NoDup (hk_id <$> held c).
Proof.
  intros H. destruct (reachable_between s H) as [[Hs Hk] _]. split; [done|].
  intros c Hc. destruct (Hk c Hc) as [K1 K2 K3 K4]. done.
Qed.

(** C33: The only exceptions that input can end a session with are those of the
    transport, a clock at its end, an exhausted routing revision, and a refused
    timer when the scheduler's numbers are used up; the queue of timers is never
    full, no index leaves a table, no null pointer is used.  After one of them
    the session has no connection and is ready for another attempt. *)
Theorem session_errors s intr budget :
  session_reachable s -> budget <> O ->
  (forall e s', drainInput transport heldKeys inputCommands pointerEventInterval intr s = (Throw e, s') ->
     allowed e s' /\ connection s' = None /\ processing s' = false) /\
  (forall e s', dispatchScheduled transport heldKeys pointerEventInterval budget s = (Throw e, s') ->
     allowed e s' /\ connection s' = None /\ processing s' = false).
Proof.
  intros H Hb. pose proof (reachable_between s H) as Hbet. split; intros e s' E.
  - pose proof (drainInput_ok intr s Hbet) as Hd. unfold st_ends in Hd. rewrite E in Hd.
    destruct Hd as (H1 & H2 & (_ & H3 & _)). done.
  - pose proof (dispatchScheduled_ok budget s Hbet Hb) as Hd. unfold st_ends in Hd. rewrite E in Hd.
    destruct Hd as (H1 & H2 & (_ & H3 & _)). done.
Qed.

(** C32: A drain of a ready session that is not interrupted and does not throw
    empties the mailbox: everything submitted has been sent or is being delayed,
    or, when a key did not fit, all input is discarded, the mailbox closed, and
    the server holds nothing. *)
Theorem drain_empties_mailbox s c b s' :
  session_reachable s -> connection s = Some c -> ready c = true ->
  drainInput transport heldKeys inputCommands pointerEventInterval [] s = (Ok b, s') ->
  InputQueue.queue (mailbox s') = [] /\
  if b then InputQueue.releasePending (InputQueue.status (mailbox s')) = false
  else InputQueue.focused (InputQueue.status (mailbox s')) = false /\
       server_buttons (wire s') = 0 /\ forall k, server_key k (wire s') = false.
Proof.
  intros H Hc Hr E. destruct (drain_ready s c (reachable_between s H) Hc Hr) as [Hd _].
  unfold st_ends in Hd. rewrite E in Hd. apply Hd.
Qed.

(** C7: A call that takes the keyboard away (focus lost, everything released,
    view only) reaches the server: after the next drain the server holds no key
    and no button, whatever was held or submitted before, and no delayed motion
    or button is left to be sent later. *)
Theorem release_reaches_server s c o out x b s' :
  session_reachable s -> connection s = Some c -> ready c = true ->
  InputQueue.connected (InputQueue.status (mailbox s)) = true ->
  barrier o = true -> InputQueue.step o (mailbox s) = (Ok out, x) -> out <> InputQueue.Result InputQueue.StaleGeneration ->
  drainInput transport heldKeys inputCommands pointerEventInterval [] (set_mailbox x s) = (Ok b, s') ->
  b = true /\ server_buttons (wire s') = 0 /\ (forall k, server_key k (wire s') = false) /\
  tasks (timers s') = [] /\ InputQueue.queue (mailbox s') = [].
Proof.
  intros H Hc Hr Hcn Ho E Hout Ed. destruct (reachable_between s H) as (Hs & Hp & Hd & Hcap).
  destruct (barrier_pending o _ out x Hcn Ho E Hout) as [Hrp Hq].
  assert (between (set_mailbox x s)) as Hb.
  { pose proof (InputQueue.step_wf o _ (so_mailbox _ (proj1 Hs))) as Hw.
    pose proof (InputQueue.step_capacity o (mailbox s)) as Hc'. rewrite E in Hw, Hc'.
    split; [by apply set_mailbox_ok|]. split; [done|]. split; [done|]. change (InputQueue.capacity x = Z.of_nat inputCommands).
    by rewrite <- Hcap. }
  destruct (drain_ready _ c Hb Hc Hr) as [Hde Hcl]. unfold st_ends in Hde, Hcl. rewrite Ed in Hde, Hcl.
  specialize (Hcl Hrp Hq). destruct Hcl as [-> (T1 & _ & _ & W1 & W2)]. destruct Hde as [Hq' _]. done.
Qed.
End conn.

(** *** A session with two keys at most, throttled to 17 ms *)

Definition accepting (_ : list wevent) (_ : wevent) : option exn := None.

Definition example_new : session :=
  MkSession (InputQueue.MkImpl 4 InputQueue.init_status 0 []) (Scheduler.MkState 5 [] 0 false false 0)
    MiddleButton.init_middle 0 InputQueue.empty_command 0 0 0 1 None false 0 [].
Definition example_ready : session := snd (initDone (snd (start example_new))).
(** A key and a button go down and the pointer moves. *)
Definition example_typed : session :=
  snd (interrupt [InputQueue.OKey true 1 7 97 0 true; InputQueue.OPointer true 1 3 4 1; InputQueue.OPointer true 1 5 4 1]
    example_ready).
Definition example_held : session := snd (drainInput accepting 2 4 17 [] example_typed).

Definition example_connection (h : list HeldKey) (p : Point) (b : Z) : Connection := MkConnection true h p b.

Lemma example_ready_reachable : session_reachable accepting 2 4 17 example_ready.
Proof.
  apply sr_initDone with (c := new_connection); [apply sr_start, sr_new; reflexivity|reflexivity|reflexivity].
Qed.

Lemma example_typed_reachable : session_reachable accepting 2 4 17 example_typed.
Proof. apply sr_user; [apply example_ready_reachable|reflexivity]. Qed.

Lemma example_held_reachable : session_reachable accepting 2 4 17 example_held.
Proof. apply sr_drain; [apply example_typed_reachable|reflexivity]. Qed.

Theorem session_knows_what_is_held_witness :
  wire example_held = [WKey 97 0 true; WPointer (MkPoint 3 4) 1] /\
  sound example_held /\ NoDup (hk_id <$> [MkHeld 7 97 0]).
Proof.
  split; [reflexivity|].
  pose proof (session_knows_what_is_held accepting 2 4 17 example_held example_held_reachable) as [H1 H2].
  split; [exact H1|]. exact (proj2 (proj2 (proj2 (H2 (example_connection [MkHeld 7 97 0] (MkPoint 3 4) 1) eq_refl)))).
Defined.

(** A transport that is gone. *)
Definition refusing (_ : list wevent) (_ : wevent) : option exn := Some (runtime_error "gone").

Lemma refusing_typed_reachable : session_reachable refusing 2 4 17 example_typed.
Proof.
  apply sr_user; [|reflexivity].
  apply sr_initDone with (c := new_connection); [apply sr_start, sr_new; reflexivity|reflexivity|reflexivity].
Qed.

Definition example_gone : session := snd (drainInput refusing 2 4 17 [] example_typed).

Lemma example_gone_eq : drainInput refusing 2 4 17 [] example_typed = (Throw (runtime_error "gone"), example_gone).
Proof. vm_compute. reflexivity. Qed.

Theorem session_errors_witness :
  drainInput refusing 2 4 17 [] example_typed = (Throw (runtime_error "gone"), example_gone) /\
  connection example_gone = None.
Proof.
  split; [exact example_gone_eq|].
  exact (proj1 (proj2 (proj1 (session_errors refusing 2 4 17 example_typed [] 1 refusing_typed_reachable (Nat.neq_succ_0 0))
    (runtime_error "gone") example_gone example_gone_eq))).
Defined.

Lemma example_held_eq : drainInput accepting 2 4 17 [] example_typed = (Ok true, example_held).
Proof. vm_compute. reflexivity. Qed.

Theorem drain_empties_mailbox_witness :
  length (InputQueue.queue (mailbox example_typed)) = 3%nat /\
  InputQueue.queue (mailbox example_held) = [].
Proof.
  split; [reflexivity|].
  exact (proj1 (drain_empties_mailbox accepting 2 4 17 example_typed (example_connection [] (MkPoint 0 0) 0) true example_held
    example_typed_reachable eq_refl eq_refl example_held_eq)).
Defined.

(** Focus is lost while a key and a button are held and a motion is delayed. *)
Definition example_unfocused : InputQueue.Impl :=
  snd (InputQueue.step (InputQueue.OSetFocused 1 false) (mailbox example_held)).
Definition example_left : session := snd (drainInput accepting 2 4 17 [] (set_mailbox example_unfocused example_held)).

Lemma example_unfocused_eq : InputQueue.step (InputQueue.OSetFocused 1 false) (mailbox example_held) =
  (Ok (InputQueue.Result InputQueue.Accepted), example_unfocused).
Proof. vm_compute. reflexivity. Qed.

Lemma example_left_eq : drainInput accepting 2 4 17 [] (set_mailbox example_unfocused example_held) = (Ok true, example_left).
Proof. vm_compute. reflexivity. Qed.

Theorem release_reaches_server_witness :
  length (tasks (timers example_held)) = 1%nat /\
  server_buttons (wire example_held) = 1 /\ server_buttons (wire example_left) = 0.
Proof.
  split; [reflexivity|]. split; [reflexivity|].
  exact (proj1 (proj2 (release_reaches_server accepting 2 4 17 example_held
    (example_connection [MkHeld 7 97 0] (MkPoint 3 4) 1) (InputQueue.OSetFocused 1 false)
    (InputQueue.Result InputQueue.Accepted) example_unfocused true example_left example_held_reachable eq_refl eq_refl eq_refl
    eq_refl example_unfocused_eq ltac:(discriminate) example_left_eq))).
Defined.
